(* ===== verification/_CoqProject ===== *)
-Q . S2P
Prelude.v
Types.v
TypesV3.v
Wire.v
WireV3.v
WireCodes.v
WireBinding.v
WireProps.v
CoreRecovery.v
CoreRotation.v
CoreEpochRecovery.v
Storage.v
StorageRotation.v
Crypto.v
Sharing.v
RotationProtocol.v
Scenario.v
SharingScenario.v
SharingProps.v
Frost.v
FrostProps.v
FrostBounds.v
DealerProps.v
EpochReads.v
RotationProps.v
RosterProps.v
Protocol.v
Api.v
Mailbox.v
SignerNode.v
GuardianNode.v
RecoveryScenario.v
GuardianProps.v
WitnessServer.v
WitnessProps.v
WitnessQuorum.v
RuntimeTypes.v
Actors.v
SignerRuntime.v
SignerSpec.v
SignerHistory.v
SignerScenario.v
SignerProps.v
GuardianRecovery.v
GuardianSession.v
GuardianRuntime.v
GuardianSpec.v
GuardianHistory.v
GuardianRotationSpec.v
GuardianRotationHistory.v
GuardianEntry.v
GuardianScenario.v
GuardianV3Props.v
NodesV3.v
ClientNet.v
ClientV2.v
ClientV3.v
SetupV3.v
Coordinator.v
Rotate.v
Handover.v
CancelRotation.v
ClientScenario.v
RotationScenario.v
SetupRecovery.v
ClientProps.v
CancelProps.v
CoordinatorProps.v
RotationCancelProps.v
Transport.v
TransportProps.v
Simulator.v
SimulatorRun.v
RotationSim.v
RotationSimRun.v
SimulatorScenario.v
SimulatorProps.v
RotationSimProps.v
NodeShell.v
Frontends.v
