(* ===== verification/Prelude.v ===== *)
(** * Guardian-based master recovery: a verification library

    The program is a Rust workspace (crates/) in which an owner's encrypted
    recovery secret is split among guardians, signers authorise its release
    after a delay during which the owner can cancel, and the set of guardians
    is rotated under a log kept by card-pinned witnesses.  This library
    translates its deterministic core into Gallina and proves what the
    protocol documents (PROTOCOL.md, GUARDIAN_ROTATION.md) rely on.

    ** Parts and how they interact

    - gp-types holds the messages, records and certificates; no behaviour but
      the successor relation on configuration references.
    - gp-wire turns a message or certificate into the bytes that are signed or
      hashed, and frames them.  It also performs the structural checks of
      quorum certificates (bounds, distinct actors, votes bound to the
      certificate).
    - gp-core holds the state machines: the client's recovery
      ([RecoveryMachine]), the guardian's record of requests
      ([GuardianMachine]), one rotation ([RotationMachine]), one witness
      ([EpochWitnessMachine]) and the requests of active and draining epochs
      ([EpochRecoveryMachine]).  The machines do no cryptography: the caller
      passes the outcome of each check as a flag, a digest or a time.
    - gp-storage holds what a node keeps between requests: the epochs of a
      guardian, the votes of a signer, the head of a witness.  A witness's
      store is the durable form of the witness machine.
    - gp-crypto wraps the primitives: digests, signatures, Merkle proofs,
      secret sharing.
    - gp-network validates messages and certificates against a configuration
      capsule (rotation_protocol.rs, protocol.rs) and runs the nodes
      (server.rs and the runtimes): it verifies signatures, calls the machines
      and the stores, and speaks HTTP.

    ** Files

    The data and its bytes:
    - [Prelude]: this file.  Integers at their width, fixed-size arrays,
      [Result], the monadic notation, big-endian encodings, shared lemmas on
      maps and lists, hint databases.
    - [Types], [TypesV3]: every struct and enum of crates/gp-types/src/lib.rs
      and crates/gp-types/src/rotation.rs.
    - [Wire], [WireV3]: every transcript function of crates/gp-wire/src/lib.rs
      and crates/gp-wire/src/rotation.rs, and the frames.
    - [WireCodes], [WireBinding], [WireProps]: a relational logic for
      transcript writers, one binding lemma per transcript, and the properties
      of the wire layer.

    The machines and stores:
    - [CoreRecovery] (modules [Recovery], [Guardian]): crates/gp-core/src/lib.rs.
    - [CoreRotation] (modules [Rotation], [Witness]) and [CoreEpochRecovery]
      (module [EpochRecovery]): crates/gp-core/src/rotation.rs.
    - [Storage] (modules [Signer], [Records]): crates/gp-storage/src/lib.rs.
    - [StorageRotation] (modules [Epochs], [Votes], [WitnessStore]):
      crates/gp-storage/src/rotation.rs.

    Cryptography:
    - [Crypto]: the class [Primitives] (digest, signatures, Merkle trees) and
      what crates/gp-crypto/src/lib.rs builds on it.
    - [Sharing]: the class [SharingPrimitives] (key derivation, AEAD, Shamir
      shares, erasure code, key encapsulation) and the rest of that file;
      [SharingProps] its properties.
    - [Frost]: the class [FrostPrimitives] and crates/gp-crypto/src/rotation.rs;
      [FrostProps], [FrostBounds], [DealerProps] its properties.

    What is checked of messages:
    - [RotationProtocol]: crates/gp-network/src/rotation_protocol.rs, from
      envelopes to the selection of the latest epoch out of witness answers;
      [EpochReads], [RotationProps], [RosterProps]: what it accepts.
    - [Protocol]: crates/gp-network/src/protocol.rs, the version-2 checks.

    The nodes (crates/gp-network/src/server.rs and the runtimes):
    - [Api], [RuntimeTypes], [Actors], [Mailbox]: messages, the entries that
      nodes keep, what the nodes share (provisioning, mailboxes, relay, config
      store).
    - [SignerNode], [GuardianNode], [GuardianProps]: version 2.
    - [SignerRuntime]: a version-3 signer (rotation_runtime.rs,
      recovery_runtime.rs); [SignerSpec] what a single request does,
      [SignerHistory] and [SignerProps] what holds over all histories.
    - [GuardianRecovery], [GuardianSession], [GuardianRuntime]: a version-3
      guardian (recovery_runtime.rs, guardian_runtime.rs); [GuardianSpec],
      [GuardianHistory], [GuardianRotationSpec], [GuardianRotationHistory],
      [GuardianEntry], [GuardianV3Props] in the same way.
    - [NodesV3]: how the version-3 nodes wrap those decisions (sealing,
      writing before answering).
    - [NodeShell] (modules [StateFiles], [NodeShell]): how a node writes and
      reads its state files, and that the saves of [Api] are what it does; its
      description and health, and a relay's forwarding.
    - [WitnessServer]: the witness, every handler with its locks; what it holds
      in memory over the requests of one process ([ran]), and with its state
      file over failed writes and restarts ([lived]);
      [WitnessProps] one witness over such histories, [WitnessQuorum] many
      witnesses, as long as they run, and the honest ones among them.

    The clients, which drive the nodes and trust none of them:
    - [ClientNet]: the class [Network] of the world (HTTP, clock, files), the
      class [ClientPrimitives] of JSON, failover between relays;
      [ClientV2], [ClientV3], [SetupV3]: crates/gp-network/src/client.rs.
    - [Coordinator], [Rotate], [Handover], [CancelRotation]:
      crates/gp-network/src/rotation_coordinator.rs, with the classes
      [RotationNetwork] and [RotationJson].
    - [ClientProps], [SetupRecovery], [CancelProps], [CoordinatorProps],
      [RotationCancelProps]: what their reports of success mean.
    - [Frontends] (module [CommandLine]): which of them a subcommand runs
      (crates/gp-network/src/main.rs).

    The simulation, which runs the protocol in one process:
    - [Transport], [TransportProps]: crates/gp-transport/src/lib.rs.
    - [Simulator], [SimulatorRun]: the recovery simulator
      (crates/gp-sim/src/lib.rs), with the class [SimPrimitives];
      [SimulatorProps] (modules [SimulatorChecks], [SimulatorProps]): that its
      checks are those of the network code, and what its results mean.
    - [RotationSim] (with the ordered maps of module [BTree]),
      [RotationSimRun]: the rotation simulator (crates/gp-sim/src/rotation.rs);
      [RotationSimProps]: what its rotations leave and what its results mean.
    - [Frontends] (modules [ErrorText], [Frontends]): the programs around them (crates/gp-ipc, crates/gp-cli,
      crates/gp-gui-sim).

    Concrete inputs, on which witnesses run the code:
    [Scenario] and [SharingScenario] (toy instances of the primitives, which
    satisfy the laws assumed of them, and a complete rotation),
    [RecoveryScenario], [SignerScenario], [GuardianScenario],
    [ClientScenario], [RotationScenario] (version-2 and version-3 setups,
    recoveries and rotations, most answers made by the nodes' own code),
    [SimulatorScenario] (both simulators).  They model no code.

    A definition has the name of the function, method or type it translates.
    Where a name is taken in Gallina or clashes inside a file it is changed
    slightly ([Transcript::bytes] is [wbytes], [ConfigStore::get] is
    [get_capsule]); constructors and fields carry a prefix naming their type.

    ** How the code is represented

    - [u16], [u64] and the like are [uint w], a number with a proof that it is
      below [2 ^ w]; [saturating_add] is [sat_add], checked arithmetic on
      [usize] is an option.  [[u8; 32]] is [barr 32].
    - [Result<T, E>] is [Result E T].  A method with [&mut self] is a function
      to its result and the state after the call, on error paths too, because
      an error does not undo a mutation already made.
    - [BTreeMap] is [gmap], [BTreeSet] is [gset], [Vec] is [list], [String] is
      stdpp's [string].  Where the order of a map's iteration reaches a result,
      as in the rotation simulator, it is an ordered association list ([BTree]).
    - Histories: every machine has a relation [ran] (or a function [run]) over
      sequences of calls, and the theorems speak of all histories, including
      refused calls.
    - The loops of the code go over lists or maps, and the definitions are
      structural.  One recursion has fuel, the search for a numeric identifier
      in [Frost]: 65535 steps, one for each [u16], which
      [numeric_identifier_inverse] shows to be enough.
    - Clients are code over the world and the generator: [Client A] is
      [Net * Rng] to a result and the world after it.  Nothing is assumed of
      the world; any answer, or none, can come back from any request.
    - Third-party code enters as a parameter: the operations of the classes
      above, and [hex::encode], used for map keys by gp-storage.  A theorem
      that needs something of them says so: in its hypotheses (the encoding is
      injective; a digest has no collision on the values at hand; a signature
      that verifies under an honest witness's key was made by it), or by the
      classes of documented laws ([SigningLaws], [ShamirLaws],
      [ReedSolomonLaws], [SealingLaws], [IdentifierLaws], [DealerLaws],
      [DescriptorJson], [StateJsonLaws]), of which there are instances.

    ** What the theorems show

    - Wire: the 66 transcripts are injective up to the fields they leave out on
      purpose, and pairwise disjoint, so a signature or digest binds kind and
      content ([transcripts_bind]); frames round-trip ([frame_deframe]); quorum
      certificates that have a transcript hold distinct, bound votes
      ([epoch_activation_qc_quorum], [certificates_bind_votes],
      [unique_ids_spec]); any two activation QCs of a roster of at most 3f+1
      share f+1 witnesses ([activation_qcs_intersect]).
    - Client recovery: what sequences of calls complete, that every recovery
      terminates, and when secrets exist ([recovery_completes_iff],
      [recovery_terminates], [recovery_secret_actions]).
    - Guardian: each operation answers as a specification on call histories
      says ([guardian_release_iff], [guardian_begin_iff],
      [guardian_cancel_iff]), cancels are final, nothing is replayed, errors
      are inert.
    - Rotation: the machine runs exactly the lives of an inductive protocol
      description ([rotation_runs_iff]), with its safety path, stop and error
      behaviour.
    - Witness: one child per predecessor, a head that only moves forward, fresh
      reads, and failing closed after a conflict.
    - Epoch recoveries: releases characterised by the history
      ([epoch_release_iff]), finality of retirement and cancel, the exact
      conditions of activation and retirement.
    - Stores: observation without replay, monotone capsule versions, atomic
      transactions, a well-formedness invariant of the guardian's epochs, the
      functional behaviour of activation, preparation and retirement, votes
      without equivocation; and the witness store refines the witness machine
      ([witness_store_refines]), so that what the machine promises the store
      keeps.
    - Cryptography: distinct inputs for distinct keys
      ([derived_keys_separate]), sharing and erasure coding invert
      ([split_recover], [erasure_round_trip]), the share bitmap is a set
      ([share_bitmap_is_set]), what an accepted FROST result fixes and how
      large outputs get, two excepted ([dpss_result_sound], [frost_outputs_bounded]).
    - Validation: an activated capsule, Begin, Release, Ready, the roster of a
      plan, a selected epoch, each characterised
      ([activated_capsule_iff], [rotation_release_authorised],
      [rotation_replaces_one], [latest_epoch_selected]), and composed with the
      witnesses: activated capsules do not fork and a selected epoch is fresh
      ([activated_capsules_do_not_fork], [latest_epoch_is_fresh]).
    - Nodes, over all histories: a witness acknowledges one child and honours
      vetoes; a signer votes once, for one plan, and not after it closed a
      rotation; a guardian deals and releases only after a valid Begin and its
      delay, each with the votes of a signer threshold of the capsule it held
      then, honours cancels, and ends a rotation once
      ([witness_one_child_until_veto], for lives with restarts,
      [signer_votes_once], [guardian_v3_release_authorised] and their
      neighbours).
    - Clients: what a reported recovery, cancel, rotation or cancel of a
      rotation has verified of the files it read, with the keys it drew and at
      the times its clock showed, step by step ([runs]) ([recover_v3_sound], [cancel_leaves_no_quorum],
      [rotate_v3_sound], [rotation_cancel_blocks]); that setup's material gives
      the secret back ([setup_v3_recovers]); and when a mailbox cannot be
      reached ([rotation_mailbox_error]).
    - State files: at every point of a save a file loads as the old or the new
      state, so that the nodes' theorems about restarts hold of the files
      ([save_store_sound]); a newer file is refused ([newer_state_refused]).
    - Transport: what strong mode hides ([strong_mode_hides]).
    - Simulators: the recovery simulator's checks answer as the network code's
      do ([simulator_checks_agree]) and its result is the secret or a cancel
      ([demo_outcome]); no rotation of the rotation simulator leaves a record
      of an old epoch ([rotations_leave_no_old_record]) and its result counts
      what it did ([rotation_demo_outcome]).

    The lemmas [disjoint_activation_qcs], [release_after_expired],
    [cancel_after_release], [replayed_nonce_burns_id],
    [released_request_blocks_retirement], [successor_at_u64_max],
    [abort_overwrites_activated_tombstone], [forged_answer_blocks_quorum],
    [unsaved_ack_released], [unsaved_ack_forgotten], [veto_frees_the_predecessor],
    [signer_rolls_back],
    [retires_by_claimed_time], [cancelled_recovery_blocks_retirement],
    [unchecked_approval_stops_recovery], [one_bad_intent_stops_rotation] and
    [returning_guardian_rejected] record concrete behaviours at the edge of these guarantees.

    ** What is not modelled

    - Parsing of arguments and printing in the command lines, and the page of
      the browser gateway.
    - HTTP and TLS, routing and serde formats: the world and JSON classes
      stand for them.  Redacting [Debug] implementations, zeroizing [Drop]
      implementations and log output have no effect on results.
    - Benchmarks, the dashboard, scripts and tests. *)

From stdpp Require Export prelude gmap strings list fin_maps countable.
From Stdlib Require Import Strings.Byte.
From Stdlib Require Export NArith Lia.

Export Corelib.Init.Byte(byte(..)).

Declare Scope mr_scope.
Delimit Scope mr_scope with mr.

(** ** Bytes *)

#[export] Instance byte_eq_dec : EqDecision byte := Byte.byte_eq_dec.

#[export] Program Instance byte_countable : Countable byte :=
  inj_countable Byte.to_N Byte.of_N _.
Next Obligation. intros b. cbv beta. apply Byte.of_to_N. Qed.

#[export] Instance byte_inhabited : Inhabited byte := populate x00.

(** The byte of the eight low bits of [n]. *)
Definition byte_of_N (n : N) : byte := default x00 (Byte.of_N (n mod 256)).

Lemma byte_of_to_N b : byte_of_N (Byte.to_N b) = b.
Proof.
  unfold byte_of_N. rewrite N.mod_small.
  - by rewrite Byte.of_to_N.
  - pose proof (Byte.to_N_bounded b). lia.
Qed.

Lemma byte_to_of_N n : Byte.to_N (byte_of_N n) = (n mod 256)%N.
Proof.
  unfold byte_of_N. destruct (Byte.of_N (n mod 256)) eqn:E; simpl.
  - by apply Byte.to_of_N.
  - apply Byte.of_N_None_iff in E. pose proof (N.mod_lt n 256). lia.
Qed.

(** ** Booleans as proofs *)

(** [canon b H] is [H], rebuilt so that it reduces to [eq_refl] as soon as
    [b] reduces to [true]: the proof field of a closed value is canonical. *)
Definition canon (b : bool) : b = true → b = true :=
  match b with true => λ _, eq_refl | false => λ H, H end.

Lemma bool_proof_irrel (b : bool) (p q : b = true) : p = q.
Proof. apply (proof_irrel p q). Qed.

(** ** Unsigned machine integers *)

(** [uint w] is the type of [w]-bit unsigned integers: a natural number
    below [2 ^ w]. *)
Record uint (w : N) : Set := Uint {
  uval :> N;
  uint_bound : (uval <? 2 ^ w)%N = true
}.
Arguments Uint {w}.
Arguments uval {w}.
Arguments uint_bound {w}.

Abbreviation u8 := (uint 8).
Abbreviation u16 := (uint 16).
Abbreviation u32 := (uint 32).
Abbreviation u64 := (uint 64).

Lemma uint_lt {w} (a : uint w) : (a < 2 ^ w)%N.
Proof. apply N.ltb_lt, uint_bound. Qed.

Lemma uint_eq {w} (a b : uint w) : uval a = uval b → a = b.
Proof.
  destruct a as [a Ha], b as [b Hb]; simpl; intros ->.
  by rewrite (bool_proof_irrel _ Ha Hb).
Qed.

#[export] Instance uval_inj {w} : Inj (=) (=) (@uval w).
Proof. intros a b. apply uint_eq. Qed.

#[export] Instance uint_eq_dec w : EqDecision (uint w).
Proof.
  refine (λ a b, cast_if (decide (uval a = uval b))).
  - by apply uint_eq.
  - congruence.
Defined.

Lemma uint_wrap_bound (w n : N) : (n mod 2 ^ w <? 2 ^ w)%N = true.
Proof. apply N.ltb_lt, N.mod_lt. by apply N.pow_nonzero. Qed.

(** [as uN]: reduction modulo [2 ^ w]. *)
Definition to_uint (w n : N) : uint w :=
  Uint (n mod 2 ^ w) (canon _ (uint_wrap_bound w n)).

Lemma uval_to_uint w n : (n < 2 ^ w)%N → uval (to_uint w n) = n.
Proof. intros H. simpl. by apply N.mod_small. Qed.

Lemma to_uint_uval {w} (a : uint w) : to_uint w a = a.
Proof. apply uint_eq, uval_to_uint, uint_lt. Qed.

#[export] Program Instance uint_countable w : Countable (uint w) :=
  inj_countable uval (λ n, Some (to_uint w n)) _.
Next Obligation. intros w a. cbv beta. f_equal. apply to_uint_uval. Qed.

#[export] Instance uint_inhabited w : Inhabited (uint w) := populate (to_uint w 0).

Definition U8 (n : N) : u8 := to_uint 8 n.
Definition U16 (n : N) : u16 := to_uint 16 n.
Definition U32 (n : N) : u32 := to_uint 32 n.
Definition U64 (n : N) : u64 := to_uint 64 n.

(** [uN::MAX]. *)
Definition uint_max (w : N) : uint w := to_uint w (2 ^ w - 1).
Abbreviation u64_MAX := (uint_max 64).

Lemma uval_uint_max w : uval (uint_max w) = (2 ^ w - 1)%N.
Proof.
  apply uval_to_uint. pose proof (N.pow_nonzero 2 w). lia.
Qed.

Lemma sat_add_bound {w} (a b : uint w) :
  (N.min (a + b) (2 ^ w - 1) <? 2 ^ w)%N = true.
Proof. apply N.ltb_lt. pose proof (N.pow_nonzero 2 w). lia. Qed.

(** [saturating_add]. *)
Definition sat_add {w} (a b : uint w) : uint w :=
  Uint (N.min (a + b) (2 ^ w - 1)) (canon _ (sat_add_bound a b)).

Lemma uval_sat_add {w} (a b : uint w) :
  uval (sat_add a b) = N.min (a + b) (2 ^ w - 1).
Proof. done. Qed.

Lemma sat_add_le {w} (a b : uint w) : (a ≤ sat_add a b)%N.
Proof. rewrite uval_sat_add. pose proof (uint_lt a). lia. Qed.

Lemma sat_add_exact {w} (a b : uint w) :
  (a + b < 2 ^ w)%N → uval (sat_add a b) = (a + b)%N.
Proof. rewrite uval_sat_add. lia. Qed.

(** [checked_add] and [checked_mul] on [usize], a 64-bit integer: an
    [usize] is a natural number, and the checks bound it. *)
Definition checked_usize (n : N) : option N :=
  if (n <? 2 ^ 64)%N then Some n else None.
Definition checked_mul (a b : N) : option N := checked_usize (a * b).
Definition checked_add (a b : N) : option N := checked_usize (a + b).

(** ** Fixed-length byte arrays *)

(** [barr n] is [[u8; n]]. *)
Record barr (n : nat) : Set := Barr {
  bytes_of :> list byte;
  barr_length : (length bytes_of =? n)%nat = true
}.
Arguments Barr {n}.
Arguments bytes_of {n}.
Arguments barr_length {n}.

Lemma barr_len {n} (a : barr n) : length (bytes_of a) = n.
Proof. apply Nat.eqb_eq, barr_length. Qed.

Lemma barr_eq {n} (a b : barr n) : bytes_of a = bytes_of b → a = b.
Proof.
  destruct a as [a Ha], b as [b Hb]; simpl; intros ->.
  by rewrite (bool_proof_irrel _ Ha Hb).
Qed.

#[export] Instance bytes_of_inj {n} : Inj (=) (=) (@bytes_of n).
Proof. intros a b. apply barr_eq. Qed.

#[export] Instance barr_eq_dec n : EqDecision (barr n).
Proof.
  refine (λ a b, cast_if (decide (bytes_of a = bytes_of b))).
  - by apply barr_eq.
  - congruence.
Defined.

(** [<[u8; n]>::try_from(slice)]. *)
Definition try_barr (n : nat) (l : list byte) : option (barr n) :=
  (if (length l =? n)%nat as b return (length l =? n)%nat = b → _
   then λ H, Some (Barr l (canon _ H)) else λ _, None) eq_refl.

Lemma try_barr_spec n l :
  match try_barr n l with
  | Some a => bytes_of a = l
  | None => length l ≠ n
  end.
Proof.
  unfold try_barr.
  generalize (eq_refl (length l =? n)%nat).
  destruct (length l =? n)%nat at 2 3; intros H; [done |].
  by apply Nat.eqb_neq.
Qed.

Lemma try_barr_bytes_of {n} (a : barr n) : try_barr n a = Some a.
Proof.
  pose proof (try_barr_spec n a) as H.
  destruct (try_barr n a) as [b|].
  - f_equal. by apply barr_eq.
  - destruct H. apply barr_len.
Qed.

#[export] Program Instance barr_countable n : Countable (barr n) :=
  inj_countable bytes_of (try_barr n) _.
Next Obligation. intros n a. apply try_barr_bytes_of. Qed.

Lemma replicate_len_eqb (n : nat) (b : byte) :
  (length (replicate n b) =? n)%nat = true.
Proof. apply Nat.eqb_eq, length_replicate. Qed.

(** [[b; n]], the array of [n] copies of [b]. *)
Definition brep (n : nat) (b : byte) : barr n :=
  Barr (replicate n b) (canon _ (replicate_len_eqb n b)).

Abbreviation Id32 := (barr 32).

(** ** Big-endian integers *)

(** [be_bytes n v]: the [n] big-endian bytes of [v], [to_be_bytes]. *)
Fixpoint be_bytes (n : nat) (v : N) : list byte :=
  match n with
  | O => []
  | S n => be_bytes n (v / 256) ++ [byte_of_N v]
  end.

(** [from_be_bytes]. *)
Definition be_value (l : list byte) : N :=
  foldl (λ acc b, 256 * acc + Byte.to_N b)%N 0%N l.

Lemma length_be_bytes n v : length (be_bytes n v) = n.
Proof. revert v; induction n; intros v; simpl; [done |]. rewrite length_app, IHn. simpl. lia. Qed.

Lemma be_value_snoc l b : be_value (l ++ [b]) = (256 * be_value l + Byte.to_N b)%N.
Proof. unfold be_value. by rewrite foldl_app. Qed.

Lemma be_value_be_bytes n v : be_value (be_bytes n v) = (v mod 256 ^ N.of_nat n)%N.
Proof.
  revert v; induction n as [|n IH]; intros v.
  - simpl. by rewrite N.mod_1_r.
  - simpl be_bytes. rewrite be_value_snoc, IH, byte_to_of_N.
    replace (256 ^ N.of_nat (S n))%N with (256 * 256 ^ N.of_nat n)%N.
    + rewrite N.Div0.mod_mul_r. lia.
    + rewrite Nat2N.inj_succ, N.pow_succ_r'. done.
Qed.

Lemma be_value_bound l : (be_value l < 256 ^ N.of_nat (length l))%N.
Proof.
  induction l as [|b l IH] using rev_ind; [done |].
  rewrite be_value_snoc, length_app. simpl.
  rewrite Nat.add_1_r, Nat2N.inj_succ, N.pow_succ_r'.
  pose proof (Byte.to_N_bounded b) as Hb. revert IH Hb.
  generalize (256 ^ N.of_nat (length l))%N (be_value l) (Byte.to_N b). lia.
Qed.

Lemma be_bytes_be_value l : be_bytes (length l) (be_value l) = l.
Proof.
  induction l as [|b l IH] using rev_ind; [done |].
  rewrite length_app, be_value_snoc. simpl.
  rewrite Nat.add_1_r. simpl. f_equal.
  - etrans; [| exact IH]. f_equal.
    rewrite N.mul_comm, N.div_add_l by done.
    rewrite (N.div_small (Byte.to_N b)); [lia |].
    pose proof (Byte.to_N_bounded b). lia.
  - f_equal. etrans; [| apply (byte_of_to_N b)].
    unfold byte_of_N. do 2 f_equal.
    by rewrite N.add_comm, N.mul_comm, N.Div0.mod_add.
Qed.

(** [be w a]: the big-endian bytes of a [w]-bit integer. *)
Definition be {w} (a : uint w) : list byte := be_bytes (N.to_nat (w / 8)) a.

Lemma length_be {w} (a : uint w) : length (be a) = N.to_nat (w / 8).
Proof. apply length_be_bytes. Qed.

Lemma be_inj {w} (a b : uint w) : (w mod 8 = 0)%N → be a = be b → a = b.
Proof.
  unfold be. intros Hw H. apply (f_equal be_value) in H.
  rewrite !be_value_be_bytes, N2Nat.id in H.
  assert (Hp : (256 ^ (w / 8) = 2 ^ w)%N).
  { replace 256%N with (2 ^ 8)%N by done. rewrite <- N.pow_mul_r.
    f_equal. rewrite (N.Div0.div_mod w 8) at 2. lia. }
  rewrite Hp, !N.mod_small in H by apply uint_lt. by apply uint_eq.
Qed.

(** ** Results *)

(** Rust's [Result<A, E>]; [E] comes first so that [Result E] is a monad. *)
Inductive Result (E A : Type) : Type :=
| Ok (a : A)
| Err (e : E).
Arguments Ok {E A} a.
Arguments Err {E A} e.

#[export] Instance Result_ret E : MRet (Result E) := λ A a, Ok a.
#[export] Instance Result_bind E : MBind (Result E) :=
  λ A B f m, match m with Ok a => f a | Err e => Err e end.
#[export] Instance Result_fmap E : FMap (Result E) :=
  λ A B f m, match m with Ok a => Ok (f a) | Err e => Err e end.

#[export] Instance Result_eq_dec E A `{EqDecision E, EqDecision A} :
  EqDecision (Result E A).
Proof. solve_decision. Defined.

Definition is_ok {E A} (r : Result E A) : bool :=
  match r with Ok _ => true | Err _ => false end.

(** [Option::ok_or]. *)
Definition ok_or {E A} (o : option A) (e : E) : Result E A :=
  match o with Some a => Ok a | None => Err e end.

(** [Result::map_err]. *)
Definition map_err {E F A} (f : E → F) (r : Result E A) : Result F A :=
  match r with Ok a => Ok a | Err e => Err (f e) end.

(** [if c { return Err(e) }]. *)
Definition fail_if {E} (c : bool) (e : E) : Result E () :=
  if c then Err e else Ok ().

(** [for x in l { f(x)?; }] and [l.map(f).collect::<Result<Vec<_>, _>>()]. *)
Fixpoint for_each {E A} (f : A → Result E ()) (l : list A) : Result E () :=
  match l with
  | [] => Ok ()
  | x :: l => _ ← f x; for_each f l
  end.

Fixpoint collect {E A B} (f : A → Result E B) (l : list A) : Result E (list B) :=
  match l with
  | [] => Ok []
  | x :: l => y ← f x; ys ← collect f l; Ok (y :: ys)
  end.

Lemma bind_Ok {E A B} (m : Result E A) (f : A → Result E B) b :
  m ≫= f = Ok b ↔ ∃ a, m = Ok a ∧ f a = Ok b.
Proof.
  destruct m as [a | e]; simpl; split; [by exists a | | done |].
  - by intros (? & [= ->] & ?).
  - by intros (? & ? & _).
Qed.

Lemma fmap_Ok {E A B} (m : Result E A) (f : A → B) b :
  f <$> m = Ok b ↔ ∃ a, m = Ok a ∧ f a = b.
Proof.
  destruct m as [a | e]; simpl; split; [intros [= <-]; by exists a | | done |].
  - by intros (? & [= ->] & ->).
  - by intros (? & ? & _).
Qed.

Lemma ok_or_Ok {E A} (o : option A) (e : E) a : ok_or o e = Ok a ↔ o = Some a.
Proof. destruct o; simpl; split; congruence. Qed.

Lemma map_err_Ok {E F A} (f : E → F) (r : Result E A) a :
  map_err f r = Ok a ↔ r = Ok a.
Proof. destruct r; simpl; split; congruence. Qed.

Lemma fail_if_Ok {E} c (e : E) u : fail_if c e = Ok u ↔ c = false.
Proof. destruct c, u; simpl; split; congruence. Qed.

Lemma for_each_Ok {E A} (f : A → Result E ()) l u :
  for_each f l = Ok u ↔ ∀ x, x ∈ l → f x = Ok ().
Proof.
  induction l as [|x l IH]; simpl.
  - destruct u. split; [set_solver | done].
  - rewrite bind_Ok. setoid_rewrite elem_of_cons. destruct u. split.
    + intros ([] & Hx & Hl) y [-> | Hy]; [done |]. by apply IH.
    + intros H. exists (). split; [by apply H; left |]. apply IH. intros y Hy.
      apply H. by right.
Qed.

Lemma collect_Ok {E A B} (f : A → Result E B) l ys :
  collect f l = Ok ys ↔ Forall2 (λ x y, f x = Ok y) l ys.
Proof.
  revert ys; induction l as [|x l IH]; intros ys; simpl.
  - split; [by intros [= <-] | by intros ->%Forall2_nil_inv_l].
  - rewrite bind_Ok. setoid_rewrite bind_Ok. setoid_rewrite IH. split.
    + intros (y & Hy & zs & Hzs & [= <-]). by constructor.
    + intros H. apply Forall2_cons_inv_l in H as (y & zs & ? & ? & ->). eauto 10.
Qed.

(** [iter.map(..).collect::<BTreeMap<_, _>>()]: a later entry replaces an
    earlier one with the same key. *)
Definition btree_collect `{Countable K} {A} (l : list (K * A)) : gmap K A :=
  foldl (λ m kv, <[kv.1 := kv.2]> m) ∅ l.

(** The loop over the votes of a certificate: [pre] looks something up for the
    item, [bad] or a key seen before ends the loop with [e], and [body] checks
    the item.  [let b = pre(x)?; if bad(x, b) || !seen.insert(key(x)) {
    return Err(e) } body(x, b)?;] *)
Fixpoint for_each_distinct `{Countable K} {E A B} (key : A → K) (pre : A → Result E B)
    (bad : A → B → bool) (e : E) (body : A → B → Result E ()) (seen : gset K)
    (l : list A) : Result E (gset K) :=
  match l with
  | [] => Ok seen
  | x :: l =>
      b ← pre x;
      if bad x b || bool_decide (key x ∈ seen) then Err e else
      _ ← body x b;
      for_each_distinct key pre bad e body ({[key x]} ∪ seen) l
  end.

(** ** Fallible code with a state

    [SR S E A] is code that reads and writes an [S] and answers a
    [Result E A]; the state is kept when it stops with an error. *)

Definition SR (S E A : Type) : Type := S → Result E A * S.

#[export] Instance SR_ret S E : MRet (SR S E) := λ A a s, (Ok a, s).
#[export] Instance SR_bind S E : MBind (SR S E) := λ A B f m s,
  match m s with
  | (Ok a, s) => f a s
  | (Err e, s) => (Err e, s)
  end.

(** A [?] on code that does not touch the state. *)
Definition lift {S E A} (r : Result E A) : SR S E A := λ s, (r, s).
Definition get {S E} : SR S E S := λ s, (Ok s, s).
Definition put {S E} (s : S) : SR S E () := λ _, (Ok (), s).

Lemma SR_bind_inv {S E A B} (m : SR S E A) (f : A → SR S E B) s r s' :
  (m ≫= f) s = (r, s') →
  (∃ a s1, m s = (Ok a, s1) ∧ f a s1 = (r, s')) ∨ (∃ e, m s = (Err e, s') ∧ r = Err e).
Proof.
  unfold mbind, SR_bind. destruct (m s) as [[a | e] s1].
  - intros H. left. by exists a, s1.
  - intros [= <- <-]. right. by exists e.
Qed.

Lemma SR_bind_Ok {S E A B} (m : SR S E A) (f : A → SR S E B) s b s' :
  (m ≫= f) s = (Ok b, s') ↔ ∃ a s1, m s = (Ok a, s1) ∧ f a s1 = (Ok b, s').
Proof.
  unfold mbind, SR_bind. destruct (m s) as [[a | e] s1]; split.
  - intros H. by exists a, s1.
  - by intros (? & ? & [= -> ->] & ?).
  - done.
  - by intros (? & ? & ? & _).
Qed.

Lemma lift_Ok {S E A} (r : Result E A) (s : S) a s' :
  lift r s = (Ok a, s') ↔ r = Ok a ∧ s' = s.
Proof. unfold lift. split; [by intros [= -> ->] | by intros [-> ->]]. Qed.

Lemma lift_bind_inv {S E A B} (c : Result E A) (f : A → SR S E B) s r s' :
  (lift c ≫= f) s = (r, s') →
  (∃ a, c = Ok a ∧ f a s = (r, s')) ∨ (∃ e, c = Err e ∧ r = Err e ∧ s' = s).
Proof.
  intros [(a & s1 & [= -> <-] & H) | (e & [= -> <-] & ->)]%SR_bind_inv.
  - left. by exists a.
  - right. by exists e.
Qed.

(** ** Maps *)

Lemma lookup_fmap_alter `{Countable K} {A B} (f : A → B) (g : A → A) (i j : K)
    (m : gmap K A) :
  (∀ x, f (g x) = f x) → f <$> alter g i m !! j = f <$> m !! j.
Proof.
  intros Hfg. destruct (decide (i = j)) as [-> |].
  - rewrite lookup_alter_eq. destruct (m !! j); simpl; by rewrite ?Hfg.
  - by rewrite lookup_alter_ne.
Qed.

(** Writing back a looked-up value, changed, is [alter]. *)
Lemma insert_alter `{Countable K} {A} (f : A → A) (i : K) x (m : gmap K A) :
  m !! i = Some x → <[i := f x]> m = alter f i m.
Proof.
  intros Hx. apply map_eq. intros j. destruct (decide (j = i)) as [-> |].
  - by rewrite lookup_insert_eq, lookup_alter_eq, Hx.
  - by rewrite lookup_insert_ne, lookup_alter_ne by done.
Qed.

(** ** Guards, lists and counting *)

Lemma existsb_false {A} (f : A → bool) l :
  existsb f l = false ↔ ∀ x, x ∈ l → f x = false.
Proof.
  induction l as [|y l IH]; simpl.
  - split; [by intros _ ? ?%elem_of_nil | done].
  - rewrite orb_false_iff, IH. split.
    + intros [Hy Hl] x [-> | Hin]%elem_of_cons; [done | by apply Hl].
    + intros H. split; [apply H; by left | intros x Hin; apply H; by right].
Qed.

Lemma neb_false `{EqDecision A} (x y : A) : bool_decide (x ≠ y) = false ↔ x = y.
Proof. rewrite bool_decide_eq_false. split; [apply dec_stable | by intros -> []]. Qed.

(** The guards in front of a certificate's transcript. *)
Lemma guard_Ok {E A} (c : bool) (e : E) (r : Result E A) b :
  (if c then Err e else r) = Ok b ↔ c = false ∧ r = Ok b.
Proof. destruct c; split; naive_solver. Qed.

Lemma size_overlap `{Countable A} (R X Y : gset A) :
  X ⊆ R → Y ⊆ R → size X + size Y ≤ size R + size (X ∩ Y).
Proof.
  intros HX HY. assert (Hu : size (X ∪ Y) ≤ size R).
  { apply subseteq_size. set_solver. }
  assert (HYs : size Y = size (X ∩ Y) + size (Y ∖ X)).
  { rewrite <- size_union by set_solver. f_equal. apply set_eq. intros x.
    destruct (decide (x ∈ X)); set_solver. }
  rewrite size_union_alt in Hu. lia.
Qed.

(** ** Collected maps and distinct keys *)

Lemma btree_collect_nil `{Countable K} {A} : @btree_collect K _ _ A [] = ∅.
Proof. done. Qed.

Lemma btree_collect_snoc `{Countable K} {A} (l : list (K * A)) k a :
  btree_collect (l ++ [(k, a)]) = <[k := a]> (btree_collect l).
Proof. unfold btree_collect. by rewrite foldl_app. Qed.

Lemma btree_collect_elem `{Countable K} {A} (l : list (K * A)) k a :
  btree_collect l !! k = Some a → (k, a) ∈ l.
Proof.
  induction l as [|[k' a'] l IH] using rev_ind; [by rewrite btree_collect_nil, lookup_empty |].
  rewrite btree_collect_snoc, elem_of_app, list_elem_of_singleton.
  intros [[-> ->] | [_ Hl]]%lookup_insert_Some; [by right | left; by apply IH].
Qed.

Lemma btree_collect_NoDup `{Countable K} {A} (l : list (K * A)) k a :
  NoDup l.*1 → btree_collect l !! k = Some a ↔ (k, a) ∈ l.
Proof.
  intros Hnd. split; [apply btree_collect_elem |].
  induction l as [|[k' a'] l IH] using rev_ind; [by intros ?%elem_of_nil |].
  rewrite fmap_app in Hnd. simpl in Hnd.
  apply list.NoDup_app in Hnd as (Hnd & Hdisj & _).
  rewrite btree_collect_snoc, elem_of_app, list_elem_of_singleton.
  intros [Hin | [= -> ->]]; [| by rewrite lookup_insert_eq].
  rewrite lookup_insert_ne; [by apply IH |]. intros <-.
  apply (Hdisj k'); [| by left]. apply (list_elem_of_fmap_2 fst _ _ Hin).
Qed.

Lemma btree_collect_dom `{Countable K} {A} (l : list (K * A)) :
  dom (btree_collect l) = list_to_set l.*1.
Proof.
  induction l as [|[k' a'] l IH] using rev_ind;
    [by rewrite btree_collect_nil, dom_empty_L |].
  rewrite btree_collect_snoc, dom_insert_L, fmap_app, list_to_set_app_L, IH. simpl.
  set_solver.
Qed.

Lemma for_each_distinct_Ok `{Countable K} {E A B} (key : A → K) (pre : A → Result E B)
    (bad : A → B → bool) (e : E) (body : A → B → Result E ()) seen l final :
  for_each_distinct key pre bad e body seen l = Ok final ↔
  NoDup (key <$> l) ∧ (∀ x, x ∈ l → key x ∉ seen)
  ∧ (∀ x, x ∈ l → ∃ b, pre x = Ok b ∧ bad x b = false ∧ body x b = Ok ())
  ∧ final = list_to_set (key <$> l) ∪ seen.
Proof.
  revert seen. induction l as [|x l IH]; intros seen; simpl.
  { split.
    - intros [= <-]. split_and!; [constructor | by intros ? ?%elem_of_nil.. |].
      by rewrite (left_id_L ∅ (∪)).
    - intros (_ & _ & _ & ->). by rewrite (left_id_L ∅ (∪)). }
  rewrite bind_Ok. setoid_rewrite guard_Ok. setoid_rewrite bind_Ok. setoid_rewrite IH.
  rewrite list.NoDup_cons. split.
  - intros (b & Hpre & [Hbad Hseen]%orb_false_iff & [] & Hbody & Hnd & Hfresh & Hall & ->).
    apply bool_decide_eq_false in Hseen. split_and!.
    + intros (y & Hy & Hin)%list_elem_of_fmap. apply (Hfresh y Hin). rewrite <- Hy. set_solver.
    + done.
    + intros y [-> | Hin]%elem_of_cons; [done |]. specialize (Hfresh y Hin). set_solver.
    + intros y [-> | Hin]%elem_of_cons; [by exists b | by apply Hall].
    + set_solver.
  - intros ([Hx Hnd] & Hfresh & Hall & ->).
    destruct (Hall x) as (b & Hpre & Hbad & Hbody); [by left |]. exists b.
    split; [done |]. split.
    + rewrite Hbad. simpl. apply bool_decide_eq_false, Hfresh. by left.
    + exists (). split_and!; [done | done | | |].
      * intros y Hin. specialize (Hfresh y ltac:(by right)).
        intros [Heq%elem_of_singleton | ?]%elem_of_union; [| done].
        destruct Hx. rewrite <- Heq. by apply list_elem_of_fmap_2.
      * intros y Hin. apply Hall. by right.
      * set_solver.
Qed.

(** ** Comparisons as the source writes them *)

Notation "a ==? b" := (bool_decide (a = b)) (at level 70) : mr_scope.
Notation "a !=? b" := (bool_decide (a ≠ b)) (at level 70) : mr_scope.
Notation "a <? b" := (N.ltb a b) : mr_scope.
Notation "a <=? b" := (N.leb a b) : mr_scope.

(** [Vec::len], as an integer. *)
Definition len {A} (l : list A) : N := N.of_nat (length l).

(** [String::as_bytes]. *)
Definition as_bytes (s : string) : list byte := String.list_byte_of_string s.

Lemma as_bytes_inj s t : as_bytes s = as_bytes t → s = t.
Proof.
  unfold as_bytes. intros H.
  rewrite <- (String.string_of_list_byte_of_string s),
    <- (String.string_of_list_byte_of_string t). by rewrite H.
Qed.

Lemma len_app {A} (l k : list A) : len (l ++ k) = (len l + len k)%N.
Proof. unfold len. rewrite length_app. lia. Qed.

