(* ===== verification/Types.v ===== *)
(** Protocol data types, version 2: crates/gp-types/src/lib.rs.

    One record per struct and one inductive type per enum, with the source's
    fields in the source's order.  A field is named by the source's field name
    behind a prefix naming its struct ([rr_expiry] is
    [RecoveryRequest::expiry]); integers keep their width ([u16], [u64]),
    fixed-size arrays their length ([barr 32]), [Vec<u8>] is [list byte] and
    [String] is stdpp's [string], a sequence of bytes.  Every type has the
    decidable equality the source derives. *)

From S2P Require Export Prelude.

(** ** Constants *)

Definition PROTOCOL_VERSION_V2 : u16 := U16 2.
Definition PROTOCOL_VERSION_V3 : u16 := U16 3.
Definition PROTOCOL_VERSION : u16 := PROTOCOL_VERSION_V2.
Definition PRODUCTION_MIN_DELAY_SECS : u64 := U64 (24 * 60 * 60).

Abbreviation SignatureBytes := (list byte).
Abbreviation MerkleProofBytes := (list byte).

(** ** Structs and enums *)

Inductive CryptoSuite : Set :=
| XWingXChaCha20Poly1305Ed25519.
#[export] Instance CryptoSuite_eq_dec : EqDecision CryptoSuite.
Proof. solve_decision. Defined.

Inductive MetadataMode : Set :=
| MetadataOff
| MetadataBasic
| MetadataStrong.
#[export] Instance MetadataMode_eq_dec : EqDecision MetadataMode.
Proof. solve_decision. Defined.

Inductive RecoveryState : Set :=
| RecCreated
| RecAwaitingApprovals
| RecAuthorized
| RecDelayPending
| RecCancelled
| RecReleasing
| RecCompleted
| RecExpired.
#[export] Instance RecoveryState_eq_dec : EqDecision RecoveryState.
Proof. solve_decision. Defined.

Record RecoveryRequest : Set := mkRecoveryRequest {
  rr_protocol_version : u16;
  rr_crypto_suite : CryptoSuite;
  rr_config_id : Id32;
  rr_config_version : u64;
  rr_request_id : Id32;
  rr_recovery_recipient_key : list byte;
  rr_requested_at : u64;
  rr_nonce : Id32;
  rr_expiry : u64
}.
#[export] Instance RecoveryRequest_eq_dec : EqDecision RecoveryRequest.
Proof. solve_decision. Defined.

Record AeadCiphertext : Set := mkAeadCiphertext {
  aead_nonce : barr 24;
  aead_ciphertext : list byte
}.
#[export] Instance AeadCiphertext_eq_dec : EqDecision AeadCiphertext.
Proof. solve_decision. Defined.

Record SealedMessage : Set := mkSealedMessage {
  sealed_kem_ciphertext : list byte;
  sealed_payload : AeadCiphertext
}.
#[export] Instance SealedMessage_eq_dec : EqDecision SealedMessage.
Proof. solve_decision. Defined.

Record SignerContribution : Set := mkSignerContribution {
  sc_request : RecoveryRequest;
  sc_signer_id : u16;
  sc_signer_public_key : barr 32;
  sc_signer_signature : SignatureBytes;
  sc_signer_membership_proof : MerkleProofBytes;
  sc_encrypted_a_share : SealedMessage
}.
#[export] Instance SignerContribution_eq_dec : EqDecision SignerContribution.
Proof. solve_decision. Defined.

Record BeginRecoveryCertificate : Set := mkBeginRecoveryCertificate {
  brc_request : RecoveryRequest;
  brc_signer_contributions : list SignerContribution
}.
#[export] Instance BeginRecoveryCertificate_eq_dec : EqDecision BeginRecoveryCertificate.
Proof. solve_decision. Defined.

Record OwnerCancelCertificate : Set := mkOwnerCancelCertificate {
  occ_protocol_version : u16;
  occ_config_id : Id32;
  occ_config_version : u64;
  occ_request_id : Id32;
  occ_request_digest : Id32;
  occ_recovery_recipient_key : list byte;
  occ_cancel_response_recipient_key : list byte;
  occ_reason_code : u16;
  occ_nonce : Id32;
  occ_issued_at : u64;
  occ_owner_cancel_public_key : barr 32;
  occ_owner_signature : SignatureBytes
}.
#[export] Instance OwnerCancelCertificate_eq_dec : EqDecision OwnerCancelCertificate.
Proof. solve_decision. Defined.

Record OwnerCancelAck : Set := mkOwnerCancelAck {
  oca_protocol_version : u16;
  oca_config_id : Id32;
  oca_config_version : u64;
  oca_request_id : Id32;
  oca_request_digest : Id32;
  oca_owner_cancel_transcript_digest : Id32;
  oca_guardian_index : u16;
  oca_guardian_signature : SignatureBytes
}.
#[export] Instance OwnerCancelAck_eq_dec : EqDecision OwnerCancelAck.
Proof. solve_decision. Defined.

Record ReleaseVote : Set := mkReleaseVote {
  rv_protocol_version : u16;
  rv_config_id : Id32;
  rv_config_version : u64;
  rv_request_id : Id32;
  rv_request_digest : Id32;
  rv_recovery_recipient_key : list byte;
  rv_nonce : Id32;
  rv_signer_id : u16;
  rv_signer_public_key : barr 32;
  rv_signer_membership_proof : MerkleProofBytes;
  rv_signer_signature : SignatureBytes
}.
#[export] Instance ReleaseVote_eq_dec : EqDecision ReleaseVote.
Proof. solve_decision. Defined.

Record ReleaseCertificate : Set := mkReleaseCertificate {
  rc_votes : list ReleaseVote
}.
#[export] Instance ReleaseCertificate_eq_dec : EqDecision ReleaseCertificate.
Proof. solve_decision. Defined.

Record PendingRecovery : Set := mkPendingRecovery {
  pr_request_id : Id32;
  pr_config_id : Id32;
  pr_config_version : u64;
  pr_recipient : list byte;
  pr_started_at_monotonic : u64;
  pr_not_before : u64;
  pr_state : RecoveryState
}.
#[export] Instance PendingRecovery_eq_dec : EqDecision PendingRecovery.
Proof. solve_decision. Defined.

Record GuardianContribution : Set := mkGuardianContribution {
  gc_protocol_version : u16;
  gc_config_id : Id32;
  gc_config_version : u64;
  gc_request_id : Id32;
  gc_request_digest : Id32;
  gc_guardian_index : u16;
  gc_ciphertext_fragment : list byte;
  gc_encrypted_dek_share : AeadCiphertext;
  gc_merkle_path_proof : MerkleProofBytes;
  gc_guardian_signature : SignatureBytes
}.
#[export] Instance GuardianContribution_eq_dec : EqDecision GuardianContribution.
Proof. solve_decision. Defined.

Record GuardianRoute : Set := mkGuardianRoute {
  gr_mailbox : string;
  gr_opaque_slot_id : Id32;
  gr_guardian_index : u16;
  gr_guardian_public_key : barr 32
}.
#[export] Instance GuardianRoute_eq_dec : EqDecision GuardianRoute.
Proof. solve_decision. Defined.

Record RecoveryDescriptor : Set := mkRecoveryDescriptor {
  rd_guardians : list GuardianRoute;
  rd_guardian_material_root : Id32;
  rd_data_shards : u16;
  rd_total_shards : u16;
  rd_ciphertext_len : u64;
  rd_payload_nonce : barr 24
}.
#[export] Instance RecoveryDescriptor_eq_dec : EqDecision RecoveryDescriptor.
Proof. solve_decision. Defined.

Record ConfigCapsule : Set := mkConfigCapsule {
  cap_protocol_version : u16;
  cap_crypto_suite : CryptoSuite;
  cap_config_id : Id32;
  cap_config_version : u64;
  cap_signer_count : u16;
  cap_signer_threshold : u16;
  cap_guardian_count : u16;
  cap_guardian_threshold : u16;
  cap_minimum_recovery_delay : u64;
  cap_signer_set_commitment : Id32;
  cap_owner_cancel_public_key : barr 32;
  cap_guardian_material_commitment : Id32;
  cap_encrypted_recovery_descriptor : AeadCiphertext;
  cap_max_request_lifetime : u64
}.
#[export] Instance ConfigCapsule_eq_dec : EqDecision ConfigCapsule.
Proof. solve_decision. Defined.

Record RecoveryCard : Set := mkRecoveryCard {
  card_config_id : Id32;
  card_capsule_locators : list string;
  card_capsule_locator : option string;
  card_signer_mailboxes : list string;
  card_relay_bases : list string;
  card_signer_set_commitment : Id32;
  card_owner_cancel_public_key : barr 32
}.
#[export] Instance RecoveryCard_eq_dec : EqDecision RecoveryCard.
Proof. solve_decision. Defined.

Record SignerPolicy : Set := mkSignerPolicy {
  sp_config_id : Id32;
  sp_config_version : u64;
  sp_signer_set_commitment : Id32;
  sp_signer_threshold : u16
}.
#[export] Instance SignerPolicy_eq_dec : EqDecision SignerPolicy.
Proof. solve_decision. Defined.

Record GuardianPolicy : Set := mkGuardianPolicy {
  gpol_config_id : Id32;
  gpol_config_version : u64;
  gpol_signer_set_commitment : Id32;
  gpol_signer_count : u16;
  gpol_signer_threshold : u16;
  gpol_owner_cancel_public_key : barr 32;
  gpol_minimum_recovery_delay : u64;
  gpol_guardian_material_root : Id32
}.
#[export] Instance GuardianPolicy_eq_dec : EqDecision GuardianPolicy.
Proof. solve_decision. Defined.

Record GuardianRecord : Set := mkGuardianRecord {
  grec_opaque_slot_id : Id32;
  grec_guardian_index : u16;
  grec_ciphertext_fragment : list byte;
  grec_encrypted_dek_share : AeadCiphertext;
  grec_merkle_path_proof : MerkleProofBytes;
  grec_policy : GuardianPolicy
}.
#[export] Instance GuardianRecord_eq_dec : EqDecision GuardianRecord.
Proof. solve_decision. Defined.

Record SetupPolicy : Set := mkSetupPolicy {
  setup_signer_count : u16;
  setup_signer_threshold : u16;
  setup_guardian_count : u16;
  setup_guardian_threshold : u16;
  setup_minimum_recovery_delay : u64
}.
#[export] Instance SetupPolicy_eq_dec : EqDecision SetupPolicy.
Proof. solve_decision. Defined.

(** ** Operations *)

(** The locators of a card: the legacy single locator first, then the
    mirrored ones that are not already listed. *)
Fixpoint add_locators (locators : list string) (mirrors : list string) : list string :=
  match mirrors with
  | [] => locators
  | locator :: mirrors =>
      add_locators
        (if bool_decide (locator ∈ locators) then locators
         else locators ++ [locator]) mirrors
  end.

Definition all_capsule_locators (self : RecoveryCard) : list string :=
  add_locators
    (match card_capsule_locator self with
     | Some locator => [locator]
     | None => []
     end) (card_capsule_locators self).

Definition SetupPolicy_default : SetupPolicy := {|
  setup_signer_count := U16 3;
  setup_signer_threshold := U16 2;
  setup_guardian_count := U16 8;
  setup_guardian_threshold := U16 5;
  setup_minimum_recovery_delay := PRODUCTION_MIN_DELAY_SECS
|}.

Definition CryptoSuite_default : CryptoSuite := XWingXChaCha20Poly1305Ed25519.
