(* ===== verification/TypesV3.v ===== *)
(** Protocol data types, version 3: crates/gp-types/src/rotation.rs.

    The conventions of [Types] apply: one record or inductive type per source
    type, fields in source order behind a per-struct prefix. *)

From S2P Require Export Types.

Definition MAX_ROTATION_ACTORS : u16 := U16 4096.
Definition MAX_CONFIG_WITNESSES : u16 := U16 4096.

Record ConfigRef : Set := mkConfigRef {
  cr_config_id : Id32;
  cr_payload_generation : u64;
  cr_authorization_epoch : u64;
  cr_guardian_epoch : u64;
  cr_epoch_binding : Id32
}.
#[export] Instance ConfigRef_eq_dec : EqDecision ConfigRef.
Proof. solve_decision. Defined.

Inductive RotationState : Set :=
| RotProposed
| RotDelayPending
| RotPreparing
| RotReady
| RotActivating
| RotActive
| RotDraining
| RotRetired
| RotAborted.
#[export] Instance RotationState_eq_dec : EqDecision RotationState.
Proof. solve_decision. Defined.

Inductive GuardianEpochState : Set :=
| EpochPrepared
| EpochActive
| EpochDraining
| EpochRetired.
#[export] Instance GuardianEpochState_eq_dec : EqDecision GuardianEpochState.
Proof. solve_decision. Defined.

Inductive GuardianLifecycle : Set :=
| LifeCandidate
| LifeHealthy
| LifeSuspect
| LifeUnavailable
| LifeMalicious
| LifeExiting
| LifeRetired.
#[export] Instance GuardianLifecycle_eq_dec : EqDecision GuardianLifecycle.
Proof. solve_decision. Defined.

Inductive RotationReason : Set :=
| ReasonPlannedExit
| ReasonCustodyFailure
| ReasonUnavailable
| ReasonSuspectedCompromise
| ReasonDiversityPolicy
| ReasonProactiveRefresh
| ReasonSecurityUpgrade
| ReasonOwnerAssistedMigration.
#[export] Instance RotationReason_eq_dec : EqDecision RotationReason.
Proof. solve_decision. Defined.

Inductive DpssSuiteId : Set :=
| ZfFrostRistretto255RtsRefreshV1.
#[export] Instance DpssSuiteId_eq_dec : EqDecision DpssSuiteId.
Proof. solve_decision. Defined.

Inductive DpssPhase : Set :=
| RepairRound1
| RepairRound2
| RepairRound3
| RefreshRound1
| RefreshRound2
| Finalize.
#[export] Instance DpssPhase_eq_dec : EqDecision DpssPhase.
Proof. solve_decision. Defined.

Inductive GuardianHealthState : Set :=
| HealthUnknown
| HealthHealthy
| HealthDegraded
| HealthFailed.
#[export] Instance GuardianHealthState_eq_dec : EqDecision GuardianHealthState.
Proof. solve_decision. Defined.

Record RotationContext : Set := mkRotationContext {
  ctx_protocol_version : u16;
  ctx_config_ref : ConfigRef;
  ctx_rotation_id : Id32;
  ctx_predecessor_capsule_hash : Id32;
  ctx_recipient_key : list byte;
  ctx_nonce : Id32;
  ctx_issued_at : u64;
  ctx_expiry : u64
}.
#[export] Instance RotationContext_eq_dec : EqDecision RotationContext.
Proof. solve_decision. Defined.

Record GuardianRouteV3 : Set := mkGuardianRouteV3 {
  gr3_guardian_index : u16;
  gr3_opaque_slot_id : Id32;
  gr3_mailbox : string;
  gr3_guardian_public_key : barr 32;
  gr3_session_recipient_key : list byte;
  gr3_operator_domain_commitment : Id32
}.
#[export] Instance GuardianRouteV3_eq_dec : EqDecision GuardianRouteV3.
Proof. solve_decision. Defined.

Record RotationIntent : Set := mkRotationIntent {
  ri_context : RotationContext;
  ri_reason : RotationReason;
  ri_old_guardian_count : u16;
  ri_old_guardian_threshold : u16;
  ri_allowed_new_guardian_count : list u16;
  ri_allowed_new_guardian_threshold : list u16;
  ri_allowed_dpss_suites : list DpssSuiteId;
  ri_selection_constraints_commitment : Id32;
  ri_witness_read_qc_hash : Id32
}.
#[export] Instance RotationIntent_eq_dec : EqDecision RotationIntent.
Proof. solve_decision. Defined.

Record SignerRotationIntentContribution : Set := mkSignerRotationIntentContribution {
  sric_context : RotationContext;
  sric_intent_hash : Id32;
  sric_signer_id : u16;
  sric_signer_public_key : barr 32;
  sric_signer_membership_proof : MerkleProofBytes;
  sric_encrypted_authorization_share : SealedMessage;
  sric_signer_signature : SignatureBytes
}.
#[export] Instance SignerRotationIntentContribution_eq_dec : EqDecision SignerRotationIntentContribution.
Proof. solve_decision. Defined.

Record RotationPlan : Set := mkRotationPlan {
  plan_context : RotationContext;
  plan_intent_hash : Id32;
  plan_predecessor : ConfigRef;
  plan_successor : ConfigRef;
  plan_old_roster : list GuardianRouteV3;
  plan_new_roster : list GuardianRouteV3;
  plan_old_roster_commitment : Id32;
  plan_new_roster_commitment : Id32;
  plan_old_guardian_threshold : u16;
  plan_new_guardian_threshold : u16;
  plan_data_shards : u16;
  plan_total_shards : u16;
  plan_dpss_suite : DpssSuiteId;
  plan_dpss_session_id : Id32;
  plan_dpss_qualified_set_commitment : Id32;
  plan_minimum_delay_secs : u64;
  plan_preparation_deadline : u64;
  plan_drain_deadline : u64
}.
#[export] Instance RotationPlan_eq_dec : EqDecision RotationPlan.
Proof. solve_decision. Defined.

Record SignerRotationBeginVote : Set := mkSignerRotationBeginVote {
  srbv_context : RotationContext;
  srbv_intent_hash : Id32;
  srbv_plan_hash : Id32;
  srbv_old_roster_commitment : Id32;
  srbv_new_roster_commitment : Id32;
  srbv_signer_id : u16;
  srbv_signer_public_key : barr 32;
  srbv_signer_membership_proof : MerkleProofBytes;
  srbv_signer_signature : SignatureBytes
}.
#[export] Instance SignerRotationBeginVote_eq_dec : EqDecision SignerRotationBeginVote.
Proof. solve_decision. Defined.

Record BeginRotationCertificate : Set := mkBeginRotationCertificate {
  brot_context : RotationContext;
  brot_intent_hash : Id32;
  brot_plan_hash : Id32;
  brot_old_roster_commitment : Id32;
  brot_new_roster_commitment : Id32;
  brot_not_before_wall : u64;
  brot_votes : list SignerRotationBeginVote
}.
#[export] Instance BeginRotationCertificate_eq_dec : EqDecision BeginRotationCertificate.
Proof. solve_decision. Defined.

Record OwnerRotationCancelCertificate : Set := mkOwnerRotationCancelCertificate {
  orcc_context : RotationContext;
  orcc_plan_hash : Id32;
  orcc_reason_code : u16;
  orcc_cancel_response_recipient_key : list byte;
  orcc_owner_cancel_public_key : barr 32;
  orcc_owner_signature : SignatureBytes
}.
#[export] Instance OwnerRotationCancelCertificate_eq_dec : EqDecision OwnerRotationCancelCertificate.
Proof. solve_decision. Defined.

Record OwnerRotationCancelAck : Set := mkOwnerRotationCancelAck {
  orca_context : RotationContext;
  orca_plan_hash : Id32;
  orca_cancel_certificate_hash : Id32;
  orca_guardian_index : u16;
  orca_guardian_signature : SignatureBytes
}.
#[export] Instance OwnerRotationCancelAck_eq_dec : EqDecision OwnerRotationCancelAck.
Proof. solve_decision. Defined.

Record SignerRotationReleaseVote : Set := mkSignerRotationReleaseVote {
  srrv_context : RotationContext;
  srrv_plan_hash : Id32;
  srrv_begin_certificate_hash : Id32;
  srrv_signer_id : u16;
  srrv_signer_public_key : barr 32;
  srrv_signer_membership_proof : MerkleProofBytes;
  srrv_signer_signature : SignatureBytes
}.
#[export] Instance SignerRotationReleaseVote_eq_dec : EqDecision SignerRotationReleaseVote.
Proof. solve_decision. Defined.

Record RotationReleaseCertificate : Set := mkRotationReleaseCertificate {
  rrc_context : RotationContext;
  rrc_plan_hash : Id32;
  rrc_begin_certificate_hash : Id32;
  rrc_votes : list SignerRotationReleaseVote
}.
#[export] Instance RotationReleaseCertificate_eq_dec : EqDecision RotationReleaseCertificate.
Proof. solve_decision. Defined.

Record OldShareUnlockGrant : Set := mkOldShareUnlockGrant {
  osug_context : RotationContext;
  osug_plan_hash : Id32;
  osug_release_certificate_hash : Id32;
  osug_old_guardian_index : u16;
  osug_encrypted_unwrap_key : SealedMessage;
  osug_encrypted_fragment_key : SealedMessage
}.
#[export] Instance OldShareUnlockGrant_eq_dec : EqDecision OldShareUnlockGrant.
Proof. solve_decision. Defined.

Record NewShareWrapGrant : Set := mkNewShareWrapGrant {
  nswg_context : RotationContext;
  nswg_plan_hash : Id32;
  nswg_release_certificate_hash : Id32;
  nswg_new_guardian_index : u16;
  nswg_encrypted_wrap_key : SealedMessage;
  nswg_encrypted_fragment_key : SealedMessage
}.
#[export] Instance NewShareWrapGrant_eq_dec : EqDecision NewShareWrapGrant.
Proof. solve_decision. Defined.

Record DpssProtocolMessage : Set := mkDpssProtocolMessage {
  dpm_context : RotationContext;
  dpm_plan_hash : Id32;
  dpm_dpss_suite : DpssSuiteId;
  dpm_dpss_session_id : Id32;
  dpm_qualified_set_commitment : Id32;
  dpm_phase : DpssPhase;
  dpm_sender_index : u16;
  dpm_recipient_index : u16;
  dpm_sequence : u64;
  dpm_provider_payload : list byte;
  dpm_sender_signature : SignatureBytes
}.
#[export] Instance DpssProtocolMessage_eq_dec : EqDecision DpssProtocolMessage.
Proof. solve_decision. Defined.

Record PreparedRecordLeaf : Set := mkPreparedRecordLeaf {
  prl_guardian_index : u16;
  prl_fragment_index : u16;
  prl_opaque_slot_id : Id32;
  prl_encrypted_share_hash : Id32;
  prl_fragment_hash : Id32;
  prl_policy_hash : Id32
}.
#[export] Instance PreparedRecordLeaf_eq_dec : EqDecision PreparedRecordLeaf.
Proof. solve_decision. Defined.

Record CiphertextFragmentContribution : Set := mkCiphertextFragmentContribution {
  cfc_context : RotationContext;
  cfc_plan_hash : Id32;
  cfc_release_certificate_hash : Id32;
  cfc_old_guardian_index : u16;
  cfc_fragment_index : u16;
  cfc_ciphertext_fragment : list byte;
  cfc_fragment_commitment : Id32;
  cfc_prepared_record_leaf : PreparedRecordLeaf;
  cfc_merkle_path_proof : MerkleProofBytes;
  cfc_guardian_signature : SignatureBytes
}.
#[export] Instance CiphertextFragmentContribution_eq_dec : EqDecision CiphertextFragmentContribution.
Proof. solve_decision. Defined.

Record NewGuardianPreparedAck : Set := mkNewGuardianPreparedAck {
  ngpa_context : RotationContext;
  ngpa_plan_hash : Id32;
  ngpa_dpss_result_commitment : Id32;
  ngpa_guardian_material_root : Id32;
  ngpa_new_guardian_index : u16;
  ngpa_prepared_record_leaf : PreparedRecordLeaf;
  ngpa_durable_write_generation : u64;
  ngpa_guardian_signature : SignatureBytes
}.
#[export] Instance NewGuardianPreparedAck_eq_dec : EqDecision NewGuardianPreparedAck.
Proof. solve_decision. Defined.

Record OldGuardianHandoffAck : Set := mkOldGuardianHandoffAck {
  ogha_context : RotationContext;
  ogha_plan_hash : Id32;
  ogha_dpss_result_commitment : Id32;
  ogha_qualified_set_commitment : Id32;
  ogha_old_guardian_index : u16;
  ogha_guardian_signature : SignatureBytes
}.
#[export] Instance OldGuardianHandoffAck_eq_dec : EqDecision OldGuardianHandoffAck.
Proof. solve_decision. Defined.

Record RotationReadyCertificate : Set := mkRotationReadyCertificate {
  ready_context : RotationContext;
  ready_plan_hash : Id32;
  ready_successor : ConfigRef;
  ready_dpss_result_commitment : Id32;
  ready_guardian_material_root : Id32;
  ready_encrypted_descriptor_hash : Id32;
  ready_prepared_acks : list NewGuardianPreparedAck;
  ready_old_handoff_acks : list OldGuardianHandoffAck
}.
#[export] Instance RotationReadyCertificate_eq_dec : EqDecision RotationReadyCertificate.
Proof. solve_decision. Defined.

Record SignerRotationActivateVote : Set := mkSignerRotationActivateVote {
  srav_context : RotationContext;
  srav_plan_hash : Id32;
  srav_ready_certificate_hash : Id32;
  srav_successor_capsule_hash : Id32;
  srav_signer_id : u16;
  srav_signer_public_key : barr 32;
  srav_signer_membership_proof : MerkleProofBytes;
  srav_signer_signature : SignatureBytes
}.
#[export] Instance SignerRotationActivateVote_eq_dec : EqDecision SignerRotationActivateVote.
Proof. solve_decision. Defined.

Record RotationActivateCertificate : Set := mkRotationActivateCertificate {
  rac_context : RotationContext;
  rac_plan_hash : Id32;
  rac_ready_certificate_hash : Id32;
  rac_successor : ConfigRef;
  rac_successor_capsule_hash : Id32;
  rac_votes : list SignerRotationActivateVote
}.
#[export] Instance RotationActivateCertificate_eq_dec : EqDecision RotationActivateCertificate.
Proof. solve_decision. Defined.

Record WitnessActivationAck : Set := mkWitnessActivationAck {
  waa_context : RotationContext;
  waa_plan_hash : Id32;
  waa_activation_certificate_hash : Id32;
  waa_witness_id : u16;
  waa_predecessor_epoch : u64;
  waa_predecessor_capsule_hash : Id32;
  waa_successor_epoch : u64;
  waa_successor_capsule_hash : Id32;
  waa_witness_public_key : barr 32;
  waa_witness_signature : SignatureBytes
}.
#[export] Instance WitnessActivationAck_eq_dec : EqDecision WitnessActivationAck.
Proof. solve_decision. Defined.

Record WitnessRotationCancelAck : Set := mkWitnessRotationCancelAck {
  wrca_protocol_version : u16;
  wrca_config_id : Id32;
  wrca_rotation_id : Id32;
  wrca_plan_hash : Id32;
  wrca_cancel_certificate_hash : Id32;
  wrca_witness_id : u16;
  wrca_witness_public_key : barr 32;
  wrca_witness_signature : SignatureBytes
}.
#[export] Instance WitnessRotationCancelAck_eq_dec : EqDecision WitnessRotationCancelAck.
Proof. solve_decision. Defined.

Record EpochActivationQc : Set := mkEpochActivationQc {
  qc_protocol_version : u16;
  qc_config_id : Id32;
  qc_rotation_id : Id32;
  qc_predecessor_epoch : u64;
  qc_predecessor_capsule_hash : Id32;
  qc_successor_epoch : u64;
  qc_successor_capsule_hash : Id32;
  qc_activation_certificate_hash : Id32;
  qc_witness_fault_bound : u16;
  qc_witness_acks : list WitnessActivationAck
}.
#[export] Instance EpochActivationQc_eq_dec : EqDecision EpochActivationQc.
Proof. solve_decision. Defined.

Record EpochReadChallenge : Set := mkEpochReadChallenge {
  erc_protocol_version : u16;
  erc_config_id : Id32;
  erc_client_nonce : Id32;
  erc_response_recipient_key : list byte;
  erc_issued_at : u64;
  erc_expiry : u64
}.
#[export] Instance EpochReadChallenge_eq_dec : EqDecision EpochReadChallenge.
Proof. solve_decision. Defined.

Record WitnessEpochReadResponse : Set := mkWitnessEpochReadResponse {
  werr_protocol_version : u16;
  werr_config_id : Id32;
  werr_client_nonce : Id32;
  werr_witness_id : u16;
  werr_highest_guardian_epoch : u64;
  werr_capsule_hash : Id32;
  werr_witness_public_key : barr 32;
  werr_witness_signature : SignatureBytes
}.
#[export] Instance WitnessEpochReadResponse_eq_dec : EqDecision WitnessEpochReadResponse.
Proof. solve_decision. Defined.

Record RetirementNotice : Set := mkRetirementNotice {
  rn_context : RotationContext;
  rn_plan_hash : Id32;
  rn_activation_qc_hash : Id32;
  rn_retired_epoch : u64;
  rn_drain_deadline : u64
}.
#[export] Instance RetirementNotice_eq_dec : EqDecision RetirementNotice.
Proof. solve_decision. Defined.

Record RetirementAck : Set := mkRetirementAck {
  rack_context : RotationContext;
  rack_plan_hash : Id32;
  rack_activation_qc_hash : Id32;
  rack_guardian_index : u16;
  rack_retired_epoch : u64;
  rack_tombstone_hash : Id32;
  rack_guardian_signature : SignatureBytes
}.
#[export] Instance RetirementAck_eq_dec : EqDecision RetirementAck.
Proof. solve_decision. Defined.

Record SignerRotationAbortVote : Set := mkSignerRotationAbortVote {
  srabv_context : RotationContext;
  srabv_plan_hash : Id32;
  srabv_state_at_abort : RotationState;
  srabv_reason_code : u16;
  srabv_signer_id : u16;
  srabv_signer_public_key : barr 32;
  srabv_signer_membership_proof : MerkleProofBytes;
  srabv_signer_signature : SignatureBytes
}.
#[export] Instance SignerRotationAbortVote_eq_dec : EqDecision SignerRotationAbortVote.
Proof. solve_decision. Defined.

Record AbortRotationCertificate : Set := mkAbortRotationCertificate {
  arc_context : RotationContext;
  arc_plan_hash : Id32;
  arc_state_at_abort : RotationState;
  arc_reason_code : u16;
  arc_votes : list SignerRotationAbortVote
}.
#[export] Instance AbortRotationCertificate_eq_dec : EqDecision AbortRotationCertificate.
Proof. solve_decision. Defined.

Record RecoveryRequestV3 : Set := mkRecoveryRequestV3 {
  rr3_protocol_version : u16;
  rr3_config_ref : ConfigRef;
  rr3_request_id : Id32;
  rr3_recovery_recipient_key : list byte;
  rr3_requested_at : u64;
  rr3_nonce : Id32;
  rr3_expiry : u64
}.
#[export] Instance RecoveryRequestV3_eq_dec : EqDecision RecoveryRequestV3.
Proof. solve_decision. Defined.

Record SignerRecoveryContributionV3 : Set := mkSignerRecoveryContributionV3 {
  src3_request : RecoveryRequestV3;
  src3_signer_id : u16;
  src3_signer_public_key : barr 32;
  src3_signer_membership_proof : MerkleProofBytes;
  src3_encrypted_authorization_share : SealedMessage;
  src3_signer_signature : SignatureBytes
}.
#[export] Instance SignerRecoveryContributionV3_eq_dec : EqDecision SignerRecoveryContributionV3.
Proof. solve_decision. Defined.

Record BeginRecoveryCertificateV3 : Set := mkBeginRecoveryCertificateV3 {
  brc3_request : RecoveryRequestV3;
  brc3_request_digest : Id32;
  brc3_signer_contributions : list SignerRecoveryContributionV3
}.
#[export] Instance BeginRecoveryCertificateV3_eq_dec : EqDecision BeginRecoveryCertificateV3.
Proof. solve_decision. Defined.

Record SignerRecoveryReleaseVoteV3 : Set := mkSignerRecoveryReleaseVoteV3 {
  srrv3_request : RecoveryRequestV3;
  srrv3_request_digest : Id32;
  srrv3_signer_id : u16;
  srrv3_signer_public_key : barr 32;
  srrv3_signer_membership_proof : MerkleProofBytes;
  srrv3_signer_signature : SignatureBytes
}.
#[export] Instance SignerRecoveryReleaseVoteV3_eq_dec : EqDecision SignerRecoveryReleaseVoteV3.
Proof. solve_decision. Defined.

Record RecoveryReleaseCertificateV3 : Set := mkRecoveryReleaseCertificateV3 {
  rrc3_request : RecoveryRequestV3;
  rrc3_request_digest : Id32;
  rrc3_votes : list SignerRecoveryReleaseVoteV3
}.
#[export] Instance RecoveryReleaseCertificateV3_eq_dec : EqDecision RecoveryReleaseCertificateV3.
Proof. solve_decision. Defined.

Record OwnerRecoveryCancelCertificateV3 : Set := mkOwnerRecoveryCancelCertificateV3 {
  orcc3_request : RecoveryRequestV3;
  orcc3_request_digest : Id32;
  orcc3_reason_code : u16;
  orcc3_cancel_response_recipient_key : list byte;
  orcc3_owner_cancel_public_key : barr 32;
  orcc3_owner_signature : SignatureBytes
}.
#[export] Instance OwnerRecoveryCancelCertificateV3_eq_dec : EqDecision OwnerRecoveryCancelCertificateV3.
Proof. solve_decision. Defined.

Record OwnerRecoveryCancelAckV3 : Set := mkOwnerRecoveryCancelAckV3 {
  orca3_config_ref : ConfigRef;
  orca3_request_id : Id32;
  orca3_request_digest : Id32;
  orca3_cancel_certificate_hash : Id32;
  orca3_guardian_index : u16;
  orca3_guardian_signature : SignatureBytes
}.
#[export] Instance OwnerRecoveryCancelAckV3_eq_dec : EqDecision OwnerRecoveryCancelAckV3.
Proof. solve_decision. Defined.

Record GuardianRecoveryContributionV3 : Set := mkGuardianRecoveryContributionV3 {
  grc3_config_ref : ConfigRef;
  grc3_request_id : Id32;
  grc3_request_digest : Id32;
  grc3_recovery_recipient_key : list byte;
  grc3_nonce : Id32;
  grc3_guardian_index : u16;
  grc3_fragment_index : u16;
  grc3_encrypted_ciphertext_fragment : AeadCiphertext;
  grc3_encrypted_dek_share : AeadCiphertext;
  grc3_merkle_path_proof : MerkleProofBytes;
  grc3_guardian_signature : SignatureBytes
}.
#[export] Instance GuardianRecoveryContributionV3_eq_dec : EqDecision GuardianRecoveryContributionV3.
Proof. solve_decision. Defined.

Record RecoveryDescriptorV3 : Set := mkRecoveryDescriptorV3 {
  rd3_config_ref : ConfigRef;
  rd3_guardians : list GuardianRouteV3;
  rd3_guardian_material_root : Id32;
  rd3_data_shards : u16;
  rd3_total_shards : u16;
  rd3_ciphertext_len : u64;
  rd3_payload_nonce : barr 24;
  rd3_dpss_suite : DpssSuiteId;
  rd3_dpss_public_package : list byte;
  rd3_dpss_public_commitment : Id32
}.
#[export] Instance RecoveryDescriptorV3_eq_dec : EqDecision RecoveryDescriptorV3.
Proof. solve_decision. Defined.

Record ConfigCapsuleV3 : Set := mkConfigCapsuleV3 {
  cap3_protocol_version : u16;
  cap3_config_ref : ConfigRef;
  cap3_capsule_hash : Id32;
  cap3_predecessor_capsule_hash : Id32;
  cap3_signer_count : u16;
  cap3_signer_threshold : u16;
  cap3_guardian_count : u16;
  cap3_guardian_threshold : u16;
  cap3_minimum_recovery_delay : u64;
  cap3_max_request_lifetime : u64;
  cap3_signer_set_commitment : Id32;
  cap3_owner_cancel_public_key : barr 32;
  cap3_dpss_suite : DpssSuiteId;
  cap3_dpss_public_commitment : Id32;
  cap3_ciphertext_fragment_root : Id32;
  cap3_guardian_material_root : Id32;
  cap3_encrypted_recovery_descriptor : AeadCiphertext;
  cap3_activation_certificate : option RotationActivateCertificate;
  cap3_activation_qc : option EpochActivationQc
}.
#[export] Instance ConfigCapsuleV3_eq_dec : EqDecision ConfigCapsuleV3.
Proof. solve_decision. Defined.

Record WitnessPin : Set := mkWitnessPin {
  pin_witness_id : u16;
  pin_mailbox : string;
  pin_public_key : barr 32
}.
#[export] Instance WitnessPin_eq_dec : EqDecision WitnessPin.
Proof. solve_decision. Defined.

Record RecoveryCardV3 : Set := mkRecoveryCardV3 {
  card3_protocol_version : u16;
  card3_config_id : Id32;
  card3_signer_mailboxes : list string;
  card3_signer_set_commitment : Id32;
  card3_owner_cancel_public_key : barr 32;
  card3_witness_fault_bound : u16;
  card3_witnesses : list WitnessPin;
  card3_relay_bases : list string
}.
#[export] Instance RecoveryCardV3_eq_dec : EqDecision RecoveryCardV3.
Proof. solve_decision. Defined.

Record GuardianPolicyV3 : Set := mkGuardianPolicyV3 {
  gpol3_config_ref : ConfigRef;
  gpol3_epoch_state : GuardianEpochState;
  gpol3_signer_set_commitment : Id32;
  gpol3_signer_count : u16;
  gpol3_signer_threshold : u16;
  gpol3_owner_cancel_public_key : barr 32;
  gpol3_minimum_recovery_delay : u64;
  gpol3_guardian_material_root : Id32;
  gpol3_dpss_suite : DpssSuiteId;
  gpol3_dpss_public_commitment : Id32;
  gpol3_predecessor_capsule_hash : Id32;
  gpol3_activation_qc_hash : option Id32;
  gpol3_drain_deadline : option u64
}.
#[export] Instance GuardianPolicyV3_eq_dec : EqDecision GuardianPolicyV3.
Proof. solve_decision. Defined.

Record GuardianRecordV3 : Set := mkGuardianRecordV3 {
  grec3_opaque_slot_id : Id32;
  grec3_guardian_index : u16;
  grec3_fragment_index : u16;
  grec3_encrypted_ciphertext_fragment : AeadCiphertext;
  grec3_encrypted_dek_share : AeadCiphertext;
  grec3_merkle_path_proof : MerkleProofBytes;
  grec3_custody_root : Id32;
  grec3_policy : GuardianPolicyV3
}.
#[export] Instance GuardianRecordV3_eq_dec : EqDecision GuardianRecordV3.
Proof. solve_decision. Defined.

Record CustodyChallenge : Set := mkCustodyChallenge {
  cch_protocol_version : u16;
  cch_config_ref : ConfigRef;
  cch_opaque_slot_id : Id32;
  cch_challenge_id : Id32;
  cch_block_indices : list u32;
  cch_nonce : Id32;
  cch_response_recipient_key : list byte;
  cch_expiry : u64
}.
#[export] Instance CustodyChallenge_eq_dec : EqDecision CustodyChallenge.
Proof. solve_decision. Defined.

Record CustodyBlockProof : Set := mkCustodyBlockProof {
  cbp_block_index : u32;
  cbp_block : list byte;
  cbp_merkle_path : MerkleProofBytes
}.
#[export] Instance CustodyBlockProof_eq_dec : EqDecision CustodyBlockProof.
Proof. solve_decision. Defined.

Record CustodyResponse : Set := mkCustodyResponse {
  crs_protocol_version : u16;
  crs_config_ref : ConfigRef;
  crs_opaque_slot_id : Id32;
  crs_challenge_id : Id32;
  crs_nonce : Id32;
  crs_guardian_index : u16;
  crs_proofs : list CustodyBlockProof;
  crs_guardian_signature : SignatureBytes
}.
#[export] Instance CustodyResponse_eq_dec : EqDecision CustodyResponse.
Proof. solve_decision. Defined.

Record GuardianHealthRecord : Set := mkGuardianHealthRecord {
  ghr_config_ref : ConfigRef;
  ghr_guardian_index : u16;
  ghr_state : GuardianHealthState;
  ghr_consecutive_failures : u16;
  ghr_last_challenge_id : option Id32;
  ghr_last_success_at : option u64;
  ghr_evidence_hashes : list Id32
}.
#[export] Instance GuardianHealthRecord_eq_dec : EqDecision GuardianHealthRecord.
Proof. solve_decision. Defined.

(** ** The successor relation on configuration references *)

Definition is_direct_successor_of (self predecessor : ConfigRef) : bool :=
  bool_decide (cr_config_id self = cr_config_id predecessor)
  && bool_decide (cr_payload_generation self = cr_payload_generation predecessor)
  && bool_decide (cr_authorization_epoch self = cr_authorization_epoch predecessor)
  && bool_decide (cr_guardian_epoch self
                  = sat_add (cr_guardian_epoch predecessor) (U64 1))
  && bool_decide (cr_epoch_binding self ≠ cr_epoch_binding predecessor).

Lemma is_direct_successor_of_spec self predecessor :
  is_direct_successor_of self predecessor = true ↔
  cr_config_id self = cr_config_id predecessor
  ∧ cr_payload_generation self = cr_payload_generation predecessor
  ∧ cr_authorization_epoch self = cr_authorization_epoch predecessor
  ∧ cr_guardian_epoch self = sat_add (cr_guardian_epoch predecessor) (U64 1)
  ∧ cr_epoch_binding self ≠ cr_epoch_binding predecessor.
Proof.
  unfold is_direct_successor_of.
  rewrite !andb_true_iff, !bool_decide_eq_true. tauto.
Qed.
