(* ===== verification/Wire.v ===== *)
(** Canonical length-prefixed transcripts: crates/gp-wire/src/lib.rs, and the
    shared helpers of crates/gp-wire/src/rotation.rs.

    A Rust transcript function threads a [&mut Transcript] and stops at the
    first error.  Here a [Writer] is that step: it takes the bytes written so
    far and gives the extended bytes or the error; [>>] runs two steps in
    order, and [transcript] starts from [Transcript::default()] and finishes.
    A transcript dropped on an error is not observable, so an error carries no
    bytes. *)

From S2P Require Export TypesV3.

Inductive WireError : Set :=
| FieldTooLarge
| InvalidFrame
| InvalidValue
| DuplicateActor.
#[export] Instance WireError_eq_dec : EqDecision WireError.
Proof. solve_decision. Defined.

Definition MAX_FIELD_LEN : N := 16 * 1024 * 1024.

(** [u32::try_from(payload.len())]. *)
Definition try_u32 (n : N) : option u32 :=
  if (n <? 2 ^ 32)%N then Some (U32 n) else None.
Definition try_u16 (n : N) : option u16 :=
  if (n <? 2 ^ 16)%N then Some (U16 n) else None.

(** ** Frames *)

Definition frame (payload : list byte) : Result WireError (list byte) :=
  if (MAX_FIELD_LEN <? len payload)%mr then Err FieldTooLarge else
  l ← ok_or (try_u32 (len payload)) FieldTooLarge;
  Ok (be l ++ payload).

Definition deframe (frame : list byte) : Result WireError (list byte) :=
  if (len frame <? 4)%mr then Err InvalidFrame else
  let length := be_value (take 4 frame) in
  if ((MAX_FIELD_LEN <? length) || (len frame !=? length + 4)%N)%mr
  then Err InvalidFrame
  else Ok (drop 4 frame).

(** ** Transcript writers *)

Abbreviation Transcript := (list byte).
Definition Writer : Type := Transcript → Result WireError Transcript.

Declare Scope writer_scope.
Delimit Scope writer_scope with writer.
Bind Scope writer_scope with Writer.
Open Scope writer_scope.

Definition wseq (w1 w2 : Writer) : Writer := λ out, out ← w1 out; w2 out.
Notation "w1 >> w2" := (wseq w1 w2)
  (at level 60, right associativity) : writer_scope.

Definition wbytes (value : list byte) : Writer := λ out,
  l ← ok_or (try_u32 (len value)) FieldTooLarge;
  if (MAX_FIELD_LEN <? len value)%mr then Err FieldTooLarge else
  Ok (out ++ be l ++ value).

Definition domain (value : string) : Writer := wbytes (as_bytes value).

Definition wu16 (value : u16) : Writer := λ out, Ok (out ++ be value).
Definition wu32 (value : u32) : Writer := λ out, Ok (out ++ be value).
Definition wu64 (value : u64) : Writer := λ out, Ok (out ++ be value).

Definition transcript (w : Writer) : Result WireError (list byte) := w [].

(** [out.bytes(&r?)?]. *)
Definition wnested (r : Result WireError (list byte)) : Writer := λ out,
  inner ← r; wbytes inner out.

(** [if c { w }] and [if c { return Err(e) }]. *)
Definition wwhen (c : bool) (w : Writer) : Writer := λ out,
  if c then w out else Ok out.
Definition wfail_if (c : bool) (e : WireError) : Writer := λ out,
  if c then Err e else Ok out.

(** [for x in l { f(x)?; }]. *)
Fixpoint weach {A} (f : A → Writer) (l : list A) : Writer := λ out,
  match l with
  | [] => Ok out
  | x :: l => out ← f x out; weach f l out
  end.

Definition bounded_count (length : N) (max : u16) : Writer := λ out,
  l ← ok_or (try_u16 length) InvalidValue;
  if (max <? uval l)%mr then Err InvalidValue else wu16 l out.

(** [unique_ids]: the ids of a quorum are in [1 ..= MAX_ROTATION_ACTORS] and
    pairwise distinct; [unique] is the set built by the loop. *)
Fixpoint unique_ids_from (unique : gset u16) (ids : list u16) :
    Result WireError () :=
  match ids with
  | [] => Ok ()
  | id :: ids =>
      if ((uval id =? 0)%N || (MAX_ROTATION_ACTORS <? id)
          || bool_decide (id ∈ unique))%mr
      then Err (if bool_decide (id ∈ unique) then DuplicateActor
                else InvalidValue)
      else unique_ids_from ({[id]} ∪ unique) ids
  end.
Definition unique_ids (ids : list u16) : Result WireError () :=
  unique_ids_from ∅ ids.

(** [l.iter().any(|x| !seen.insert(x))], starting from [seen]. *)
Fixpoint has_duplicate_from `{Countable A} (seen : gset A) (l : list A) : bool :=
  match l with
  | [] => false
  | x :: l => bool_decide (x ∈ seen) || has_duplicate_from ({[x]} ∪ seen) l
  end.
Definition has_duplicate `{Countable A} (l : list A) : bool :=
  has_duplicate_from ∅ l.

(** [usize::from(f).checked_mul(2).and_then(|n| n.checked_add(1))]. *)
Definition twice_plus_one (f : u16) : option N :=
  n ← checked_mul f 2; checked_add n 1.

Definition suite_id (suite : CryptoSuite) : u16 :=
  match suite with XWingXChaCha20Poly1305Ed25519 => U16 1 end.

(** ** Version-2 transcripts *)

Definition recovery_request (request : RecoveryRequest) :
    Result WireError (list byte) :=
  transcript (
    domain "gp/recovery-request/v1"
    >> wu16 (rr_protocol_version request)
    >> wu16 (suite_id (rr_crypto_suite request))
    >> wbytes (rr_config_id request)
    >> wu64 (rr_config_version request)
    >> wbytes (rr_request_id request)
    >> wbytes (rr_recovery_recipient_key request)
    >> wu64 (rr_requested_at request)
    >> wbytes (rr_nonce request)
    >> wu64 (rr_expiry request)).

Definition signer_approval (request : RecoveryRequest)
    (signer_id : u16)
    (encrypted_share : SealedMessage) :
    Result WireError (list byte) :=
  transcript (
    domain "gp/signer-approval/v1"
    >> wnested (recovery_request request)
    >> wu16 signer_id
    >> wbytes (sealed_kem_ciphertext encrypted_share)
    >> wbytes (aead_nonce (sealed_payload encrypted_share))
    >> wbytes (aead_ciphertext (sealed_payload encrypted_share))).

Definition signer_leaf (signer_id : u16) (public_key : barr 32) :
    Result WireError (list byte) :=
  transcript (
    domain "gp/signer-leaf/v1"
    >> wu16 signer_id
    >> wbytes public_key).

Definition request_digest_preimage (request : RecoveryRequest) :
    Result WireError (list byte) :=
  transcript (
    domain "gp/recovery-request-digest/v1"
    >> wnested (recovery_request request)).

Definition descriptor_context (config_id : barr 32) (config_version : u64) :
    Result WireError (list byte) :=
  transcript (
    domain "gp/recovery-descriptor-context/v1"
    >> wbytes config_id
    >> wu64 config_version).

Definition recipient_share_context (request : RecoveryRequest) (signer_id : u16) :
    Result WireError (list byte) :=
  transcript (
    domain "gp/recipient-a-share-context/v1"
    >> wnested (recovery_request request)
    >> wu16 signer_id).

Definition guardian_release_context (request : RecoveryRequest) (guardian_index : u16) :
    Result WireError (list byte) :=
  transcript (
    domain "gp/recipient-guardian-contribution/v1"
    >> wnested (recovery_request request)
    >> wu16 guardian_index).

Definition owner_cancel (certificate : OwnerCancelCertificate) :
    Result WireError (list byte) :=
  transcript (
    domain "gp/owner-hard-cancel/v1"
    >> wu16 (occ_protocol_version certificate)
    >> wbytes (occ_config_id certificate)
    >> wu64 (occ_config_version certificate)
    >> wbytes (occ_request_id certificate)
    >> wbytes (occ_request_digest certificate)
    >> wbytes (occ_recovery_recipient_key certificate)
    >> wbytes (occ_cancel_response_recipient_key certificate)
    >> wu16 (occ_reason_code certificate)
    >> wbytes (occ_nonce certificate)
    >> wu64 (occ_issued_at certificate)
    >> wbytes (occ_owner_cancel_public_key certificate)).

Definition owner_cancel_ack (ack : OwnerCancelAck) : Result WireError (list byte) :=
  transcript (
    domain "gp/owner-hard-cancel-ack/v1"
    >> wu16 (oca_protocol_version ack)
    >> wbytes (oca_config_id ack)
    >> wu64 (oca_config_version ack)
    >> wbytes (oca_request_id ack)
    >> wbytes (oca_request_digest ack)
    >> wbytes (oca_owner_cancel_transcript_digest ack)
    >> wu16 (oca_guardian_index ack)).

Definition release_vote (vote : ReleaseVote) : Result WireError (list byte) :=
  transcript (
    domain "gp/release-vote/v1"
    >> wu16 (rv_protocol_version vote)
    >> wbytes (rv_config_id vote)
    >> wu64 (rv_config_version vote)
    >> wbytes (rv_request_id vote)
    >> wbytes (rv_request_digest vote)
    >> wbytes (rv_recovery_recipient_key vote)
    >> wbytes (rv_nonce vote)
    >> wu16 (rv_signer_id vote)
    >> wbytes (rv_signer_public_key vote)
    >> wbytes (rv_signer_membership_proof vote)).

Definition guardian_contribution (contribution : GuardianContribution) :
    Result WireError (list byte) :=
  transcript (
    domain "gp/guardian-contribution/v1"
    >> wu16 (gc_protocol_version contribution)
    >> wbytes (gc_config_id contribution)
    >> wu64 (gc_config_version contribution)
    >> wbytes (gc_request_id contribution)
    >> wbytes (gc_request_digest contribution)
    >> wu16 (gc_guardian_index contribution)
    >> wbytes (gc_ciphertext_fragment contribution)
    >> wbytes (aead_nonce (gc_encrypted_dek_share contribution))
    >> wbytes (aead_ciphertext (gc_encrypted_dek_share contribution))
    >> wbytes (gc_merkle_path_proof contribution)).

Definition guardian_leaf (config_id : barr 32)
    (config_version : u64)
    (guardian_index : u16)
    (fragment_hash : barr 32)
    (encrypted_share_hash : barr 32) :
    Result WireError (list byte) :=
  transcript (
    domain "gp/guardian-leaf/v1"
    >> wbytes config_id
    >> wu64 config_version
    >> wu16 guardian_index
    >> wbytes fragment_hash
    >> wbytes encrypted_share_hash).

Definition guardian_share_context (config_id : barr 32)
    (config_version : u64)
    (guardian_index : u16) :
    Result WireError (list byte) :=
  transcript (
    domain "gp/guardian-dek-share-context/v1"
    >> wbytes config_id
    >> wu64 config_version
    >> wu16 guardian_index).

Definition payload_context (config_id : barr 32) (config_version : u64) :
    Result WireError (list byte) :=
  transcript (
    domain "gp/payload-context/v1"
    >> wbytes config_id
    >> wu64 config_version).

Definition node_provision_context (node_id : string) (role : string) :
    Result WireError (list byte) :=
  transcript (
    domain "gp/network-node-provision/v1"
    >> wbytes (as_bytes node_id)
    >> wbytes (as_bytes role)).

Definition mailbox_transport_context (mailbox : string) (direction : string) :
    Result WireError (list byte) :=
  transcript (
    domain "gp/network-mailbox-transport/v1"
    >> wbytes (as_bytes mailbox)
    >> wbytes (as_bytes direction)).
