(* ===== verification/WireV3.v ===== *)
(** Canonical protocol-v3 transcripts: crates/gp-wire/src/rotation.rs.

    Each definition has the source function's name and writes the same fields
    in the same order after the same checks. *)

From S2P Require Export Wire.

Definition same_rotation (left right : RotationContext) : bool :=
  ((ctx_protocol_version left ==? ctx_protocol_version right)
   && (ctx_config_ref left ==? ctx_config_ref right)
   && (ctx_rotation_id left ==? ctx_rotation_id right)
   && (ctx_predecessor_capsule_hash left
       ==? ctx_predecessor_capsule_hash right))%mr.

Definition dpss_suite_id (value : DpssSuiteId) : u16 :=
  match value with ZfFrostRistretto255RtsRefreshV1 => U16 1 end.

Definition dpss_phase_id (value : DpssPhase) : u16 :=
  match value with
  | RepairRound1 => U16 1
  | RepairRound2 => U16 2
  | RepairRound3 => U16 3
  | RefreshRound1 => U16 4
  | RefreshRound2 => U16 5
  | Finalize => U16 6
  end.

Definition reason_id (value : RotationReason) : u16 :=
  match value with
  | ReasonPlannedExit => U16 1
  | ReasonCustodyFailure => U16 2
  | ReasonUnavailable => U16 3
  | ReasonSuspectedCompromise => U16 4
  | ReasonDiversityPolicy => U16 5
  | ReasonProactiveRefresh => U16 6
  | ReasonSecurityUpgrade => U16 7
  | ReasonOwnerAssistedMigration => U16 8
  end.

Definition state_id (value : RotationState) : u16 :=
  match value with
  | RotProposed => U16 1
  | RotDelayPending => U16 2
  | RotPreparing => U16 3
  | RotReady => U16 4
  | RotActivating => U16 5
  | RotActive => U16 6
  | RotDraining => U16 7
  | RotRetired => U16 8
  | RotAborted => U16 9
  end.

Definition config_ref_into (value : ConfigRef) : Writer :=
  wbytes (cr_config_id value)
  >> wu64 (cr_payload_generation value)
  >> wu64 (cr_authorization_epoch value)
  >> wu64 (cr_guardian_epoch value)
  >> wbytes (cr_epoch_binding value).

Definition context_into (value : RotationContext) : Writer :=
  wfail_if ((ctx_protocol_version value !=? PROTOCOL_VERSION_V3)
       || (ctx_expiry value <=? ctx_issued_at value))%mr InvalidValue
  >> wu16 (ctx_protocol_version value)
  >> config_ref_into (ctx_config_ref value)
  >> wbytes (ctx_rotation_id value)
  >> wbytes (ctx_predecessor_capsule_hash value)
  >> wbytes (ctx_recipient_key value)
  >> wbytes (ctx_nonce value)
  >> wu64 (ctx_issued_at value)
  >> wu64 (ctx_expiry value).

Definition route_into (route : GuardianRouteV3) : Writer :=
  wfail_if ((uval (gr3_guardian_index route) =? 0)%N
       || (MAX_ROTATION_ACTORS <? gr3_guardian_index route))%mr InvalidValue
  >> wu16 (gr3_guardian_index route)
  >> wbytes (gr3_opaque_slot_id route)
  >> wbytes (as_bytes (gr3_mailbox route))
  >> wbytes (gr3_guardian_public_key route)
  >> wbytes (gr3_session_recipient_key route)
  >> wbytes (gr3_operator_domain_commitment route).

Definition guardian_roster_v3 (routes : list GuardianRouteV3) :
    Result WireError (list byte) :=
  _ ← unique_ids (gr3_guardian_index <$> routes);
  transcript (
    domain "gp/private-guardian-roster/v3"
    >> bounded_count (len routes) MAX_ROTATION_ACTORS
    >> weach (λ route, route_into route) routes).

Definition sealed_into (sealed : SealedMessage) : Writer :=
  wbytes (sealed_kem_ciphertext sealed)
  >> wbytes (aead_nonce (sealed_payload sealed))
  >> wbytes (aead_ciphertext (sealed_payload sealed)).

Definition begin_vote_into (vote : SignerRotationBeginVote) (include_signature : bool) : Writer :=
  context_into (srbv_context vote)
  >> wbytes (srbv_intent_hash vote)
  >> wbytes (srbv_plan_hash vote)
  >> wbytes (srbv_old_roster_commitment vote)
  >> wbytes (srbv_new_roster_commitment vote)
  >> wu16 (srbv_signer_id vote)
  >> wbytes (srbv_signer_public_key vote)
  >> wbytes (srbv_signer_membership_proof vote)
  >> wwhen include_signature (wbytes (srbv_signer_signature vote)).

Definition release_vote_into (vote : SignerRotationReleaseVote) (include_signature : bool) : Writer :=
  context_into (srrv_context vote)
  >> wbytes (srrv_plan_hash vote)
  >> wbytes (srrv_begin_certificate_hash vote)
  >> wu16 (srrv_signer_id vote)
  >> wbytes (srrv_signer_public_key vote)
  >> wbytes (srrv_signer_membership_proof vote)
  >> wwhen include_signature (wbytes (srrv_signer_signature vote)).

Definition prepared_leaf_into (leaf : PreparedRecordLeaf) : Writer :=
  wu16 (prl_guardian_index leaf)
  >> wu16 (prl_fragment_index leaf)
  >> wbytes (prl_opaque_slot_id leaf)
  >> wbytes (prl_encrypted_share_hash leaf)
  >> wbytes (prl_fragment_hash leaf)
  >> wbytes (prl_policy_hash leaf).

Definition prepared_record_leaf_v3 (value : PreparedRecordLeaf) :
    Result WireError (list byte) :=
  transcript (
    domain "gp/prepared-record-leaf/v3"
    >> prepared_leaf_into value).

Definition prepared_ack_into (ack : NewGuardianPreparedAck) (include_signature : bool) : Writer :=
  context_into (ngpa_context ack)
  >> wbytes (ngpa_plan_hash ack)
  >> wbytes (ngpa_dpss_result_commitment ack)
  >> wbytes (ngpa_guardian_material_root ack)
  >> wu16 (ngpa_new_guardian_index ack)
  >> prepared_leaf_into (ngpa_prepared_record_leaf ack)
  >> wu64 (ngpa_durable_write_generation ack)
  >> wwhen include_signature (wbytes (ngpa_guardian_signature ack)).

Definition handoff_ack_into (ack : OldGuardianHandoffAck) (include_signature : bool) : Writer :=
  context_into (ogha_context ack)
  >> wbytes (ogha_plan_hash ack)
  >> wbytes (ogha_dpss_result_commitment ack)
  >> wbytes (ogha_qualified_set_commitment ack)
  >> wu16 (ogha_old_guardian_index ack)
  >> wwhen include_signature (wbytes (ogha_guardian_signature ack)).

Definition activate_vote_into (vote : SignerRotationActivateVote) (include_signature : bool) : Writer :=
  context_into (srav_context vote)
  >> wbytes (srav_plan_hash vote)
  >> wbytes (srav_ready_certificate_hash vote)
  >> wbytes (srav_successor_capsule_hash vote)
  >> wu16 (srav_signer_id vote)
  >> wbytes (srav_signer_public_key vote)
  >> wbytes (srav_signer_membership_proof vote)
  >> wwhen include_signature (wbytes (srav_signer_signature vote)).

Definition witness_ack_into (ack : WitnessActivationAck) (include_signature : bool) : Writer :=
  context_into (waa_context ack)
  >> wbytes (waa_plan_hash ack)
  >> wbytes (waa_activation_certificate_hash ack)
  >> wu16 (waa_witness_id ack)
  >> wu64 (waa_predecessor_epoch ack)
  >> wbytes (waa_predecessor_capsule_hash ack)
  >> wu64 (waa_successor_epoch ack)
  >> wbytes (waa_successor_capsule_hash ack)
  >> wbytes (waa_witness_public_key ack)
  >> wwhen include_signature (wbytes (waa_witness_signature ack)).

Definition rotation_intent (value : RotationIntent) : Result WireError (list byte) :=
  transcript (
    domain "gp/rotation-intent/v3"
    >> context_into (ri_context value)
    >> wu16 (reason_id (ri_reason value))
    >> wu16 (ri_old_guardian_count value)
    >> wu16 (ri_old_guardian_threshold value)
    >> bounded_count (len (ri_allowed_new_guardian_count value)) MAX_ROTATION_ACTORS
    >> weach (λ count, wu16 count) (ri_allowed_new_guardian_count value)
    >> bounded_count (len (ri_allowed_new_guardian_threshold value)) MAX_ROTATION_ACTORS
    >> weach (λ threshold, wu16 threshold) (ri_allowed_new_guardian_threshold value)
    >> bounded_count (len (ri_allowed_dpss_suites value)) (U16 32)
    >> weach (λ suite, wu16 (dpss_suite_id suite)) (ri_allowed_dpss_suites value)
    >> wbytes (ri_selection_constraints_commitment value)
    >> wbytes (ri_witness_read_qc_hash value)).

Definition signer_rotation_intent_contribution (value : SignerRotationIntentContribution) :
    Result WireError (list byte) :=
  transcript (
    domain "gp/signer-rotation-intent-contribution/v3"
    >> context_into (sric_context value)
    >> wbytes (sric_intent_hash value)
    >> wu16 (sric_signer_id value)
    >> wbytes (sric_signer_public_key value)
    >> wbytes (sric_signer_membership_proof value)
    >> sealed_into (sric_encrypted_authorization_share value)).

Definition rotation_intent_share_context_v3 (context : RotationContext)
    (intent_hash : Id32)
    (signer_id : u16) :
    Result WireError (list byte) :=
  transcript (
    domain "gp/rotation-intent-a-share-context/v3"
    >> context_into context
    >> wbytes intent_hash
    >> wu16 signer_id).

Definition rotation_plan (value : RotationPlan) : Result WireError (list byte) :=
  if (negb (is_direct_successor_of (plan_successor value) (plan_predecessor value))
       || (ctx_config_ref (plan_context value) !=? plan_predecessor value)
       || (uval (plan_old_guardian_threshold value) =? 0)%N
       || (uval (plan_new_guardian_threshold value) =? 0)%N
       || (len (plan_old_roster value) <? plan_old_guardian_threshold value)
       || (len (plan_new_roster value) <? plan_new_guardian_threshold value)
       || (uval (plan_data_shards value) =? 0)%N
       || (plan_total_shards value <? plan_data_shards value))%mr then Err InvalidValue else
  _ ← unique_ids (gr3_guardian_index <$> (plan_old_roster value));
  _ ← unique_ids (gr3_guardian_index <$> (plan_new_roster value));
  transcript (
    domain "gp/rotation-plan/v3"
    >> context_into (plan_context value)
    >> wbytes (plan_intent_hash value)
    >> config_ref_into (plan_predecessor value)
    >> config_ref_into (plan_successor value)
    >> bounded_count (len (plan_old_roster value)) MAX_ROTATION_ACTORS
    >> weach (λ route, route_into route) (plan_old_roster value)
    >> bounded_count (len (plan_new_roster value)) MAX_ROTATION_ACTORS
    >> weach (λ route, route_into route) (plan_new_roster value)
    >> wbytes (plan_old_roster_commitment value)
    >> wbytes (plan_new_roster_commitment value)
    >> wu16 (plan_old_guardian_threshold value)
    >> wu16 (plan_new_guardian_threshold value)
    >> wu16 (plan_data_shards value)
    >> wu16 (plan_total_shards value)
    >> wu16 (dpss_suite_id (plan_dpss_suite value))
    >> wbytes (plan_dpss_session_id value)
    >> wbytes (plan_dpss_qualified_set_commitment value)
    >> wu64 (plan_minimum_delay_secs value)
    >> wu64 (plan_preparation_deadline value)
    >> wu64 (plan_drain_deadline value)).

Definition signer_rotation_begin_vote (value : SignerRotationBeginVote) :
    Result WireError (list byte) :=
  transcript (
    domain "gp/signer-rotation-begin-vote/v3"
    >> begin_vote_into value false).

Definition begin_rotation_certificate (value : BeginRotationCertificate) :
    Result WireError (list byte) :=
  _ ← unique_ids (srbv_signer_id <$> (brot_votes value));
  if (existsb (λ vote,
       negb (same_rotation (brot_context value) (srbv_context vote))
       || (srbv_intent_hash vote !=? brot_intent_hash value)
       || (srbv_plan_hash vote !=? brot_plan_hash value)
       || (srbv_old_roster_commitment vote !=? brot_old_roster_commitment value)
       || (srbv_new_roster_commitment vote !=? brot_new_roster_commitment value)) (brot_votes value))%mr then Err InvalidValue else
  transcript (
    domain "gp/begin-rotation-certificate/v3"
    >> context_into (brot_context value)
    >> wbytes (brot_intent_hash value)
    >> wbytes (brot_plan_hash value)
    >> wbytes (brot_old_roster_commitment value)
    >> wbytes (brot_new_roster_commitment value)
    >> wu64 (brot_not_before_wall value)
    >> bounded_count (len (brot_votes value)) MAX_ROTATION_ACTORS
    >> weach (λ vote, begin_vote_into vote true) (brot_votes value)).

Definition owner_rotation_cancel_certificate (value : OwnerRotationCancelCertificate) :
    Result WireError (list byte) :=
  transcript (
    domain "gp/owner-rotation-cancel/v3"
    >> context_into (orcc_context value)
    >> wbytes (orcc_plan_hash value)
    >> wu16 (orcc_reason_code value)
    >> wbytes (orcc_cancel_response_recipient_key value)
    >> wbytes (orcc_owner_cancel_public_key value)).

Definition owner_rotation_cancel_ack (value : OwnerRotationCancelAck) :
    Result WireError (list byte) :=
  transcript (
    domain "gp/owner-rotation-cancel-ack/v3"
    >> context_into (orca_context value)
    >> wbytes (orca_plan_hash value)
    >> wbytes (orca_cancel_certificate_hash value)
    >> wu16 (orca_guardian_index value)).

Definition signer_rotation_release_vote (value : SignerRotationReleaseVote) :
    Result WireError (list byte) :=
  transcript (
    domain "gp/signer-rotation-release-vote/v3"
    >> release_vote_into value false).

Definition rotation_release_certificate (value : RotationReleaseCertificate) :
    Result WireError (list byte) :=
  _ ← unique_ids (srrv_signer_id <$> (rrc_votes value));
  if (existsb (λ vote,
       negb (same_rotation (rrc_context value) (srrv_context vote))
       || (srrv_plan_hash vote !=? rrc_plan_hash value)
       || (srrv_begin_certificate_hash vote !=? rrc_begin_certificate_hash value)) (rrc_votes value))%mr then Err InvalidValue else
  transcript (
    domain "gp/rotation-release-certificate/v3"
    >> context_into (rrc_context value)
    >> wbytes (rrc_plan_hash value)
    >> wbytes (rrc_begin_certificate_hash value)
    >> bounded_count (len (rrc_votes value)) MAX_ROTATION_ACTORS
    >> weach (λ vote, release_vote_into vote true) (rrc_votes value)).

Definition old_share_unlock_grant (value : OldShareUnlockGrant) :
    Result WireError (list byte) :=
  transcript (
    domain "gp/old-share-unlock-grant/v3"
    >> context_into (osug_context value)
    >> wbytes (osug_plan_hash value)
    >> wbytes (osug_release_certificate_hash value)
    >> wu16 (osug_old_guardian_index value)
    >> sealed_into (osug_encrypted_unwrap_key value)
    >> sealed_into (osug_encrypted_fragment_key value)).

Definition old_share_unlock_grant_payload_context (value : OldShareUnlockGrant)
    (fragment_key : bool) :
    Result WireError (list byte) :=
  transcript (
    domain "gp/old-share-unlock-grant-payload/v3"
    >> context_into (osug_context value)
    >> wbytes (osug_plan_hash value)
    >> wbytes (osug_release_certificate_hash value)
    >> wu16 (osug_old_guardian_index value)
    >> wu16 (U16 (N.b2n fragment_key))).

Definition new_share_wrap_grant (value : NewShareWrapGrant) :
    Result WireError (list byte) :=
  transcript (
    domain "gp/new-share-wrap-grant/v3"
    >> context_into (nswg_context value)
    >> wbytes (nswg_plan_hash value)
    >> wbytes (nswg_release_certificate_hash value)
    >> wu16 (nswg_new_guardian_index value)
    >> sealed_into (nswg_encrypted_wrap_key value)
    >> sealed_into (nswg_encrypted_fragment_key value)).

Definition new_share_wrap_grant_payload_context (value : NewShareWrapGrant)
    (fragment_key : bool) :
    Result WireError (list byte) :=
  transcript (
    domain "gp/new-share-wrap-grant-payload/v3"
    >> context_into (nswg_context value)
    >> wbytes (nswg_plan_hash value)
    >> wbytes (nswg_release_certificate_hash value)
    >> wu16 (nswg_new_guardian_index value)
    >> wu16 (U16 (N.b2n fragment_key))).

Definition dpss_protocol_message (value : DpssProtocolMessage) :
    Result WireError (list byte) :=
  if ((dpm_sender_index value ==? dpm_recipient_index value)
       || (uval (dpm_sequence value) =? 0)%N)%mr then Err InvalidValue else
  _ ← unique_ids [dpm_sender_index value; dpm_recipient_index value];
  transcript (
    domain "gp/dpss-protocol-message/v3"
    >> context_into (dpm_context value)
    >> wbytes (dpm_plan_hash value)
    >> wu16 (dpss_suite_id (dpm_dpss_suite value))
    >> wbytes (dpm_dpss_session_id value)
    >> wbytes (dpm_qualified_set_commitment value)
    >> wu16 (dpss_phase_id (dpm_phase value))
    >> wu16 (dpm_sender_index value)
    >> wu16 (dpm_recipient_index value)
    >> wu64 (dpm_sequence value)
    >> wbytes (dpm_provider_payload value)).

Definition ciphertext_fragment_contribution (value : CiphertextFragmentContribution) :
    Result WireError (list byte) :=
  transcript (
    domain "gp/ciphertext-fragment-contribution/v3"
    >> context_into (cfc_context value)
    >> wbytes (cfc_plan_hash value)
    >> wbytes (cfc_release_certificate_hash value)
    >> wu16 (cfc_old_guardian_index value)
    >> wu16 (cfc_fragment_index value)
    >> wbytes (cfc_ciphertext_fragment value)
    >> wbytes (cfc_fragment_commitment value)
    >> prepared_leaf_into (cfc_prepared_record_leaf value)
    >> wbytes (cfc_merkle_path_proof value)).

Definition new_guardian_prepared_ack (value : NewGuardianPreparedAck) :
    Result WireError (list byte) :=
  if ((ngpa_new_guardian_index value !=? prl_guardian_index (ngpa_prepared_record_leaf value))
       || (uval (ngpa_durable_write_generation value) =? 0)%N)%mr then Err InvalidValue else
  transcript (
    domain "gp/new-guardian-prepared-ack/v3"
    >> prepared_ack_into value false).

Definition old_guardian_handoff_ack (value : OldGuardianHandoffAck) :
    Result WireError (list byte) :=
  transcript (
    domain "gp/old-guardian-handoff-ack/v3"
    >> handoff_ack_into value false).

Definition rotation_ready_certificate (value : RotationReadyCertificate) :
    Result WireError (list byte) :=
  _ ← unique_ids (ngpa_new_guardian_index <$> (ready_prepared_acks value));
  _ ← unique_ids (ogha_old_guardian_index <$> (ready_old_handoff_acks value));
  if (existsb (λ ack,
       negb (same_rotation (ready_context value) (ngpa_context ack))
       || (ngpa_plan_hash ack !=? ready_plan_hash value)
       || (ngpa_dpss_result_commitment ack !=? ready_dpss_result_commitment value)
       || (ngpa_guardian_material_root ack !=? ready_guardian_material_root value)
       || (ngpa_new_guardian_index ack !=? prl_guardian_index (ngpa_prepared_record_leaf ack))
       || (uval (ngpa_durable_write_generation ack) =? 0)%N) (ready_prepared_acks value) || existsb (λ ack,
       negb (same_rotation (ready_context value) (ogha_context ack))
       || (ogha_plan_hash ack !=? ready_plan_hash value)
       || (ogha_dpss_result_commitment ack !=? ready_dpss_result_commitment value)) (ready_old_handoff_acks value))%mr then Err InvalidValue else
  transcript (
    domain "gp/rotation-ready-certificate/v3"
    >> context_into (ready_context value)
    >> wbytes (ready_plan_hash value)
    >> config_ref_into (ready_successor value)
    >> wbytes (ready_dpss_result_commitment value)
    >> wbytes (ready_guardian_material_root value)
    >> wbytes (ready_encrypted_descriptor_hash value)
    >> bounded_count (len (ready_prepared_acks value)) MAX_ROTATION_ACTORS
    >> weach (λ ack, prepared_ack_into ack true) (ready_prepared_acks value)
    >> bounded_count (len (ready_old_handoff_acks value)) MAX_ROTATION_ACTORS
    >> weach (λ ack, handoff_ack_into ack true) (ready_old_handoff_acks value)).

Definition signer_rotation_activate_vote (value : SignerRotationActivateVote) :
    Result WireError (list byte) :=
  transcript (
    domain "gp/signer-rotation-activate-vote/v3"
    >> activate_vote_into value false).

Definition rotation_activate_certificate (value : RotationActivateCertificate) :
    Result WireError (list byte) :=
  _ ← unique_ids (srav_signer_id <$> (rac_votes value));
  if (existsb (λ vote,
       negb (same_rotation (rac_context value) (srav_context vote))
       || (srav_plan_hash vote !=? rac_plan_hash value)
       || (srav_ready_certificate_hash vote !=? rac_ready_certificate_hash value)
       || (srav_successor_capsule_hash vote !=? rac_successor_capsule_hash value)) (rac_votes value))%mr then Err InvalidValue else
  transcript (
    domain "gp/rotation-activate-certificate/v3"
    >> context_into (rac_context value)
    >> wbytes (rac_plan_hash value)
    >> wbytes (rac_ready_certificate_hash value)
    >> config_ref_into (rac_successor value)
    >> wbytes (rac_successor_capsule_hash value)
    >> bounded_count (len (rac_votes value)) MAX_ROTATION_ACTORS
    >> weach (λ vote, activate_vote_into vote true) (rac_votes value)).

Definition witness_activation_ack (value : WitnessActivationAck) :
    Result WireError (list byte) :=
  transcript (
    domain "gp/witness-activation-ack/v3"
    >> witness_ack_into value false).

Definition witness_rotation_cancel_ack (value : WitnessRotationCancelAck) :
    Result WireError (list byte) :=
  if ((wrca_protocol_version value !=? PROTOCOL_VERSION_V3)
       || (uval (wrca_witness_id value) =? 0)%N)%mr then Err InvalidValue else
  transcript (
    domain "gp/witness-rotation-cancel-ack/v3"
    >> wu16 (wrca_protocol_version value)
    >> wbytes (wrca_config_id value)
    >> wbytes (wrca_rotation_id value)
    >> wbytes (wrca_plan_hash value)
    >> wbytes (wrca_cancel_certificate_hash value)
    >> wu16 (wrca_witness_id value)
    >> wbytes (wrca_witness_public_key value)).

Definition epoch_activation_qc (value : EpochActivationQc) :
    Result WireError (list byte) :=
  if ((qc_protocol_version value !=? PROTOCOL_VERSION_V3)
       || (qc_successor_epoch value !=? sat_add (qc_predecessor_epoch value) (U64 1))
       || (MAX_CONFIG_WITNESSES <? qc_witness_fault_bound value))%mr then Err InvalidValue else
  _ ← unique_ids (waa_witness_id <$> (qc_witness_acks value));
  required ← ok_or (twice_plus_one (qc_witness_fault_bound value)) InvalidValue;
  if ((len (qc_witness_acks value) <? required))%mr then Err InvalidValue else
  if (existsb (λ ack,
       (ctx_protocol_version (waa_context ack) !=? qc_protocol_version value)
       || (cr_config_id (ctx_config_ref (waa_context ack)) !=? qc_config_id value)
       || (ctx_rotation_id (waa_context ack) !=? qc_rotation_id value)
       || (waa_predecessor_epoch ack !=? qc_predecessor_epoch value)
       || (waa_predecessor_capsule_hash ack !=? qc_predecessor_capsule_hash value)
       || (waa_successor_epoch ack !=? qc_successor_epoch value)
       || (waa_successor_capsule_hash ack !=? qc_successor_capsule_hash value)
       || (waa_activation_certificate_hash ack !=? qc_activation_certificate_hash value)) (qc_witness_acks value))%mr then Err InvalidValue else
  transcript (
    domain "gp/epoch-activation-qc/v3"
    >> wu16 (qc_protocol_version value)
    >> wbytes (qc_config_id value)
    >> wbytes (qc_rotation_id value)
    >> wu64 (qc_predecessor_epoch value)
    >> wbytes (qc_predecessor_capsule_hash value)
    >> wu64 (qc_successor_epoch value)
    >> wbytes (qc_successor_capsule_hash value)
    >> wbytes (qc_activation_certificate_hash value)
    >> wu16 (qc_witness_fault_bound value)
    >> bounded_count (len (qc_witness_acks value)) MAX_CONFIG_WITNESSES
    >> weach (λ ack, witness_ack_into ack true) (qc_witness_acks value)).

Definition epoch_read_challenge (value : EpochReadChallenge) :
    Result WireError (list byte) :=
  if ((erc_protocol_version value !=? PROTOCOL_VERSION_V3)
       || (erc_expiry value <=? erc_issued_at value))%mr then Err InvalidValue else
  transcript (
    domain "gp/epoch-read-challenge/v3"
    >> wu16 (erc_protocol_version value)
    >> wbytes (erc_config_id value)
    >> wbytes (erc_client_nonce value)
    >> wbytes (erc_response_recipient_key value)
    >> wu64 (erc_issued_at value)
    >> wu64 (erc_expiry value)).

Definition witness_epoch_read_response (value : WitnessEpochReadResponse) :
    Result WireError (list byte) :=
  if ((werr_protocol_version value !=? PROTOCOL_VERSION_V3))%mr then Err InvalidValue else
  transcript (
    domain "gp/witness-epoch-read-response/v3"
    >> wu16 (werr_protocol_version value)
    >> wbytes (werr_config_id value)
    >> wbytes (werr_client_nonce value)
    >> wu16 (werr_witness_id value)
    >> wu64 (werr_highest_guardian_epoch value)
    >> wbytes (werr_capsule_hash value)
    >> wbytes (werr_witness_public_key value)).

Definition retirement_notice (value : RetirementNotice) :
    Result WireError (list byte) :=
  transcript (
    domain "gp/retirement-notice/v3"
    >> context_into (rn_context value)
    >> wbytes (rn_plan_hash value)
    >> wbytes (rn_activation_qc_hash value)
    >> wu64 (rn_retired_epoch value)
    >> wu64 (rn_drain_deadline value)).

Definition retirement_ack (value : RetirementAck) : Result WireError (list byte) :=
  transcript (
    domain "gp/retirement-ack/v3"
    >> context_into (rack_context value)
    >> wbytes (rack_plan_hash value)
    >> wbytes (rack_activation_qc_hash value)
    >> wu16 (rack_guardian_index value)
    >> wu64 (rack_retired_epoch value)
    >> wbytes (rack_tombstone_hash value)).

Definition signer_rotation_abort_vote_into (value : SignerRotationAbortVote) (include_signature : bool) : Writer :=
  context_into (srabv_context value)
  >> wbytes (srabv_plan_hash value)
  >> wu16 (state_id (srabv_state_at_abort value))
  >> wu16 (srabv_reason_code value)
  >> wu16 (srabv_signer_id value)
  >> wbytes (srabv_signer_public_key value)
  >> wbytes (srabv_signer_membership_proof value)
  >> wwhen include_signature (wbytes (srabv_signer_signature value)).

Definition abort_rotation_certificate (value : AbortRotationCertificate) :
    Result WireError (list byte) :=
  _ ← unique_ids (srabv_signer_id <$> (arc_votes value));
  transcript (
    domain "gp/abort-rotation-certificate/v3"
    >> context_into (arc_context value)
    >> wbytes (arc_plan_hash value)
    >> wu16 (state_id (arc_state_at_abort value))
    >> wu16 (arc_reason_code value)
    >> bounded_count (len (arc_votes value)) MAX_ROTATION_ACTORS
    >> weach (λ vote, signer_rotation_abort_vote_into vote true) (arc_votes value)).

Definition signer_rotation_abort_vote (value : SignerRotationAbortVote) :
    Result WireError (list byte) :=
  transcript (
    domain "gp/signer-rotation-abort-vote/v3"
    >> signer_rotation_abort_vote_into value false).

Definition recovery_request_v3 (value : RecoveryRequestV3) :
    Result WireError (list byte) :=
  if ((rr3_protocol_version value !=? PROTOCOL_VERSION_V3)
       || (rr3_expiry value <=? rr3_requested_at value))%mr then Err InvalidValue else
  transcript (
    domain "gp/recovery-request/v3"
    >> wu16 (rr3_protocol_version value)
    >> config_ref_into (rr3_config_ref value)
    >> wbytes (rr3_request_id value)
    >> wbytes (rr3_recovery_recipient_key value)
    >> wu64 (rr3_requested_at value)
    >> wbytes (rr3_nonce value)
    >> wu64 (rr3_expiry value)).

Definition recovery_request_digest_v3 (value : RecoveryRequestV3) :
    Result WireError (list byte) :=
  transcript (
    domain "gp/recovery-request-digest/v3"
    >> wnested (recovery_request_v3 value)).

Definition recovery_authorization_share_context_v3 (request : RecoveryRequestV3)
    (signer_id : u16) :
    Result WireError (list byte) :=
  transcript (
    domain "gp/recovery-a-share-context/v3"
    >> wnested (recovery_request_v3 request)
    >> wu16 signer_id).

Definition signer_recovery_contribution_into (value : SignerRecoveryContributionV3) (include_signature : bool) : Writer :=
  wnested (recovery_request_v3 (src3_request value))
  >> wu16 (src3_signer_id value)
  >> wbytes (src3_signer_public_key value)
  >> wbytes (src3_signer_membership_proof value)
  >> sealed_into (src3_encrypted_authorization_share value)
  >> wwhen include_signature (wbytes (src3_signer_signature value)).

Definition signer_recovery_contribution_v3 (value : SignerRecoveryContributionV3) :
    Result WireError (list byte) :=
  transcript (
    domain "gp/signer-recovery-contribution/v3"
    >> signer_recovery_contribution_into value false).

Definition begin_recovery_certificate_v3 (value : BeginRecoveryCertificateV3) :
    Result WireError (list byte) :=
  _ ← unique_ids (src3_signer_id <$> (brc3_signer_contributions value));
  if (existsb (λ item,
       (src3_request item !=? brc3_request value)) (brc3_signer_contributions value))%mr then Err InvalidValue else
  transcript (
    domain "gp/begin-recovery-certificate/v3"
    >> wnested (recovery_request_v3 (brc3_request value))
    >> wbytes (brc3_request_digest value)
    >> bounded_count (len (brc3_signer_contributions value)) MAX_ROTATION_ACTORS
    >> weach (λ contribution, signer_recovery_contribution_into contribution true) (brc3_signer_contributions value)).

Definition signer_recovery_release_vote_into (value : SignerRecoveryReleaseVoteV3) (include_signature : bool) : Writer :=
  wnested (recovery_request_v3 (srrv3_request value))
  >> wbytes (srrv3_request_digest value)
  >> wu16 (srrv3_signer_id value)
  >> wbytes (srrv3_signer_public_key value)
  >> wbytes (srrv3_signer_membership_proof value)
  >> wwhen include_signature (wbytes (srrv3_signer_signature value)).

Definition signer_recovery_release_vote_v3 (value : SignerRecoveryReleaseVoteV3) :
    Result WireError (list byte) :=
  transcript (
    domain "gp/signer-recovery-release-vote/v3"
    >> signer_recovery_release_vote_into value false).

Definition recovery_release_certificate_v3 (value : RecoveryReleaseCertificateV3) :
    Result WireError (list byte) :=
  _ ← unique_ids (srrv3_signer_id <$> (rrc3_votes value));
  if (existsb (λ vote,
       (srrv3_request vote !=? rrc3_request value)
       || (srrv3_request_digest vote !=? rrc3_request_digest value)) (rrc3_votes value))%mr then Err InvalidValue else
  transcript (
    domain "gp/recovery-release-certificate/v3"
    >> wnested (recovery_request_v3 (rrc3_request value))
    >> wbytes (rrc3_request_digest value)
    >> bounded_count (len (rrc3_votes value)) MAX_ROTATION_ACTORS
    >> weach (λ vote, signer_recovery_release_vote_into vote true) (rrc3_votes value)).

Definition owner_recovery_cancel_certificate_v3 (value : OwnerRecoveryCancelCertificateV3) :
    Result WireError (list byte) :=
  transcript (
    domain "gp/owner-recovery-cancel/v3"
    >> wnested (recovery_request_v3 (orcc3_request value))
    >> wbytes (orcc3_request_digest value)
    >> wu16 (orcc3_reason_code value)
    >> wbytes (orcc3_cancel_response_recipient_key value)
    >> wbytes (orcc3_owner_cancel_public_key value)).

Definition owner_recovery_cancel_ack_v3 (value : OwnerRecoveryCancelAckV3) :
    Result WireError (list byte) :=
  transcript (
    domain "gp/owner-recovery-cancel-ack/v3"
    >> config_ref_into (orca3_config_ref value)
    >> wbytes (orca3_request_id value)
    >> wbytes (orca3_request_digest value)
    >> wbytes (orca3_cancel_certificate_hash value)
    >> wu16 (orca3_guardian_index value)).

Definition guardian_recovery_contribution_v3 (value : GuardianRecoveryContributionV3) :
    Result WireError (list byte) :=
  if ((uval (grc3_guardian_index value) =? 0)%N
       || (uval (grc3_fragment_index value) =? 0)%N)%mr then Err InvalidValue else
  transcript (
    domain "gp/guardian-recovery-contribution/v3"
    >> config_ref_into (grc3_config_ref value)
    >> wbytes (grc3_request_id value)
    >> wbytes (grc3_request_digest value)
    >> wbytes (grc3_recovery_recipient_key value)
    >> wbytes (grc3_nonce value)
    >> wu16 (grc3_guardian_index value)
    >> wu16 (grc3_fragment_index value)
    >> wbytes (aead_nonce (grc3_encrypted_ciphertext_fragment value))
    >> wbytes (aead_ciphertext (grc3_encrypted_ciphertext_fragment value))
    >> wbytes (aead_nonce (grc3_encrypted_dek_share value))
    >> wbytes (aead_ciphertext (grc3_encrypted_dek_share value))
    >> wbytes (grc3_merkle_path_proof value)).

Definition guardian_share_context_v3 (config_ref : ConfigRef) (guardian_index : u16) :
    Result WireError (list byte) :=
  transcript (
    domain "gp/guardian-dek-share-context/v3"
    >> config_ref_into config_ref
    >> wu16 guardian_index).

Definition guardian_fragment_context_v3 (config_ref : ConfigRef)
    (guardian_index : u16)
    (fragment_index : u16) :
    Result WireError (list byte) :=
  transcript (
    domain "gp/guardian-ciphertext-fragment-context/v3"
    >> config_ref_into config_ref
    >> wu16 guardian_index
    >> wu16 fragment_index).

Definition descriptor_context_v3 (config_ref : ConfigRef) :
    Result WireError (list byte) :=
  transcript (
    domain "gp/recovery-descriptor-context/v3"
    >> config_ref_into config_ref).

Definition config_capsule_body_v3 (value : ConfigCapsuleV3) :
    Result WireError (list byte) :=
  if ((cap3_protocol_version value !=? PROTOCOL_VERSION_V3)
       || (uval (cap3_signer_threshold value) =? 0)%N
       || (cap3_signer_count value <? cap3_signer_threshold value)
       || (cap3_guardian_threshold value <? 2)
       || (cap3_guardian_count value <? cap3_guardian_threshold value))%mr then Err InvalidValue else
  transcript (
    domain "gp/config-capsule-body/v3"
    >> wu16 (cap3_protocol_version value)
    >> config_ref_into (cap3_config_ref value)
    >> wbytes (cap3_predecessor_capsule_hash value)
    >> wu16 (cap3_signer_count value)
    >> wu16 (cap3_signer_threshold value)
    >> wu16 (cap3_guardian_count value)
    >> wu16 (cap3_guardian_threshold value)
    >> wu64 (cap3_minimum_recovery_delay value)
    >> wu64 (cap3_max_request_lifetime value)
    >> wbytes (cap3_signer_set_commitment value)
    >> wbytes (cap3_owner_cancel_public_key value)
    >> wu16 (dpss_suite_id (cap3_dpss_suite value))
    >> wbytes (cap3_dpss_public_commitment value)
    >> wbytes (cap3_ciphertext_fragment_root value)
    >> wbytes (cap3_guardian_material_root value)
    >> wbytes (aead_nonce (cap3_encrypted_recovery_descriptor value))
    >> wbytes (aead_ciphertext (cap3_encrypted_recovery_descriptor value))).

Definition guardian_policy_body_v3 (value : GuardianPolicyV3) :
    Result WireError (list byte) :=
  if ((uval (gpol3_signer_threshold value) =? 0)%N
       || (gpol3_signer_count value <? gpol3_signer_threshold value)
       || (uval (gpol3_minimum_recovery_delay value) =? 0)%N)%mr then Err InvalidValue else
  transcript (
    domain "gp/guardian-policy-body/v3"
    >> config_ref_into (gpol3_config_ref value)
    >> wbytes (gpol3_signer_set_commitment value)
    >> wu16 (gpol3_signer_count value)
    >> wu16 (gpol3_signer_threshold value)
    >> wbytes (gpol3_owner_cancel_public_key value)
    >> wu64 (gpol3_minimum_recovery_delay value)
    >> wu16 (dpss_suite_id (gpol3_dpss_suite value))
    >> wbytes (gpol3_dpss_public_commitment value)
    >> wbytes (gpol3_predecessor_capsule_hash value)).

Definition payload_context_v3 (config_id : Id32) (payload_generation : u64) :
    Result WireError (list byte) :=
  transcript (
    domain "gp/payload-context/v3"
    >> wbytes config_id
    >> wu64 payload_generation).

Definition custody_challenge (value : CustodyChallenge) :
    Result WireError (list byte) :=
  if ((cch_protocol_version value !=? PROTOCOL_VERSION_V3)
       || (cch_block_indices value ==? []))%mr then Err InvalidValue else
  if has_duplicate (cch_block_indices value) then Err DuplicateActor else
  transcript (
    domain "gp/custody-challenge/v3"
    >> wu16 (cch_protocol_version value)
    >> config_ref_into (cch_config_ref value)
    >> wbytes (cch_opaque_slot_id value)
    >> wbytes (cch_challenge_id value)
    >> bounded_count (len (cch_block_indices value)) (U16 4096)
    >> weach (λ index, wu32 index) (cch_block_indices value)
    >> wbytes (cch_nonce value)
    >> wbytes (cch_response_recipient_key value)
    >> wu64 (cch_expiry value)).

Definition custody_response (value : CustodyResponse) : Result WireError (list byte) :=
  if ((crs_protocol_version value !=? PROTOCOL_VERSION_V3)
       || (crs_proofs value ==? []))%mr then Err InvalidValue else
  if has_duplicate (cbp_block_index <$> crs_proofs value) then Err DuplicateActor else
  transcript (
    domain "gp/custody-response/v3"
    >> wu16 (crs_protocol_version value)
    >> config_ref_into (crs_config_ref value)
    >> wbytes (crs_opaque_slot_id value)
    >> wbytes (crs_challenge_id value)
    >> wbytes (crs_nonce value)
    >> wu16 (crs_guardian_index value)
    >> bounded_count (len (crs_proofs value)) (U16 4096)
    >> weach (λ proof, 
        wu32 (cbp_block_index proof)
        >> wbytes (cbp_block proof)
        >> wbytes (cbp_merkle_path proof)) (crs_proofs value)).
