(* ===== verification/WireCodes.v ===== *)
(** A relational logic for transcript writers.

    [codes w1 w2 P] says that the outputs of [w1] and [w2] are
    self-delimiting: if they agree as prefixes of two equal byte strings then
    they are the same bytes, the rest of the strings agree, and [P] holds
    (typically: the fields written are equal).  The rules below follow the
    combinators of [Wire], so a proof that a transcript determines its fields
    is one pass over the writer. *)

From S2P Require Export WireV3.

(** ** Writers only append *)

Class Appends (w : Writer) : Prop :=
  appends : ∀ t o, w t = Ok o → ∃ e, o = t ++ e ∧ ∀ t', w t' = Ok (t' ++ e).

Lemma Appends_nil w t o `{!Appends w} :
  w t = Ok o → ∃ e, o = t ++ e ∧ w [] = Ok e.
Proof. intros (e & -> & He)%appends. exists e. split; [done | apply (He [])]. Qed.

Section appends.
#[local] Ltac appends_prim :=
  let H := fresh in intros t o H; injection H as <-; eauto.

#[export] Instance Appends_wu16 v : Appends (wu16 v).
Proof. appends_prim. Qed.
#[export] Instance Appends_wu32 v : Appends (wu32 v).
Proof. appends_prim. Qed.
#[export] Instance Appends_wu64 v : Appends (wu64 v).
Proof. appends_prim. Qed.

#[export] Instance Appends_wbytes v : Appends (wbytes v).
Proof.
  intros t o. unfold wbytes. destruct (ok_or _ _) as [l|]; simpl; [| done].
  case_match; [done |]. intros [= <-]. eauto.
Qed.
#[export] Instance Appends_domain s : Appends (domain s).
Proof. apply Appends_wbytes. Qed.

#[export] Instance Appends_wseq w1 w2 :
  Appends w1 → Appends w2 → Appends (w1 >> w2).
Proof.
  intros H1 H2 t o. unfold wseq. rewrite bind_Ok.
  intros (m & (e1 & -> & He1)%H1 & (e2 & -> & He2)%H2).
  exists (e1 ++ e2). split; [by rewrite app_assoc |]. intros t'.
  rewrite He1. simpl. by rewrite He2, app_assoc.
Qed.

Lemma Appends_nothing (t o : Transcript) : @Ok WireError _ t = Ok o →
  ∃ e, o = t ++ e ∧ ∀ t' : Transcript, @Ok WireError _ t' = Ok (t' ++ e).
Proof. intros [= <-]. exists []. split; [| intros]; by rewrite app_nil_r. Qed.

#[export] Instance Appends_wnested r : Appends (wnested r).
Proof. intros t o. unfold wnested. destruct r; [apply Appends_wbytes | done]. Qed.
#[export] Instance Appends_wwhen c w : Appends w → Appends (wwhen c w).
Proof. destruct c; [done | intros _ t o; apply Appends_nothing]. Qed.
#[export] Instance Appends_wfail_if c e : Appends (wfail_if c e).
Proof. destruct c; [done | intros t o; apply Appends_nothing]. Qed.
#[export] Instance Appends_bounded_count n m : Appends (bounded_count n m).
Proof.
  intros t o. unfold bounded_count. destruct (ok_or _ _); simpl; [| done].
  case_match; [done | apply Appends_wu16].
Qed.
#[export] Instance Appends_weach {A} (f : A → Writer) l :
  (∀ x, Appends (f x)) → Appends (weach f l).
Proof.
  intros Hf. induction l as [|x l IH]; [intros t o; apply Appends_nothing |].
  exact (Appends_wseq (f x) (weach f l) _ _).
Qed.
End appends.

(** Instance search matches the combinators by name only. *)
#[export] Typeclasses Opaque wseq wbytes domain wu16 wu32 wu64 wnested wwhen
  wfail_if weach bounded_count.

(** ** The judgement and its rules *)

Definition codes (w1 w2 : Writer) (P : Prop) : Prop :=
  ∀ e1 e2 s1 s2, w1 [] = Ok e1 → w2 [] = Ok e2 →
  e1 ++ s1 = e2 ++ s2 → e1 = e2 ∧ s1 = s2 ∧ P.

Lemma codes_transcript w1 w2 P b :
  codes w1 w2 P → transcript w1 = Ok b → transcript w2 = Ok b → P.
Proof. intros H H1 H2. by eapply (H b b [] []). Qed.

Lemma codes_mono w1 w2 (P Q : Prop) : codes w1 w2 P → (P → Q) → codes w1 w2 Q.
Proof. unfold codes. intros H HPQ * ???. edestruct H as (?&?&?); eauto. Qed.

Lemma codes_seq w1 w2 v1 v2 (P Q : Prop) `{!Appends v1, !Appends v2} :
  codes w1 w2 P → (P → codes v1 v2 Q) → codes (w1 >> v1) (w2 >> v2) (P ∧ Q).
Proof.
  intros Hw Hv e1 e2 s1 s2. unfold wseq. rewrite !bind_Ok.
  intros (m1 & H1 & (f1 & -> & Hf1)%Appends_nil) (m2 & H2 & (f2 & -> & Hf2)%Appends_nil).
  2, 3: done.
  rewrite <- !app_assoc. intros Heq.
  destruct (Hw _ _ _ _ H1 H2 Heq) as (-> & Heq' & HP).
  destruct (Hv HP _ _ _ _ Hf1 Hf2 Heq') as (-> & -> & HQ). done.
Qed.

Lemma codes_same_length w1 w2 P :
  (∀ e1 e2, w1 [] = Ok e1 → w2 [] = Ok e2 →
     length e1 = length e2 ∧ (e1 = e2 → P)) → codes w1 w2 P.
Proof.
  intros H e1 e2 s1 s2 H1 H2 Heq. destruct (H _ _ H1 H2) as [Hl HP].
  apply app_inj_1 in Heq as [-> ->]; [| done]. auto.
Qed.

Lemma codes_be {w} (v1 v2 : uint w) (e1 e2 : list byte) :
  (w mod 8 = 0)%N → Ok (E:=WireError) (be v1) = Ok e1 → Ok (E:=WireError) (be v2) = Ok e2 →
  length e1 = length e2 ∧ (e1 = e2 → v1 = v2).
Proof.
  intros Hw H1 H2. assert (be v1 = e1) as <- by congruence.
  assert (be v2 = e2) as <- by congruence.
  rewrite !length_be. split; [done | by apply be_inj].
Qed.

Lemma codes_wu16 v1 v2 : codes (wu16 v1) (wu16 v2) (v1 = v2).
Proof. apply codes_same_length. intros e1 e2. by apply codes_be. Qed.
Lemma codes_wu32 v1 v2 : codes (wu32 v1) (wu32 v2) (v1 = v2).
Proof. apply codes_same_length. intros e1 e2. by apply codes_be. Qed.
Lemma codes_wu64 v1 v2 : codes (wu64 v1) (wu64 v2) (v1 = v2).
Proof. apply codes_same_length. intros e1 e2. by apply codes_be. Qed.

Lemma wbytes_Ok v e :
  wbytes v [] = Ok e ↔ (len v ≤ MAX_FIELD_LEN)%N ∧ e = be (U32 (len v)) ++ v.
Proof.
  unfold wbytes, try_u32. rewrite bind_Ok. setoid_rewrite ok_or_Ok.
  assert (Hmax : (MAX_FIELD_LEN < 2 ^ 32)%N) by done.
  destruct (N.ltb_spec (len v) (2 ^ 32)) as [Hlt | Hge];
    destruct (N.ltb_spec MAX_FIELD_LEN (len v)) as [Hm | Hm].
  - split; [by intros (? & _ & ?) | lia].
  - split.
    + intros (l & [= <-] & [= <-]). done.
    + intros [_ ->]. eauto.
  - split; [by intros (? & ? & _) | lia].
  - lia.
Qed.

Lemma codes_wbytes v1 v2 : codes (wbytes v1) (wbytes v2) (v1 = v2).
Proof.
  intros e1 e2 s1 s2 [Hl1 ->]%wbytes_Ok [Hl2 ->]%wbytes_Ok.
  rewrite <- !app_assoc. intros [Hb Ha]%app_inj_1; [| by rewrite !length_be].
  apply be_inj, (f_equal uval) in Hb; [| done]. unfold MAX_FIELD_LEN in *.
  unfold U32 in Hb. rewrite !uval_to_uint in Hb by lia. unfold len in Hb.
  apply app_inj_1 in Ha as [-> ->]; [done | lia].
Qed.

Lemma codes_domain s1 s2 : codes (domain s1) (domain s2) (s1 = s2).
Proof. eapply codes_mono; [apply codes_wbytes | apply as_bytes_inj]. Qed.

Lemma codes_wnested r1 r2 (P : Prop) :
  (∀ b, r1 = Ok b → r2 = Ok b → P) → codes (wnested r1) (wnested r2) P.
Proof.
  intros HP e1 e2 s1 s2. unfold wnested.
  destruct r1 as [b1|], r2 as [b2|]; simpl; try done. intros H1 H2 Heq.
  destruct (codes_wbytes _ _ _ _ _ _ H1 H2 Heq) as (? & ? & ->). eauto.
Qed.

Lemma codes_wfail_if c1 c2 e :
  codes (wfail_if c1 e) (wfail_if c2 e) (c1 = false ∧ c2 = false).
Proof. destruct c1, c2; intros ????; try done. intros [= <-] [= <-]. done. Qed.

Lemma codes_wwhen c w1 w2 (P : Prop) :
  codes w1 w2 P → codes (wwhen c w1) (wwhen c w2) (c = true → P).
Proof.
  destruct c; simpl.
  - intros H. eapply codes_mono; [exact H | done].
  - intros _ ???? [= <-] [= <-]. done.
Qed.

Lemma bounded_count_Ok n m t e :
  bounded_count n m t = Ok e ↔ (n ≤ m)%N ∧ e = t ++ be (U16 n).
Proof.
  unfold bounded_count, try_u16. rewrite bind_Ok. setoid_rewrite ok_or_Ok.
  pose proof (uint_lt m) as Hm.
  destruct (N.ltb_spec n (2 ^ 16)) as [Hlt | Hge]; [| split; [by intros (? & ? & _) | lia]].
  split.
  - intros (l & [= <-] & H). unfold U16 in H at 1. rewrite uval_to_uint in H by done.
    destruct (N.ltb_spec m n) as [? | ?]; [done | by injection H as <-].
  - intros [Hle ->]. exists (U16 n). split; [done |].
    unfold U16 at 1. rewrite uval_to_uint by done.
    by rewrite (proj2 (N.ltb_ge _ _)).
Qed.

Lemma codes_bounded_count n1 n2 m :
  codes (bounded_count n1 m) (bounded_count n2 m) (n1 = n2).
Proof.
  intros e1 e2 s1 s2 [H1 ->]%bounded_count_Ok [H2 ->]%bounded_count_Ok Heq.
  destruct (codes_wu16 (U16 n1) (U16 n2) _ _ _ _ eq_refl eq_refl Heq)
    as (? & ? & Hn).
  split_and!; [done.. |]. pose proof (uint_lt m).
  apply (f_equal uval) in Hn. unfold U16 in Hn.
  by rewrite !uval_to_uint in Hn by lia.
Qed.

Lemma codes_weach {A} (f : A → Writer) l1 l2 `{!∀ x, Appends (f x)} :
  len l1 = len l2 → (∀ x y, codes (f x) (f y) (x = y)) →
  codes (weach f l1) (weach f l2) (l1 = l2).
Proof.
  intros Hlen Hf. unfold len in Hlen.
  assert (Hl : length l1 = length l2) by lia. clear Hlen. revert l2 Hl.
  induction l1 as [|x l1 IH]; intros [|y l2] Hl; try done.
  - intros ???? [= <-] [= <-]. done.
  - change (codes (f x >> weach f l1) (f y >> weach f l2) (x :: l1 = y :: l2)).
    eapply codes_mono; [eapply codes_seq; [apply _.. | apply Hf |] |].
    + intros _. apply IH. by injection Hl.
    + by intros [-> ->].
Qed.
