(* ===== verification/WireBinding.v ===== *)
(** What each transcript binds.

    For every transcript function of gp-wire: two values with the same
    transcript agree on every field the transcript is meant to cover
    ([..._binds]).  A field named in an [..._unsigned] erasure is the only
    thing a transcript leaves out: the signature over it, or for the capsule
    body and the guardian policy the fields the source excludes to avoid
    self-reference.  [Doc] gathers the 66 transcript kinds; [transcripts_bind]
    of [WireProps] shows that bytes determine both the kind and its covered
    content, so no signature or digest made for one message can be read as
    another. *)

From S2P Require Export WireCodes.

(** ** Erasing what a transcript leaves out *)

Definition occ_unsigned (v : OwnerCancelCertificate) : OwnerCancelCertificate := {|
  occ_protocol_version := occ_protocol_version v;
  occ_config_id := occ_config_id v;
  occ_config_version := occ_config_version v;
  occ_request_id := occ_request_id v;
  occ_request_digest := occ_request_digest v;
  occ_recovery_recipient_key := occ_recovery_recipient_key v;
  occ_cancel_response_recipient_key := occ_cancel_response_recipient_key v;
  occ_reason_code := occ_reason_code v;
  occ_nonce := occ_nonce v;
  occ_issued_at := occ_issued_at v;
  occ_owner_cancel_public_key := occ_owner_cancel_public_key v;
  occ_owner_signature := []
|}.

Definition oca_unsigned (v : OwnerCancelAck) : OwnerCancelAck := {|
  oca_protocol_version := oca_protocol_version v;
  oca_config_id := oca_config_id v;
  oca_config_version := oca_config_version v;
  oca_request_id := oca_request_id v;
  oca_request_digest := oca_request_digest v;
  oca_owner_cancel_transcript_digest := oca_owner_cancel_transcript_digest v;
  oca_guardian_index := oca_guardian_index v;
  oca_guardian_signature := []
|}.

Definition rv_unsigned (v : ReleaseVote) : ReleaseVote := {|
  rv_protocol_version := rv_protocol_version v;
  rv_config_id := rv_config_id v;
  rv_config_version := rv_config_version v;
  rv_request_id := rv_request_id v;
  rv_request_digest := rv_request_digest v;
  rv_recovery_recipient_key := rv_recovery_recipient_key v;
  rv_nonce := rv_nonce v;
  rv_signer_id := rv_signer_id v;
  rv_signer_public_key := rv_signer_public_key v;
  rv_signer_membership_proof := rv_signer_membership_proof v;
  rv_signer_signature := []
|}.

Definition gc_unsigned (v : GuardianContribution) : GuardianContribution := {|
  gc_protocol_version := gc_protocol_version v;
  gc_config_id := gc_config_id v;
  gc_config_version := gc_config_version v;
  gc_request_id := gc_request_id v;
  gc_request_digest := gc_request_digest v;
  gc_guardian_index := gc_guardian_index v;
  gc_ciphertext_fragment := gc_ciphertext_fragment v;
  gc_encrypted_dek_share := gc_encrypted_dek_share v;
  gc_merkle_path_proof := gc_merkle_path_proof v;
  gc_guardian_signature := []
|}.

Definition srbv_unsigned (v : SignerRotationBeginVote) : SignerRotationBeginVote := {|
  srbv_context := srbv_context v;
  srbv_intent_hash := srbv_intent_hash v;
  srbv_plan_hash := srbv_plan_hash v;
  srbv_old_roster_commitment := srbv_old_roster_commitment v;
  srbv_new_roster_commitment := srbv_new_roster_commitment v;
  srbv_signer_id := srbv_signer_id v;
  srbv_signer_public_key := srbv_signer_public_key v;
  srbv_signer_membership_proof := srbv_signer_membership_proof v;
  srbv_signer_signature := []
|}.

Definition srrv_unsigned (v : SignerRotationReleaseVote) : SignerRotationReleaseVote := {|
  srrv_context := srrv_context v;
  srrv_plan_hash := srrv_plan_hash v;
  srrv_begin_certificate_hash := srrv_begin_certificate_hash v;
  srrv_signer_id := srrv_signer_id v;
  srrv_signer_public_key := srrv_signer_public_key v;
  srrv_signer_membership_proof := srrv_signer_membership_proof v;
  srrv_signer_signature := []
|}.

Definition ngpa_unsigned (v : NewGuardianPreparedAck) : NewGuardianPreparedAck := {|
  ngpa_context := ngpa_context v;
  ngpa_plan_hash := ngpa_plan_hash v;
  ngpa_dpss_result_commitment := ngpa_dpss_result_commitment v;
  ngpa_guardian_material_root := ngpa_guardian_material_root v;
  ngpa_new_guardian_index := ngpa_new_guardian_index v;
  ngpa_prepared_record_leaf := ngpa_prepared_record_leaf v;
  ngpa_durable_write_generation := ngpa_durable_write_generation v;
  ngpa_guardian_signature := []
|}.

Definition ogha_unsigned (v : OldGuardianHandoffAck) : OldGuardianHandoffAck := {|
  ogha_context := ogha_context v;
  ogha_plan_hash := ogha_plan_hash v;
  ogha_dpss_result_commitment := ogha_dpss_result_commitment v;
  ogha_qualified_set_commitment := ogha_qualified_set_commitment v;
  ogha_old_guardian_index := ogha_old_guardian_index v;
  ogha_guardian_signature := []
|}.

Definition srav_unsigned (v : SignerRotationActivateVote) : SignerRotationActivateVote := {|
  srav_context := srav_context v;
  srav_plan_hash := srav_plan_hash v;
  srav_ready_certificate_hash := srav_ready_certificate_hash v;
  srav_successor_capsule_hash := srav_successor_capsule_hash v;
  srav_signer_id := srav_signer_id v;
  srav_signer_public_key := srav_signer_public_key v;
  srav_signer_membership_proof := srav_signer_membership_proof v;
  srav_signer_signature := []
|}.

Definition waa_unsigned (v : WitnessActivationAck) : WitnessActivationAck := {|
  waa_context := waa_context v;
  waa_plan_hash := waa_plan_hash v;
  waa_activation_certificate_hash := waa_activation_certificate_hash v;
  waa_witness_id := waa_witness_id v;
  waa_predecessor_epoch := waa_predecessor_epoch v;
  waa_predecessor_capsule_hash := waa_predecessor_capsule_hash v;
  waa_successor_epoch := waa_successor_epoch v;
  waa_successor_capsule_hash := waa_successor_capsule_hash v;
  waa_witness_public_key := waa_witness_public_key v;
  waa_witness_signature := []
|}.

Definition sric_unsigned (v : SignerRotationIntentContribution) : SignerRotationIntentContribution := {|
  sric_context := sric_context v;
  sric_intent_hash := sric_intent_hash v;
  sric_signer_id := sric_signer_id v;
  sric_signer_public_key := sric_signer_public_key v;
  sric_signer_membership_proof := sric_signer_membership_proof v;
  sric_encrypted_authorization_share := sric_encrypted_authorization_share v;
  sric_signer_signature := []
|}.

Definition orcc_unsigned (v : OwnerRotationCancelCertificate) : OwnerRotationCancelCertificate := {|
  orcc_context := orcc_context v;
  orcc_plan_hash := orcc_plan_hash v;
  orcc_reason_code := orcc_reason_code v;
  orcc_cancel_response_recipient_key := orcc_cancel_response_recipient_key v;
  orcc_owner_cancel_public_key := orcc_owner_cancel_public_key v;
  orcc_owner_signature := []
|}.

Definition orca_unsigned (v : OwnerRotationCancelAck) : OwnerRotationCancelAck := {|
  orca_context := orca_context v;
  orca_plan_hash := orca_plan_hash v;
  orca_cancel_certificate_hash := orca_cancel_certificate_hash v;
  orca_guardian_index := orca_guardian_index v;
  orca_guardian_signature := []
|}.

Definition dpm_unsigned (v : DpssProtocolMessage) : DpssProtocolMessage := {|
  dpm_context := dpm_context v;
  dpm_plan_hash := dpm_plan_hash v;
  dpm_dpss_suite := dpm_dpss_suite v;
  dpm_dpss_session_id := dpm_dpss_session_id v;
  dpm_qualified_set_commitment := dpm_qualified_set_commitment v;
  dpm_phase := dpm_phase v;
  dpm_sender_index := dpm_sender_index v;
  dpm_recipient_index := dpm_recipient_index v;
  dpm_sequence := dpm_sequence v;
  dpm_provider_payload := dpm_provider_payload v;
  dpm_sender_signature := []
|}.

Definition cfc_unsigned (v : CiphertextFragmentContribution) : CiphertextFragmentContribution := {|
  cfc_context := cfc_context v;
  cfc_plan_hash := cfc_plan_hash v;
  cfc_release_certificate_hash := cfc_release_certificate_hash v;
  cfc_old_guardian_index := cfc_old_guardian_index v;
  cfc_fragment_index := cfc_fragment_index v;
  cfc_ciphertext_fragment := cfc_ciphertext_fragment v;
  cfc_fragment_commitment := cfc_fragment_commitment v;
  cfc_prepared_record_leaf := cfc_prepared_record_leaf v;
  cfc_merkle_path_proof := cfc_merkle_path_proof v;
  cfc_guardian_signature := []
|}.

Definition wrca_unsigned (v : WitnessRotationCancelAck) : WitnessRotationCancelAck := {|
  wrca_protocol_version := wrca_protocol_version v;
  wrca_config_id := wrca_config_id v;
  wrca_rotation_id := wrca_rotation_id v;
  wrca_plan_hash := wrca_plan_hash v;
  wrca_cancel_certificate_hash := wrca_cancel_certificate_hash v;
  wrca_witness_id := wrca_witness_id v;
  wrca_witness_public_key := wrca_witness_public_key v;
  wrca_witness_signature := []
|}.

Definition werr_unsigned (v : WitnessEpochReadResponse) : WitnessEpochReadResponse := {|
  werr_protocol_version := werr_protocol_version v;
  werr_config_id := werr_config_id v;
  werr_client_nonce := werr_client_nonce v;
  werr_witness_id := werr_witness_id v;
  werr_highest_guardian_epoch := werr_highest_guardian_epoch v;
  werr_capsule_hash := werr_capsule_hash v;
  werr_witness_public_key := werr_witness_public_key v;
  werr_witness_signature := []
|}.

Definition rack_unsigned (v : RetirementAck) : RetirementAck := {|
  rack_context := rack_context v;
  rack_plan_hash := rack_plan_hash v;
  rack_activation_qc_hash := rack_activation_qc_hash v;
  rack_guardian_index := rack_guardian_index v;
  rack_retired_epoch := rack_retired_epoch v;
  rack_tombstone_hash := rack_tombstone_hash v;
  rack_guardian_signature := []
|}.

Definition srabv_unsigned (v : SignerRotationAbortVote) : SignerRotationAbortVote := {|
  srabv_context := srabv_context v;
  srabv_plan_hash := srabv_plan_hash v;
  srabv_state_at_abort := srabv_state_at_abort v;
  srabv_reason_code := srabv_reason_code v;
  srabv_signer_id := srabv_signer_id v;
  srabv_signer_public_key := srabv_signer_public_key v;
  srabv_signer_membership_proof := srabv_signer_membership_proof v;
  srabv_signer_signature := []
|}.

Definition src3_unsigned (v : SignerRecoveryContributionV3) : SignerRecoveryContributionV3 := {|
  src3_request := src3_request v;
  src3_signer_id := src3_signer_id v;
  src3_signer_public_key := src3_signer_public_key v;
  src3_signer_membership_proof := src3_signer_membership_proof v;
  src3_encrypted_authorization_share := src3_encrypted_authorization_share v;
  src3_signer_signature := []
|}.

Definition srrv3_unsigned (v : SignerRecoveryReleaseVoteV3) : SignerRecoveryReleaseVoteV3 := {|
  srrv3_request := srrv3_request v;
  srrv3_request_digest := srrv3_request_digest v;
  srrv3_signer_id := srrv3_signer_id v;
  srrv3_signer_public_key := srrv3_signer_public_key v;
  srrv3_signer_membership_proof := srrv3_signer_membership_proof v;
  srrv3_signer_signature := []
|}.

Definition orcc3_unsigned (v : OwnerRecoveryCancelCertificateV3) : OwnerRecoveryCancelCertificateV3 := {|
  orcc3_request := orcc3_request v;
  orcc3_request_digest := orcc3_request_digest v;
  orcc3_reason_code := orcc3_reason_code v;
  orcc3_cancel_response_recipient_key := orcc3_cancel_response_recipient_key v;
  orcc3_owner_cancel_public_key := orcc3_owner_cancel_public_key v;
  orcc3_owner_signature := []
|}.

Definition orca3_unsigned (v : OwnerRecoveryCancelAckV3) : OwnerRecoveryCancelAckV3 := {|
  orca3_config_ref := orca3_config_ref v;
  orca3_request_id := orca3_request_id v;
  orca3_request_digest := orca3_request_digest v;
  orca3_cancel_certificate_hash := orca3_cancel_certificate_hash v;
  orca3_guardian_index := orca3_guardian_index v;
  orca3_guardian_signature := []
|}.

Definition grc3_unsigned (v : GuardianRecoveryContributionV3) : GuardianRecoveryContributionV3 := {|
  grc3_config_ref := grc3_config_ref v;
  grc3_request_id := grc3_request_id v;
  grc3_request_digest := grc3_request_digest v;
  grc3_recovery_recipient_key := grc3_recovery_recipient_key v;
  grc3_nonce := grc3_nonce v;
  grc3_guardian_index := grc3_guardian_index v;
  grc3_fragment_index := grc3_fragment_index v;
  grc3_encrypted_ciphertext_fragment := grc3_encrypted_ciphertext_fragment v;
  grc3_encrypted_dek_share := grc3_encrypted_dek_share v;
  grc3_merkle_path_proof := grc3_merkle_path_proof v;
  grc3_guardian_signature := []
|}.

Definition crs_unsigned (v : CustodyResponse) : CustodyResponse := {|
  crs_protocol_version := crs_protocol_version v;
  crs_config_ref := crs_config_ref v;
  crs_opaque_slot_id := crs_opaque_slot_id v;
  crs_challenge_id := crs_challenge_id v;
  crs_nonce := crs_nonce v;
  crs_guardian_index := crs_guardian_index v;
  crs_proofs := crs_proofs v;
  crs_guardian_signature := []
|}.

Definition cap3_unsigned (v : ConfigCapsuleV3) : ConfigCapsuleV3 := {|
  cap3_protocol_version := cap3_protocol_version v;
  cap3_config_ref := cap3_config_ref v;
  cap3_capsule_hash := (brep 32 x00);
  cap3_predecessor_capsule_hash := cap3_predecessor_capsule_hash v;
  cap3_signer_count := cap3_signer_count v;
  cap3_signer_threshold := cap3_signer_threshold v;
  cap3_guardian_count := cap3_guardian_count v;
  cap3_guardian_threshold := cap3_guardian_threshold v;
  cap3_minimum_recovery_delay := cap3_minimum_recovery_delay v;
  cap3_max_request_lifetime := cap3_max_request_lifetime v;
  cap3_signer_set_commitment := cap3_signer_set_commitment v;
  cap3_owner_cancel_public_key := cap3_owner_cancel_public_key v;
  cap3_dpss_suite := cap3_dpss_suite v;
  cap3_dpss_public_commitment := cap3_dpss_public_commitment v;
  cap3_ciphertext_fragment_root := cap3_ciphertext_fragment_root v;
  cap3_guardian_material_root := cap3_guardian_material_root v;
  cap3_encrypted_recovery_descriptor := cap3_encrypted_recovery_descriptor v;
  cap3_activation_certificate := None;
  cap3_activation_qc := None
|}.

Definition gpol3_unsigned (v : GuardianPolicyV3) : GuardianPolicyV3 := {|
  gpol3_config_ref := gpol3_config_ref v;
  gpol3_epoch_state := EpochPrepared;
  gpol3_signer_set_commitment := gpol3_signer_set_commitment v;
  gpol3_signer_count := gpol3_signer_count v;
  gpol3_signer_threshold := gpol3_signer_threshold v;
  gpol3_owner_cancel_public_key := gpol3_owner_cancel_public_key v;
  gpol3_minimum_recovery_delay := gpol3_minimum_recovery_delay v;
  gpol3_guardian_material_root := (brep 32 x00);
  gpol3_dpss_suite := gpol3_dpss_suite v;
  gpol3_dpss_public_commitment := gpol3_dpss_public_commitment v;
  gpol3_predecessor_capsule_hash := gpol3_predecessor_capsule_hash v;
  gpol3_activation_qc_hash := None;
  gpol3_drain_deadline := None
|}.

Definition osug_unsigned (v : OldShareUnlockGrant) : OldShareUnlockGrant := {|
  osug_context := osug_context v;
  osug_plan_hash := osug_plan_hash v;
  osug_release_certificate_hash := osug_release_certificate_hash v;
  osug_old_guardian_index := osug_old_guardian_index v;
  osug_encrypted_unwrap_key := (mkSealedMessage [] (mkAeadCiphertext (brep 24 x00) []));
  osug_encrypted_fragment_key := (mkSealedMessage [] (mkAeadCiphertext (brep 24 x00) []))
|}.

Definition nswg_unsigned (v : NewShareWrapGrant) : NewShareWrapGrant := {|
  nswg_context := nswg_context v;
  nswg_plan_hash := nswg_plan_hash v;
  nswg_release_certificate_hash := nswg_release_certificate_hash v;
  nswg_new_guardian_index := nswg_new_guardian_index v;
  nswg_encrypted_wrap_key := (mkSealedMessage [] (mkAeadCiphertext (brep 24 x00) []));
  nswg_encrypted_fragment_key := (mkSealedMessage [] (mkAeadCiphertext (brep 24 x00) []))
|}.

(** ** Numeric identifiers *)

Ltac enum_inj := intros [] [] H; try reflexivity; apply (f_equal uval) in H; discriminate H.

#[export] Instance as_bytes_Inj : Inj (=) (=) as_bytes.
Proof. intros s t. apply as_bytes_inj. Qed.
#[export] Instance suite_id_Inj : Inj (=) (=) suite_id.
Proof. enum_inj. Qed.
#[export] Instance dpss_suite_id_Inj : Inj (=) (=) dpss_suite_id.
Proof. enum_inj. Qed.
#[export] Instance dpss_phase_id_Inj : Inj (=) (=) dpss_phase_id.
Proof. enum_inj. Qed.
#[export] Instance reason_id_Inj : Inj (=) (=) reason_id.
Proof. enum_inj. Qed.
#[export] Instance state_id_Inj : Inj (=) (=) state_id.
Proof. enum_inj. Qed.

Lemma bool_u16_inj b1 b2 : U16 (N.b2n b1) = U16 (N.b2n b2) → b1 = b2.
Proof. revert b1 b2. enum_inj. Qed.

(** ** Automation *)

Create HintDb codes.

(** Concludes an equality of records, or of their erasures, from the
    equalities of fields a writer gives. *)
Ltac record_fields :=
  repeat match goal with
  | H : U16 (N.b2n _) = U16 (N.b2n _) |- _ => apply bool_u16_inj in H
  | H : true = true → _ |- _ => specialize (H eq_refl)
  | x : SealedMessage |- _ => destruct x
  | x : AeadCiphertext |- _ => destruct x
  end; simpl in *; simplify_eq; auto.

Ltac record_eq :=
  intros; destruct_and?; repeat match goal with |- _ ∧ _ => split end;
  lazymatch goal with
  | |- ?f ?x = ?f ?y => first [done | unfold f; destruct x, y; record_fields]
  | |- ?x = ?y =>
      first [done | by record_fields | destruct x, y; record_fields]
  end.

(** One pass over two runs of the same writer. *)
Ltac codes_step :=
  lazymatch goal with
  | |- codes (wseq _ _) (wseq _ _) _ =>
      eapply codes_seq; [apply _ | apply _ | codes_step | intros ?; codes_step]
  | |- codes (domain _) _ _ => apply codes_domain
  | |- codes (wbytes _) _ _ => apply codes_wbytes
  | |- codes (wu16 _) _ _ => apply codes_wu16
  | |- codes (wu32 _) _ _ => apply codes_wu32
  | |- codes (wu64 _) _ _ => apply codes_wu64
  | |- codes (wfail_if _ _) _ _ => apply codes_wfail_if
  | |- codes (wwhen _ _) _ _ => apply codes_wwhen; codes_step
  | |- codes (bounded_count _ _) _ _ => apply codes_bounded_count
  | |- codes (weach _ _) _ _ =>
      eapply codes_weach; [apply _ | eassumption |
        let x := fresh in let y := fresh in intros x y; cbv beta;
        first [ solve [eauto with codes nocore]
              | eapply codes_mono; [codes_step | record_eq] ] ]
  | |- _ => eauto with codes nocore
  end.

Ltac codes_record := eapply codes_mono; [codes_step | record_eq].
Ltac codes_signed := eapply codes_mono; [codes_step | intros; split; [| intros ->]; record_eq].
Ltac naive := by intros [? ?]; auto.

(** Drops the checks that precede a transcript. *)
Ltac strip_guards H :=
  repeat lazymatch type of H with
  | (if ?c then Err _ else _) = Ok _ => destruct c; [discriminate H |]
  | (_ ≫= _) = Ok _ => apply bind_Ok in H as (? & ? & H)
  end.

Ltac transcript_binds :=
  let H1 := fresh in let H2 := fresh in
  intros H1 H2; strip_guards H1; strip_guards H2;
  eapply codes_transcript; [| exact H1 | exact H2]; codes_record.

(** ** Shared parts *)

#[export] Instance Appends_config_ref_into value : Appends (config_ref_into value).
Proof. unfold config_ref_into. apply _. Qed.
#[export] Instance Appends_context_into value : Appends (context_into value).
Proof. unfold context_into. apply _. Qed.
#[export] Instance Appends_route_into route : Appends (route_into route).
Proof. unfold route_into. apply _. Qed.
#[export] Instance Appends_sealed_into sealed : Appends (sealed_into sealed).
Proof. unfold sealed_into. apply _. Qed.
#[export] Instance Appends_begin_vote_into vote include_signature : Appends (begin_vote_into vote include_signature).
Proof. unfold begin_vote_into. apply _. Qed.
#[export] Instance Appends_release_vote_into vote include_signature : Appends (release_vote_into vote include_signature).
Proof. unfold release_vote_into. apply _. Qed.
#[export] Instance Appends_prepared_leaf_into leaf : Appends (prepared_leaf_into leaf).
Proof. unfold prepared_leaf_into. apply _. Qed.
#[export] Instance Appends_prepared_ack_into ack include_signature : Appends (prepared_ack_into ack include_signature).
Proof. unfold prepared_ack_into. apply _. Qed.
#[export] Instance Appends_handoff_ack_into ack include_signature : Appends (handoff_ack_into ack include_signature).
Proof. unfold handoff_ack_into. apply _. Qed.
#[export] Instance Appends_activate_vote_into vote include_signature : Appends (activate_vote_into vote include_signature).
Proof. unfold activate_vote_into. apply _. Qed.
#[export] Instance Appends_witness_ack_into ack include_signature : Appends (witness_ack_into ack include_signature).
Proof. unfold witness_ack_into. apply _. Qed.
#[export] Instance Appends_signer_rotation_abort_vote_into value include_signature : Appends (signer_rotation_abort_vote_into value include_signature).
Proof. unfold signer_rotation_abort_vote_into. apply _. Qed.
#[export] Instance Appends_signer_recovery_contribution_into value include_signature : Appends (signer_recovery_contribution_into value include_signature).
Proof. unfold signer_recovery_contribution_into. apply _. Qed.
#[export] Instance Appends_signer_recovery_release_vote_into value include_signature : Appends (signer_recovery_release_vote_into value include_signature).
Proof. unfold signer_recovery_release_vote_into. apply _. Qed.

Lemma codes_config_ref_into x y : codes (config_ref_into x) (config_ref_into y) (x = y).
Proof. unfold config_ref_into. codes_record. Qed.
#[export] Hint Resolve codes_config_ref_into : codes.

Lemma codes_context_into x y : codes (context_into x) (context_into y) (x = y).
Proof. unfold context_into. codes_record. Qed.
#[export] Hint Resolve codes_context_into : codes.

Lemma codes_route_into x y : codes (route_into x) (route_into y) (x = y).
Proof. unfold route_into. codes_record. Qed.
#[export] Hint Resolve codes_route_into : codes.

Lemma codes_sealed_into x y : codes (sealed_into x) (sealed_into y) (x = y).
Proof. unfold sealed_into. codes_record. Qed.
#[export] Hint Resolve codes_sealed_into : codes.

Lemma codes_begin_vote_into b x y :
  codes (begin_vote_into x b) (begin_vote_into y b)
    (srbv_unsigned x = srbv_unsigned y ∧ (b = true → x = y)).
Proof. unfold begin_vote_into. codes_signed. Qed.
Lemma codes_begin_vote_into_signed x y : codes (begin_vote_into x true) (begin_vote_into y true) (x = y).
Proof. eapply codes_mono; [apply codes_begin_vote_into | naive]. Qed.
Lemma codes_begin_vote_into_unsigned x y :
  codes (begin_vote_into x false) (begin_vote_into y false) (srbv_unsigned x = srbv_unsigned y).
Proof. eapply codes_mono; [apply codes_begin_vote_into | naive]. Qed.
#[export] Hint Resolve codes_begin_vote_into_signed codes_begin_vote_into_unsigned : codes.

Lemma codes_release_vote_into b x y :
  codes (release_vote_into x b) (release_vote_into y b)
    (srrv_unsigned x = srrv_unsigned y ∧ (b = true → x = y)).
Proof. unfold release_vote_into. codes_signed. Qed.
Lemma codes_release_vote_into_signed x y : codes (release_vote_into x true) (release_vote_into y true) (x = y).
Proof. eapply codes_mono; [apply codes_release_vote_into | naive]. Qed.
Lemma codes_release_vote_into_unsigned x y :
  codes (release_vote_into x false) (release_vote_into y false) (srrv_unsigned x = srrv_unsigned y).
Proof. eapply codes_mono; [apply codes_release_vote_into | naive]. Qed.
#[export] Hint Resolve codes_release_vote_into_signed codes_release_vote_into_unsigned : codes.

Lemma codes_prepared_leaf_into x y : codes (prepared_leaf_into x) (prepared_leaf_into y) (x = y).
Proof. unfold prepared_leaf_into. codes_record. Qed.
#[export] Hint Resolve codes_prepared_leaf_into : codes.

Lemma codes_prepared_ack_into b x y :
  codes (prepared_ack_into x b) (prepared_ack_into y b)
    (ngpa_unsigned x = ngpa_unsigned y ∧ (b = true → x = y)).
Proof. unfold prepared_ack_into. codes_signed. Qed.
Lemma codes_prepared_ack_into_signed x y : codes (prepared_ack_into x true) (prepared_ack_into y true) (x = y).
Proof. eapply codes_mono; [apply codes_prepared_ack_into | naive]. Qed.
Lemma codes_prepared_ack_into_unsigned x y :
  codes (prepared_ack_into x false) (prepared_ack_into y false) (ngpa_unsigned x = ngpa_unsigned y).
Proof. eapply codes_mono; [apply codes_prepared_ack_into | naive]. Qed.
#[export] Hint Resolve codes_prepared_ack_into_signed codes_prepared_ack_into_unsigned : codes.

Lemma codes_handoff_ack_into b x y :
  codes (handoff_ack_into x b) (handoff_ack_into y b)
    (ogha_unsigned x = ogha_unsigned y ∧ (b = true → x = y)).
Proof. unfold handoff_ack_into. codes_signed. Qed.
Lemma codes_handoff_ack_into_signed x y : codes (handoff_ack_into x true) (handoff_ack_into y true) (x = y).
Proof. eapply codes_mono; [apply codes_handoff_ack_into | naive]. Qed.
Lemma codes_handoff_ack_into_unsigned x y :
  codes (handoff_ack_into x false) (handoff_ack_into y false) (ogha_unsigned x = ogha_unsigned y).
Proof. eapply codes_mono; [apply codes_handoff_ack_into | naive]. Qed.
#[export] Hint Resolve codes_handoff_ack_into_signed codes_handoff_ack_into_unsigned : codes.

Lemma codes_activate_vote_into b x y :
  codes (activate_vote_into x b) (activate_vote_into y b)
    (srav_unsigned x = srav_unsigned y ∧ (b = true → x = y)).
Proof. unfold activate_vote_into. codes_signed. Qed.
Lemma codes_activate_vote_into_signed x y : codes (activate_vote_into x true) (activate_vote_into y true) (x = y).
Proof. eapply codes_mono; [apply codes_activate_vote_into | naive]. Qed.
Lemma codes_activate_vote_into_unsigned x y :
  codes (activate_vote_into x false) (activate_vote_into y false) (srav_unsigned x = srav_unsigned y).
Proof. eapply codes_mono; [apply codes_activate_vote_into | naive]. Qed.
#[export] Hint Resolve codes_activate_vote_into_signed codes_activate_vote_into_unsigned : codes.

Lemma codes_witness_ack_into b x y :
  codes (witness_ack_into x b) (witness_ack_into y b)
    (waa_unsigned x = waa_unsigned y ∧ (b = true → x = y)).
Proof. unfold witness_ack_into. codes_signed. Qed.
Lemma codes_witness_ack_into_signed x y : codes (witness_ack_into x true) (witness_ack_into y true) (x = y).
Proof. eapply codes_mono; [apply codes_witness_ack_into | naive]. Qed.
Lemma codes_witness_ack_into_unsigned x y :
  codes (witness_ack_into x false) (witness_ack_into y false) (waa_unsigned x = waa_unsigned y).
Proof. eapply codes_mono; [apply codes_witness_ack_into | naive]. Qed.
#[export] Hint Resolve codes_witness_ack_into_signed codes_witness_ack_into_unsigned : codes.

Lemma codes_signer_rotation_abort_vote_into b x y :
  codes (signer_rotation_abort_vote_into x b) (signer_rotation_abort_vote_into y b)
    (srabv_unsigned x = srabv_unsigned y ∧ (b = true → x = y)).
Proof. unfold signer_rotation_abort_vote_into. codes_signed. Qed.
Lemma codes_signer_rotation_abort_vote_into_signed x y : codes (signer_rotation_abort_vote_into x true) (signer_rotation_abort_vote_into y true) (x = y).
Proof. eapply codes_mono; [apply codes_signer_rotation_abort_vote_into | naive]. Qed.
Lemma codes_signer_rotation_abort_vote_into_unsigned x y :
  codes (signer_rotation_abort_vote_into x false) (signer_rotation_abort_vote_into y false) (srabv_unsigned x = srabv_unsigned y).
Proof. eapply codes_mono; [apply codes_signer_rotation_abort_vote_into | naive]. Qed.
#[export] Hint Resolve codes_signer_rotation_abort_vote_into_signed codes_signer_rotation_abort_vote_into_unsigned : codes.

Lemma recovery_request_binds request1 request2 b :
  recovery_request request1 = Ok b → recovery_request request2 = Ok b →
  request1 = request2.
Proof. unfold recovery_request. transcript_binds. Qed.

Lemma codes_nested_recovery_request x y :
  codes (wnested (recovery_request x)) (wnested (recovery_request y)) (x = y).
Proof. apply codes_wnested. intros b. apply recovery_request_binds. Qed.
#[export] Hint Resolve codes_nested_recovery_request : codes.

Lemma recovery_request_v3_binds value1 value2 b :
  recovery_request_v3 value1 = Ok b → recovery_request_v3 value2 = Ok b →
  value1 = value2.
Proof. unfold recovery_request_v3. transcript_binds. Qed.

Lemma codes_nested_recovery_request_v3 x y :
  codes (wnested (recovery_request_v3 x)) (wnested (recovery_request_v3 y)) (x = y).
Proof. apply codes_wnested. intros b. apply recovery_request_v3_binds. Qed.
#[export] Hint Resolve codes_nested_recovery_request_v3 : codes.

Lemma codes_signer_recovery_contribution_into b x y :
  codes (signer_recovery_contribution_into x b) (signer_recovery_contribution_into y b)
    (src3_unsigned x = src3_unsigned y ∧ (b = true → x = y)).
Proof. unfold signer_recovery_contribution_into. codes_signed. Qed.
Lemma codes_signer_recovery_contribution_into_signed x y : codes (signer_recovery_contribution_into x true) (signer_recovery_contribution_into y true) (x = y).
Proof. eapply codes_mono; [apply codes_signer_recovery_contribution_into | naive]. Qed.
Lemma codes_signer_recovery_contribution_into_unsigned x y :
  codes (signer_recovery_contribution_into x false) (signer_recovery_contribution_into y false) (src3_unsigned x = src3_unsigned y).
Proof. eapply codes_mono; [apply codes_signer_recovery_contribution_into | naive]. Qed.
#[export] Hint Resolve codes_signer_recovery_contribution_into_signed codes_signer_recovery_contribution_into_unsigned : codes.

Lemma codes_signer_recovery_release_vote_into b x y :
  codes (signer_recovery_release_vote_into x b) (signer_recovery_release_vote_into y b)
    (srrv3_unsigned x = srrv3_unsigned y ∧ (b = true → x = y)).
Proof. unfold signer_recovery_release_vote_into. codes_signed. Qed.
Lemma codes_signer_recovery_release_vote_into_signed x y : codes (signer_recovery_release_vote_into x true) (signer_recovery_release_vote_into y true) (x = y).
Proof. eapply codes_mono; [apply codes_signer_recovery_release_vote_into | naive]. Qed.
Lemma codes_signer_recovery_release_vote_into_unsigned x y :
  codes (signer_recovery_release_vote_into x false) (signer_recovery_release_vote_into y false) (srrv3_unsigned x = srrv3_unsigned y).
Proof. eapply codes_mono; [apply codes_signer_recovery_release_vote_into | naive]. Qed.
#[export] Hint Resolve codes_signer_recovery_release_vote_into_signed codes_signer_recovery_release_vote_into_unsigned : codes.

(** ** Every transcript binds its content *)

Lemma signer_approval_binds request1 signer_id1 encrypted_share1 request2 signer_id2 encrypted_share2 b :
  signer_approval request1 signer_id1 encrypted_share1 = Ok b → signer_approval request2 signer_id2 encrypted_share2 = Ok b →
  request1 = request2 ∧ signer_id1 = signer_id2 ∧ encrypted_share1 = encrypted_share2.
Proof. unfold signer_approval. transcript_binds. Qed.

Lemma signer_leaf_binds signer_id1 public_key1 signer_id2 public_key2 b :
  signer_leaf signer_id1 public_key1 = Ok b → signer_leaf signer_id2 public_key2 = Ok b →
  signer_id1 = signer_id2 ∧ public_key1 = public_key2.
Proof. unfold signer_leaf. transcript_binds. Qed.

Lemma request_digest_preimage_binds request1 request2 b :
  request_digest_preimage request1 = Ok b → request_digest_preimage request2 = Ok b →
  request1 = request2.
Proof. unfold request_digest_preimage. transcript_binds. Qed.

Lemma descriptor_context_binds config_id1 config_version1 config_id2 config_version2 b :
  descriptor_context config_id1 config_version1 = Ok b → descriptor_context config_id2 config_version2 = Ok b →
  config_id1 = config_id2 ∧ config_version1 = config_version2.
Proof. unfold descriptor_context. transcript_binds. Qed.

Lemma recipient_share_context_binds request1 signer_id1 request2 signer_id2 b :
  recipient_share_context request1 signer_id1 = Ok b → recipient_share_context request2 signer_id2 = Ok b →
  request1 = request2 ∧ signer_id1 = signer_id2.
Proof. unfold recipient_share_context. transcript_binds. Qed.

Lemma guardian_release_context_binds request1 guardian_index1 request2 guardian_index2 b :
  guardian_release_context request1 guardian_index1 = Ok b → guardian_release_context request2 guardian_index2 = Ok b →
  request1 = request2 ∧ guardian_index1 = guardian_index2.
Proof. unfold guardian_release_context. transcript_binds. Qed.

Lemma owner_cancel_binds certificate1 certificate2 b :
  owner_cancel certificate1 = Ok b → owner_cancel certificate2 = Ok b →
  occ_unsigned certificate1 = occ_unsigned certificate2.
Proof. unfold owner_cancel. transcript_binds. Qed.

Lemma owner_cancel_ack_binds ack1 ack2 b :
  owner_cancel_ack ack1 = Ok b → owner_cancel_ack ack2 = Ok b →
  oca_unsigned ack1 = oca_unsigned ack2.
Proof. unfold owner_cancel_ack. transcript_binds. Qed.

Lemma release_vote_binds vote1 vote2 b :
  release_vote vote1 = Ok b → release_vote vote2 = Ok b →
  rv_unsigned vote1 = rv_unsigned vote2.
Proof. unfold release_vote. transcript_binds. Qed.

Lemma guardian_contribution_binds contribution1 contribution2 b :
  guardian_contribution contribution1 = Ok b → guardian_contribution contribution2 = Ok b →
  gc_unsigned contribution1 = gc_unsigned contribution2.
Proof. unfold guardian_contribution. transcript_binds. Qed.

Lemma guardian_leaf_binds config_id1 config_version1 guardian_index1 fragment_hash1 encrypted_share_hash1 config_id2 config_version2 guardian_index2 fragment_hash2 encrypted_share_hash2 b :
  guardian_leaf config_id1 config_version1 guardian_index1 fragment_hash1 encrypted_share_hash1 = Ok b → guardian_leaf config_id2 config_version2 guardian_index2 fragment_hash2 encrypted_share_hash2 = Ok b →
  config_id1 = config_id2 ∧ config_version1 = config_version2 ∧ guardian_index1 = guardian_index2 ∧ fragment_hash1 = fragment_hash2 ∧ encrypted_share_hash1 = encrypted_share_hash2.
Proof. unfold guardian_leaf. transcript_binds. Qed.

Lemma guardian_share_context_binds config_id1 config_version1 guardian_index1 config_id2 config_version2 guardian_index2 b :
  guardian_share_context config_id1 config_version1 guardian_index1 = Ok b → guardian_share_context config_id2 config_version2 guardian_index2 = Ok b →
  config_id1 = config_id2 ∧ config_version1 = config_version2 ∧ guardian_index1 = guardian_index2.
Proof. unfold guardian_share_context. transcript_binds. Qed.

Lemma payload_context_binds config_id1 config_version1 config_id2 config_version2 b :
  payload_context config_id1 config_version1 = Ok b → payload_context config_id2 config_version2 = Ok b →
  config_id1 = config_id2 ∧ config_version1 = config_version2.
Proof. unfold payload_context. transcript_binds. Qed.

Lemma node_provision_context_binds node_id1 role1 node_id2 role2 b :
  node_provision_context node_id1 role1 = Ok b → node_provision_context node_id2 role2 = Ok b →
  node_id1 = node_id2 ∧ role1 = role2.
Proof. unfold node_provision_context. transcript_binds. Qed.

Lemma mailbox_transport_context_binds mailbox1 direction1 mailbox2 direction2 b :
  mailbox_transport_context mailbox1 direction1 = Ok b → mailbox_transport_context mailbox2 direction2 = Ok b →
  mailbox1 = mailbox2 ∧ direction1 = direction2.
Proof. unfold mailbox_transport_context. transcript_binds. Qed.

Lemma guardian_roster_v3_binds routes1 routes2 b :
  guardian_roster_v3 routes1 = Ok b → guardian_roster_v3 routes2 = Ok b →
  routes1 = routes2.
Proof. unfold guardian_roster_v3. transcript_binds. Qed.

Lemma prepared_record_leaf_v3_binds value1 value2 b :
  prepared_record_leaf_v3 value1 = Ok b → prepared_record_leaf_v3 value2 = Ok b →
  value1 = value2.
Proof. unfold prepared_record_leaf_v3. transcript_binds. Qed.

Lemma rotation_intent_binds value1 value2 b :
  rotation_intent value1 = Ok b → rotation_intent value2 = Ok b →
  value1 = value2.
Proof. unfold rotation_intent. transcript_binds. Qed.

Lemma signer_rotation_intent_contribution_binds value1 value2 b :
  signer_rotation_intent_contribution value1 = Ok b → signer_rotation_intent_contribution value2 = Ok b →
  sric_unsigned value1 = sric_unsigned value2.
Proof. unfold signer_rotation_intent_contribution. transcript_binds. Qed.

Lemma rotation_intent_share_context_v3_binds context1 intent_hash1 signer_id1 context2 intent_hash2 signer_id2 b :
  rotation_intent_share_context_v3 context1 intent_hash1 signer_id1 = Ok b → rotation_intent_share_context_v3 context2 intent_hash2 signer_id2 = Ok b →
  context1 = context2 ∧ intent_hash1 = intent_hash2 ∧ signer_id1 = signer_id2.
Proof. unfold rotation_intent_share_context_v3. transcript_binds. Qed.

Lemma rotation_plan_binds value1 value2 b :
  rotation_plan value1 = Ok b → rotation_plan value2 = Ok b →
  value1 = value2.
Proof. unfold rotation_plan. transcript_binds. Qed.

Lemma signer_rotation_begin_vote_binds value1 value2 b :
  signer_rotation_begin_vote value1 = Ok b → signer_rotation_begin_vote value2 = Ok b →
  srbv_unsigned value1 = srbv_unsigned value2.
Proof. unfold signer_rotation_begin_vote. transcript_binds. Qed.

Lemma begin_rotation_certificate_binds value1 value2 b :
  begin_rotation_certificate value1 = Ok b → begin_rotation_certificate value2 = Ok b →
  value1 = value2.
Proof. unfold begin_rotation_certificate. transcript_binds. Qed.

Lemma owner_rotation_cancel_certificate_binds value1 value2 b :
  owner_rotation_cancel_certificate value1 = Ok b → owner_rotation_cancel_certificate value2 = Ok b →
  orcc_unsigned value1 = orcc_unsigned value2.
Proof. unfold owner_rotation_cancel_certificate. transcript_binds. Qed.

Lemma owner_rotation_cancel_ack_binds value1 value2 b :
  owner_rotation_cancel_ack value1 = Ok b → owner_rotation_cancel_ack value2 = Ok b →
  orca_unsigned value1 = orca_unsigned value2.
Proof. unfold owner_rotation_cancel_ack. transcript_binds. Qed.

Lemma signer_rotation_release_vote_binds value1 value2 b :
  signer_rotation_release_vote value1 = Ok b → signer_rotation_release_vote value2 = Ok b →
  srrv_unsigned value1 = srrv_unsigned value2.
Proof. unfold signer_rotation_release_vote. transcript_binds. Qed.

Lemma rotation_release_certificate_binds value1 value2 b :
  rotation_release_certificate value1 = Ok b → rotation_release_certificate value2 = Ok b →
  value1 = value2.
Proof. unfold rotation_release_certificate. transcript_binds. Qed.

Lemma old_share_unlock_grant_binds value1 value2 b :
  old_share_unlock_grant value1 = Ok b → old_share_unlock_grant value2 = Ok b →
  value1 = value2.
Proof. unfold old_share_unlock_grant. transcript_binds. Qed.

Lemma old_share_unlock_grant_payload_context_binds value1 fragment_key1 value2 fragment_key2 b :
  old_share_unlock_grant_payload_context value1 fragment_key1 = Ok b → old_share_unlock_grant_payload_context value2 fragment_key2 = Ok b →
  osug_unsigned value1 = osug_unsigned value2 ∧ fragment_key1 = fragment_key2.
Proof. unfold old_share_unlock_grant_payload_context. transcript_binds. Qed.

Lemma new_share_wrap_grant_binds value1 value2 b :
  new_share_wrap_grant value1 = Ok b → new_share_wrap_grant value2 = Ok b →
  value1 = value2.
Proof. unfold new_share_wrap_grant. transcript_binds. Qed.

Lemma new_share_wrap_grant_payload_context_binds value1 fragment_key1 value2 fragment_key2 b :
  new_share_wrap_grant_payload_context value1 fragment_key1 = Ok b → new_share_wrap_grant_payload_context value2 fragment_key2 = Ok b →
  nswg_unsigned value1 = nswg_unsigned value2 ∧ fragment_key1 = fragment_key2.
Proof. unfold new_share_wrap_grant_payload_context. transcript_binds. Qed.

Lemma dpss_protocol_message_binds value1 value2 b :
  dpss_protocol_message value1 = Ok b → dpss_protocol_message value2 = Ok b →
  dpm_unsigned value1 = dpm_unsigned value2.
Proof. unfold dpss_protocol_message. transcript_binds. Qed.

Lemma ciphertext_fragment_contribution_binds value1 value2 b :
  ciphertext_fragment_contribution value1 = Ok b → ciphertext_fragment_contribution value2 = Ok b →
  cfc_unsigned value1 = cfc_unsigned value2.
Proof. unfold ciphertext_fragment_contribution. transcript_binds. Qed.

Lemma new_guardian_prepared_ack_binds value1 value2 b :
  new_guardian_prepared_ack value1 = Ok b → new_guardian_prepared_ack value2 = Ok b →
  ngpa_unsigned value1 = ngpa_unsigned value2.
Proof. unfold new_guardian_prepared_ack. transcript_binds. Qed.

Lemma old_guardian_handoff_ack_binds value1 value2 b :
  old_guardian_handoff_ack value1 = Ok b → old_guardian_handoff_ack value2 = Ok b →
  ogha_unsigned value1 = ogha_unsigned value2.
Proof. unfold old_guardian_handoff_ack. transcript_binds. Qed.

Lemma rotation_ready_certificate_binds value1 value2 b :
  rotation_ready_certificate value1 = Ok b → rotation_ready_certificate value2 = Ok b →
  value1 = value2.
Proof. unfold rotation_ready_certificate. transcript_binds. Qed.

Lemma signer_rotation_activate_vote_binds value1 value2 b :
  signer_rotation_activate_vote value1 = Ok b → signer_rotation_activate_vote value2 = Ok b →
  srav_unsigned value1 = srav_unsigned value2.
Proof. unfold signer_rotation_activate_vote. transcript_binds. Qed.

Lemma rotation_activate_certificate_binds value1 value2 b :
  rotation_activate_certificate value1 = Ok b → rotation_activate_certificate value2 = Ok b →
  value1 = value2.
Proof. unfold rotation_activate_certificate. transcript_binds. Qed.

Lemma witness_activation_ack_binds value1 value2 b :
  witness_activation_ack value1 = Ok b → witness_activation_ack value2 = Ok b →
  waa_unsigned value1 = waa_unsigned value2.
Proof. unfold witness_activation_ack. transcript_binds. Qed.

Lemma witness_rotation_cancel_ack_binds value1 value2 b :
  witness_rotation_cancel_ack value1 = Ok b → witness_rotation_cancel_ack value2 = Ok b →
  wrca_unsigned value1 = wrca_unsigned value2.
Proof. unfold witness_rotation_cancel_ack. transcript_binds. Qed.

Lemma epoch_activation_qc_binds value1 value2 b :
  epoch_activation_qc value1 = Ok b → epoch_activation_qc value2 = Ok b →
  value1 = value2.
Proof. unfold epoch_activation_qc. transcript_binds. Qed.

Lemma epoch_read_challenge_binds value1 value2 b :
  epoch_read_challenge value1 = Ok b → epoch_read_challenge value2 = Ok b →
  value1 = value2.
Proof. unfold epoch_read_challenge. transcript_binds. Qed.

Lemma witness_epoch_read_response_binds value1 value2 b :
  witness_epoch_read_response value1 = Ok b → witness_epoch_read_response value2 = Ok b →
  werr_unsigned value1 = werr_unsigned value2.
Proof. unfold witness_epoch_read_response. transcript_binds. Qed.

Lemma retirement_notice_binds value1 value2 b :
  retirement_notice value1 = Ok b → retirement_notice value2 = Ok b →
  value1 = value2.
Proof. unfold retirement_notice. transcript_binds. Qed.

Lemma retirement_ack_binds value1 value2 b :
  retirement_ack value1 = Ok b → retirement_ack value2 = Ok b →
  rack_unsigned value1 = rack_unsigned value2.
Proof. unfold retirement_ack. transcript_binds. Qed.

Lemma abort_rotation_certificate_binds value1 value2 b :
  abort_rotation_certificate value1 = Ok b → abort_rotation_certificate value2 = Ok b →
  value1 = value2.
Proof. unfold abort_rotation_certificate. transcript_binds. Qed.

Lemma signer_rotation_abort_vote_binds value1 value2 b :
  signer_rotation_abort_vote value1 = Ok b → signer_rotation_abort_vote value2 = Ok b →
  srabv_unsigned value1 = srabv_unsigned value2.
Proof. unfold signer_rotation_abort_vote. transcript_binds. Qed.

Lemma recovery_request_digest_v3_binds value1 value2 b :
  recovery_request_digest_v3 value1 = Ok b → recovery_request_digest_v3 value2 = Ok b →
  value1 = value2.
Proof. unfold recovery_request_digest_v3. transcript_binds. Qed.

Lemma recovery_authorization_share_context_v3_binds request1 signer_id1 request2 signer_id2 b :
  recovery_authorization_share_context_v3 request1 signer_id1 = Ok b → recovery_authorization_share_context_v3 request2 signer_id2 = Ok b →
  request1 = request2 ∧ signer_id1 = signer_id2.
Proof. unfold recovery_authorization_share_context_v3. transcript_binds. Qed.

Lemma signer_recovery_contribution_v3_binds value1 value2 b :
  signer_recovery_contribution_v3 value1 = Ok b → signer_recovery_contribution_v3 value2 = Ok b →
  src3_unsigned value1 = src3_unsigned value2.
Proof. unfold signer_recovery_contribution_v3. transcript_binds. Qed.

Lemma begin_recovery_certificate_v3_binds value1 value2 b :
  begin_recovery_certificate_v3 value1 = Ok b → begin_recovery_certificate_v3 value2 = Ok b →
  value1 = value2.
Proof. unfold begin_recovery_certificate_v3. transcript_binds. Qed.

Lemma signer_recovery_release_vote_v3_binds value1 value2 b :
  signer_recovery_release_vote_v3 value1 = Ok b → signer_recovery_release_vote_v3 value2 = Ok b →
  srrv3_unsigned value1 = srrv3_unsigned value2.
Proof. unfold signer_recovery_release_vote_v3. transcript_binds. Qed.

Lemma recovery_release_certificate_v3_binds value1 value2 b :
  recovery_release_certificate_v3 value1 = Ok b → recovery_release_certificate_v3 value2 = Ok b →
  value1 = value2.
Proof. unfold recovery_release_certificate_v3. transcript_binds. Qed.

Lemma owner_recovery_cancel_certificate_v3_binds value1 value2 b :
  owner_recovery_cancel_certificate_v3 value1 = Ok b → owner_recovery_cancel_certificate_v3 value2 = Ok b →
  orcc3_unsigned value1 = orcc3_unsigned value2.
Proof. unfold owner_recovery_cancel_certificate_v3. transcript_binds. Qed.

Lemma owner_recovery_cancel_ack_v3_binds value1 value2 b :
  owner_recovery_cancel_ack_v3 value1 = Ok b → owner_recovery_cancel_ack_v3 value2 = Ok b →
  orca3_unsigned value1 = orca3_unsigned value2.
Proof. unfold owner_recovery_cancel_ack_v3. transcript_binds. Qed.

Lemma guardian_recovery_contribution_v3_binds value1 value2 b :
  guardian_recovery_contribution_v3 value1 = Ok b → guardian_recovery_contribution_v3 value2 = Ok b →
  grc3_unsigned value1 = grc3_unsigned value2.
Proof. unfold guardian_recovery_contribution_v3. transcript_binds. Qed.

Lemma guardian_share_context_v3_binds config_ref1 guardian_index1 config_ref2 guardian_index2 b :
  guardian_share_context_v3 config_ref1 guardian_index1 = Ok b → guardian_share_context_v3 config_ref2 guardian_index2 = Ok b →
  config_ref1 = config_ref2 ∧ guardian_index1 = guardian_index2.
Proof. unfold guardian_share_context_v3. transcript_binds. Qed.

Lemma guardian_fragment_context_v3_binds config_ref1 guardian_index1 fragment_index1 config_ref2 guardian_index2 fragment_index2 b :
  guardian_fragment_context_v3 config_ref1 guardian_index1 fragment_index1 = Ok b → guardian_fragment_context_v3 config_ref2 guardian_index2 fragment_index2 = Ok b →
  config_ref1 = config_ref2 ∧ guardian_index1 = guardian_index2 ∧ fragment_index1 = fragment_index2.
Proof. unfold guardian_fragment_context_v3. transcript_binds. Qed.

Lemma descriptor_context_v3_binds config_ref1 config_ref2 b :
  descriptor_context_v3 config_ref1 = Ok b → descriptor_context_v3 config_ref2 = Ok b →
  config_ref1 = config_ref2.
Proof. unfold descriptor_context_v3. transcript_binds. Qed.

Lemma config_capsule_body_v3_binds value1 value2 b :
  config_capsule_body_v3 value1 = Ok b → config_capsule_body_v3 value2 = Ok b →
  cap3_unsigned value1 = cap3_unsigned value2.
Proof. unfold config_capsule_body_v3. transcript_binds. Qed.

Lemma guardian_policy_body_v3_binds value1 value2 b :
  guardian_policy_body_v3 value1 = Ok b → guardian_policy_body_v3 value2 = Ok b →
  gpol3_unsigned value1 = gpol3_unsigned value2.
Proof. unfold guardian_policy_body_v3. transcript_binds. Qed.

Lemma payload_context_v3_binds config_id1 payload_generation1 config_id2 payload_generation2 b :
  payload_context_v3 config_id1 payload_generation1 = Ok b → payload_context_v3 config_id2 payload_generation2 = Ok b →
  config_id1 = config_id2 ∧ payload_generation1 = payload_generation2.
Proof. unfold payload_context_v3. transcript_binds. Qed.

Lemma custody_challenge_binds value1 value2 b :
  custody_challenge value1 = Ok b → custody_challenge value2 = Ok b →
  value1 = value2.
Proof. unfold custody_challenge. transcript_binds. Qed.

Lemma custody_response_binds value1 value2 b :
  custody_response value1 = Ok b → custody_response value2 = Ok b →
  crs_unsigned value1 = crs_unsigned value2.
Proof. unfold custody_response. transcript_binds. Qed.


(** ** All transcripts together *)

Create HintDb binds.
#[export] Hint Resolve
  recovery_request_binds recovery_request_v3_binds signer_approval_binds
  signer_leaf_binds request_digest_preimage_binds
  descriptor_context_binds recipient_share_context_binds
  guardian_release_context_binds owner_cancel_binds
  owner_cancel_ack_binds release_vote_binds guardian_contribution_binds
  guardian_leaf_binds guardian_share_context_binds payload_context_binds
  node_provision_context_binds mailbox_transport_context_binds
  guardian_roster_v3_binds prepared_record_leaf_v3_binds
  rotation_intent_binds signer_rotation_intent_contribution_binds
  rotation_intent_share_context_v3_binds rotation_plan_binds
  signer_rotation_begin_vote_binds begin_rotation_certificate_binds
  owner_rotation_cancel_certificate_binds
  owner_rotation_cancel_ack_binds signer_rotation_release_vote_binds
  rotation_release_certificate_binds old_share_unlock_grant_binds
  old_share_unlock_grant_payload_context_binds
  new_share_wrap_grant_binds new_share_wrap_grant_payload_context_binds
  dpss_protocol_message_binds ciphertext_fragment_contribution_binds
  new_guardian_prepared_ack_binds old_guardian_handoff_ack_binds
  rotation_ready_certificate_binds signer_rotation_activate_vote_binds
  rotation_activate_certificate_binds witness_activation_ack_binds
  witness_rotation_cancel_ack_binds epoch_activation_qc_binds
  epoch_read_challenge_binds witness_epoch_read_response_binds
  retirement_notice_binds retirement_ack_binds
  abort_rotation_certificate_binds signer_rotation_abort_vote_binds
  recovery_request_digest_v3_binds
  recovery_authorization_share_context_v3_binds
  signer_recovery_contribution_v3_binds
  begin_recovery_certificate_v3_binds
  signer_recovery_release_vote_v3_binds
  recovery_release_certificate_v3_binds
  owner_recovery_cancel_certificate_v3_binds
  owner_recovery_cancel_ack_v3_binds
  guardian_recovery_contribution_v3_binds
  guardian_share_context_v3_binds guardian_fragment_context_v3_binds
  descriptor_context_v3_binds config_capsule_body_v3_binds
  guardian_policy_body_v3_binds payload_context_v3_binds
  custody_challenge_binds custody_response_binds : binds.

Inductive Doc : Set :=
| D_recovery_request (request : RecoveryRequest)
| D_signer_approval (request : RecoveryRequest) (signer_id : u16) (encrypted_share : SealedMessage)
| D_signer_leaf (signer_id : u16) (public_key : barr 32)
| D_request_digest_preimage (request : RecoveryRequest)
| D_descriptor_context (config_id : barr 32) (config_version : u64)
| D_recipient_share_context (request : RecoveryRequest) (signer_id : u16)
| D_guardian_release_context (request : RecoveryRequest) (guardian_index : u16)
| D_owner_cancel (certificate : OwnerCancelCertificate)
| D_owner_cancel_ack (ack : OwnerCancelAck)
| D_release_vote (vote : ReleaseVote)
| D_guardian_contribution (contribution : GuardianContribution)
| D_guardian_leaf (config_id : barr 32) (config_version : u64) (guardian_index : u16) (fragment_hash : barr 32) (encrypted_share_hash : barr 32)
| D_guardian_share_context (config_id : barr 32) (config_version : u64) (guardian_index : u16)
| D_payload_context (config_id : barr 32) (config_version : u64)
| D_node_provision_context (node_id : string) (role : string)
| D_mailbox_transport_context (mailbox : string) (direction : string)
| D_guardian_roster_v3 (routes : list GuardianRouteV3)
| D_prepared_record_leaf_v3 (value : PreparedRecordLeaf)
| D_rotation_intent (value : RotationIntent)
| D_signer_rotation_intent_contribution (value : SignerRotationIntentContribution)
| D_rotation_intent_share_context_v3 (context : RotationContext) (intent_hash : Id32) (signer_id : u16)
| D_rotation_plan (value : RotationPlan)
| D_signer_rotation_begin_vote (value : SignerRotationBeginVote)
| D_begin_rotation_certificate (value : BeginRotationCertificate)
| D_owner_rotation_cancel_certificate (value : OwnerRotationCancelCertificate)
| D_owner_rotation_cancel_ack (value : OwnerRotationCancelAck)
| D_signer_rotation_release_vote (value : SignerRotationReleaseVote)
| D_rotation_release_certificate (value : RotationReleaseCertificate)
| D_old_share_unlock_grant (value : OldShareUnlockGrant)
| D_old_share_unlock_grant_payload_context (value : OldShareUnlockGrant) (fragment_key : bool)
| D_new_share_wrap_grant (value : NewShareWrapGrant)
| D_new_share_wrap_grant_payload_context (value : NewShareWrapGrant) (fragment_key : bool)
| D_dpss_protocol_message (value : DpssProtocolMessage)
| D_ciphertext_fragment_contribution (value : CiphertextFragmentContribution)
| D_new_guardian_prepared_ack (value : NewGuardianPreparedAck)
| D_old_guardian_handoff_ack (value : OldGuardianHandoffAck)
| D_rotation_ready_certificate (value : RotationReadyCertificate)
| D_signer_rotation_activate_vote (value : SignerRotationActivateVote)
| D_rotation_activate_certificate (value : RotationActivateCertificate)
| D_witness_activation_ack (value : WitnessActivationAck)
| D_witness_rotation_cancel_ack (value : WitnessRotationCancelAck)
| D_epoch_activation_qc (value : EpochActivationQc)
| D_epoch_read_challenge (value : EpochReadChallenge)
| D_witness_epoch_read_response (value : WitnessEpochReadResponse)
| D_retirement_notice (value : RetirementNotice)
| D_retirement_ack (value : RetirementAck)
| D_abort_rotation_certificate (value : AbortRotationCertificate)
| D_signer_rotation_abort_vote (value : SignerRotationAbortVote)
| D_recovery_request_v3 (value : RecoveryRequestV3)
| D_recovery_request_digest_v3 (value : RecoveryRequestV3)
| D_recovery_authorization_share_context_v3 (request : RecoveryRequestV3) (signer_id : u16)
| D_signer_recovery_contribution_v3 (value : SignerRecoveryContributionV3)
| D_begin_recovery_certificate_v3 (value : BeginRecoveryCertificateV3)
| D_signer_recovery_release_vote_v3 (value : SignerRecoveryReleaseVoteV3)
| D_recovery_release_certificate_v3 (value : RecoveryReleaseCertificateV3)
| D_owner_recovery_cancel_certificate_v3 (value : OwnerRecoveryCancelCertificateV3)
| D_owner_recovery_cancel_ack_v3 (value : OwnerRecoveryCancelAckV3)
| D_guardian_recovery_contribution_v3 (value : GuardianRecoveryContributionV3)
| D_guardian_share_context_v3 (config_ref : ConfigRef) (guardian_index : u16)
| D_guardian_fragment_context_v3 (config_ref : ConfigRef) (guardian_index : u16) (fragment_index : u16)
| D_descriptor_context_v3 (config_ref : ConfigRef)
| D_config_capsule_body_v3 (value : ConfigCapsuleV3)
| D_guardian_policy_body_v3 (value : GuardianPolicyV3)
| D_payload_context_v3 (config_id : Id32) (payload_generation : u64)
| D_custody_challenge (value : CustodyChallenge)
| D_custody_response (value : CustodyResponse).

Definition doc_transcript (d : Doc) : Result WireError (list byte) :=
  match d with
  | D_recovery_request request => recovery_request request
  | D_signer_approval request signer_id encrypted_share => signer_approval request signer_id encrypted_share
  | D_signer_leaf signer_id public_key => signer_leaf signer_id public_key
  | D_request_digest_preimage request => request_digest_preimage request
  | D_descriptor_context config_id config_version => descriptor_context config_id config_version
  | D_recipient_share_context request signer_id => recipient_share_context request signer_id
  | D_guardian_release_context request guardian_index => guardian_release_context request guardian_index
  | D_owner_cancel certificate => owner_cancel certificate
  | D_owner_cancel_ack ack => owner_cancel_ack ack
  | D_release_vote vote => release_vote vote
  | D_guardian_contribution contribution => guardian_contribution contribution
  | D_guardian_leaf config_id config_version guardian_index fragment_hash encrypted_share_hash => guardian_leaf config_id config_version guardian_index fragment_hash encrypted_share_hash
  | D_guardian_share_context config_id config_version guardian_index => guardian_share_context config_id config_version guardian_index
  | D_payload_context config_id config_version => payload_context config_id config_version
  | D_node_provision_context node_id role => node_provision_context node_id role
  | D_mailbox_transport_context mailbox direction => mailbox_transport_context mailbox direction
  | D_guardian_roster_v3 routes => guardian_roster_v3 routes
  | D_prepared_record_leaf_v3 value => prepared_record_leaf_v3 value
  | D_rotation_intent value => rotation_intent value
  | D_signer_rotation_intent_contribution value => signer_rotation_intent_contribution value
  | D_rotation_intent_share_context_v3 context intent_hash signer_id => rotation_intent_share_context_v3 context intent_hash signer_id
  | D_rotation_plan value => rotation_plan value
  | D_signer_rotation_begin_vote value => signer_rotation_begin_vote value
  | D_begin_rotation_certificate value => begin_rotation_certificate value
  | D_owner_rotation_cancel_certificate value => owner_rotation_cancel_certificate value
  | D_owner_rotation_cancel_ack value => owner_rotation_cancel_ack value
  | D_signer_rotation_release_vote value => signer_rotation_release_vote value
  | D_rotation_release_certificate value => rotation_release_certificate value
  | D_old_share_unlock_grant value => old_share_unlock_grant value
  | D_old_share_unlock_grant_payload_context value fragment_key => old_share_unlock_grant_payload_context value fragment_key
  | D_new_share_wrap_grant value => new_share_wrap_grant value
  | D_new_share_wrap_grant_payload_context value fragment_key => new_share_wrap_grant_payload_context value fragment_key
  | D_dpss_protocol_message value => dpss_protocol_message value
  | D_ciphertext_fragment_contribution value => ciphertext_fragment_contribution value
  | D_new_guardian_prepared_ack value => new_guardian_prepared_ack value
  | D_old_guardian_handoff_ack value => old_guardian_handoff_ack value
  | D_rotation_ready_certificate value => rotation_ready_certificate value
  | D_signer_rotation_activate_vote value => signer_rotation_activate_vote value
  | D_rotation_activate_certificate value => rotation_activate_certificate value
  | D_witness_activation_ack value => witness_activation_ack value
  | D_witness_rotation_cancel_ack value => witness_rotation_cancel_ack value
  | D_epoch_activation_qc value => epoch_activation_qc value
  | D_epoch_read_challenge value => epoch_read_challenge value
  | D_witness_epoch_read_response value => witness_epoch_read_response value
  | D_retirement_notice value => retirement_notice value
  | D_retirement_ack value => retirement_ack value
  | D_abort_rotation_certificate value => abort_rotation_certificate value
  | D_signer_rotation_abort_vote value => signer_rotation_abort_vote value
  | D_recovery_request_v3 value => recovery_request_v3 value
  | D_recovery_request_digest_v3 value => recovery_request_digest_v3 value
  | D_recovery_authorization_share_context_v3 request signer_id => recovery_authorization_share_context_v3 request signer_id
  | D_signer_recovery_contribution_v3 value => signer_recovery_contribution_v3 value
  | D_begin_recovery_certificate_v3 value => begin_recovery_certificate_v3 value
  | D_signer_recovery_release_vote_v3 value => signer_recovery_release_vote_v3 value
  | D_recovery_release_certificate_v3 value => recovery_release_certificate_v3 value
  | D_owner_recovery_cancel_certificate_v3 value => owner_recovery_cancel_certificate_v3 value
  | D_owner_recovery_cancel_ack_v3 value => owner_recovery_cancel_ack_v3 value
  | D_guardian_recovery_contribution_v3 value => guardian_recovery_contribution_v3 value
  | D_guardian_share_context_v3 config_ref guardian_index => guardian_share_context_v3 config_ref guardian_index
  | D_guardian_fragment_context_v3 config_ref guardian_index fragment_index => guardian_fragment_context_v3 config_ref guardian_index fragment_index
  | D_descriptor_context_v3 config_ref => descriptor_context_v3 config_ref
  | D_config_capsule_body_v3 value => config_capsule_body_v3 value
  | D_guardian_policy_body_v3 value => guardian_policy_body_v3 value
  | D_payload_context_v3 config_id payload_generation => payload_context_v3 config_id payload_generation
  | D_custody_challenge value => custody_challenge value
  | D_custody_response value => custody_response value
  end.

Definition doc_domain (d : Doc) : string :=
  match d with
  | D_recovery_request _ => "gp/recovery-request/v1"
  | D_signer_approval _ _ _ => "gp/signer-approval/v1"
  | D_signer_leaf _ _ => "gp/signer-leaf/v1"
  | D_request_digest_preimage _ => "gp/recovery-request-digest/v1"
  | D_descriptor_context _ _ => "gp/recovery-descriptor-context/v1"
  | D_recipient_share_context _ _ => "gp/recipient-a-share-context/v1"
  | D_guardian_release_context _ _ => "gp/recipient-guardian-contribution/v1"
  | D_owner_cancel _ => "gp/owner-hard-cancel/v1"
  | D_owner_cancel_ack _ => "gp/owner-hard-cancel-ack/v1"
  | D_release_vote _ => "gp/release-vote/v1"
  | D_guardian_contribution _ => "gp/guardian-contribution/v1"
  | D_guardian_leaf _ _ _ _ _ => "gp/guardian-leaf/v1"
  | D_guardian_share_context _ _ _ => "gp/guardian-dek-share-context/v1"
  | D_payload_context _ _ => "gp/payload-context/v1"
  | D_node_provision_context _ _ => "gp/network-node-provision/v1"
  | D_mailbox_transport_context _ _ => "gp/network-mailbox-transport/v1"
  | D_guardian_roster_v3 _ => "gp/private-guardian-roster/v3"
  | D_prepared_record_leaf_v3 _ => "gp/prepared-record-leaf/v3"
  | D_rotation_intent _ => "gp/rotation-intent/v3"
  | D_signer_rotation_intent_contribution _ => "gp/signer-rotation-intent-contribution/v3"
  | D_rotation_intent_share_context_v3 _ _ _ => "gp/rotation-intent-a-share-context/v3"
  | D_rotation_plan _ => "gp/rotation-plan/v3"
  | D_signer_rotation_begin_vote _ => "gp/signer-rotation-begin-vote/v3"
  | D_begin_rotation_certificate _ => "gp/begin-rotation-certificate/v3"
  | D_owner_rotation_cancel_certificate _ => "gp/owner-rotation-cancel/v3"
  | D_owner_rotation_cancel_ack _ => "gp/owner-rotation-cancel-ack/v3"
  | D_signer_rotation_release_vote _ => "gp/signer-rotation-release-vote/v3"
  | D_rotation_release_certificate _ => "gp/rotation-release-certificate/v3"
  | D_old_share_unlock_grant _ => "gp/old-share-unlock-grant/v3"
  | D_old_share_unlock_grant_payload_context _ _ => "gp/old-share-unlock-grant-payload/v3"
  | D_new_share_wrap_grant _ => "gp/new-share-wrap-grant/v3"
  | D_new_share_wrap_grant_payload_context _ _ => "gp/new-share-wrap-grant-payload/v3"
  | D_dpss_protocol_message _ => "gp/dpss-protocol-message/v3"
  | D_ciphertext_fragment_contribution _ => "gp/ciphertext-fragment-contribution/v3"
  | D_new_guardian_prepared_ack _ => "gp/new-guardian-prepared-ack/v3"
  | D_old_guardian_handoff_ack _ => "gp/old-guardian-handoff-ack/v3"
  | D_rotation_ready_certificate _ => "gp/rotation-ready-certificate/v3"
  | D_signer_rotation_activate_vote _ => "gp/signer-rotation-activate-vote/v3"
  | D_rotation_activate_certificate _ => "gp/rotation-activate-certificate/v3"
  | D_witness_activation_ack _ => "gp/witness-activation-ack/v3"
  | D_witness_rotation_cancel_ack _ => "gp/witness-rotation-cancel-ack/v3"
  | D_epoch_activation_qc _ => "gp/epoch-activation-qc/v3"
  | D_epoch_read_challenge _ => "gp/epoch-read-challenge/v3"
  | D_witness_epoch_read_response _ => "gp/witness-epoch-read-response/v3"
  | D_retirement_notice _ => "gp/retirement-notice/v3"
  | D_retirement_ack _ => "gp/retirement-ack/v3"
  | D_abort_rotation_certificate _ => "gp/abort-rotation-certificate/v3"
  | D_signer_rotation_abort_vote _ => "gp/signer-rotation-abort-vote/v3"
  | D_recovery_request_v3 _ => "gp/recovery-request/v3"
  | D_recovery_request_digest_v3 _ => "gp/recovery-request-digest/v3"
  | D_recovery_authorization_share_context_v3 _ _ => "gp/recovery-a-share-context/v3"
  | D_signer_recovery_contribution_v3 _ => "gp/signer-recovery-contribution/v3"
  | D_begin_recovery_certificate_v3 _ => "gp/begin-recovery-certificate/v3"
  | D_signer_recovery_release_vote_v3 _ => "gp/signer-recovery-release-vote/v3"
  | D_recovery_release_certificate_v3 _ => "gp/recovery-release-certificate/v3"
  | D_owner_recovery_cancel_certificate_v3 _ => "gp/owner-recovery-cancel/v3"
  | D_owner_recovery_cancel_ack_v3 _ => "gp/owner-recovery-cancel-ack/v3"
  | D_guardian_recovery_contribution_v3 _ => "gp/guardian-recovery-contribution/v3"
  | D_guardian_share_context_v3 _ _ => "gp/guardian-dek-share-context/v3"
  | D_guardian_fragment_context_v3 _ _ _ => "gp/guardian-ciphertext-fragment-context/v3"
  | D_descriptor_context_v3 _ => "gp/recovery-descriptor-context/v3"
  | D_config_capsule_body_v3 _ => "gp/config-capsule-body/v3"
  | D_guardian_policy_body_v3 _ => "gp/guardian-policy-body/v3"
  | D_payload_context_v3 _ _ => "gp/payload-context/v3"
  | D_custody_challenge _ => "gp/custody-challenge/v3"
  | D_custody_response _ => "gp/custody-response/v3"
  end.

Definition doc_signed (d : Doc) : Doc :=
  match d with
  | D_recovery_request request => D_recovery_request request
  | D_signer_approval request signer_id encrypted_share => D_signer_approval request signer_id encrypted_share
  | D_signer_leaf signer_id public_key => D_signer_leaf signer_id public_key
  | D_request_digest_preimage request => D_request_digest_preimage request
  | D_descriptor_context config_id config_version => D_descriptor_context config_id config_version
  | D_recipient_share_context request signer_id => D_recipient_share_context request signer_id
  | D_guardian_release_context request guardian_index => D_guardian_release_context request guardian_index
  | D_owner_cancel certificate => D_owner_cancel (occ_unsigned certificate)
  | D_owner_cancel_ack ack => D_owner_cancel_ack (oca_unsigned ack)
  | D_release_vote vote => D_release_vote (rv_unsigned vote)
  | D_guardian_contribution contribution => D_guardian_contribution (gc_unsigned contribution)
  | D_guardian_leaf config_id config_version guardian_index fragment_hash encrypted_share_hash => D_guardian_leaf config_id config_version guardian_index fragment_hash encrypted_share_hash
  | D_guardian_share_context config_id config_version guardian_index => D_guardian_share_context config_id config_version guardian_index
  | D_payload_context config_id config_version => D_payload_context config_id config_version
  | D_node_provision_context node_id role => D_node_provision_context node_id role
  | D_mailbox_transport_context mailbox direction => D_mailbox_transport_context mailbox direction
  | D_guardian_roster_v3 routes => D_guardian_roster_v3 routes
  | D_prepared_record_leaf_v3 value => D_prepared_record_leaf_v3 value
  | D_rotation_intent value => D_rotation_intent value
  | D_signer_rotation_intent_contribution value => D_signer_rotation_intent_contribution (sric_unsigned value)
  | D_rotation_intent_share_context_v3 context intent_hash signer_id => D_rotation_intent_share_context_v3 context intent_hash signer_id
  | D_rotation_plan value => D_rotation_plan value
  | D_signer_rotation_begin_vote value => D_signer_rotation_begin_vote (srbv_unsigned value)
  | D_begin_rotation_certificate value => D_begin_rotation_certificate value
  | D_owner_rotation_cancel_certificate value => D_owner_rotation_cancel_certificate (orcc_unsigned value)
  | D_owner_rotation_cancel_ack value => D_owner_rotation_cancel_ack (orca_unsigned value)
  | D_signer_rotation_release_vote value => D_signer_rotation_release_vote (srrv_unsigned value)
  | D_rotation_release_certificate value => D_rotation_release_certificate value
  | D_old_share_unlock_grant value => D_old_share_unlock_grant value
  | D_old_share_unlock_grant_payload_context value fragment_key => D_old_share_unlock_grant_payload_context (osug_unsigned value) fragment_key
  | D_new_share_wrap_grant value => D_new_share_wrap_grant value
  | D_new_share_wrap_grant_payload_context value fragment_key => D_new_share_wrap_grant_payload_context (nswg_unsigned value) fragment_key
  | D_dpss_protocol_message value => D_dpss_protocol_message (dpm_unsigned value)
  | D_ciphertext_fragment_contribution value => D_ciphertext_fragment_contribution (cfc_unsigned value)
  | D_new_guardian_prepared_ack value => D_new_guardian_prepared_ack (ngpa_unsigned value)
  | D_old_guardian_handoff_ack value => D_old_guardian_handoff_ack (ogha_unsigned value)
  | D_rotation_ready_certificate value => D_rotation_ready_certificate value
  | D_signer_rotation_activate_vote value => D_signer_rotation_activate_vote (srav_unsigned value)
  | D_rotation_activate_certificate value => D_rotation_activate_certificate value
  | D_witness_activation_ack value => D_witness_activation_ack (waa_unsigned value)
  | D_witness_rotation_cancel_ack value => D_witness_rotation_cancel_ack (wrca_unsigned value)
  | D_epoch_activation_qc value => D_epoch_activation_qc value
  | D_epoch_read_challenge value => D_epoch_read_challenge value
  | D_witness_epoch_read_response value => D_witness_epoch_read_response (werr_unsigned value)
  | D_retirement_notice value => D_retirement_notice value
  | D_retirement_ack value => D_retirement_ack (rack_unsigned value)
  | D_abort_rotation_certificate value => D_abort_rotation_certificate value
  | D_signer_rotation_abort_vote value => D_signer_rotation_abort_vote (srabv_unsigned value)
  | D_recovery_request_v3 value => D_recovery_request_v3 value
  | D_recovery_request_digest_v3 value => D_recovery_request_digest_v3 value
  | D_recovery_authorization_share_context_v3 request signer_id => D_recovery_authorization_share_context_v3 request signer_id
  | D_signer_recovery_contribution_v3 value => D_signer_recovery_contribution_v3 (src3_unsigned value)
  | D_begin_recovery_certificate_v3 value => D_begin_recovery_certificate_v3 value
  | D_signer_recovery_release_vote_v3 value => D_signer_recovery_release_vote_v3 (srrv3_unsigned value)
  | D_recovery_release_certificate_v3 value => D_recovery_release_certificate_v3 value
  | D_owner_recovery_cancel_certificate_v3 value => D_owner_recovery_cancel_certificate_v3 (orcc3_unsigned value)
  | D_owner_recovery_cancel_ack_v3 value => D_owner_recovery_cancel_ack_v3 (orca3_unsigned value)
  | D_guardian_recovery_contribution_v3 value => D_guardian_recovery_contribution_v3 (grc3_unsigned value)
  | D_guardian_share_context_v3 config_ref guardian_index => D_guardian_share_context_v3 config_ref guardian_index
  | D_guardian_fragment_context_v3 config_ref guardian_index fragment_index => D_guardian_fragment_context_v3 config_ref guardian_index fragment_index
  | D_descriptor_context_v3 config_ref => D_descriptor_context_v3 config_ref
  | D_config_capsule_body_v3 value => D_config_capsule_body_v3 (cap3_unsigned value)
  | D_guardian_policy_body_v3 value => D_guardian_policy_body_v3 (gpol3_unsigned value)
  | D_payload_context_v3 config_id payload_generation => D_payload_context_v3 config_id payload_generation
  | D_custody_challenge value => D_custody_challenge value
  | D_custody_response value => D_custody_response (crs_unsigned value)
  end.

(** Every transcript starts with its own domain string. *)
Lemma doc_transcript_domain d b :
  doc_transcript d = Ok b →
  ∃ w, Appends w ∧ transcript (domain (doc_domain d) >> w) = Ok b.
Proof.
  destruct d; intros H;
    lazymatch type of H with
    | doc_transcript ?d = _ =>
        let t := eval simpl in (doc_transcript d) in
        change (t = Ok b) in H;
        let f := lazymatch t with
          | ?f _ _ _ _ _ => f | ?f _ _ _ => f | ?f _ _ => f | ?f _ => f end in
        unfold f in H
    end;
    strip_guards H; eexists; (split; [| exact H]); apply _.
Qed.

Lemma transcripts_same_domain d1 d2 b :
  doc_transcript d1 = Ok b → doc_transcript d2 = Ok b →
  doc_domain d1 = doc_domain d2.
Proof.
  intros (w1 & ? & H1)%doc_transcript_domain (w2 & ? & H2)%doc_transcript_domain.
  unfold transcript, wseq in H1, H2. apply bind_Ok in H1 as (m1 & D1 & H1).
  apply bind_Ok in H2 as (m2 & D2 & H2).
  apply Appends_nil in H1 as (e1 & -> & _); [| done].
  apply Appends_nil in H2 as (e2 & Heq & _); [| done].
  by destruct (codes_domain _ _ _ _ _ _ D1 D2 Heq) as (_ & _ & ->).
Qed.

(** Bytes determine the kind of a transcript and all its covered content. *)
Lemma transcripts_determine d1 d2 b :
  doc_transcript d1 = Ok b → doc_transcript d2 = Ok b →
  doc_signed d1 = doc_signed d2.
Proof.
  intros H1 H2. pose proof (transcripts_same_domain _ _ _ H1 H2) as Hd.
  destruct d1; destruct d2; try discriminate Hd; clear Hd; simpl in *;
    lazymatch goal with
    | |- ?D ?a1 ?b1 ?c1 ?d1 ?e1 = ?D ?a2 ?b2 ?c2 ?d2 ?e2 =>
        cut (a1 = a2 ∧ b1 = b2 ∧ c1 = c2 ∧ d1 = d2 ∧ e1 = e2);
        [by intros (-> & -> & -> & -> & ->) |]
    | |- ?D ?a1 ?b1 ?c1 = ?D ?a2 ?b2 ?c2 =>
        cut (a1 = a2 ∧ b1 = b2 ∧ c1 = c2); [by intros (-> & -> & ->) |]
    | |- ?D ?a1 ?b1 = ?D ?a2 ?b2 =>
        cut (a1 = a2 ∧ b1 = b2); [by intros [-> ->] |]
    | |- ?D ?a1 = ?D ?a2 => cut (a1 = a2); [by intros -> |]
    end; eauto with binds nocore.
Qed.
