(* ===== verification/WireProps.v ===== *)
(** The guarantees of the wire layer: transcripts bind what they sign, frames
    round-trip, and the quorum certificates that have a transcript hold
    distinct, bound votes.  Sources: crates/gp-wire/src/lib.rs and
    crates/gp-wire/src/rotation.rs. *)

From S2P Require Export WireBinding.

(** ** Signatures are not covered *)

Lemma doc_transcript_signed d : doc_transcript (doc_signed d) = doc_transcript d.
Proof. by destruct d. Qed.

(** C7 (safety): every signed or authenticated transcript binds its content.
    Two documents, of any of the 66 kinds, have the same transcript bytes
    exactly when they are of the same kind and agree on every field except the
    signatures and other fields the transcript is documented to leave out: no
    byte string can be read as two different statements. *)
Theorem transcripts_bind d1 d2 b :
  doc_transcript d1 = Ok b →
  doc_transcript d2 = Ok b ↔ doc_signed d1 = doc_signed d2.
Proof.
  intros H1. split.
  - intros H2. by apply (transcripts_determine d1 d2 b).
  - intros H. by rewrite <- doc_transcript_signed, <- H, doc_transcript_signed.
Qed.

(** ** Frames *)

Lemma try_u32_spec n : try_u32 n = if (n <? 2 ^ 32)%mr then Some (U32 n) else None.
Proof. done. Qed.

Lemma frame_Ok p f :
  frame p = Ok f ↔ (len p ≤ MAX_FIELD_LEN)%N ∧ f = be (U32 (len p)) ++ p.
Proof.
  unfold frame. rewrite try_u32_spec.
  assert (Hmax : (MAX_FIELD_LEN < 2 ^ 32)%N) by done.
  destruct (N.ltb_spec MAX_FIELD_LEN (len p)) as [Hm | Hm].
  { split; [done | lia]. }
  destruct (N.ltb_spec (len p) (2 ^ 32)) as [Hlt | Hge]; [| lia]. simpl. split.
  - by intros [= <-].
  - by intros [_ ->].
Qed.

Lemma be_value_u32 n : (n < 2 ^ 32)%N → be_value (be (U32 n)) = n.
Proof.
  intros Hn. unfold be. rewrite be_value_be_bytes. unfold U32.
  rewrite uval_to_uint by done. by apply N.mod_small.
Qed.

Lemma deframe_Ok f p :
  deframe f = Ok p ↔ (len p ≤ MAX_FIELD_LEN)%N ∧ f = be (U32 (len p)) ++ p.
Proof.
  assert (Hmax : (MAX_FIELD_LEN < 2 ^ 32)%N) by done. unfold deframe. split.
  - destruct (N.ltb_spec (len f) 4) as [? | Hl]; [done |].
    destruct ((_ || _)%mr) eqn:E; [done |]. intros [= <-].
    rewrite orb_false_iff, N.ltb_ge, bool_decide_eq_false in E.
    destruct E as [Hle Hlen%dec_stable].
    assert (Hd : len (drop 4 f) = be_value (take 4 f)).
    { unfold len in *. rewrite length_drop. lia. }
    split; [lia |]. rewrite Hd. unfold be, U32. rewrite uval_to_uint by lia.
    assert (H4 : length (take 4 f) = 4).
    { unfold len in Hl. rewrite length_take. lia. }
    replace (N.to_nat (32 / 8)) with (length (take 4 f)) by done.
    by rewrite be_bytes_be_value, take_drop.
  - intros [Hle ->].
    assert (H4 : length (be (U32 (len p))) = 4) by exact (length_be (U32 (len p))).
    destruct (N.ltb_spec (len (be (U32 (len p)) ++ p)) 4) as [Hl |].
    { rewrite len_app in Hl. unfold len in Hl at 1. rewrite H4 in Hl. lia. }
    rewrite <- H4, take_app_length, drop_app_length, be_value_u32 by lia.
    destruct ((_ || _)%mr) eqn:E; [| done].
    rewrite orb_true_iff, N.ltb_lt, bool_decide_eq_true, len_app in E.
    destruct E as [? | Hne]; [lia |]. destruct Hne. unfold len at 1. rewrite H4. lia.
Qed.

(** (roundtrip): [deframe] is the exact inverse of [frame]: it accepts the
    frames [frame] makes and nothing else, and gives the payload back; a
    payload is framed exactly when it has at most 16 MiB. *)
Theorem frame_deframe f p :
  (deframe f = Ok p ↔ frame p = Ok f)
  ∧ (is_ok (frame p) = true ↔ (len p ≤ MAX_FIELD_LEN)%N)
  ∧ (is_ok (deframe f) = false ↔ deframe f = Err InvalidFrame).
Proof.
  split_and!.
  - by rewrite deframe_Ok, frame_Ok.
  - split.
    + destruct (frame p) as [f'|] eqn:E; [| done]. by apply frame_Ok in E as [? _].
    + intros Hle. by rewrite (proj2 (frame_Ok p _) (conj Hle eq_refl)).
  - unfold deframe. repeat case_match; by split.
Qed.

(** ** Quorums *)

Lemma unique_ids_from_Ok seen ids :
  unique_ids_from seen ids = Ok () ↔
  NoDup ids ∧ (∀ id, id ∈ ids → (1 ≤ uval id ≤ 4096)%N ∧ id ∉ seen).
Proof.
  revert seen. induction ids as [|id ids IH]; intros seen; cbn [unique_ids_from].
  { split; [| done]. split; [constructor | by intros ? ?%elem_of_nil]. }
  destruct ((_ || _)%mr) eqn:E.
  - split; [done |]. intros [_ Hall]. destruct (Hall id) as [Hr Hn]; [left |].
    rewrite !orb_true_iff, N.eqb_eq, N.ltb_lt, bool_decide_eq_true in E.
    change (uval MAX_ROTATION_ACTORS) with 4096%N in E.
    destruct E as [[? | ?] | ?]; [lia | lia | done].
  - rewrite !orb_false_iff, N.eqb_neq, N.ltb_ge, bool_decide_eq_false in E.
    change (uval MAX_ROTATION_ACTORS) with 4096%N in E. destruct E as [[H0 Hmx] Hn].
    split.
    + intros [Hnd Hall]%IH. split; [constructor; [| done] |].
      * intros Hin. destruct (Hall id Hin) as [_ Hu]. set_solver.
      * intros id' [-> | Hin]%elem_of_cons; [by split; [lia |] |].
        destruct (Hall id' Hin). split; [done | set_solver].
    + intros [Hnd Hall]. inversion_clear Hnd as [| ?? Hnotin Hnd']. apply IH.
      split; [done |]. intros id' Hin.
      destruct (Hall id') as [? ?]; [by right |]. split; [done |].
      intros [->%elem_of_singleton | ?]%elem_of_union; done.
Qed.

Lemma unique_ids_Ok ids :
  unique_ids ids = Ok () ↔
  NoDup ids ∧ ∀ id, id ∈ ids → (1 ≤ uval id ≤ 4096)%N.
Proof.
  unfold unique_ids. rewrite unique_ids_from_Ok. split.
  - intros [? Hall]. split; [done |]. intros id Hin. by apply Hall.
  - intros [? Hall]. split; [done |]. intros id Hin.
    split; [by apply Hall | apply not_elem_of_empty].
Qed.

Lemma unique_ids_from_Err seen ids e :
  unique_ids_from seen ids = Err e ↔
  ∃ l1 id l2, ids = l1 ++ id :: l2 ∧ unique_ids_from seen l1 = Ok ()
    ∧ ((id ∈ seen ∨ id ∈ l1) ∧ e = DuplicateActor
       ∨ ¬ (id ∈ seen ∨ id ∈ l1) ∧ ¬ (1 ≤ uval id ≤ 4096)%N ∧ e = InvalidValue).
Proof.
  revert seen. induction ids as [|x ids IH]; intros seen; cbn [unique_ids_from].
  { split; [done |]. by intros ([] & ? & ? & ? & _). }
  destruct ((_ || _)%mr) eqn:E.
  - split.
    + intros [= <-]. exists [], x, ids. split_and!; [done | done |].
      rewrite !orb_true_iff, N.eqb_eq, N.ltb_lt, bool_decide_eq_true in E.
      change (uval MAX_ROTATION_ACTORS) with 4096%N in E.
      case_bool_decide as Hs; [left; by split; [left |] | right].
      split_and!; [by intros [? | ?%elem_of_nil] | | done].
      destruct E as [[? | ?] | ?]; [lia | lia | done].
    + intros (l1 & id & l2 & Heq & Hok & Hor). destruct l1 as [|y l1].
      * injection Heq as <- <-. rewrite elem_of_nil in Hor.
        case_bool_decide as Hs; destruct Hor as [[? ->] | (? & ? & ->)]; tauto.
      * injection Heq as <- _. cbn [unique_ids_from] in Hok. by rewrite E in Hok.
  - rewrite IH. split.
    + intros (l1 & id & l2 & -> & Hok & Hor). exists (x :: l1), id, l2.
      cbn [unique_ids_from]. rewrite E. split_and!; [done | done |].
      revert Hor. rewrite elem_of_union, elem_of_singleton, elem_of_cons. tauto.
    + intros (l1 & id & l2 & Heq & Hok & Hor). destruct l1 as [|y l1].
      * injection Heq as <- <-. rewrite elem_of_nil in Hor.
        rewrite !orb_false_iff, N.eqb_neq, N.ltb_ge, bool_decide_eq_false in E.
        change (uval MAX_ROTATION_ACTORS) with 4096%N in E.
        destruct E as [[? ?] ?]. destruct Hor as [[? _] | (_ & Hr & _)]; [tauto |].
        destruct Hr. lia.
      * injection Heq as <- ->. cbn [unique_ids_from] in Hok. rewrite E in Hok.
        exists l1, id, l2. split_and!; [done | done |].
        revert Hor. rewrite elem_of_union, elem_of_singleton, elem_of_cons. tauto.
Qed.

(** (error): [unique_ids] accepts a quorum's ids exactly when they are
    pairwise distinct and in 1..4096; otherwise the first offending id decides
    the error, a repetition before an out-of-range value. *)
Theorem unique_ids_spec ids e :
  (unique_ids ids = Ok () ↔ NoDup ids ∧ ∀ id, id ∈ ids → (1 ≤ uval id ≤ 4096)%N)
  ∧ (unique_ids ids = Err e ↔
     ∃ l1 id l2, ids = l1 ++ id :: l2 ∧ unique_ids l1 = Ok ()
       ∧ (id ∈ l1 ∧ e = DuplicateActor
          ∨ (id ∉ l1) ∧ ¬ (1 ≤ uval id ≤ 4096)%N ∧ e = InvalidValue)).
Proof.
  split; [apply unique_ids_Ok |]. unfold unique_ids. rewrite unique_ids_from_Err.
  setoid_rewrite elem_of_empty. split; intros (l1 & id & l2 & ? & ? & Hor);
    exists l1, id, l2; split_and!; tauto.
Qed.

Lemma twice_plus_one_exact f : twice_plus_one f = Some (2 * f + 1)%N.
Proof.
  pose proof (uint_lt f). unfold twice_plus_one, checked_mul, checked_add, checked_usize.
  assert (Hb : (2 ^ 16 * 2 + 1 < 2 ^ 64)%N) by done.
  rewrite (proj2 (N.ltb_lt _ _)) by lia. simpl.
  rewrite (proj2 (N.ltb_lt _ _)) by lia. f_equal. lia.
Qed.

(** What a witness acknowledgement must share with the QC that holds it. *)
Definition ack_bound (qc : EpochActivationQc) (ack : WitnessActivationAck) : Prop :=
  ctx_protocol_version (waa_context ack) = qc_protocol_version qc
  ∧ cr_config_id (ctx_config_ref (waa_context ack)) = qc_config_id qc
  ∧ ctx_rotation_id (waa_context ack) = qc_rotation_id qc
  ∧ waa_predecessor_epoch ack = qc_predecessor_epoch qc
  ∧ waa_predecessor_capsule_hash ack = qc_predecessor_capsule_hash qc
  ∧ waa_successor_epoch ack = qc_successor_epoch qc
  ∧ waa_successor_capsule_hash ack = qc_successor_capsule_hash qc
  ∧ waa_activation_certificate_hash ack = qc_activation_certificate_hash qc.

Definition ack_ids (qc : EpochActivationQc) : list u16 :=
  waa_witness_id <$> qc_witness_acks qc.

Lemma epoch_activation_qc_Ok qc b :
  epoch_activation_qc qc = Ok b →
  qc_protocol_version qc = PROTOCOL_VERSION_V3
  ∧ qc_successor_epoch qc = sat_add (qc_predecessor_epoch qc) (U64 1)
  ∧ NoDup (ack_ids qc) ∧ (∀ id, id ∈ ack_ids qc → (1 ≤ uval id ≤ 4096)%N)
  ∧ (2 * qc_witness_fault_bound qc + 1 ≤ len (qc_witness_acks qc))%N
  ∧ (∀ ack, ack ∈ qc_witness_acks qc → ack_bound qc ack).
Proof.
  unfold epoch_activation_qc. rewrite guard_Ok, !orb_false_iff, !neb_false.
  intros [[[Hv Hs] _] H]. apply bind_Ok in H as ([] & [Hnd Hr]%unique_ids_Ok & H).
  rewrite twice_plus_one_exact in H. apply bind_Ok in H as (n & [= <-] & H).
  rewrite guard_Ok, N.ltb_ge in H. destruct H as [Hlen H].
  rewrite guard_Ok, existsb_false in H. destruct H as [Hall _].
  split_and!; [done .. |]. intros ack Hin. specialize (Hall ack Hin).
  rewrite !orb_false_iff, !neb_false in Hall. unfold ack_bound. tauto.
Qed.

(** (safety): an epoch activation QC that has a transcript carries at least
    2f+1 acknowledgements by pairwise distinct witnesses with valid ids, every
    one of them for exactly the configuration, rotation, predecessor,
    successor and activation certificate of the QC; its successor epoch is
    the one after its predecessor epoch. *)
Theorem epoch_activation_qc_quorum qc b :
  epoch_activation_qc qc = Ok b →
  (2 * qc_witness_fault_bound qc + 1 ≤ len (ack_ids qc))%N
  ∧ NoDup (ack_ids qc) ∧ (∀ id, id ∈ ack_ids qc → (1 ≤ uval id ≤ 4096)%N)
  ∧ (∀ ack, ack ∈ qc_witness_acks qc → ack_bound qc ack)
  ∧ qc_protocol_version qc = PROTOCOL_VERSION_V3
  ∧ qc_successor_epoch qc = sat_add (qc_predecessor_epoch qc) (U64 1).
Proof.
  intros (? & ? & ? & ? & Hlen & ?)%epoch_activation_qc_Ok. split_and!; try done.
  unfold len, ack_ids in *. by rewrite length_fmap.
Qed.

(** (safety): among a roster of at most 3f+1 witnesses, any two activation
    QCs with fault bound f share at least f+1 witnesses, hence one that is
    honest when at most f are faulty. *)
Theorem activation_qcs_intersect qc1 qc2 b1 b2 (roster : gset u16) (f : u16) :
  epoch_activation_qc qc1 = Ok b1 → epoch_activation_qc qc2 = Ok b2 →
  qc_witness_fault_bound qc1 = f → qc_witness_fault_bound qc2 = f →
  (∀ id, id ∈ ack_ids qc1 ∨ id ∈ ack_ids qc2 → id ∈ roster) →
  (N.of_nat (size roster) ≤ 3 * f + 1)%N →
  (f + 1 ≤ N.of_nat (size (list_to_set (ack_ids qc1) ∩ list_to_set (ack_ids qc2) : gset u16)))%N.
Proof.
  intros (_ & _ & Hn1 & _ & Hl1 & _)%epoch_activation_qc_Ok
    (_ & _ & Hn2 & _ & Hl2 & _)%epoch_activation_qc_Ok Hf1 Hf2 Hin Hsize.
  rewrite Hf1 in Hl1. rewrite Hf2 in Hl2.
  assert (Ho := size_overlap roster (list_to_set (ack_ids qc1)) (list_to_set (ack_ids qc2))
    ltac:(set_solver) ltac:(set_solver)).
  rewrite !size_list_to_set in Ho by done. unfold len, ack_ids in *.
  rewrite !length_fmap in Ho. lia.
Qed.

(** *** Signer certificates *)

(** (safety): a begin, release or activate certificate that has a transcript
    holds votes of pairwise distinct signers with valid ids, every one for the
    same rotation, plan and evidence as the certificate. *)
Theorem certificates_bind_votes :
  (∀ c b, begin_rotation_certificate c = Ok b →
     NoDup (srbv_signer_id <$> brot_votes c)
     ∧ ∀ v, v ∈ brot_votes c →
         same_rotation (brot_context c) (srbv_context v) = true
         ∧ srbv_intent_hash v = brot_intent_hash c ∧ srbv_plan_hash v = brot_plan_hash c
         ∧ srbv_old_roster_commitment v = brot_old_roster_commitment c
         ∧ srbv_new_roster_commitment v = brot_new_roster_commitment c)
  ∧ (∀ c b, rotation_release_certificate c = Ok b →
     NoDup (srrv_signer_id <$> rrc_votes c)
     ∧ ∀ v, v ∈ rrc_votes c →
         same_rotation (rrc_context c) (srrv_context v) = true
         ∧ srrv_plan_hash v = rrc_plan_hash c
         ∧ srrv_begin_certificate_hash v = rrc_begin_certificate_hash c)
  ∧ (∀ c b, rotation_activate_certificate c = Ok b →
     NoDup (srav_signer_id <$> rac_votes c)
     ∧ ∀ v, v ∈ rac_votes c →
         same_rotation (rac_context c) (srav_context v) = true
         ∧ srav_plan_hash v = rac_plan_hash c
         ∧ srav_ready_certificate_hash v = rac_ready_certificate_hash c
         ∧ srav_successor_capsule_hash v = rac_successor_capsule_hash c)
  ∧ (∀ c b, rotation_ready_certificate c = Ok b →
     NoDup (ngpa_new_guardian_index <$> ready_prepared_acks c)
     ∧ NoDup (ogha_old_guardian_index <$> ready_old_handoff_acks c)
     ∧ (∀ a, a ∈ ready_prepared_acks c →
          same_rotation (ready_context c) (ngpa_context a) = true
          ∧ ngpa_plan_hash a = ready_plan_hash c
          ∧ ngpa_dpss_result_commitment a = ready_dpss_result_commitment c
          ∧ ngpa_guardian_material_root a = ready_guardian_material_root c
          ∧ ngpa_new_guardian_index a = prl_guardian_index (ngpa_prepared_record_leaf a)
          ∧ uval (ngpa_durable_write_generation a) ≠ 0%N)
     ∧ (∀ a, a ∈ ready_old_handoff_acks c →
          same_rotation (ready_context c) (ogha_context a) = true
          ∧ ogha_plan_hash a = ready_plan_hash c
          ∧ ogha_dpss_result_commitment a = ready_dpss_result_commitment c)).
Proof.
  split_and!; intros c b H.
  1-3: unfold begin_rotation_certificate, rotation_release_certificate,
      rotation_activate_certificate in H;
    apply bind_Ok in H as ([] & [Hnd _]%unique_ids_Ok & H);
    rewrite guard_Ok, existsb_false in H; destruct H as [Hall _];
    (split; [done |]); intros v Hin; specialize (Hall v Hin);
    rewrite !orb_false_iff, !neb_false, negb_false_iff in Hall; tauto.
  unfold rotation_ready_certificate in H.
  apply bind_Ok in H as ([] & [Hnd _]%unique_ids_Ok & H).
  apply bind_Ok in H as ([] & [Hnd' _]%unique_ids_Ok & H).
  rewrite guard_Ok, orb_false_iff, !existsb_false in H. destruct H as [[Hp Ho] _].
  split_and!; [done | done | |]; intros a Hin.
  - specialize (Hp a Hin).
    rewrite !orb_false_iff, !neb_false, negb_false_iff, N.eqb_neq in Hp. tauto.
  - specialize (Ho a Hin). rewrite !orb_false_iff, !neb_false, negb_false_iff in Ho. tauto.
Qed.

(** ** Witnesses *)

Definition ex_id (n : N) : Id32 := brep 32 (byte_of_N n).
Definition ex_config (epoch marker : N) : ConfigRef := {|
  cr_config_id := ex_id 1;
  cr_payload_generation := U64 1;
  cr_authorization_epoch := U64 1;
  cr_guardian_epoch := U64 epoch;
  cr_epoch_binding := ex_id marker
|}.
Definition ex_context : RotationContext := {|
  ctx_protocol_version := PROTOCOL_VERSION_V3;
  ctx_config_ref := ex_config 1 1;
  ctx_rotation_id := ex_id 7;
  ctx_predecessor_capsule_hash := ex_id 8;
  ctx_recipient_key := [x09];
  ctx_nonce := ex_id 10;
  ctx_issued_at := U64 1;
  ctx_expiry := U64 2
|}.
Definition ex_ack (id : N) (signature : list byte) : WitnessActivationAck := {|
  waa_context := ex_context;
  waa_plan_hash := ex_id 11;
  waa_activation_certificate_hash := ex_id 12;
  waa_witness_id := U16 id;
  waa_predecessor_epoch := U64 1;
  waa_predecessor_capsule_hash := ex_id 8;
  waa_successor_epoch := U64 2;
  waa_successor_capsule_hash := ex_id 13;
  waa_witness_public_key := ex_id id;
  waa_witness_signature := signature
|}.
Definition ex_qc (ids : list N) : EpochActivationQc := {|
  qc_protocol_version := PROTOCOL_VERSION_V3;
  qc_config_id := ex_id 1;
  qc_rotation_id := ex_id 7;
  qc_predecessor_epoch := U64 1;
  qc_predecessor_capsule_hash := ex_id 8;
  qc_successor_epoch := U64 2;
  qc_successor_capsule_hash := ex_id 13;
  qc_activation_certificate_hash := ex_id 12;
  qc_witness_fault_bound := U16 1;
  qc_witness_acks := (λ id, ex_ack id [x01]) <$> ids
|}.

Lemma is_ok_Ok {E A} (r : Result E A) : is_ok r = true → ∃ a, r = Ok a.
Proof. destruct r; [by eexists | done]. Qed.

(** Two acknowledgements that differ in the signature only are bound to the
    same bytes; one that differs in the witness is not. *)
Lemma transcripts_bind_witness :
  doc_transcript (D_witness_activation_ack (ex_ack 1 [x01]))
  = doc_transcript (D_witness_activation_ack (ex_ack 1 [x02]))
  ∧ doc_transcript (D_witness_activation_ack (ex_ack 1 [x01]))
    ≠ doc_transcript (D_witness_activation_ack (ex_ack 2 [x01])).
Proof.
  destruct (is_ok_Ok (doc_transcript (D_witness_activation_ack (ex_ack 1 [x01]))))
    as [b Hb]; [by vm_compute |].
  rewrite Hb. split.
  - symmetry. by apply (transcripts_bind _ (D_witness_activation_ack (ex_ack 1 [x02])) _ Hb).
  - intros H. symmetry in H. apply (transcripts_bind _ _ _ Hb) in H.
    vm_compute in H. discriminate H.
Defined.

Lemma epoch_activation_qc_quorum_witness :
  NoDup (ack_ids (ex_qc [1; 2; 3]%N)) ∧ (2 * 1 + 1 ≤ len (ack_ids (ex_qc [1; 2; 3]%N)))%N.
Proof.
  destruct (is_ok_Ok (epoch_activation_qc (ex_qc [1; 2; 3]%N))) as [b Hb];
    [by vm_compute |].
  destruct (epoch_activation_qc_quorum _ _ Hb) as (Hl & Hn & _). by split.
Defined.

Lemma activation_qcs_intersect_witness :
  (1 + 1 ≤ N.of_nat (size (list_to_set (ack_ids (ex_qc [1; 2; 3]%N))
                      ∩ list_to_set (ack_ids (ex_qc [4; 2; 3]%N)) : gset u16)))%N.
Proof.
  destruct (is_ok_Ok (epoch_activation_qc (ex_qc [1; 2; 3]%N))) as [b1 H1]; [by vm_compute |].
  destruct (is_ok_Ok (epoch_activation_qc (ex_qc [4; 2; 3]%N))) as [b2 H2]; [by vm_compute |].
  apply (activation_qcs_intersect _ _ _ _ (list_to_set (U16 <$> [1; 2; 3; 4]%N)) (U16 1)
    H1 H2 eq_refl eq_refl).
  - intros id. rewrite elem_of_list_to_set. unfold ack_ids, ex_qc. simpl.
    rewrite !elem_of_cons, !elem_of_nil. tauto.
  - vm_compute. discriminate.
Defined.

(** With a larger roster the quorums need not meet: seven witnesses and f = 1
    give two disjoint QCs. *)
Lemma disjoint_activation_qcs :
  is_ok (epoch_activation_qc (ex_qc [1; 2; 3]%N)) = true
  ∧ is_ok (epoch_activation_qc (ex_qc [4; 5; 6]%N)) = true
  ∧ ∀ id, id ∈ ack_ids (ex_qc [1; 2; 3]%N) → id ∉ ack_ids (ex_qc [4; 5; 6]%N).
Proof.
  split_and!; [by vm_compute | by vm_compute |]. intros id H.
  unfold ack_ids in *. simpl in *. rewrite !elem_of_cons, elem_of_nil in *.
  intros H'. destruct H as [-> | [-> | [-> | []]]];
    destruct H' as [H' | [H' | [H' | []]]]; by apply (f_equal uval) in H'.
Qed.

Definition ex_activate_vote (id : N) : SignerRotationActivateVote := {|
  srav_context := ex_context;
  srav_plan_hash := ex_id 11;
  srav_ready_certificate_hash := ex_id 14;
  srav_successor_capsule_hash := ex_id 13;
  srav_signer_id := U16 id;
  srav_signer_public_key := ex_id id;
  srav_signer_membership_proof := [];
  srav_signer_signature := [x01]
|}.

Lemma certificates_bind_votes_witness :
  NoDup (srav_signer_id <$> [ex_activate_vote 1; ex_activate_vote 2]).
Proof.
  pose (c := {| rac_context := ex_context; rac_plan_hash := ex_id 11;
    rac_ready_certificate_hash := ex_id 14; rac_successor := ex_config 2 2;
    rac_successor_capsule_hash := ex_id 13;
    rac_votes := [ex_activate_vote 1; ex_activate_vote 2] |}).
  destruct (is_ok_Ok (rotation_activate_certificate c)) as [b Hb]; [by vm_compute |].
  apply (proj1 (proj2 (proj2 certificates_bind_votes)) c b Hb).
Defined.
