(* ===== verification/CoreRecovery.v ===== *)
(** The recovery state machines: crates/gp-core/src/lib.rs.

    [RecoveryMachine] is the client's side of one recovery, [GuardianMachine]
    the guardian's record of begun, cancelled and released requests.  A
    [&mut self] method is a function from the machine to the method's result
    and the machine after the call: an error does not undo a mutation, so
    both are always given.  [BTreeMap] is [gmap], [BTreeSet] is [gset]. *)

From S2P Require Export Types.

(** ** Errors, events and actions *)

Inductive CoreError : Set :=
| CErr_InvalidTransition (from : RecoveryState)
| CErr_StaleConfiguration
| CErr_Replay
| CErr_UnknownRequest
| CErr_DelayNotElapsed
| CErr_Expired
| CErr_Cancelled
| CErr_FailClosed
| CErr_RequestMismatch
| CErr_InvalidRequest.
#[export] Instance CoreError_eq_dec : EqDecision CoreError.
Proof. solve_decision. Defined.

Inductive RecoveryEvent : Set :=
| RequestCreated
| ApprovalThresholdReached
| BeginAccepted
| ReleaseCertificateReady
| GuardianThresholdReached
| OwnerCancelObserved
| ExpiryReached.
#[export] Instance RecoveryEvent_eq_dec : EqDecision RecoveryEvent.
Proof. solve_decision. Defined.

Inductive Action : Set :=
| RequestSignerApprovals
| DecryptRecoveryDescriptor
| SendBeginCertificate
| WaitUntil (not_before : u64)
| RequestReleaseVotes
| RequestGuardianContributions
| ReconstructLocally
| RefuseRelease
| ZeroizeRecoverySecrets.
#[export] Instance Action_eq_dec : EqDecision Action.
Proof. solve_decision. Defined.

(** ** The client's machine *)

Module Recovery.

Record RecoveryMachine : Set := mkRecoveryMachine {
  rm_state : RecoveryState;
  rm_not_before : option u64
}.

Definition RecoveryMachine_default : RecoveryMachine :=
  {| rm_state := RecCreated; rm_not_before := None |}.

Definition with_state (self : RecoveryMachine) (s : RecoveryState) : RecoveryMachine :=
  {| rm_state := s; rm_not_before := rm_not_before self |}.

Definition apply (self : RecoveryMachine) (event : RecoveryEvent) (now delay : u64) :
    Result CoreError (list Action) * RecoveryMachine :=
  if bool_decide (rm_state self = RecCancelled) then (Err CErr_Cancelled, self) else
  if bool_decide (rm_state self = RecExpired) then (Err CErr_Expired, self) else
  match rm_state self, event with
  | RecCreated, RequestCreated =>
      (Ok [RequestSignerApprovals], with_state self RecAwaitingApprovals)
  | RecAwaitingApprovals, ApprovalThresholdReached =>
      (Ok [DecryptRecoveryDescriptor; SendBeginCertificate],
       with_state self RecAuthorized)
  | RecAuthorized, BeginAccepted =>
      let not_before := sat_add now delay in
      (Ok [WaitUntil not_before; RequestReleaseVotes],
       {| rm_state := RecDelayPending; rm_not_before := Some not_before |})
  | RecDelayPending, ReleaseCertificateReady =>
      if (default u64_MAX (rm_not_before self) <=? now)%mr
      then (Ok [RequestGuardianContributions], with_state self RecReleasing)
      else (Err (CErr_InvalidTransition RecDelayPending), self)
  | RecReleasing, GuardianThresholdReached =>
      (Ok [ReconstructLocally; ZeroizeRecoverySecrets],
       with_state self RecCompleted)
  | (RecAwaitingApprovals | RecAuthorized | RecDelayPending), OwnerCancelObserved =>
      (Ok [RefuseRelease; ZeroizeRecoverySecrets], with_state self RecCancelled)
  | _, ExpiryReached =>
      (Ok [RefuseRelease; ZeroizeRecoverySecrets], with_state self RecExpired)
  | from, _ => (Err (CErr_InvalidTransition from), self)
  end.

(** A call as the caller makes it, and the record of what it answered. *)
Record Call : Set := mkCall {
  call_event : RecoveryEvent;
  call_now : u64;
  call_delay : u64
}.
Abbreviation Entry := (Call * Result CoreError (list Action))%type.

(** [ran h m]: the default machine answered the calls of [h], the oldest
    first, and is now [m]. *)
Inductive ran : list Entry → RecoveryMachine → Prop :=
| ran_default : ran [] RecoveryMachine_default
| ran_apply h m c r m' :
    ran h m →
    apply m (call_event c) (call_now c) (call_delay c) = (r, m') →
    ran (h ++ [(c, r)]) m'.

(** The calls that were accepted. *)
Definition accepted (h : list Entry) : list Call :=
  omap (λ e, if is_ok e.2 then Some e.1 else None) h.

(** *** What the accepted calls say about the state *)

(** [progress m l]: the accepted calls [l], oldest first, are exactly the ones
    that lead to [m]. *)
Inductive progress : RecoveryMachine → list Call → Prop :=
| pg_created : progress {| rm_state := RecCreated; rm_not_before := None |} []
| pg_awaiting c1 :
    call_event c1 = RequestCreated →
    progress {| rm_state := RecAwaitingApprovals; rm_not_before := None |} [c1]
| pg_authorized c1 c2 :
    call_event c1 = RequestCreated → call_event c2 = ApprovalThresholdReached →
    progress {| rm_state := RecAuthorized; rm_not_before := None |} [c1; c2]
| pg_pending c1 c2 c3 :
    call_event c1 = RequestCreated → call_event c2 = ApprovalThresholdReached →
    call_event c3 = BeginAccepted →
    progress {| rm_state := RecDelayPending;
                rm_not_before := Some (sat_add (call_now c3) (call_delay c3)) |}
      [c1; c2; c3]
| pg_releasing c1 c2 c3 c4 :
    call_event c1 = RequestCreated → call_event c2 = ApprovalThresholdReached →
    call_event c3 = BeginAccepted → call_event c4 = ReleaseCertificateReady →
    (sat_add (call_now c3) (call_delay c3) ≤ call_now c4)%N →
    progress {| rm_state := RecReleasing;
                rm_not_before := Some (sat_add (call_now c3) (call_delay c3)) |}
      [c1; c2; c3; c4]
| pg_completed c1 c2 c3 c4 c5 :
    call_event c1 = RequestCreated → call_event c2 = ApprovalThresholdReached →
    call_event c3 = BeginAccepted → call_event c4 = ReleaseCertificateReady →
    call_event c5 = GuardianThresholdReached →
    (sat_add (call_now c3) (call_delay c3) ≤ call_now c4)%N →
    progress {| rm_state := RecCompleted;
                rm_not_before := Some (sat_add (call_now c3) (call_delay c3)) |}
      [c1; c2; c3; c4; c5]
| pg_cancelled m l c :
    progress m l → call_event c = OwnerCancelObserved →
    rm_state m ∈ [RecAwaitingApprovals; RecAuthorized; RecDelayPending] →
    progress (with_state m RecCancelled) (l ++ [c])
| pg_expired m l c :
    progress m l → call_event c = ExpiryReached →
    rm_state m ∉ [RecCancelled; RecExpired] →
    progress (with_state m RecExpired) (l ++ [c]).

Lemma accepted_calls_snoc h c r :
  accepted (h ++ [(c, r)]) = accepted h ++ (if is_ok r then [c] else []).
Proof. unfold accepted. rewrite omap_app. simpl. by destruct r. Qed.

(** An error leaves the machine as it was. *)
Lemma recovery_apply_Err m e now delay x m' :
  apply m e now delay = (Err x, m') → m' = m.
Proof.
  unfold apply. intros H.
  repeat (case_match; simplify_eq; try done).
Qed.

Lemma progress_apply m l c acts m' :
  progress m l →
  apply m (call_event c) (call_now c) (call_delay c) = (Ok acts, m') →
  progress m' (l ++ [c]).
Proof.
  intros Hp. pose proof Hp as Hm. unfold apply.
  destruct Hp; simpl; destruct (call_event c) eqn:Ec; simpl; intros Happ;
    simplify_eq; try (econstructor; eauto; done);
    try (eapply (pg_cancelled _ _ _ Hm Ec); set_solver);
    try (eapply (pg_expired _ _ _ Hm Ec); set_solver).
  case_match eqn:Hle; simplify_eq. apply N.leb_le in Hle. by constructor.
Qed.

Lemma ran_progress h m : ran h m → progress m (accepted h).
Proof.
  induction 1 as [|h m c r m' Hr IH Ha]; [constructor |].
  rewrite accepted_calls_snoc. destruct r as [acts | e]; simpl.
  - by eapply progress_apply.
  - apply recovery_apply_Err in Ha as ->. by rewrite app_nil_r.
Qed.

(** Every accepted call can be added to a run. *)
Definition reaches (m : RecoveryMachine) (l : list Call) : Prop :=
  ∃ h, ran h m ∧ accepted h = l.

Lemma reaches_default : reaches RecoveryMachine_default [].
Proof. exists []. split; [constructor | done]. Qed.

Lemma reaches_apply m l c acts m' :
  apply m (call_event c) (call_now c) (call_delay c) = (Ok acts, m') →
  reaches m l → reaches m' (l ++ [c]).
Proof.
  intros Ha (h & Hr & <-). exists (h ++ [(c, Ok acts)]).
  split; [by econstructor | by rewrite accepted_calls_snoc].
Qed.

Lemma progress_reaches m l : progress m l → reaches m l.
Proof.
  assert (H1 : ∀ c1, call_event c1 = RequestCreated → reaches
    {| rm_state := RecAwaitingApprovals; rm_not_before := None |} [c1]).
  { intros c1 E. eapply (reaches_apply RecoveryMachine_default [] c1);
      [by rewrite E | apply reaches_default]. }
  assert (H2 : ∀ c1 c2, call_event c1 = RequestCreated →
    call_event c2 = ApprovalThresholdReached → reaches
    {| rm_state := RecAuthorized; rm_not_before := None |} [c1; c2]).
  { intros c1 c2 E1 E. eapply (reaches_apply _ [c1] c2); [| by apply H1]; by rewrite E. }
  assert (H3 : ∀ c1 c2 c3, call_event c1 = RequestCreated →
    call_event c2 = ApprovalThresholdReached → call_event c3 = BeginAccepted → reaches
    {| rm_state := RecDelayPending;
       rm_not_before := Some (sat_add (call_now c3) (call_delay c3)) |} [c1; c2; c3]).
  { intros c1 c2 c3 E1 E2 E. eapply (reaches_apply _ [c1; c2] c3); [| by apply H2]; by rewrite E. }
  assert (H4 : ∀ c1 c2 c3 c4, call_event c1 = RequestCreated →
    call_event c2 = ApprovalThresholdReached → call_event c3 = BeginAccepted →
    call_event c4 = ReleaseCertificateReady →
    (sat_add (call_now c3) (call_delay c3) ≤ call_now c4)%N → reaches
    {| rm_state := RecReleasing;
       rm_not_before := Some (sat_add (call_now c3) (call_delay c3)) |} [c1; c2; c3; c4]).
  { intros c1 c2 c3 c4 E1 E2 E3 E Hle%N.leb_le.
    eapply (reaches_apply _ [c1; c2; c3] c4); [| by apply H3].
    rewrite E. unfold apply. cbn [rm_state rm_not_before from_option id].
    rewrite !bool_decide_eq_false_2 by done. by rewrite Hle. }
  induction 1 as [| | | | | c1 c2 c3 c4 c5 E1 E2 E3 E4 E Hle
    | m l c Hp IH E Hs | m l c Hp IH E Hs]; [apply reaches_default | by auto.. | | |].
  - eapply (reaches_apply _ [c1; c2; c3; c4] c5); [| by apply H4]; by rewrite E.
  - refine (reaches_apply m l c [RefuseRelease; ZeroizeRecoverySecrets] _ _ IH).
    rewrite E. destruct m as [st nb]. by destruct st; set_unfold; naive_solver.
  - refine (reaches_apply m l c [RefuseRelease; ZeroizeRecoverySecrets] _ _ IH).
    rewrite E. destruct m as [st nb]. by destruct st; set_unfold; naive_solver.
Qed.

Lemma progress_completed m l :
  progress m l ∧ rm_state m = RecCompleted ↔
  ∃ c1 c2 c3 c4 c5, l = [c1; c2; c3; c4; c5]
    ∧ call_event c1 = RequestCreated ∧ call_event c2 = ApprovalThresholdReached
    ∧ call_event c3 = BeginAccepted ∧ call_event c4 = ReleaseCertificateReady
    ∧ call_event c5 = GuardianThresholdReached
    ∧ (sat_add (call_now c3) (call_delay c3) ≤ call_now c4)%N
    ∧ m = {| rm_state := RecCompleted;
             rm_not_before := Some (sat_add (call_now c3) (call_delay c3)) |}.
Proof.
  split.
  - intros [Hp Hs]. destruct Hp; simplify_eq/=. eauto 20.
  - intros (c1 & c2 & c3 & c4 & c5 & -> & ? & ? & ? & ? & ? & ? & ->).
    split; [by constructor | done].
Qed.

Lemma progress_length m l :
  progress m l → length l ≤ 5 + Nat.b2n (bool_decide (rm_state m = RecExpired)).
Proof.
  induction 1 as [| | | | | | m l c Hp IH E Hs | m l c Hp IH E Hs]; simpl; try lia;
    rewrite length_app; simpl.
  - destruct Hp; simpl in *; try lia; set_solver.
  - rewrite bool_decide_eq_false_2 in IH by set_solver. simpl in IH. lia.
Qed.

(** *** Properties *)

(** (functional): the recovery machine ends in [Completed] exactly after the
    five accepted calls created, approved, begun, released, reconstructed, in
    that order, the release at least the delay after the begin: no other
    sequence of calls completes, and this one always can. *)
Theorem recovery_completes_iff m l :
  (∃ h, ran h m ∧ accepted h = l ∧ rm_state m = RecCompleted) ↔
  ∃ c1 c2 c3 c4 c5, l = [c1; c2; c3; c4; c5]
    ∧ call_event c1 = RequestCreated ∧ call_event c2 = ApprovalThresholdReached
    ∧ call_event c3 = BeginAccepted ∧ call_event c4 = ReleaseCertificateReady
    ∧ call_event c5 = GuardianThresholdReached
    ∧ (sat_add (call_now c3) (call_delay c3) ≤ call_now c4)%N
    ∧ m = {| rm_state := RecCompleted;
             rm_not_before := Some (sat_add (call_now c3) (call_delay c3)) |}.
Proof.
  rewrite <- progress_completed. split.
  - intros (h & Hr & <- & Hs). by split; [apply ran_progress |].
  - intros [(h & Hr & Hl)%progress_reaches Hs]. by exists h.
Qed.

Definition terminal (s : RecoveryState) : bool :=
  bool_decide (s ∈ [RecCompleted; RecCancelled; RecExpired]).

(** C39 (termination): along every run at most six calls are accepted; a cancelled or
    expired machine answers every call with that error and does not change;
    and a machine that has accepted an owner cancel or an expiry never
    completes. *)
Theorem recovery_terminates h m :
  ran h m →
  length (accepted h) ≤ 6
  ∧ (rm_state m = RecCancelled →
     ∀ e now delay, apply m e now delay = (Err CErr_Cancelled, m))
  ∧ (rm_state m = RecExpired →
     ∀ e now delay, apply m e now delay = (Err CErr_Expired, m))
  ∧ ((∃ c, c ∈ accepted h ∧ call_event c ∈ [OwnerCancelObserved; ExpiryReached]) →
     rm_state m ∈ [RecCancelled; RecExpired]).
Proof.
  intros Hp%ran_progress. split_and!.
  - pose proof (progress_length _ _ Hp). destruct (bool_decide _); simpl in *; lia.
  - intros E e now delay. unfold apply. by rewrite E.
  - intros E e now delay. unfold apply. by rewrite E.
  - intros (c & Hc & He). rewrite !elem_of_cons, elem_of_nil in He.
    destruct Hp; cbn [rm_state with_state]; rewrite ?elem_of_cons, ?elem_of_nil in *;
      [exfalso; naive_solver congruence .. | |]; auto.
Qed.

(** (safety): the key material is handed to reconstruction only by the call
    that completes, which has left [Releasing], and an accepted call erases
    the recovery secrets exactly when it ends the recovery. *)
Theorem recovery_secret_actions m e now delay acts m' :
  apply m e now delay = (Ok acts, m') →
  (ReconstructLocally ∈ acts ↔ rm_state m = RecReleasing ∧ rm_state m' = RecCompleted)
  ∧ (ZeroizeRecoverySecrets ∈ acts ↔ terminal (rm_state m') = true)
  ∧ (RefuseRelease ∈ acts ↔ rm_state m' ∈ [RecCancelled; RecExpired]).
Proof.
  unfold apply, terminal. rewrite bool_decide_eq_true.
  destruct m as [st nb]; destruct st, e; simpl; intros H;
    repeat case_match; try discriminate; injection H as <- <-; simpl;
    rewrite ?elem_of_cons, ?elem_of_nil; naive_solver.
Qed.

(** *** Witnesses *)

Lemma ran_pending_witness : ∃ h m,
  ran h m ∧ length (accepted h) = 4 ∧ rm_state m = RecCancelled.
Proof.
  destruct (progress_reaches (with_state
    {| rm_state := RecDelayPending; rm_not_before := Some (sat_add (U64 5) (U64 3)) |}
    RecCancelled)
    ([mkCall RequestCreated (U64 1) (U64 0); mkCall ApprovalThresholdReached (U64 2) (U64 0);
     mkCall BeginAccepted (U64 5) (U64 3)] ++ [mkCall OwnerCancelObserved (U64 6) (U64 0)]))
    as (h & Hr & Hl).
  - apply pg_cancelled; [by apply (pg_pending _ _ (mkCall BeginAccepted (U64 5) (U64 3)))
      | done | set_solver].
  - exists h, (with_state
      {| rm_state := RecDelayPending; rm_not_before := Some (sat_add (U64 5) (U64 3)) |}
      RecCancelled). by rewrite Hl.
Qed.

Lemma recovery_terminates_witness : ∃ h m,
  ran h m ∧ rm_state m = RecCancelled ∧ length (accepted h) ≤ 6
  ∧ apply m BeginAccepted (U64 9) (U64 1) = (Err CErr_Cancelled, m).
Proof.
  destruct ran_pending_witness as (h & m & Hr & _ & Hs).
  destruct (recovery_terminates h m Hr) as (Hl & Hc & _ & _).
  exists h, m. split_and!; [done | done | done | by apply Hc].
Defined.

Lemma recovery_secret_actions_witness :
  ReconstructLocally ∈ [ReconstructLocally; ZeroizeRecoverySecrets]
  ∧ apply {| rm_state := RecReleasing; rm_not_before := None |}
      GuardianThresholdReached (U64 1) (U64 1)
    = (Ok [ReconstructLocally; ZeroizeRecoverySecrets],
       {| rm_state := RecCompleted; rm_not_before := None |}).
Proof.
  split; [| reflexivity].
  apply (recovery_secret_actions {| rm_state := RecReleasing; rm_not_before := None |}
    GuardianThresholdReached (U64 1) (U64 1) _
    {| rm_state := RecCompleted; rm_not_before := None |}); [reflexivity |].
  by split.
Defined.

End Recovery.

(** ** The guardian's machine *)

Module Guardian.

Record GuardianPending : Set := mkGuardianPending {
  gp_pending : PendingRecovery;
  gp_request_digest : Id32;
  gp_expiry : u64
}.

Record GuardianMachine : Set := mkGuardianMachine {
  gm_config_id : Id32;
  gm_current_version : u64;
  gm_seen : gset Id32;
  gm_seen_nonces : gset Id32;
  gm_pending : gmap Id32 GuardianPending;
  gm_cancelled : gmap Id32 Id32
}.

Definition new (config_id : Id32) (current_version : u64) : GuardianMachine := {|
  gm_config_id := config_id;
  gm_current_version := current_version;
  gm_seen := ∅;
  gm_seen_nonces := ∅;
  gm_pending := ∅;
  gm_cancelled := ∅
|}.

(** [pending.pending.state = state]. *)
Definition gp_with_state (p : GuardianPending) (state : RecoveryState) : GuardianPending :=
  {| gp_pending := {|
       pr_request_id := pr_request_id (gp_pending p);
       pr_config_id := pr_config_id (gp_pending p);
       pr_config_version := pr_config_version (gp_pending p);
       pr_recipient := pr_recipient (gp_pending p);
       pr_started_at_monotonic := pr_started_at_monotonic (gp_pending p);
       pr_not_before := pr_not_before (gp_pending p);
       pr_state := state |};
     gp_request_digest := gp_request_digest p;
     gp_expiry := gp_expiry p |}.

Definition set_pending (self : GuardianMachine)
    (pending : gmap Id32 GuardianPending) : GuardianMachine :=
  {| gm_config_id := gm_config_id self;
     gm_current_version := gm_current_version self;
     gm_seen := gm_seen self;
     gm_seen_nonces := gm_seen_nonces self;
     gm_pending := pending;
     gm_cancelled := gm_cancelled self |}.

Definition validate_request (self : GuardianMachine) (request : RecoveryRequest) :
    Result CoreError () :=
  if ((rr_protocol_version request !=? PROTOCOL_VERSION)
      || (rr_config_id request !=? gm_config_id self)
      || (rr_config_version request !=? gm_current_version self))%mr
  then Err CErr_StaleConfiguration else Ok ().

(** The pending entry a begin records. *)
Definition begun (request : RecoveryRequest) (request_digest : Id32)
    (monotonic_now not_before : u64) : GuardianPending :=
  {| gp_pending := {|
       pr_request_id := rr_request_id request;
       pr_config_id := rr_config_id request;
       pr_config_version := rr_config_version request;
       pr_recipient := rr_recovery_recipient_key request;
       pr_started_at_monotonic := monotonic_now;
       pr_not_before := not_before;
       pr_state := RecDelayPending |};
     gp_request_digest := request_digest;
     gp_expiry := rr_expiry request |}.

Definition begin_at (self : GuardianMachine) (request : RecoveryRequest)
    (request_digest : Id32) (wall_now monotonic_now delay : u64)
    (certificate_valid : bool) : Result CoreError u64 * GuardianMachine :=
  match validate_request self request with
  | Err e => (Err e, self)
  | Ok _ =>
  if negb certificate_valid then (Err CErr_FailClosed, self) else
  if (wall_now <? rr_requested_at request)%mr then (Err CErr_InvalidRequest, self) else
  if (rr_expiry request <=? wall_now)%mr then (Err CErr_Expired, self) else
  match gm_cancelled self !! rr_request_id request with
  | Some cancelled_digest =>
      (Err (if bool_decide (cancelled_digest = request_digest)
            then CErr_Cancelled else CErr_RequestMismatch), self)
  | None =>
  if bool_decide (rr_request_id request ∈ gm_seen self)
     || bool_decide (rr_nonce request ∈ gm_seen_nonces self)
  then (Err CErr_Replay, self) else
  let not_before := sat_add monotonic_now delay in
  (Ok not_before,
   {| gm_config_id := gm_config_id self;
      gm_current_version := gm_current_version self;
      gm_seen := {[rr_request_id request]} ∪ gm_seen self;
      gm_seen_nonces := {[rr_nonce request]} ∪ gm_seen_nonces self;
      gm_pending := <[rr_request_id request :=
        begun request request_digest monotonic_now not_before]> (gm_pending self);
      gm_cancelled := gm_cancelled self |})
  end end.

Definition begin (self : GuardianMachine) (request : RecoveryRequest)
    (request_digest : Id32) (now delay : u64) (certificate_valid : bool) :
    Result CoreError u64 * GuardianMachine :=
  begin_at self request request_digest now now delay certificate_valid.

Definition cancel (self : GuardianMachine) (request_id request_digest : Id32)
    (certificate_valid : bool) : Result CoreError () * GuardianMachine :=
  if negb certificate_valid then (Err CErr_FailClosed, self) else
  match gm_cancelled self !! request_id with
  | Some cancelled_digest =>
      (if bool_decide (cancelled_digest = request_digest)
       then Ok () else Err CErr_RequestMismatch, self)
  | None =>
      let cancel_with pending :=
        (Ok (),
         {| gm_config_id := gm_config_id self;
            gm_current_version := gm_current_version self;
            gm_seen := gm_seen self;
            gm_seen_nonces := gm_seen_nonces self;
            gm_pending := pending;
            gm_cancelled := <[request_id := request_digest]> (gm_cancelled self) |}) in
      match gm_pending self !! request_id with
      | Some pending =>
          if bool_decide (gp_request_digest pending ≠ request_digest)
          then (Err CErr_RequestMismatch, self)
          else cancel_with
                 (<[request_id := gp_with_state pending RecCancelled]> (gm_pending self))
      | None => cancel_with (gm_pending self)
      end
  end.

Definition authorize_release_at (self : GuardianMachine)
    (request_id request_digest : Id32) (wall_now monotonic_now : u64)
    (certificate_valid state_unambiguous : bool) :
    Result CoreError () * GuardianMachine :=
  match gm_cancelled self !! request_id with
  | Some cancelled_digest =>
      (Err (if bool_decide (cancelled_digest = request_digest)
            then CErr_Cancelled else CErr_RequestMismatch), self)
  | None =>
  if negb certificate_valid || negb state_unambiguous
  then (Err CErr_FailClosed, self) else
  match gm_pending self !! request_id with
  | None => (Err CErr_UnknownRequest, self)
  | Some pending =>
  let become state := set_pending self
    (<[request_id := gp_with_state pending state]> (gm_pending self)) in
  if bool_decide (gp_request_digest pending ≠ request_digest)
  then (Err CErr_RequestMismatch, self) else
  if (gp_expiry pending <=? wall_now)%mr
  then (Err CErr_Expired, become RecExpired) else
  if (monotonic_now <? pr_not_before (gp_pending pending))%mr
  then (Err CErr_DelayNotElapsed, self) else
  (Ok (), become RecReleasing)
  end end.

Definition authorize_release (self : GuardianMachine)
    (request_id request_digest : Id32) (now : u64)
    (certificate_valid state_unambiguous : bool) :
    Result CoreError () * GuardianMachine :=
  authorize_release_at self request_id request_digest now now
    certificate_valid state_unambiguous.

Definition state (self : GuardianMachine) (request_id : Id32) : option RecoveryState :=
  if bool_decide (is_Some (gm_cancelled self !! request_id))
  then Some RecCancelled
  else (λ entry, pr_state (gp_pending entry)) <$> gm_pending self !! request_id.

(** *** Calls and runs *)

Inductive Op : Set :=
| OpBegin (request : RecoveryRequest) (request_digest : Id32)
    (wall_now monotonic_now delay : u64) (certificate_valid : bool)
| OpCancel (request_id request_digest : Id32) (certificate_valid : bool)
| OpRelease (request_id request_digest : Id32) (wall_now monotonic_now : u64)
    (certificate_valid state_unambiguous : bool).

(** The answer of a call, without the deadline a begin returns. *)
Definition step (self : GuardianMachine) (op : Op) :
    Result CoreError () * GuardianMachine :=
  match op with
  | OpBegin request dg wall mono delay valid =>
      let '(r, m) := begin_at self request dg wall mono delay valid in
      ((λ _, ()) <$> r, m)
  | OpCancel id dg valid => cancel self id dg valid
  | OpRelease id dg wall mono valid unambiguous =>
      authorize_release_at self id dg wall mono valid unambiguous
  end.

Abbreviation Entry := (Op * Result CoreError ())%type.

(** [ran c v h m]: the machine [new c v] answered the calls of [h], the most
    recent first, and is now [m]. *)
Inductive ran (c : Id32) (v : u64) : list Entry → GuardianMachine → Prop :=
| ran_new : ran c v [] (new c v)
| ran_step h m op r m' :
    ran c v h m → step m op = (r, m') → ran c v ((op, r) :: h) m'.

(** *** The machine as a function of its history

    The four lookups below read the log of answered calls only; [tracks] says
    the machine holds exactly what they give. *)

Fixpoint begun_as (h : list Entry) (id : Id32) : option (RecoveryRequest * Id32 * u64) :=
  match h with
  | [] => None
  | (OpBegin req dg _ mono delay _, Ok _) :: h =>
      if bool_decide (rr_request_id req = id)
      then Some (req, dg, sat_add mono delay) else begun_as h id
  | _ :: h => begun_as h id
  end.

Fixpoint cancelled_as (h : list Entry) (id : Id32) : option Id32 :=
  match h with
  | [] => None
  | (OpCancel id' dg _, Ok _) :: h =>
      if bool_decide (id' = id) then Some dg else cancelled_as h id
  | _ :: h => cancelled_as h id
  end.

(** The requests of the accepted begins. *)
Definition begins (h : list Entry) : list RecoveryRequest :=
  omap (λ e, match e with (OpBegin req _ _ _ _ _, Ok _) => Some req | _ => None end) h.

(** What the entries tell of the last outcome for a request that has not been
    cancelled: begun, released, or found expired by a release. *)
Fixpoint last_outcome (h : list Entry) (id : Id32) : option RecoveryState :=
  match h with
  | [] => None
  | (OpBegin req _ _ _ _ _, Ok _) :: h =>
      if bool_decide (rr_request_id req = id) then Some RecDelayPending
      else last_outcome h id
  | (OpRelease id' _ _ _ _ _, Ok _) :: h =>
      if bool_decide (id' = id) then Some RecReleasing else last_outcome h id
  | (OpRelease id' _ _ _ _ _, Err CErr_Expired) :: h =>
      if bool_decide (id' = id) then Some RecExpired else last_outcome h id
  | _ :: h => last_outcome h id
  end.

Definition gp_view (p : GuardianPending) : Id32 * u64 * u64 :=
  (gp_request_digest p, gp_expiry p, pr_not_before (gp_pending p)).
Definition begun_view (b : RecoveryRequest * Id32 * u64) : Id32 * u64 * u64 :=
  (b.1.2, rr_expiry b.1.1, b.2).

Record tracks (c : Id32) (v : u64) (h : list Entry) (m : GuardianMachine) : Prop := {
  tr_config : gm_config_id m = c;
  tr_version : gm_current_version m = v;
  tr_seen : gm_seen m = list_to_set (rr_request_id <$> begins h);
  tr_nonces : gm_seen_nonces m = list_to_set (rr_nonce <$> begins h);
  tr_cancelled id : gm_cancelled m !! id = cancelled_as h id;
  tr_pending id : gp_view <$> gm_pending m !! id = begun_view <$> begun_as h id;
  tr_state id : cancelled_as h id = None →
    (λ p, pr_state (gp_pending p)) <$> gm_pending m !! id = last_outcome h id
}.

(** *** Each operation, inverted *)

Lemma validate_request_Ok m req u :
  validate_request m req = Ok u ↔
  rr_protocol_version req = PROTOCOL_VERSION ∧ rr_config_id req = gm_config_id m
  ∧ rr_config_version req = gm_current_version m.
Proof.
  unfold validate_request. destruct u.
  destruct ((_ || _)%mr) eqn:E; split; intros H; try done.
  - rewrite !orb_true_iff, !bool_decide_eq_true in E. naive_solver.
  - rewrite !orb_false_iff, !bool_decide_eq_false in E.
    destruct E as [[?%dec_stable ?%dec_stable] ?%dec_stable]. done.
Qed.

(** When a begin is accepted. *)
Definition begin_ok (m : GuardianMachine) (req : RecoveryRequest)
    (wall : u64) (valid : bool) : Prop :=
  rr_protocol_version req = PROTOCOL_VERSION
  ∧ rr_config_id req = gm_config_id m ∧ rr_config_version req = gm_current_version m
  ∧ valid = true ∧ (rr_requested_at req ≤ wall)%N ∧ (wall < rr_expiry req)%N
  ∧ gm_cancelled m !! rr_request_id req = None
  ∧ (rr_request_id req ∉ gm_seen m) ∧ (rr_nonce req ∉ gm_seen_nonces m).

Lemma begin_at_cases m req dg wall mono delay valid r m' :
  begin_at m req dg wall mono delay valid = (r, m') →
  (∃ e, r = Err e ∧ m' = m ∧ ¬ begin_ok m req wall valid)
  ∨ (r = Ok (sat_add mono delay) ∧ begin_ok m req wall valid
     ∧ m' = {| gm_config_id := gm_config_id m;
               gm_current_version := gm_current_version m;
               gm_seen := {[rr_request_id req]} ∪ gm_seen m;
               gm_seen_nonces := {[rr_nonce req]} ∪ gm_seen_nonces m;
               gm_pending := <[rr_request_id req :=
                 begun req dg mono (sat_add mono delay)]> (gm_pending m);
               gm_cancelled := gm_cancelled m |}).
Proof.
  unfold begin_at, begin_ok. intros H.
  destruct (validate_request m req) as [u|] eqn:Ev.
  2: { left. injection H as <- <-. eexists. split_and!; [done | done |].
       intros (Hp & Hc & Hv & _). destruct (validate_request_Ok m req ()) as [_ Hok].
       rewrite Hok in Ev; done. }
  apply validate_request_Ok in Ev as (? & ? & ?).
  destruct valid; simpl in H.
  2: { left. injection H as <- <-. eexists. split_and!; [done | done | naive_solver]. }
  destruct (wall <? rr_requested_at req)%mr eqn:Ea.
  { left. injection H as <- <-. apply N.ltb_lt in Ea.
    eexists. split_and!; [done | done |]. intros (?&?&?&?&?&?). lia. }
  destruct (rr_expiry req <=? wall)%mr eqn:Ee.
  { left. injection H as <- <-. apply N.leb_le in Ee.
    eexists. split_and!; [done | done |]. intros (?&?&?&?&?&?&?). lia. }
  apply N.ltb_ge in Ea. apply N.leb_gt in Ee.
  destruct (gm_cancelled m !! _) eqn:Ec.
  { left. injection H as <- <-. eexists. split_and!; [done | done | naive_solver]. }
  destruct (_ || _) eqn:Es.
  - left. injection H as <- <-. rewrite orb_true_iff, !bool_decide_eq_true in Es.
    eexists. split_and!; [done | done | naive_solver].
  - right. injection H as <- <-. rewrite orb_false_iff, !bool_decide_eq_false in Es.
    split_and!; naive_solver.
Qed.

Lemma guardian_cancel_cases m id dg valid r m' :
  cancel m id dg valid = (r, m') →
  (∃ e, r = Err e ∧ m' = m
     ∧ (valid = false ∧ e = CErr_FailClosed
        ∨ valid = true ∧ e = CErr_RequestMismatch
          ∧ ((∃ d, gm_cancelled m !! id = Some d ∧ d ≠ dg)
             ∨ gm_cancelled m !! id = None
               ∧ ∃ p, gm_pending m !! id = Some p ∧ gp_request_digest p ≠ dg)))
  ∨ (r = Ok () ∧ valid = true
     ∧ (gm_cancelled m !! id = Some dg ∧ m' = m
        ∨ gm_cancelled m !! id = None
          ∧ (∀ p, gm_pending m !! id = Some p → gp_request_digest p = dg)
          ∧ m' = {| gm_config_id := gm_config_id m;
                    gm_current_version := gm_current_version m;
                    gm_seen := gm_seen m;
                    gm_seen_nonces := gm_seen_nonces m;
                    gm_pending := alter (λ p, gp_with_state p RecCancelled) id (gm_pending m);
                    gm_cancelled := <[id := dg]> (gm_cancelled m) |})).
Proof.
  unfold cancel. intros H. destruct valid; simpl in H.
  2: { injection H as <- <-. left. naive_solver. }
  destruct (gm_cancelled m !! id) as [d|] eqn:Ec.
  { case_bool_decide; injection H as <- <-; [subst; naive_solver |].
    left. eexists. split_and!; [done | done |]. naive_solver. }
  destruct (gm_pending m !! id) as [p|] eqn:Ep.
  - case_bool_decide as Hd; injection H as <- <-; [left; naive_solver |].
    right. split_and!; [done | done |]. right.
    split_and!; [done | naive_solver |]. f_equal.
    by apply (insert_alter (λ p, gp_with_state p RecCancelled)).
  - injection H as <- <-. right. split_and!; [done | done |]. right.
    split_and!; [done | done |]. f_equal.
    apply map_eq. intros i. destruct (decide (i = id)) as [-> |].
    + by rewrite lookup_alter_eq, Ep.
    + by rewrite lookup_alter_ne by done.
Qed.

Definition release_ok (m : GuardianMachine) (id dg : Id32) (wall mono : u64)
    (valid unambiguous : bool) : Prop :=
  gm_cancelled m !! id = None ∧ valid = true ∧ unambiguous = true
  ∧ ∃ p, gm_pending m !! id = Some p ∧ gp_request_digest p = dg
      ∧ (wall < gp_expiry p)%N ∧ (pr_not_before (gp_pending p) ≤ mono)%N.

Lemma authorize_release_at_cases m id dg wall mono valid unambiguous r m' :
  authorize_release_at m id dg wall mono valid unambiguous = (r, m') →
  (r = Ok () ∧ release_ok m id dg wall mono valid unambiguous
   ∧ m' = set_pending m (alter (λ p, gp_with_state p RecReleasing) id (gm_pending m)))
  ∨ (r = Err CErr_Expired ∧ ¬ release_ok m id dg wall mono valid unambiguous
     ∧ is_Some (gm_pending m !! id) ∧ gm_cancelled m !! id = None
     ∧ m' = set_pending m (alter (λ p, gp_with_state p RecExpired) id (gm_pending m)))
  ∨ (∃ e, r = Err e ∧ e ≠ CErr_Expired ∧ m' = m
     ∧ ¬ release_ok m id dg wall mono valid unambiguous).
Proof.
  unfold authorize_release_at, release_ok. intros H.
  destruct (gm_cancelled m !! id) as [d|] eqn:Ec.
  { injection H as <- <-. right; right. eexists. split_and!; [done | | done |];
      [by case_bool_decide | naive_solver]. }
  destruct valid, unambiguous; simpl in H;
    try (injection H as <- <-; right; right; naive_solver).
  destruct (gm_pending m !! id) as [p|] eqn:Ep.
  2: { injection H as <- <-. right; right; naive_solver. }
  case_bool_decide as Hd; [injection H as <- <-; right; right; naive_solver |].
  destruct (gp_expiry p <=? wall)%mr eqn:Ee.
  { apply N.leb_le in Ee. injection H as <- <-. right; left.
    split_and!; [done | | done | done |
      by rewrite <- (insert_alter (λ p, gp_with_state p RecExpired) _ p)].
    intros (_&_&_&q&[= <-]&_&?&_). lia. }
  apply N.leb_gt in Ee.
  destruct (mono <? pr_not_before (gp_pending p))%mr eqn:En.
  { apply N.ltb_lt in En. injection H as <- <-. right; right.
    eexists. split_and!; [done | done | done |].
    intros (_&_&_&q&[= <-]&_&_&?). lia. }
  apply N.ltb_ge in En. injection H as <- <-. left.
  split; [done |]. split; [naive_solver |].
  by rewrite <- (insert_alter (λ p, gp_with_state p RecReleasing) _ p).
Qed.

(** *** Every run is tracked by its history *)

Lemma tracks_new c v : tracks c v [] (new c v).
Proof. by split; intros; simpl; rewrite ?lookup_empty. Qed.

Lemma lookup_state_alter st id id' (p : gmap Id32 GuardianPending) :
  (λ p, pr_state (gp_pending p)) <$> alter (λ p, gp_with_state p st) id p !! id'
  = if bool_decide (id = id') then (λ _, st) <$> p !! id'
    else (λ p, pr_state (gp_pending p)) <$> p !! id'.
Proof.
  case_bool_decide as E.
  - subst. rewrite lookup_alter_eq. by destruct (p !! id').
  - by rewrite lookup_alter_ne.
Qed.

Lemma guardian_ran_tracks c v h m : ran c v h m → tracks c v h m.
Proof.
  induction 1 as [|h m op r m' Hr IH Hs]; [apply tracks_new |].
  destruct IH as [Hc Hv Hse Hno Hca Hpe Hst].
  destruct op as [req dg wall mono delay valid | id dg valid
    | id dg wall mono valid unambiguous]; simpl in Hs.
  - destruct (begin_at _ _ _ _ _ _ _) as [r0 m0] eqn:Hb.
    injection Hs as <- <-.
    apply begin_at_cases in Hb as [(e & -> & -> & _) | (-> & Hok & ->)]; [by split |].
    destruct Hok as (_&_&_&_&_&_&Hnc&_&_).
    split; simpl; try done; [by rewrite Hse | by rewrite Hno | |].
    + intros id. case_bool_decide as E.
      * subst. by rewrite lookup_insert_eq.
      * by rewrite lookup_insert_ne.
    + intros id Hid. case_bool_decide as E.
      * subst. by rewrite lookup_insert_eq.
      * rewrite lookup_insert_ne by done. by apply Hst.
  - apply guardian_cancel_cases in Hs as [(e & -> & -> & _) | (-> & _ & Hs)]; [by split |].
    destruct Hs as [[Hd ->] | (Hd & Hp & ->)]; split; simpl; try done.
    + intros id'. case_bool_decide as E; [by subst | done].
    + intros id'. case_bool_decide as E; [done | by apply Hst].
    + intros id'. case_bool_decide as E.
      * subst. by rewrite lookup_insert_eq.
      * by rewrite lookup_insert_ne.
    + intros id'. by rewrite (lookup_fmap_alter gp_view).
    + intros id'. case_bool_decide as E; [done |]. intros Hid.
      rewrite lookup_alter_ne by done. by apply Hst.
  - apply authorize_release_at_cases in Hs
      as [(-> & Hok & ->) | [(-> & _ & [p Hp] & Hnc & ->) | (e & -> & He & -> & _)]];
      split; simpl; try done.
    + intros id'. by rewrite (lookup_fmap_alter gp_view).
    + intros id' Hid. rewrite lookup_state_alter. destruct Hok as (_&_&_&p&Hp&_).
      case_bool_decide; [subst; by rewrite Hp | by apply Hst].
    + intros id'. by rewrite (lookup_fmap_alter gp_view).
    + intros id' Hid. rewrite lookup_state_alter.
      case_bool_decide; [subst; by rewrite Hp | by apply Hst].
    + intros id' Hid. destruct e; try done; by apply Hst.
Qed.

(** *** The entries behind the lookups *)

Lemma ran_begin_entry c v h m req dg wall mono delay valid u :
  ran c v h m → (OpBegin req dg wall mono delay valid, Ok u) ∈ h →
  rr_protocol_version req = PROTOCOL_VERSION ∧ rr_config_id req = c
  ∧ rr_config_version req = v ∧ valid = true
  ∧ (rr_requested_at req ≤ wall)%N ∧ (wall < rr_expiry req)%N.
Proof.
  induction 1 as [|h m op r m' Hr IH Hs]; [set_solver |].
  intros [Heq | Hin]%elem_of_cons; [| by apply IH].
  injection Heq as <- <-. simpl in Hs.
  destruct (begin_at _ _ _ _ _ _ _) as [r0 m0] eqn:Hb.
  apply begin_at_cases in Hb as [(e & -> & _) | (_ & Hok & _)]; [done |].
  apply guardian_ran_tracks in Hr as [Hc Hv _ _ _ _ _].
  destruct Hok as (?&?&?&?&?&?&_). by subst.
Qed.

Lemma guardian_begun_as_Some h id req dg t :
  begun_as h id = Some (req, dg, t) →
  rr_request_id req = id ∧ ∃ wall mono delay valid u,
    (OpBegin req dg wall mono delay valid, Ok u) ∈ h ∧ t = sat_add mono delay.
Proof.
  induction h as [|[op r] h IH]; [done |].
  assert (Hrec : begun_as h id = Some (req, dg, t) →
    rr_request_id req = id ∧ ∃ wall mono delay valid u,
    (OpBegin req dg wall mono delay valid, Ok u) ∈ (op, r) :: h
    ∧ t = sat_add mono delay).
  { intros (? & wall & mono & delay & valid & u & ? & ?)%IH. split; [done |].
    exists wall, mono, delay, valid, u. by split; [right |]. }
  destruct op, r; simpl; try done.
  case_bool_decide as E; [| done]. intros [= <- <- <-].
  split; [done |]. do 5 eexists. split; [by left | done].
Qed.

Lemma guardian_cancelled_as_Some h id dg :
  cancelled_as h id = Some dg → ∃ valid u, (OpCancel id dg valid, Ok u) ∈ h.
Proof.
  induction h as [|[op r] h IH]; [done |].
  assert (Hrec : cancelled_as h id = Some dg →
    ∃ valid u, (OpCancel id dg valid, Ok u) ∈ (op, r) :: h).
  { intros (valid & u & ?)%IH. exists valid, u. by right. }
  destruct op, r; simpl; try done.
  case_bool_decide as E; [| done]. intros [= <-]. subst. do 2 eexists. by left.
Qed.

(** An accepted cancel fixes the recorded digest for the rest of the run. *)
Lemma guardian_cancel_entry c v h m id dg valid u :
  ran c v h m → (OpCancel id dg valid, Ok u) ∈ h →
  valid = true ∧ cancelled_as h id = Some dg.
Proof.
  induction 1 as [|h m op r m' Hr IH Hs]; [set_solver |].
  pose proof (guardian_ran_tracks _ _ _ _ Hr) as Ht.
  intros [Heq | Hin]%elem_of_cons.
  - injection Heq as <- <-. simpl in *.
    apply guardian_cancel_cases in Hs as [(e & ? & _) | (_ & -> & _)]; [done |].
    by rewrite bool_decide_eq_true_2.
  - destruct (IH Hin) as [-> Hd]. split; [done |].
    destruct op as [| id' dg' valid' |], r; simpl; try done.
    case_bool_decide; [subst id' | done].
    apply guardian_cancel_cases in Hs as [(e & ? & _) | (_ & -> & Hs)]; [done |].
    rewrite (tr_cancelled _ _ _ _ Ht), Hd in Hs. naive_solver.
Qed.

Lemma guardian_begun_entry c v h m req dg wall mono delay valid u :
  ran c v h m → (OpBegin req dg wall mono delay valid, Ok u) ∈ h →
  begun_as h (rr_request_id req) = Some (req, dg, sat_add mono delay).
Proof.
  induction 1 as [|h m op r m' Hr IH Hs]; [set_solver |].
  pose proof (guardian_ran_tracks _ _ _ _ Hr) as Ht.
  intros [Heq | Hin]%elem_of_cons.
  - injection Heq as <- <-. simpl. by rewrite bool_decide_eq_true_2.
  - specialize (IH Hin). destruct op, r; simpl; try done.
    case_bool_decide as E; [| done]. simpl in Hs.
    destruct (begin_at _ _ _ _ _ _ _) as [r0 m0] eqn:Hb.
    apply begin_at_cases in Hb as [(e & -> & _) | (_ & Hok & _)]; [done |].
    destruct Hok as (_&_&_&_&_&_&_&Hns&_).
    destruct Hns. rewrite (tr_seen _ _ _ _ Ht), E. apply elem_of_list_to_set, list_elem_of_fmap.
    exists req. split; [done |]. apply list_elem_of_omap. by eexists.
Qed.

Lemma step_begin m req dg wall mono delay valid :
  (step m (OpBegin req dg wall mono delay valid)).1
  = (λ _, ()) <$> (begin_at m req dg wall mono delay valid).1.
Proof. simpl. by destruct (begin_at _ _ _ _ _ _ _). Qed.

Lemma guardian_uncancelled c v h m id :
  ran c v h m →
  gm_cancelled m !! id = None ↔ ∀ dg b u, (OpCancel id dg b, Ok u) ∉ h.
Proof.
  intros Hr. rewrite (tr_cancelled _ _ _ _ (guardian_ran_tracks _ _ _ _ Hr)). split.
  - intros Hn dg b u [_ ?]%(guardian_cancel_entry _ _ _ _ _ _ _ _ Hr). congruence.
  - intros Hn. destruct (cancelled_as h id) as [d|] eqn:E; [| done].
    apply guardian_cancelled_as_Some in E as (b & u & Hin). by destruct (Hn _ _ _ Hin).
Qed.

(** *** Properties *)

(** C13 (refinement): a release is authorised exactly when the history allows
    it: valid evidence, no accepted cancel of the request, and an accepted
    begin of the same request and digest, made for this configuration inside
    the request's validity window, whose delay has passed on the monotonic
    clock while the request is not expired on the wall clock. *)
Theorem guardian_release_iff c v h m id dg wall mono valid unambiguous :
  ran c v h m →
  (step m (OpRelease id dg wall mono valid unambiguous)).1 = Ok () ↔
  valid = true ∧ unambiguous = true
  ∧ (∀ dg' b u, (OpCancel id dg' b, Ok u) ∉ h)
  ∧ ∃ req w0 m0 delay,
      (OpBegin req dg w0 m0 delay true, Ok ()) ∈ h
      ∧ rr_request_id req = id ∧ rr_config_id req = c ∧ rr_config_version req = v
      ∧ (rr_requested_at req ≤ w0 < rr_expiry req)%N
      ∧ (sat_add m0 delay ≤ mono)%N ∧ (wall < rr_expiry req)%N.
Proof.
  intros Hr. pose proof (guardian_ran_tracks _ _ _ _ Hr) as Ht. simpl.
  transitivity (release_ok m id dg wall mono valid unambiguous).
  { destruct (authorize_release_at _ _ _ _ _ _ _) as [r m'] eqn:E.
    apply authorize_release_at_cases in E
      as [(-> & ? & _) | [(-> & ? & _) | (e & -> & _ & _ & ?)]]; simpl; split; intros; done. }
  pose proof (tr_pending _ _ _ _ Ht id) as Hp. unfold release_ok.
  rewrite (tr_cancelled _ _ _ _ Ht). split.
  - intros (Hc & -> & -> & p & Hq & <- & Hw & Hn). rewrite Hq in Hp. simpl in Hp.
    destruct (begun_as h id) as [[[req dg] t]|] eqn:Eb; [| done].
    unfold gp_view, begun_view in Hp. simpl in Hp. injection Hp as -> He Ht'.
    apply guardian_begun_as_Some in Eb as (<- & w0 & m0 & delay & valid & [] & Hin & ->).
    pose proof (ran_begin_entry _ _ _ _ _ _ _ _ _ _ _ Hr Hin) as (_&?&?&->&?&?).
    rewrite Ht' in Hn. rewrite He in Hw.
    split_and!; [done | done | | exists req, w0, m0, delay; by split_and!].
    intros dg' b u Hcan. apply (guardian_cancel_entry _ _ _ _ _ _ _ _ Hr) in Hcan as [_ ?].
    congruence.
  - intros (-> & -> & Hnc & req & w0 & m0 & delay & Hin & Hid & _ & _ & _ & Hn & Hw).
    apply (guardian_begun_entry _ _ _ _ _ _ _ _ _ _ _ Hr) in Hin. rewrite Hid in Hin.
    rewrite Hin in Hp. simpl in Hp.
    destruct (gm_pending m !! id) as [p|] eqn:Eq; [| done]. simpl in Hp.
    unfold gp_view, begun_view in Hp. simpl in Hp. injection Hp as Hd He Ht'.
    split_and!; [| done | done |].
    + destruct (cancelled_as h id) as [d|] eqn:Ec; [| done].
      apply guardian_cancelled_as_Some in Ec as (b & u & Hcan). by destruct (Hnc d b u).
    + exists p. rewrite He, Ht'. by split_and!.
Qed.

(** (safety): an accepted cancel is final.  In every later state of the
    guardian the request's state is [Cancelled], a release is refused with
    [Cancelled] or, for another digest, [RequestMismatch], and no begin for
    that request id is accepted. *)
Theorem guardian_cancel_permanent c v h m id dg b u :
  ran c v h m → (OpCancel id dg b, Ok u) ∈ h →
  state m id = Some RecCancelled
  ∧ (∀ dg' wall mono valid unambiguous,
       authorize_release_at m id dg' wall mono valid unambiguous
       = (Err (if bool_decide (dg = dg') then CErr_Cancelled
               else CErr_RequestMismatch), m))
  ∧ (∀ req dg' wall mono delay valid, rr_request_id req = id →
       ∃ e, begin_at m req dg' wall mono delay valid = (Err e, m)).
Proof.
  intros Hr Hin. pose proof (guardian_ran_tracks _ _ _ _ Hr) as Ht.
  destruct (guardian_cancel_entry _ _ _ _ _ _ _ _ Hr Hin) as [_ Hc].
  rewrite <- (tr_cancelled _ _ _ _ Ht) in Hc. split_and!.
  - unfold state. by rewrite Hc.
  - intros. unfold authorize_release_at. by rewrite Hc.
  - intros req dg' wall mono delay valid <-.
    destruct (begin_at _ _ _ _ _ _ _) as [r m'] eqn:E.
    apply begin_at_cases in E as [(e & -> & -> & _) | (_ & Hok & _)]; [by exists e |].
    destruct Hok as (_&_&_&_&_&_&?&_). congruence.
Qed.

(** (refinement): a begin is accepted exactly when the evidence is valid,
    the request is for this configuration and inside its validity window, its
    id has not been cancelled, and neither its id nor its nonce was used by an
    earlier accepted begin; it then answers the saturated deadline. *)
Theorem guardian_begin_iff c v h m req dg wall mono delay valid t :
  ran c v h m →
  (begin_at m req dg wall mono delay valid).1 = Ok t ↔
  t = sat_add mono delay ∧ valid = true
  ∧ rr_protocol_version req = PROTOCOL_VERSION
  ∧ rr_config_id req = c ∧ rr_config_version req = v
  ∧ (rr_requested_at req ≤ wall < rr_expiry req)%N
  ∧ (∀ dg' b u, (OpCancel (rr_request_id req) dg' b, Ok u) ∉ h)
  ∧ (∀ req', req' ∈ begins h →
       rr_request_id req' ≠ rr_request_id req ∧ rr_nonce req' ≠ rr_nonce req).
Proof.
  intros Hr. pose proof (guardian_ran_tracks _ _ _ _ Hr) as Ht.
  transitivity (t = sat_add mono delay ∧ begin_ok m req wall valid).
  { destruct (begin_at _ _ _ _ _ _ _) as [r m'] eqn:E.
    apply begin_at_cases in E as [(e & -> & _ & ?) | (-> & ? & _)]; simpl.
    - by split; [| intros [_ ?]].
    - split; [by intros [= <-] | by intros [-> _]]. }
  unfold begin_ok. rewrite (guardian_uncancelled _ _ _ _ _ Hr), (tr_seen _ _ _ _ Ht),
    (tr_nonces _ _ _ _ Ht), (tr_config _ _ _ _ Ht), (tr_version _ _ _ _ Ht),
    !elem_of_list_to_set, !list_elem_of_fmap. split.
  - intros (?&?&?&?&?&?&?&?&Hid&Hno). split_and!; try done. intros req' Hin.
    split; intros ?; [apply Hid | apply Hno]; by exists req'.
  - intros (?&?&?&?&?&[??]&?&Hold). split_and!; try done.
    + intros (req' & ? & Hin). by destruct (Hold _ Hin).
    + intros (req' & ? & Hin). by destruct (Hold _ Hin).
Qed.

(** (refinement): a valid owner cancel is accepted, whatever the state of
    the request, unless that request was cancelled or begun under another
    digest: the owner can stop every recovery the guardian knows of, and one
    it has not heard of yet. *)
Theorem guardian_cancel_iff c v h m id dg valid :
  ran c v h m →
  (cancel m id dg valid).1 = Ok () ↔
  valid = true
  ∧ (∀ dg' b u, (OpCancel id dg' b, Ok u) ∈ h → dg' = dg)
  ∧ (∀ req dg' wall mono delay b u,
       (OpBegin req dg' wall mono delay b, Ok u) ∈ h →
       rr_request_id req = id →
       dg' = dg ∨ ∃ b' u', (OpCancel id dg b', Ok u') ∈ h).
Proof.
  intros Hr. pose proof (guardian_ran_tracks _ _ _ _ Hr) as Ht.
  pose proof (guardian_uncancelled _ _ _ _ id Hr) as Hcan.
  destruct (cancel m id dg valid) as [r m'] eqn:E. simpl.
  apply guardian_cancel_cases in E as [(e & -> & _ & Hc) | (-> & -> & Hc)].
  - split; [done |]. intros (-> & Hsame & Hor).
    destruct Hc as [[? _] | (_ & _ & [(d & Hd & Hne) | (Hn & p & Hp & Hne)])]; [done | |].
    + rewrite (tr_cancelled _ _ _ _ Ht) in Hd.
      apply guardian_cancelled_as_Some in Hd as (b & u & Hin). by apply Hsame in Hin.
    + pose proof (tr_pending _ _ _ _ Ht id) as Hv. rewrite Hp in Hv.
      destruct (begun_as h id) as [[[req dg'] t]|] eqn:Eb; [| done].
      apply guardian_begun_as_Some in Eb as (Hid & w0 & m0 & delay & b & u & Hin & _).
      injection Hv as Hv _ _. simpl in Hv. rewrite Hv in Hne.
      destruct (Hor _ _ _ _ _ _ _ Hin Hid) as [? | (b' & u' & Hin')]; [done |].
      by apply (proj1 Hcan Hn) in Hin'.
  - split; [intros _ | done]. split; [done |]. destruct Hc as [[Hd _] | (Hn & Hp & _)].
    + rewrite (tr_cancelled _ _ _ _ Ht) in Hd. split.
      * intros dg' b u [_ ?]%(guardian_cancel_entry _ _ _ _ _ _ _ _ Hr). congruence.
      * intros. right. by apply guardian_cancelled_as_Some.
    + pose proof (proj1 Hcan Hn) as Hnone. split.
      { intros dg' b u Hin. by apply Hnone in Hin. }
      intros req dg' wall mono delay b u Hin Hid. left.
      apply (guardian_begun_entry _ _ _ _ _ _ _ _ _ _ _ Hr) in Hin. rewrite Hid in Hin.
      pose proof (tr_pending _ _ _ _ Ht id) as Hv. rewrite Hin in Hv.
      destruct (gm_pending m !! id) as [p|] eqn:Ep; [| done].
      injection Hv as Hv _ _. specialize (Hp p eq_refl). simpl in Hv. congruence.
Qed.

(** (safety): along every run no two accepted begins share a request id or
    a nonce, even when the request was cancelled or has expired since. *)
Theorem guardian_no_replay c v h m :
  ran c v h m →
  NoDup (rr_request_id <$> begins h) ∧ NoDup (rr_nonce <$> begins h).
Proof.
  induction 1 as [|h m op r m' Hr [IHi IHn] Hs]; [by split; constructor |].
  destruct op as [req dg wall mono delay valid | |], r as [[]|]; try by split.
  simpl in Hs. destruct (begin_at _ _ _ _ _ _ _) as [r0 m0] eqn:Hb.
  apply begin_at_cases in Hb as [(e & -> & _) | (_ & Hok & _)]; [done |].
  destruct Hok as (_&_&_&_&_&_&_&Hid&Hno).
  pose proof (guardian_ran_tracks _ _ _ _ Hr) as Ht.
  rewrite (tr_seen _ _ _ _ Ht), elem_of_list_to_set in Hid.
  rewrite (tr_nonces _ _ _ _ Ht), elem_of_list_to_set in Hno.
  split; by constructor.
Qed.

(** (error): a refused call changes nothing, except that a release refused
    as expired records [Expired] for that request; and the state the guardian
    reports is, until a cancel, the last begin or release outcome. *)
Theorem guardian_errors_inert c v h m :
  ran c v h m →
  (∀ op e m', step m op = (Err e, m') →
     m' = m ∨ ∃ id dg wall mono b1 b2, op = OpRelease id dg wall mono b1 b2
       ∧ e = CErr_Expired
       ∧ m' = set_pending m (alter (λ p, gp_with_state p RecExpired) id (gm_pending m)))
  ∧ (∀ id, state m id =
       if bool_decide (is_Some (cancelled_as h id)) then Some RecCancelled
       else last_outcome h id).
Proof.
  intros Hr. split.
  - intros op e m' Hs. destruct op; simpl in Hs.
    + destruct (begin_at _ _ _ _ _ _ _) as [r0 m0] eqn:Hb.
      apply begin_at_cases in Hb as [(? & -> & -> & _) | (-> & _)]; [| done].
      left. by injection Hs.
    + apply guardian_cancel_cases in Hs as [(? & _ & -> & _) | [? _]]; [by left | done].
    + apply authorize_release_at_cases in Hs
        as [[? _] | [(He & _ & _ & _ & ->) | (? & _ & _ & -> & _)]]; [done | | by left].
      right. injection He as ->. by do 6 eexists.
  - intros id. pose proof (guardian_ran_tracks _ _ _ _ Hr) as Ht. unfold state.
    rewrite (tr_cancelled _ _ _ _ Ht). case_bool_decide as E; [done |].
    apply (tr_state _ _ _ _ Ht). by apply eq_None_not_Some.
Qed.

(** *** Witnesses *)

(** The calls of [ops] on a new machine. *)
Definition run (c : Id32) (v : u64) (ops : list Op) : list Entry * GuardianMachine :=
  foldl (λ hm op, let '(r, m) := step hm.2 op in ((op, r) :: hm.1, m))
    ([], new c v) ops.

Lemma guardian_run_ran c v ops : ran c v (run c v ops).1 (run c v ops).2.
Proof.
  induction ops as [|op ops IH] using rev_ind; [constructor |].
  unfold run in *. rewrite foldl_app. simpl.
  destruct (foldl _ _ ops) as [h m]. simpl in *.
  destruct (step m op) as [r m'] eqn:E. by eapply ran_step.
Qed.

Definition ex_id (n : N) : Id32 := brep 32 (byte_of_N n).

(** A request of configuration 1, version 1, valid from 10 to 200. *)
Definition ex_request (id nonce : N) : RecoveryRequest := {|
  rr_protocol_version := PROTOCOL_VERSION;
  rr_crypto_suite := CryptoSuite_default;
  rr_config_id := ex_id 1;
  rr_config_version := U64 1;
  rr_request_id := ex_id id;
  rr_recovery_recipient_key := [x01];
  rr_requested_at := U64 10;
  rr_nonce := ex_id nonce;
  rr_expiry := U64 200
|}.

(** Two begun requests; the second is cancelled. *)
Definition ex_ops : list Op := [
  OpBegin (ex_request 3 5) (ex_id 6) (U64 10) (U64 100) (U64 20) true;
  OpBegin (ex_request 4 7) (ex_id 8) (U64 11) (U64 101) (U64 20) true;
  OpCancel (ex_id 4) (ex_id 8) true
].
Abbreviation ex_run := (run (ex_id 1) (U64 1) ex_ops).

Lemma guardian_release_iff_witness :
  (∃ req w0 m0 delay,
     (OpBegin req (ex_id 6) w0 m0 delay true, Ok ()) ∈ ex_run.1
     ∧ rr_request_id req = ex_id 3 ∧ (sat_add m0 delay ≤ U64 120)%N)
  ∧ (step ex_run.2 (OpRelease (ex_id 4) (ex_id 8) (U64 20) (U64 120) true true)).1 ≠ Ok ().
Proof.
  split.
  - destruct (proj1 (guardian_release_iff _ _ _ _ (ex_id 3) (ex_id 6) (U64 20) (U64 120)
      true true (guardian_run_ran (ex_id 1) (U64 1) ex_ops)))
      as (_ & _ & _ & req & w0 & m0 & delay & ? & ? & _ & _ & _ & ? & _).
    + vm_compute. reflexivity.
    + exists req, w0, m0, delay. by split_and!.
  - vm_compute. discriminate.
Defined.

Lemma guardian_cancel_permanent_witness :
  state ex_run.2 (ex_id 4) = Some RecCancelled.
Proof.
  apply (guardian_cancel_permanent _ _ _ _ (ex_id 4) (ex_id 8) true ()
    (guardian_run_ran (ex_id 1) (U64 1) ex_ops)).
  vm_compute. left.
Defined.

Lemma guardian_begin_iff_witness :
  (begin_at ex_run.2 (ex_request 9 5) (ex_id 6) (U64 12) (U64 1) (U64 1) true).1
    ≠ Ok (U64 2)
  ∧ (begin_at ex_run.2 (ex_request 9 10) (ex_id 6) (U64 12) (U64 1) (U64 1) true).1
    = Ok (U64 2).
Proof.
  split.
  - intros H%(guardian_begin_iff _ _ _ _ _ _ _ _ _ _ _
      (guardian_run_ran (ex_id 1) (U64 1) ex_ops)).
    destruct H as (_&_&_&_&_&_&_&H).
    destruct (H (ex_request 3 5)) as [_ []]; [| done].
    vm_compute. right. left.
  - vm_compute. reflexivity.
Defined.

Lemma guardian_cancel_iff_witness :
  (cancel ex_run.2 (ex_id 3) (ex_id 6) true).1 = Ok ()
  ∧ (cancel ex_run.2 (ex_id 4) (ex_id 9) true).1 ≠ Ok ().
Proof.
  split.
  - vm_compute. reflexivity.
  - intros H%(guardian_cancel_iff _ _ _ _ _ _ _ (guardian_run_ran (ex_id 1) (U64 1) ex_ops)).
    destruct H as (_ & H & _).
    specialize (H (ex_id 8) true ()). vm_compute in H.
    discriminate H. left.
Defined.

Lemma guardian_no_replay_witness :
  NoDup (rr_nonce <$> begins ex_run.1) ∧ length (begins ex_run.1) = 2.
Proof.
  split; [| reflexivity].
  apply (guardian_no_replay _ _ _ _ (guardian_run_ran (ex_id 1) (U64 1) ex_ops)).
Defined.

Lemma guardian_errors_inert_witness :
  let '(r, m') := step ex_run.2 (OpRelease (ex_id 3) (ex_id 6) (U64 20) (U64 119) true true) in
  r = Err CErr_DelayNotElapsed ∧ m' = ex_run.2.
Proof.
  destruct (step _ _) as [r m'] eqn:E.
  assert (r = Err CErr_DelayNotElapsed) as ->.
  { apply (f_equal fst) in E. vm_compute in E. by symmetry. }
  split; [done |].
  apply (guardian_errors_inert _ _ _ _ (guardian_run_ran (ex_id 1) (U64 1) ex_ops)) in E
    as [-> | (id & dg & w & mo & b1 & b2 & _ & [=] & _)].
  done.
Defined.

(** A request found expired can still be released when the wall clock is
    later read as earlier: the recorded [Expired] state is not consulted. *)
Lemma release_after_expired :
  let ops := [OpBegin (ex_request 3 5) (ex_id 6) (U64 10) (U64 100) (U64 20) true;
              OpRelease (ex_id 3) (ex_id 6) (U64 200) (U64 300) true true] in
  state (run (ex_id 1) (U64 1) ops).2 (ex_id 3) = Some RecExpired
  ∧ (authorize_release_at (run (ex_id 1) (U64 1) ops).2 (ex_id 3) (ex_id 6)
       (U64 199) (U64 300) true true).1 = Ok ().
Proof. split; vm_compute; reflexivity. Qed.

(** The owner's cancel is accepted after the release was authorised. *)
Lemma cancel_after_release :
  let ops := [OpBegin (ex_request 3 5) (ex_id 6) (U64 10) (U64 100) (U64 20) true;
              OpRelease (ex_id 3) (ex_id 6) (U64 20) (U64 120) true true] in
  state (run (ex_id 1) (U64 1) ops).2 (ex_id 3) = Some RecReleasing
  ∧ (cancel (run (ex_id 1) (U64 1) ops).2 (ex_id 3) (ex_id 6) true).1 = Ok ().
Proof. split; vm_compute; reflexivity. Qed.

End Guardian.
