(* ===== verification/CoreRotation.v ===== *)
(** The guardian-rotation state machines: crates/gp-core/src/rotation.rs.

    Module [Rotation] is one rotation from proposal to retirement, [Witness]
    one card-pinned epoch witness; the machine of an epoch's recovery requests
    is in [CoreEpochRecovery].  The conventions of [CoreRecovery] apply: a
    [&mut self] method gives its result and the machine after the call. *)

From S2P Require Export TypesV3.

(** ** Errors, events and actions *)

Inductive RotationError : Set :=
| RErr_InvalidTransition (from : RotationState)
| RErr_InvalidEvidence
| RErr_DelayNotElapsed
| RErr_IncompletePreparation
| RErr_Aborted
| RErr_FailClosed
| RErr_InvalidSuccessor
| RErr_PredecessorLocked
| RErr_Replay
| RErr_StaleEpoch
| RErr_UnknownRequest
| RErr_RequestMismatch
| RErr_Cancelled
| RErr_Expired.
#[export] Instance RotationError_eq_dec : EqDecision RotationError.
Proof. solve_decision. Defined.

Inductive RotationEvent : Set :=
| EvBeginAccepted (monotonic_now delay_secs : u64) (certificate_valid : bool)
| EvReleaseAccepted (monotonic_now : u64) (certificate_valid state_unambiguous : bool)
| EvPreparationComplete (prepared_count expected_count : u16)
    (dpss_result_valid fragments_valid : bool)
| EvActivationAuthorized (certificate_valid exact_capsule : bool)
| EvWitnessQcObserved (qc_valid exact_successor : bool) (drain_deadline : u64)
| EvDrainStarted
| EvDrainDeadlineReached (monotonic_now : u64)
| EvOwnerCancelObserved (certificate_valid : bool)
| EvAbortObserved (certificate_valid : bool)
| EvConflictObserved.
#[export] Instance RotationEvent_eq_dec : EqDecision RotationEvent.
Proof. solve_decision. Defined.

Inductive RotationAction : Set :=
| PersistBeginAndWaitUntil (not_before : u64)
| BeginDpssAndFragmentRepair
| AssembleReadyCertificate
| RequestSignerActivation
| SubmitToWitnesses
| ActivateSuccessorAndDrainOld (drain_deadline : u64)
| RefuseNewOldEpochBegins
| RetireOldEpoch
| AbortAndErasePreparedState
| ActFailClosed.
#[export] Instance RotationAction_eq_dec : EqDecision RotationAction.
Proof. solve_decision. Defined.

(** ** One rotation *)

Module Rotation.

Record RotationMachine : Set := mkRotationMachine {
  rot_rotation_id : Id32;
  rot_plan_hash : Id32;
  rot_predecessor : ConfigRef;
  rot_successor : ConfigRef;
  rot_state : RotationState;
  rot_not_before : option u64;
  rot_drain_deadline : option u64;
  rot_tombstoned : bool;
  rot_ambiguous : bool
}.

Definition new (rotation_id plan_hash : Id32) (predecessor successor : ConfigRef) :
    Result RotationError RotationMachine :=
  if negb (is_direct_successor_of successor predecessor)
  then Err RErr_InvalidSuccessor
  else Ok {|
    rot_rotation_id := rotation_id;
    rot_plan_hash := plan_hash;
    rot_predecessor := predecessor;
    rot_successor := successor;
    rot_state := RotProposed;
    rot_not_before := None;
    rot_drain_deadline := None;
    rot_tombstoned := false;
    rot_ambiguous := false
  |}.

(** Assignments to the mutable fields. *)
Definition update (self : RotationMachine) (state : RotationState)
    (not_before drain_deadline : option u64) (tombstoned ambiguous : bool) :
    RotationMachine := {|
  rot_rotation_id := rot_rotation_id self;
  rot_plan_hash := rot_plan_hash self;
  rot_predecessor := rot_predecessor self;
  rot_successor := rot_successor self;
  rot_state := state;
  rot_not_before := not_before;
  rot_drain_deadline := drain_deadline;
  rot_tombstoned := tombstoned;
  rot_ambiguous := ambiguous
|}.

Definition set_state (self : RotationMachine) (state : RotationState) : RotationMachine :=
  update self state (rot_not_before self) (rot_drain_deadline self)
    (rot_tombstoned self) (rot_ambiguous self).

Definition apply (self : RotationMachine) (event : RotationEvent) :
    Result RotationError (list RotationAction) * RotationMachine :=
  if rot_ambiguous self then (Err RErr_FailClosed, self) else
  if rot_tombstoned self then (Err RErr_Aborted, self) else
  if bool_decide (event = EvConflictObserved)
  then (Ok [ActFailClosed],
        update self (rot_state self) (rot_not_before self) (rot_drain_deadline self)
          (rot_tombstoned self) true) else
  match rot_state self, event with
  | RotProposed, EvBeginAccepted monotonic_now delay_secs true =>
      let not_before := sat_add monotonic_now delay_secs in
      (Ok [PersistBeginAndWaitUntil not_before],
       update self RotDelayPending (Some not_before) (rot_drain_deadline self)
         (rot_tombstoned self) (rot_ambiguous self))
  | RotDelayPending, EvReleaseAccepted monotonic_now true true =>
      if (monotonic_now <? default u64_MAX (rot_not_before self))%mr
      then (Err RErr_DelayNotElapsed, self)
      else (Ok [BeginDpssAndFragmentRepair], set_state self RotPreparing)
  | RotPreparing, EvPreparationComplete prepared_count expected_count true true =>
      if ((uval expected_count =? 0)%N || (prepared_count !=? expected_count))%mr
      then (Err RErr_IncompletePreparation, self)
      else (Ok [AssembleReadyCertificate; RequestSignerActivation],
            set_state self RotReady)
  | RotReady, EvActivationAuthorized true true =>
      (Ok [SubmitToWitnesses], set_state self RotActivating)
  | RotActivating, EvWitnessQcObserved true true drain_deadline =>
      (Ok [ActivateSuccessorAndDrainOld drain_deadline],
       update self RotActive (rot_not_before self) (Some drain_deadline)
         (rot_tombstoned self) (rot_ambiguous self))
  | RotActive, EvDrainStarted =>
      (Ok [RefuseNewOldEpochBegins], set_state self RotDraining)
  | RotDraining, EvDrainDeadlineReached monotonic_now =>
      if (monotonic_now <? default u64_MAX (rot_drain_deadline self))%mr
      then (Err RErr_DelayNotElapsed, self)
      else (Ok [RetireOldEpoch], set_state self RotRetired)
  | (RotProposed | RotDelayPending | RotPreparing | RotReady | RotActivating),
    (EvOwnerCancelObserved true | EvAbortObserved true) =>
      (Ok [AbortAndErasePreparedState],
       update self RotAborted (rot_not_before self) (rot_drain_deadline self)
         true (rot_ambiguous self))
  | _, (EvBeginAccepted _ _ false
       | EvReleaseAccepted _ false _ | EvReleaseAccepted _ _ false
       | EvPreparationComplete _ _ false _ | EvPreparationComplete _ _ _ false
       | EvActivationAuthorized false _ | EvActivationAuthorized _ false
       | EvWitnessQcObserved false _ _ | EvWitnessQcObserved _ false _
       | EvOwnerCancelObserved false | EvAbortObserved false) =>
      (Err RErr_InvalidEvidence, self)
  | from, _ => (Err (RErr_InvalidTransition from), self)
  end.

(** *** Runs *)

Abbreviation Entry := (RotationEvent * Result RotationError (list RotationAction))%type.

(** [ran m0 h m]: the machine [m0] answered the events of [h], the oldest
    first, and is now [m]. *)
Inductive ran (m0 : RotationMachine) : list Entry → RotationMachine → Prop :=
| ran_new : ran m0 [] m0
| ran_apply h m e r m' :
    ran m0 h m → apply m e = (r, m') → ran m0 (h ++ [(e, r)]) m'.

(** The accepted events. *)
Definition accepted (h : list Entry) : list RotationEvent :=
  omap (λ e, if is_ok e.2 then Some e.1 else None) h.

(** *** The promised life of a rotation

    [life l nb dd s]: the accepted events [l], oldest first, take a rotation to
    state [s] with release time [nb] and drain deadline [dd]. *)
Inductive life : list RotationEvent → option u64 → option u64 → RotationState → Prop :=
| life_proposed : life [] None None RotProposed
| life_begun (now delay : u64) :
    life [EvBeginAccepted now delay true] (Some (sat_add now delay)) None RotDelayPending
| life_released l (nb now : u64) :
    life l (Some nb) None RotDelayPending → (nb ≤ now)%N →
    life (l ++ [EvReleaseAccepted now true true]) (Some nb) None RotPreparing
| life_prepared l (nb : u64) (n : u16) :
    life l (Some nb) None RotPreparing → uval n ≠ 0%N →
    life (l ++ [EvPreparationComplete n n true true]) (Some nb) None RotReady
| life_authorized l (nb : u64) :
    life l (Some nb) None RotReady →
    life (l ++ [EvActivationAuthorized true true]) (Some nb) None RotActivating
| life_activated l (nb dd : u64) :
    life l (Some nb) None RotActivating →
    life (l ++ [EvWitnessQcObserved true true dd]) (Some nb) (Some dd) RotActive
| life_draining l (nb dd : u64) :
    life l (Some nb) (Some dd) RotActive →
    life (l ++ [EvDrainStarted]) (Some nb) (Some dd) RotDraining
| life_retired l (nb dd now : u64) :
    life l (Some nb) (Some dd) RotDraining → (dd ≤ now)%N →
    life (l ++ [EvDrainDeadlineReached now]) (Some nb) (Some dd) RotRetired
| life_aborted l nb dd s e :
    life l nb dd s → s ∈ [RotProposed; RotDelayPending; RotPreparing; RotReady; RotActivating] →
    e ∈ [EvOwnerCancelObserved true; EvAbortObserved true] →
    life (l ++ [e]) nb dd RotAborted.

(** The machine a life leaves, possibly after a conflict was observed. *)
Definition at_life (m0 : RotationMachine) (nb dd : option u64) (s : RotationState)
    (ambiguous : bool) : RotationMachine :=
  update m0 s nb dd (bool_decide (s = RotAborted)) ambiguous.

(** *** The machine lives its life *)

Lemma accepted_events_snoc h e r :
  accepted (h ++ [(e, r)]) = accepted h ++ (if is_ok r then [e] else []).
Proof. unfold accepted. rewrite omap_app. simpl. by destruct r. Qed.

(** An error changes nothing. *)
Lemma rotation_apply_Err m e x m' : apply m e = (Err x, m') → m' = m.
Proof. unfold apply. intros H. repeat case_match; by injection H. Qed.

(** The evidence an event carries. *)
Definition evidence (e : RotationEvent) : bool :=
  match e with
  | EvBeginAccepted _ _ valid => valid
  | EvReleaseAccepted _ valid unambiguous => valid && unambiguous
  | EvPreparationComplete _ _ dpss fragments => dpss && fragments
  | EvActivationAuthorized valid exact => valid && exact
  | EvWitnessQcObserved valid exact _ => valid && exact
  | EvOwnerCancelObserved valid | EvAbortObserved valid => valid
  | EvDrainStarted | EvDrainDeadlineReached _ | EvConflictObserved => true
  end.

Definition pre_activation (s : RotationState) : bool :=
  bool_decide (s ∈ [RotProposed; RotDelayPending; RotPreparing; RotReady; RotActivating]).

(** The accepted events of a state, and what they do. *)
Inductive accepts (m : RotationMachine) : RotationEvent → RotationMachine → Prop :=
| acc_conflict :
    accepts m EvConflictObserved
      (update m (rot_state m) (rot_not_before m) (rot_drain_deadline m)
        (rot_tombstoned m) true)
| acc_begin (now delay : u64) :
    rot_state m = RotProposed →
    accepts m (EvBeginAccepted now delay true)
      (update m RotDelayPending (Some (sat_add now delay)) (rot_drain_deadline m)
        (rot_tombstoned m) (rot_ambiguous m))
| acc_release (now : u64) :
    rot_state m = RotDelayPending → (default u64_MAX (rot_not_before m) ≤ now)%N →
    accepts m (EvReleaseAccepted now true true) (set_state m RotPreparing)
| acc_prepared (n : u16) :
    rot_state m = RotPreparing → uval n ≠ 0%N →
    accepts m (EvPreparationComplete n n true true) (set_state m RotReady)
| acc_authorized :
    rot_state m = RotReady →
    accepts m (EvActivationAuthorized true true) (set_state m RotActivating)
| acc_activated (dd : u64) :
    rot_state m = RotActivating →
    accepts m (EvWitnessQcObserved true true dd)
      (update m RotActive (rot_not_before m) (Some dd)
        (rot_tombstoned m) (rot_ambiguous m))
| acc_drain :
    rot_state m = RotActive → accepts m EvDrainStarted (set_state m RotDraining)
| acc_retire (now : u64) :
    rot_state m = RotDraining → (default u64_MAX (rot_drain_deadline m) ≤ now)%N →
    accepts m (EvDrainDeadlineReached now) (set_state m RotRetired)
| acc_abort e :
    pre_activation (rot_state m) = true →
    e ∈ [EvOwnerCancelObserved true; EvAbortObserved true] →
    accepts m e
      (update m RotAborted (rot_not_before m) (rot_drain_deadline m)
        true (rot_ambiguous m)).

Lemma apply_Ok m e m' :
  (∃ acts, apply m e = (Ok acts, m')) ↔
  rot_ambiguous m = false ∧ rot_tombstoned m = false ∧ accepts m e m'.
Proof.
  split.
  - intros [acts H]. destruct m as [rid ph pre suc st nb dd tomb amb].
    unfold apply in H. simpl in *. destruct amb; [done |]. destruct tomb; [done |].
    split; [done |]. split; [done |].
    case_bool_decide as Ec; [subst; injection H as _ <-; apply acc_conflict |].
    destruct st, e;
      repeat match type of H with
      | context [match ?b with true => _ | false => _ end] => destruct b eqn:?
      end; simplify_eq H; intros; subst;
      repeat match goal with
      | E : (_ <? _)%N = false |- _ => apply N.ltb_ge in E
      | E : (_ || _) = false |- _ =>
          apply orb_false_iff in E as [?%N.eqb_neq E%bool_decide_eq_false];
          apply dec_stable in E; subst
      end; by econstructor; eauto; set_solver.
  - destruct m as [rid ph pre suc st nb dd tomb amb]. simpl.
    intros (-> & -> & H). unfold apply. simpl.
    destruct H as [| | now E Hle%N.ltb_ge | n E Hn%N.eqb_neq | | | | now E Hle%N.ltb_ge
      | e E He]; simpl in *; subst; try (eexists; reflexivity).
    + rewrite Hle. by eexists.
    + rewrite Hn, bool_decide_eq_false_2 by (intros []; done). by eexists.
    + rewrite Hle. by eexists.
    + apply bool_decide_eq_true in E.
      apply elem_of_cons in He as [-> | He%list_elem_of_singleton]; [| subst e];
        destruct st; try (eexists; reflexivity); set_solver.
Qed.

(** Everything that happens to a rotation, and nothing else, is a life of it. *)
Section lives.
Context (rid ph : Id32) (pre suc : ConfigRef) (m0 : RotationMachine).
Hypothesis Hnew : new rid ph pre suc = Ok m0.

Lemma new_at_life : m0 = at_life m0 None None RotProposed false.
Proof.
  unfold new in Hnew. destruct (negb _); [done |]. by injection Hnew as <-.
Qed.

(** What an event accepted by a living machine makes of its life. *)
Lemma accepts_life l nb dd s e m' :
  life l nb dd s → s ≠ RotAborted →
  accepts (at_life m0 nb dd s false) e m' →
  (e = EvConflictObserved ∧ m' = at_life m0 nb dd s true)
  ∨ ∃ nb' dd' s', life (l ++ [e]) nb' dd' s' ∧ m' = at_life m0 nb' dd' s' false.
Proof.
  intros Hl Hs Ha. remember (at_life m0 nb dd s false) as m eqn:Em.
  destruct Ha; subst m; simpl in *; [by left | right; subst ..].
  - inversion Hl; subst. do 3 eexists. split; [apply life_begun | done].
  - inversion Hl; subst. do 3 eexists. split; [by apply life_released | done].
  - inversion Hl; subst. do 3 eexists. split; [by apply life_prepared | done].
  - inversion Hl; subst. do 3 eexists. split; [by apply life_authorized | done].
  - inversion Hl; subst. do 3 eexists. split; [by apply life_activated | done].
  - inversion Hl; subst. do 3 eexists. split; [by apply life_draining | done].
  - inversion Hl; subst. do 3 eexists. split; [by apply life_retired | done].
  - apply bool_decide_eq_true in H. do 3 eexists.
    split; [by eapply life_aborted | done].
Qed.

Definition reaches (l : list RotationEvent) (m : RotationMachine) : Prop :=
  ∃ h, ran m0 h m ∧ accepted h = l.

Lemma reaches_accepts l m e m' :
  rot_ambiguous m = false → rot_tombstoned m = false → accepts m e m' →
  reaches l m → reaches (l ++ [e]) m'.
Proof.
  intros Ha Ht Hacc (h & Hr & <-).
  destruct (proj2 (apply_Ok m e m')) as [acts Happ]; [done |].
  exists (h ++ [(e, Ok acts)]). split; [by econstructor | by rewrite accepted_events_snoc].
Qed.

Lemma reaches_life l nb dd s : life l nb dd s → reaches l (at_life m0 nb dd s false).
Proof.
  assert (Hstep : ∀ l nb dd s e nb' dd' s',
    s ≠ RotAborted →
    accepts (at_life m0 nb dd s false) e (at_life m0 nb' dd' s' false) →
    reaches l (at_life m0 nb dd s false) →
    reaches (l ++ [e]) (at_life m0 nb' dd' s' false)).
  { intros * Hs. apply reaches_accepts; [done |].
    by apply bool_decide_eq_false. }
  induction 1 as [| now delay | l nb now _ IH Hle | l nb n _ IH Hn | l nb _ IH
    | l nb dd _ IH | l nb dd _ IH | l nb dd now _ IH Hle | l nb dd s e Hl IH Hs He].
  - rewrite <- new_at_life. exists []. by split; [constructor |].
  - apply (Hstep [] None None RotProposed); [done | exact (acc_begin (at_life m0 _ _ _ _) _ _ eq_refl) |].
    rewrite <- new_at_life. exists []. by split; [constructor |].
  - refine (Hstep _ _ _ RotDelayPending _ _ _ _ _ _ IH); [done |].
    exact (acc_release (at_life m0 (Some nb) None _ false) _ eq_refl Hle).
  - refine (Hstep _ _ _ RotPreparing _ _ _ _ _ _ IH); [done |].
    exact (acc_prepared (at_life m0 (Some nb) None _ false) _ eq_refl Hn).
  - refine (Hstep _ _ _ RotReady _ _ _ _ _ _ IH); [done |].
    exact (acc_authorized (at_life m0 _ _ _ _) eq_refl).
  - refine (Hstep _ _ _ RotActivating _ _ _ _ _ _ IH); [done |].
    exact (acc_activated (at_life m0 _ _ _ _) _ eq_refl).
  - refine (Hstep _ _ _ RotActive _ _ _ _ _ _ IH); [done |].
    exact (acc_drain (at_life m0 _ _ _ _) eq_refl).
  - refine (Hstep _ _ _ RotDraining _ _ _ _ _ _ IH); [done |].
    exact (acc_retire (at_life m0 (Some nb) (Some dd) _ false) _ eq_refl Hle).
  - refine (Hstep _ _ _ s _ _ _ _ _ _ IH); [set_solver |].
    refine (acc_abort (at_life m0 nb dd s false) e _ He).
    by apply bool_decide_eq_true.
Qed.

(** A run is at a life, or stopped by a conflict. *)
Definition lives (l : list RotationEvent) (m : RotationMachine) : Prop :=
  (∃ nb dd s, life l nb dd s ∧ m = at_life m0 nb dd s false)
  ∨ (∃ l' nb dd s, l = l' ++ [EvConflictObserved] ∧ life l' nb dd s
       ∧ s ≠ RotAborted ∧ m = at_life m0 nb dd s true).

Lemma ran_lives h m : ran m0 h m → lives (accepted h) m.
Proof.
  induction 1 as [|h m e r m' Hr IH Ha].
  { left. exists None, None, RotProposed. split; [constructor | apply new_at_life]. }
  rewrite accepted_events_snoc. destruct r as [acts | x]; simpl.
  2: { apply rotation_apply_Err in Ha as ->. by rewrite app_nil_r. }
  destruct (proj1 (apply_Ok m e m')) as (Ham & Htm & Hacc); [by eexists |].
  destruct IH as [(nb & dd & s & Hl & ->) | (l' & nb & dd & s & _ & _ & _ & ->)]; [| done].
  apply bool_decide_eq_false in Htm.
  eapply accepts_life in Hacc as [[-> ->] | (nb' & dd' & s' & ? & ->)]; [.. | done | done].
  - right. by exists (accepted h), nb, dd, s.
  - left. by exists nb', dd', s'.
Qed.

Lemma lives_ran l m : lives l m → reaches l m.
Proof.
  intros [(nb & dd & s & Hl & ->) | (l' & nb & dd & s & -> & Hl & Hs & ->)].
  - by apply reaches_life.
  - refine (reaches_accepts _ (at_life m0 nb dd s false) _ _ eq_refl _
      (acc_conflict (at_life m0 nb dd s false)) (reaches_life _ _ _ _ Hl)).
    by apply bool_decide_eq_false.
Qed.
End lives.

Lemma life_activated_events l nb dd s :
  life l nb dd s → s ∈ [RotActive; RotDraining; RotRetired] →
  ∃ (n0 delay n1 d : u64) (k : u16) tail,
    l = [EvBeginAccepted n0 delay true; EvReleaseAccepted n1 true true;
         EvPreparationComplete k k true true; EvActivationAuthorized true true;
         EvWitnessQcObserved true true d] ++ tail
    ∧ (sat_add n0 delay ≤ n1)%N ∧ uval k ≠ 0%N ∧ nb = Some (sat_add n0 delay) ∧ dd = Some d
    ∧ (tail = [] ∧ s = RotActive ∨ tail = [EvDrainStarted] ∧ s = RotDraining
       ∨ ∃ n2 : u64, tail = [EvDrainStarted; EvDrainDeadlineReached n2]
           ∧ (d ≤ n2)%N ∧ s = RotRetired).
Proof.
  assert (Hpend : ∀ l nb dd, life l nb dd RotDelayPending →
    ∃ n0 delay : u64, l = [EvBeginAccepted n0 delay true] ∧ nb = Some (sat_add n0 delay)).
  { inversion 1; subst; eauto. }
  assert (Hact : ∀ l nb dd, life l nb dd RotActive → ∃ (n0 delay n1 d : u64) (k : u16),
    l = [EvBeginAccepted n0 delay true; EvReleaseAccepted n1 true true;
         EvPreparationComplete k k true true; EvActivationAuthorized true true;
         EvWitnessQcObserved true true d]
    ∧ (sat_add n0 delay ≤ n1)%N ∧ uval k ≠ 0%N ∧ nb = Some (sat_add n0 delay) ∧ dd = Some d).
  { intros l0 nb0 dd0 H. inversion H as [| | | | | l1 nb1 dd1 H1 | | |]; subst.
    inversion H1 as [| | | | l2 nb2 H2 | | | |]; subst.
    inversion H2 as [| | | l3 nb3 n3 H3 | | | | |]; subst.
    inversion H3 as [| | l4 nb4 now4 H4 | | | | | |]; subst.
    destruct (Hpend _ _ _ H4) as (n0 & delay & -> & [= ->]).
    exists n0, delay, now4, dd1, n3. by split_and!. }
  intros Hl Hs. rewrite !elem_of_cons, elem_of_nil in Hs.
  destruct Hs as [-> | [-> | [-> | []]]].
  - destruct (Hact _ _ _ Hl) as (n0&delay&n1&d&k&->&?&?&?&?).
    exists n0, delay, n1, d, k, []. split_and!; auto.
  - inversion Hl as [| | | | | | l1 nb1 dd1 H1 | |]; subst.
    destruct (Hact _ _ _ H1) as (n0&delay&n1&d&k&->&?&?&?&?).
    exists n0, delay, n1, d, k, [EvDrainStarted]. split_and!; auto.
  - inversion Hl as [| | | | | | | l0 nb0 dd0 now H0 |]; subst.
    inversion H0 as [| | | | | | l1 nb1 dd1 H1 | |]; subst.
    destruct (Hact _ _ _ H1) as (n0&delay&n1&d&k&->&?&?&?&[= ->]).
    exists n0, delay, n1, d, k, [EvDrainStarted; EvDrainDeadlineReached now].
    split_and!; eauto 10.
Qed.

Lemma life_length l nb dd s : life l nb dd s → length l ≤ 7.
Proof.
  assert (Hpre : ∀ l nb dd s, life l nb dd s → length l ≤
    match s with
    | RotProposed => 0 | RotDelayPending => 1 | RotPreparing => 2 | RotReady => 3
    | RotActivating => 4 | RotActive => 5 | RotDraining => 6 | RotRetired => 7
    | RotAborted => 5
    end).
  { clear. induction 1 as [| | | | | | | | l nb dd s e Hl IH Hs He]; simpl in *;
      rewrite ?length_app; simpl; try lia.
    destruct s; try lia; set_solver. }
  intros H%Hpre. destruct s; lia.
Qed.

Definition stop (e : RotationEvent) : Prop :=
  e ∈ [EvOwnerCancelObserved true; EvAbortObserved true].

(** A life holds no conflict, and a stop only as the end that aborted it. *)
Lemma life_stops l nb dd s e :
  life l nb dd s → e ∈ l → e ≠ EvConflictObserved ∧ (stop e → s = RotAborted).
Proof.
  intros Hl. induction Hl as [| | | | | | | | l nb dd s e' Hl IH Hs He'];
    rewrite ?elem_of_app, ?list_elem_of_singleton, ?elem_of_nil; [done | ..].
  8: { intros [Hin | ->]; [by destruct (IH Hin) |]. split; [| done].
       rewrite !elem_of_cons, elem_of_nil in He'. naive_solver. }
  2-7: intros [Hin | ->]; [destruct (IHHl Hin) as [? Hst]; by split; [| intros ?%Hst] |].
  1: intros ->.
  all: split; [done |]; unfold stop; rewrite !elem_of_cons, elem_of_nil; naive_solver.
Qed.

Lemma lives_stopped m0 l m :
  lives m0 l m →
  rot_tombstoned m = bool_decide (rot_state m = RotAborted)
  ∧ (∀ e, stop e → e ∈ l → rot_ambiguous m = false ∧ rot_tombstoned m = true)
  ∧ (EvConflictObserved ∈ l → rot_ambiguous m = true).
Proof.
  intros [(nb & dd & s & Hl & ->) | (l' & nb & dd & s & -> & Hl & Hs & ->)]; simpl.
  - split_and!; [done | |].
    + intros e He Hin. split; [done |]. apply bool_decide_eq_true.
      by apply (life_stops _ _ _ _ _ Hl Hin).
    + intros Hin. by destruct (life_stops _ _ _ _ _ Hl Hin).
  - split_and!; [done | | done]. intros e He [Hin | Hin]%elem_of_app.
    + by apply (life_stops _ _ _ _ _ Hl Hin) in He.
    + apply list_elem_of_singleton in Hin as ->. unfold stop in He.
      rewrite !elem_of_cons, elem_of_nil in He. naive_solver.
Qed.

(** *** Properties *)

(** C29 (refinement): the events a new rotation can accept, and the machine they
    lead to, are exactly the lives of the rotation: begin, release after the
    delay, complete preparation, activation vote, witness QC, drain, retirement
    after the drain deadline, with an abort possible up to the witness QC and
    a conflict possible anywhere before it stops the machine. *)
Theorem rotation_runs_iff rid ph pre suc m0 l m :
  new rid ph pre suc = Ok m0 →
  (∃ h, ran m0 h m ∧ accepted h = l) ↔ lives m0 l m.
Proof.
  intros Hnew. split.
  - intros (h & Hr & <-). by apply (ran_lives rid ph pre suc m0 Hnew).
  - by apply (lives_ran rid ph pre suc m0 Hnew).
Qed.

(** C23 (safety): a successor is active, draining its predecessor or past its
    retirement only after exactly begin, release at least the delay later,
    every advertised successor record prepared, the signers' activation and a
    witness QC, all with valid evidence, none skipped and no abort in
    between; retirement waits for the drain deadline the QC carried. *)
Theorem rotation_activation_path rid ph pre suc m0 h m :
  new rid ph pre suc = Ok m0 → ran m0 h m →
  rot_state m ∈ [RotActive; RotDraining; RotRetired] →
  is_direct_successor_of suc pre = true
  ∧ ∃ (n0 delay n1 d : u64) (k : u16) tail,
      accepted h
      = [EvBeginAccepted n0 delay true; EvReleaseAccepted n1 true true;
         EvPreparationComplete k k true true; EvActivationAuthorized true true;
         EvWitnessQcObserved true true d] ++ tail
      ∧ (sat_add n0 delay ≤ n1)%N ∧ uval k ≠ 0%N
      ∧ ((tail = [] ∨ tail = [EvConflictObserved]) ∧ rot_state m = RotActive
         ∨ (∃ t, tail = EvDrainStarted :: t ∧ (t = [] ∨ t = [EvConflictObserved]))
           ∧ rot_state m = RotDraining
         ∨ (∃ (n2 : u64) t, tail = EvDrainStarted :: EvDrainDeadlineReached n2 :: t
              ∧ (t = [] ∨ t = [EvConflictObserved]) ∧ (d ≤ n2)%N)
           ∧ rot_state m = RotRetired).
Proof.
  intros Hnew Hr Hs. split.
  { unfold new in Hnew. by destruct (is_direct_successor_of suc pre). }
  apply (ran_lives rid ph pre suc m0 Hnew) in Hr
    as [(nb & dd & s & Hl & ->) | (l' & nb & dd & s & Heq & Hl & _ & ->)]; simpl in Hs.
  - destruct (life_activated_events _ _ _ _ Hl Hs)
      as (n0 & delay & n1 & d & k & tail & -> & ? & ? & _ & _ & Ht).
    exists n0, delay, n1, d, k, tail. split_and!; [done | done | done |].
    destruct Ht as [[-> ->] | [[-> ->] | (n2 & -> & ? & ->)]]; eauto 10.
  - destruct (life_activated_events _ _ _ _ Hl Hs)
      as (n0 & delay & n1 & d & k & tail & -> & ? & ? & _ & _ & Ht).
    exists n0, delay, n1, d, k, (tail ++ [EvConflictObserved]).
    split_and!; [by rewrite Heq | done | done |].
    destruct Ht as [[-> ->] | [[-> ->] | (n2 & -> & ? & ->)]]; simpl; eauto 10.
Qed.

(** (safety): the owner or the signers can stop a rotation in every state
    before the witness QC, and only there; from then on, and after an observed
    conflict, every event is refused and the machine never changes. *)
Theorem rotation_stop rid ph pre suc m0 h m e :
  new rid ph pre suc = Ok m0 → ran m0 h m →
  e ∈ [EvOwnerCancelObserved true; EvAbortObserved true] →
  ((∃ m', apply m e = (Ok [AbortAndErasePreparedState], m') ∧ rot_state m' = RotAborted) ↔
   rot_ambiguous m = false ∧ pre_activation (rot_state m) = true)
  ∧ (e ∈ accepted h → ∀ e', apply m e' = (Err RErr_Aborted, m))
  ∧ (EvConflictObserved ∈ accepted h → ∀ e', apply m e' = (Err RErr_FailClosed, m)).
Proof.
  intros Hnew Hr He.
  destruct (lives_stopped _ _ _ (ran_lives rid ph pre suc m0 Hnew _ _ Hr))
    as (Ht & Hstop & Hconf).
  split_and!.
  - split.
    + intros (m' & Ha & Hs). destruct (proj1 (apply_Ok m e m')) as (? & _ & Hacc);
        [by eexists |]. split; [done |].
      rewrite !elem_of_cons, elem_of_nil in He.
      destruct He as [-> | [-> | []]]; by inversion Hacc.
    + intros [Ha Hp]. assert (rot_tombstoned m = false) as Htm.
      { rewrite Ht. apply bool_decide_eq_false. intros E. by rewrite E in Hp. }
      unfold apply. rewrite Ha, Htm. rewrite !elem_of_cons, elem_of_nil in He.
      destruct He as [-> | [-> | []]]; destruct (rot_state m); try done; by eexists.
  - intros Hin e'. destruct (Hstop e He Hin) as [Ha Hto]. unfold apply. by rewrite Ha, Hto.
  - intros Hin e'. unfold apply. by rewrite Hconf.
Qed.

(** (error): an event is refused as invalid evidence exactly when the
    machine is neither stopped nor ambiguous and one of the event's evidence
    flags is false; every accepted event carried valid evidence; a refused
    event changes nothing; and at most eight events are ever accepted. *)
Theorem rotation_errors rid ph pre suc m0 h m e r m' :
  new rid ph pre suc = Ok m0 → ran m0 h m → apply m e = (r, m') →
  (r = Err RErr_InvalidEvidence ↔
   rot_ambiguous m = false ∧ rot_tombstoned m = false ∧ evidence e = false)
  ∧ (is_ok r = true → evidence e = true)
  ∧ (is_ok r = false → m' = m)
  ∧ length (accepted h) ≤ 8.
Proof.
  intros Hnew Hr Ha. split_and!.
  - unfold apply in Ha. destruct (rot_ambiguous m), (rot_tombstoned m);
      try (injection Ha as <- <-; naive_solver).
    case_bool_decide; [subst; injection Ha as <- <-; naive_solver |].
    destruct (rot_state m), e; repeat case_match; injection Ha as <- <-; simpl;
      naive_solver.
  - destruct r as [acts |]; [| done]. intros _.
    destruct (proj1 (apply_Ok m e m')) as (_ & _ & Hacc); [by eexists |].
    destruct Hacc as [| | | | | | | | e _ He]; try done.
    rewrite !elem_of_cons, elem_of_nil in He. by destruct He as [-> | [-> | []]].
  - destruct r; [done |]. by apply rotation_apply_Err in Ha.
  - apply (ran_lives rid ph pre suc m0 Hnew) in Hr
      as [(nb & dd & s & Hl & _) | (l' & nb & dd & s & -> & Hl & _ & _)].
    + apply life_length in Hl. lia.
    + apply life_length in Hl. rewrite length_app. simpl. lia.
Qed.

(** *** Witnesses *)

(** The events [es] applied to [m0]. *)
Definition run (m0 : RotationMachine) (es : list RotationEvent) :
    list Entry * RotationMachine :=
  foldl (λ hm e, let '(r, m) := apply hm.2 e in (hm.1 ++ [(e, r)], m)) ([], m0) es.

Lemma rotation_run_ran m0 es : ran m0 (run m0 es).1 (run m0 es).2.
Proof.
  induction es as [|e es IH] using rev_ind; [constructor |].
  unfold run in *. rewrite foldl_app. simpl.
  destruct (foldl _ _ es) as [h m]. simpl in *.
  destruct (apply m e) as [r m'] eqn:E. by eapply ran_apply.
Qed.

Definition ex_id (n : N) : Id32 := brep 32 (byte_of_N n).
Definition ex_config (epoch marker : N) : ConfigRef := {|
  cr_config_id := ex_id 1;
  cr_payload_generation := U64 1;
  cr_authorization_epoch := U64 1;
  cr_guardian_epoch := U64 epoch;
  cr_epoch_binding := ex_id marker
|}.
Definition ex_machine : RotationMachine := {|
  rot_rotation_id := ex_id 7;
  rot_plan_hash := ex_id 8;
  rot_predecessor := ex_config 1 1;
  rot_successor := ex_config 2 2;
  rot_state := RotProposed;
  rot_not_before := None;
  rot_drain_deadline := None;
  rot_tombstoned := false;
  rot_ambiguous := false
|}.

Lemma ex_new : new (ex_id 7) (ex_id 8) (ex_config 1 1) (ex_config 2 2) = Ok ex_machine.
Proof. vm_compute. reflexivity. Qed.

(** A rotation that activates, with one premature and one unproven event. *)
Definition ex_events : list RotationEvent := [
  EvBeginAccepted (U64 100) (U64 20) true;
  EvReleaseAccepted (U64 119) true true;
  EvReleaseAccepted (U64 120) true true;
  EvPreparationComplete (U16 8) (U16 8) true true;
  EvActivationAuthorized false true;
  EvActivationAuthorized true true;
  EvWitnessQcObserved true true (U64 200)
].

Lemma rotation_runs_iff_witness :
  ∃ l m, lives ex_machine l m ∧ length l = 5 ∧ rot_state m = RotActive.
Proof.
  exists (accepted (run ex_machine ex_events).1), (run ex_machine ex_events).2.
  split; [| by split; vm_compute].
  apply (rotation_runs_iff _ _ _ _ _ _ _ ex_new).
  exists (run ex_machine ex_events).1. by split; [apply rotation_run_ran |].
Defined.

Lemma rotation_activation_path_witness :
  rot_state (run ex_machine ex_events).2 = RotActive
  ∧ is_direct_successor_of (ex_config 2 2) (ex_config 1 1) = true.
Proof.
  split; [by vm_compute |].
  apply (rotation_activation_path _ _ _ _ _ _ _ ex_new (rotation_run_ran ex_machine ex_events)).
  vm_compute. left.
Defined.

Lemma rotation_stop_witness :
  (∃ m', apply (run ex_machine (take 3 ex_events)).2 (EvOwnerCancelObserved true)
         = (Ok [AbortAndErasePreparedState], m') ∧ rot_state m' = RotAborted)
  ∧ ∀ e, apply (run ex_machine [EvAbortObserved true]).2 e
         = (Err RErr_Aborted, (run ex_machine [EvAbortObserved true]).2).
Proof.
  split.
  - apply (rotation_stop _ _ _ _ _ _ _ (EvOwnerCancelObserved true) ex_new
      (rotation_run_ran ex_machine (take 3 ex_events))); [left | by vm_compute].
  - apply (rotation_stop _ _ _ _ _ _ _ (EvAbortObserved true) ex_new
      (rotation_run_ran ex_machine [EvAbortObserved true])); [right; left | vm_compute; left].
Defined.

Lemma rotation_errors_witness :
  apply (run ex_machine (take 4 ex_events)).2 (EvActivationAuthorized false true)
  = (Err RErr_InvalidEvidence, (run ex_machine (take 4 ex_events)).2)
  ∧ length (accepted (run ex_machine ex_events).1) ≤ 8.
Proof.
  split.
  - destruct (apply _ _) as [r m'] eqn:E.
    destruct (rotation_errors _ _ _ _ _ _ _ _ _ _ ex_new
      (rotation_run_ran ex_machine (take 4 ex_events)) E) as (H1 & _ & H3 & _).
    assert (r = Err RErr_InvalidEvidence) as ->; [apply H1; by vm_compute |].
    by rewrite H3.
  - destruct (apply (run ex_machine ex_events).2 EvDrainStarted) as [r m'] eqn:E.
    apply (rotation_errors _ _ _ _ _ _ _ _ _ _ ex_new (rotation_run_ran ex_machine ex_events) E).
Defined.

End Rotation.

(** ** One epoch witness *)

Module Witness.

Inductive WitnessAction : Set :=
| PersistSuccessorBeforeAck (predecessor_epoch : u64) (predecessor_hash : Id32)
    (successor_epoch : u64) (successor_hash : Id32)
| SignFreshRead (client_nonce : Id32) (highest_guardian_epoch : u64) (capsule_hash : Id32)
| WitFailClosed.

Record EpochWitnessMachine : Set := mkEpochWitnessMachine {
  ew_config_id : Id32;
  ew_highest_epoch : u64;
  ew_highest_capsule_hash : Id32;
  ew_predecessor_locks : gmap Id32 Id32;
  ew_seen_read_nonces : gset Id32;
  ew_ambiguous : bool
}.

Definition new (config_id : Id32) (highest_epoch : u64) (highest_capsule_hash : Id32) :
    EpochWitnessMachine := {|
  ew_config_id := config_id;
  ew_highest_epoch := highest_epoch;
  ew_highest_capsule_hash := highest_capsule_hash;
  ew_predecessor_locks := ∅;
  ew_seen_read_nonces := ∅;
  ew_ambiguous := false
|}.

Definition accept_successor (self : EpochWitnessMachine) (predecessor : ConfigRef)
    (predecessor_capsule_hash : Id32) (successor : ConfigRef)
    (successor_capsule_hash : Id32) (activation_certificate_valid : bool) :
    Result RotationError WitnessAction * EpochWitnessMachine :=
  if ew_ambiguous self then (Err RErr_FailClosed, self) else
  if negb activation_certificate_valid then (Err RErr_InvalidEvidence, self) else
  if ((cr_config_id predecessor !=? ew_config_id self)
      || (cr_guardian_epoch predecessor !=? ew_highest_epoch self)
      || (predecessor_capsule_hash !=? ew_highest_capsule_hash self)
      || negb (is_direct_successor_of successor predecessor))%mr
  then (Err RErr_InvalidSuccessor, self) else
  let persist := PersistSuccessorBeforeAck
    (cr_guardian_epoch predecessor) predecessor_capsule_hash
    (cr_guardian_epoch successor) successor_capsule_hash in
  match ew_predecessor_locks self !! predecessor_capsule_hash with
  | Some locked_hash =>
      (if bool_decide (locked_hash = successor_capsule_hash)
       then Ok persist else Err RErr_PredecessorLocked, self)
  | None =>
      (Ok persist,
       {| ew_config_id := ew_config_id self;
          ew_highest_epoch := cr_guardian_epoch successor;
          ew_highest_capsule_hash := successor_capsule_hash;
          ew_predecessor_locks :=
            <[predecessor_capsule_hash := successor_capsule_hash]>
              (ew_predecessor_locks self);
          ew_seen_read_nonces := ew_seen_read_nonces self;
          ew_ambiguous := ew_ambiguous self |})
  end.

Definition fresh_read (self : EpochWitnessMachine) (config_id client_nonce : Id32)
    (issued_at expiry now : u64) :
    Result RotationError WitnessAction * EpochWitnessMachine :=
  if ew_ambiguous self then (Err RErr_FailClosed, self) else
  if ((config_id !=? ew_config_id self) || (now <? issued_at) || (expiry <=? now)
      || bool_decide (client_nonce ∈ ew_seen_read_nonces self))%mr
  then (Err RErr_Replay, self) else
  (Ok (SignFreshRead client_nonce (ew_highest_epoch self) (ew_highest_capsule_hash self)),
   {| ew_config_id := ew_config_id self;
      ew_highest_epoch := ew_highest_epoch self;
      ew_highest_capsule_hash := ew_highest_capsule_hash self;
      ew_predecessor_locks := ew_predecessor_locks self;
      ew_seen_read_nonces := {[client_nonce]} ∪ ew_seen_read_nonces self;
      ew_ambiguous := ew_ambiguous self |}).

Definition observe_same_epoch_conflict (self : EpochWitnessMachine)
    (guardian_epoch : u64) (capsule_hash : Id32) :
    Result RotationError WitnessAction * EpochWitnessMachine :=
  if ((guardian_epoch ==? ew_highest_epoch self)
      && (capsule_hash !=? ew_highest_capsule_hash self))%mr
  then (Ok WitFailClosed,
        {| ew_config_id := ew_config_id self;
           ew_highest_epoch := ew_highest_epoch self;
           ew_highest_capsule_hash := ew_highest_capsule_hash self;
           ew_predecessor_locks := ew_predecessor_locks self;
           ew_seen_read_nonces := ew_seen_read_nonces self;
           ew_ambiguous := true |})
  else (Err RErr_InvalidEvidence, self).

Definition highest (self : EpochWitnessMachine) : u64 * Id32 :=
  (ew_highest_epoch self, ew_highest_capsule_hash self).

(** *** Runs *)

Inductive Op : Set :=
| OpAccept (predecessor : ConfigRef) (predecessor_capsule_hash : Id32)
    (successor : ConfigRef) (successor_capsule_hash : Id32) (valid : bool)
| OpRead (config_id client_nonce : Id32) (issued_at expiry now : u64)
| OpConflict (guardian_epoch : u64) (capsule_hash : Id32).

Definition step (self : EpochWitnessMachine) (op : Op) :
    Result RotationError WitnessAction * EpochWitnessMachine :=
  match op with
  | OpAccept pre preh suc such valid => accept_successor self pre preh suc such valid
  | OpRead c n issued expiry now => fresh_read self c n issued expiry now
  | OpConflict e h => observe_same_epoch_conflict self e h
  end.

Abbreviation Entry := (Op * Result RotationError WitnessAction)%type.

(** [ran m0 h m]: [m0] answered the calls of [h], the most recent first. *)
Inductive ran (m0 : EpochWitnessMachine) : list Entry → EpochWitnessMachine → Prop :=
| ran_new : ran m0 [] m0
| ran_step h m op r m' :
    ran m0 h m → step m op = (r, m') → ran m0 ((op, r) :: h) m'.

(** The acknowledged activations, as predecessor and successor hash. *)
Definition acks (h : list Entry) : list (Id32 * Id32) :=
  omap (λ e, match e with
    | (OpAccept _ preh _ such _, Ok _) => Some (preh, such) | _ => None end) h.

(** The nonces of the signed reads. *)
Definition reads (h : list Entry) : list Id32 :=
  omap (λ e, match e with (OpRead _ n _ _ _, Ok _) => Some n | _ => None end) h.

Definition conflicts (h : list Entry) : bool :=
  existsb (λ e, match e with (OpConflict _ _, Ok _) => true | _ => false end) h.

(** *** The machine as a function of its history *)

Record tracks (m0 : EpochWitnessMachine) (h : list Entry) (m : EpochWitnessMachine) : Prop := {
  tr_config : ew_config_id m = ew_config_id m0;
  tr_locks p s : ew_predecessor_locks m !! p = Some s ↔ (p, s) ∈ acks h;
  tr_nonces : ew_seen_read_nonces m = list_to_set (reads h);
  tr_ambiguous : ew_ambiguous m = conflicts h;
  tr_epoch : (ew_highest_epoch m0 ≤ ew_highest_epoch m)%N
}.

(** When a successor is acknowledged. *)
Definition accept_ok (m : EpochWitnessMachine) (pre : ConfigRef) (preh : Id32)
    (suc : ConfigRef) (such : Id32) (valid : bool) : Prop :=
  ew_ambiguous m = false ∧ valid = true
  ∧ cr_config_id pre = ew_config_id m ∧ cr_guardian_epoch pre = ew_highest_epoch m
  ∧ preh = ew_highest_capsule_hash m ∧ is_direct_successor_of suc pre = true
  ∧ (∀ locked, ew_predecessor_locks m !! preh = Some locked → locked = such).

Lemma accept_successor_cases m pre preh suc such valid r m' :
  accept_successor m pre preh suc such valid = (r, m') →
  (∃ e, r = Err e ∧ m' = m ∧ ¬ accept_ok m pre preh suc such valid)
  ∨ (r = Ok (PersistSuccessorBeforeAck (cr_guardian_epoch pre) preh
              (cr_guardian_epoch suc) such)
     ∧ accept_ok m pre preh suc such valid
     ∧ ((ew_predecessor_locks m !! preh = Some such ∧ m' = m)
        ∨ (ew_predecessor_locks m !! preh = None
           ∧ m' = {| ew_config_id := ew_config_id m;
                     ew_highest_epoch := cr_guardian_epoch suc;
                     ew_highest_capsule_hash := such;
                     ew_predecessor_locks := <[preh := such]> (ew_predecessor_locks m);
                     ew_seen_read_nonces := ew_seen_read_nonces m;
                     ew_ambiguous := ew_ambiguous m |}))).
Proof.
  unfold accept_successor, accept_ok. intros H.
  destruct (ew_ambiguous m) eqn:Ea.
  { left. injection H as <- <-. eexists. split_and!; [done | done | by intros []]. }
  destruct valid; simpl in H.
  2: { left. injection H as <- <-. eexists. split_and!; [done | done | by intros (_&?&_)]. }
  destruct ((_ || _)%mr) eqn:Ec.
  { left. injection H as <- <-. eexists. split_and!; [done | done |].
    intros (_&_&E1&E2&E3&E4&_). rewrite !orb_true_iff, !bool_decide_eq_true in Ec.
    rewrite E4 in Ec. destruct Ec as [[[]|]|]; done. }
  rewrite !orb_false_iff, !bool_decide_eq_false in Ec.
  destruct Ec as [[[E1%dec_stable E2%dec_stable] E3%dec_stable] E4%negb_false_iff].
  destruct (ew_predecessor_locks m !! preh) as [locked|] eqn:El.
  - case_bool_decide as E; injection H as <- <-.
    + right. subst locked. split_and!; try done; [by intros ? [= ->] | by left].
    + left. eexists. split_and!; [done | done |]. intros (_&_&_&_&_&_&Hl).
      by apply E, Hl.
  - injection H as <- <-. right. split_and!; try done. by right.
Qed.

Definition read_ok (m : EpochWitnessMachine) (config_id client_nonce : Id32)
    (issued_at expiry now : u64) : Prop :=
  ew_ambiguous m = false ∧ config_id = ew_config_id m
  ∧ (issued_at ≤ now < expiry)%N ∧ client_nonce ∉ ew_seen_read_nonces m.

Lemma fresh_read_cases m c n issued expiry now r m' :
  fresh_read m c n issued expiry now = (r, m') →
  (∃ e, r = Err e ∧ m' = m ∧ ¬ read_ok m c n issued expiry now)
  ∨ (r = Ok (SignFreshRead n (ew_highest_epoch m) (ew_highest_capsule_hash m))
     ∧ read_ok m c n issued expiry now
     ∧ m' = {| ew_config_id := ew_config_id m;
               ew_highest_epoch := ew_highest_epoch m;
               ew_highest_capsule_hash := ew_highest_capsule_hash m;
               ew_predecessor_locks := ew_predecessor_locks m;
               ew_seen_read_nonces := {[n]} ∪ ew_seen_read_nonces m;
               ew_ambiguous := ew_ambiguous m |}).
Proof.
  unfold fresh_read, read_ok. intros H. destruct (ew_ambiguous m) eqn:Ea.
  { left. injection H as <- <-. eexists. split_and!; [done | done | by intros []]. }
  destruct ((_ || _)%mr) eqn:Ec; injection H as <- <-.
  - left. eexists. split_and!; [done | done |]. intros (_ & E1 & [E2 E3] & E4).
    rewrite !orb_true_iff, !bool_decide_eq_true, N.ltb_lt, N.leb_le in Ec.
    destruct Ec as [[[] | ?] | ?]; [done | lia | lia | done].
  - right. rewrite !orb_false_iff, !bool_decide_eq_false, N.ltb_ge, N.leb_gt in Ec.
    destruct Ec as [[[E1%dec_stable ?] ?] ?]. by split_and!.
Qed.

Lemma direct_successor_epoch suc pre :
  is_direct_successor_of suc pre = true →
  cr_guardian_epoch suc = sat_add (cr_guardian_epoch pre) (U64 1).
Proof. by intros (_&_&_&?&_)%is_direct_successor_of_spec. Qed.

Lemma witness_ran_tracks c e0 h0 h m : ran (new c e0 h0) h m → tracks (new c e0 h0) h m.
Proof.
  induction 1 as [|h m op r m' Hr IH Hs].
  { split; simpl; try done. intros p s. rewrite lookup_empty. rewrite elem_of_nil. by split. }
  destruct IH as [Hc Hl Hn Ha He].
  destruct op as [pre preh suc such valid | cid n issued expiry now | e hh]; simpl in Hs.
  - apply accept_successor_cases in Hs
      as [(e & -> & -> & _) | (-> & Hok & [[Hlk ->] | [Hlk ->]])]; [by split | |].
    + split; try done. intros p s. simpl. rewrite elem_of_cons, <- Hl. naive_solver.
    + destruct Hok as (_&_&_&Ep&_&Hd&_). split; simpl; try done.
      * intros p s. rewrite elem_of_cons, <- Hl. destruct (decide (p = preh)) as [-> |].
        -- rewrite lookup_insert_eq, Hlk. naive_solver.
        -- rewrite lookup_insert_ne by done. naive_solver.
      * rewrite (direct_successor_epoch _ _ Hd), Ep.
        pose proof (sat_add_le (ew_highest_epoch m) (U64 1)). simpl in He. lia.
  - apply fresh_read_cases in Hs as [(e & -> & -> & _) | (-> & _ & ->)]; split; try done.
    simpl. by rewrite Hn.
  - unfold observe_same_epoch_conflict in Hs.
    case_match; injection Hs as <- <-; by split.
Qed.

(** *** Properties *)

(** (safety): a witness acknowledges at most one child of each predecessor
    capsule: two acknowledgements of a run naming the same predecessor hash
    name the same successor hash. *)
Theorem witness_one_child c e0 h0 h m p s1 s2 :
  ran (new c e0 h0) h m → (p, s1) ∈ acks h → (p, s2) ∈ acks h → s1 = s2.
Proof.
  intros Hr%witness_ran_tracks. rewrite <- !(tr_locks _ _ _ Hr). congruence.
Qed.

(** (invariant): the acknowledged epoch never decreases; a call that moves
    the witness's head moves it by exactly one epoch (below the largest
    [u64]), from the predecessor the call names, which was the head, to the
    acknowledged successor; and no other call moves it. *)
Theorem witness_head_moves m op r m' :
  step m op = (r, m') →
  (highest m' = highest m
   ∨ ∃ pre preh suc such, op = OpAccept pre preh suc such true
       ∧ (cr_guardian_epoch pre, preh) = highest m
       ∧ (cr_guardian_epoch suc, such) = highest m'
       ∧ is_direct_successor_of suc pre = true
       ∧ ew_ambiguous m = false
       ∧ r = Ok (PersistSuccessorBeforeAck (ew_highest_epoch m) preh
                  (ew_highest_epoch m') such)
       ∧ uval (ew_highest_epoch m') = N.min (ew_highest_epoch m + 1) (2 ^ 64 - 1))
  ∧ (ew_highest_epoch m ≤ ew_highest_epoch m')%N.
Proof.
  intros Hs.
  destruct op as [pre preh suc such valid | cid n issued expiry now | e hh]; simpl in Hs.
  - apply accept_successor_cases in Hs
      as [(e & -> & -> & _) | (-> & Hok & [[Hlk ->] | [Hlk ->]])];
        [by split; [left |] | by split; [left |] |].
    destruct Hok as (Ha & -> & _ & Ep & -> & Hd & _).
    pose proof (direct_successor_epoch _ _ Hd) as Es. rewrite Ep in Es. split.
    + right. exists pre, (ew_highest_capsule_hash m), suc, such. unfold highest. simpl.
      rewrite Ep. split_and!; try done. by rewrite Es, uval_sat_add.
    + simpl. rewrite Es. apply sat_add_le.
  - apply fresh_read_cases in Hs as [(e & -> & -> & _) | (-> & _ & ->)];
      by split; [left |].
  - unfold observe_same_epoch_conflict in Hs.
    case_match; injection Hs as <- <-; by split; [left |].
Qed.

(** (safety): a witness signs a read exactly when it has observed no
    conflict, the challenge is for its configuration and current on its clock,
    and its nonce was in no read it signed before; it signs its current head,
    and no two signed reads share a nonce. *)
Theorem witness_reads_fresh c e0 h0 h m cid n issued expiry now a :
  ran (new c e0 h0) h m →
  ((fresh_read m cid n issued expiry now).1 = Ok a ↔
   a = SignFreshRead n (ew_highest_epoch m) (ew_highest_capsule_hash m)
   ∧ conflicts h = false ∧ cid = c ∧ (issued ≤ now < expiry)%N ∧ n ∉ reads h)
  ∧ NoDup (reads h).
Proof.
  intros Hr. pose proof (witness_ran_tracks _ _ _ _ _ Hr) as Ht. split.
  - transitivity (a = SignFreshRead n (ew_highest_epoch m) (ew_highest_capsule_hash m)
      ∧ read_ok m cid n issued expiry now).
    { destruct (fresh_read _ _ _ _ _ _) as [r m'] eqn:E.
      apply fresh_read_cases in E as [(e & -> & _ & ?) | (-> & ? & _)]; simpl.
      - by split; [| intros [_ ?]].
      - split; [by intros [= <-] | by intros [-> _]]. }
    unfold read_ok. rewrite (tr_ambiguous _ _ _ Ht), (tr_config _ _ _ Ht),
      (tr_nonces _ _ _ Ht), elem_of_list_to_set. done.
  - clear Ht. induction Hr as [|h m op r m' Hr IH Hs]; [constructor |].
    destruct op as [| cid' n' issued' expiry' now' |], r; try done. simpl in Hs.
    apply fresh_read_cases in Hs as [(e & ? & _) | (_ & Hok & _)]; [done |].
    destruct Hok as (_ & _ & _ & Hn).
    rewrite (tr_nonces _ _ _ (witness_ran_tracks _ _ _ _ _ Hr)), elem_of_list_to_set in Hn.
    by constructor.
Qed.

(** (error): a refused call changes nothing; after an observed same-epoch
    conflict every activation and every read is refused fail-closed, for
    good. *)
Theorem witness_fail_closed c e0 h0 h m op :
  ran (new c e0 h0) h m →
  (∀ e m', step m op = (Err e, m') → m' = m)
  ∧ (conflicts h = true → (∀ e hh, op ≠ OpConflict e hh) →
     step m op = (Err RErr_FailClosed, m)).
Proof.
  intros Hr. split.
  - intros e m' Hs. destruct op; simpl in Hs.
    + by apply accept_successor_cases in Hs as [(? & _ & -> & _) | (? & _)].
    + by apply fresh_read_cases in Hs as [(? & _ & -> & _) | (? & _)].
    + unfold observe_same_epoch_conflict in Hs. by case_match; injection Hs.
  - rewrite <- (tr_ambiguous _ _ _ (witness_ran_tracks _ _ _ _ _ Hr)). intros Ha Hop.
    destruct op; simpl; unfold accept_successor, fresh_read; rewrite ?Ha; [done | done |].
    by destruct (Hop guardian_epoch capsule_hash).
Qed.

(** *** Witnesses *)

(** The calls of [ops] on [m0]. *)
Definition run (m0 : EpochWitnessMachine) (ops : list Op) :
    list Entry * EpochWitnessMachine :=
  foldl (λ hm op, let '(r, m) := step hm.2 op in ((op, r) :: hm.1, m)) ([], m0) ops.

Lemma witness_run_ran m0 ops : ran m0 (run m0 ops).1 (run m0 ops).2.
Proof.
  induction ops as [|op ops IH] using rev_ind; [constructor |].
  unfold run in *. rewrite foldl_app. simpl.
  destruct (foldl _ _ ops) as [h m]. simpl in *.
  destruct (step m op) as [r m'] eqn:E. by eapply ran_step.
Qed.

Definition ex_witness := new (Rotation.ex_id 1) (U64 1) (Rotation.ex_id 1).

(** Two successions, a signed read and a replayed read. *)
Definition ex_ops : list Op := [
  OpAccept (Rotation.ex_config 1 1) (Rotation.ex_id 1)
    (Rotation.ex_config 2 2) (Rotation.ex_id 2) true;
  OpAccept (Rotation.ex_config 1 1) (Rotation.ex_id 1)
    (Rotation.ex_config 2 3) (Rotation.ex_id 3) true;
  OpRead (Rotation.ex_id 1) (Rotation.ex_id 9) (U64 10) (U64 20) (U64 10);
  OpRead (Rotation.ex_id 1) (Rotation.ex_id 9) (U64 10) (U64 20) (U64 10);
  OpAccept (Rotation.ex_config 2 2) (Rotation.ex_id 2)
    (Rotation.ex_config 3 4) (Rotation.ex_id 4) true
].
Abbreviation ex_run := (run ex_witness ex_ops).

Lemma witness_one_child_witness :
  length (acks ex_run.1) = 2
  ∧ ∀ s, (Rotation.ex_id 1, s) ∈ acks ex_run.1 → s = Rotation.ex_id 2.
Proof.
  split; [by vm_compute |]. intros s H.
  assert (H2 : (Rotation.ex_id 1, Rotation.ex_id 2) ∈ acks (run ex_witness ex_ops).1)
    by (vm_compute; right; left).
  exact (witness_one_child _ _ _ _ _ _ _ _ (witness_run_ran ex_witness ex_ops) H H2).
Defined.

Lemma witness_head_moves_witness :
  let m := (run ex_witness (take 4 ex_ops)).2 in
  (ew_highest_epoch m ≤ ew_highest_epoch (step m
    (OpAccept (Rotation.ex_config 2 2) (Rotation.ex_id 2)
      (Rotation.ex_config 3 4) (Rotation.ex_id 4) true)).2)%N
  ∧ highest ex_run.2 = (U64 3, Rotation.ex_id 4).
Proof.
  intros m. split; [| by vm_compute].
  destruct (step m _) as [r m'] eqn:E. by apply witness_head_moves in E as [_ ?].
Defined.

Lemma witness_reads_fresh_witness :
  (fresh_read ex_run.2 (Rotation.ex_id 1) (Rotation.ex_id 8) (U64 10) (U64 20) (U64 12)).1
  = Ok (SignFreshRead (Rotation.ex_id 8) (ew_highest_epoch ex_run.2)
          (ew_highest_capsule_hash ex_run.2))
  ∧ NoDup (reads ex_run.1).
Proof.
  split.
  - apply (proj1 (witness_reads_fresh _ _ _ _ _ (Rotation.ex_id 1) (Rotation.ex_id 8)
      (U64 10) (U64 20) (U64 12) _ (witness_run_ran ex_witness ex_ops))).
    split_and!; try done.
    intros [H | H]%elem_of_cons; [discriminate H | by apply elem_of_nil in H].
  - apply (witness_reads_fresh _ _ _ _ _ (Rotation.ex_id 1) (Rotation.ex_id 8)
      (U64 10) (U64 20) (U64 12) WitFailClosed (witness_run_ran ex_witness ex_ops)).
Defined.

Lemma witness_fail_closed_witness :
  let m := (run ex_witness [OpConflict (U64 1) (Rotation.ex_id 5)]).2 in
  step m (OpRead (Rotation.ex_id 1) (Rotation.ex_id 9) (U64 10) (U64 20) (U64 10))
  = (Err RErr_FailClosed, m).
Proof.
  apply (witness_fail_closed _ _ _ _ _
    (OpRead (Rotation.ex_id 1) (Rotation.ex_id 9) (U64 10) (U64 20) (U64 10))
    (witness_run_ran ex_witness [OpConflict (U64 1) (Rotation.ex_id 5)])); [by vm_compute | done].
Defined.

(** At the largest epoch number a successor keeps the epoch of its
    predecessor. *)
Lemma successor_at_u64_max :
  is_direct_successor_of (Rotation.ex_config (2 ^ 64 - 1) 2)
    (Rotation.ex_config (2 ^ 64 - 1) 1) = true.
Proof. vm_compute. reflexivity. Qed.

End Witness.
