(* ===== verification/CoreEpochRecovery.v ===== *)
(** Recovery requests of the active and the draining guardian epochs: the
    [EpochRecoveryMachine] of crates/gp-core/src/rotation.rs.

    It accepts a begin only for the active configuration, and lets the
    requests begun before an activation finish on the draining epoch. *)

From S2P Require Export CoreRotation.

Module EpochRecovery.

Record PendingEpochRecovery : Set := mkPendingEpochRecovery {
  per_config_ref : ConfigRef;
  per_request_digest : Id32;
  per_nonce : Id32;
  per_not_before : u64;
  per_expiry : u64;
  per_state : RecoveryState
}.

Record EpochRecoveryMachine : Set := mkEpochRecoveryMachine {
  erm_active : ConfigRef;
  erm_draining : gmap u64 u64;
  erm_pending : gmap Id32 PendingEpochRecovery;
  erm_seen_request_ids : gset Id32;
  erm_seen_nonces : gset Id32;
  erm_cancelled : gmap Id32 Id32
}.

Record EpochReleaseAuthorization : Set := mkEpochReleaseAuthorization {
  era_request_id : Id32;
  era_request_digest : Id32;
  era_config_ref : ConfigRef;
  era_wall_now : u64;
  era_monotonic_now : u64;
  era_certificate_valid : bool;
  era_state_unambiguous : bool
}.

Definition new (active : ConfigRef) : EpochRecoveryMachine := {|
  erm_active := active;
  erm_draining := ∅;
  erm_pending := ∅;
  erm_seen_request_ids := ∅;
  erm_seen_nonces := ∅;
  erm_cancelled := ∅
|}.

(** [pending.state = state]. *)
Definition per_with_state (p : PendingEpochRecovery) (state : RecoveryState) :
    PendingEpochRecovery := {|
  per_config_ref := per_config_ref p;
  per_request_digest := per_request_digest p;
  per_nonce := per_nonce p;
  per_not_before := per_not_before p;
  per_expiry := per_expiry p;
  per_state := state
|}.

(** Assignments to the mutable fields a call changes. *)
Definition update (self : EpochRecoveryMachine)
    (pending : gmap Id32 PendingEpochRecovery)
    (seen_request_ids seen_nonces : gset Id32) (cancelled : gmap Id32 Id32) :
    EpochRecoveryMachine := {|
  erm_active := erm_active self;
  erm_draining := erm_draining self;
  erm_pending := pending;
  erm_seen_request_ids := seen_request_ids;
  erm_seen_nonces := seen_nonces;
  erm_cancelled := cancelled
|}.

Definition set_pending (self : EpochRecoveryMachine)
    (pending : gmap Id32 PendingEpochRecovery) : EpochRecoveryMachine :=
  update self pending (erm_seen_request_ids self) (erm_seen_nonces self)
    (erm_cancelled self).

(** The pending entry a begin records. *)
Definition begun (request : RecoveryRequestV3) (request_digest : Id32)
    (not_before : u64) : PendingEpochRecovery := {|
  per_config_ref := rr3_config_ref request;
  per_request_digest := request_digest;
  per_nonce := rr3_nonce request;
  per_not_before := not_before;
  per_expiry := rr3_expiry request;
  per_state := RecDelayPending
|}.

Definition begin (self : EpochRecoveryMachine) (request : RecoveryRequestV3)
    (request_digest : Id32) (wall_now monotonic_now delay_secs : u64)
    (certificate_valid : bool) : Result RotationError u64 * EpochRecoveryMachine :=
  if negb certificate_valid then (Err RErr_InvalidEvidence, self) else
  if (rr3_config_ref request !=? erm_active self)%mr then (Err RErr_StaleEpoch, self) else
  if ((wall_now <? rr3_requested_at request) || (rr3_expiry request <=? wall_now))%mr
  then (Err RErr_Expired, self) else
  match erm_cancelled self !! rr3_request_id request with
  | Some cancelled_digest =>
      (Err (if bool_decide (cancelled_digest = request_digest)
            then RErr_Cancelled else RErr_RequestMismatch), self)
  | None =>
  (* The first insert happens even when the second one finds a replay. *)
  if bool_decide (rr3_request_id request ∈ erm_seen_request_ids self)
  then (Err RErr_Replay, self) else
  let seen_request_ids := {[rr3_request_id request]} ∪ erm_seen_request_ids self in
  if bool_decide (rr3_nonce request ∈ erm_seen_nonces self)
  then (Err RErr_Replay,
        update self (erm_pending self) seen_request_ids (erm_seen_nonces self)
          (erm_cancelled self)) else
  let not_before := sat_add monotonic_now delay_secs in
  (Ok not_before,
   update self
     (<[rr3_request_id request := begun request request_digest not_before]>
        (erm_pending self))
     seen_request_ids ({[rr3_nonce request]} ∪ erm_seen_nonces self)
     (erm_cancelled self))
  end.

Definition activate_successor (self : EpochRecoveryMachine) (successor : ConfigRef)
    (drain_deadline : u64) (qc_valid : bool) :
    Result RotationError () * EpochRecoveryMachine :=
  if negb qc_valid then (Err RErr_InvalidEvidence, self) else
  if negb (is_direct_successor_of successor (erm_active self))
  then (Err RErr_InvalidSuccessor, self) else
  (Ok (), {|
     erm_active := successor;
     erm_draining :=
       <[cr_guardian_epoch (erm_active self) := drain_deadline]> (erm_draining self);
     erm_pending := erm_pending self;
     erm_seen_request_ids := erm_seen_request_ids self;
     erm_seen_nonces := erm_seen_nonces self;
     erm_cancelled := erm_cancelled self |}).

Definition authorize_release (self : EpochRecoveryMachine)
    (authorization : EpochReleaseAuthorization) :
    Result RotationError () * EpochRecoveryMachine :=
  let request_id := era_request_id authorization in
  let request_digest := era_request_digest authorization in
  let config_ref := era_config_ref authorization in
  if negb (era_certificate_valid authorization)
     || negb (era_state_unambiguous authorization)
  then (Err RErr_InvalidEvidence, self) else
  match erm_cancelled self !! request_id with
  | Some cancelled_digest =>
      (Err (if bool_decide (cancelled_digest = request_digest)
            then RErr_Cancelled else RErr_RequestMismatch), self)
  | None =>
  match erm_pending self !! request_id with
  | None => (Err RErr_UnknownRequest, self)
  | Some pending =>
  let become state := set_pending self
    (<[request_id := per_with_state pending state]> (erm_pending self)) in
  if ((per_request_digest pending !=? request_digest)
      || (per_config_ref pending !=? config_ref))%mr
  then (Err RErr_RequestMismatch, self) else
  if ((config_ref !=? erm_active self)
      && negb (bool_decide (is_Some (erm_draining self !! cr_guardian_epoch config_ref))))%mr
  then (Err RErr_StaleEpoch, self) else
  if (per_expiry pending <=? era_wall_now authorization)%mr
  then (Err RErr_Expired, become RecExpired) else
  if (era_monotonic_now authorization <? per_not_before pending)%mr
  then (Err RErr_DelayNotElapsed, self) else
  (Ok (), become RecReleasing)
  end end.

Definition cancel (self : EpochRecoveryMachine) (request_id request_digest : Id32)
    (certificate_valid : bool) : Result RotationError () * EpochRecoveryMachine :=
  if negb certificate_valid then (Err RErr_InvalidEvidence, self) else
  match erm_cancelled self !! request_id with
  | Some existing =>
      (if bool_decide (existing = request_digest)
       then Ok () else Err RErr_RequestMismatch, self)
  | None =>
      let cancel_with pending :=
        (Ok (), update self pending (erm_seen_request_ids self) (erm_seen_nonces self)
          (<[request_id := request_digest]> (erm_cancelled self))) in
      match erm_pending self !! request_id with
      | Some pending =>
          if (per_request_digest pending !=? request_digest)%mr
          then (Err RErr_RequestMismatch, self)
          else cancel_with
                 (<[request_id := per_with_state pending RecCancelled]> (erm_pending self))
      | None => cancel_with (erm_pending self)
      end
  end.

(** A request of the epoch that could still be released. *)
Definition unfinished (guardian_epoch : u64) (p : PendingEpochRecovery) : bool :=
  ((cr_guardian_epoch (per_config_ref p) ==? guardian_epoch)
   && match per_state p with RecDelayPending | RecReleasing => true | _ => false end)%mr.

Definition retire_draining_epoch (self : EpochRecoveryMachine)
    (guardian_epoch monotonic_now : u64) :
    Result RotationError () * EpochRecoveryMachine :=
  match erm_draining self !! guardian_epoch with
  | None => (Err RErr_StaleEpoch, self)
  | Some deadline =>
  if (monotonic_now <? uval deadline)%mr then (Err RErr_DelayNotElapsed, self) else
  if existsb (unfinished guardian_epoch) (map_to_list (erm_pending self)).*2
  then (Err RErr_FailClosed, self) else
  (Ok (), {|
     erm_active := erm_active self;
     erm_draining := delete guardian_epoch (erm_draining self);
     erm_pending := erm_pending self;
     erm_seen_request_ids := erm_seen_request_ids self;
     erm_seen_nonces := erm_seen_nonces self;
     erm_cancelled := erm_cancelled self |})
  end.

Definition state (self : EpochRecoveryMachine) (request_id : Id32) : option RecoveryState :=
  if bool_decide (is_Some (erm_cancelled self !! request_id))
  then Some RecCancelled
  else per_state <$> erm_pending self !! request_id.

Definition request_nonce (self : EpochRecoveryMachine) (request_id : Id32) : option Id32 :=
  per_nonce <$> erm_pending self !! request_id.

(** *** Runs *)

Inductive Op : Set :=
| OpBegin (request : RecoveryRequestV3) (request_digest : Id32)
    (wall_now monotonic_now delay_secs : u64) (certificate_valid : bool)
| OpActivate (successor : ConfigRef) (drain_deadline : u64) (qc_valid : bool)
| OpRelease (authorization : EpochReleaseAuthorization)
| OpCancel (request_id request_digest : Id32) (certificate_valid : bool)
| OpRetire (guardian_epoch monotonic_now : u64).

Definition step (self : EpochRecoveryMachine) (op : Op) :
    Result RotationError () * EpochRecoveryMachine :=
  match op with
  | OpBegin request dg wall mono delay valid =>
      let '(r, m) := begin self request dg wall mono delay valid in
      ((λ _, ()) <$> r, m)
  | OpActivate suc deadline valid => activate_successor self suc deadline valid
  | OpRelease a => authorize_release self a
  | OpCancel id dg valid => cancel self id dg valid
  | OpRetire e mono => retire_draining_epoch self e mono
  end.

Abbreviation Entry := (Op * Result RotationError ())%type.

(** [ran m0 h m]: [m0] answered the calls of [h], the most recent first. *)
Inductive ran (m0 : EpochRecoveryMachine) : list Entry → EpochRecoveryMachine → Prop :=
| ran_new : ran m0 [] m0
| ran_step h m op r m' :
    ran m0 h m → step m op = (r, m') → ran m0 ((op, r) :: h) m'.

(** *** The machine as a function of its history *)

Fixpoint begun_as (h : list Entry) (id : Id32) : option PendingEpochRecovery :=
  match h with
  | [] => None
  | (OpBegin req dg _ mono delay _, Ok _) :: h =>
      if bool_decide (rr3_request_id req = id)
      then Some (begun req dg (sat_add mono delay)) else begun_as h id
  | _ :: h => begun_as h id
  end.

Fixpoint cancelled_as (h : list Entry) (id : Id32) : option Id32 :=
  match h with
  | [] => None
  | (OpCancel id' dg _, Ok _) :: h =>
      if bool_decide (id' = id) then Some dg else cancelled_as h id
  | _ :: h => cancelled_as h id
  end.

(** The requests of the accepted begins. *)
Definition begins (h : list Entry) : list RecoveryRequestV3 :=
  omap (λ e, match e with (OpBegin req _ _ _ _ _, Ok _) => Some req | _ => None end) h.

(** A pending entry up to its state. *)
Definition per_view (p : PendingEpochRecovery) : PendingEpochRecovery :=
  per_with_state p RecDelayPending.

Record tracks (h : list Entry) (m : EpochRecoveryMachine) : Prop := {
  tr_ids req : req ∈ begins h → rr3_request_id req ∈ erm_seen_request_ids m;
  tr_nonces : erm_seen_nonces m = list_to_set (rr3_nonce <$> begins h);
  tr_cancelled id : erm_cancelled m !! id = cancelled_as h id;
  tr_pending id : per_view <$> erm_pending m !! id = begun_as h id
}.

(** *** Each operation, inverted *)

Definition begin_ok (m : EpochRecoveryMachine) (req : RecoveryRequestV3)
    (wall : u64) (valid : bool) : Prop :=
  valid = true ∧ rr3_config_ref req = erm_active m
  ∧ (rr3_requested_at req ≤ wall < rr3_expiry req)%N
  ∧ erm_cancelled m !! rr3_request_id req = None
  ∧ (rr3_request_id req ∉ erm_seen_request_ids m)
  ∧ (rr3_nonce req ∉ erm_seen_nonces m).

Lemma begin_cases m req dg wall mono delay valid r m' :
  begin m req dg wall mono delay valid = (r, m') →
  (∃ e, r = Err e ∧ ¬ begin_ok m req wall valid
     ∧ (m' = m ∨ e = RErr_Replay ∧ rr3_nonce req ∈ erm_seen_nonces m
        ∧ m' = update m (erm_pending m)
                 ({[rr3_request_id req]} ∪ erm_seen_request_ids m)
                 (erm_seen_nonces m) (erm_cancelled m)))
  ∨ (r = Ok (sat_add mono delay) ∧ begin_ok m req wall valid
     ∧ m' = update m
              (<[rr3_request_id req := begun req dg (sat_add mono delay)]> (erm_pending m))
              ({[rr3_request_id req]} ∪ erm_seen_request_ids m)
              ({[rr3_nonce req]} ∪ erm_seen_nonces m) (erm_cancelled m)).
Proof.
  unfold begin, begin_ok. intros H. destruct valid; simpl in H.
  2: { injection H as <- <-. left. eexists. split_and!; [done | by intros [] | by left]. }
  case_bool_decide as Ea.
  { injection H as <- <-. left. eexists. split_and!; [done | by intros (_&?&_) | by left]. }
  destruct ((_ || _)%mr) eqn:Ew.
  { injection H as <- <-. left. eexists. split_and!; [done | | by left].
    rewrite orb_true_iff, N.ltb_lt, N.leb_le in Ew. intros (_&_&?&_). lia. }
  rewrite orb_false_iff, N.ltb_ge, N.leb_gt in Ew.
  destruct (erm_cancelled m !! _) eqn:Ec.
  { injection H as <- <-. left. eexists. split_and!; [done | by intros (_&_&_&?&_) | by left]. }
  case_bool_decide as Ei.
  { injection H as <- <-. left. eexists. split_and!; [done | by intros (_&_&_&_&?&_) | by left]. }
  case_bool_decide as En; injection H as <- <-.
  - left. eexists. split_and!; [done | by intros (_&_&_&_&_&?) | by right].
  - right. destruct Ew. by split_and!.
Qed.

Lemma epoch_cancel_cases m id dg valid r m' :
  cancel m id dg valid = (r, m') →
  (∃ e, r = Err e ∧ m' = m)
  ∨ (r = Ok () ∧ valid = true
     ∧ (erm_cancelled m !! id = Some dg ∧ m' = m
        ∨ erm_cancelled m !! id = None
          ∧ m' = update m (alter (λ p, per_with_state p RecCancelled) id (erm_pending m))
                   (erm_seen_request_ids m) (erm_seen_nonces m)
                   (<[id := dg]> (erm_cancelled m)))).
Proof.
  unfold cancel. intros H. destruct valid; simpl in H.
  2: { injection H as <- <-. left. by eexists. }
  destruct (erm_cancelled m !! id) as [d|] eqn:Ec.
  { case_bool_decide; injection H as <- <-; [| left; by eexists].
    right. subst. split_and!; [done | done | by left]. }
  destruct (erm_pending m !! id) as [p|] eqn:Ep.
  - case_bool_decide as Hd; injection H as <- <-; [left; by eexists |].
    right. split_and!; [done | done |]. right. split; [done |]. f_equal.
    by apply (insert_alter (λ p, per_with_state p RecCancelled)).
  - injection H as <- <-. right. split_and!; [done | done |]. right. split; [done |].
    f_equal. apply map_eq. intros i. destruct (decide (i = id)) as [-> |].
    + by rewrite lookup_alter_eq, Ep.
    + by rewrite lookup_alter_ne by done.
Qed.

(** The epochs whose requests may still finish. *)
Definition live_epoch (m : EpochRecoveryMachine) (config_ref : ConfigRef) : Prop :=
  config_ref = erm_active m ∨ is_Some (erm_draining m !! cr_guardian_epoch config_ref).

Definition release_ok (m : EpochRecoveryMachine) (a : EpochReleaseAuthorization) : Prop :=
  era_certificate_valid a = true ∧ era_state_unambiguous a = true
  ∧ erm_cancelled m !! era_request_id a = None
  ∧ live_epoch m (era_config_ref a)
  ∧ ∃ p, erm_pending m !! era_request_id a = Some p
      ∧ per_request_digest p = era_request_digest a ∧ per_config_ref p = era_config_ref a
      ∧ (era_wall_now a < per_expiry p)%N ∧ (per_not_before p ≤ era_monotonic_now a)%N.

Lemma authorize_release_cases m a r m' :
  authorize_release m a = (r, m') →
  (r = Ok () ∧ release_ok m a
   ∧ m' = set_pending m
       (alter (λ p, per_with_state p RecReleasing) (era_request_id a) (erm_pending m)))
  ∨ (∃ e, r = Err e ∧ ¬ release_ok m a
     ∧ (m' = m ∨ e = RErr_Expired
        ∧ m' = set_pending m
            (alter (λ p, per_with_state p RecExpired) (era_request_id a) (erm_pending m)))).
Proof.
  unfold authorize_release, release_ok. intros H.
  destruct (era_certificate_valid a), (era_state_unambiguous a); simpl in H;
    try (injection H as <- <-; right; eexists; split_and!; [done | by intros (?&?&_) | by left]).
  destruct (erm_cancelled m !! _) eqn:Ec.
  { injection H as <- <-. right. eexists. split_and!; [done | by intros (_&_&?&_) | by left]. }
  destruct (erm_pending m !! _) as [p|] eqn:Ep.
  2: { injection H as <- <-. right. eexists.
       split_and!; [done | by intros (_&_&_&_&?&?&_) | by left]. }
  destruct ((_ || _)%mr) eqn:Ed.
  { injection H as <- <-. right. eexists. split_and!; [done | | by left].
    rewrite orb_true_iff, !bool_decide_eq_true in Ed.
    intros (_&_&_&_&q&[= <-]&?&?&_). tauto. }
  rewrite orb_false_iff, !bool_decide_eq_false in Ed.
  destruct Ed as [Hd%dec_stable Hc%dec_stable].
  destruct ((_ && _)%mr) eqn:El.
  { injection H as <- <-. right. eexists. split_and!; [done | | by left].
    rewrite andb_true_iff, bool_decide_eq_true, negb_true_iff, bool_decide_eq_false in El.
    intros (_&_&_&[?|?]&_); tauto. }
  assert (live_epoch m (era_config_ref a)) as Hl.
  { rewrite andb_false_iff, bool_decide_eq_false, negb_false_iff, bool_decide_eq_true in El.
    destruct El as [?%dec_stable | ?]; [by left | by right]. }
  destruct (per_expiry p <=? era_wall_now a)%mr eqn:Ee.
  { apply N.leb_le in Ee. injection H as <- <-. right. eexists. split_and!; [done | |].
    - intros (_&_&_&_&q&[= <-]&_&_&?&_). lia.
    - right. by rewrite <- (insert_alter (λ p, per_with_state p RecExpired) _ p). }
  apply N.leb_gt in Ee. destruct (era_monotonic_now a <? per_not_before p)%mr eqn:En.
  { apply N.ltb_lt in En. injection H as <- <-. right. eexists.
    split_and!; [done | | by left]. intros (_&_&_&_&q&[= <-]&_&_&_&?). lia. }
  apply N.ltb_ge in En. injection H as <- <-. left. split; [done |]. split.
  - split_and!; [done .. |]. by exists p.
  - by rewrite <- (insert_alter (λ p, per_with_state p RecReleasing) _ p).
Qed.

Lemma activate_successor_cases m suc deadline valid r m' :
  activate_successor m suc deadline valid = (r, m') →
  (∃ e, r = Err e ∧ m' = m
     ∧ ¬ (valid = true ∧ is_direct_successor_of suc (erm_active m) = true))
  ∨ (r = Ok () ∧ valid = true ∧ is_direct_successor_of suc (erm_active m) = true
     ∧ m' = {| erm_active := suc;
               erm_draining :=
                 <[cr_guardian_epoch (erm_active m) := deadline]> (erm_draining m);
               erm_pending := erm_pending m;
               erm_seen_request_ids := erm_seen_request_ids m;
               erm_seen_nonces := erm_seen_nonces m;
               erm_cancelled := erm_cancelled m |}).
Proof.
  unfold activate_successor. intros H.
  destruct valid, (is_direct_successor_of suc (erm_active m)); simpl in H;
    injection H as <- <-; [by right | left; eexists; split_and!; [done | done | by intros []] ..].
Qed.

Lemma retire_cases m e mono r m' :
  retire_draining_epoch m e mono = (r, m') →
  (∃ x, r = Err x ∧ m' = m
     ∧ ¬ ∃ d : u64, erm_draining m !! e = Some d ∧ (d ≤ mono)%N
         ∧ ∀ id p, erm_pending m !! id = Some p → unfinished e p = false)
  ∨ (r = Ok ()
     ∧ (∃ d : u64, erm_draining m !! e = Some d ∧ (d ≤ mono)%N)
     ∧ (∀ id p, erm_pending m !! id = Some p → unfinished e p = false)
     ∧ m' = {| erm_active := erm_active m;
               erm_draining := delete e (erm_draining m);
               erm_pending := erm_pending m;
               erm_seen_request_ids := erm_seen_request_ids m;
               erm_seen_nonces := erm_seen_nonces m;
               erm_cancelled := erm_cancelled m |}).
Proof.
  unfold retire_draining_epoch. intros H.
  destruct (erm_draining m !! e) as [d|] eqn:Ed.
  2: { injection H as <- <-. left. eexists. split_and!; [done | done | by intros (?&?&_)]. }
  destruct (mono <? uval d)%mr eqn:Et.
  { apply N.ltb_lt in Et. injection H as <- <-. left. eexists.
    split_and!; [done | done |]. intros (? & [= <-] & ? & _). lia. }
  apply N.ltb_ge in Et. destruct (existsb _ _) eqn:Ex; injection H as <- <-.
  - left. eexists. split_and!; [done | done |]. intros (_ & _ & _ & Hall).
    apply existsb_exists in Ex as (p & Hin%list_elem_of_In & Hu).
    apply list_elem_of_fmap in Hin as ([id q] & -> & Hin%elem_of_map_to_list).
    specialize (Hall _ _ Hin). simpl in Hu. congruence.
  - right. split_and!; [done | by exists d | | done]. intros id p Hp.
    apply not_true_iff_false. intros Hu.
    assert (existsb (unfinished e) (map_to_list (erm_pending m)).*2 = true); [| congruence].
    apply existsb_exists. exists p. split; [| done].
    apply list_elem_of_In, list_elem_of_fmap. exists (id, p).
    split; [done | by apply elem_of_map_to_list].
Qed.

(** *** Every run is tracked by its history *)

Lemma epoch_ran_tracks a0 h m : ran (new a0) h m → tracks h m.
Proof.
  induction 1 as [|h m op r m' Hr IH Hs].
  { split; simpl; intros; rewrite ?lookup_empty; try done. by apply elem_of_nil in H. }
  destruct IH as [Hi Hn Hc Hp].
  destruct op as [req dg wall mono delay valid | suc dl valid | a | id dg valid | e mono];
    simpl in Hs.
  - destruct (begin _ _ _ _ _ _ _) as [r0 m0] eqn:Hb. injection Hs as <- <-.
    apply begin_cases in Hb
      as [(e & -> & _ & [-> | (_ & _ & ->)]) | (-> & Hok & ->)]; split; simpl; try done.
    + intros req' ?%Hi. set_solver.
    + intros req' [-> | ?%Hi]%elem_of_cons; set_solver.
    + by rewrite Hn.
    + intros id. case_bool_decide as E.
      * subst. by rewrite lookup_insert_eq.
      * by rewrite lookup_insert_ne.
  - apply activate_successor_cases in Hs as [(e & -> & -> & _) | (-> & _ & _ & ->)];
      by split.
  - apply authorize_release_cases in Hs
      as [(-> & _ & ->) | (e & -> & _ & [-> | [_ ->]])]; split; simpl; try done;
      intros id; by rewrite (lookup_fmap_alter per_view).
  - apply epoch_cancel_cases in Hs as [(e & -> & ->) | (-> & _ & [[Hd ->] | [Hd ->]])];
      split; simpl; try done.
    + intros id'. case_bool_decide; [by subst | done].
    + intros id'. case_bool_decide as E.
      * subst. by rewrite lookup_insert_eq.
      * by rewrite lookup_insert_ne.
    + intros id'. by rewrite (lookup_fmap_alter per_view).
  - apply retire_cases in Hs as [(e' & -> & -> & _) | (-> & _ & _ & ->)]; by split.
Qed.

Lemma epoch_begun_as_Some h id p :
  begun_as h id = Some p → ∃ req dg wall mono delay valid u,
    (OpBegin req dg wall mono delay valid, Ok u) ∈ h ∧ rr3_request_id req = id
    ∧ p = begun req dg (sat_add mono delay).
Proof.
  induction h as [|[op r] h IH]; [done |].
  assert (Hrec : begun_as h id = Some p → ∃ req dg wall mono delay valid u,
    (OpBegin req dg wall mono delay valid, Ok u) ∈ (op, r) :: h ∧ rr3_request_id req = id
    ∧ p = begun req dg (sat_add mono delay)).
  { intros (req & dg & wall & mono & delay & valid & u & ? & ?)%IH.
    exists req, dg, wall, mono, delay, valid, u. by split; [right |]. }
  destruct op, r; simpl; try done. case_bool_decide as E; [| done].
  intros [= <-]. do 7 eexists. split; [by left | done].
Qed.

Lemma epoch_cancelled_as_Some h id dg :
  cancelled_as h id = Some dg → ∃ valid u, (OpCancel id dg valid, Ok u) ∈ h.
Proof.
  induction h as [|[op r] h IH]; [done |].
  assert (Hrec : cancelled_as h id = Some dg →
    ∃ valid u, (OpCancel id dg valid, Ok u) ∈ (op, r) :: h).
  { intros (valid & u & ?)%IH. exists valid, u. by right. }
  destruct op, r; simpl; try done.
  case_bool_decide as E; [| done]. intros [= <-]. subst. do 2 eexists. by left.
Qed.

Lemma epoch_cancel_entry a0 h m id dg valid u :
  ran (new a0) h m → (OpCancel id dg valid, Ok u) ∈ h → cancelled_as h id = Some dg.
Proof.
  induction 1 as [|h m op r m' Hr IH Hs]; [set_solver |].
  pose proof (epoch_ran_tracks _ _ _ Hr) as Ht.
  intros [Heq | Hin]%elem_of_cons.
  - injection Heq as <- <-. simpl. by rewrite bool_decide_eq_true_2.
  - specialize (IH Hin). destruct op as [| | | id' dg' valid' |], r; simpl; try done.
    case_bool_decide; [subst id' | done].
    apply epoch_cancel_cases in Hs as [(e & ? & _) | (_ & _ & Hs)]; [done |].
    rewrite (tr_cancelled _ _ Ht), IH in Hs. destruct Hs as [[? _] | [? _]]; congruence.
Qed.

Lemma epoch_uncancelled a0 h m id :
  ran (new a0) h m →
  erm_cancelled m !! id = None ↔ ∀ dg b u, (OpCancel id dg b, Ok u) ∉ h.
Proof.
  intros Hr. rewrite (tr_cancelled _ _ (epoch_ran_tracks _ _ _ Hr)). split.
  - intros Hn dg b u ?%(epoch_cancel_entry _ _ _ _ _ _ _ Hr). congruence.
  - intros Hn. destruct (cancelled_as h id) as [d|] eqn:E; [| done].
    apply epoch_cancelled_as_Some in E as (b & u & Hin). by destruct (Hn _ _ _ Hin).
Qed.

(** A begin is accepted for the configuration active at that time. *)
Lemma epoch_begun_entry a0 h m req dg wall mono delay valid u :
  ran (new a0) h m → (OpBegin req dg wall mono delay valid, Ok u) ∈ h →
  begun_as h (rr3_request_id req) = Some (begun req dg (sat_add mono delay))
  ∧ valid = true ∧ (rr3_requested_at req ≤ wall < rr3_expiry req)%N
  ∧ ∃ h1 h2 m1, h = h2 ++ (OpBegin req dg wall mono delay valid, Ok u) :: h1
      ∧ ran (new a0) h1 m1 ∧ rr3_config_ref req = erm_active m1.
Proof.
  induction 1 as [|h m op r m' Hr IH Hs]; [set_solver |].
  pose proof (epoch_ran_tracks _ _ _ Hr) as Ht.
  intros [Heq | Hin]%elem_of_cons.
  - injection Heq as <- <-. simpl in *. rewrite bool_decide_eq_true_2 by done.
    destruct (begin _ _ _ _ _ _ _) as [r0 m0] eqn:Hb.
    apply begin_cases in Hb as [(e & -> & _) | (_ & Hok & _)]; [done |].
    destruct Hok as (?&?&?&_). split_and!; try tauto.
    exists h, [], m. by split_and!.
  - destruct (IH Hin) as (Hb & Hv & Hw & h1 & h2 & m1 & -> & Hr1 & Hact).
    split_and!; try tauto; [| exists h1, ((op, r) :: h2), m1; by split_and!].
    destruct op as [req' dg' wall' mono' delay' valid' | | | |], r; simpl; try done.
    case_bool_decide as E; [| done]. simpl in Hs.
    destruct (begin _ _ _ _ _ _ _) as [r0 m0] eqn:Hbe.
    apply begin_cases in Hbe as [(e & -> & _) | (_ & Hok & _)]; [done |].
    destruct Hok as (_&_&_&_&Hns&_). destruct Hns. rewrite E. apply (tr_ids _ _ Ht).
    apply list_elem_of_omap. by eexists.
Qed.

(** What a call does to the epochs. *)
Lemma step_epochs m op r m' :
  step m op = (r, m') →
  (erm_draining m' = erm_draining m ∧ erm_active m' = erm_active m
   ∧ ∀ e mono u, (op, r) ≠ (OpRetire e mono, Ok u))
  ∨ (∃ suc dl, op = OpActivate suc dl true ∧ erm_active m' = suc
     ∧ is_direct_successor_of suc (erm_active m) = true
     ∧ erm_draining m' = <[cr_guardian_epoch (erm_active m) := dl]> (erm_draining m))
  ∨ (∃ e mono, op = OpRetire e mono ∧ is_Some (erm_draining m !! e)
     ∧ erm_active m' = erm_active m ∧ erm_draining m' = delete e (erm_draining m)).
Proof.
  intros Hs.
  destruct op as [req dg wall mono delay valid | suc dl valid | a | id dg valid | e mono];
    simpl in Hs.
  - left. destruct (begin _ _ _ _ _ _ _) as [r0 m0] eqn:Hb. injection Hs as <- <-.
    by apply begin_cases in Hb
      as [(e & -> & _ & [-> | (_ & _ & ->)]) | (-> & Hok & ->)].
  - apply activate_successor_cases in Hs as [(e & -> & -> & _) | (-> & -> & Hd & ->)];
      [by left |]. right; left. by exists suc, dl.
  - left. by apply authorize_release_cases in Hs
      as [(-> & _ & ->) | (e & -> & _ & [-> | [_ ->]])].
  - left. by apply epoch_cancel_cases in Hs
      as [(e & -> & ->) | (-> & _ & [[Hd ->] | [Hd ->]])].
  - apply retire_cases in Hs as [(e' & -> & -> & _) | (-> & (d & Hd & _) & _ & ->)];
      [left; by split_and! |]. right; right. exists e, mono. by rewrite Hd.
Qed.

Lemma successor_epoch_above suc (active : ConfigRef) (e : u64) :
  is_direct_successor_of suc active = true → (e < u64_MAX)%N →
  (e ≤ cr_guardian_epoch active)%N → (e < cr_guardian_epoch suc)%N.
Proof.
  intros (_&_&_&Hep&_)%is_direct_successor_of_spec.
  rewrite Hep, uval_sat_add, uval_uint_max. change (uval (U64 1)) with 1%N. lia.
Qed.

(** Draining epochs are behind the active one, below the largest epoch. *)
Lemma ran_draining a0 h m (e : u64) :
  ran (new a0) h m → is_Some (erm_draining m !! e) → (e < u64_MAX)%N →
  (e < cr_guardian_epoch (erm_active m))%N.
Proof.
  intros Hr. revert e. induction Hr as [|h m op r m' Hr IH Hs].
  { intros e [? Hl]. change (erm_draining (new a0)) with (∅ : gmap u64 u64) in Hl.
    by rewrite lookup_empty in Hl. }
  intros e.
  apply step_epochs in Hs as [(-> & -> & _) | [(suc & dl & _ & -> & Hd & ->)
    | (e' & mono & _ & _ & -> & ->)]].
  - apply IH.
  - intros He Hm. apply (successor_epoch_above _ _ _ Hd Hm).
    destruct (decide (cr_guardian_epoch (erm_active m) = e)) as [-> | Hne]; [done |].
    rewrite lookup_insert_ne in He by done. specialize (IH e He Hm). lia.
  - intros He. apply IH. destruct (decide (e' = e)) as [-> | Hne].
    + rewrite lookup_delete_eq in He. by destruct He.
    + by rewrite lookup_delete_ne in He.
Qed.

(** A retired epoch stays retired and behind the active one. *)
Lemma ran_retired a0 h m (e mono : u64) u :
  ran (new a0) h m → (OpRetire e mono, Ok u) ∈ h → (e < u64_MAX)%N →
  erm_draining m !! e = None ∧ (e < cr_guardian_epoch (erm_active m))%N.
Proof.
  intros Hr Hin Hm. revert Hin. induction Hr as [|h m op r m' Hr IH Hs]; [set_solver |].
  apply step_epochs in Hs as [(-> & -> & Hne) | [(suc & dl & -> & -> & Hd & ->)
    | (e' & mono' & -> & He' & -> & ->)]]; intros [Heq | Hin]%elem_of_cons;
    try (specialize (IH Hin) as [IH1 IH2]).
  - by destruct (Hne e mono u).
  - done.
  - done.
  - split; [| apply (successor_epoch_above _ _ _ Hd Hm); lia].
    rewrite lookup_insert_ne; [done |]. intros E. rewrite E in *. lia.
  - injection Heq as -> _ _. rewrite lookup_delete_eq. split; [done |].
    by apply (ran_draining _ _ _ _ Hr).
  - split; [by apply lookup_delete_None; right | done].
Qed.

(** *** Properties *)

(** C22 (refinement): a release is authorised exactly when the evidence is
    valid, the request was not cancelled, its epoch is active or draining, and
    the history has an accepted begin with the same id, digest and
    configuration, made while that configuration was the active one, whose
    delay has passed on the monotonic clock and which is not expired. *)
Theorem epoch_release_iff a0 h m a :
  ran (new a0) h m →
  (authorize_release m a).1 = Ok () ↔
  era_certificate_valid a = true ∧ era_state_unambiguous a = true
  ∧ (∀ dg b u, (OpCancel (era_request_id a) dg b, Ok u) ∉ h)
  ∧ live_epoch m (era_config_ref a)
  ∧ ∃ req w0 m0 delay h2 h1 m1,
      h = h2 ++ (OpBegin req (era_request_digest a) w0 m0 delay true, Ok ()) :: h1
      ∧ ran (new a0) h1 m1 ∧ erm_active m1 = era_config_ref a
      ∧ rr3_request_id req = era_request_id a ∧ rr3_config_ref req = era_config_ref a
      ∧ (sat_add m0 delay ≤ era_monotonic_now a)%N
      ∧ (era_wall_now a < rr3_expiry req)%N.
Proof.
  intros Hr. pose proof (epoch_ran_tracks _ _ _ Hr) as Ht.
  transitivity (release_ok m a).
  { destruct (authorize_release m a) as [r m'] eqn:E.
    by apply authorize_release_cases in E as [(-> & ? & _) | (e & -> & ? & _)]. }
  pose proof (tr_pending _ _ Ht (era_request_id a)) as Hp.
  unfold release_ok. rewrite (epoch_uncancelled _ _ _ _ Hr). split.
  - intros (-> & -> & Hc & Hl & p & Hq & Hd & Hcr & Hw & Hn). rewrite Hq in Hp.
    simpl in Hp. symmetry in Hp.
    apply epoch_begun_as_Some in Hp as (req & dg & w0 & m0 & delay & b & [] & Hin & Hid & Hv).
    destruct (epoch_begun_entry _ _ _ _ _ _ _ _ _ _ Hr Hin)
      as (_ & -> & _ & h1 & h2 & m1 & Eh & Hr1 & Hact).
    destruct p; simpl in *. injection Hv as -> -> _ -> ->. subst.
    split_and!; try done. exists req, w0, m0, delay, h2, h1, m1. rewrite <- Hcr. by split_and!.
  - intros (-> & -> & Hc & Hl & req & w0 & m0 & delay & h2 & h1 & m1 & Eh & _ & _ & Hid & Hcr
      & Hn & Hw).
    assert (Hin : (OpBegin req (era_request_digest a) w0 m0 delay true, Ok ()) ∈ h)
      by (rewrite Eh; apply elem_of_app; right; by left).
    destruct (epoch_begun_entry _ _ _ _ _ _ _ _ _ _ Hr Hin) as (Hb & _).
    rewrite Hid in Hb. rewrite Hb in Hp.
    destruct (erm_pending m !! era_request_id a) as [p|] eqn:Eq; [| done].
    simpl in Hp. split_and!; try done. exists p.
    destruct p; simpl in *. injection Hp as -> -> _ -> ->. by split_and!.
Qed.

(** (safety): once a draining epoch below the largest epoch number is
    retired, no release for that epoch is ever authorised again, and no begin
    for it is ever accepted. *)
Theorem epoch_retired_forever a0 h m (e mono : u64) u :
  ran (new a0) h m → (OpRetire e mono, Ok u) ∈ h → (e < u64_MAX)%N →
  (∀ a, cr_guardian_epoch (era_config_ref a) = e → (authorize_release m a).1 ≠ Ok ())
  ∧ (∀ req dg wall mono delay valid t, cr_guardian_epoch (rr3_config_ref req) = e →
       (begin m req dg wall mono delay valid).1 ≠ Ok t).
Proof.
  intros Hr Hin Hm. destruct (ran_retired _ _ _ _ _ _ Hr Hin Hm) as [Hdr Hlt]. split.
  - intros a Ha. destruct (authorize_release m a) as [r m'] eqn:E.
    apply authorize_release_cases in E as [(-> & Hok & _) | (x & -> & _)]; [| done].
    destruct Hok as (_ & _ & _ & [Hact | Hd] & _).
    + rewrite Hact in Ha. subst e. lia.
    + rewrite Ha, Hdr in Hd. by destruct Hd.
  - intros req dg wall mono' delay valid t He.
    destruct (begin _ _ _ _ _ _ _) as [r m'] eqn:E.
    apply begin_cases in E as [(x & -> & _) | (_ & Hok & _)]; [done |].
    destruct Hok as (_ & Hact & _). rewrite Hact in He. subst e. lia.
Qed.

(** (liveness): a draining epoch is retired exactly when its drain deadline
    has passed and none of its requests is waiting or released; nothing else
    of the machine changes.  In particular the owner, by cancelling, or the
    requests, by expiring, always let an epoch retire. *)
Theorem epoch_retire_iff m (e mono : u64) r m' :
  retire_draining_epoch m e mono = (r, m') →
  (r = Ok () ↔
   ∃ d : u64, erm_draining m !! e = Some d ∧ (d ≤ mono)%N
     ∧ ∀ id p, erm_pending m !! id = Some p →
         cr_guardian_epoch (per_config_ref p) = e →
         per_state p ∉ [RecDelayPending; RecReleasing])
  ∧ (is_ok r = false → m' = m)
  ∧ (is_ok r = true → erm_draining m' = delete e (erm_draining m)
      ∧ erm_active m' = erm_active m ∧ erm_pending m' = erm_pending m
      ∧ erm_cancelled m' = erm_cancelled m).
Proof.
  intros H.
  assert (Hu : ∀ p, unfinished e p = false ↔
    (cr_guardian_epoch (per_config_ref p) = e →
     per_state p ∉ [RecDelayPending; RecReleasing])).
  { intros p. unfold unfinished.
    rewrite andb_false_iff, bool_decide_eq_false, !not_elem_of_cons.
    destruct (per_state p); split;
      try (intros [?|?]; [by intros ? | by repeat split; try apply not_elem_of_nil]);
      try (intros _; by right);
      intros Hst; left; intros E; by destruct (Hst E) as (? & ? & _). }
  apply retire_cases in H as [(x & -> & -> & Hn) | (-> & (d & Hd & Hle) & Hall & ->)];
    simpl; split_and!; try done.
  - split; [done |]. intros (d & Hd & Hle & Hall). destruct Hn. exists d.
    split_and!; [done | done |]. intros id p Hp. by apply Hu, (Hall id).
  - split; [intros _ | done]. exists d. split_and!; [done | done |].
    intros id p Hp. by apply Hu, (Hall id).
Qed.

(** (safety): a successor is activated exactly on a valid QC for the direct
    successor of the active configuration; the old epoch drains until the
    given deadline, no pending request, deadline or cancel changes, every
    release that was authorisable stays so, and a begin for the old
    configuration is refused as stale. *)
Theorem epoch_activation m suc deadline valid r m' :
  activate_successor m suc deadline valid = (r, m') →
  (r = Ok () ↔ valid = true ∧ is_direct_successor_of suc (erm_active m) = true)
  ∧ (is_ok r = false → m' = m)
  ∧ (is_ok r = true →
     erm_active m' = suc
     ∧ erm_draining m' !! cr_guardian_epoch (erm_active m) = Some deadline
     ∧ erm_pending m' = erm_pending m ∧ erm_cancelled m' = erm_cancelled m
     ∧ (∀ a, (authorize_release m a).1 = Ok () → (authorize_release m' a).1 = Ok ())
     ∧ (∀ req dg wall mono delay, rr3_config_ref req = erm_active m →
          (begin m' req dg wall mono delay true).1 = Err RErr_StaleEpoch)).
Proof.
  intros H. apply activate_successor_cases in H
    as [(x & -> & -> & Hn) | (-> & -> & Hd & ->)]; simpl; split_and!; try done.
  intros _. split_and!; try done.
  - apply lookup_insert_eq.
  - intros a. destruct (authorize_release m a) as [r m1] eqn:E1.
    apply authorize_release_cases in E1 as [(-> & Hok & _) | (e & -> & _)]; [| done].
    intros _. destruct (authorize_release _ a) as [r m2] eqn:E2 in |- *.
    apply authorize_release_cases in E2 as [(-> & _) | (e & -> & Hnot & _)]; [done |].
    destruct Hnot. destruct Hok as (? & ? & ? & Hl & Hp). split_and!; try done.
    right. simpl. destruct (decide (cr_guardian_epoch (erm_active m)
      = cr_guardian_epoch (era_config_ref a))) as [<- | Hne].
    + by rewrite lookup_insert_eq.
    + rewrite lookup_insert_ne by done. destruct Hl as [Hl | Hl]; [by rewrite Hl in Hne | exact Hl].
  - intros req dg wall mono delay Hreq. unfold begin. simpl.
    rewrite bool_decide_eq_true_2; [done |]. rewrite Hreq. intros Heq.
    apply is_direct_successor_of_spec in Hd as (_&_&_&_&Hb). by rewrite Heq in Hb.
Qed.

(** (safety): an accepted cancel is final: the request's state is
    [Cancelled], no release and no begin for its id is accepted afterwards;
    and no two accepted begins of a run share an id or a nonce. *)
Theorem epoch_cancel_permanent_no_replay a0 h m :
  ran (new a0) h m →
  (∀ id dg b u, (OpCancel id dg b, Ok u) ∈ h →
     state m id = Some RecCancelled
     ∧ (∀ a, era_request_id a = id → is_ok (authorize_release m a).1 = false)
     ∧ (∀ req dg' wall mono delay valid, rr3_request_id req = id →
          is_ok (begin m req dg' wall mono delay valid).1 = false))
  ∧ NoDup (rr3_request_id <$> begins h) ∧ NoDup (rr3_nonce <$> begins h).
Proof.
  intros Hr. split.
  - intros id dg b u Hin. apply (epoch_cancel_entry _ _ _ _ _ _ _ Hr) in Hin.
    rewrite <- (tr_cancelled _ _ (epoch_ran_tracks _ _ _ Hr)) in Hin. split_and!.
    + unfold state. by rewrite Hin.
    + intros a <-. destruct (authorize_release m a) as [r m'] eqn:E.
      apply authorize_release_cases in E as [(-> & Hok & _) | (e & -> & _)]; [| done].
      destruct Hok as (_&_&Hc&_). congruence.
    + intros req dg' wall mono delay valid <-.
      destruct (begin _ _ _ _ _ _ _) as [r m'] eqn:E.
      apply begin_cases in E as [(e & -> & _) | (_ & Hok & _)]; [done |].
      destruct Hok as (_&_&_&Hc&_). congruence.
  - induction Hr as [|h m op r m' Hr [IHi IHn] Hs]; [by split; constructor |].
    destruct op as [req dg wall mono delay valid | | | |], r as [[]|]; try by split.
    simpl in Hs. destruct (begin _ _ _ _ _ _ _) as [r0 m0] eqn:Hb.
    apply begin_cases in Hb as [(e & -> & _) | (_ & Hok & _)]; [done |].
    destruct Hok as (_&_&_&_&Hid&Hno). pose proof (epoch_ran_tracks _ _ _ Hr) as Ht.
    rewrite (tr_nonces _ _ Ht), elem_of_list_to_set in Hno. split; constructor; try done.
    intros (req' & Heq & Hin)%list_elem_of_fmap. apply Hid. rewrite Heq.
    by apply (tr_ids _ _ Ht).
Qed.

(** *** Witnesses *)

(** The calls of [ops] on [m0]. *)
Definition run (m0 : EpochRecoveryMachine) (ops : list Op) :
    list Entry * EpochRecoveryMachine :=
  foldl (λ hm op, let '(r, m) := step hm.2 op in ((op, r) :: hm.1, m)) ([], m0) ops.

Lemma epoch_run_ran m0 ops : ran m0 (run m0 ops).1 (run m0 ops).2.
Proof.
  induction ops as [|op ops IH] using rev_ind; [constructor |].
  unfold run in *. rewrite foldl_app. simpl.
  destruct (foldl _ _ ops) as [h m]. simpl in *.
  destruct (step m op) as [r m'] eqn:E. by eapply ran_step.
Qed.

Definition ex_id (n : N) : Id32 := brep 32 (byte_of_N n).
Definition ex_config := Rotation.ex_config.

(** A request valid from 10 to 200. *)
Definition ex_request (config : ConfigRef) (id nonce : N) : RecoveryRequestV3 := {|
  rr3_protocol_version := PROTOCOL_VERSION_V3;
  rr3_config_ref := config;
  rr3_request_id := ex_id id;
  rr3_recovery_recipient_key := [x04];
  rr3_requested_at := U64 10;
  rr3_nonce := ex_id nonce;
  rr3_expiry := U64 200
|}.

(** Two requests of epoch 1, one cancelled; epoch 2 is activated. *)
Definition ex_ops : list Op := [
  OpBegin (ex_request (ex_config 1 1) 3 5) (ex_id 6) (U64 10) (U64 100) (U64 20) true;
  OpBegin (ex_request (ex_config 1 1) 4 7) (ex_id 8) (U64 10) (U64 100) (U64 20) true;
  OpCancel (ex_id 4) (ex_id 8) true;
  OpActivate (ex_config 2 2) (U64 250) true
].
Definition ex_start := new (ex_config 1 1).
Abbreviation ex_run := (run ex_start ex_ops).
Definition ex_release (mono : N) : EpochReleaseAuthorization := {|
  era_request_id := ex_id 3;
  era_request_digest := ex_id 6;
  era_config_ref := ex_config 1 1;
  era_wall_now := U64 20;
  era_monotonic_now := U64 mono;
  era_certificate_valid := true;
  era_state_unambiguous := true
|}.

Lemma epoch_release_iff_witness :
  live_epoch ex_run.2 (ex_config 1 1)
  ∧ (authorize_release ex_run.2 (ex_release 119)).1 ≠ Ok ().
Proof.
  split; [| by vm_compute].
  apply (proj1 (epoch_release_iff _ _ _ (ex_release 120) (epoch_run_ran ex_start ex_ops))).
  vm_compute. reflexivity.
Defined.

(** The epoch retires once the remaining request is cancelled. *)
Abbreviation ex_retired := (run ex_start
  (ex_ops ++ [OpCancel (ex_id 3) (ex_id 6) true; OpRetire (U64 1) (U64 250)])).

Lemma epoch_retired_forever_witness :
  (authorize_release ex_retired.2 (ex_release 300)).1 ≠ Ok ().
Proof.
  apply (epoch_retired_forever _ _ _ (U64 1) (U64 250) ()
    (epoch_run_ran ex_start (ex_ops ++ [OpCancel (ex_id 3) (ex_id 6) true;
                                  OpRetire (U64 1) (U64 250)]))).
  - vm_compute. left.
  - by vm_compute.
  - reflexivity.
Defined.

Lemma epoch_retire_iff_witness :
  (retire_draining_epoch ex_run.2 (U64 1) (U64 250)).1 = Err RErr_FailClosed
  ∧ (retire_draining_epoch ex_run.2 (U64 1) (U64 250)).2 = ex_run.2.
Proof.
  split; [by vm_compute |].
  destruct (retire_draining_epoch _ _ _) as [r m'] eqn:E.
  apply (epoch_retire_iff _ _ _ _ _ E).
  apply (f_equal fst) in E. vm_compute in E. simpl in E. by rewrite <- E.
Defined.

Lemma epoch_activation_witness :
  let m := (run ex_start (take 3 ex_ops)).2 in
  (authorize_release m (ex_release 120)).1 = Ok ()
  ∧ (authorize_release (activate_successor m (ex_config 2 2) (U64 250) true).2
       (ex_release 120)).1 = Ok ().
Proof.
  intros m. assert (H : (authorize_release m (ex_release 120)).1 = Ok ()) by by vm_compute.
  split; [exact H |].
  destruct (activate_successor m _ _ _) as [r m'] eqn:E.
  apply (epoch_activation _ _ _ _ _ _ E); [| exact H].
  apply (f_equal fst) in E. vm_compute in E. simpl in E. by rewrite <- E.
Defined.

Lemma epoch_cancel_permanent_no_replay_witness :
  state ex_run.2 (ex_id 4) = Some RecCancelled ∧ NoDup (rr3_nonce <$> begins ex_run.1).
Proof.
  destruct (epoch_cancel_permanent_no_replay _ _ _ (epoch_run_ran ex_start ex_ops))
    as (Hc & _ & Hn).
  split; [| exact Hn]. apply (Hc (ex_id 4) (ex_id 8) true ()). vm_compute. right; left.
Defined.

(** A begin refused because its nonce was used still consumes its id: the same
    id is refused afterwards even with a fresh nonce. *)
Lemma replayed_nonce_burns_id :
  let m := (run ex_start
    [OpBegin (ex_request (ex_config 1 1) 3 5) (ex_id 6) (U64 10) (U64 100) (U64 20) true;
     OpBegin (ex_request (ex_config 1 1) 4 5) (ex_id 8) (U64 10) (U64 100) (U64 20) true]).2 in
  (begin m (ex_request (ex_config 1 1) 4 9) (ex_id 8) (U64 10) (U64 100) (U64 20) true).1
  = Err RErr_Replay.
Proof. vm_compute. reflexivity. Qed.

(** A released request keeps its epoch from retiring until it is cancelled. *)
Lemma released_request_blocks_retirement :
  let m := (run ex_start (ex_ops ++ [OpRelease (ex_release 120)])).2 in
  state m (ex_id 3) = Some RecReleasing
  ∧ (retire_draining_epoch m (U64 1) u64_MAX).1 = Err RErr_FailClosed.
Proof. split; vm_compute; reflexivity. Qed.

End EpochRecovery.
