(* ===== verification/Storage.v ===== *)
(** In-memory stores of the version-2 protocol: crates/gp-storage/src/lib.rs.

    [hex::encode] is third-party code: the stores take it as the parameter
    [hex_encode], and the results that need it assume only that different
    identifiers have different encodings. *)

From S2P Require Export Types.

Inductive StorageError : Set :=
| SErr_NotFound
| SErr_StaleVersion
| SErr_WrongConfiguration
| SErr_Replay
| SErr_Conflict
| SErr_InvalidEpoch
| SErr_NotDurable
| SErr_NoPreparedSuccessor
| SErr_AlreadyActivated
| SErr_InjectedFailure.
#[export] Instance StorageError_eq_dec : EqDecision StorageError.
Proof. solve_decision. Defined.

(** ** Signers *)

Module Signer.

Record SignerState : Set := mkSignerState {
  ss_signer_id : u16;
  ss_mailbox : string;
  ss_authorization_share : list byte;
  ss_signing_seed : Id32;
  ss_signing_public_key : barr 32;
  ss_membership_proof : list byte;
  ss_policy : SignerPolicy;
  ss_seen_requests : gmap string Id32;
  ss_seen_nonces : gset Id32
}.

Definition validate_config (self : SignerState) (config_id : Id32) (config_version : u64) :
    Result StorageError () :=
  if ((sp_config_id (ss_policy self) !=? config_id)
      || (sp_config_version (ss_policy self) !=? config_version))%mr
  then Err SErr_WrongConfiguration else Ok ().

Section signer.
Context (hex_encode : Id32 → string).

Definition observe_request (self : SignerState) (config_id : Id32)
    (config_version : u64) (request_id nonce request_digest : Id32) :
    Result StorageError () * SignerState :=
  match validate_config self config_id config_version with
  | Err e => (Err e, self)
  | Ok _ =>
  let request_key := hex_encode request_id in
  if bool_decide (is_Some (ss_seen_requests self !! request_key))
     || bool_decide (nonce ∈ ss_seen_nonces self)
  then (Err SErr_Replay, self) else
  (Ok (), {|
     ss_signer_id := ss_signer_id self;
     ss_mailbox := ss_mailbox self;
     ss_authorization_share := ss_authorization_share self;
     ss_signing_seed := ss_signing_seed self;
     ss_signing_public_key := ss_signing_public_key self;
     ss_membership_proof := ss_membership_proof self;
     ss_policy := ss_policy self;
     ss_seen_requests := <[request_key := request_digest]> (ss_seen_requests self);
     ss_seen_nonces := {[nonce]} ∪ ss_seen_nonces self |})
  end.

(** The requests of a sequence of calls that were observed, the oldest first,
    and the signer after them. *)
Record Observation : Set := mkObservation {
  ob_config_id : Id32;
  ob_config_version : u64;
  ob_request_id : Id32;
  ob_nonce : Id32;
  ob_request_digest : Id32
}.

Fixpoint observe_all (self : SignerState) (calls : list Observation) :
    list Observation * SignerState :=
  match calls with
  | [] => ([], self)
  | c :: calls =>
      let '(r, s) := observe_request self (ob_config_id c) (ob_config_version c)
        (ob_request_id c) (ob_nonce c) (ob_request_digest c) in
      let '(accepted, final) := observe_all s calls in
      ((if is_ok r then [c] else []) ++ accepted, final)
  end.

Lemma observe_request_cases s c v id n dg r s' :
  observe_request s c v id n dg = (r, s') →
  (∃ e, r = Err e ∧ s' = s)
  ∨ (r = Ok () ∧ sp_config_id (ss_policy s) = c ∧ sp_config_version (ss_policy s) = v
     ∧ ss_seen_requests s !! hex_encode id = None ∧ (n ∉ ss_seen_nonces s)
     ∧ ss_policy s' = ss_policy s
     ∧ ss_seen_requests s' = <[hex_encode id := dg]> (ss_seen_requests s)
     ∧ ss_seen_nonces s' = {[n]} ∪ ss_seen_nonces s).
Proof.
  unfold observe_request, validate_config. intros H.
  destruct ((_ || _)%mr) eqn:Ec.
  { injection H as <- <-. left. by eexists. }
  rewrite orb_false_iff, !neb_false in Ec. destruct Ec as [Hc Hv].
  destruct (bool_decide (is_Some _) || _) eqn:Es; injection H as <- <-.
  { left. by eexists. }
  rewrite orb_false_iff, !bool_decide_eq_false in Es. destruct Es as [Hs%eq_None_not_Some Hn].
  right. by split_and!.
Qed.

Lemma observe_all_fresh s calls :
  let acc := (observe_all s calls).1 in
  NoDup (hex_encode <$> (ob_request_id <$> acc)) ∧ NoDup (ob_nonce <$> acc)
  ∧ (∀ c, c ∈ acc → ss_seen_requests s !! hex_encode (ob_request_id c) = None
       ∧ (ob_nonce c ∉ ss_seen_nonces s)
       ∧ sp_config_id (ss_policy s) = ob_config_id c
       ∧ sp_config_version (ss_policy s) = ob_config_version c).
Proof.
  revert s. induction calls as [|c calls IH]; intros s; simpl.
  { split_and!; [constructor | constructor | by intros ? ?%elem_of_nil]. }
  destruct (observe_request _ _ _ _ _ _) as [r s'] eqn:E.
  specialize (IH s'). destruct (observe_all s' calls) as [acc final]. simpl in *.
  destruct IH as (Hi & Hn & Hall).
  apply observe_request_cases in E
    as [(e & -> & ->) | (-> & Hc & Hv & Hid & Hno & Hp & Hr & Hns)]; [done |].
  simpl. rewrite Hp, Hr, Hns in Hall. split_and!.
  - constructor; [| done]. intros (i & Hi1 & (c' & -> & Hin)%list_elem_of_fmap)%list_elem_of_fmap.
    destruct (Hall _ Hin) as [Hl _]. by rewrite <- Hi1, lookup_insert_eq in Hl.
  - constructor; [| done]. intros (c' & Hn1 & Hin)%list_elem_of_fmap.
    destruct (Hall _ Hin) as (_ & Hn' & _). set_solver.
  - intros c' [-> | Hin]%elem_of_cons; [done |].
    destruct (Hall _ Hin) as (Hl & Hn' & ? & ?).
    apply lookup_insert_None in Hl as [? _]. split_and!; [done | set_solver | done | done].
Qed.
End signer.

(** (safety): of any sequence of requests presented to a signer, those it
    observes are for its configuration and version and have pairwise distinct
    request ids and pairwise distinct nonces. *)
Theorem signer_observes_once (hex_encode : Id32 → string) s calls :
  let acc := (observe_all hex_encode s calls).1 in
  NoDup (ob_request_id <$> acc) ∧ NoDup (ob_nonce <$> acc)
  ∧ ∀ c, c ∈ acc → ob_config_id c = sp_config_id (ss_policy s)
      ∧ ob_config_version c = sp_config_version (ss_policy s).
Proof.
  destruct (observe_all_fresh hex_encode s calls) as (Hi & Hn & Hall).
  split_and!; [by eapply NoDup_fmap_1 | done |].
  intros c Hin. by destruct (Hall c Hin) as (_ & _ & -> & ->).
Qed.

End Signer.

(** ** Guardian records and capsules *)

Module Records.

Record GuardianState : Set := mkGuardianState {
  gs_guardian_id : u16;
  gs_mailbox : string;
  gs_signing_seed : Id32;
  gs_records : gmap Id32 GuardianRecord
}.

Definition new (guardian_id : u16) (mailbox : string) (signing_seed : Id32) :
    GuardianState := {|
  gs_guardian_id := guardian_id;
  gs_mailbox := mailbox;
  gs_signing_seed := signing_seed;
  gs_records := ∅
|}.

Definition insert_record (self : GuardianState) (record : GuardianRecord) : GuardianState := {|
  gs_guardian_id := gs_guardian_id self;
  gs_mailbox := gs_mailbox self;
  gs_signing_seed := gs_signing_seed self;
  gs_records := <[grec_opaque_slot_id record := record]> (gs_records self)
|}.

Definition get_record (self : GuardianState) (slot : Id32) :
    Result StorageError GuardianRecord :=
  ok_or (gs_records self !! slot) SErr_NotFound.

Record ConfigStore : Set := mkConfigStore {
  cs_capsules : gmap Id32 ConfigCapsule
}.

Definition ConfigStore_default : ConfigStore := {| cs_capsules := ∅ |}.

Definition put (self : ConfigStore) (capsule : ConfigCapsule) :
    Result StorageError () * ConfigStore :=
  let stale :=
    match cs_capsules self !! cap_config_id capsule with
    | Some existing => (uval (cap_config_version capsule) <=? cap_config_version existing)%mr
    | None => false
    end in
  if stale then (Err SErr_StaleVersion, self) else
  (Ok (), {| cs_capsules := <[cap_config_id capsule := capsule]> (cs_capsules self) |}).

Definition get_capsule (self : ConfigStore) (config_id : Id32) :
    Result StorageError ConfigCapsule :=
  ok_or (cs_capsules self !! config_id) SErr_NotFound.

Fixpoint put_all (self : ConfigStore) (capsules : list ConfigCapsule) : ConfigStore :=
  match capsules with
  | [] => self
  | c :: capsules => put_all (put self c).2 capsules
  end.

Lemma get_capsule_put self c id :
  get_capsule (put self c).2 id =
  if bool_decide (cap_config_id c = id) && is_ok (put self c).1
  then Ok c else get_capsule self id.
Proof.
  unfold put, get_capsule. case_match; simpl; [by rewrite andb_false_r |].
  rewrite andb_true_r. case_bool_decide as E.
  - subst. by rewrite lookup_insert_eq.
  - by rewrite lookup_insert_ne.
Qed.

(** (invariant): a stored capsule is only ever replaced by one of a larger
    version: after any further puts the store still answers for the
    configuration, with the same capsule or one of a strictly larger version;
    and a refused put changes nothing. *)
Theorem capsule_versions_increase self capsules id old :
  get_capsule self id = Ok old →
  (∃ cur, get_capsule (put_all self capsules) id = Ok cur
     ∧ (cur = old ∨ (cap_config_version old < cap_config_version cur)%N))
  ∧ (∀ c, is_ok (put self c).1 = false → (put self c).2 = self).
Proof.
  intros Hold. split.
  2: { intros c. unfold put. by case_match. }
  revert self old Hold. induction capsules as [|c capsules IH]; intros self old Hold; simpl.
  { exists old. split; [done | by left]. }
  pose proof (get_capsule_put self c id) as Hg.
  destruct (bool_decide (cap_config_id c = id)) eqn:Ei; simpl in Hg;
    [| rewrite Hold in Hg; by apply IH].
  apply bool_decide_eq_true in Ei.
  assert (Hl : cs_capsules self !! cap_config_id c = Some old).
  { rewrite Ei. by apply (ok_or_Ok _ SErr_NotFound). }
  unfold put in Hg |- *. rewrite Hl in Hg |- *.
  destruct (uval (cap_config_version c) <=? cap_config_version old)%mr eqn:Ev; simpl in *.
  - by apply IH.
  - apply N.leb_gt in Ev. apply IH in Hg as (cur & -> & Hc). exists cur.
    split; [done |]. right. destruct Hc as [-> | Hc]; lia.
Qed.

(** (roundtrip): a record that was inserted is what its slot answers, every
    other slot answers as before, and an unused slot is not found. *)
Theorem guardian_records_roundtrip self record slot :
  get_record (insert_record self record) slot =
    (if bool_decide (grec_opaque_slot_id record = slot) then Ok record
     else get_record self slot)
  ∧ (get_record self slot = Err SErr_NotFound ↔ gs_records self !! slot = None).
Proof.
  unfold get_record, insert_record. simpl. split.
  - case_bool_decide as E; [subst; by rewrite lookup_insert_eq | by rewrite lookup_insert_ne].
  - destruct (gs_records self !! slot); by split.
Qed.

(** A configuration updated to version 2; a stale version is refused. *)
Definition ex_capsule (version : N) : ConfigCapsule := {|
  cap_config_id := brep 32 x01;
  cap_config_version := U64 version;
  cap_protocol_version := U16 2;
  cap_crypto_suite := XWingXChaCha20Poly1305Ed25519;
  cap_signer_count := U16 3;
  cap_signer_threshold := U16 2;
  cap_guardian_count := U16 3;
  cap_guardian_threshold := U16 2;
  cap_minimum_recovery_delay := U64 10;
  cap_signer_set_commitment := brep 32 x02;
  cap_owner_cancel_public_key := brep 32 x03;
  cap_guardian_material_commitment := brep 32 x04;
  cap_encrypted_recovery_descriptor :=
    {| aead_nonce := brep 24 x00; aead_ciphertext := [x01] |};
  cap_max_request_lifetime := U64 100
|}.

Lemma capsule_versions_increase_witness :
  let s := (put ConfigStore_default (ex_capsule 1)).2 in
  (∃ cur, get_capsule (put_all s [ex_capsule 2; ex_capsule 1]) (brep 32 x01) = Ok cur
     ∧ (cur = ex_capsule 1 ∨ (1 < cap_config_version cur)%N))
  ∧ (put s (ex_capsule 1)).1 = Err SErr_StaleVersion.
Proof.
  intros s. split; [| by vm_compute].
  apply (capsule_versions_increase s [ex_capsule 2; ex_capsule 1] (brep 32 x01)
    (ex_capsule 1)). by vm_compute.
Defined.

End Records.
