(* ===== verification/StorageRotation.v ===== *)
(** Rotation persistence: crates/gp-storage/src/rotation.rs.

    Module [Epochs] is a guardian's [GuardianEpochStore], [Votes] the signers'
    [SignerRotationStore], [WitnessStore] a witness's [WitnessEpochStore].  A
    [&mut self] method gives its result and the store after the call, error
    paths included.  [hex::encode] is the parameter [hex_encode]. *)

From S2P Require Export Storage CoreRotation.

(** ** One guardian's epochs *)

Module Epochs.

Record RotationTombstone : Set := mkRotationTombstone {
  rt_rotation_id : Id32;
  rt_plan_hash : Id32;
  rt_predecessor_capsule_hash : Id32;
  rt_terminal_state : RotationState
}.

Record DpssSessionJournal : Set := mkDpssSessionJournal {
  dj_rotation_id : Id32;
  dj_plan_hash : Id32;
  dj_session_id : Id32;
  dj_qualified_set_digest : Id32;
  dj_phase : u16;
  dj_next_sequence : u64;
  dj_provider_public_journal : list byte;
  dj_encrypted_provider_secret_journal : AeadCiphertext
}.

Record PreparedGuardianEpoch : Set := mkPreparedGuardianEpoch {
  pge_rotation_id : Id32;
  pge_plan_hash : Id32;
  pge_record : GuardianRecordV3;
  pge_durable_write_generation : u64
}.

Record DrainingGuardianEpoch : Set := mkDrainingGuardianEpoch {
  dge_record : GuardianRecordV3;
  dge_capsule_hash : Id32;
  dge_drain_deadline : u64;
  dge_pending_request_ids : gset Id32
}.

Record GuardianEpochStore : Set := mkGuardianEpochStore {
  ges_config_id : Id32;
  ges_expected_predecessor : ConfigRef;
  ges_expected_predecessor_capsule_hash : Id32;
  ges_active : option GuardianRecordV3;
  ges_active_capsule_hash : option Id32;
  ges_prepared : option PreparedGuardianEpoch;
  ges_draining : gmap u64 DrainingGuardianEpoch;
  ges_dpss_journal : option DpssSessionJournal;
  ges_rotation_tombstones : gmap string RotationTombstone;
  ges_recovery_cancellation_tombstones : gmap string Id32;
  ges_activation_qc : option EpochActivationQc;
  ges_next_write_generation : u64
}.

(** *** Assignments to single fields *)

Definition set_policy (r : GuardianRecordV3) (p : GuardianPolicyV3) : GuardianRecordV3 := {|
  grec3_opaque_slot_id := grec3_opaque_slot_id r;
  grec3_guardian_index := grec3_guardian_index r;
  grec3_fragment_index := grec3_fragment_index r;
  grec3_encrypted_ciphertext_fragment := grec3_encrypted_ciphertext_fragment r;
  grec3_encrypted_dek_share := grec3_encrypted_dek_share r;
  grec3_merkle_path_proof := grec3_merkle_path_proof r;
  grec3_custody_root := grec3_custody_root r;
  grec3_policy := p
|}.

Definition policy_with (p : GuardianPolicyV3) (epoch_state : GuardianEpochState)
    (activation_qc_hash : option Id32) (drain_deadline : option u64) : GuardianPolicyV3 := {|
  gpol3_config_ref := gpol3_config_ref p;
  gpol3_epoch_state := epoch_state;
  gpol3_signer_set_commitment := gpol3_signer_set_commitment p;
  gpol3_signer_count := gpol3_signer_count p;
  gpol3_signer_threshold := gpol3_signer_threshold p;
  gpol3_owner_cancel_public_key := gpol3_owner_cancel_public_key p;
  gpol3_minimum_recovery_delay := gpol3_minimum_recovery_delay p;
  gpol3_guardian_material_root := gpol3_guardian_material_root p;
  gpol3_dpss_suite := gpol3_dpss_suite p;
  gpol3_dpss_public_commitment := gpol3_dpss_public_commitment p;
  gpol3_predecessor_capsule_hash := gpol3_predecessor_capsule_hash p;
  gpol3_activation_qc_hash := activation_qc_hash;
  gpol3_drain_deadline := drain_deadline
|}.

(** [record.policy.epoch_state = s]. *)
Definition set_epoch_state (s : GuardianEpochState) (r : GuardianRecordV3) : GuardianRecordV3 :=
  set_policy r (policy_with (grec3_policy r) s
    (gpol3_activation_qc_hash (grec3_policy r)) (gpol3_drain_deadline (grec3_policy r))).

(** [record.policy.activation_qc_hash = Some(h)]. *)
Definition set_qc_hash (h : Id32) (r : GuardianRecordV3) : GuardianRecordV3 :=
  set_policy r (policy_with (grec3_policy r) (gpol3_epoch_state (grec3_policy r))
    (Some h) (gpol3_drain_deadline (grec3_policy r))).

(** [record.policy.drain_deadline = Some(d)]. *)
Definition set_drain_deadline (d : u64) (r : GuardianRecordV3) : GuardianRecordV3 :=
  set_policy r (policy_with (grec3_policy r) (gpol3_epoch_state (grec3_policy r))
    (gpol3_activation_qc_hash (grec3_policy r)) (Some d)).

Definition record_config (r : GuardianRecordV3) : ConfigRef :=
  gpol3_config_ref (grec3_policy r).

(** Field assignments of the store: predecessor, active record, prepared
    record, draining map, journal and tombstones. *)
Definition set_predecessor (s : GuardianEpochStore) (c : ConfigRef) (h : Id32) := {|
  ges_config_id := ges_config_id s;
  ges_expected_predecessor := c;
  ges_expected_predecessor_capsule_hash := h;
  ges_active := ges_active s;
  ges_active_capsule_hash := ges_active_capsule_hash s;
  ges_prepared := ges_prepared s;
  ges_draining := ges_draining s;
  ges_dpss_journal := ges_dpss_journal s;
  ges_rotation_tombstones := ges_rotation_tombstones s;
  ges_recovery_cancellation_tombstones := ges_recovery_cancellation_tombstones s;
  ges_activation_qc := ges_activation_qc s;
  ges_next_write_generation := ges_next_write_generation s |}.

Definition set_active (s : GuardianEpochStore) (a : option GuardianRecordV3)
    (h : option Id32) := {|
  ges_config_id := ges_config_id s;
  ges_expected_predecessor := ges_expected_predecessor s;
  ges_expected_predecessor_capsule_hash := ges_expected_predecessor_capsule_hash s;
  ges_active := a;
  ges_active_capsule_hash := h;
  ges_prepared := ges_prepared s;
  ges_draining := ges_draining s;
  ges_dpss_journal := ges_dpss_journal s;
  ges_rotation_tombstones := ges_rotation_tombstones s;
  ges_recovery_cancellation_tombstones := ges_recovery_cancellation_tombstones s;
  ges_activation_qc := ges_activation_qc s;
  ges_next_write_generation := ges_next_write_generation s |}.

Definition set_prepared (s : GuardianEpochStore) (p : option PreparedGuardianEpoch) := {|
  ges_config_id := ges_config_id s;
  ges_expected_predecessor := ges_expected_predecessor s;
  ges_expected_predecessor_capsule_hash := ges_expected_predecessor_capsule_hash s;
  ges_active := ges_active s;
  ges_active_capsule_hash := ges_active_capsule_hash s;
  ges_prepared := p;
  ges_draining := ges_draining s;
  ges_dpss_journal := ges_dpss_journal s;
  ges_rotation_tombstones := ges_rotation_tombstones s;
  ges_recovery_cancellation_tombstones := ges_recovery_cancellation_tombstones s;
  ges_activation_qc := ges_activation_qc s;
  ges_next_write_generation := ges_next_write_generation s |}.

Definition set_draining (s : GuardianEpochStore) (d : gmap u64 DrainingGuardianEpoch) := {|
  ges_config_id := ges_config_id s;
  ges_expected_predecessor := ges_expected_predecessor s;
  ges_expected_predecessor_capsule_hash := ges_expected_predecessor_capsule_hash s;
  ges_active := ges_active s;
  ges_active_capsule_hash := ges_active_capsule_hash s;
  ges_prepared := ges_prepared s;
  ges_draining := d;
  ges_dpss_journal := ges_dpss_journal s;
  ges_rotation_tombstones := ges_rotation_tombstones s;
  ges_recovery_cancellation_tombstones := ges_recovery_cancellation_tombstones s;
  ges_activation_qc := ges_activation_qc s;
  ges_next_write_generation := ges_next_write_generation s |}.

(** Journal, tombstones and the last activation QC, changed together at the end
    of a rotation. *)
Definition set_finished (s : GuardianEpochStore) (j : option DpssSessionJournal)
    (t : gmap string RotationTombstone) (qc : option EpochActivationQc) := {|
  ges_config_id := ges_config_id s;
  ges_expected_predecessor := ges_expected_predecessor s;
  ges_expected_predecessor_capsule_hash := ges_expected_predecessor_capsule_hash s;
  ges_active := ges_active s;
  ges_active_capsule_hash := ges_active_capsule_hash s;
  ges_prepared := ges_prepared s;
  ges_draining := ges_draining s;
  ges_dpss_journal := j;
  ges_rotation_tombstones := t;
  ges_recovery_cancellation_tombstones := ges_recovery_cancellation_tombstones s;
  ges_activation_qc := qc;
  ges_next_write_generation := ges_next_write_generation s |}.

Definition set_generation (s : GuardianEpochStore) (g : u64) := {|
  ges_config_id := ges_config_id s;
  ges_expected_predecessor := ges_expected_predecessor s;
  ges_expected_predecessor_capsule_hash := ges_expected_predecessor_capsule_hash s;
  ges_active := ges_active s;
  ges_active_capsule_hash := ges_active_capsule_hash s;
  ges_prepared := ges_prepared s;
  ges_draining := ges_draining s;
  ges_dpss_journal := ges_dpss_journal s;
  ges_rotation_tombstones := ges_rotation_tombstones s;
  ges_recovery_cancellation_tombstones := ges_recovery_cancellation_tombstones s;
  ges_activation_qc := ges_activation_qc s;
  ges_next_write_generation := g |}.

(** *** Construction *)

(** The store of a guardian without any record; [new] adds the active one. *)
Definition new_candidate (predecessor : ConfigRef) (predecessor_capsule_hash : Id32) :
    GuardianEpochStore := {|
  ges_config_id := cr_config_id predecessor;
  ges_expected_predecessor := predecessor;
  ges_expected_predecessor_capsule_hash := predecessor_capsule_hash;
  ges_active := None;
  ges_active_capsule_hash := None;
  ges_prepared := None;
  ges_draining := ∅;
  ges_dpss_journal := None;
  ges_rotation_tombstones := ∅;
  ges_recovery_cancellation_tombstones := ∅;
  ges_activation_qc := None;
  ges_next_write_generation := U64 1
|}.

Definition new (active : GuardianRecordV3) (active_capsule_hash : Id32) :
    GuardianEpochStore :=
  let active := set_epoch_state EpochActive active in
  let expected_predecessor := record_config active in
  {| ges_config_id := cr_config_id expected_predecessor;
     ges_expected_predecessor := expected_predecessor;
     ges_expected_predecessor_capsule_hash := active_capsule_hash;
     ges_active := Some active;
     ges_active_capsule_hash := Some active_capsule_hash;
     ges_prepared := None;
     ges_draining := ∅;
     ges_dpss_journal := None;
     ges_rotation_tombstones := ∅;
     ges_recovery_cancellation_tombstones := ∅;
     ges_activation_qc := None;
     ges_next_write_generation := U64 1 |}.

(** *** Transactions *)

(** [transaction]: [mutate] runs on a clone, which replaces the store only
    when it succeeds and no failure is injected. *)
Definition transaction {T} (self : GuardianEpochStore) (inject_failure : bool)
    (mutate : GuardianEpochStore → Result StorageError T * GuardianEpochStore) :
    Result StorageError T * GuardianEpochStore :=
  let '(result, candidate) := mutate self in
  match result with
  | Err e => (Err e, self)
  | Ok result =>
      if inject_failure then (Err SErr_InjectedFailure, self)
      else (Ok result, candidate)
  end.

(** *** Operations *)

Section operations.
Context (hex_encode : Id32 → string).

Definition prepare_successor (self : GuardianEpochStore) (rotation_id plan_hash : Id32)
    (record : GuardianRecordV3) (journal : DpssSessionJournal) :
    Result StorageError u64 * GuardianEpochStore :=
  if bool_decide (is_Some (ges_rotation_tombstones self !! hex_encode rotation_id))
  then (Err SErr_Replay, self) else
  if bool_decide (is_Some (ges_prepared self)) then (Err SErr_Conflict, self) else
  if (negb (is_direct_successor_of (record_config record) (ges_expected_predecessor self))
      || (gpol3_predecessor_capsule_hash (grec3_policy record)
          !=? ges_expected_predecessor_capsule_hash self)
      || (dj_rotation_id journal !=? rotation_id)
      || (dj_plan_hash journal !=? plan_hash))%mr
  then (Err SErr_InvalidEpoch, self) else
  let record := set_epoch_state EpochPrepared record in
  let generation := ges_next_write_generation self in
  let self := set_generation self (sat_add (ges_next_write_generation self) (U64 1)) in
  let self := set_prepared self (Some {|
    pge_rotation_id := rotation_id;
    pge_plan_hash := plan_hash;
    pge_record := record;
    pge_durable_write_generation := generation |}) in
  let self := set_finished self (Some journal) (ges_rotation_tombstones self)
    (ges_activation_qc self) in
  (Ok generation, self).

Definition prepared_ack_generation (self : GuardianEpochStore)
    (rotation_id plan_hash : Id32) : Result StorageError u64 :=
  prepared ← ok_or (ges_prepared self) SErr_NoPreparedSuccessor;
  if ((pge_rotation_id prepared !=? rotation_id)
      || (pge_plan_hash prepared !=? plan_hash))%mr
  then Err SErr_Conflict else
  if (uval (pge_durable_write_generation prepared) =? 0)%N then Err SErr_NotDurable else
  Ok (pge_durable_write_generation prepared).

Definition activate_successor (self : GuardianEpochStore) (rotation_id plan_hash : Id32)
    (qc : EpochActivationQc) (activation_qc_hash : Id32) (drain_deadline : u64)
    (pending_old_requests : gset Id32) :
    Result StorageError () * GuardianEpochStore :=
  match ges_prepared self with
  | None => (Err SErr_NoPreparedSuccessor, self)
  | Some prepared =>
  let self := set_prepared self None in
  if ((pge_rotation_id prepared !=? rotation_id)
      || (pge_plan_hash prepared !=? plan_hash)
      || (qc_rotation_id qc !=? rotation_id)
      || (qc_predecessor_epoch qc
          !=? cr_guardian_epoch (ges_expected_predecessor self))
      || (qc_predecessor_capsule_hash qc
          !=? ges_expected_predecessor_capsule_hash self)
      || (qc_successor_epoch qc
          !=? cr_guardian_epoch (record_config (pge_record prepared))))%mr
  then (Err SErr_InvalidEpoch, set_prepared self (Some prepared)) else
  let predecessor_hash := ges_expected_predecessor_capsule_hash self in
  let finish (self : GuardianEpochStore) :=
    let new_active :=
      set_qc_hash activation_qc_hash (set_epoch_state EpochActive (pge_record prepared)) in
    let successor_capsule_hash := qc_successor_capsule_hash qc in
    let self := set_predecessor self (record_config new_active) successor_capsule_hash in
    let self := set_active self (Some new_active) (Some successor_capsule_hash) in
    (Ok (), set_finished self None
      (<[hex_encode rotation_id := {|
           rt_rotation_id := rotation_id;
           rt_plan_hash := plan_hash;
           rt_predecessor_capsule_hash := predecessor_hash;
           rt_terminal_state := RotActive |}]> (ges_rotation_tombstones self))
      (Some qc)) in
  match ges_active self with
  | Some old =>
      let self := set_active self None (ges_active_capsule_hash self) in
      let old_epoch := cr_guardian_epoch (record_config old) in
      match ges_active_capsule_hash self with
      | None => (Err SErr_InvalidEpoch, self)
      | Some old_capsule_hash =>
          let self := set_active self None None in
          let old := set_drain_deadline drain_deadline (set_epoch_state EpochDraining old) in
          finish (set_draining self
            (<[old_epoch := {|
                 dge_record := old;
                 dge_capsule_hash := old_capsule_hash;
                 dge_drain_deadline := drain_deadline;
                 dge_pending_request_ids := pending_old_requests |}]>
               (ges_draining self)))
      end
  | None =>
      if bool_decide (pending_old_requests ≠ ∅)
      then (Err SErr_InvalidEpoch, set_prepared self (Some prepared))
      else finish self
  end end.

Definition abort_prepared (self : GuardianEpochStore) (rotation_id plan_hash : Id32) :
    Result StorageError () * GuardianEpochStore :=
  if bool_decide (qc_rotation_id <$> ges_activation_qc self = Some rotation_id)
  then (Err SErr_AlreadyActivated, self) else
  let other :=
    match ges_prepared self with
    | Some prepared =>
        ((pge_rotation_id prepared !=? rotation_id)
         || (pge_plan_hash prepared !=? plan_hash))%mr
    | None => false
    end in
  if other then (Err SErr_Conflict, self) else
  let self := set_prepared self None in
  (Ok (), set_finished self None
    (<[hex_encode rotation_id := {|
         rt_rotation_id := rotation_id;
         rt_plan_hash := plan_hash;
         rt_predecessor_capsule_hash := ges_expected_predecessor_capsule_hash self;
         rt_terminal_state := RotAborted |}]> (ges_rotation_tombstones self))
    (ges_activation_qc self)).

Definition observe_replacement_activation (self : GuardianEpochStore)
    (rotation_id plan_hash : Id32) (qc : EpochActivationQc) (activation_qc_hash : Id32)
    (drain_deadline : u64) (pending_old_requests : gset Id32) :
    Result StorageError () * GuardianEpochStore :=
  if bool_decide (is_Some (ges_prepared self)) || bool_decide (ges_active self = None)
  then (Err SErr_Conflict, self) else
  if ((qc_rotation_id qc !=? rotation_id)
      || (qc_predecessor_epoch qc
          !=? cr_guardian_epoch (ges_expected_predecessor self))
      || (qc_predecessor_capsule_hash qc
          !=? ges_expected_predecessor_capsule_hash self)
      || (qc_successor_epoch qc
          !=? sat_add (cr_guardian_epoch (ges_expected_predecessor self)) (U64 1)))%mr
  then (Err SErr_InvalidEpoch, self) else
  match ges_active self with
  | None => (Err SErr_NotFound, self)
  | Some old =>
  let self := set_active self None (ges_active_capsule_hash self) in
  match ges_active_capsule_hash self with
  | None => (Err SErr_InvalidEpoch, self)
  | Some old_hash =>
  let self := set_active self None None in
  let old_epoch := cr_guardian_epoch (record_config old) in
  let old := set_qc_hash activation_qc_hash
    (set_drain_deadline drain_deadline (set_epoch_state EpochDraining old)) in
  let self := set_draining self
    (<[old_epoch := {|
         dge_record := old;
         dge_capsule_hash := old_hash;
         dge_drain_deadline := drain_deadline;
         dge_pending_request_ids := pending_old_requests |}]> (ges_draining self)) in
  (Ok (), set_finished self None
    (<[hex_encode rotation_id := {|
         rt_rotation_id := rotation_id;
         rt_plan_hash := plan_hash;
         rt_predecessor_capsule_hash := old_hash;
         rt_terminal_state := RotDraining |}]> (ges_rotation_tombstones self))
    (Some qc))
  end end.

Definition finish_draining_request (self : GuardianEpochStore) (guardian_epoch : u64)
    (request_id : Id32) : Result StorageError () * GuardianEpochStore :=
  match ges_draining self !! guardian_epoch with
  | None => (Err SErr_NotFound, self)
  | Some draining =>
      (Ok (), set_draining self
        (<[guardian_epoch := {|
             dge_record := dge_record draining;
             dge_capsule_hash := dge_capsule_hash draining;
             dge_drain_deadline := dge_drain_deadline draining;
             dge_pending_request_ids :=
               dge_pending_request_ids draining ∖ {[request_id]} |}]>
           (ges_draining self)))
  end.

Definition retire_epoch (self : GuardianEpochStore) (guardian_epoch monotonic_now : u64) :
    Result StorageError Id32 * GuardianEpochStore :=
  match ges_draining self !! guardian_epoch with
  | None => (Err SErr_NotFound, self)
  | Some draining =>
  if (monotonic_now <? uval (dge_drain_deadline draining))%mr
     || bool_decide (dge_pending_request_ids draining ≠ ∅)
  then (Err SErr_NotDurable, self) else
  (Ok (dge_capsule_hash draining),
   set_draining self (delete guardian_epoch (ges_draining self)))
  end.

End operations.

(** *** Calls and runs *)

Inductive Op : Set :=
| OpPrepare (rotation_id plan_hash : Id32) (record : GuardianRecordV3)
    (journal : DpssSessionJournal)
| OpActivate (rotation_id plan_hash : Id32) (qc : EpochActivationQc)
    (activation_qc_hash : Id32) (drain_deadline : u64) (pending : gset Id32)
| OpAbort (rotation_id plan_hash : Id32)
| OpObserve (rotation_id plan_hash : Id32) (qc : EpochActivationQc)
    (activation_qc_hash : Id32) (drain_deadline : u64) (pending : gset Id32)
| OpFinish (guardian_epoch : u64) (request_id : Id32)
| OpRetire (guardian_epoch monotonic_now : u64).

(** The answer of a call, without the value it carries. *)
Definition step (hex_encode : Id32 → string) (self : GuardianEpochStore) (op : Op) :
    Result StorageError () * GuardianEpochStore :=
  let unit {T} (rs : Result StorageError T * GuardianEpochStore) :=
    ((λ _, ()) <$> rs.1, rs.2) in
  match op with
  | OpPrepare rid ph record journal =>
      unit (prepare_successor hex_encode self rid ph record journal)
  | OpActivate rid ph qc qh dl pending =>
      activate_successor hex_encode self rid ph qc qh dl pending
  | OpAbort rid ph => abort_prepared hex_encode self rid ph
  | OpObserve rid ph qc qh dl pending =>
      observe_replacement_activation hex_encode self rid ph qc qh dl pending
  | OpFinish e id => finish_draining_request self e id
  | OpRetire e mono => unit (retire_epoch self e mono)
  end.

(** The store after the calls, and the calls it accepted, the oldest first. *)
Fixpoint run (hex_encode : Id32 → string) (self : GuardianEpochStore) (ops : list Op) :
    list Op * GuardianEpochStore :=
  match ops with
  | [] => ([], self)
  | op :: ops =>
      let '(r, s) := step hex_encode self op in
      let '(accepted, final) := run hex_encode s ops in
      ((if is_ok r then [op] else []) ++ accepted, final)
  end.

(** The rotations a list of accepted calls ended. *)
Definition ended (ops : list Op) : list Id32 :=
  omap (λ op, match op with
    | OpActivate rid _ _ _ _ _ | OpAbort rid _ | OpObserve rid _ _ _ _ _ => Some rid
    | _ => None end) ops.
Definition activated (ops : list Op) : list Id32 :=
  omap (λ op, match op with OpActivate rid _ _ _ _ _ => Some rid | _ => None end) ops.

(** *** Well-formed stores *)

Definition epoch_state (r : GuardianRecordV3) : GuardianEpochState :=
  gpol3_epoch_state (grec3_policy r).

Record wf (hex_encode : Id32 → string) (s : GuardianEpochStore) : Prop := {
  wf_active :
    match ges_active s, ges_active_capsule_hash s with
    | Some r, Some h =>
        record_config r = ges_expected_predecessor s
        ∧ h = ges_expected_predecessor_capsule_hash s ∧ epoch_state r = EpochActive
    | None, None => True
    | _, _ => False
    end;
  wf_prepared p : ges_prepared s = Some p →
    is_direct_successor_of (record_config (pge_record p)) (ges_expected_predecessor s) = true
    ∧ gpol3_predecessor_capsule_hash (grec3_policy (pge_record p))
      = ges_expected_predecessor_capsule_hash s
    ∧ epoch_state (pge_record p) = EpochPrepared
    ∧ ges_rotation_tombstones s !! hex_encode (pge_rotation_id p) = None
    ∧ uval (pge_durable_write_generation p) ≠ 0%N
    ∧ ∃ j, ges_dpss_journal s = Some j ∧ dj_rotation_id j = pge_rotation_id p
        ∧ dj_plan_hash j = pge_plan_hash p;
  wf_journal : is_Some (ges_dpss_journal s) → is_Some (ges_prepared s);
  wf_draining e d : ges_draining s !! e = Some d →
    cr_guardian_epoch (record_config (dge_record d)) = e
    ∧ epoch_state (dge_record d) = EpochDraining
    ∧ gpol3_drain_deadline (grec3_policy (dge_record d)) = Some (dge_drain_deadline d);
  wf_generation : uval (ges_next_write_generation s) ≠ 0%N
}.

Section correctness.
Context (hex_encode : Id32 → string).
#[local] Abbreviation wf := (wf hex_encode).

Lemma wf_new_candidate c h : wf (new_candidate c h).
Proof. split; simpl; try done. Qed.

Lemma wf_new r h : wf (new r h).
Proof. split; simpl; try done. Qed.

(** *** Each operation, inverted *)

Lemma prepare_successor_cases s rid ph record journal r s' :
  prepare_successor hex_encode s rid ph record journal = (r, s') →
  (∃ e, r = Err e ∧ s' = s)
  ∨ (r = Ok (ges_next_write_generation s)
     ∧ ges_rotation_tombstones s !! hex_encode rid = None ∧ ges_prepared s = None
     ∧ is_direct_successor_of (record_config record) (ges_expected_predecessor s) = true
     ∧ gpol3_predecessor_capsule_hash (grec3_policy record)
       = ges_expected_predecessor_capsule_hash s
     ∧ dj_rotation_id journal = rid ∧ dj_plan_hash journal = ph
     ∧ s' = set_finished (set_prepared (set_generation s
              (sat_add (ges_next_write_generation s) (U64 1)))
              (Some {| pge_rotation_id := rid; pge_plan_hash := ph;
                       pge_record := set_epoch_state EpochPrepared record;
                       pge_durable_write_generation := ges_next_write_generation s |}))
            (Some journal) (ges_rotation_tombstones s) (ges_activation_qc s)).
Proof.
  unfold prepare_successor. intros H.
  case_bool_decide as Et; [injection H as <- <-; left; by eexists |].
  case_bool_decide as Ep; [injection H as <- <-; left; by eexists |].
  destruct ((_ || _)%mr) eqn:E; [injection H as <- <-; left; by eexists |].
  rewrite !orb_false_iff, !neb_false, negb_false_iff in E.
  destruct E as [[[Hd Hph] Hj1] Hj2]. injection H as <- <-. right.
  apply eq_None_not_Some in Et, Ep. by split_and!.
Qed.

(** What must hold for a prepared successor to be activated. *)
Definition activation_ok (s : GuardianEpochStore) (rid ph : Id32) (qc : EpochActivationQc)
    (pending : gset Id32) (p : PreparedGuardianEpoch) : Prop :=
  ges_prepared s = Some p
  ∧ pge_rotation_id p = rid ∧ pge_plan_hash p = ph ∧ qc_rotation_id qc = rid
  ∧ qc_predecessor_epoch qc = cr_guardian_epoch (ges_expected_predecessor s)
  ∧ qc_predecessor_capsule_hash qc = ges_expected_predecessor_capsule_hash s
  ∧ qc_successor_epoch qc = cr_guardian_epoch (record_config (pge_record p))
  ∧ (ges_active s = None → pending = ∅).

(** The record a guardian serves after an activation. *)
Definition activated_record (p : PreparedGuardianEpoch) (qh : Id32) : GuardianRecordV3 :=
  set_qc_hash qh (set_epoch_state EpochActive (pge_record p)).

(** The draining entry an activation leaves for the old record. *)
Definition drained (old : GuardianRecordV3) (h : Id32) (dl : u64) (pending : gset Id32) :
    DrainingGuardianEpoch :=
  {| dge_record := set_drain_deadline dl (set_epoch_state EpochDraining old);
     dge_capsule_hash := h; dge_drain_deadline := dl;
     dge_pending_request_ids := pending |}.

Definition activated_store (s : GuardianEpochStore) (rid ph : Id32)
    (qc : EpochActivationQc) (qh : Id32) (dl : u64) (pending : gset Id32)
    (p : PreparedGuardianEpoch) : GuardianEpochStore := {|
  ges_config_id := ges_config_id s;
  ges_expected_predecessor := record_config (pge_record p);
  ges_expected_predecessor_capsule_hash := qc_successor_capsule_hash qc;
  ges_active := Some (activated_record p qh);
  ges_active_capsule_hash := Some (qc_successor_capsule_hash qc);
  ges_prepared := None;
  ges_draining :=
    match ges_active s with
    | Some old =>
        <[cr_guardian_epoch (record_config old) :=
            drained old (ges_expected_predecessor_capsule_hash s) dl pending]>
          (ges_draining s)
    | None => ges_draining s
    end;
  ges_dpss_journal := None;
  ges_rotation_tombstones := <[hex_encode rid := {|
      rt_rotation_id := rid; rt_plan_hash := ph;
      rt_predecessor_capsule_hash := ges_expected_predecessor_capsule_hash s;
      rt_terminal_state := RotActive |}]> (ges_rotation_tombstones s);
  ges_recovery_cancellation_tombstones := ges_recovery_cancellation_tombstones s;
  ges_activation_qc := Some qc;
  ges_next_write_generation := ges_next_write_generation s
|}.

Lemma set_prepared_self s p : ges_prepared s = Some p →
  set_prepared (set_prepared s None) (Some p) = s.
Proof. destruct s; simpl. by intros ->. Qed.

Lemma store_activate_successor_cases s rid ph qc qh dl pending r s' :
  wf s → activate_successor hex_encode s rid ph qc qh dl pending = (r, s') →
  (∃ e, r = Err e ∧ s' = s ∧ ∀ p, ¬ activation_ok s rid ph qc pending p)
  ∨ (∃ p, r = Ok () ∧ activation_ok s rid ph qc pending p
       ∧ s' = activated_store s rid ph qc qh dl pending p).
Proof.
  intros Hwf H. unfold activate_successor in H. unfold activation_ok.
  destruct (ges_prepared s) as [p|] eqn:Ep.
  2: { injection H as <- <-. left. eexists. split_and!; [done | done | by intros p []]. }
  destruct ((_ || _)%mr) eqn:E.
  { rewrite set_prepared_self in H by done. injection H as <- <-. left. eexists.
    split_and!; [done | done |]. intros p' ([= <-] & E1 & E2 & E3 & E4 & E5 & E6 & _).
    rewrite !orb_true_iff, !bool_decide_eq_true in E. simpl in E. tauto. }
  rewrite !orb_false_iff, !neb_false in E. simpl in E.
  destruct E as [[[[[E1 E2] E3] E4] E5] E6].
  destruct Hwf as [Hact _ _ _ _]. cbn [ges_active set_prepared] in H.
  destruct (ges_active s) as [old|] eqn:Ea.
  - cbn [ges_active_capsule_hash set_active set_prepared] in H.
    destruct (ges_active_capsule_hash s) as [h|] eqn:Eh; [| done].
    destruct Hact as (_ & -> & _). injection H as <- <-. right. exists p.
    split; [done |]. split; [by split_and! |].
    unfold activated_store. by rewrite Ea.
  - destruct (ges_active_capsule_hash s); [done |].
    case_bool_decide as Epd.
    + rewrite set_prepared_self in H by done. injection H as <- <-. left. eexists.
      split_and!; [done | done |]. intros p' (_&_&_&_&_&_&_&Hpd). by destruct Epd; apply Hpd.
    + injection H as <- <-. right. exists p.
      split; [done |]. split; [by split_and! |].
      unfold activated_store. by rewrite Ea.
Qed.

Lemma abort_prepared_cases s rid ph r s' :
  abort_prepared hex_encode s rid ph = (r, s') →
  (∃ e, r = Err e ∧ s' = s)
  ∨ (r = Ok () ∧ qc_rotation_id <$> ges_activation_qc s ≠ Some rid
     ∧ (∀ p, ges_prepared s = Some p → pge_rotation_id p = rid ∧ pge_plan_hash p = ph)
     ∧ s' = set_finished (set_prepared s None) None
         (<[hex_encode rid := {|
              rt_rotation_id := rid; rt_plan_hash := ph;
              rt_predecessor_capsule_hash := ges_expected_predecessor_capsule_hash s;
              rt_terminal_state := RotAborted |}]> (ges_rotation_tombstones s))
         (ges_activation_qc s)).
Proof.
  unfold abort_prepared. intros H.
  case_bool_decide as Eq; [injection H as <- <-; left; by eexists |].
  destruct (ges_prepared s) as [p|] eqn:Ep.
  - destruct ((_ || _)%mr) eqn:E; [injection H as <- <-; left; by eexists |].
    rewrite orb_false_iff, !neb_false in E. injection H as <- <-. right.
    split_and!; [done | done | by intros ? [= <-] | done].
  - injection H as <- <-. right. by split_and!.
Qed.

Lemma observe_replacement_activation_cases s rid ph qc qh dl pending r s' :
  wf s → observe_replacement_activation hex_encode s rid ph qc qh dl pending = (r, s') →
  (∃ e, r = Err e ∧ s' = s)
  ∨ (∃ old h, r = Ok () ∧ ges_active s = Some old ∧ ges_active_capsule_hash s = Some h
     ∧ ges_prepared s = None
     ∧ s' = set_finished
         (set_draining (set_active s None None)
            (<[cr_guardian_epoch (record_config old) := {|
                 dge_record := set_qc_hash qh
                   (set_drain_deadline dl (set_epoch_state EpochDraining old));
                 dge_capsule_hash := h; dge_drain_deadline := dl;
                 dge_pending_request_ids := pending |}]> (ges_draining s)))
         None
         (<[hex_encode rid := {|
              rt_rotation_id := rid; rt_plan_hash := ph;
              rt_predecessor_capsule_hash := h;
              rt_terminal_state := RotDraining |}]> (ges_rotation_tombstones s))
         (Some qc)).
Proof.
  intros [Hact _ _ _ _] H. unfold observe_replacement_activation in H.
  destruct (bool_decide (is_Some (ges_prepared s))) eqn:Ep;
    [injection H as <- <-; left; by eexists |].
  apply bool_decide_eq_false, eq_None_not_Some in Ep. simpl in H.
  case_bool_decide as Ea; [injection H as <- <-; left; by eexists |].
  destruct ((_ || _)%mr) eqn:E; [injection H as <- <-; left; by eexists |].
  destruct (ges_active s) as [old|] eqn:Eo; [| done].
  cbn [ges_active_capsule_hash set_active] in H.
  destruct (ges_active_capsule_hash s) as [h|] eqn:Eh; [| done].
  injection H as <- <-. right. exists old, h. by split_and!.
Qed.

Lemma retire_epoch_cases s e mono r s' :
  retire_epoch s e mono = (r, s') →
  (∃ x, r = Err x ∧ s' = s)
  ∨ (∃ d, r = Ok (dge_capsule_hash d) ∧ ges_draining s !! e = Some d
     ∧ (dge_drain_deadline d ≤ mono)%N ∧ dge_pending_request_ids d = ∅
     ∧ s' = set_draining s (delete e (ges_draining s))).
Proof.
  unfold retire_epoch. intros H.
  destruct (ges_draining s !! e) as [d|] eqn:Ed; [| injection H as <- <-; left; by eexists].
  destruct (_ || _) eqn:E; injection H as <- <-; [left; by eexists |].
  rewrite orb_false_iff, N.ltb_ge, neb_false in E. destruct E. right. exists d. by split_and!.
Qed.

(** *** What every call keeps *)

Lemma wf_step s op r s' : wf s → step hex_encode s op = (r, s') → wf s'.
Proof.
  intros Hwf H. pose proof Hwf as [Ha Hp Hj Hd Hg].
  destruct op as [rid ph record journal | rid ph qc qh dl pending | rid ph
    | rid ph qc qh dl pending | e id | e mono]; simpl in H.
  - destruct (prepare_successor _ _ _ _ _ _) as [r0 s0] eqn:E. injection H as <- <-.
    apply prepare_successor_cases in E
      as [(e & -> & ->) | (-> & Ht & Hn & Hdir & Hh & Hj1 & Hj2 & ->)]; [done |].
    split; simpl; try done.
    + intros p [= <-]. simpl. split_and!; try done. by exists journal.
    + pose proof (sat_add_le (ges_next_write_generation s) (U64 1)) as Hle.
      simpl in Hle. lia.
  - apply store_activate_successor_cases in H as [(e & -> & -> & _) | (p & -> & Hok & ->)];
      [done | | done].
    split; simpl; try done. intros e d.
    destruct (ges_active s) as [old|] eqn:Eo; [| apply Hd].
    intros [[<- <-] | [_ ?]]%lookup_insert_Some; [done | by apply Hd].
  - apply abort_prepared_cases in H as [(e & -> & ->) | (-> & _ & _ & ->)]; [done |].
    split; simpl; done.
  - apply observe_replacement_activation_cases in H
      as [(e & -> & ->) | (old & h & -> & Ho & Hh & Hn & ->)]; [done | | done].
    split; simpl; try done.
    + by rewrite Hn.
    + intros e d [[<- <-] | [_ ?]]%lookup_insert_Some; [done | by apply Hd].
  - unfold finish_draining_request in H.
    destruct (ges_draining s !! e) as [d0|] eqn:Ed; injection H as <- <-; [| done].
    split; simpl; try done. intros e' d [[<- <-] | [_ ?]]%lookup_insert_Some; simpl;
      by apply Hd.
  - destruct (retire_epoch _ _ _) as [r0 s0] eqn:E. injection H as <- <-.
    apply retire_epoch_cases in E as [(x & -> & ->) | (d & -> & _ & _ & _ & ->)]; [done |].
    split; simpl; try done. intros e' d' [_ ?]%lookup_delete_Some. by apply Hd.
Qed.

(** A tombstone is never removed, and an accepted call leaves one for the
    rotation it ends. *)
Lemma step_tombstones s op r s' :
  wf s → step hex_encode s op = (r, s') →
  (∀ k, is_Some (ges_rotation_tombstones s !! k) → is_Some (ges_rotation_tombstones s' !! k))
  ∧ (∀ rid, is_ok r = true → rid ∈ ended [op] →
       is_Some (ges_rotation_tombstones s' !! hex_encode rid)).
Proof.
  intros Hwf H.
  assert (Hins : ∀ (m : gmap string RotationTombstone) k k' t,
    is_Some (m !! k') → is_Some (<[k := t]> m !! k')).
  { intros m k k' t Hk. destruct (decide (k = k')) as [-> |];
      [by rewrite lookup_insert_eq | by rewrite lookup_insert_ne]. }
  destruct op as [rid ph record journal | rid ph qc qh dl pending | rid ph
    | rid ph qc qh dl pending | e id | e mono]; simpl in H.
  - destruct (prepare_successor _ _ _ _ _ _) as [r0 s0] eqn:E. injection H as <- <-.
    apply prepare_successor_cases in E as [(e & -> & ->) | (-> & _ & _ & _ & _ & _ & _ & ->)];
      (split; [done | by intros ? _ ?%elem_of_nil]).
  - apply store_activate_successor_cases in H as [(e & -> & -> & _) | (p & -> & _ & ->)];
      [by split | | done]. split; simpl; [by intros k ?; apply Hins |].
    intros rid' _ ->%list_elem_of_singleton. by rewrite lookup_insert_eq.
  - apply abort_prepared_cases in H as [(e & -> & ->) | (-> & _ & _ & ->)]; [by split |].
    split; simpl; [by intros k ?; apply Hins |].
    intros rid' _ ->%list_elem_of_singleton. by rewrite lookup_insert_eq.
  - apply observe_replacement_activation_cases in H
      as [(e & -> & ->) | (old & h & -> & _ & _ & _ & ->)]; [by split | | done].
    split; simpl; [by intros k ?; apply Hins |].
    intros rid' _ ->%list_elem_of_singleton. by rewrite lookup_insert_eq.
  - unfold finish_draining_request in H.
    destruct (ges_draining s !! e); injection H as <- <-;
      (split; [done | by intros ? _ ?%elem_of_nil]).
  - destruct (retire_epoch _ _ _) as [r0 s0] eqn:E. injection H as <- <-.
    apply retire_epoch_cases in E as [(x & -> & ->) | (d & -> & _ & _ & _ & ->)];
      (split; [done | by intros ? _ ?%elem_of_nil]).
Qed.

Lemma step_activated_fresh s op r s' rid :
  wf s → step hex_encode s op = (r, s') → is_ok r = true → rid ∈ activated [op] →
  ges_rotation_tombstones s !! hex_encode rid = None.
Proof.
  intros Hwf H Hok Hin. destruct op as [| rid' ph qc qh dl pending | | | |];
    simpl in *; try by apply elem_of_nil in Hin.
  apply list_elem_of_singleton in Hin as ->.
  apply store_activate_successor_cases in H as [(e & -> & _) | (p & _ & Hact & _)];
    [done | | done].
  destruct Hact as (Hp & <- & _). by destruct (wf_prepared _ _ Hwf p Hp) as (_&_&_&?&_).
Qed.

Lemma run_facts s ops :
  wf s →
  let '(acc, final) := run hex_encode s ops in
  wf final
  ∧ (∀ k, is_Some (ges_rotation_tombstones s !! k) →
       is_Some (ges_rotation_tombstones final !! k))
  ∧ (∀ rid, rid ∈ ended acc → is_Some (ges_rotation_tombstones final !! hex_encode rid))
  ∧ (∀ rid, rid ∈ activated acc → ges_rotation_tombstones s !! hex_encode rid = None)
  ∧ NoDup (activated acc).
Proof.
  revert s. induction ops as [|op ops IH]; intros s Hwf; simpl.
  { split_and!; try done; [by intros ? ?%elem_of_nil .. | constructor]. }
  destruct (step hex_encode s op) as [r s1] eqn:E. specialize (IH s1 (wf_step _ _ _ _ Hwf E)).
  destruct (run hex_encode s1 ops) as [acc final].
  destruct IH as (Hf & Hmono & Hend & Hact & Hnd).
  destruct (step_tombstones _ _ _ _ Hwf E) as [Hm Ht].
  assert (Hend_app : ended ((if is_ok r then [op] else []) ++ acc)
    = ended (if is_ok r then [op] else []) ++ ended acc) by apply omap_app.
  assert (Hact_app : activated ((if is_ok r then [op] else []) ++ acc)
    = activated (if is_ok r then [op] else []) ++ activated acc) by apply omap_app.
  rewrite Hend_app, Hact_app. split_and!.
  - done.
  - auto.
  - intros rid [Hin | Hin]%elem_of_app; [| by auto].
    destruct (is_ok r) eqn:Er; [| by apply elem_of_nil in Hin]. by apply Hmono, Ht.
  - intros rid [Hin | Hin]%elem_of_app.
    + destruct (is_ok r) eqn:Er; [| by apply elem_of_nil in Hin].
      by eapply step_activated_fresh.
    + apply Hact in Hin. apply eq_None_not_Some. intros ?%Hm.
      by apply eq_None_not_Some in Hin.
  - destruct (is_ok r) eqn:Er; [| done]. apply list.NoDup_app. split_and!; [| | done].
    + destruct op; simpl; try constructor; [apply not_elem_of_nil | constructor].
    + intros rid Hin Hin'. apply Hact, eq_None_not_Some in Hin'. destruct Hin'.
      apply Ht; [done |]. destruct op; simpl in *; try by apply elem_of_nil in Hin.
      done.
Qed.

End correctness.

(** *** Properties *)

(** (safety): a transaction is atomic: when the mutation fails or a failure is
    injected the store is unchanged, and otherwise the store and the answer
    are exactly the mutation's. *)
Theorem transaction_atomic {T} self inject
    (mutate : GuardianEpochStore → Result StorageError T * GuardianEpochStore) r self' :
  transaction self inject mutate = (r, self') →
  (is_ok r = false → self' = self)
  ∧ (∀ v, r = Ok v ↔ inject = false ∧ (mutate self).1 = Ok v)
  ∧ (is_ok r = true → self' = (mutate self).2)
  ∧ (inject = true → ∀ v, (mutate self).1 = Ok v → r = Err SErr_InjectedFailure).
Proof.
  unfold transaction. destruct (mutate self) as [[v | e] c]; simpl.
  - destruct inject; intros [= <- <-]; split_and!; try done; naive_solver.
  - intros [= <- <-]. split_and!; try done. intros v. split; [done | by intros []].
Qed.

(** C33 (type): every call, accepted or refused, keeps a guardian's store
    well formed: the active record is the expected predecessor with its
    capsule hash and is marked active; a prepared record is a direct successor
    of it, marked prepared, durable, journalled and not of an ended rotation;
    every draining record is filed under its own epoch with its deadline.
    Both ways of creating a store start it well formed. *)
Theorem epoch_store_wf hex_encode r h c s ops :
  wf hex_encode (new r h) ∧ wf hex_encode (new_candidate c h)
  ∧ (wf hex_encode s → wf hex_encode (run hex_encode s ops).2).
Proof.
  split_and!; [apply wf_new | apply wf_new_candidate |]. intros Hwf.
  pose proof (run_facts hex_encode s ops Hwf) as H.
  destruct (run hex_encode s ops) as [acc final]. apply H.
Qed.

(** (functional): activating the prepared successor.  On a well-formed store
    it succeeds exactly when a record is prepared for this rotation and plan,
    the QC is for this rotation and links the expected predecessor to the
    prepared epoch, and a guardian without an active record has no pending
    requests; the successor then becomes active under the QC, the old record
    drains under its own epoch with its capsule hash, deadline and pending
    requests, the rotation gets its tombstone, and every other field is kept.
    A refused activation changes nothing. *)
Theorem epoch_store_activation hex_encode s rid ph qc qh dl pending r s' :
  wf hex_encode s → activate_successor hex_encode s rid ph qc qh dl pending = (r, s') →
  (r = Ok () ↔ ∃ p, activation_ok s rid ph qc pending p)
  ∧ (is_ok r = false → s' = s)
  ∧ (∀ p, r = Ok () → ges_prepared s = Some p →
       s' = activated_store hex_encode s rid ph qc qh dl pending p
       ∧ cr_guardian_epoch (ges_expected_predecessor s')
         = sat_add (cr_guardian_epoch (ges_expected_predecessor s)) (U64 1)).
Proof.
  intros Hwf H. apply store_activate_successor_cases in H
    as [(e & -> & -> & Hn) | (p & -> & Hok & ->)]; [| | done].
  - split_and!; try done. split; [done |]. by intros [p ?%Hn].
  - split_and!; [by split; [exists p |] | done |]. intros p' _ Hp.
    destruct Hok as (Hp' & _). rewrite Hp in Hp'. injection Hp' as ->.
    split; [done |]. simpl. destruct (wf_prepared _ _ Hwf _ Hp) as [Hd _].
    apply is_direct_successor_of_spec in Hd. tauto.
Qed.

(** (safety): a rotation ends at most once for a guardian: in any sequence of
    calls no rotation id is activated twice, and once a rotation was
    activated, aborted or observed elsewhere, its id can never be prepared
    again. *)
Theorem epoch_store_no_rotation_replay hex_encode s ops :
  wf hex_encode s →
  let '(acc, final) := run hex_encode s ops in
  NoDup (activated acc)
  ∧ ∀ rid ph record journal, rid ∈ ended acc →
      prepare_successor hex_encode final rid ph record journal = (Err SErr_Replay, final).
Proof.
  intros Hwf. pose proof (run_facts hex_encode s ops Hwf) as H.
  destruct (run hex_encode s ops) as [acc final]. destruct H as (_ & _ & Hend & _ & Hnd).
  split; [done |]. intros rid ph record journal Hin. unfold prepare_successor.
  rewrite bool_decide_eq_true_2; [done | by apply Hend].
Qed.

(** (functional): preparing, acknowledging and retiring.  A successor is
    prepared exactly for an unended rotation, when nothing is prepared, for a
    direct successor bound to the expected predecessor and a journal of the
    same rotation and plan; its generation is then the one the guardian
    acknowledges for exactly this rotation and plan.  An epoch is retired, with
    its capsule hash, exactly at or after its deadline with no pending
    request. *)
Theorem epoch_store_prepare_retire hex_encode s :
  wf hex_encode s →
  (∀ rid ph record journal r s',
     prepare_successor hex_encode s rid ph record journal = (r, s') →
     (is_ok r = true ↔
      ges_rotation_tombstones s !! hex_encode rid = None ∧ ges_prepared s = None
      ∧ is_direct_successor_of (record_config record) (ges_expected_predecessor s) = true
      ∧ gpol3_predecessor_capsule_hash (grec3_policy record)
        = ges_expected_predecessor_capsule_hash s
      ∧ dj_rotation_id journal = rid ∧ dj_plan_hash journal = ph)
     ∧ (is_ok r = false → s' = s)
     ∧ (∀ g, r = Ok g → ∀ rid' ph', prepared_ack_generation s' rid' ph' =
          if bool_decide (rid' = rid ∧ ph' = ph) then Ok g else Err SErr_Conflict))
  ∧ (∀ e mono h, (retire_epoch s e mono).1 = Ok h ↔
       ∃ d, ges_draining s !! e = Some d ∧ (dge_drain_deadline d ≤ mono)%N
         ∧ dge_pending_request_ids d = ∅ ∧ h = dge_capsule_hash d).
Proof.
  intros Hwf. split.
  - intros rid ph record journal r s' H. split_and!.
    + unfold prepare_successor in H. case_bool_decide as Et; simpl in H.
      { injection H as <- <-. split; [done |]. intros (Hn & _).
        by apply eq_None_not_Some in Hn. }
      case_bool_decide as Ep.
      { injection H as <- <-. split; [done |]. intros (_ & Hn & _).
        by apply eq_None_not_Some in Hn. }
      destruct ((_ || _)%mr) eqn:E; injection H as <- <-.
      * split; [done |]. intros (_ & _ & E1 & E2 & E3 & E4).
        rewrite !orb_true_iff, !bool_decide_eq_true, negb_true_iff in E.
        destruct E as [[[E|E]|E]|E]; congruence.
      * rewrite !orb_false_iff, !neb_false, negb_false_iff in E.
        apply eq_None_not_Some in Et, Ep. tauto.
    + apply prepare_successor_cases in H as [(e & -> & ->) | (-> & _)]; done.
    + apply prepare_successor_cases in H as [(e & -> & ->) | (-> & _ & _ & _ & _ & _ & _ & ->)];
        [done |]. intros g [= <-] rid' ph'. unfold prepared_ack_generation. simpl.
      pose proof (wf_generation _ _ Hwf) as Hg%N.eqb_neq.
      destruct (decide (rid' = rid ∧ ph' = ph)) as [[-> ->] | E].
      * rewrite !bool_decide_eq_false_2 by (intros Hne; by apply Hne).
        rewrite bool_decide_eq_true_2 by done. simpl. by rewrite Hg.
      * rewrite (bool_decide_eq_false_2 (rid' = rid ∧ _)) by done.
        destruct ((_ || _)%mr) eqn:Eo; [done |].
        rewrite orb_false_iff, !neb_false in Eo. destruct Eo as [-> ->]. by destruct E.
  - intros e mono h. destruct (retire_epoch s e mono) as [r s'] eqn:E. split.
    + intros Hr. apply retire_epoch_cases in E
        as [(x & -> & _) | (d & -> & ? & ? & ? & _)]; [done |]. injection Hr as <-.
      by exists d.
    + intros (d & Hd & Hle & Hpd & ->). unfold retire_epoch in E. rewrite Hd in E.
      rewrite (proj2 (N.ltb_ge _ _) Hle), Hpd in E. simpl in E. by injection E as <- _.
Qed.

(** *** Witnesses *)

(** [hex::encode]: two lowercase hexadecimal digits per byte. *)
Definition hex_digit (n : N) : Ascii.ascii :=
  Ascii.ascii_of_N (if (n <? 10)%N then 48 + n else 87 + n).
Fixpoint hex_bytes (l : list byte) : string :=
  match l with
  | [] => EmptyString
  | b :: l => String.String (hex_digit (Byte.to_N b / 16))
      (String.String (hex_digit (Byte.to_N b mod 16)) (hex_bytes l))
  end.
Definition ex_hex (id : Id32) : string := hex_bytes id.

Definition ex_id (n : N) : Id32 := brep 32 (byte_of_N n).
Definition ex_config := Rotation.ex_config.
Definition ex_aead : AeadCiphertext :=
  {| aead_nonce := brep 24 x00; aead_ciphertext := [x01] |}.
Definition ex_policy (config : ConfigRef) (predecessor : Id32) : GuardianPolicyV3 := {|
  gpol3_config_ref := config;
  gpol3_epoch_state := EpochActive;
  gpol3_signer_set_commitment := ex_id 2;
  gpol3_signer_count := U16 3;
  gpol3_signer_threshold := U16 2;
  gpol3_owner_cancel_public_key := ex_id 3;
  gpol3_minimum_recovery_delay := U64 10;
  gpol3_guardian_material_root := ex_id 4;
  gpol3_dpss_suite := ZfFrostRistretto255RtsRefreshV1;
  gpol3_dpss_public_commitment := ex_id 5;
  gpol3_predecessor_capsule_hash := predecessor;
  gpol3_activation_qc_hash := None;
  gpol3_drain_deadline := None
|}.
Definition ex_record (config : ConfigRef) (predecessor : Id32) : GuardianRecordV3 := {|
  grec3_opaque_slot_id := ex_id 6;
  grec3_guardian_index := U16 1;
  grec3_fragment_index := U16 1;
  grec3_encrypted_ciphertext_fragment := ex_aead;
  grec3_encrypted_dek_share := ex_aead;
  grec3_merkle_path_proof := [];
  grec3_custody_root := ex_id 7;
  grec3_policy := ex_policy config predecessor
|}.
Definition ex_journal (rid ph : N) : DpssSessionJournal := {|
  dj_rotation_id := ex_id rid;
  dj_plan_hash := ex_id ph;
  dj_session_id := ex_id 8;
  dj_qualified_set_digest := ex_id 9;
  dj_phase := U16 1;
  dj_next_sequence := U64 1;
  dj_provider_public_journal := [];
  dj_encrypted_provider_secret_journal := ex_aead
|}.
Definition ex_qc (rid epoch : N) (pre suc : Id32) : EpochActivationQc := {|
  qc_protocol_version := PROTOCOL_VERSION_V3;
  qc_config_id := ex_id 1;
  qc_rotation_id := ex_id rid;
  qc_predecessor_epoch := U64 epoch;
  qc_predecessor_capsule_hash := pre;
  qc_successor_epoch := U64 (epoch + 1);
  qc_successor_capsule_hash := suc;
  qc_activation_certificate_hash := ex_id 12;
  qc_witness_fault_bound := U16 1;
  qc_witness_acks := []
|}.
Definition ex_store : GuardianEpochStore :=
  new (ex_record (ex_config 1 1) (ex_id 20)) (ex_id 21).

(** Two rotations, 30 and 31, both activated. *)
Definition ex_ops : list Op := [
  OpPrepare (ex_id 30) (ex_id 40) (ex_record (ex_config 2 2) (ex_id 21)) (ex_journal 30 40);
  OpActivate (ex_id 30) (ex_id 40) (ex_qc 30 1 (ex_id 21) (ex_id 22)) (ex_id 50)
    (U64 100) {[ex_id 60]};
  OpPrepare (ex_id 31) (ex_id 41) (ex_record (ex_config 3 3) (ex_id 22)) (ex_journal 31 41);
  OpActivate (ex_id 31) (ex_id 41) (ex_qc 31 2 (ex_id 22) (ex_id 23)) (ex_id 51)
    (U64 200) ∅
].

Lemma transaction_atomic_witness :
  (transaction ex_store true
     (λ s, abort_prepared ex_hex s (ex_id 30) (ex_id 40))).2 = ex_store.
Proof.
  destruct (transaction _ _ _) as [r s'] eqn:E.
  destruct (transaction_atomic _ _ _ _ _ E) as (Hfail & _ & _ & Hinj).
  apply Hfail. by rewrite (Hinj eq_refl ()).
Defined.

Lemma epoch_store_wf_witness :
  wf ex_hex (run ex_hex ex_store ex_ops).2
  ∧ length (run ex_hex ex_store ex_ops).1 = 4.
Proof.
  split; [| by vm_compute].
  apply (epoch_store_wf ex_hex (ex_record (ex_config 1 1) (ex_id 20)) (ex_id 21)
    (ex_config 1 1) ex_store ex_ops). apply wf_new.
Defined.

Lemma epoch_store_activation_witness :
  let s := (run ex_hex ex_store (take 1 ex_ops)).2 in
  ∃ s', activate_successor ex_hex s (ex_id 30) (ex_id 40)
      (ex_qc 30 1 (ex_id 21) (ex_id 22)) (ex_id 50) (U64 100) {[ex_id 60]} = (Ok (), s')
    ∧ ∃ p, activation_ok s (ex_id 30) (ex_id 40) (ex_qc 30 1 (ex_id 21) (ex_id 22))
        {[ex_id 60]} p.
Proof.
  intros s. destruct (activate_successor ex_hex s _ _ _ _ _ _) as [r s'] eqn:E.
  assert (Hwf : wf ex_hex s).
  { pose proof (run_facts ex_hex ex_store (take 1 ex_ops) (wf_new _ _ _)) as H.
    unfold s. destruct (run ex_hex ex_store (take 1 ex_ops)). apply H. }
  assert (Hr : r = Ok ()).
  { apply (f_equal fst) in E. vm_compute in E. by rewrite E. }
  exists s'. split; [by rewrite Hr |].
  by apply (epoch_store_activation _ _ _ _ _ _ _ _ _ _ Hwf E).
Defined.

Lemma epoch_store_no_rotation_replay_witness :
  prepare_successor ex_hex (run ex_hex ex_store ex_ops).2 (ex_id 30) (ex_id 40)
    (ex_record (ex_config 4 4) (ex_id 23)) (ex_journal 30 40)
  = (Err SErr_Replay, (run ex_hex ex_store ex_ops).2).
Proof.
  pose proof (epoch_store_no_rotation_replay ex_hex ex_store ex_ops (wf_new _ _ _)) as H.
  rewrite (surjective_pairing (run ex_hex ex_store ex_ops)) in H.
  destruct H as [_ H]. apply H. vm_compute. left.
Defined.

Lemma epoch_store_prepare_retire_witness :
  (retire_epoch (run ex_hex ex_store ex_ops).2 (U64 2) (U64 200)).1 = Ok (ex_id 22)
  ∧ (retire_epoch (run ex_hex ex_store ex_ops).2 (U64 1) (U64 200)).1 = Err SErr_NotDurable.
Proof.
  split; [| by vm_compute].
  pose proof (run_facts ex_hex ex_store ex_ops (wf_new _ _ _)) as H.
  assert (Hwf : wf ex_hex (run ex_hex ex_store ex_ops).2).
  { destruct (run ex_hex ex_store ex_ops). apply H. }
  apply (epoch_store_prepare_retire ex_hex _ Hwf). eexists.
  split_and!; [by vm_compute | by vm_compute | reflexivity | by vm_compute].
Defined.

(** Aborting a rotation that was activated before the current one is accepted,
    and turns its tombstone from [Active] into [Aborted]. *)
Lemma abort_overwrites_activated_tombstone :
  let s := (run ex_hex ex_store ex_ops).2 in
  rt_terminal_state <$> ges_rotation_tombstones s !! ex_hex (ex_id 30) = Some RotActive
  ∧ (abort_prepared ex_hex s (ex_id 30) (ex_id 40)).1 = Ok ()
  ∧ rt_terminal_state <$>
      ges_rotation_tombstones (abort_prepared ex_hex s (ex_id 30) (ex_id 40)).2
        !! ex_hex (ex_id 30) = Some RotAborted.
Proof. split_and!; vm_compute; reflexivity. Qed.

End Epochs.

(** ** Signers' votes *)

Module Votes.

Record SignerRotationStore : Set := mkSignerRotationStore {
  srs_predecessor_plan_locks : gmap string Id32;
  srs_intents : gmap string RotationIntent;
  srs_intent_votes : gmap string Id32;
  srs_begin_votes : gmap string Id32;
  srs_release_votes : gmap string Id32;
  srs_activate_votes : gmap string Id32;
  srs_cancelled_rotations : gmap string Id32;
  srs_highest_observed_epoch : gmap string u64
}.

Definition new : SignerRotationStore := {|
  srs_predecessor_plan_locks := ∅;
  srs_intents := ∅;
  srs_intent_votes := ∅;
  srs_begin_votes := ∅;
  srs_release_votes := ∅;
  srs_activate_votes := ∅;
  srs_cancelled_rotations := ∅;
  srs_highest_observed_epoch := ∅
|}.

Section votes.
Context (hex_encode : Id32 → string).

Definition record_vote (votes : gmap string Id32) (rotation_id transcript_hash : Id32) :
    Result StorageError () * gmap string Id32 :=
  let key := hex_encode rotation_id in
  match votes !! key with
  | Some existing =>
      (if bool_decide (existing ≠ transcript_hash) then Err SErr_Conflict else Ok (), votes)
  | None => (Ok (), <[key := transcript_hash]> votes)
  end.

Definition lock_plan (self : SignerRotationStore) (predecessor_hash plan_hash : Id32) :
    Result StorageError () * SignerRotationStore :=
  let key := hex_encode predecessor_hash in
  match srs_predecessor_plan_locks self !! key with
  | Some existing =>
      (if bool_decide (existing ≠ plan_hash) then Err SErr_Conflict else Ok (), self)
  | None =>
      (Ok (), {|
         srs_predecessor_plan_locks :=
           <[key := plan_hash]> (srs_predecessor_plan_locks self);
         srs_intents := srs_intents self;
         srs_intent_votes := srs_intent_votes self;
         srs_begin_votes := srs_begin_votes self;
         srs_release_votes := srs_release_votes self;
         srs_activate_votes := srs_activate_votes self;
         srs_cancelled_rotations := srs_cancelled_rotations self;
         srs_highest_observed_epoch := srs_highest_observed_epoch self |})
  end.

(** The votes of a sequence that were accepted, and the map after them. *)
Fixpoint record_all (votes : gmap string Id32) (calls : list (Id32 * Id32)) :
    list (Id32 * Id32) * gmap string Id32 :=
  match calls with
  | [] => ([], votes)
  | (rid, th) :: calls =>
      let '(r, votes) := record_vote votes rid th in
      let '(accepted, final) := record_all votes calls in
      ((if is_ok r then [(rid, th)] else []) ++ accepted, final)
  end.

Fixpoint lock_all (self : SignerRotationStore) (calls : list (Id32 * Id32)) :
    list (Id32 * Id32) * SignerRotationStore :=
  match calls with
  | [] => ([], self)
  | (p, ph) :: calls =>
      let '(r, s) := lock_plan self p ph in
      let '(accepted, final) := lock_all s calls in
      ((if is_ok r then [(p, ph)] else []) ++ accepted, final)
  end.

(** Locking a plan is recording a vote for the predecessor. *)
Lemma lock_plan_record s p ph :
  (lock_plan s p ph).1 = (record_vote (srs_predecessor_plan_locks s) p ph).1
  ∧ srs_predecessor_plan_locks (lock_plan s p ph).2
    = (record_vote (srs_predecessor_plan_locks s) p ph).2.
Proof. unfold lock_plan, record_vote. by case_match. Qed.

Lemma lock_all_record s calls :
  (lock_all s calls).1 = (record_all (srs_predecessor_plan_locks s) calls).1
  ∧ srs_predecessor_plan_locks (lock_all s calls).2
    = (record_all (srs_predecessor_plan_locks s) calls).2.
Proof.
  revert s. induction calls as [|[p ph] calls IH]; intros s; simpl; [done |].
  destruct (lock_plan_record s p ph) as [E1 E2].
  destruct (lock_plan s p ph) as [r s1], (record_vote _ p ph) as [r' v1]. simpl in *. subst.
  destruct (IH s1) as [F1 F2].
  destruct (lock_all s1 calls), (record_all _ calls). simpl in *. by subst.
Qed.

Lemma record_vote_spec votes rid th r votes' :
  record_vote votes rid th = (r, votes') →
  (r = Ok () ↔ votes !! hex_encode rid = None ∨ votes !! hex_encode rid = Some th)
  ∧ (r = Ok () → votes' !! hex_encode rid = Some th)
  ∧ (∀ k h, votes !! k = Some h → votes' !! k = Some h)
  ∧ (is_ok r = false → r = Err SErr_Conflict ∧ votes' = votes).
Proof.
  unfold record_vote. destruct (votes !! hex_encode rid) as [h|] eqn:E.
  - case_bool_decide as Eh; intros [= <- <-]; split_and!; try done; try naive_solver.
  - intros [= <- <-]. split_and!; [by split; [left |] | | | done].
    + intros _. by rewrite lookup_insert_eq.
    + intros k h Hk. rewrite lookup_insert_ne; [done |]. intros <-. congruence.
Qed.

Lemma record_all_final votes calls :
  let '(acc, final) := record_all votes calls in
  (∀ k h, votes !! k = Some h → final !! k = Some h)
  ∧ (∀ rid th, (rid, th) ∈ acc → final !! hex_encode rid = Some th).
Proof.
  revert votes. induction calls as [|[rid th] calls IH]; intros votes; simpl.
  { split; [done | by intros ? ? ?%elem_of_nil]. }
  destruct (record_vote votes rid th) as [r v1] eqn:E.
  apply record_vote_spec in E as (_ & Hth & Hk & _).
  specialize (IH v1). destruct (record_all v1 calls) as [acc final].
  destruct IH as [IH1 IH2]. split; [by auto |].
  intros rid' th' [Hin | Hin]%elem_of_app; [| by auto].
  destruct r as [[] |]; simpl in Hin; [| by apply elem_of_nil in Hin].
  apply list_elem_of_singleton in Hin as [= -> ->]. by apply IH1, Hth.
Qed.
End votes.

(** (safety): a signer never equivocates: among all votes of one kind it
    accepts to record, two for the same rotation have the same transcript
    hash, and among all plans it locks, two for the same predecessor capsule
    are the same plan; repeating a recorded vote is accepted and changes
    nothing; a refused vote is a conflict and changes nothing. *)
Theorem signer_no_equivocation (hex_encode : Id32 → string) :
  (∀ votes calls rid th1 th2,
     (rid, th1) ∈ (record_all hex_encode votes calls).1 →
     (rid, th2) ∈ (record_all hex_encode votes calls).1 → th1 = th2)
  ∧ (∀ s calls p ph1 ph2,
     (p, ph1) ∈ (lock_all hex_encode s calls).1 →
     (p, ph2) ∈ (lock_all hex_encode s calls).1 → ph1 = ph2)
  ∧ (∀ votes rid th, (record_vote hex_encode votes rid th).1 = Ok () →
     record_vote hex_encode (record_vote hex_encode votes rid th).2 rid th
     = (Ok (), (record_vote hex_encode votes rid th).2))
  ∧ (∀ votes rid th, is_ok (record_vote hex_encode votes rid th).1 = false →
     record_vote hex_encode votes rid th = (Err SErr_Conflict, votes)).
Proof.
  assert (Hrec : ∀ votes calls rid th1 th2,
     (rid, th1) ∈ (record_all hex_encode votes calls).1 →
     (rid, th2) ∈ (record_all hex_encode votes calls).1 → th1 = th2).
  { intros votes calls rid th1 th2.
    pose proof (record_all_final hex_encode votes calls) as H.
    destruct (record_all hex_encode votes calls) as [acc final]. simpl.
    intros H1 H2. apply H in H1, H2. congruence. }
  split_and!; [exact Hrec | | |].
  - intros s calls p ph1 ph2. destruct (lock_all_record hex_encode s calls) as [-> _].
    apply Hrec.
  - intros votes rid th Hok. destruct (record_vote hex_encode votes rid th) as [r v] eqn:E.
    apply record_vote_spec in E as (_ & Hth & _). simpl in *.
    unfold record_vote. rewrite (Hth Hok). by case_bool_decide.
  - intros votes rid th Hok. destruct (record_vote hex_encode votes rid th) as [r v] eqn:E.
    apply record_vote_spec in E as (_ & _ & _ & Hf). by destruct (Hf Hok) as [-> ->].
Qed.

(** A signer with a recorded vote refuses another and repeats the first. *)
Lemma signer_no_equivocation_witness :
  (record_all Epochs.ex_hex ∅ [(Epochs.ex_id 1, Epochs.ex_id 2);
     (Epochs.ex_id 1, Epochs.ex_id 3); (Epochs.ex_id 1, Epochs.ex_id 2)]).1
  = [(Epochs.ex_id 1, Epochs.ex_id 2); (Epochs.ex_id 1, Epochs.ex_id 2)]
  ∧ record_vote Epochs.ex_hex
      {[Epochs.ex_hex (Epochs.ex_id 1) := Epochs.ex_id 2]} (Epochs.ex_id 1) (Epochs.ex_id 3)
    = (Err SErr_Conflict, {[Epochs.ex_hex (Epochs.ex_id 1) := Epochs.ex_id 2]}).
Proof.
  split; [by vm_compute |].
  apply (signer_no_equivocation Epochs.ex_hex). by vm_compute.
Defined.

End Votes.

(** ** One witness's store *)

Module WitnessStore.

Record WitnessEpochStore : Set := mkWitnessEpochStore {
  wes_config_id : Id32;
  wes_highest_guardian_epoch : u64;
  wes_highest_capsule_hash : Id32;
  wes_predecessor_locks : gmap string Id32;
  wes_seen_read_nonces : gset Id32
}.

Definition new (config_ref : ConfigRef) (capsule_hash : Id32) : WitnessEpochStore := {|
  wes_config_id := cr_config_id config_ref;
  wes_highest_guardian_epoch := cr_guardian_epoch config_ref;
  wes_highest_capsule_hash := capsule_hash;
  wes_predecessor_locks := ∅;
  wes_seen_read_nonces := ∅
|}.

(** Assignments to the head and its locks. *)
Definition set_head (self : WitnessEpochStore) (epoch : u64) (hash : Id32)
    (locks : gmap string Id32) : WitnessEpochStore := {|
  wes_config_id := wes_config_id self;
  wes_highest_guardian_epoch := epoch;
  wes_highest_capsule_hash := hash;
  wes_predecessor_locks := locks;
  wes_seen_read_nonces := wes_seen_read_nonces self
|}.

Definition observe_read_nonce (self : WitnessEpochStore) (nonce : Id32) :
    Result StorageError () * WitnessEpochStore :=
  if bool_decide (nonce ∈ wes_seen_read_nonces self) then (Err SErr_Replay, self) else
  (Ok (), {|
     wes_config_id := wes_config_id self;
     wes_highest_guardian_epoch := wes_highest_guardian_epoch self;
     wes_highest_capsule_hash := wes_highest_capsule_hash self;
     wes_predecessor_locks := wes_predecessor_locks self;
     wes_seen_read_nonces := {[nonce]} ∪ wes_seen_read_nonces self |}).

Section store.
Context (hex_encode : Id32 → string).

Definition persist_successor_before_ack (self : WitnessEpochStore)
    (predecessor : ConfigRef) (predecessor_capsule_hash : Id32)
    (successor : ConfigRef) (successor_capsule_hash : Id32) :
    Result StorageError () * WitnessEpochStore :=
  if negb (is_direct_successor_of successor predecessor)
  then (Err SErr_InvalidEpoch, self) else
  let predecessor_key := hex_encode predecessor_capsule_hash in
  match wes_predecessor_locks self !! predecessor_key with
  | Some existing =>
      (if bool_decide (existing = successor_capsule_hash)
       then Ok () else Err SErr_Conflict, self)
  | None =>
      if ((cr_config_id predecessor !=? wes_config_id self)
          || (cr_guardian_epoch predecessor !=? wes_highest_guardian_epoch self)
          || (predecessor_capsule_hash !=? wes_highest_capsule_hash self))%mr
      then (Err SErr_InvalidEpoch, self) else
      (Ok (), set_head self (cr_guardian_epoch successor) successor_capsule_hash
        (<[predecessor_key := successor_capsule_hash]> (wes_predecessor_locks self)))
  end.

Definition cancel_pending_successor (self : WitnessEpochStore) (predecessor_epoch : u64)
    (predecessor_capsule_hash : Id32) (successor_epoch : u64)
    (successor_capsule_hash : Id32) : Result StorageError () * WitnessEpochStore :=
  let predecessor_key := hex_encode predecessor_capsule_hash in
  if ((successor_epoch !=? sat_add predecessor_epoch (U64 1))
      || (wes_highest_guardian_epoch self !=? successor_epoch)
      || (wes_highest_capsule_hash self !=? successor_capsule_hash)
      || (wes_predecessor_locks self !! predecessor_key
          !=? Some successor_capsule_hash))%mr
  then (Err SErr_Conflict, self) else
  (Ok (), set_head self predecessor_epoch predecessor_capsule_hash
    (delete predecessor_key (wes_predecessor_locks self))).

(** *** The store and the witness machine of gp-core *)

(** The store holds the machine's head, locks and nonces. *)
Record stores (m : Witness.EpochWitnessMachine) (s : WitnessEpochStore) : Prop := {
  sto_config : wes_config_id s = Witness.ew_config_id m;
  sto_epoch : wes_highest_guardian_epoch s = Witness.ew_highest_epoch m;
  sto_hash : wes_highest_capsule_hash s = Witness.ew_highest_capsule_hash m;
  sto_locks h : wes_predecessor_locks s !! hex_encode h
    = Witness.ew_predecessor_locks m !! h;
  sto_nonces : wes_seen_read_nonces s = Witness.ew_seen_read_nonces m
}.
End store.

(** C31 (refinement): the store implements the witness machine.  From a store
    that holds a machine, whatever the machine accepts with a valid certificate
    the store persists, and the results hold each other; when the store moves
    its head, an unambiguous machine accepts the same successor; and the store
    records the nonce of every read the machine signs. *)
Theorem witness_store_refines hex_encode m s pre preh suc such :
  Inj (=) (=) hex_encode → stores hex_encode m s →
  (∀ a m', Witness.accept_successor m pre preh suc such true = (Ok a, m') →
     ∃ s', persist_successor_before_ack hex_encode s pre preh suc such = (Ok (), s')
       ∧ stores hex_encode m' s')
  ∧ (∀ s', persist_successor_before_ack hex_encode s pre preh suc such = (Ok (), s') →
     s' ≠ s → Witness.ew_ambiguous m = false →
     ∃ a m', Witness.accept_successor m pre preh suc such true = (Ok a, m')
       ∧ stores hex_encode m' s')
  ∧ (∀ c n issued expiry now a m',
     Witness.fresh_read m c n issued expiry now = (Ok a, m') →
     ∃ s', observe_read_nonce s n = (Ok (), s') ∧ stores hex_encode m' s').
Proof.
  intros Hinj [Hc He Hh Hl Hn].
  assert (Hins : ∀ h, <[hex_encode preh := such]> (wes_predecessor_locks s) !! hex_encode h
    = <[preh := such]> (Witness.ew_predecessor_locks m) !! h).
  { intros h. destruct (decide (preh = h)) as [<- | Hne].
    - by rewrite !lookup_insert_eq.
    - rewrite !lookup_insert_ne by (try done; by intros ?%Hinj). apply Hl. }
  split_and!.
  - intros a m' H. apply Witness.accept_successor_cases in H
      as [(e & ? & _) | (_ & Hok & Hm)]; [done |].
    destruct Hok as (_ & _ & E1 & E2 & E3 & E4 & _).
    unfold persist_successor_before_ack. rewrite E4, Hl. simpl.
    destruct Hm as [[-> ->] | [-> ->]].
    + rewrite bool_decide_eq_true_2 by done. by exists s.
    + rewrite Hc, He, Hh, E1, E2, E3, !bool_decide_eq_false_2 by (intros Hne; by apply Hne).
      simpl. eexists. split; [done |]. rewrite <- E3. by split.
  - intros s' H Hne Ha. unfold persist_successor_before_ack in H.
    destruct (is_direct_successor_of suc pre) eqn:Hd; simpl in H; [| done].
    rewrite Hl in H. unfold Witness.accept_successor. rewrite Ha, Hd. simpl.
    destruct (Witness.ew_predecessor_locks m !! preh) eqn:El.
    { case_bool_decide; [by injection H as <- | done]. }
    rewrite Hc, He, Hh in H. rewrite orb_false_r.
    destruct ((_ || _)%mr) eqn:E; [done |]. injection H as <-.
    do 2 eexists. split; [done |]. by split.
  - intros c n issued expiry now a m' H. apply Witness.fresh_read_cases in H
      as [(e & ? & _) | (_ & Hok & ->)]; [done |]. destruct Hok as (_ & _ & _ & Hnn).
    unfold observe_read_nonce. rewrite Hn, bool_decide_eq_false_2 by done.
    eexists. split; [done |]. split; simpl; [done.. |]. congruence.
Qed.

(** (roundtrip): an owner's cancellation undoes exactly the pending
    successor: after a persist that moved the head, cancelling that successor
    restores the store, and after a further successor was persisted on top of
    it, the same cancellation is refused and changes nothing. *)
Theorem witness_cancel_roundtrip hex_encode s pre preh suc such s' :
  persist_successor_before_ack hex_encode s pre preh suc such = (Ok (), s') → s' ≠ s →
  cancel_pending_successor hex_encode s' (cr_guardian_epoch pre) preh
    (cr_guardian_epoch suc) such = (Ok (), s)
  ∧ (∀ suc2 such2 s2,
       persist_successor_before_ack hex_encode s' suc such suc2 such2 = (Ok (), s2) →
       such2 ≠ such →
       (s2 = s' ∨
        cancel_pending_successor hex_encode s2 (cr_guardian_epoch pre) preh
          (cr_guardian_epoch suc) such = (Err SErr_Conflict, s2))).
Proof.
  intros H Hne. unfold persist_successor_before_ack in H.
  destruct (is_direct_successor_of suc pre) eqn:Hd; simpl in H; [| done].
  destruct (wes_predecessor_locks s !! hex_encode preh) eqn:El.
  { case_bool_decide; [by injection H as <- | done]. }
  destruct ((_ || _)%mr) eqn:E; [done |]. injection H as <-.
  rewrite !orb_false_iff, !neb_false in E. destruct E as [[E1 E2] E3].
  apply is_direct_successor_of_spec in Hd as (_&_&_&Hep&_). split.
  - unfold cancel_pending_successor. simpl. rewrite Hep, lookup_insert_eq.
    rewrite !bool_decide_eq_false_2 by (intros Hx; by apply Hx). simpl. f_equal.
    unfold set_head. simpl. rewrite delete_insert_id by exact El. rewrite E2, E3. by destruct s.
  - intros suc2 such2 s2 H Hs. unfold persist_successor_before_ack in H.
    destruct (is_direct_successor_of suc2 suc); simpl in H; [| done].
    destruct (<[hex_encode preh:=such]> (wes_predecessor_locks s) !! hex_encode such).
    { left. case_bool_decide; [by injection H as <- | done]. }
    destruct ((_ || _)%mr); [done |]. injection H as <-. right.
    unfold cancel_pending_successor. simpl.
    rewrite (bool_decide_eq_true_2 (such2 ≠ such)) by done. by rewrite orb_true_r.
Qed.

(** *** Witnesses *)

(** The hexadecimal encoding is injective: the instance the witnesses use. *)
Definition unhex_digit (a : Ascii.ascii) : N :=
  let n := Ascii.N_of_ascii a in (if n <? 58 then n - 48 else n - 87)%N.

Lemma unhex_byte b :
  byte_of_N (16 * unhex_digit (Epochs.hex_digit (Byte.to_N b / 16))
    + unhex_digit (Epochs.hex_digit (Byte.to_N b mod 16))) = b.
Proof. by destruct b. Qed.

Lemma hex_bytes_inj l1 l2 : Epochs.hex_bytes l1 = Epochs.hex_bytes l2 → l1 = l2.
Proof.
  revert l2. induction l1 as [|b1 l1 IH]; intros [|b2 l2]; simpl; try done.
  intros E. injection E as E1 E2 E. f_equal; [| by apply IH].
  by rewrite <- (unhex_byte b1), <- (unhex_byte b2), E1, E2.
Qed.

Lemma ex_hex_inj : Inj (=) (=) Epochs.ex_hex.
Proof. intros a b E. apply barr_eq. by apply hex_bytes_inj. Qed.

Lemma stores_new hex_encode config hash :
  stores hex_encode (Witness.new (cr_config_id config) (cr_guardian_epoch config) hash)
    (new config hash).
Proof. split; simpl; [done.. | | done]. intros h. by rewrite !lookup_empty. Qed.

Definition ex_store : WitnessEpochStore := new (Epochs.ex_config 1 1) (Epochs.ex_id 1).

Definition ex_step (s : WitnessEpochStore) :=
  persist_successor_before_ack Epochs.ex_hex s (Epochs.ex_config 1 1) (Epochs.ex_id 1)
    (Epochs.ex_config 2 2) (Epochs.ex_id 2).

(** A persisted successor is one the witness machine accepts. *)
Lemma witness_store_refines_witness :
  ∃ a m', Witness.accept_successor (Witness.new (Epochs.ex_id 1) (U64 1) (Epochs.ex_id 1))
      (Epochs.ex_config 1 1) (Epochs.ex_id 1) (Epochs.ex_config 2 2) (Epochs.ex_id 2) true
    = (Ok a, m') ∧ stores Epochs.ex_hex m' (ex_step ex_store).2.
Proof.
  destruct (witness_store_refines Epochs.ex_hex
    (Witness.new (Epochs.ex_id 1) (U64 1) (Epochs.ex_id 1)) ex_store
    (Epochs.ex_config 1 1) (Epochs.ex_id 1) (Epochs.ex_config 2 2) (Epochs.ex_id 2)
    ex_hex_inj) as (_ & H & _).
  { exact (stores_new Epochs.ex_hex (Epochs.ex_config 1 1) (Epochs.ex_id 1)). }
  destruct (ex_step ex_store) as [r s'] eqn:E.
  assert (Hr : r = Ok ()).
  { apply (f_equal fst) in E. vm_compute in E. by rewrite E. }
  subst r. apply H; [exact E | | done].
  simpl. intros ->. apply (f_equal (λ x, wes_highest_capsule_hash x.2)) in E.
  vm_compute in E. discriminate E.
Defined.

Lemma witness_cancel_roundtrip_witness :
  cancel_pending_successor Epochs.ex_hex (ex_step ex_store).2 (U64 1) (Epochs.ex_id 1)
    (U64 2) (Epochs.ex_id 2) = (Ok (), ex_store).
Proof.
  destruct (ex_step ex_store) as [r s'] eqn:E.
  assert (Hr : r = Ok ()).
  { apply (f_equal fst) in E. vm_compute in E. by rewrite E. }
  subst r. unfold ex_step in E. apply (witness_cancel_roundtrip _ _ _ _ _ _ _ E).
  intros ->. apply (f_equal (λ x, wes_highest_capsule_hash x.2)) in E.
  vm_compute in E. discriminate E.
Defined.

End WitnessStore.
