(* ===== verification/Crypto.v ===== *)
(** Hashing, signatures and Merkle proofs: crates/gp-crypto/src/lib.rs.

    The wrapped libraries (sha2, ed25519-dalek, rs_merkle) are third-party
    code: they are the operations of the class [Primitives], and every
    definition that reaches one of them takes an instance.  Nothing is assumed
    of an instance; a theorem that needs a property of the primitives (that a
    hash has no collisions, say) names it. *)

From S2P Require Export WireProps.

Inductive CryptoError : Set :=
| CrAuthentication
| CrInvalidThreshold
| CrInvalidSecretLength
| CrInsufficientShares
| CrInvalidShare
| CrDuplicateShare
| CrInvalidFragments
| CrInvalidSignature
| CrInvalidKemData
| CrInvalidMerkleProof
| CrKdf
| CrInvalidFrost
| CrInvalidFrostParticipant.
#[export] Instance CryptoError_eq_dec : EqDecision CryptoError.
Proof. solve_decision. Defined.

Definition XWING_PUBLIC_KEY_LEN : N := 1216.

(** The operations of the wrapped libraries, by their types there. *)
Class Primitives : Type := {
  (* sha2: Sha256::digest *)
  Sha256_digest : list byte → Id32;
  (* ed25519_dalek: VerifyingKey::from_bytes, Signature::try_from, verify *)
  VerifyingKey : Set;
  VerifyingKey_from_bytes : barr 32 → option VerifyingKey;
  Signature : Set;
  Signature_try_from : list byte → option Signature;
  VerifyingKey_verify : VerifyingKey → list byte → Signature → bool;
  (* ed25519_dalek: SigningKey::from_bytes, verifying_key().to_bytes(), sign *)
  SigningKey : Set;
  SigningKey_from_bytes : Id32 → SigningKey;
  SigningKey_verifying_key : SigningKey → barr 32;
  SigningKey_sign : SigningKey → list byte → list byte;
  (* rs_merkle: MerkleTree::from_leaves(leaves).root(), .proof(&[i]).to_bytes() *)
  MerkleTree_root : list Id32 → option Id32;
  MerkleTree_proof : list Id32 → nat → list byte;
  (* rs_merkle: MerkleProof::try_from, verify *)
  MerkleProof : Set;
  MerkleProof_try_from : list byte → option MerkleProof;
  MerkleProof_verify : MerkleProof → Id32 → list N → list Id32 → N → bool
}.

Section crypto.
Context `{Prims : Primitives}.

Definition sha256 (data : list byte) : Id32 := Sha256_digest data.

Definition verify (public_key : barr 32) (transcript signature : list byte) :
    Result CryptoError () :=
  key ← ok_or (VerifyingKey_from_bytes public_key) CrInvalidSignature;
  signature ← ok_or (Signature_try_from signature) CrInvalidSignature;
  if VerifyingKey_verify key transcript signature then Ok () else Err CrInvalidSignature.

Definition signing_key (seed : Id32) : SigningKey := SigningKey_from_bytes seed.
Definition verifying_key_bytes (key : SigningKey) : barr 32 := SigningKey_verifying_key key.
Definition sign (key : SigningKey) (transcript : list byte) : list byte :=
  SigningKey_sign key transcript.

Definition merkle_commit (leaves : list Id32) :
    Result CryptoError (Id32 * list (list byte)) :=
  if bool_decide (leaves = []) then Err CrInvalidMerkleProof else
  root ← ok_or (MerkleTree_root leaves) CrInvalidMerkleProof;
  Ok (root, (λ index, MerkleTree_proof leaves index) <$> seq 0 (length leaves)).

Definition merkle_verify (root leaf : Id32) (index leaf_count : N) (proof : list byte) :
    Result CryptoError () :=
  proof ← ok_or (MerkleProof_try_from proof) CrInvalidMerkleProof;
  if MerkleProof_verify proof root [index] [leaf] leaf_count
  then Ok () else Err CrInvalidMerkleProof.

End crypto.
