(* ===== verification/Sharing.v ===== *)
(** Key derivation, encryption, secret sharing and erasure coding:
    crates/gp-crypto/src/lib.rs.

    The wrapped libraries (hkdf, chacha20poly1305, blahaj, reed_solomon_turbo,
    x_wing) are the operations of the class [SharingPrimitives]; what this
    file defines is the code around them: parameter checks, key-derivation
    inputs, the layout of shards, the share-index bitmap, commitments.  A
    generator seeded with [from_seed] is a function of its seed, so the seed
    is the argument of the operation that draws from it.  [Vec::with_capacity]
    and [zeroize] have no result and leave no trace here. *)

From S2P Require Export Crypto.

(** The operations of the wrapped libraries, by their types there. *)
Class SharingPrimitives : Type := {
  (* hkdf: Hkdf::<Sha256>::new(None, ikm).expand(info, &mut [u8; 32]) *)
  Hkdf_expand : list byte → list byte → option Id32;
  (* chacha20poly1305: encrypt and decrypt, with key, nonce, msg and aad *)
  XChaCha20Poly1305_encrypt :
    barr 32 → barr 24 → list byte → list byte → option (list byte);
  XChaCha20Poly1305_decrypt :
    barr 32 → barr 24 → list byte → list byte → option (list byte);
  (* blahaj: the items of Sharks(threshold).dealer_rng(secret, rng), with the
     seed of rng; Vec::from(&share), Share::try_from, recover *)
  Share : Set;
  Share_to_vec : Share → list byte;
  Share_try_from : list byte → option Share;
  Sharks_dealer_rng : u8 → list byte → Id32 → list Share;
  Sharks_recover : u8 → list Share → option (list byte);
  (* reed_solomon_turbo: ReedSolomon::new(data, parity), encode, reconstruct *)
  ReedSolomon : Set;
  ReedSolomon_new : N → N → option ReedSolomon;
  ReedSolomon_encode : ReedSolomon → list (list byte) → option (list (list byte));
  ReedSolomon_reconstruct :
    ReedSolomon → list (list byte * bool) → option (list (list byte * bool));
  (* x_wing: keys, ciphertexts, encapsulation with the seed of its generator *)
  DecapsulationKey : Set;
  DecapsulationKey_from : Id32 → DecapsulationKey;
  encapsulation_key : DecapsulationKey → list byte;
  EncapsulationKey : Set;
  EncapsulationKey_try_from : list byte → option EncapsulationKey;
  XWingCiphertext : Set;
  XWingCiphertext_try_from : list byte → option XWingCiphertext;
  XWingCiphertext_to_vec : XWingCiphertext → list byte;
  encapsulate_with_rng : EncapsulationKey → Id32 → XWingCiphertext * barr 32;
  decapsulate : DecapsulationKey → XWingCiphertext → barr 32
}.

Definition SHAMIR_SECRET_LEN : N := 32.
Definition SHAMIR_SHARE_LEN : N := SHAMIR_SECRET_LEN + 1.
Definition SHAMIR_MAX_SHARES : u16 := U16 255.
Definition SHAMIR_INDEX_WORDS : nat := 4.
Definition SHAMIR_INDEX_BITS_PER_WORD : N := 64.
Definition CUSTODY_BLOCK_SIZE : nat := 4096.

(** Defined in crates/gp-crypto/src/rotation.rs. *)
Definition FROST_MAX_PARTICIPANTS : u16 := U16 32.

(** [u64::try_from(fragment.len())]. *)
Definition try_u64 (n : N) : option u64 :=
  if (n <? 2 ^ 64)%N then Some (U64 n) else None.

Section sharing.
Context `{Prims : Primitives} `{Sharing : SharingPrimitives}.

(** ** Key derivation *)

Definition hkdf_sha256 (ikm info : list byte) : Result CryptoError Id32 :=
  ok_or (Hkdf_expand ikm info) CrKdf.

(** The [info] of version-2 keys, which two functions build inline. *)
Definition share_kdf_info (config_id : Id32) (config_version : u64) (guardian_index : u16) :
    list byte :=
  as_bytes "gp/guardian-dek-share/v1" ++ config_id ++ be config_version ++ be guardian_index.

Definition guardian_share_key (authorization_key : barr 32) (config_id : Id32)
    (config_version : u64) (guardian_index : u16) : Result CryptoError Id32 :=
  hkdf_sha256 authorization_key (share_kdf_info config_id config_version guardian_index).

Definition config_ref_kdf_info (domain : list byte) (config_ref : ConfigRef)
    (actor_index : option u16) : list byte :=
  domain
  ++ cr_config_id config_ref
  ++ be (cr_payload_generation config_ref)
  ++ be (cr_authorization_epoch config_ref)
  ++ be (cr_guardian_epoch config_ref)
  ++ cr_epoch_binding config_ref
  ++ match actor_index with Some index => be index | None => [] end.

Definition frost_index_out_of_range (guardian_index : u16) : bool :=
  (uval guardian_index =? 0)%N || (FROST_MAX_PARTICIPANTS <? guardian_index)%mr.

Definition guardian_share_key_v3 (authorization_key : barr 32) (config_ref : ConfigRef)
    (guardian_index : u16) : Result CryptoError Id32 :=
  if frost_index_out_of_range guardian_index then Err CrInvalidFrostParticipant else
  hkdf_sha256 authorization_key
    (config_ref_kdf_info (as_bytes "gp/guardian-dek-share/v3") config_ref
      (Some guardian_index)).

Definition guardian_fragment_key_v3 (authorization_key : barr 32) (config_ref : ConfigRef)
    (guardian_index : u16) : Result CryptoError Id32 :=
  if frost_index_out_of_range guardian_index then Err CrInvalidFrostParticipant else
  hkdf_sha256 authorization_key
    (config_ref_kdf_info (as_bytes "gp/guardian-ciphertext-fragment/v3") config_ref
      (Some guardian_index)).

Definition descriptor_key_v3 (authorization_key : barr 32) (config_ref : ConfigRef) :
    Result CryptoError Id32 :=
  hkdf_sha256 authorization_key
    (config_ref_kdf_info (as_bytes "gp/recovery-descriptor/v3") config_ref None).

Definition descriptor_kdf_info (config_id : Id32) (config_version : u64) : list byte :=
  as_bytes "gp/recovery-descriptor/v1" ++ config_id ++ be config_version.

Definition descriptor_key (authorization_key : barr 32) (config_id : Id32)
    (config_version : u64) : Result CryptoError Id32 :=
  hkdf_sha256 authorization_key (descriptor_kdf_info config_id config_version).

(** ** Authenticated encryption *)

Definition aead_encrypt (key : barr 32) (nonce : barr 24)
    (plaintext associated_data : list byte) : Result CryptoError AeadCiphertext :=
  ciphertext ← ok_or (XChaCha20Poly1305_encrypt key nonce plaintext associated_data)
    CrAuthentication;
  Ok {| aead_nonce := nonce; aead_ciphertext := ciphertext |}.

Definition aead_decrypt (key : barr 32) (value : AeadCiphertext)
    (associated_data : list byte) : Result CryptoError (list byte) :=
  ok_or (XChaCha20Poly1305_decrypt key (aead_nonce value) (aead_ciphertext value)
    associated_data) CrAuthentication.

Definition hash_aead (value : AeadCiphertext) : Id32 :=
  sha256 (bytes_of (aead_nonce value) ++ aead_ciphertext value).

Definition journal_kdf_info (canonical_context : list byte) : list byte :=
  as_bytes "gp/local-rotation-journal/v3" ++ sha256 canonical_context.

Definition seal_local_rotation_journal (node_identity_seed : Id32) (nonce : barr 24)
    (plaintext canonical_context : list byte) : Result CryptoError AeadCiphertext :=
  key ← hkdf_sha256 node_identity_seed (journal_kdf_info canonical_context);
  aead_encrypt key nonce plaintext canonical_context.

Definition open_local_rotation_journal (node_identity_seed : Id32)
    (encrypted : AeadCiphertext) (canonical_context : list byte) :
    Result CryptoError (list byte) :=
  key ← hkdf_sha256 node_identity_seed (journal_kdf_info canonical_context);
  aead_decrypt key encrypted canonical_context.

(** ** Sealing to a recipient *)

Record RecipientKeyPair : Set := mkRecipientKeyPair {
  rkp_secret : DecapsulationKey;
  rkp_public : list byte
}.

Definition RecipientKeyPair_from_seed (seed : Id32) : RecipientKeyPair :=
  let secret := DecapsulationKey_from seed in
  {| rkp_secret := secret; rkp_public := encapsulation_key secret |}.

Definition open (self : RecipientKeyPair) (sealed : SealedMessage)
    (associated_data : list byte) : Result CryptoError (list byte) :=
  ciphertext ← ok_or (XWingCiphertext_try_from (sealed_kem_ciphertext sealed))
    CrInvalidKemData;
  aead_decrypt (decapsulate (rkp_secret self) ciphertext) (sealed_payload sealed)
    associated_data.

Definition seal_to_recipient (recipient_public_key : list byte) (kem_seed : Id32)
    (nonce : barr 24) (plaintext associated_data : list byte) :
    Result CryptoError SealedMessage :=
  recipient ← ok_or (EncapsulationKey_try_from recipient_public_key) CrInvalidKemData;
  let '(ciphertext, key) := encapsulate_with_rng recipient kem_seed in
  payload ← aead_encrypt key nonce plaintext associated_data;
  Ok {| sealed_kem_ciphertext := XWingCiphertext_to_vec ciphertext;
        sealed_payload := payload |}.

(** ** Secret sharing *)

Definition split_secret (secret : list byte) (threshold total : u16) (seed : Id32) :
    Result CryptoError (list (list byte)) :=
  if (len secret !=? SHAMIR_SECRET_LEN)%mr then Err CrInvalidSecretLength else
  if ((uval threshold =? 0)%N || (total <? threshold) || (SHAMIR_MAX_SHARES <? total))%mr
  then Err CrInvalidThreshold else
  Ok (Share_to_vec <$>
    take (N.to_nat total) (Sharks_dealer_rng (U8 threshold) secret seed)).

(** [encoded[0]], read only of a nonempty share. *)
Definition share_index (encoded : list byte) : N := Byte.to_N (default x00 (head encoded)).

(** [seen_indices[word] & mask != 0] and [seen_indices[word] |= mask] on words
    of type [u64].  [1_u64 << n] takes [n] modulo 64 and drops what leaves the
    word (a build with overflow checks stops instead); the word is read within
    the table ([index_in_range] in the file [SharingProps]). *)
Definition index_word (index : N) : nat := N.to_nat (index / SHAMIR_INDEX_BITS_PER_WORD).
Definition index_mask (index : N) : u64 :=
  U64 (N.shiftl 1 ((index mod SHAMIR_INDEX_BITS_PER_WORD) mod 64)).
Definition index_seen (seen_indices : list u64) (index : N) : bool :=
  negb (N.land (uval (seen_indices !!! index_word index)) (index_mask index) =? 0)%N.
Definition mark_index (seen_indices : list u64) (index : N) : list u64 :=
  <[index_word index := U64 (N.lor (uval (seen_indices !!! index_word index)) (index_mask index))]>
    seen_indices.

(** The loop over the shares. *)
Fixpoint decode_shares (seen_indices : list u64) (shares : list (list byte)) :
    Result CryptoError (list Share) :=
  match shares with
  | [] => Ok []
  | encoded :: shares =>
      if ((len encoded !=? SHAMIR_SHARE_LEN) || (share_index encoded ==? 0)%N)%mr
      then Err CrInvalidShare else
      if index_seen seen_indices (share_index encoded) then Err CrDuplicateShare else
      share ← ok_or (Share_try_from encoded) CrInvalidShare;
      decoded ← decode_shares (mark_index seen_indices (share_index encoded)) shares;
      Ok (share :: decoded)
  end.

Definition recover_secret (shares : list (list byte)) (threshold : u16) :
    Result CryptoError (list byte) :=
  if ((uval threshold =? 0)%N || (SHAMIR_MAX_SHARES <? threshold))%mr
  then Err CrInvalidThreshold else
  if (len shares <? threshold)%mr then Err CrInsufficientShares else
  if (SHAMIR_MAX_SHARES <? len shares)%mr then Err CrInvalidShare else
  decoded ← decode_shares (replicate SHAMIR_INDEX_WORDS (U64 0)) shares;
  recovered ← ok_or (Sharks_recover (U8 threshold) decoded) CrInvalidShare;
  if (len recovered !=? SHAMIR_SECRET_LEN)%mr then Err CrInvalidShare else
  Ok recovered.

(** ** Erasure coding *)

(** [for (offset, byte) in data { shards[offset / shard_len][offset % shard_len]
    = byte }], from [offset] on.  The indices are in range: [fill_shards_layout]
    in the file [SharingProps]. *)
Fixpoint fill_shards (shard_len offset : nat) (data : list byte) (shards : list (list byte)) :
    list (list byte) :=
  match data with
  | [] => shards
  | byte :: data =>
      fill_shards shard_len (S offset) data
        (alter (λ shard, <[offset `mod` shard_len := byte]> shard)
          (offset `div` shard_len) shards)
  end.

(** [a.div_ceil(b)]. *)
Definition div_ceil (a b : nat) : nat := (a + b - 1) `div` b.

Definition erasure_encode (data : list byte) (data_shards total_shards : u16) :
    Result CryptoError (list (list byte)) :=
  if ((uval data_shards =? 0)%N || (total_shards <? data_shards))%mr
  then Err CrInvalidThreshold else
  let parity := (total_shards - data_shards)%N in
  coder ← ok_or (ReedSolomon_new data_shards parity) CrInvalidThreshold;
  let shard_len := div_ceil (length data) (N.to_nat data_shards) `max` 1 in
  let shards := replicate (N.to_nat total_shards) (replicate shard_len x00) in
  ok_or (ReedSolomon_encode coder (fill_shards shard_len 0 data shards)) CrInvalidFragments.

(** [usize::from(index).checked_sub(1).filter(|position| *position < count)]. *)
Definition position_below (index : u16) (count : nat) : option nat :=
  if (uval index =? 0)%N then None else
  let position := N.to_nat (index - 1) in
  if position <? count then Some position else None.

(** The loop that puts each fragment in its place. *)
Fixpoint place_fragments (shard_len : nat) (shards : list (list byte * bool))
    (fragments : list (u16 * list byte)) : Result CryptoError (list (list byte * bool)) :=
  match fragments with
  | [] => Ok shards
  | (index, fragment) :: fragments =>
      position ← ok_or (position_below index (length shards)) CrInvalidFragments;
      if negb (length fragment =? shard_len) || default false (snd <$> shards !! position)
      then Err CrInvalidFragments
      else place_fragments shard_len (<[position := (fragment, true)]> shards) fragments
  end.

(** The loop that joins the data shards. *)
Fixpoint join_shards (shards : list (list byte * bool)) : Result CryptoError (list byte) :=
  match shards with
  | [] => Ok []
  | (shard, present) :: shards =>
      if negb present then Err CrInvalidFragments else
      output ← join_shards shards; Ok (shard ++ output)
  end.

Definition erasure_reconstruct (fragments : list (u16 * list byte))
    (data_shards total_shards : u16) (original_len : N) : Result CryptoError (list byte) :=
  if ((len fragments <? data_shards) || (total_shards <? data_shards))%mr
  then Err CrInsufficientShares else
  let parity := (total_shards - data_shards)%N in
  coder ← ok_or (ReedSolomon_new data_shards parity) CrInvalidThreshold;
  shard_len ← ok_or
    (length ← (length ∘ snd) <$> head fragments;
     if 0 <? length then Some length else None) CrInvalidFragments;
  shards ← place_fragments shard_len
    (replicate (N.to_nat total_shards) (replicate shard_len x00, false)) fragments;
  shards ← ok_or (ReedSolomon_reconstruct coder shards) CrInvalidFragments;
  output ← join_shards (take (N.to_nat data_shards) shards);
  Ok (take (N.to_nat original_len) output).

Definition rotate_ciphertext_fragments (old_fragments : list (u16 * list byte))
    (old_data_shards old_total_shards : u16) (ciphertext_len : N)
    (new_data_shards new_total_shards : u16) : Result CryptoError (list (list byte)) :=
  if has_duplicate old_fragments.*1 then Err CrInvalidFragments else
  ciphertext ← erasure_reconstruct old_fragments old_data_shards old_total_shards
    ciphertext_len;
  erasure_encode ciphertext new_data_shards new_total_shards.

(** ** Fragment commitments *)

Record CiphertextFragmentCommitment : Set := mkCiphertextFragmentCommitment {
  cfcm_root : Id32;
  cfcm_proofs : list (list byte)
}.

Definition fragment_leaf_preimage (config_id : Id32) (payload_generation : u64)
    (fragment_index : u16) (fragment_len : u64) (fragment_hash : Id32) : list byte :=
  as_bytes "gp/ciphertext-fragment-leaf/v3" ++ config_id ++ be payload_generation
  ++ be fragment_index ++ be fragment_len ++ fragment_hash.

Definition ciphertext_fragment_leaf (config_id : Id32) (payload_generation : u64)
    (fragment_index : u16) (fragment : list byte) : Result CryptoError Id32 :=
  if (uval fragment_index =? 0)%N || bool_decide (fragment = []) then Err CrInvalidFragments else
  fragment_len ← ok_or (try_u64 (len fragment)) CrInvalidFragments;
  Ok (sha256 (fragment_leaf_preimage config_id payload_generation fragment_index
    fragment_len (sha256 fragment))).

(** The leaves of [commit_ciphertext_fragments], with the indices from 1. *)
Definition fragment_leaves (config_id : Id32) (payload_generation : u64)
    (fragments : list (list byte)) : Result CryptoError (list Id32) :=
  collect (λ '(offset, fragment),
      index ← ok_or (try_u16 (N.of_nat offset + 1)) CrInvalidFragments;
      ciphertext_fragment_leaf config_id payload_generation index fragment)
    (imap pair fragments).

Definition commit_ciphertext_fragments (config_id : Id32) (payload_generation : u64)
    (fragments : list (list byte)) : Result CryptoError CiphertextFragmentCommitment :=
  if bool_decide (fragments = []) || (uint_max 16 <? len fragments)%mr
  then Err CrInvalidFragments else
  leaves ← fragment_leaves config_id payload_generation fragments;
  '(root, proofs) ← merkle_commit leaves;
  Ok {| cfcm_root := root; cfcm_proofs := proofs |}.

Definition verify_ciphertext_fragment (root config_id : Id32) (payload_generation : u64)
    (fragment_index total_fragments : u16) (fragment proof : list byte) :
    Result CryptoError () :=
  position ← ok_or (position_below fragment_index (N.to_nat total_fragments))
    CrInvalidFragments;
  leaf ← ciphertext_fragment_leaf config_id payload_generation fragment_index fragment;
  merkle_verify root leaf (N.of_nat position) total_fragments proof.

(** ** Custody commitments *)

Record CustodyCommitment : Set := mkCustodyCommitment {
  cust_root : Id32;
  cust_block_count : u32;
  cust_proofs : list (list byte)
}.

Definition custody_block_preimage (index : u32) (block : list byte) : list byte :=
  as_bytes "gp/custody-block/v3" ++ be index ++ be (U32 (len block)) ++ block.

Definition custody_leaf (index : u32) (block : list byte) : Id32 :=
  sha256 (custody_block_preimage index block).

(** [bytes.chunks(size)]. *)
Definition chunks (size : nat) (bytes : list byte) : list (list byte) :=
  (λ i, take size (drop (i * size) bytes)) <$> seq 0 (div_ceil (length bytes) size).

Definition custody_commit (bytes : list byte) : Result CryptoError CustodyCommitment :=
  if bool_decide (bytes = []) then Err CrInvalidMerkleProof else
  let leaves := imap (λ index block, custody_leaf (U32 (N.of_nat index)) block)
    (chunks CUSTODY_BLOCK_SIZE bytes) in
  block_count ← ok_or (try_u32 (len leaves)) CrInvalidMerkleProof;
  '(root, proofs) ← merkle_commit leaves;
  Ok {| cust_root := root; cust_block_count := block_count; cust_proofs := proofs |}.

Definition custody_verify_block (root : Id32) (block_count block_index : u32)
    (block proof : list byte) : Result CryptoError () :=
  if ((uval block_count =? 0)%N || (block_count <=? block_index)
      || (N.of_nat CUSTODY_BLOCK_SIZE <? len block))%mr
  then Err CrInvalidMerkleProof else
  merkle_verify root (custody_leaf block_index block) block_index block_count proof.

End sharing.

(** ** What the wrapped libraries promise

    The documented behaviour that theorems rely on.  No definition above uses
    these classes; a theorem names the ones it needs. *)

(** Shamir's scheme: the dealer's [i]-th share is labelled [i + 1] and as long
    as the secret, its encoding decodes, and any [threshold] distinct shares of
    one dealing give back the secret. *)
Class ShamirLaws `{SharingPrimitives} : Prop := {
  dealer_count t secret seed :
    (0 < uval t)%N → length (Sharks_dealer_rng t secret seed) = 255;
  dealer_encoding t secret seed i share :
    Sharks_dealer_rng t secret seed !! i = Some share →
    ∃ y, Share_to_vec share = byte_of_N (N.of_nat i + 1) :: y ∧ length y = length secret;
  dealer_decoding t secret seed share :
    share ∈ Sharks_dealer_rng t secret seed →
    Share_try_from (Share_to_vec share) = Some share;
  dealer_recover t secret seed shares :
    (0 < uval t)%N → NoDup shares → shares ⊆ Sharks_dealer_rng t secret seed →
    (uval t <= len shares)%N → Sharks_recover t shares = Some secret
}.

(** A systematic erasure code: encoding keeps the data shards and the length
    of shards, and as many present shards as there are data shards determine
    all of them. *)
Class ReedSolomonLaws `{SharingPrimitives} : Prop := {
  rs_encode data parity coder shards code :
    ReedSolomon_new data parity = Some coder →
    ReedSolomon_encode coder shards = Some code →
    length code = length shards
    ∧ take (N.to_nat data) code = take (N.to_nat data) shards
    ∧ ∀ l, Forall (λ shard, length shard = l) shards → Forall (λ shard, length shard = l) code;
  rs_reconstruct data parity coder shards code received l :
    ReedSolomon_new data parity = Some coder →
    ReedSolomon_encode coder shards = Some code →
    Forall (λ shard, length shard = l) code →
    Forall (λ p, length p.1 = l) received →
    length received = length code →
    (∀ i shard, received !! i = Some (shard, true) → code !! i = Some shard) →
    (data <= len (filter (λ p, p.2 = true) received))%N →
    ReedSolomon_reconstruct coder received = Some ((λ shard, (shard, true)) <$> code)
}.

(** Authenticated encryption and key encapsulation are correct. *)
Class SealingLaws `{SharingPrimitives} : Prop := {
  aead_correct key nonce msg aad ciphertext :
    XChaCha20Poly1305_encrypt key nonce msg aad = Some ciphertext →
    XChaCha20Poly1305_decrypt key nonce ciphertext aad = Some msg;
  encapsulation_correct secret seed recipient ciphertext key :
    EncapsulationKey_try_from (encapsulation_key secret) = Some recipient →
    encapsulate_with_rng recipient seed = (ciphertext, key) →
    XWingCiphertext_try_from (XWingCiphertext_to_vec ciphertext) = Some ciphertext
    ∧ decapsulate secret ciphertext = key
}.

(** Signatures made with a key verify under it, and the proofs of a Merkle
    tree verify against its root. *)
Class SigningLaws `{Primitives} : Prop := {
  sign_correct seed message :
    verify (verifying_key_bytes (signing_key seed)) message (sign (signing_key seed) message)
      = Ok ();
  merkle_correct leaves root proofs i leaf proof :
    merkle_commit leaves = Ok (root, proofs) → leaves !! i = Some leaf →
    proofs !! i = Some proof →
    merkle_verify root leaf (N.of_nat i) (len leaves) proof = Ok ()
}.
