(* ===== verification/RotationProtocol.v ===== *)
(** Certificate and witness-quorum validation:
    crates/gp-network/src/rotation_protocol.rs.

    A validator takes decoded values and answers [Ok] with a hash, or the error
    it stops at.  [anyhow::Error] is [Error]: the message of a [bail!], or the
    error a [?] passes on (of the store, of the rotation machine, [ESerde] from
    serde_json, [EHttp] from reqwest, [EIo] from the file system; [EPanic] stands for an
    index out of range, which ends the task).  Hashes, signatures and Merkle proofs are those of
    the [Primitives] instance. *)

From stdpp Require Import sorting.
From S2P Require Export Crypto Storage CoreRotation.

Inductive Error : Set :=
| Msg (message : string)
| EWire (e : WireError)
| ECrypto (e : CryptoError)
| EStorage (e : StorageError)
| ERotation (e : RotationError)
| ETryFromInt
| ETryFromSlice
| ESerde
| EHttp
| EIo
| EPanic.
#[export] Instance Error_eq_dec : EqDecision Error.
Proof. solve_decision. Defined.

(** [?] on the results of gp-wire and gp-crypto. *)
Definition wire {A} (r : Result WireError A) : Result Error A := map_err EWire r.
Definition crypto {A} (r : Result CryptoError A) : Result Error A := map_err ECrypto r.

(** crates/gp-network/src/types.rs *)
Record WitnessReadEnvelope : Set := mkWitnessReadEnvelope {
  wre_response : WitnessEpochReadResponse;
  wre_capsule : ConfigCapsuleV3
}.
#[export] Instance WitnessReadEnvelope_eq_dec : EqDecision WitnessReadEnvelope.
Proof. solve_decision. Defined.

Module RotationProtocol.

Section validators.
Context `{Prims : Primitives}.

(** ** Recovery Cards *)

Definition required_witness_quorum (fault_bound : u16) : Result Error N :=
  ok_or (value ← checked_mul fault_bound 2; checked_add value 1)
    (Msg "witness quorum size overflow").

(** The loop over the pins; [ids], [keys] and [mailboxes] are its sets. *)
Fixpoint validate_pins (ids : gset u16) (keys : gset (barr 32)) (mailboxes : gset string)
    (pins : list WitnessPin) : Result Error () :=
  match pins with
  | [] => Ok ()
  | pin :: pins =>
      if (uval (pin_witness_id pin) =? 0)%N
         || bool_decide (pin_mailbox pin = ""%string)
         || bool_decide (pin_witness_id pin ∈ ids)
         || bool_decide (pin_public_key pin ∈ keys)
         || bool_decide (pin_mailbox pin ∈ mailboxes)
      then Err (Msg "Recovery Card contains an invalid or duplicate witness pin")
      else validate_pins ({[pin_witness_id pin]} ∪ ids) ({[pin_public_key pin]} ∪ keys)
             ({[pin_mailbox pin]} ∪ mailboxes) pins
  end.

Definition validate_recovery_card_v3 (card : RecoveryCardV3) : Result Error () :=
  if (card3_protocol_version card !=? PROTOCOL_VERSION_V3)%mr
     || (uval (card3_witness_fault_bound card) =? 0)%N
  then Err (Msg "invalid protocol-v3 Recovery Card") else
  required_roster ←
    ok_or (value ← checked_mul (card3_witness_fault_bound card) 3; checked_add value 1)
      (Msg "witness roster size overflow");
  if (len (card3_witnesses card) <? required_roster)%mr
  then Err (Msg "Recovery Card does not pin at least 3f+1 witnesses") else
  validate_pins ∅ ∅ ∅ (card3_witnesses card).

Definition witness_pins (card : RecoveryCardV3) : gmap u16 WitnessPin :=
  btree_collect ((λ pin, (pin_witness_id pin, pin)) <$> card3_witnesses card).

(** ** Recovery requests and certificates *)

Definition validate_signer_membership (signer_id : u16) (signer_public_key : barr 32)
    (membership_proof : list byte) (capsule : ConfigCapsuleV3) : Result Error () :=
  if (uval signer_id =? 0)%N || (cap3_signer_count capsule <? signer_id)%mr
  then Err (Msg "invalid signer id") else
  leaf ← wire (signer_leaf signer_id signer_public_key);
  crypto (merkle_verify (cap3_signer_set_commitment capsule) (sha256 leaf)
    (signer_id - 1) (cap3_signer_count capsule) membership_proof).

Definition recovery_request_digest_v3 (request : RecoveryRequestV3) : Result Error Id32 :=
  sha256 <$> wire (WireV3.recovery_request_digest_v3 request).

Definition validate_recovery_request_for_ref_v3 (request : RecoveryRequestV3)
    (capsule : ConfigCapsuleV3) (expected_config_ref : ConfigRef) (now : u64) :
    Result Error Id32 :=
  let config_ref := rr3_config_ref request in
  if ((rr3_protocol_version request !=? PROTOCOL_VERSION_V3)
      || (config_ref !=? expected_config_ref)
      || (cr_config_id config_ref !=? cr_config_id (cap3_config_ref capsule))
      || (cr_payload_generation config_ref
          !=? cr_payload_generation (cap3_config_ref capsule))
      || (cr_authorization_epoch config_ref
          !=? cr_authorization_epoch (cap3_config_ref capsule))
      || (len (rr3_recovery_recipient_key request) !=? XWING_PUBLIC_KEY_LEN)
      || (now <? rr3_requested_at request)
      || (rr3_expiry request <=? now)
      || (sat_add (rr3_requested_at request) (cap3_max_request_lifetime capsule)
          <? rr3_expiry request))%mr
  then Err (Msg "invalid, stale, expired, or recipient-mismatched v3 recovery request")
  else recovery_request_digest_v3 request.

Definition validate_recovery_request_v3 (request : RecoveryRequestV3)
    (capsule : ConfigCapsuleV3) (now : u64) : Result Error Id32 :=
  validate_recovery_request_for_ref_v3 request capsule (cap3_config_ref capsule) now.

Definition validate_begin_recovery_certificate_v3 (certificate : BeginRecoveryCertificateV3)
    (capsule : ConfigCapsuleV3) (now : u64) : Result Error Id32 :=
  digest ← validate_recovery_request_v3 (brc3_request certificate) capsule now;
  _ ← wire (begin_recovery_certificate_v3 certificate);
  if (brc3_request_digest certificate !=? digest)%mr
  then Err (Msg "v3 Begin certificate has the wrong request digest") else
  ids ← for_each_distinct src3_signer_id (λ _, Ok ())
    (λ contribution _, src3_request contribution !=? brc3_request certificate)%mr
    (Msg "duplicate or request-mismatched signer recovery contribution")
    (λ contribution _,
       _ ← validate_signer_membership (src3_signer_id contribution)
         (src3_signer_public_key contribution)
         (src3_signer_membership_proof contribution) capsule;
       t ← wire (signer_recovery_contribution_v3 contribution);
       crypto (verify (src3_signer_public_key contribution) t
         (src3_signer_signature contribution)))
    ∅ (brc3_signer_contributions certificate);
  if (N.of_nat (size ids) <? cap3_signer_threshold capsule)%mr
  then Err (Msg "v3 Begin certificate has no signer threshold") else
  Ok digest.

Definition validate_recovery_release_certificate_for_ref_v3
    (certificate : RecoveryReleaseCertificateV3) (capsule : ConfigCapsuleV3)
    (expected_config_ref : ConfigRef) (now : u64) : Result Error Id32 :=
  digest ← validate_recovery_request_for_ref_v3 (rrc3_request certificate) capsule
    expected_config_ref now;
  _ ← wire (recovery_release_certificate_v3 certificate);
  if (rrc3_request_digest certificate !=? digest)%mr
  then Err (Msg "v3 Release certificate has the wrong request digest") else
  ids ← for_each_distinct srrv3_signer_id (λ _, Ok ())
    (λ vote _, srrv3_request vote !=? rrc3_request certificate)%mr
    (Msg "duplicate or request-mismatched v3 Release vote")
    (λ vote _,
       _ ← validate_signer_membership (srrv3_signer_id vote) (srrv3_signer_public_key vote)
         (srrv3_signer_membership_proof vote) capsule;
       t ← wire (signer_recovery_release_vote_v3 vote);
       crypto (verify (srrv3_signer_public_key vote) t (srrv3_signer_signature vote)))
    ∅ (rrc3_votes certificate);
  if (N.of_nat (size ids) <? cap3_signer_threshold capsule)%mr
  then Err (Msg "v3 Release certificate has no signer threshold") else
  Ok digest.

Definition validate_owner_recovery_cancel_for_ref_v3
    (certificate : OwnerRecoveryCancelCertificateV3) (request : RecoveryRequestV3)
    (capsule : ConfigCapsuleV3) (expected_config_ref : ConfigRef) (now : u64) :
    Result Error Id32 :=
  digest ← validate_recovery_request_for_ref_v3 request capsule expected_config_ref now;
  if ((orcc3_request certificate !=? request)
      || (orcc3_request_digest certificate !=? digest)
      || (orcc3_owner_cancel_public_key certificate
          !=? cap3_owner_cancel_public_key capsule))%mr
  then Err (Msg "owner cancellation does not bind the exact v3 recovery request") else
  t ← wire (owner_recovery_cancel_certificate_v3 certificate);
  _ ← crypto (verify (orcc3_owner_cancel_public_key certificate) t
    (orcc3_owner_signature certificate));
  Ok digest.

(** ** Rotation plans *)

Definition validate_rotation_plan_v3 (plan : RotationPlan) (predecessor : ConfigCapsuleV3)
    (now : u64) : Result Error Id32 :=
  let malformed := Msg "rotation plan is stale, malformed, or weakens immutable policy" in
  transcript ← wire (rotation_plan plan);
  let context := plan_context plan in
  if ((ctx_protocol_version context !=? PROTOCOL_VERSION_V3)
      || (ctx_config_ref context !=? cap3_config_ref predecessor)
      || (ctx_predecessor_capsule_hash context !=? cap3_capsule_hash predecessor)
      || (plan_predecessor plan !=? cap3_config_ref predecessor)
      || negb (is_direct_successor_of (plan_successor plan) (plan_predecessor plan))
      || (now <? ctx_issued_at context)
      || (ctx_expiry context <=? now)
      || (plan_preparation_deadline plan <=? ctx_issued_at context)
      || (plan_drain_deadline plan <=? plan_preparation_deadline plan)
      || (plan_minimum_delay_secs plan <? cap3_minimum_recovery_delay predecessor)
      || (plan_old_guardian_threshold plan !=? cap3_guardian_threshold predecessor)
      || (plan_data_shards plan !=? cap3_guardian_threshold predecessor)
      || (plan_total_shards plan !=? cap3_guardian_count predecessor)
      || (len (plan_old_roster plan) !=? uval (cap3_guardian_count predecessor))
      || (len (plan_new_roster plan) !=? uval (plan_total_shards plan))
      || (plan_new_guardian_threshold plan <? 2))%mr
  then Err malformed else
  new_count ← ok_or (try_u16 (len (plan_new_roster plan))) ETryFromInt;
  if (uval new_count <? plan_new_guardian_threshold plan)%mr then Err malformed else
  old_roster ← wire (guardian_roster_v3 (plan_old_roster plan));
  new_roster ← wire (guardian_roster_v3 (plan_new_roster plan));
  if ((sha256 old_roster !=? plan_old_roster_commitment plan)
      || (sha256 new_roster !=? plan_new_roster_commitment plan))%mr
  then Err (Msg "rotation roster commitment mismatch") else
  Ok (sha256 transcript).

(** The routes of a roster by guardian index. *)
Definition routes_by_index (roster : list GuardianRouteV3) : gmap u16 GuardianRouteV3 :=
  btree_collect ((λ route, (gr3_guardian_index route, route)) <$> roster).

(** A guardian of both rosters that changed its identity or kept its route. *)
Definition not_carried_over (new : gmap u16 GuardianRouteV3)
    (id_route : u16 * GuardianRouteV3) : bool :=
  let '(id, old_route) := id_route in
  match new !! id with
  | Some new_route =>
      ((gr3_guardian_public_key new_route !=? gr3_guardian_public_key old_route)
       || (gr3_session_recipient_key new_route !=? gr3_session_recipient_key old_route)
       || (gr3_operator_domain_commitment new_route
           !=? gr3_operator_domain_commitment old_route)
       || (gr3_opaque_slot_id new_route ==? gr3_opaque_slot_id old_route)
       || (gr3_mailbox new_route ==? gr3_mailbox old_route))%mr
  | None => false
  end.

(** [map.values().map(f).collect::<BTreeSet<_>>()]. *)
Definition values_set `{Countable B} (f : GuardianRouteV3 → B)
    (m : gmap u16 GuardianRouteV3) : gset B :=
  list_to_set (f <$> (map_to_list m).*2).

(** [removed] and [added] are only used when they have one element, so their
    order is not modelled; [new[&added[0]]] cannot panic, since [added] holds
    keys of [new]. *)
Definition validate_rotation_plan_against_intent_v3 (plan : RotationPlan)
    (intent : RotationIntent) (predecessor : ConfigCapsuleV3) (now : u64) :
    Result Error Id32 :=
  let violates := Msg "rotation plan violates the signer-approved Intent constraints" in
  plan_hash ← validate_rotation_plan_v3 plan predecessor now;
  intent_hash ← sha256 <$> wire (rotation_intent intent);
  if ((plan_context plan !=? ri_context intent)
      || (plan_intent_hash plan !=? intent_hash)
      || (ri_old_guardian_count intent !=? cap3_guardian_count predecessor)
      || (ri_old_guardian_threshold intent !=? cap3_guardian_threshold predecessor))%mr
  then Err violates else
  new_count ← ok_or (try_u16 (len (plan_new_roster plan))) ETryFromInt;
  if (bool_decide (new_count ∉ ri_allowed_new_guardian_count intent)
      || bool_decide (plan_new_guardian_threshold plan
                      ∉ ri_allowed_new_guardian_threshold intent)
      || bool_decide (plan_dpss_suite plan ∉ ri_allowed_dpss_suites intent)
      || (plan_dpss_qualified_set_commitment plan !=? plan_new_roster_commitment plan)
      || (plan_preparation_deadline plan <=? now))%mr
  then Err violates else
  let old := routes_by_index (plan_old_roster plan) in
  let new := routes_by_index (plan_new_roster plan) in
  match elements (dom old ∖ dom new), elements (dom new ∖ dom old) with
  | [removed], [added] =>
  if (sha256 (be removed) !=? ri_selection_constraints_commitment intent)%mr
  then Err (Msg "routine rotation must replace the exact one guardian authorized by Intent")
  else
  if existsb (not_carried_over new) (map_to_list old)
  then Err (Msg "unchanged guardian identity changed or did not receive a fresh route") else
  if ((size (values_set gr3_guardian_public_key new) !=? size new)
      || (size (values_set gr3_mailbox new) !=? size new)
      || (size (values_set gr3_opaque_slot_id new) !=? size new)
      || (size (values_set gr3_operator_domain_commitment new) !=? size new)
      || match new !! added with
         | Some route =>
             bool_decide (gr3_guardian_public_key route
                          ∈ values_set gr3_guardian_public_key old)
         | None => true
         end)%mr
  then Err (Msg "successor roster contains a reused or duplicate guardian identity/route")
  else Ok plan_hash
  | _, _ =>
      Err (Msg "routine rotation must replace the exact one guardian authorized by Intent")
  end.

(** ** Rotation certificates *)

Definition validate_begin_rotation_certificate_v3 (certificate : BeginRotationCertificate)
    (plan : RotationPlan) (predecessor : ConfigCapsuleV3) (now : u64) : Result Error Id32 :=
  plan_hash ← validate_rotation_plan_v3 plan predecessor now;
  transcript ← wire (begin_rotation_certificate certificate);
  if ((brot_context certificate !=? plan_context plan)
      || (brot_intent_hash certificate !=? plan_intent_hash plan)
      || (brot_plan_hash certificate !=? plan_hash)
      || (brot_old_roster_commitment certificate !=? plan_old_roster_commitment plan)
      || (brot_new_roster_commitment certificate !=? plan_new_roster_commitment plan)
      || (plan_preparation_deadline plan <=? now)
      || (brot_not_before_wall certificate
          <? sat_add (ctx_issued_at (brot_context certificate))
               (plan_minimum_delay_secs plan)))%mr
  then Err (Msg "Begin certificate does not bind the exact plan and delay") else
  ids ← for_each_distinct srbv_signer_id (λ _, Ok ()) (λ _ _, false)
    (Msg "duplicate signer Begin vote")
    (λ vote _,
       _ ← validate_signer_membership (srbv_signer_id vote) (srbv_signer_public_key vote)
         (srbv_signer_membership_proof vote) predecessor;
       t ← wire (signer_rotation_begin_vote vote);
       crypto (verify (srbv_signer_public_key vote) t (srbv_signer_signature vote)))
    ∅ (brot_votes certificate);
  if (N.of_nat (size ids) <? cap3_signer_threshold predecessor)%mr
  then Err (Msg "Begin certificate has no signer threshold") else
  Ok (sha256 transcript).

Definition validate_rotation_release_certificate_v3 (release : RotationReleaseCertificate)
    (begin : BeginRotationCertificate) (plan : RotationPlan)
    (predecessor : ConfigCapsuleV3) (now : u64) : Result Error Id32 :=
  begin_hash ← validate_begin_rotation_certificate_v3 begin plan predecessor now;
  transcript ← wire (rotation_release_certificate release);
  let early := Msg "Release certificate is early or does not bind the exact Begin" in
  if (rrc_context release !=? plan_context plan)%mr then Err early else
  plan_transcript ← wire (rotation_plan plan);
  if ((rrc_plan_hash release !=? sha256 plan_transcript)
      || (rrc_begin_certificate_hash release !=? begin_hash)
      || (now <? brot_not_before_wall begin)
      || (plan_preparation_deadline plan <=? now))%mr
  then Err early else
  ids ← for_each_distinct srrv_signer_id (λ _, Ok ()) (λ _ _, false)
    (Msg "duplicate signer Release vote")
    (λ vote _,
       _ ← validate_signer_membership (srrv_signer_id vote) (srrv_signer_public_key vote)
         (srrv_signer_membership_proof vote) predecessor;
       t ← wire (signer_rotation_release_vote vote);
       crypto (verify (srrv_signer_public_key vote) t (srrv_signer_signature vote)))
    ∅ (rrc_votes release);
  if (N.of_nat (size ids) <? cap3_signer_threshold predecessor)%mr
  then Err (Msg "Release certificate has no signer threshold") else
  Ok (sha256 transcript).

(** The states an abort can name: those before activation. *)
Definition before_activation (s : RotationState) : bool :=
  match s with
  | RotProposed | RotDelayPending | RotPreparing | RotReady | RotActivating => true
  | _ => false
  end.

Definition validate_abort_rotation_certificate_v3 (certificate : AbortRotationCertificate)
    (plan : RotationPlan) (predecessor : ConfigCapsuleV3) (now : u64) : Result Error Id32 :=
  plan_hash ← validate_rotation_plan_v3 plan predecessor now;
  transcript ← wire (abort_rotation_certificate certificate);
  if ((arc_context certificate !=? plan_context plan)
      || (arc_plan_hash certificate !=? plan_hash)
      || negb (before_activation (arc_state_at_abort certificate)))%mr
  then Err (Msg "Abort certificate is post-activation or plan-mismatched") else
  signer_ids ← for_each_distinct srabv_signer_id (λ _, Ok ())
    (λ vote _,
       (srabv_context vote !=? arc_context certificate)
       || (srabv_plan_hash vote !=? arc_plan_hash certificate)
       || (srabv_state_at_abort vote !=? arc_state_at_abort certificate)
       || (srabv_reason_code vote !=? arc_reason_code certificate))%mr
    (Msg "Abort certificate contains a duplicate or mismatched vote")
    (λ vote _,
       _ ← validate_signer_membership (srabv_signer_id vote) (srabv_signer_public_key vote)
         (srabv_signer_membership_proof vote) predecessor;
       t ← wire (signer_rotation_abort_vote vote);
       crypto (verify (srabv_signer_public_key vote) t (srabv_signer_signature vote)))
    ∅ (arc_votes certificate);
  if (N.of_nat (size signer_ids) <? cap3_signer_threshold predecessor)%mr
  then Err (Msg "Abort certificate lacks a signer threshold") else
  Ok (sha256 transcript).

Definition validate_owner_rotation_cancel_witness_quorum_v3
    (certificate : OwnerRotationCancelCertificate)
    (witness_acks : list WitnessRotationCancelAck) (card : RecoveryCardV3)
    (plan : RotationPlan) (predecessor : ConfigCapsuleV3) (now : u64) : Result Error Id32 :=
  _ ← validate_recovery_card_v3 card;
  plan_hash ← validate_rotation_plan_v3 plan predecessor now;
  if ((card3_config_id card !=? cr_config_id (cap3_config_ref predecessor))
      || (card3_owner_cancel_public_key card !=? cap3_owner_cancel_public_key predecessor)
      || (orcc_context certificate !=? plan_context plan)
      || (orcc_plan_hash certificate !=? plan_hash)
      || (orcc_owner_cancel_public_key certificate
          !=? cap3_owner_cancel_public_key predecessor)
      || (len (orcc_cancel_response_recipient_key certificate) !=? XWING_PUBLIC_KEY_LEN))%mr
  then Err (Msg "owner rotation cancellation does not bind the active plan and card") else
  cancel_transcript ← wire (owner_rotation_cancel_certificate certificate);
  _ ← crypto (verify (orcc_owner_cancel_public_key certificate) cancel_transcript
    (orcc_owner_signature certificate));
  let cancel_hash := sha256 cancel_transcript in
  let pins := witness_pins card in
  witness_ids ← for_each_distinct wrca_witness_id
    (λ ack, ok_or (pins !! wrca_witness_id ack)
       (Msg "owner cancellation uses an unpinned witness"))
    (λ ack pin,
       (wrca_protocol_version ack !=? PROTOCOL_VERSION_V3)
       || (wrca_config_id ack !=? card3_config_id card)
       || (wrca_rotation_id ack !=? ctx_rotation_id (plan_context plan))
       || (wrca_plan_hash ack !=? plan_hash)
       || (wrca_cancel_certificate_hash ack !=? cancel_hash)
       || (wrca_witness_public_key ack !=? pin_public_key pin))%mr
    (Msg "owner cancellation contains a duplicate or mismatched witness veto")
    (λ ack pin,
       t ← wire (witness_rotation_cancel_ack ack);
       crypto (verify (pin_public_key pin) t (wrca_witness_signature ack)))
    ∅ witness_acks;
  required ← required_witness_quorum (card3_witness_fault_bound card);
  if (N.of_nat (size witness_ids) <? required)%mr
  then Err (Msg "owner cancellation lacks a 2f+1 witness veto quorum") else
  Ok cancel_hash.

(** The public keys of a roster by guardian index. *)
Definition keys_by_index (roster : list GuardianRouteV3) : gmap u16 (barr 32) :=
  btree_collect ((λ route, (gr3_guardian_index route, gr3_guardian_public_key route))
                 <$> roster).

Definition validate_rotation_ready_certificate_v3 (ready : RotationReadyCertificate)
    (plan : RotationPlan) (predecessor : ConfigCapsuleV3) (now : u64) : Result Error Id32 :=
  plan_hash ← validate_rotation_plan_v3 plan predecessor now;
  transcript ← wire (rotation_ready_certificate ready);
  if ((ready_context ready !=? plan_context plan)
      || (ready_plan_hash ready !=? plan_hash)
      || (ready_successor ready !=? plan_successor plan)
      || (plan_preparation_deadline plan <=? now)
      || (len (ready_prepared_acks ready) !=? len (plan_new_roster plan))
      || (len (ready_old_handoff_acks ready) <? plan_old_guardian_threshold plan))%mr
  then Err (Msg "Ready certificate is incomplete or plan-mismatched") else
  let new_keys := keys_by_index (plan_new_roster plan) in
  _ ← for_each (λ ack,
      key ← ok_or (new_keys !! ngpa_new_guardian_index ack)
        (Msg "Prepared ack is from a non-successor guardian");
      t ← wire (new_guardian_prepared_ack ack);
      crypto (verify key t (ngpa_guardian_signature ack)))
    (ready_prepared_acks ready);
  let old_keys := keys_by_index (plan_old_roster plan) in
  _ ← for_each (λ ack,
      key ← ok_or (old_keys !! ogha_old_guardian_index ack)
        (Msg "handoff ack is from a non-predecessor guardian");
      t ← wire (old_guardian_handoff_ack ack);
      crypto (verify key t (ogha_guardian_signature ack)))
    (ready_old_handoff_acks ready);
  Ok (sha256 transcript).

(** ** Reading the epoch from the witnesses *)

(** The loop over the ordered reads; [material] grows by each of them. *)
Fixpoint read_material (ids : gset u16) (material : list byte)
    (ordered : list WitnessReadEnvelope) : Result Error (list byte) :=
  match ordered with
  | [] => Ok material
  | read :: ordered =>
      let id := werr_witness_id (wre_response read) in
      if bool_decide (id ∈ ids) then Err (Msg "duplicate witness in read transcript") else
      t ← wire (witness_epoch_read_response (wre_response read));
      read_material ({[id]} ∪ ids)
        (material ++ t ++ bytes_of (cap3_capsule_hash (wre_capsule read))) ordered
  end.

Definition by_witness_id (a b : WitnessReadEnvelope) : Prop :=
  (werr_witness_id (wre_response a) ≤ werr_witness_id (wre_response b))%N.
#[export] Instance by_witness_id_dec : RelDecision by_witness_id.
Proof. intros a b. unfold by_witness_id. apply _. Defined.

Definition witness_read_quorum_hash_v3 (challenge : EpochReadChallenge)
    (reads : list WitnessReadEnvelope) : Result Error Id32 :=
  let ordered := merge_sort by_witness_id reads in
  material ← wire (epoch_read_challenge challenge);
  sha256 <$> read_material ∅ material ordered.

Definition validate_activate_certificate (capsule : ConfigCapsuleV3)
    (certificate : RotationActivateCertificate) : Result Error Id32 :=
  let from := ctx_config_ref (rac_context certificate) in
  let to := cap3_config_ref capsule in
  if ((rac_successor certificate !=? to)
      || (rac_successor_capsule_hash certificate !=? cap3_capsule_hash capsule)
      || (cr_config_id from !=? cr_config_id to)
      || (cr_payload_generation from !=? cr_payload_generation to)
      || (cr_authorization_epoch from !=? cr_authorization_epoch to)
      || (sat_add (cr_guardian_epoch from) (U64 1) !=? cr_guardian_epoch to)
      || (ctx_predecessor_capsule_hash (rac_context certificate)
          !=? cap3_predecessor_capsule_hash capsule))%mr
  then Err (Msg "Activate certificate does not bind the exact direct successor") else
  transcript ← wire (rotation_activate_certificate certificate);
  signer_ids ← for_each_distinct srav_signer_id (λ _, Ok ())
    (λ vote _, (uval (srav_signer_id vote) =? 0)%N
       || (cap3_signer_count capsule <? srav_signer_id vote)%mr)
    (Msg "Activate certificate contains an invalid signer id")
    (λ vote _,
       leaf ← wire (signer_leaf (srav_signer_id vote) (srav_signer_public_key vote));
       _ ← crypto (merkle_verify (cap3_signer_set_commitment capsule) (sha256 leaf)
         (srav_signer_id vote - 1) (cap3_signer_count capsule)
         (srav_signer_membership_proof vote));
       t ← wire (signer_rotation_activate_vote vote);
       crypto (verify (srav_signer_public_key vote) t (srav_signer_signature vote)))
    ∅ (rac_votes certificate);
  if (N.of_nat (size signer_ids) <? cap3_signer_threshold capsule)%mr
  then Err (Msg "Activate certificate has no signer threshold") else
  Ok (sha256 transcript).

Definition validate_activated_capsule_v3 (card : RecoveryCardV3) (capsule : ConfigCapsuleV3) :
    Result Error () :=
  _ ← validate_recovery_card_v3 card;
  body_hash ← sha256 <$> wire (config_capsule_body_v3 capsule);
  let config_ref := cap3_config_ref capsule in
  if ((cap3_protocol_version capsule !=? PROTOCOL_VERSION_V3)
      || (cr_config_id config_ref !=? card3_config_id card)
      || (cap3_signer_set_commitment capsule !=? card3_signer_set_commitment card)
      || (cap3_owner_cancel_public_key capsule !=? card3_owner_cancel_public_key card)
      || (cap3_capsule_hash capsule !=? body_hash))%mr
  then Err (Msg "capsule does not match the Recovery Card or its canonical body") else
  if (uval (cr_guardian_epoch config_ref) =? 1)%N then
    if (cap3_predecessor_capsule_hash capsule !=? brep 32 x00)%mr
       || bool_decide (is_Some (cap3_activation_certificate capsule))
       || bool_decide (is_Some (cap3_activation_qc capsule))
    then Err (Msg "invalid genesis capsule") else Ok ()
  else
  certificate ← ok_or (cap3_activation_certificate capsule)
    (Msg "successor capsule has no Activate certificate");
  activation_certificate_hash ← validate_activate_certificate capsule certificate;
  qc ← ok_or (cap3_activation_qc capsule) (Msg "successor capsule has no activation QC");
  _ ← wire (epoch_activation_qc qc);
  if ((qc_protocol_version qc !=? PROTOCOL_VERSION_V3)
      || (qc_config_id qc !=? card3_config_id card)
      || (qc_rotation_id qc !=? ctx_rotation_id (rac_context certificate))
      || (qc_predecessor_epoch qc
          !=? cr_guardian_epoch (ctx_config_ref (rac_context certificate)))
      || (qc_predecessor_capsule_hash qc !=? cap3_predecessor_capsule_hash capsule)
      || (qc_successor_epoch qc !=? cr_guardian_epoch config_ref)
      || (qc_successor_capsule_hash qc !=? cap3_capsule_hash capsule)
      || (qc_activation_certificate_hash qc !=? activation_certificate_hash)
      || (qc_witness_fault_bound qc !=? card3_witness_fault_bound card))%mr
  then Err (Msg "activation QC does not bind the exact capsule and certificate") else
  let pins := witness_pins card in
  witness_ids ← for_each_distinct waa_witness_id
    (λ ack, ok_or (pins !! waa_witness_id ack)
       (Msg "activation QC uses an unpinned witness"))
    (λ ack pin,
       (waa_witness_public_key ack !=? pin_public_key pin)
       || (waa_activation_certificate_hash ack !=? activation_certificate_hash))%mr
    (Msg "activation QC contains a duplicate or mismatched witness ack")
    (λ ack pin,
       t ← wire (witness_activation_ack ack);
       crypto (verify (pin_public_key pin) t (waa_witness_signature ack)))
    ∅ (qc_witness_acks qc);
  required ← required_witness_quorum (card3_witness_fault_bound card);
  if (N.of_nat (size witness_ids) <? required)%mr
  then Err (Msg "activation QC has no 2f+1 pinned witness quorum") else
  Ok ().

(** What the read loop has collected: the witnesses that answered, those whose
    answer was valid, and the capsules of the valid answers. *)
Record Reads : Set := mkReads {
  seen_witnesses : gset u16;
  valid_witnesses : gset u16;
  valid : list ConfigCapsuleV3
}.
Definition Reads_new : Reads :=
  {| seen_witnesses := ∅; valid_witnesses := ∅; valid := [] |}.

Definition epoch_of (capsule : ConfigCapsuleV3) : u64 :=
  cr_guardian_epoch (cap3_config_ref capsule).

(** One turn of the loop; [continue] leaves the turn. *)
Definition read_envelope (card : RecoveryCardV3) (challenge : EpochReadChallenge)
    (reads : Reads) (envelope : WitnessReadEnvelope) : Result Error Reads :=
  let response := wre_response envelope in
  let id := werr_witness_id response in
  match witness_pins card !! id with
  | None => Ok reads
  | Some pin =>
  if ((werr_protocol_version response !=? PROTOCOL_VERSION_V3)
      || (werr_config_id response !=? erc_config_id challenge)
      || (werr_client_nonce response !=? erc_client_nonce challenge)
      || (werr_witness_public_key response !=? pin_public_key pin)
      || (werr_highest_guardian_epoch response !=? epoch_of (wre_capsule envelope))
      || (werr_capsule_hash response !=? cap3_capsule_hash (wre_capsule envelope))
      || bool_decide (id ∈ seen_witnesses reads))%mr
  then Ok reads else
  let reads := {| seen_witnesses := {[id]} ∪ seen_witnesses reads;
                  valid_witnesses := valid_witnesses reads; valid := valid reads |} in
  t ← wire (witness_epoch_read_response response);
  if negb (is_ok (verify (pin_public_key pin) t (werr_witness_signature response)))
     || negb (is_ok (validate_activated_capsule_v3 card (wre_capsule envelope)))
  then Ok reads else
  Ok {| seen_witnesses := seen_witnesses reads;
        valid_witnesses := {[id]} ∪ valid_witnesses reads;
        valid := valid reads ++ [wre_capsule envelope] |}
  end.

Fixpoint read_envelopes (card : RecoveryCardV3) (challenge : EpochReadChallenge)
    (reads : Reads) (envelopes : list WitnessReadEnvelope) : Result Error Reads :=
  match envelopes with
  | [] => Ok reads
  | envelope :: envelopes =>
      reads ← read_envelope card challenge reads envelope;
      read_envelopes card challenge reads envelopes
  end.

(** [Iterator::max] over the epochs. *)
Definition max_epoch (capsules : list ConfigCapsuleV3) : option u64 :=
  foldl (λ m c, Some match m with
    | None => epoch_of c
    | Some e => if (uval e <=? epoch_of c)%mr then epoch_of c else e end) None capsules.

Definition valid_genesis_agreement (envelopes : list WitnessReadEnvelope)
    (valid_witnesses : gset u16) (capsule_hash : Id32) : N :=
  N.of_nat (size (list_to_set (C := gset u16)
    ((λ envelope, werr_witness_id (wre_response envelope)) <$>
      filter (λ envelope,
        werr_witness_id (wre_response envelope) ∈ valid_witnesses
        ∧ uval (werr_highest_guardian_epoch (wre_response envelope)) = 1%N
        ∧ werr_capsule_hash (wre_response envelope) = capsule_hash) envelopes))).

(** [highest[0]] cannot panic: one hash was found. *)
Definition select_latest_epoch_v3 (card : RecoveryCardV3) (challenge : EpochReadChallenge)
    (envelopes : list WitnessReadEnvelope) : Result Error ConfigCapsuleV3 :=
  _ ← validate_recovery_card_v3 card;
  _ ← wire (epoch_read_challenge challenge);
  if (erc_config_id challenge !=? card3_config_id card)%mr
  then Err (Msg "witness challenge is for another configuration") else
  reads ← read_envelopes card challenge Reads_new envelopes;
  required ← required_witness_quorum (card3_witness_fault_bound card);
  if (N.of_nat (size (seen_witnesses reads)) <? required)%mr
     || (len (valid reads) <? required)%mr
  then Err (Msg "fresh 2f+1 authenticated witness read quorum was not reached") else
  highest_epoch ← ok_or (max_epoch (valid reads))
    (Msg "witness quorum returned no capsule");
  let highest := filter (λ capsule, epoch_of capsule = highest_epoch) (valid reads) in
  let hashes : gset Id32 := list_to_set (cap3_capsule_hash <$> highest) in
  if bool_decide (size hashes ≠ 1)
  then Err (Msg "conflicting valid capsules exist at the same guardian epoch") else
  match highest with
  | [] => Err (Msg "witness quorum returned no capsule")
  | selected :: _ =>
      if (uval highest_epoch =? 1)%N then
        let agreement := valid_genesis_agreement envelopes (valid_witnesses reads)
          (cap3_capsule_hash selected) in
        required ← required_witness_quorum (card3_witness_fault_bound card);
        if (agreement <? required)%mr
        then Err (Msg "genesis capsule lacks 2f+1 read agreement") else Ok selected
      else Ok selected
  end.

(** ** What an accepted value has been checked for *)

(** A signature by [key] over the transcript [t]. *)
Definition signed (key : barr 32) (t : Result WireError (list byte)) (sig : list byte) :
    Prop :=
  ∃ b, t = Ok b ∧ verify key b sig = Ok ().

(** A signer of the tree committed to by the capsule. *)
Definition member (capsule : ConfigCapsuleV3) (id : u16) (key : barr 32)
    (proof : list byte) : Prop :=
  (1 ≤ uval id ≤ cap3_signer_count capsule)%N
  ∧ ∃ leaf, signer_leaf id key = Ok leaf
      ∧ merkle_verify (cap3_signer_set_commitment capsule) (sha256 leaf)
          (id - 1) (cap3_signer_count capsule) proof = Ok ().

(** At least a threshold of distinct signers of the capsule voted, each with a
    signature over its vote. *)
Definition signer_quorum {V} (capsule : ConfigCapsuleV3) (id : V → u16) (key : V → barr 32)
    (proof sig : V → list byte) (t : V → Result WireError (list byte)) (votes : list V) :
    Prop :=
  NoDup (id <$> votes)
  ∧ (∀ v, v ∈ votes → member capsule (id v) (key v) (proof v) ∧ signed (key v) (t v) (sig v))
  ∧ (cap3_signer_threshold capsule ≤ len votes)%N.

Definition card_ok (card : RecoveryCardV3) : Prop :=
  card3_protocol_version card = PROTOCOL_VERSION_V3
  ∧ uval (card3_witness_fault_bound card) ≠ 0%N
  ∧ (3 * card3_witness_fault_bound card + 1 ≤ len (card3_witnesses card))%N
  ∧ NoDup (pin_witness_id <$> card3_witnesses card)
  ∧ NoDup (pin_public_key <$> card3_witnesses card)
  ∧ NoDup (pin_mailbox <$> card3_witnesses card)
  ∧ (∀ pin, pin ∈ card3_witnesses card →
       uval (pin_witness_id pin) ≠ 0%N ∧ pin_mailbox pin ≠ ""%string).

Definition roster (card : RecoveryCardV3) : gset u16 :=
  list_to_set (pin_witness_id <$> card3_witnesses card).

Lemma wire_Ok {A} (r : Result WireError A) a : wire r = Ok a ↔ r = Ok a.
Proof. apply map_err_Ok. Qed.

Lemma crypto_Ok {A} (r : Result CryptoError A) a : crypto r = Ok a ↔ r = Ok a.
Proof. apply map_err_Ok. Qed.

Lemma signed_Ok key t sig u :
  (wire t ≫= λ b, crypto (verify key b sig)) = Ok u ↔ signed key t sig.
Proof.
  destruct u. rewrite bind_Ok. unfold signed. setoid_rewrite wire_Ok.
  by setoid_rewrite crypto_Ok.
Qed.

Lemma usize_exact (f : u16) (k : N) :
  (k ≤ 3)%N →
  (checked_mul f k ≫= λ value, checked_add value 1) = Some (k * f + 1)%N.
Proof.
  intros Hk. unfold checked_mul, checked_add, checked_usize.
  pose proof (uint_lt f) as Hf. assert (Hb : (2 ^ 16 * 3 + 1 < 2 ^ 64)%N) by done.
  rewrite (proj2 (N.ltb_lt _ _)) by nia. simpl.
  rewrite (proj2 (N.ltb_lt _ _)) by nia. f_equal. lia.
Qed.

Lemma required_witness_quorum_exact f :
  required_witness_quorum f = Ok (2 * f + 1)%N.
Proof. unfold required_witness_quorum. by rewrite usize_exact. Qed.

Lemma validate_pins_Ok ids keys mailboxes pins u :
  validate_pins ids keys mailboxes pins = Ok u ↔
  NoDup (pin_witness_id <$> pins) ∧ NoDup (pin_public_key <$> pins)
  ∧ NoDup (pin_mailbox <$> pins)
  ∧ ∀ pin, pin ∈ pins →
      (uval (pin_witness_id pin) ≠ 0%N ∧ pin_mailbox pin ≠ ""%string)
      ∧ (pin_witness_id pin ∉ ids) ∧ (pin_public_key pin ∉ keys)
      ∧ pin_mailbox pin ∉ mailboxes.
Proof.
  destruct u. revert ids keys mailboxes.
  induction pins as [|p pins IH]; intros ids keys mailboxes; simpl.
  { split; [| done]. intros _. split_and!; [constructor.. |]. by intros ? ?%elem_of_nil. }
  rewrite guard_Ok, IH, !orb_false_iff, !bool_decide_eq_false, N.eqb_neq, !list.NoDup_cons.
  setoid_rewrite elem_of_cons. rewrite !list_elem_of_fmap. split.
  - intros ([[[[H0 Hm] Hi] Hk] Hb] & Hni & Hnk & Hnm & Hall). split_and!; try done.
    1-3: intros (q & Hq & Hin); destruct (Hall q Hin) as (_ & H1 & H2 & H3);
      rewrite Hq in *; set_unfold in H1; set_unfold in H2; set_unfold in H3; tauto.
    intros q [-> | Hin]; [split_and!; done |].
    destruct (Hall q Hin) as (? & H1 & H2 & H3).
    apply not_elem_of_union in H1, H2, H3. tauto.
  - intros ([Hxi Hni] & [Hxk Hnk] & [Hxm Hnm] & Hall).
    destruct (Hall p (or_introl eq_refl)) as ([H0 Hm] & H1 & H2 & H3). split_and!; try done.
    intros q Hin. destruct (Hall q (or_intror Hin)) as ([? ?] & H4 & H5 & H6).
    split_and!; [done | done | ..]; rewrite not_elem_of_union, not_elem_of_singleton;
      (split; [| done]); intros Heq.
    + apply Hxi. by exists q.
    + apply Hxk. by exists q.
    + apply Hxm. by exists q.
Qed.

Lemma validate_recovery_card_Ok card u :
  validate_recovery_card_v3 card = Ok u ↔ card_ok card.
Proof.
  unfold validate_recovery_card_v3, card_ok.
  rewrite guard_Ok, orb_false_iff, neb_false, N.eqb_neq, usize_exact by done. simpl.
  rewrite guard_Ok, N.ltb_ge, validate_pins_Ok. split.
  - intros ([? ?] & ? & ? & ? & ? & Hall). split_and!; try done; intros pin Hin; by apply Hall.
  - intros (? & ? & ? & ? & ? & ? & Hall). split_and!; try done. intros pin Hin.
    split_and!; try (apply not_elem_of_empty); by apply Hall.
Qed.

Lemma witness_pins_lookup card id pin :
  card_ok card →
  witness_pins card !! id = Some pin ↔ pin ∈ card3_witnesses card ∧ pin_witness_id pin = id.
Proof.
  intros (_ & _ & _ & Hnd & _). unfold witness_pins. rewrite btree_collect_NoDup.
  - rewrite list_elem_of_fmap. split.
    + by intros (p & [= -> ->] & Hin).
    + intros [Hin <-]. by exists pin.
  - rewrite <- list_fmap_compose. exact Hnd.
Qed.

Lemma witness_pins_roster card id pin :
  witness_pins card !! id = Some pin → id ∈ roster card.
Proof.
  intros H. apply elem_of_dom_2 in H. unfold witness_pins in H.
  rewrite btree_collect_dom, <- list_fmap_compose in H. exact H.
Qed.

Lemma validate_signer_membership_Ok id key proof capsule u :
  validate_signer_membership id key proof capsule = Ok u ↔ member capsule id key proof.
Proof.
  destruct u. unfold validate_signer_membership, member.
  rewrite guard_Ok, orb_false_iff, N.eqb_neq, N.ltb_ge, bind_Ok.
  setoid_rewrite wire_Ok. setoid_rewrite crypto_Ok. intuition lia.
Qed.

(** The vote loops with their threshold check accept exactly the quorums. *)
Lemma vote_loop_Ok {V} capsule (id : V → u16) key proof sig t (bad : V → bool) e votes ids :
  for_each_distinct id (λ _, Ok ()) (λ v _, bad v) e
    (λ v (_ : ()), _ ← validate_signer_membership (id v) (key v) (proof v) capsule;
       b ← wire (t v); crypto (verify (key v) b (sig v)))
    ∅ votes = Ok ids ∧ (cap3_signer_threshold capsule ≤ N.of_nat (size ids))%N
  ↔ signer_quorum capsule id key proof sig t votes
    ∧ (∀ v, v ∈ votes → bad v = false) ∧ ids = list_to_set (id <$> votes).
Proof.
  rewrite for_each_distinct_Ok. unfold signer_quorum. split.
  - intros [(Hnd & _ & Hall & ->) Hth]. rewrite (right_id_L ∅ (∪)) in *.
    rewrite size_list_to_set, length_fmap in Hth by done. split_and!; try done.
    + intros v Hin. destruct (Hall v Hin) as ([] & _ & _ & H1).
      apply bind_Ok in H1 as (? & ?%validate_signer_membership_Ok & ?%signed_Ok). done.
    + intros v Hin. by destruct (Hall v Hin) as (? & _ & ? & _).
  - intros ((Hnd & Hall & Hth) & Hbad & ->). split.
    + split_and!; [done | intros; apply not_elem_of_empty | | by rewrite (right_id_L ∅ (∪))].
      intros v Hin. exists (). split_and!; [done | by apply Hbad |].
      destruct (Hall v Hin) as [Hm Hs]. apply bind_Ok. exists ().
      by split; [apply validate_signer_membership_Ok | apply signed_Ok].
    + rewrite size_list_to_set, length_fmap by done. done.
Qed.

(** ** Activated capsules *)

(** The Activate certificate of a capsule: it names exactly this direct
    successor, and a threshold of its signers voted for it. *)
Definition activate_certificate_ok (capsule : ConfigCapsuleV3)
    (certificate : RotationActivateCertificate) (hash : Id32) : Prop :=
  let from := ctx_config_ref (rac_context certificate) in
  let to := cap3_config_ref capsule in
  rac_successor certificate = to
  ∧ rac_successor_capsule_hash certificate = cap3_capsule_hash capsule
  ∧ cr_config_id from = cr_config_id to
  ∧ cr_payload_generation from = cr_payload_generation to
  ∧ cr_authorization_epoch from = cr_authorization_epoch to
  ∧ sat_add (cr_guardian_epoch from) (U64 1) = cr_guardian_epoch to
  ∧ ctx_predecessor_capsule_hash (rac_context certificate)
    = cap3_predecessor_capsule_hash capsule
  ∧ (∃ t, rotation_activate_certificate certificate = Ok t ∧ hash = sha256 t)
  ∧ signer_quorum capsule srav_signer_id srav_signer_public_key srav_signer_membership_proof
      srav_signer_signature signer_rotation_activate_vote (rac_votes certificate).

(** An acknowledgement by a witness the card pins, under the pinned key. *)
Definition acked_by (card : RecoveryCardV3) (ack : WitnessActivationAck) : Prop :=
  ∃ pin, witness_pins card !! waa_witness_id ack = Some pin
    ∧ waa_witness_public_key ack = pin_public_key pin
    ∧ signed (pin_public_key pin) (witness_activation_ack ack) (waa_witness_signature ack).

(** The activation QC of a capsule: it links the certificate's predecessor to
    this capsule, and 2f+1 distinct pinned witnesses acknowledged exactly
    that. *)
Definition activation_qc_ok (card : RecoveryCardV3) (capsule : ConfigCapsuleV3)
    (certificate : RotationActivateCertificate) (hash : Id32) (qc : EpochActivationQc) :
    Prop :=
  is_ok (epoch_activation_qc qc) = true
  ∧ qc_config_id qc = card3_config_id card
  ∧ qc_rotation_id qc = ctx_rotation_id (rac_context certificate)
  ∧ qc_predecessor_epoch qc = cr_guardian_epoch (ctx_config_ref (rac_context certificate))
  ∧ qc_predecessor_capsule_hash qc = cap3_predecessor_capsule_hash capsule
  ∧ qc_successor_epoch qc = epoch_of capsule
  ∧ qc_successor_capsule_hash qc = cap3_capsule_hash capsule
  ∧ qc_activation_certificate_hash qc = hash
  ∧ qc_witness_fault_bound qc = card3_witness_fault_bound card
  ∧ (∀ ack, ack ∈ qc_witness_acks qc → ack_bound qc ack ∧ acked_by card ack)
  ∧ NoDup (ack_ids qc)
  ∧ (2 * card3_witness_fault_bound card + 1 ≤ len (ack_ids qc))%N.

(** A capsule a client accepts as activated. *)
Definition activated (card : RecoveryCardV3) (capsule : ConfigCapsuleV3) : Prop :=
  card_ok card
  ∧ cap3_protocol_version capsule = PROTOCOL_VERSION_V3
  ∧ cr_config_id (cap3_config_ref capsule) = card3_config_id card
  ∧ cap3_signer_set_commitment capsule = card3_signer_set_commitment card
  ∧ cap3_owner_cancel_public_key capsule = card3_owner_cancel_public_key card
  ∧ (∃ body, config_capsule_body_v3 capsule = Ok body ∧ cap3_capsule_hash capsule = sha256 body)
  ∧ ((uval (epoch_of capsule) = 1%N
      ∧ cap3_predecessor_capsule_hash capsule = brep 32 x00
      ∧ cap3_activation_certificate capsule = None ∧ cap3_activation_qc capsule = None)
     ∨ (uval (epoch_of capsule) ≠ 1%N
        ∧ ∃ certificate hash qc,
            cap3_activation_certificate capsule = Some certificate
            ∧ cap3_activation_qc capsule = Some qc
            ∧ activate_certificate_ok capsule certificate hash
            ∧ activation_qc_ok card capsule certificate hash qc)).

Lemma validate_activate_certificate_Ok capsule certificate hash :
  validate_activate_certificate capsule certificate = Ok hash ↔
  activate_certificate_ok capsule certificate hash.
Proof.
  unfold validate_activate_certificate, activate_certificate_ok, signer_quorum.
  rewrite guard_Ok, !orb_false_iff, !neb_false. split.
  - intros ([[[[[[E1 E2] E3] E4] E5] E6] E7] & H).
    apply bind_Ok in H as (t & Ht%wire_Ok & H).
    apply bind_Ok in H as (ids & (Hnd & _ & Hall & ->)%for_each_distinct_Ok & H).
    rewrite guard_Ok, N.ltb_ge, (right_id_L ∅ (∪)), size_list_to_set, length_fmap in H
      by done. destruct H as [Hth [= <-]].
    split_and!; [done.. | by exists t | done | | done]. intros v Hin.
    destruct (Hall v Hin) as ([] & _ & [Hz%N.eqb_neq Hc%N.ltb_ge]%orb_false_iff & Hb).
    apply bind_Ok in Hb as (leaf & Hl%wire_Ok & Hb).
    apply bind_Ok in Hb as ([] & Hm%crypto_Ok & Hs%signed_Ok).
    split; [split; [lia | by exists leaf] | done].
  - intros (E1 & E2 & E3 & E4 & E5 & E6 & E7 & (t & Ht & ->) & Hnd & Hall & Hth).
    split; [by split_and! |]. apply bind_Ok. exists t. split; [by apply wire_Ok |].
    apply bind_Ok. eexists. split.
    + apply for_each_distinct_Ok.
      split_and!; [done | intros; apply not_elem_of_empty | | reflexivity].
      intros v Hin. exists (). destruct (Hall v Hin) as [([Hz Hc] & leaf & Hl & Hm) Hs].
      split_and!; [done | apply orb_false_iff; rewrite N.eqb_neq, N.ltb_ge; lia |].
      apply bind_Ok. exists leaf. split; [by apply wire_Ok |].
      apply bind_Ok. exists (). split; [by apply crypto_Ok | by apply signed_Ok].
    + by rewrite guard_Ok, N.ltb_ge, (right_id_L ∅ (∪)), size_list_to_set, length_fmap.
Qed.

(** The witness loop and its quorum check. *)
Lemma qc_loop_Ok card hash qc ids :
  for_each_distinct waa_witness_id
    (λ ack, ok_or (witness_pins card !! waa_witness_id ack)
       (Msg "activation QC uses an unpinned witness"))
    (λ ack pin,
       (waa_witness_public_key ack !=? pin_public_key pin)
       || (waa_activation_certificate_hash ack !=? hash))%mr
    (Msg "activation QC contains a duplicate or mismatched witness ack")
    (λ ack pin,
       t ← wire (witness_activation_ack ack);
       crypto (verify (pin_public_key pin) t (waa_witness_signature ack)))
    ∅ (qc_witness_acks qc) = Ok ids ↔
  NoDup (ack_ids qc)
  ∧ (∀ ack, ack ∈ qc_witness_acks qc →
       acked_by card ack ∧ waa_activation_certificate_hash ack = hash)
  ∧ ids = list_to_set (ack_ids qc).
Proof.
  rewrite for_each_distinct_Ok, (right_id_L ∅ (∪)). split.
  - intros (Hnd & _ & Hall & ->). split_and!; try done. intros ack Hin.
    destruct (Hall ack Hin) as (pin & Hpin%ok_or_Ok & Hbad & Hs%signed_Ok).
    rewrite orb_false_iff, !neb_false in Hbad. destruct Hbad. split; [| done]. by exists pin.
  - intros (Hnd & Hall & ->).
    split_and!; [done | intros; apply not_elem_of_empty | | done]. intros ack Hin.
    destruct (Hall ack Hin) as [(pin & Hpin & Hk & Hs) Hh]. exists pin.
    split_and!; [by apply ok_or_Ok | by rewrite orb_false_iff, !neb_false |].
    by apply signed_Ok.
Qed.

Lemma validate_activated_capsule_Ok card capsule u :
  validate_activated_capsule_v3 card capsule = Ok u ↔ activated card capsule.
Proof.
  destruct u. unfold validate_activated_capsule_v3, activated, epoch_of. split.
  - intros H. apply bind_Ok in H as ([] & Hcard%validate_recovery_card_Ok & H).
    apply bind_Ok in H as (bh & (body & Hbody%wire_Ok & <-)%fmap_Ok & H).
    rewrite guard_Ok, !orb_false_iff, !neb_false in H.
    destruct H as [[[[[E1 E2] E3] E4] E5] H]. split_and!; try done; [by exists body |].
    destruct (uval _ =? 1)%N eqn:Ee.
    + left. rewrite guard_Ok, !orb_false_iff, neb_false, !bool_decide_eq_false in H.
      destruct H as [[[E6 E7%eq_None_not_Some] E8%eq_None_not_Some] _].
      apply N.eqb_eq in Ee. by split_and!.
    + right. split; [by apply N.eqb_neq |].
      apply bind_Ok in H as (certificate & Hc%ok_or_Ok & H).
      apply bind_Ok in H as (hash & Hh%validate_activate_certificate_Ok & H).
      apply bind_Ok in H as (qc & Hqc%ok_or_Ok & H).
      apply bind_Ok in H as (qt & Hqt%wire_Ok & H).
      rewrite guard_Ok, !orb_false_iff, !neb_false in H.
      destruct H as [[[[[[[[[F1 F2] F3] F4] F5] F6] F7] F8] F9] H].
      apply bind_Ok in H as (ids & (Hnd & Hall & ->)%qc_loop_Ok & H).
      rewrite required_witness_quorum_exact in H. apply bind_Ok in H as (? & [= <-] & H).
      rewrite guard_Ok, N.ltb_ge, size_list_to_set in H by done. destruct H as [Hth _].
      exists certificate, hash, qc. split_and!; try done.
      unfold activation_qc_ok. split_and!; try done; [by rewrite Hqt |].
      intros ack Hin. split; [| by apply Hall].
      by apply (epoch_activation_qc_Ok qc qt Hqt).
  - intros (Hcard & E1 & E2 & E3 & E4 & (body & Hbody & E5) & Hcase).
    apply bind_Ok. exists (). split; [by apply validate_recovery_card_Ok |].
    apply bind_Ok. exists (sha256 body).
    split; [apply fmap_Ok; exists body; by rewrite wire_Ok |].
    rewrite guard_Ok, !orb_false_iff, !neb_false. split; [by split_and! |].
    destruct Hcase as [(Ee & E6 & E7 & E8) | (Ee & certificate & hash & qc & Hc & Hqc & Hh & Hok)].
    + by rewrite Ee, E6, E7, E8.
    + apply N.eqb_neq in Ee. rewrite Ee, Hc, Hqc. simpl.
      apply bind_Ok. exists hash. split; [by apply validate_activate_certificate_Ok |].
      destruct Hok as (Hw & F2 & F3 & F4 & F5 & F6 & F7 & F8 & F9 & Hall & Hnd & Hth).
      destruct (epoch_activation_qc qc) as [qt|] eqn:Hqt; [| done]. simpl.
      rewrite guard_Ok, !orb_false_iff, !neb_false.
      pose proof (epoch_activation_qc_Ok qc qt Hqt) as (F1 & _).
      split; [by split_and! |]. apply bind_Ok. exists (list_to_set (ack_ids qc)). split.
      * apply qc_loop_Ok. split_and!; try done. intros ack Hin.
        destruct (Hall ack Hin) as [Hb Ha]. split; [done |]. rewrite <- F8. apply Hb.
      * rewrite required_witness_quorum_exact. simpl.
        by rewrite guard_Ok, N.ltb_ge, size_list_to_set.
Qed.

Lemma activated_acks_pinned card capsule certificate hash qc id :
  activation_qc_ok card capsule certificate hash qc → id ∈ ack_ids qc → id ∈ roster card.
Proof.
  intros (_&_&_&_&_&_&_&_&_& Hall & _) (ack & -> & Hin)%list_elem_of_fmap.
  destruct (Hall ack Hin) as [_ (pin & Hpin & _)]. by eapply witness_pins_roster.
Qed.

(** Two sets of 2f+1 witnesses of a roster of at most 3f+1 share an honest one. *)
Lemma quorums_share_honest (R X Y honest : gset u16) (f : N) :
  X ⊆ R → Y ⊆ R → (N.of_nat (size R) ≤ 3 * f + 1)%N →
  (2 * f + 1 ≤ N.of_nat (size X))%N → (2 * f + 1 ≤ N.of_nat (size Y))%N →
  (N.of_nat (size (R ∖ honest)) ≤ f)%N →
  ∃ w, w ∈ X ∧ w ∈ Y ∧ w ∈ honest.
Proof.
  intros HX HY HR HsX HsY Hf. pose proof (size_overlap R X Y HX HY) as Ho.
  destruct (decide (X ∩ Y ∩ honest = ∅)) as [He | (w & Hw)%set_choose_L].
  - assert (Hsub : X ∩ Y ⊆ R ∖ honest) by set_solver.
    apply subseteq_size in Hsub. lia.
  - exists w. set_solver.
Qed.

End validators.
End RotationProtocol.
