(* ===== verification/Scenario.v ===== *)
(** A small configuration on which the validators and the witness nodes are
    run: two signers, four config witnesses of which one may be faulty, three
    guardians, a genesis capsule and two competing successors.

    The primitives are a toy instance: Fletcher's checksum for the hash, a
    signature that is the key and the checksum of the message, and a Merkle
    proof that lists all leaves.  Nothing here models code; the statements of
    the other files are evaluated on it. *)

From S2P Require Export RotationProtocol.
Export RotationProtocol.

Module Scenario.

(** The sum of the bytes and the sum of its prefixes. *)
Definition checksum (data : list byte) : N * N :=
  foldl (λ '(a, b) x, let a := (a + Byte.to_N x)%N in (a, (b + a)%N)) (1, len data)%N data.
Definition digest (data : list byte) : Id32 :=
  let '(a, b) := checksum data in
  default (brep 32 x00) (try_barr 32 (be_bytes 32 (N.shiftl b 20 + a))).

Definition signature_of (key : barr 32) (message : list byte) : list byte :=
  bytes_of key ++ bytes_of (digest message).

#[export] Instance toy : Primitives := {|
  Sha256_digest := digest;
  VerifyingKey := barr 32;
  VerifyingKey_from_bytes := Some;
  Signature := list byte;
  Signature_try_from := Some;
  VerifyingKey_verify := λ key message signature,
    bool_decide (signature = signature_of key message);
  SigningKey := Id32;
  SigningKey_from_bytes := λ seed, seed;
  SigningKey_verifying_key := λ key, key;
  SigningKey_sign := signature_of;
  MerkleTree_root := λ leaves, Some (digest (concat (bytes_of <$> leaves)));
  MerkleTree_proof := λ leaves _, concat (bytes_of <$> leaves);
  MerkleProof := list byte;
  MerkleProof_try_from := Some;
  MerkleProof_verify := λ proof root indices leaves count,
    bool_decide (root = digest proof) && (len proof =? 32 * count)%N
    && match indices, leaves with
       | [i], [leaf] => bool_decide (take 32 (drop (32 * N.to_nat i) proof) = bytes_of leaf)
       | _, _ => false
       end
|}.

Definition ok_bytes {E} (r : Result E (list byte)) : list byte :=
  match r with Ok b => b | Err _ => [] end.

Definition id (n : N) : Id32 := brep 32 (byte_of_N n).
Definition hex (h : Id32) : string :=
  String.string_of_list_byte (bytes_of h).

(** ** The configuration *)

Definition config (epoch marker : N) : ConfigRef := {|
  cr_config_id := id 1;
  cr_payload_generation := U64 1;
  cr_authorization_epoch := U64 1;
  cr_guardian_epoch := U64 epoch;
  cr_epoch_binding := id marker
|}.

Definition signer_ids : list N := [1; 2]%N.
Definition signer_key (n : N) : barr 32 := id (20 + n).
Definition signer_leaves : list Id32 := Eval vm_compute in
  (λ n, digest (ok_bytes (signer_leaf (U16 n) (signer_key n)))) <$> signer_ids.
Definition signer_root : Id32 := Eval vm_compute in digest (concat (bytes_of <$> signer_leaves)).
Definition signer_proof : list byte := Eval vm_compute in
  concat (bytes_of <$> signer_leaves).
Definition owner_key : barr 32 := id 30.

Definition capsule_with (ref : ConfigRef) (hash predecessor : Id32) (material : N)
    (certificate : option RotationActivateCertificate) (qc : option EpochActivationQc) :
    ConfigCapsuleV3 := {|
  cap3_protocol_version := PROTOCOL_VERSION_V3;
  cap3_config_ref := ref;
  cap3_capsule_hash := hash;
  cap3_predecessor_capsule_hash := predecessor;
  cap3_signer_count := U16 2;
  cap3_signer_threshold := U16 2;
  cap3_guardian_count := U16 3;
  cap3_guardian_threshold := U16 2;
  cap3_minimum_recovery_delay := U64 10;
  cap3_max_request_lifetime := U64 100;
  cap3_signer_set_commitment := signer_root;
  cap3_owner_cancel_public_key := owner_key;
  cap3_dpss_suite := ZfFrostRistretto255RtsRefreshV1;
  cap3_dpss_public_commitment := id 2;
  cap3_ciphertext_fragment_root := id 3;
  cap3_guardian_material_root := id material;
  cap3_encrypted_recovery_descriptor :=
    {| aead_nonce := brep 24 x00; aead_ciphertext := [x05] |};
  cap3_activation_certificate := certificate;
  cap3_activation_qc := qc
|}.

Definition capsule_hash (ref : ConfigRef) (predecessor : Id32) (material : N) : Id32 :=
  digest (ok_bytes (config_capsule_body_v3
    (capsule_with ref (brep 32 x00) predecessor material None None))).

Definition genesis_hash : Id32 := Eval vm_compute in capsule_hash (config 1 1) (brep 32 x00) 4.
Definition genesis : ConfigCapsuleV3 :=
  capsule_with (config 1 1) genesis_hash (brep 32 x00) 4 None None.

Definition card : RecoveryCardV3 := {|
  card3_protocol_version := PROTOCOL_VERSION_V3;
  card3_config_id := id 1;
  card3_signer_mailboxes := [];
  card3_signer_set_commitment := signer_root;
  card3_owner_cancel_public_key := owner_key;
  card3_witness_fault_bound := U16 1;
  card3_witnesses := (λ w, {| pin_witness_id := U16 w;
    pin_mailbox := hex (id (60 + w)); pin_public_key := id w |}) <$> [1; 2; 3; 4]%N;
  card3_relay_bases := []
|}.

(** ** Reads *)

Definition challenge (nonce : N) : EpochReadChallenge := {|
  erc_protocol_version := PROTOCOL_VERSION_V3;
  erc_config_id := id 1;
  erc_client_nonce := id nonce;
  erc_response_recipient_key := [x01];
  erc_issued_at := U64 100;
  erc_expiry := U64 200
|}.

Definition response (nonce : N) (capsule : ConfigCapsuleV3) (signature : list byte) (w : N) :
    WitnessEpochReadResponse := {|
  werr_protocol_version := PROTOCOL_VERSION_V3;
  werr_config_id := id 1;
  werr_client_nonce := id nonce;
  werr_witness_id := U16 w;
  werr_highest_guardian_epoch := epoch_of capsule;
  werr_capsule_hash := cap3_capsule_hash capsule;
  werr_witness_public_key := id w;
  werr_witness_signature := signature
|}.
Definition read (nonce : N) (capsule : ConfigCapsuleV3) (w : N) : WitnessReadEnvelope := {|
  wre_response := response nonce capsule (signature_of (id w)
    (ok_bytes (witness_epoch_read_response (response nonce capsule [] w)))) w;
  wre_capsule := capsule
|}.

(** The read on which the rotations are intended. *)
Definition genesis_reads : list WitnessReadEnvelope := read 11 genesis <$> [1; 2; 3]%N.
Definition read_hash : Id32 := Eval vm_compute in
  match witness_read_quorum_hash_v3 (challenge 11) genesis_reads with
  | Ok hash => hash
  | Err _ => id 6
  end.

(** [f], with its values at 1 and 2 at hand. *)
Definition tabled {A} (f : N → A) (one two : A) (n : N) : A :=
  if (n =? 1)%N then one else if (n =? 2)%N then two else f n.

(** ** A rotation of it

    [rotation n]: the signers' rotation number [n], which replaces guardian 3
    by guardian 4; rotations differ in their successor capsule. *)

Definition rotation_context (n : N) : RotationContext := {|
  ctx_protocol_version := PROTOCOL_VERSION_V3;
  ctx_config_ref := config 1 1;
  ctx_rotation_id := id (70 + n);
  ctx_predecessor_capsule_hash := genesis_hash;
  ctx_recipient_key := replicate 1216 x09;
  ctx_nonce := id (80 + n);
  ctx_issued_at := U64 100;
  ctx_expiry := U64 200
|}.

Definition route (index slot : N) : GuardianRouteV3 := {|
  gr3_guardian_index := U16 index;
  gr3_opaque_slot_id := id slot;
  gr3_mailbox := hex (id slot);
  gr3_guardian_public_key := id (40 + index);
  gr3_session_recipient_key := [x07];
  gr3_operator_domain_commitment := id (50 + index)
|}.
Definition old_roster : list GuardianRouteV3 := [route 1 91; route 2 92; route 3 93].
Definition new_roster : list GuardianRouteV3 := [route 1 94; route 2 95; route 4 96].
Definition roster_hash (roster : list GuardianRouteV3) : Id32 :=
  digest (ok_bytes (guardian_roster_v3 roster)).
Definition old_roster_hash : Id32 := Eval vm_compute in roster_hash old_roster.
Definition new_roster_hash : Id32 := Eval vm_compute in roster_hash new_roster.

Definition intent (n : N) : RotationIntent := {|
  ri_context := rotation_context n;
  ri_reason := ReasonPlannedExit;
  ri_old_guardian_count := U16 3;
  ri_old_guardian_threshold := U16 2;
  ri_allowed_new_guardian_count := [U16 3];
  ri_allowed_new_guardian_threshold := [U16 2];
  ri_allowed_dpss_suites := [ZfFrostRistretto255RtsRefreshV1];
  ri_selection_constraints_commitment := digest (be (U16 3));
  ri_witness_read_qc_hash := read_hash
|}.

Definition intent_hash_of (n : N) : Id32 := digest (ok_bytes (rotation_intent (intent n))).
Definition intent_hash_1 : Id32 := Eval vm_compute in intent_hash_of 1.
Definition intent_hash_2 : Id32 := Eval vm_compute in intent_hash_of 2.
Definition intent_hash : N → Id32 := tabled intent_hash_of intent_hash_1 intent_hash_2.

Definition plan (n : N) : RotationPlan := {|
  plan_context := rotation_context n;
  plan_intent_hash := intent_hash n;
  plan_predecessor := config 1 1;
  plan_successor := config 2 (100 + n);
  plan_old_roster := old_roster;
  plan_new_roster := new_roster;
  plan_old_roster_commitment := old_roster_hash;
  plan_new_roster_commitment := new_roster_hash;
  plan_old_guardian_threshold := U16 2;
  plan_new_guardian_threshold := U16 2;
  plan_data_shards := U16 2;
  plan_total_shards := U16 3;
  plan_dpss_suite := ZfFrostRistretto255RtsRefreshV1;
  plan_dpss_session_id := id 7;
  plan_dpss_qualified_set_commitment := new_roster_hash;
  plan_minimum_delay_secs := U64 10;
  plan_preparation_deadline := U64 150;
  plan_drain_deadline := U64 180
|}.
Definition plan_hash_of (n : N) : Id32 := digest (ok_bytes (rotation_plan (plan n))).
Definition plan_hash_1 : Id32 := Eval vm_compute in plan_hash_of 1.
Definition plan_hash_2 : Id32 := Eval vm_compute in plan_hash_of 2.
Definition plan_hash : N → Id32 := tabled plan_hash_of plan_hash_1 plan_hash_2.

Definition begin_vote (n : N) (signature : list byte) (s : N) : SignerRotationBeginVote := {|
  srbv_context := rotation_context n;
  srbv_intent_hash := intent_hash n;
  srbv_plan_hash := plan_hash n;
  srbv_old_roster_commitment := old_roster_hash;
  srbv_new_roster_commitment := new_roster_hash;
  srbv_signer_id := U16 s;
  srbv_signer_public_key := signer_key s;
  srbv_signer_membership_proof := signer_proof;
  srbv_signer_signature := signature
|}.
Definition begin (n : N) : BeginRotationCertificate := {|
  brot_context := rotation_context n;
  brot_intent_hash := intent_hash n;
  brot_plan_hash := plan_hash n;
  brot_old_roster_commitment := old_roster_hash;
  brot_new_roster_commitment := new_roster_hash;
  brot_not_before_wall := U64 115;
  brot_votes := (λ s, begin_vote n (signature_of (signer_key s)
    (ok_bytes (signer_rotation_begin_vote (begin_vote n [] s)))) s) <$> signer_ids
|}.

Definition begin_hash_of (n : N) : Id32 := 
  digest (ok_bytes (begin_rotation_certificate (begin n))).
Definition begin_hash_1 : Id32 := Eval vm_compute in begin_hash_of 1.
Definition begin_hash_2 : Id32 := Eval vm_compute in begin_hash_of 2.
Definition begin_hash : N → Id32 := tabled begin_hash_of begin_hash_1 begin_hash_2.

Definition release_vote (n : N) (signature : list byte) (s : N) :
    SignerRotationReleaseVote := {|
  srrv_context := rotation_context n;
  srrv_plan_hash := plan_hash n;
  srrv_begin_certificate_hash := begin_hash n;
  srrv_signer_id := U16 s;
  srrv_signer_public_key := signer_key s;
  srrv_signer_membership_proof := signer_proof;
  srrv_signer_signature := signature
|}.
Definition release (n : N) : RotationReleaseCertificate := {|
  rrc_context := rotation_context n;
  rrc_plan_hash := plan_hash n;
  rrc_begin_certificate_hash := begin_hash n;
  rrc_votes := (λ s, release_vote n (signature_of (signer_key s)
    (ok_bytes (signer_rotation_release_vote (release_vote n [] s)))) s) <$> signer_ids
|}.

(** ** Ready *)

Definition prepared_ack (n : N) (signature : list byte) (g : N) : NewGuardianPreparedAck := {|
  ngpa_context := rotation_context n;
  ngpa_plan_hash := plan_hash n;
  ngpa_dpss_result_commitment := id 2;
  ngpa_guardian_material_root := id n;
  ngpa_new_guardian_index := U16 g;
  ngpa_prepared_record_leaf := {|
    prl_guardian_index := U16 g;
    prl_fragment_index := U16 g;
    prl_opaque_slot_id := id 13;
    prl_encrypted_share_hash := id 14;
    prl_fragment_hash := id 15;
    prl_policy_hash := id 16 |};
  ngpa_durable_write_generation := U64 1;
  ngpa_guardian_signature := signature
|}.
Definition handoff_ack (n : N) (signature : list byte) (g : N) : OldGuardianHandoffAck := {|
  ogha_context := rotation_context n;
  ogha_plan_hash := plan_hash n;
  ogha_dpss_result_commitment := id 2;
  ogha_qualified_set_commitment := id 17;
  ogha_old_guardian_index := U16 g;
  ogha_guardian_signature := signature
|}.
Definition descriptor_hash : Id32 := Eval vm_compute in digest (replicate 24 x00 ++ [x05]).
Definition ready (n : N) : RotationReadyCertificate := {|
  ready_context := rotation_context n;
  ready_plan_hash := plan_hash n;
  ready_successor := config 2 (100 + n);
  ready_dpss_result_commitment := id 2;
  ready_guardian_material_root := id n;
  ready_encrypted_descriptor_hash := descriptor_hash;
  ready_prepared_acks := (λ g, prepared_ack n (signature_of (id (40 + g))
    (ok_bytes (new_guardian_prepared_ack (prepared_ack n [] g)))) g) <$> [1; 2; 4]%N;
  ready_old_handoff_acks := (λ g, handoff_ack n (signature_of (id (40 + g))
    (ok_bytes (old_guardian_handoff_ack (handoff_ack n [] g)))) g) <$> [1; 3]%N
|}.

Example rotation_ready :
  is_ok (validate_rotation_ready_certificate_v3 (ready 1) (plan 1) genesis (U64 120)) = true.
Proof. by vm_compute. Qed.

(** ** Activation *)

Definition successor_hash_of (n : N) : Id32 := 
  capsule_hash (config 2 (100 + n)) genesis_hash n.
Definition successor_hash_1 : Id32 := Eval vm_compute in successor_hash_of 1.
Definition successor_hash_2 : Id32 := Eval vm_compute in successor_hash_of 2.
Definition successor_hash : N → Id32 := tabled successor_hash_of successor_hash_1 successor_hash_2.

Definition activate_vote (n : N) (signature : list byte) (s : N) :
    SignerRotationActivateVote := {|
  srav_context := rotation_context n;
  srav_plan_hash := plan_hash n;
  srav_ready_certificate_hash := id 8;
  srav_successor_capsule_hash := successor_hash n;
  srav_signer_id := U16 s;
  srav_signer_public_key := signer_key s;
  srav_signer_membership_proof := signer_proof;
  srav_signer_signature := signature
|}.
Definition activate (n : N) : RotationActivateCertificate := {|
  rac_context := rotation_context n;
  rac_plan_hash := plan_hash n;
  rac_ready_certificate_hash := id 8;
  rac_successor := config 2 (100 + n);
  rac_successor_capsule_hash := successor_hash n;
  rac_votes := (λ s, activate_vote n (signature_of (signer_key s)
    (ok_bytes (signer_rotation_activate_vote (activate_vote n [] s)))) s) <$> signer_ids
|}.
Definition activate_hash_of (n : N) : Id32 := 
  digest (ok_bytes (rotation_activate_certificate (activate n))).
Definition activate_hash_1 : Id32 := Eval vm_compute in activate_hash_of 1.
Definition activate_hash_2 : Id32 := Eval vm_compute in activate_hash_of 2.
Definition activate_hash : N → Id32 := tabled activate_hash_of activate_hash_1 activate_hash_2.

(** The successor as proposed, without evidence. *)
Definition proposed (n : N) : ConfigCapsuleV3 :=
  capsule_with (config 2 (100 + n)) (successor_hash n) genesis_hash n None None.

Definition ack (n : N) (signature : list byte) (w : N) : WitnessActivationAck := {|
  waa_context := rotation_context n;
  waa_plan_hash := plan_hash n;
  waa_activation_certificate_hash := activate_hash n;
  waa_witness_id := U16 w;
  waa_predecessor_epoch := U64 1;
  waa_predecessor_capsule_hash := genesis_hash;
  waa_successor_epoch := U64 2;
  waa_successor_capsule_hash := successor_hash n;
  waa_witness_public_key := id w;
  waa_witness_signature := signature
|}.
Definition signed_ack (n w : N) : WitnessActivationAck :=
  ack n (signature_of (id w) (ok_bytes (witness_activation_ack (ack n [] w)))) w.

Definition qc (n : N) (witnesses : list N) : EpochActivationQc := {|
  qc_protocol_version := PROTOCOL_VERSION_V3;
  qc_config_id := id 1;
  qc_rotation_id := id (70 + n);
  qc_predecessor_epoch := U64 1;
  qc_predecessor_capsule_hash := genesis_hash;
  qc_successor_epoch := U64 2;
  qc_successor_capsule_hash := successor_hash n;
  qc_activation_certificate_hash := activate_hash n;
  qc_witness_fault_bound := U16 1;
  qc_witness_acks := signed_ack n <$> witnesses
|}.

(** The successor as activated by witnesses. *)
Definition successor (n : N) (witnesses : list N) : ConfigCapsuleV3 :=
  capsule_with (config 2 (100 + n)) (successor_hash n) genesis_hash n
    (Some (activate n)) (Some (qc n witnesses)).

Example genesis_activated : validate_activated_capsule_v3 card genesis = Ok ().
Proof. by vm_compute. Qed.

Example successor_activated : validate_activated_capsule_v3 card (successor 1 [1; 2; 3]%N) = Ok ().
Proof. by vm_compute. Qed.

Example successor_needs_quorum :
  is_ok (validate_activated_capsule_v3 card (successor 1 [1; 2]%N)) = false.
Proof. by vm_compute. Qed.

Example rotation_released :
  is_ok (validate_rotation_release_certificate_v3 (release 1) (begin 1) (plan 1) genesis (U64 120))
  = true.
Proof. by vm_compute. Qed.

Example rotation_intended :
  is_ok (validate_rotation_plan_against_intent_v3 (plan 1) (intent 1) genesis (U64 120)) = true.
Proof. by vm_compute. Qed.

(** ** A read after it *)

Example successor_read :
  select_latest_epoch_v3 card (challenge 11)
    [read 11 genesis 4; read 11 (successor 1 [1; 2; 3]%N) 2; read 11 genesis 1]
  = Ok (successor 1 [1; 2; 3]%N).
Proof. by vm_compute. Qed.

End Scenario.
