(* ===== verification/SharingScenario.v ===== *)
(** Toy versions of the sharing libraries that keep their laws: shares that
    carry the secret, an erasure code that repeats a single data shard (or has
    no parity), encryption that prefixes a checksum, key encapsulation by
    checksum.  Nothing here models code; the theorems on sharing, recovery and
    setup are evaluated on it. *)

From S2P Require Export Sharing Scenario.

Module SharingScenario.
Export Scenario.

(** ** The libraries *)

Definition dealt_share (secret : list byte) (i : nat) : list byte :=
  byte_of_N (N.of_nat i + 1) :: secret.

Definition aead_tag (key : barr 32) (nonce : barr 24) (aad : list byte) : list byte :=
  digest (bytes_of key ++ bytes_of nonce ++ aad).

(** Of a shard vector with one data shard, the first shard present. *)
Fixpoint first_present (received : list (list byte * bool)) : option (list byte) :=
  match received with
  | [] => None
  | (shard, true) :: _ => Some shard
  | (_, false) :: received => first_present received
  end.

#[export] Instance toy_sharing : SharingPrimitives := {|
  Hkdf_expand := λ ikm info, Some (digest (ikm ++ info));
  XChaCha20Poly1305_encrypt := λ key nonce msg aad, Some (aead_tag key nonce aad ++ msg);
  XChaCha20Poly1305_decrypt := λ key nonce ciphertext aad,
    if bool_decide (take 32 ciphertext = aead_tag key nonce aad)
    then Some (drop 32 ciphertext) else None;
  Share := list byte;
  Share_to_vec := λ share, share;
  Share_try_from := Some;
  Sharks_dealer_rng := λ _ secret _, dealt_share secret <$> seq 0 255;
  Sharks_recover := λ threshold shares,
    if (threshold <=? len shares)%mr then tail <$> head shares else None;
  ReedSolomon := N * N;
  ReedSolomon_new := λ data parity,
    if (data =? 1)%N || (parity =? 0)%N then Some (data, parity) else None;
  ReedSolomon_encode := λ coder shards,
    if negb (len shards =? coder.1 + coder.2)%N then None else
    if (coder.2 =? 0)%N then Some shards else
    Some (replicate (length shards) (default [] (head shards)));
  ReedSolomon_reconstruct := λ coder received,
    if (coder.2 =? 0)%N then Some received else
    shard ← first_present received;
    Some (replicate (length received) (shard, true));
  DecapsulationKey := Id32;
  DecapsulationKey_from := λ seed, seed;
  encapsulation_key := λ secret, bytes_of secret ++ replicate 1184 x00;
  EncapsulationKey := list byte;
  EncapsulationKey_try_from := λ key,
    if bool_decide (length key = 1216) then Some key else None;
  XWingCiphertext := list byte;
  XWingCiphertext_try_from := Some;
  XWingCiphertext_to_vec := λ ciphertext, ciphertext;
  encapsulate_with_rng := λ recipient seed,
    (bytes_of seed, digest (take 32 recipient ++ seed));
  decapsulate := λ secret ciphertext, digest (bytes_of secret ++ ciphertext)
|}.

(** ** Their laws *)

#[export] Instance toy_shamir : ShamirLaws.
Proof.
  assert (Hi : ∀ secret i share, (dealt_share secret <$> seq 0 255) !! i = Some share →
    share = dealt_share secret i).
  { intros secret i share (j & -> & Hj)%list_lookup_fmap_Some.
    by apply lookup_seq in Hj as [-> _]. }
  split; cbn [Sharks_dealer_rng Share_to_vec Share_try_from Sharks_recover toy_sharing].
  - intros. by rewrite length_fmap, length_seq.
  - intros _ secret _ i share ->%Hi. by exists secret.
  - done.
  - intros t secret _ shares Ht _ Hsub Hlen.
    destruct shares as [|share shares]; [unfold len in Hlen; simpl in Hlen; lia |].
    rewrite (proj2 (N.leb_le _ _)) by done. simpl.
    destruct (proj1 (list_elem_of_lookup _ _) (Hsub share ltac:(by left))) as [i ->%Hi].
    done.
Qed.

Lemma first_present_Some received shard :
  first_present received = Some shard → ∃ i, received !! i = Some (shard, true).
Proof.
  induction received as [|[s []] received IH]; simpl; [done | |].
  - intros [= ->]. by exists 0.
  - intros [i Hi]%IH. by exists (S i).
Qed.

Lemma first_present_None received :
  first_present received = None → filter (λ p : list byte * bool, p.2 = true) received = [].
Proof. induction received as [|[s []] received IH]; simpl; [done | done | exact IH]. Qed.

Lemma all_present (received : list (list byte * bool)) code :
  length received = length code →
  (∀ i shard, received !! i = Some (shard, true) → code !! i = Some shard) →
  length received ≤ length (filter (λ p : list byte * bool, p.2 = true) received) →
  received = (λ shard, (shard, true)) <$> code.
Proof.
  revert code. induction received as [|[s b] received IH]; intros [|c code] Hl Hag Hc;
    try discriminate Hl; [done |].
  assert (Hf := length_filter (λ p : list byte * bool, p.2 = true) received).
  destruct b; cbn [length] in Hc.
  - rewrite fmap_cons. f_equal.
    + specialize (Hag 0 s eq_refl). by injection Hag as ->.
    + apply IH; [by injection Hl | intros i; exact (Hag (S i)) |]. revert Hc.
      rewrite filter_cons_True by done. cbn [length]. lia.
  - rewrite filter_cons_False in Hc by done. lia.
Qed.

#[export] Instance toy_reed_solomon : ReedSolomonLaws.
Proof.
  split; simpl.
  - intros data parity coder shards code Hnew Henc.
    destruct ((data =? 1)%N || (parity =? 0)%N) eqn:Hdp; [| done]. injection Hnew as <-.
    simpl in Henc. destruct (N.eqb_spec (len shards) (data + parity)) as [Hlen |]; [| done].
    simpl in Henc. destruct (N.eqb_spec parity 0); injection Henc as <-; [done |].
    rewrite orb_false_r in Hdp. apply N.eqb_eq in Hdp as ->.
    destruct shards as [|s shards]; [unfold len in Hlen; simpl in Hlen; lia |]. simpl.
    split_and!; [by rewrite length_replicate | done |].
    intros l Hl. constructor; [by apply Forall_inv in Hl |].
    apply Forall_replicate. by apply Forall_inv in Hl.
  - intros data parity coder shards code received l Hnew Henc _ _ Hlen Hag Hcount.
    destruct ((data =? 1)%N || (parity =? 0)%N) eqn:Hdp; [| done]. injection Hnew as <-.
    simpl in *. destruct (N.eqb_spec (len shards) (data + parity)) as [Hls |]; [| done].
    simpl in Henc. destruct (N.eqb_spec parity 0) as [-> |]; injection Henc as <-.
    + f_equal. apply all_present; [done | done |]. unfold len in *. lia.
    + rewrite orb_false_r in Hdp. apply N.eqb_eq in Hdp as ->.
      destruct (first_present received) as [s |] eqn:Hf.
      * apply first_present_Some in Hf as [i Hi]. simpl. apply Hag in Hi.
        apply lookup_replicate in Hi as [-> _].
        rewrite fmap_replicate. do 2 f_equal. by rewrite Hlen, length_replicate.
      * apply first_present_None in Hf. rewrite Hf in Hcount. unfold len in Hcount.
        simpl in Hcount. lia.
Qed.

#[export] Instance toy_sealing : SealingLaws.
Proof.
  assert (Ht : ∀ key nonce aad, length (aead_tag key nonce aad) = 32)
    by (intros; apply barr_len).
  split; cbn [XChaCha20Poly1305_encrypt XChaCha20Poly1305_decrypt EncapsulationKey_try_from
    encapsulation_key encapsulate_with_rng XWingCiphertext_try_from XWingCiphertext_to_vec
    decapsulate toy_sharing].
  - intros key nonce msg aad ciphertext <-%(inj Some).
    rewrite take_app_length', drop_app_length' by done.
    by rewrite bool_decide_eq_true_2.
  - intros secret seed recipient ciphertext key Hr [<- <-]%pair_eq.
    destruct (bool_decide _); [| discriminate Hr]. apply (inj Some) in Hr as <-.
    split; [done |]. by rewrite take_app_length' by (symmetry; apply barr_len).
Qed.

#[local] Instance Ok_inj {E A} : Inj (=) (=) (@Ok E A).
Proof. by intros x y [= ->]. Qed.

Lemma nth_array (arrays : list Id32) i a :
  arrays !! i = Some a → take 32 (drop (32 * i) (concat (bytes_of <$> arrays))) = bytes_of a.
Proof.
  revert i. induction arrays as [|b arrays IH]; intros [|i] Hi; try discriminate Hi.
  - injection Hi as ->.
    change (take 32 (bytes_of a ++ concat (bytes_of <$> arrays)) = bytes_of a).
    by rewrite take_app_length' by (symmetry; apply barr_len).
  - rewrite fmap_cons. change (concat (?x :: ?y)) with (x ++ concat y).
    replace (32 * S i) with (length b + 32 * i) by (rewrite barr_len; lia).
    rewrite drop_app_add. by apply IH.
Qed.

Lemma length_arrays (arrays : list Id32) : length (concat (bytes_of <$> arrays)) = 32 * length arrays.
Proof.
  induction arrays as [|a arrays IH]; [done |]. rewrite fmap_cons.
  change (concat (?x :: ?y)) with (x ++ concat y). rewrite length_app, barr_len, IH.
  cbn [length]. lia.
Qed.

#[export] Instance toy_signing : SigningLaws.
Proof.
  split.
  - intros seed message. unfold verify. simpl. by rewrite bool_decide_eq_true_2.
  - intros leaves root proofs i leaf proof.
    unfold merkle_commit. rewrite guard_Ok. intros [_ H] Hl Hp.
    cbn [MerkleTree_root MerkleTree_proof toy ok_or mbind Result_bind] in H.
    apply (inj Ok) in H. apply pair_eq in H as [<- <-].
    apply list_lookup_fmap_Some in Hp as (j & -> & _). unfold merkle_verify.
    cbn [MerkleProof_try_from MerkleProof_verify toy ok_or mbind Result_bind].
    rewrite Nat2N.id, (nth_array _ _ _ Hl).
    rewrite (bool_decide_eq_true_2 (bytes_of leaf = bytes_of leaf)) by reflexivity.
    rewrite (bool_decide_eq_true_2 (digest _ = digest _)) by reflexivity.
    unfold len. rewrite length_arrays.
    rewrite (proj2 (N.eqb_eq _ _)) by lia. reflexivity.
Qed.

End SharingScenario.
