(* ===== verification/SharingProps.v ===== *)
(** Properties of key derivation, secret sharing and erasure coding:
    crates/gp-crypto/src/lib.rs.

    The first part needs nothing of the wrapped libraries: derivation inputs
    of different purposes differ, and the share-index bitmap is the set of
    indices seen.  The second part is about code that relies on the libraries;
    what it relies on are the classes [ShamirLaws], [ReedSolomonLaws] and
    [MerkleLaws]. *)

From S2P Require Export Sharing.
From S2P Require Import SharingScenario.

(** ** Derivation inputs *)

Section keys.
Context `{Prims : Primitives} `{Sharing : SharingPrimitives}.

(** What a key is derived for. *)
Inductive Purpose : Set :=
| ShareKey (config_id : Id32) (config_version : u64) (guardian_index : u16)
| DescriptorKey (config_id : Id32) (config_version : u64)
| ShareKeyV3 (config_ref : ConfigRef) (guardian_index : u16)
| FragmentKeyV3 (config_ref : ConfigRef) (guardian_index : u16)
| DescriptorKeyV3 (config_ref : ConfigRef).

Definition derive (ikm : barr 32) (p : Purpose) : Result CryptoError Id32 :=
  match p with
  | ShareKey config_id config_version guardian_index =>
      guardian_share_key ikm config_id config_version guardian_index
  | DescriptorKey config_id config_version => descriptor_key ikm config_id config_version
  | ShareKeyV3 config_ref guardian_index =>
      guardian_share_key_v3 ikm config_ref guardian_index
  | FragmentKeyV3 config_ref guardian_index =>
      guardian_fragment_key_v3 ikm config_ref guardian_index
  | DescriptorKeyV3 config_ref => descriptor_key_v3 ikm config_ref
  end.

(** The HKDF input of a purpose. *)
Definition kdf_info (p : Purpose) : list byte :=
  match p with
  | ShareKey config_id config_version guardian_index =>
      share_kdf_info config_id config_version guardian_index
  | DescriptorKey config_id config_version => descriptor_kdf_info config_id config_version
  | ShareKeyV3 config_ref guardian_index =>
      config_ref_kdf_info (as_bytes "gp/guardian-dek-share/v3") config_ref
        (Some guardian_index)
  | FragmentKeyV3 config_ref guardian_index =>
      config_ref_kdf_info (as_bytes "gp/guardian-ciphertext-fragment/v3") config_ref
        (Some guardian_index)
  | DescriptorKeyV3 config_ref =>
      config_ref_kdf_info (as_bytes "gp/recovery-descriptor/v3") config_ref None
  end.

Lemma derive_info ikm p k : derive ikm p = Ok k → Hkdf_expand ikm (kdf_info p) = Some k.
Proof.
  destruct p; simpl; unfold guardian_share_key, descriptor_key, guardian_share_key_v3,
    guardian_fragment_key_v3, descriptor_key_v3, hkdf_sha256; rewrite ?guard_Ok, ?ok_or_Ok;
    tauto.
Qed.

(** A field of fixed length at the front of equal strings. *)
Lemma app_array_inj {n} (a b : barr n) (l k : list byte) :
  bytes_of a ++ l = bytes_of b ++ k → a = b ∧ l = k.
Proof.
  intros [H ->]%app_inj_1; [| by rewrite !barr_len]. split; [by apply barr_eq | done].
Qed.

Lemma app_be_inj {w} (a b : uint w) (l k : list byte) :
  (w mod 8 = 0)%N → be a ++ l = be b ++ k → a = b ∧ l = k.
Proof.
  intros Hw [H ->]%app_inj_1; [| by rewrite !length_be]. split; [by apply be_inj | done].
Qed.

Lemma config_ref_kdf_info_inj domain r1 r2 o1 o2 :
  config_ref_kdf_info domain r1 o1 = config_ref_kdf_info domain r2 o2 → r1 = r2 ∧ o1 = o2.
Proof.
  unfold config_ref_kdf_info. intros H%(inj (app domain)).
  apply app_array_inj in H as [Hid H]. apply app_be_inj in H as [Hp H]; [| done].
  apply app_be_inj in H as [Ha H]; [| done]. apply app_be_inj in H as [Hg H]; [| done].
  apply app_array_inj in H as [Hb H]. split.
  - destruct r1, r2. simpl in *. by subst.
  - destruct o1 as [i1 |], o2 as [i2 |].
    + by apply be_inj in H as ->.
    + by apply (f_equal length) in H; rewrite length_be in H.
    + by apply (f_equal length) in H; rewrite length_be in H.
    + done.
Qed.

Definition kdf_length (p : Purpose) : nat :=
  match p with
  | ShareKey _ _ _ => 66
  | DescriptorKey _ _ => 65
  | ShareKeyV3 _ _ => 114
  | FragmentKeyV3 _ _ => 124
  | DescriptorKeyV3 _ => 113
  end.

Lemma length_kdf_info p : length (kdf_info p) = kdf_length p.
Proof.
  destruct p; unfold kdf_info, share_kdf_info, descriptor_kdf_info, config_ref_kdf_info;
    rewrite ?length_app, ?length_be, ?barr_len; reflexivity.
Qed.

Lemma kdf_info_inj p q : kdf_info p = kdf_info q → p = q.
Proof.
  intros H. pose proof (f_equal length H) as Hl. rewrite !length_kdf_info in Hl.
  destruct p, q; try discriminate Hl; unfold kdf_info in H; clear Hl.
  - unfold share_kdf_info in H. apply (inj _) in H. apply app_array_inj in H as [-> H].
    apply app_be_inj in H as [-> H]; [| done]. by apply be_inj in H as ->.
  - unfold descriptor_kdf_info in H. apply (inj _) in H. apply app_array_inj in H as [-> H].
    by apply be_inj in H as ->.
  - by apply config_ref_kdf_info_inj in H as [-> [= ->]].
  - by apply config_ref_kdf_info_inj in H as [-> [= ->]].
  - by apply config_ref_kdf_info_inj in H as [-> _].
Qed.

(** C21 (safety): keys derived for different purposes come from different HKDF
    inputs: a share or fragment wrapper, or a descriptor key, of one
    configuration, version or epoch, and slot is not one of another. *)
Theorem derived_keys_separate ikm p q k k' :
  derive ikm p = Ok k → derive ikm q = Ok k' → p ≠ q →
  ∃ i j, i ≠ j ∧ Hkdf_expand ikm i = Some k ∧ Hkdf_expand ikm j = Some k'.
Proof.
  intros Hp%derive_info Hq%derive_info Hne. exists (kdf_info p), (kdf_info q).
  split_and!; [| done | done]. by intros ?%kdf_info_inj.
Qed.

End keys.

(** ** The bitmap of share indices *)

Lemma land_bit a k : (N.land a (N.shiftl 1 k) =? 0)%N = negb (N.testbit a k).
Proof.
  destruct (N.testbit a k) eqn:E; simpl.
  - apply N.eqb_neq. intros H. apply (f_equal (λ n, N.testbit n k)) in H.
    rewrite N.land_spec, E, N.shiftl_1_l, N.pow2_bits_true, N.bits_0 in H. done.
  - apply N.eqb_eq, N.bits_inj_0. intros n. rewrite N.land_spec, N.shiftl_1_l.
    destruct (decide (n = k)) as [-> |]; [by rewrite E |].
    rewrite N.pow2_bits_false by done. by rewrite andb_false_r.
Qed.

Lemma index_bit_lt i : (i mod SHAMIR_INDEX_BITS_PER_WORD < 64)%N.
Proof. by apply N.mod_lt. Qed.

(** The mask is the bit of the index: the shift neither wraps nor truncates. *)
Lemma uval_index_mask i : uval (index_mask i) = N.shiftl 1 (i mod 64).
Proof.
  unfold index_mask. pose proof (index_bit_lt i) as H.
  change SHAMIR_INDEX_BITS_PER_WORD with 64%N in *.
  rewrite (N.mod_small (i mod 64)) by done. apply uval_to_uint.
  rewrite N.shiftl_1_l. by apply N.pow_lt_mono_r.
Qed.

Lemma index_seen_testbit words i :
  index_seen words i = N.testbit (uval (words !!! index_word i)) (i mod 64).
Proof. unfold index_seen. by rewrite uval_index_mask, land_bit, negb_involutive. Qed.

(** The bitmap [words] holds the indices [seen]. *)
Definition bitmap (words : list u64) (seen : gset N) : Prop :=
  length words = SHAMIR_INDEX_WORDS
  ∧ ∀ i, (i < 256)%N → index_seen words i = bool_decide (i ∈ seen).

Lemma index_word_lt i : (i < 256)%N → index_word i < SHAMIR_INDEX_WORDS.
Proof.
  intros H. unfold index_word, SHAMIR_INDEX_WORDS, SHAMIR_INDEX_BITS_PER_WORD.
  pose proof (N.Div0.div_lt_upper_bound i 64 4). lia.
Qed.

Lemma lor_below a b n : (a < 2 ^ n → b < 2 ^ n → N.lor a b < 2 ^ n)%N.
Proof.
  intros Ha Hb. destruct (decide (N.lor a b = 0)%N) as [-> | Hz]; [lia |].
  apply N.log2_lt_pow2; [lia |]. rewrite N.log2_lor.
  destruct (decide (a = 0)%N) as [-> | Ha0]; destruct (decide (b = 0)%N) as [-> | Hb0].
  - done.
  - rewrite N.max_r by (simpl; lia). apply N.log2_lt_pow2; lia.
  - rewrite N.max_l by (simpl; lia). apply N.log2_lt_pow2; lia.
  - apply N.max_lub_lt; apply N.log2_lt_pow2; lia.
Qed.

Lemma uval_lor (a b : u64) : uval (U64 (N.lor a b)) = N.lor a b.
Proof. apply uval_to_uint, lor_below; apply uint_lt. Qed.

Lemma bitmap_empty : bitmap (replicate SHAMIR_INDEX_WORDS (U64 0)) ∅.
Proof.
  split; [done |]. intros i Hi.
  rewrite index_seen_testbit, bool_decide_eq_false_2 by set_solver.
  rewrite lookup_total_replicate_2 by (by apply index_word_lt). apply N.bits_0.
Qed.

Lemma bitmap_mark words seen i :
  (i < 256)%N → bitmap words seen → bitmap (mark_index words i) ({[i]} ∪ seen).
Proof.
  intros Hi (Hlen & Hseen). pose proof (index_word_lt i Hi) as Hw.
  unfold mark_index. split; [by rewrite length_insert |].
  intros j Hj. specialize (Hseen j Hj). rewrite index_seen_testbit in *.
  destruct (decide (index_word j = index_word i)) as [E | Ne].
  - rewrite E in *. rewrite list_lookup_total_insert_eq by lia.
    rewrite uval_lor, N.lor_spec, Hseen, uval_index_mask, N.shiftl_1_l, N.pow2_bits_eqb.
    unfold index_word, SHAMIR_INDEX_BITS_PER_WORD in *.
    assert (Hij : (i mod 64 =? j mod 64)%N = bool_decide (j = i)).
    { destruct (decide (j = i)) as [-> | Hne].
      - rewrite bool_decide_eq_true_2 by done. apply N.eqb_refl.
      - rewrite bool_decide_eq_false_2 by done. apply N.eqb_neq. intros Hm'. apply Hne.
        apply N2Nat.inj in E. rewrite (N.Div0.div_mod j 64), (N.Div0.div_mod i 64). lia. }
    rewrite Hij, orb_comm, <- bool_decide_or. apply bool_decide_ext. set_solver.
  - rewrite list_lookup_total_insert_ne by done. rewrite Hseen. apply bool_decide_ext.
    split; [set_solver |]. intros [-> %elem_of_singleton | ?]%elem_of_union; done.
Qed.

Section shares.
Context `{Sharing : SharingPrimitives}.

(** The reference: the indices seen are a set. *)
Fixpoint decode_distinct (seen : gset N) (shares : list (list byte)) :
    Result CryptoError (list Share) :=
  match shares with
  | [] => Ok []
  | encoded :: shares =>
      if negb (length encoded =? 33) || (share_index encoded =? 0)%N
      then Err CrInvalidShare else
      if bool_decide (share_index encoded ∈ seen) then Err CrDuplicateShare else
      share ← ok_or (Share_try_from encoded) CrInvalidShare;
      decoded ← decode_distinct ({[share_index encoded]} ∪ seen) shares;
      Ok (share :: decoded)
  end.

Lemma share_index_byte encoded : (share_index encoded < 256)%N.
Proof. unfold share_index. pose proof (Byte.to_N_bounded (default x00 (head encoded))). lia. Qed.

Lemma decode_shares_set words seen shares :
  bitmap words seen → decode_shares words shares = decode_distinct seen shares.
Proof.
  revert words seen. induction shares as [|encoded shares IH]; intros words seen Hb; [done |].
  simpl. pose proof (share_index_byte encoded) as Hi. pose proof Hb as (_ & Hseen).
  rewrite (Hseen _ Hi), (IH _ _ (bitmap_mark _ _ _ Hi Hb)).
  assert (Hg : bool_decide (len encoded ≠ SHAMIR_SHARE_LEN)
    = negb (length encoded =? 33)).
  { unfold len. change SHAMIR_SHARE_LEN with 33%N. destruct (Nat.eqb_spec (length encoded) 33).
    - apply bool_decide_eq_false_2. lia.
    - apply bool_decide_eq_true_2. lia. }
  assert (Hz : bool_decide (share_index encoded = 0%N) = (share_index encoded =? 0)%N).
  { destruct (N.eqb_spec (share_index encoded) 0); [by apply bool_decide_eq_true_2 |].
    by apply bool_decide_eq_false_2. }
  by rewrite Hg, Hz.
Qed.

(** The words after the loop has marked the indices of [shares]. *)
Definition marked (words : list u64) (shares : list (list byte)) : list u64 :=
  foldl (λ words encoded, mark_index words (share_index encoded)) words shares.

Lemma bitmap_marked words seen shares :
  bitmap words seen → bitmap (marked words shares) (list_to_set (share_index <$> shares) ∪ seen).
Proof.
  revert words seen. induction shares as [| encoded shares IH]; intros words seen Hb.
  { by rewrite fmap_nil, list_to_set_nil, (left_id_L ∅ (∪)). }
  pose proof (IH _ _ (bitmap_mark _ _ _ (share_index_byte encoded) Hb)) as Hs.
  rewrite fmap_cons, list_to_set_cons, (comm_L (∪) {[_]}), <- (assoc_L (∪)). exact Hs.
Qed.

Lemma index_in_range words seen encoded :
  bitmap words seen →
  index_word (share_index encoded) < length words
  ∧ (share_index encoded mod SHAMIR_INDEX_BITS_PER_WORD < 64)%N.
Proof.
  intros [-> _]. split; [apply index_word_lt, share_index_byte | apply index_bit_lt].
Qed.

(** C20 (equivalence): the four 64-bit words of [recover_secret] are the set of
    share indices seen: the loop answers as the loop over that set does, error
    by error.  At every share the table is read within its four words, the bit
    is shifted by less than 64, and the bit is set exactly when the index is
    one of those before. *)
Theorem share_bitmap_is_set shares :
  let fresh := replicate SHAMIR_INDEX_WORDS (U64 0) in
  decode_shares fresh shares = decode_distinct ∅ shares
  ∧ ∀ before encoded after, shares = before ++ encoded :: after →
      index_word (share_index encoded) < length (marked fresh before)
      ∧ (share_index encoded mod SHAMIR_INDEX_BITS_PER_WORD < 64)%N
      ∧ index_seen (marked fresh before) (share_index encoded)
        = bool_decide (share_index encoded ∈ share_index <$> before).
Proof.
  intros fresh. split; [apply decode_shares_set, bitmap_empty |]. intros before encoded after _.
  pose proof (bitmap_marked _ _ before bitmap_empty) as Hb.
  destruct (index_in_range _ _ encoded Hb) as [Hw Hm]. split_and!; [exact Hw | exact Hm |].
  etrans; [exact (proj2 Hb _ (share_index_byte encoded)) |]. apply bool_decide_ext. set_solver.
Qed.

End shares.

(** ** Secret sharing *)

Section shamir.
Context `{Sharing : SharingPrimitives} `{Shamir : !ShamirLaws}.

Lemma decode_distinct_Ok seen shares decoded :
  decode_distinct seen shares = Ok decoded ↔
  Forall2 (λ encoded share, length encoded = 33 ∧ share_index encoded ≠ 0%N
    ∧ Share_try_from encoded = Some share) shares decoded
  ∧ NoDup (share_index <$> shares) ∧ ∀ encoded, encoded ∈ shares → share_index encoded ∉ seen.
Proof.
  revert seen decoded. induction shares as [|e shares IH]; intros seen decoded; simpl.
  { split.
    - intros [= <-]. split_and!; [constructor | constructor | by intros ? ?%elem_of_nil].
    - by intros (->%Forall2_nil_inv_l & _). }
  rewrite !guard_Ok, bind_Ok. setoid_rewrite bind_Ok. setoid_rewrite IH.
  setoid_rewrite ok_or_Ok. rewrite list.NoDup_cons, orb_false_iff, bool_decide_eq_false,
    negb_false_iff, Nat.eqb_eq, N.eqb_neq. split.
  - intros ([Hl Hz] & Hs & share & Ht & ds & (HF & Hnd & Hd) & [= <-]). split_and!.
    + by constructor.
    + intros (e' & He & Hin)%list_elem_of_fmap. apply (Hd e' Hin). rewrite He. set_solver.
    + done.
    + intros e' [-> | Hin]%elem_of_cons; [done |]. specialize (Hd e' Hin). set_solver.
  - intros (HF & [Hx Hnd] & Hd).
    apply Forall2_cons_inv_l in HF as (share & ds & (Hl & Hz & Ht) & HF & ->).
    split; [done |]. split; [apply Hd; by left |]. exists share. split; [done |].
    exists ds. split; [| done]. split_and!; [done | done |]. intros e' Hin.
    specialize (Hd e' ltac:(by right)).
    intros [Heq%elem_of_singleton | ?]%elem_of_union; [| done].
    apply Hx. rewrite <- Heq. by apply list_elem_of_fmap_2.
Qed.

Lemma split_secret_Ok secret threshold total seed dealt :
  split_secret secret threshold total seed = Ok dealt ↔
  length secret = 32 ∧ (0 < threshold <= total)%N ∧ (total <= 255)%N
  ∧ dealt = Share_to_vec <$> take (N.to_nat total)
              (Sharks_dealer_rng (U8 threshold) secret seed).
Proof.
  unfold split_secret. rewrite !guard_Ok, neb_false, !orb_false_iff, N.eqb_neq, !N.ltb_ge.
  unfold len, SHAMIR_SECRET_LEN. change (uval SHAMIR_MAX_SHARES) with 255%N. split.
  - intros (Hl & ((Hz & Hle) & Hm) & [= <-]). split_and!; [lia | lia | lia | lia | done].
  - intros (Hl & [Hz Hle] & Hm & ->). split_and!; [lia | lia | lia | lia | done].
Qed.

Lemma take_dealt_index threshold total secret seed i share :
  (total <= 255)%N → take (N.to_nat total) (Sharks_dealer_rng threshold secret seed) !! i = Some share →
  length (Share_to_vec share) = S (length secret)
  ∧ share_index (Share_to_vec share) = (N.of_nat i + 1)%N ∧ (N.of_nat i < 255)%N.
Proof.
  intros Ht Hi. apply lookup_take_Some in Hi as [Hi Hlt].
  destruct (dealer_encoding _ _ _ _ _ Hi) as (y & -> & Hl). simpl. rewrite Hl.
  split_and!; [done | | lia]. unfold share_index. simpl. rewrite byte_to_of_N.
  apply N.mod_small. lia.
Qed.

(** Shares chosen from a dealing decode to shares of that dealing. *)
Lemma chosen_decode threshold total secret seed chosen :
  length secret = 32 → (total <= 255)%N → NoDup chosen →
  chosen ⊆ Share_to_vec <$> take (N.to_nat total) (Sharks_dealer_rng threshold secret seed) →
  ∃ decoded, decode_distinct ∅ chosen = Ok decoded ∧ NoDup decoded
    ∧ decoded ⊆ Sharks_dealer_rng threshold secret seed.
Proof.
  intros Hs Ht Hnd Hsub.
  set (dealer := Sharks_dealer_rng threshold secret seed) in *.
  assert (Hex : ∃ decoded, chosen = Share_to_vec <$> decoded
    ∧ decoded ⊆ take (N.to_nat total) dealer).
  { clear Hnd. induction chosen as [|e chosen IH]; [exists []; split; [done |]; by intros ? ?%elem_of_nil |].
    destruct IH as (ds & -> & Hds); [intros x Hx; apply Hsub; by right |].
    destruct (proj1 (list_elem_of_fmap _ _ _) (Hsub e ltac:(by left))) as (d & -> & Hd).
    exists (d :: ds). split; [done |]. by intros x [-> | Hx]%elem_of_cons; [| apply Hds]. }
  destruct Hex as (ds & -> & Hds). exists ds.
  assert (Hndd : NoDup ds) by by apply NoDup_fmap_1 in Hnd.
  assert (Hsubd : ds ⊆ dealer).
  { intros x Hx. specialize (Hds x Hx). by apply elem_of_take in Hds as (i & Hi & _);
      apply list_elem_of_lookup_2 in Hi. }
  split; [| done]. apply decode_distinct_Ok. split_and!.
  - apply Forall2_fmap_l, Forall_Forall2_diag, list.Forall_forall. intros d Hd.
    destruct (proj1 (list_elem_of_lookup _ _) (Hds d Hd)) as [i Hi].
    destruct (take_dealt_index _ _ _ _ _ _ Ht Hi) as (Hl & Hi' & _).
    split_and!; [lia | lia |]. apply (dealer_decoding threshold secret seed). by apply Hsubd.
  - rewrite <- list_fmap_compose. apply NoDup_fmap_2_strong; [| done].
    intros x y Hx Hy Heq. simpl in Heq.
    destruct (proj1 (list_elem_of_lookup _ _) (Hds x Hx)) as [i Hi].
    destruct (proj1 (list_elem_of_lookup _ _) (Hds y Hy)) as [j Hj].
    destruct (take_dealt_index _ _ _ _ _ _ Ht Hi) as (_ & Ei & _).
    destruct (take_dealt_index _ _ _ _ _ _ Ht Hj) as (_ & Ej & _).
    rewrite Ei, Ej in Heq. assert (i = j) as -> by lia. by rewrite Hi in Hj; injection Hj.
  - intros e _. set_solver.
Qed.

Lemma recover_chosen secret (threshold total : u16) seed chosen :
  length secret = 32 → (0 < threshold <= total)%N → (total <= 255)%N → NoDup chosen →
  chosen ⊆ Share_to_vec <$> take (N.to_nat total)
    (Sharks_dealer_rng (U8 threshold) secret seed) →
  recover_secret chosen threshold =
    if (len chosen <? threshold)%N then Err CrInsufficientShares else Ok secret.
Proof.
  intros Hs Ht Hn Hnd Hsub.
  destruct (chosen_decode _ _ _ _ _ Hs Hn Hnd Hsub) as (ds & Hdec & Hndd & Hds).
  assert (Hlen : (len chosen <= 255)%N).
  { pose proof (NoDup_submseteq _ _ Hnd Hsub) as H%submseteq_length.
    rewrite length_fmap, length_take in H. unfold len. lia. }
  assert (HU : uval (U8 threshold) = uval threshold).
  { apply uval_to_uint. change (2 ^ 8)%N with 256%N. lia. }
  unfold recover_secret. change (uval SHAMIR_MAX_SHARES) with 255%N.
  rewrite (proj2 (orb_false_iff _ _)) by (split; [apply N.eqb_neq | apply N.ltb_ge]; lia).
  destruct (N.ltb_spec (len chosen) threshold); [done |].
  rewrite (proj2 (N.ltb_ge _ _)) by lia.
  rewrite (decode_shares_set _ ∅) by apply bitmap_empty. rewrite Hdec.
  assert (Hpos : (0 < uval (U8 threshold))%N) by (rewrite HU; lia).
  cbn [mbind Result_bind]. rewrite (dealer_recover _ _ _ _ Hpos Hndd Hds).
  - simpl. by rewrite (proj2 (neb_false _ _)) by (unfold len; rewrite Hs; done).
  - apply decode_distinct_Ok in Hdec as (HF%Forall2_length & _). rewrite HU. unfold len in *. lia.
Qed.

(** (roundtrip): [split_secret] deals [total] shares of a 32-byte secret, and
    any [threshold] or more distinct ones of them, in any order, give the
    secret back to [recover_secret]; fewer are refused. *)
Theorem split_recover secret threshold total seed dealt chosen :
  split_secret secret threshold total seed = Ok dealt →
  NoDup chosen → chosen ⊆ dealt →
  len dealt = total
  ∧ recover_secret chosen threshold =
      if (len chosen <? threshold)%N then Err CrInsufficientShares else Ok secret.
Proof.
  intros (Hs & Ht & Hn & ->)%split_secret_Ok Hnd Hsub. split; [| by eapply recover_chosen].
  assert (HU : uval (U8 threshold) = uval threshold).
  { apply uval_to_uint. change (2 ^ 8)%N with 256%N. lia. }
  unfold len. rewrite length_fmap, length_take, dealer_count by (rewrite HU; lia). lia.
Qed.

End shamir.

(** ** Erasure coding *)

Lemma concat_alter (l i j : nat) (b : byte) shards :
  Forall (λ shard, length shard = l) shards → i < length shards → j < l →
  concat (alter (λ shard, <[j := b]> shard) i shards) = <[i * l + j := b]> (concat shards).
Proof.
  intros Hl. revert i. induction Hl as [|shard shards Hs Hl IH]; intros i Hi Hj;
    [by apply Nat.nlt_0_r in Hi |].
  destruct i as [|i]; simpl in *.
  - by rewrite insert_app_l by lia.
  - change (list_alter ?f i shards) with (alter f i shards).
    rewrite IH by lia. replace (l + i * l + j) with (length shard + (i * l + j)) by lia.
    by rewrite insert_app_r.
Qed.

Lemma length_concat_shards (l : nat) (shards : list (list byte)) :
  Forall (λ shard, length shard = l) shards → length (concat shards) = length shards * l.
Proof. induction 1 as [|shard shards Hs Hl IH]; [done |]. simpl. rewrite length_app. lia. Qed.

Lemma Forall_alter_length (l i j : nat) (b : byte) shards :
  Forall (λ shard, length shard = l) shards →
  Forall (λ shard, length shard = l) (alter (λ shard, <[j := b]> shard) i shards).
Proof.
  intros H. apply Forall_alter; [done |]. intros shard _ Hs. by rewrite length_insert.
Qed.

(** The data is written over the joined shards, and no index is out of
    range. *)
Lemma fill_shards_layout l offset data shards :
  Forall (λ shard, length shard = l) shards → offset + length data ≤ length shards * l →
  0 < l →
  concat (fill_shards l offset data shards)
    = take offset (concat shards) ++ data ++ drop (offset + length data) (concat shards)
  ∧ length (fill_shards l offset data shards) = length shards
  ∧ Forall (λ shard, length shard = l) (fill_shards l offset data shards).
Proof.
  revert offset shards. induction data as [|b data IH]; intros offset shards Hl Hlen Hpos; simpl in *.
  { rewrite Nat.add_0_r. split_and!; [by rewrite take_drop | done | done]. }
  assert (Hj : offset `mod` l < l) by (apply Nat.mod_upper_bound; lia).
  assert (Hi : offset `div` l < length shards) by (apply Nat.Div0.div_lt_upper_bound; lia).
  pose proof (Forall_alter_length l (offset `div` l) (offset `mod` l) b _ Hl) as Hl'.
  destruct (IH (S offset) _ Hl') as (-> & -> & HF); [rewrite length_alter; lia | done |].
  rewrite length_alter. split_and!; [| done | done].
  rewrite (concat_alter l) by done.
  replace (offset `div` l * l + offset `mod` l) with offset
    by (pose proof (Nat.div_mod_eq offset l); lia).
  assert (Ho : offset < length (concat shards)) by (rewrite (length_concat_shards l) by done; lia).
  rewrite drop_insert_lt by lia. rewrite (take_S_r _ _ b) by (by apply list_lookup_insert_eq).
  rewrite take_insert_ge by lia. rewrite <- app_assoc. simpl. do 4 f_equal. lia.
Qed.

(** [present] counts the shards in place. *)
Abbreviation present shards := (length (filter (λ p : list byte * bool, p.2 = true) shards)).

Lemma present_insert shards i shard shard' :
  shards !! i = Some (shard, false) →
  present (<[i := (shard', true)]> shards) = S (present shards).
Proof.
  revert i. induction shards as [|[s b] shards IH]; intros i Hi; [done |].
  destruct i as [|i]; simpl in Hi.
  - injection Hi as -> ->.
    change (present ((shard', true) :: shards) = S (present ((shard, false) :: shards))).
    by rewrite filter_cons_True, filter_cons_False by done.
  - change (present ((s, b) :: <[i := (shard', true)]> shards) = S (present ((s, b) :: shards))).
    specialize (IH i Hi). rewrite !filter_cons.
    destruct (decide _); cbn [length]; by rewrite IH.
Qed.

(** Fragments at distinct positions among [n], all of length [l]. *)
Definition fragments_of (l n : nat) (fragments : list (u16 * list byte)) : Prop :=
  NoDup fragments.*1
  ∧ ∀ (index : u16) (fragment : list byte), (index, fragment) ∈ fragments →
      (0 < index <= N.of_nat n)%N ∧ length fragment = l.

Lemma position_below_Some (index : u16) n :
  (0 < index <= N.of_nat n)%N → position_below index n = Some (N.to_nat (index - 1)).
Proof.
  intros H. unfold position_below. destruct (N.eqb_spec index 0); [lia |].
  destruct (Nat.ltb_spec (N.to_nat (index - 1)) n); [done | lia].
Qed.

Lemma place_fragments_Ok l shards fragments :
  fragments_of l (length shards) fragments →
  Forall (λ p, length p.1 = l) shards →
  (∀ (index : u16) (fragment : list byte), (index, fragment) ∈ fragments →
     ∃ s, shards !! N.to_nat (index - 1) = Some (s, false)) →
  ∃ final, place_fragments l shards fragments = Ok final ∧ length final = length shards
    ∧ Forall (λ p, length p.1 = l) final
    ∧ (∀ i s, final !! i = Some (s, true) → shards !! i = Some (s, true)
         ∨ ∃ index : u16, (index, s) ∈ fragments ∧ N.to_nat (index - 1) = i)
    ∧ present final = present shards + length fragments.
Proof.
  revert shards. induction fragments as [|[index f] fragments IH];
    intros shards [Hnd Hin] Hl Hfree; simpl.
  { exists shards. split_and!; [done | done | done | by left | lia]. }
  simpl in Hnd. apply list.NoDup_cons in Hnd as [Hx Hnd].
  destruct (Hin index f) as [Hi Hf]; [by left |].
  destruct (Hfree index f) as [s0 Hs0]; [by left |].
  rewrite (position_below_Some index) by done. simpl. rewrite Hs0, Hf, Nat.eqb_refl. simpl.
  destruct (IH (<[N.to_nat (index - 1) := (f, true)]> shards))
    as (final & -> & Hlen & HF & Hfin & Hcount).
  - rewrite length_insert. split; [done |]. intros j g Hj. apply Hin. by right.
  - by apply Forall_insert.
  - intros j g Hj. destruct (Hfree j g) as [s Hs]; [by right |]. exists s.
    rewrite list_lookup_insert_ne; [done |]. intros E.
    assert (index = j) as ->.
    { apply uint_eq. destruct (Hin j g) as [Hjb _]; [by right |]. lia. }
    apply Hx. apply (list_elem_of_fmap_2 fst _ _ Hj).
  - exists final. rewrite length_insert in Hlen.
    split_and!; [done | done | done | |].
    + intros i s Hi'. destruct (Hfin i s Hi') as [Hold | (j & Hj & E)].
      * apply list_lookup_insert_Some in Hold as [(<- & [= <-] & _) | [_ Hold]]; [| by left].
        right. exists index. split; [by left | done].
      * right. exists j. split; [by right | done].
    + rewrite Hcount, (present_insert _ _ s0) by done. simpl. lia.
Qed.

Lemma join_shards_present code :
  join_shards ((λ shard, (shard, true)) <$> code) = Ok (concat code).
Proof.
  induction code as [|shard code IH]; [done |].
  rewrite fmap_cons. cbn [join_shards negb]. by rewrite IH.
Qed.

Section erasure.
Context `{Sharing : SharingPrimitives} `{RS : !ReedSolomonLaws}.

(** Fragments that come from [code], each labelled with its position. *)
Definition fragments_from (code : list (list byte)) (fragments : list (u16 * list byte)) :
    Prop :=
  NoDup fragments.*1
  ∧ ∀ (index : u16) (fragment : list byte), (index, fragment) ∈ fragments →
      (0 < index)%N ∧ code !! N.to_nat (index - 1) = Some fragment.

Lemma div_ceil_covers a b : 0 < b → a ≤ b * (div_ceil a b `max` 1).
Proof.
  intros Hb. unfold div_ceil. pose proof (Nat.div_mod_eq (a + b - 1) b) as E.
  pose proof (Nat.mod_upper_bound (a + b - 1) b). nia.
Qed.

(** What [erasure_encode] answers: shards of one length, the data shards of
    which hold the data and zeros. *)
Lemma erasure_encode_Ok data k n code :
  erasure_encode data k n = Ok code →
  ∃ coder shards l, (0 < uval k <= uval n)%N ∧ ReedSolomon_new k (n - k) = Some coder
    ∧ ReedSolomon_encode coder shards = Some code ∧ 0 < l
    ∧ length code = N.to_nat n ∧ Forall (λ shard, length shard = l) code
    ∧ take (length data) (concat (take (N.to_nat k) code)) = data.
Proof.
  unfold erasure_encode. rewrite guard_Ok, orb_false_iff, N.eqb_neq, N.ltb_ge.
  intros [[Hz Hle] (coder & Hnew%ok_or_Ok & Henc%ok_or_Ok)%bind_Ok].
  set (l := div_ceil (length data) (N.to_nat k) `max` 1) in *.
  set (zeros := replicate (N.to_nat n) (replicate l x00)) in *.
  assert (Hzl : Forall (λ shard, length shard = l) zeros).
  { apply Forall_replicate, length_replicate. }
  assert (Hzn : length zeros = N.to_nat n) by apply length_replicate.
  assert (Hcov : length data ≤ N.to_nat k * l) by (apply div_ceil_covers; lia).
  destruct (fill_shards_layout l 0 data zeros Hzl) as (Hcat & Hlen & HF);
    [rewrite Hzn; nia | lia |].
  destruct (rs_encode _ _ _ _ _ Hnew Henc) as (Hcn & Htake & Hsame).
  exists coder, (fill_shards l 0 data zeros), l.
  split_and!; [lia | lia | done | done | lia | lia | by apply Hsame |].
  rewrite Htake.
  assert (Hpre : ∀ (m : nat) (rows : list (list byte)),
    Forall (λ shard, length shard = l) rows →
    concat (take m rows) = take (m * l) (concat rows)).
  { intros m rows Hr. revert m. induction Hr as [|row rows Hrow Hr IH]; intros [|m]; try done.
    - cbn [concat]. by rewrite !take_nil.
    - simpl. rewrite IH. by rewrite <- Hrow, take_app_add. }
  rewrite (Hpre _ _ HF), Hcat, take_take, Nat.min_l by done. simpl.
  by rewrite take_app_length.
Qed.

Lemma reconstruct_data data k n code fragments :
  erasure_encode data k n = Ok code → fragments_from code fragments →
  erasure_reconstruct fragments k n (len data) =
    if (len fragments <? k)%N then Err CrInsufficientShares else Ok data.
Proof.
  intros (coder & shards & l & Hk & Hnew & Henc & Hl & Hcn & HF & Hdata)%erasure_encode_Ok
    [Hnd Hin]. unfold erasure_reconstruct.
  rewrite (proj2 (N.ltb_ge n k)), orb_false_r by lia.
  destruct (N.ltb_spec (len fragments) k) as [| Hlen]; [done |].
  rewrite Hnew. cbn [ok_or mbind Result_bind].
  assert (Hof : fragments_of l (N.to_nat n) fragments).
  { split; [done |]. intros index f Hf. destruct (Hin index f Hf) as [Hpos Hlk].
    split; [apply lookup_lt_Some in Hlk; lia |]. by apply (Forall_lookup_1 _ _ _ _ HF) in Hlk. }
  assert (Hhead : (length ∘ snd) <$> head fragments = Some l).
  { destruct fragments as [|[i f] fragments]; [unfold len in Hlen; simpl in Hlen; lia |].
    simpl. f_equal. apply (proj2 Hof i f). by left. }
  rewrite Hhead. simpl. destruct (Nat.ltb_spec 0 l); [| lia]. simpl.
  set (empty := replicate (N.to_nat n) (replicate l x00, false)).
  assert (Hen : length empty = N.to_nat n) by apply length_replicate.
  destruct (place_fragments_Ok l empty fragments) as (final & -> & Hfn & HFf & Hfin & Hcount).
  - by rewrite Hen.
  - apply Forall_replicate, length_replicate.
  - intros index f Hf. destruct (proj2 Hof index f Hf) as [Hi _]. eexists.
    apply lookup_replicate_2. lia.
  - simpl. rewrite (rs_reconstruct _ _ _ _ _ final l Hnew Henc HF HFf); [| lia | |].
    + simpl. rewrite <- fmap_take, join_shards_present. simpl. f_equal.
      unfold len. by rewrite Nat2N.id.
    + intros i s Hi. destruct (Hfin i s Hi) as [Hold | (index & Hf & <-)]; [| by apply Hin].
      by apply lookup_replicate in Hold as [[= ] _].
    + unfold len in *. rewrite Hcount. lia.
Qed.

(** C19 (roundtrip): any [data_shards] or more fragments of an encoding, labelled
    with their positions, in any order, give back the data and its exact
    length; fewer are refused. *)
Theorem erasure_round_trip data k n code fragments :
  erasure_encode data k n = Ok code → fragments_from code fragments →
  erasure_reconstruct fragments k n (len data) =
    if (len fragments <? k)%N then Err CrInsufficientShares else Ok data.
Proof. apply reconstruct_data. Qed.

(** (equivalence): rotating the fragments of a ciphertext is encoding that
    ciphertext afresh, whichever quorum of old fragments is at hand: all
    successors of an epoch hold the same fragments. *)
Theorem rotate_is_encode data k n k' n' code fragments :
  erasure_encode data k n = Ok code → fragments_from code fragments →
  (uval k <= len fragments)%N →
  rotate_ciphertext_fragments fragments k n (len data) k' n' = erasure_encode data k' n'.
Proof.
  intros He Hf Hk. unfold rotate_ciphertext_fragments.
  assert (Hdup : has_duplicate fragments.*1 = false).
  { destruct Hf as [Hnd _]. unfold has_duplicate.
    assert (Hgen : ∀ (ids : list u16) (seen : gset u16), NoDup ids → (∀ i, i ∈ ids → i ∉ seen) →
      has_duplicate_from seen ids = false).
    { induction ids as [|i ids IH]; intros seen Hn Hs; [done |]. simpl.
      apply list.NoDup_cons in Hn as [Hi Hn].
      rewrite bool_decide_eq_false_2 by (apply Hs; by left). simpl. apply IH; [done |].
      intros j Hj. specialize (Hs j ltac:(by right)).
      intros [->%elem_of_singleton | ?]%elem_of_union; done. }
    apply Hgen; [done |]. intros i _. set_solver. }
  rewrite Hdup, (reconstruct_data _ _ _ _ _ He Hf), (proj2 (N.ltb_ge _ _)) by done. done.
Qed.

End erasure.

(** ** Fragment commitments *)

Section commitments.
Context `{Prims : Primitives} `{Sharing : SharingPrimitives}.

Lemma fragment_leaves_lookup config_id generation fragments leaves i f :
  fragment_leaves config_id generation fragments = Ok leaves → fragments !! i = Some f →
  ∃ (index : u16) leaf, uval index = (N.of_nat i + 1)%N ∧ leaves !! i = Some leaf
    ∧ ciphertext_fragment_leaf config_id generation index f = Ok leaf.
Proof.
  unfold fragment_leaves. rewrite collect_Ok. intros HF Hi.
  assert (Hp : imap pair fragments !! i = Some (i, f)) by by rewrite list_lookup_imap, Hi.
  destruct (Forall2_lookup_l _ _ _ _ _ HF Hp) as (leaf & Hleaf & H).
  apply bind_Ok in H as (index & Hx%ok_or_Ok & H). exists index, leaf.
  split_and!; [| done | done]. unfold try_u16 in Hx.
  destruct (N.ltb_spec (N.of_nat i + 1) (2 ^ 16)); [| done]. injection Hx as <-.
  by apply uval_to_uint.
Qed.

Lemma length_fragment_leaves config_id generation fragments leaves :
  fragment_leaves config_id generation fragments = Ok leaves →
  length leaves = length fragments.
Proof.
  unfold fragment_leaves. rewrite collect_Ok. intros HF%Forall2_length.
  by rewrite length_imap in HF.
Qed.

Lemma commit_fragments_Ok config_id generation fragments commitment :
  commit_ciphertext_fragments config_id generation fragments = Ok commitment →
  ∃ leaves, fragment_leaves config_id generation fragments = Ok leaves
    ∧ merkle_commit leaves = Ok (cfcm_root commitment, cfcm_proofs commitment)
    ∧ (len fragments < 2 ^ 16)%N.
Proof.
  unfold commit_ciphertext_fragments. rewrite guard_Ok, orb_false_iff, N.ltb_ge.
  rewrite uval_uint_max.
  intros [[_ Hl] (leaves & Hleaves & ([root proofs] & Hm & [= <-])%bind_Ok)%bind_Ok].
  exists leaves. split_and!; [done | done | lia].
Qed.

Lemma verify_fragment_Ok root config_id generation (index n : u16) fragment proof :
  verify_ciphertext_fragment root config_id generation index n fragment proof = Ok () ↔
  (0 < index <= n)%N ∧ ∃ leaf,
    ciphertext_fragment_leaf config_id generation index fragment = Ok leaf
    ∧ merkle_verify root leaf (index - 1) n proof = Ok ().
Proof.
  unfold verify_ciphertext_fragment. rewrite bind_Ok. split.
  - intros (position & Hp%ok_or_Ok & H). apply bind_Ok in H as (leaf & Hleaf & H).
    unfold position_below in Hp. destruct (N.eqb_spec index 0); [done |].
    destruct (Nat.ltb_spec (N.to_nat (index - 1)) (N.to_nat n)); [| done].
    injection Hp as <-. rewrite N2Nat.id in H. split; [lia |]. by exists leaf.
  - intros (Hi & leaf & Hleaf & H). exists (N.to_nat (index - 1)).
    rewrite position_below_Some by lia. split; [done |]. rewrite Hleaf. simpl.
    by rewrite N2Nat.id.
Qed.

(** (roundtrip): every fragment of a committed set verifies at its own index
    with the proof of the commitment. *)
Theorem committed_fragments_verify `{!SigningLaws} config_id generation fragments commitment
    i f proof :
  commit_ciphertext_fragments config_id generation fragments = Ok commitment →
  fragments !! i = Some f → cfcm_proofs commitment !! i = Some proof →
  verify_ciphertext_fragment (cfcm_root commitment) config_id generation
    (U16 (N.of_nat i + 1)) (U16 (len fragments)) f proof = Ok ().
Proof.
  intros (leaves & Hleaves & Hm & Hlen)%commit_fragments_Ok Hi Hp.
  destruct (fragment_leaves_lookup _ _ _ _ _ _ Hleaves Hi) as (index & leaf & Hx & Hleaf & Hcf).
  assert (Hb : i < length fragments) by by apply lookup_lt_Some in Hi.
  assert (Hn : uval (U16 (len fragments)) = len fragments) by by apply uval_to_uint.
  assert (Heq : U16 (N.of_nat i + 1) = index).
  { apply uint_eq. rewrite Hx. apply uval_to_uint. unfold len in Hlen.
    change (2 ^ 16)%N with 65536%N in *. lia. }
  rewrite Heq. apply verify_fragment_Ok. rewrite Hn, Hx. unfold len. split; [lia |].
  exists leaf. split; [done |]. replace (N.of_nat i + 1 - 1)%N with (N.of_nat i) by lia.
  rewrite <- (length_fragment_leaves _ _ _ _ Hleaves).
  by apply (merkle_correct leaves _ (cfcm_proofs commitment)).
Qed.

(** The root opens, at each position, only to the leaf committed there. *)
Definition opens_to (root : Id32) (leaves : list Id32) : Prop :=
  ∀ i leaf proof, merkle_verify root leaf i (len leaves) proof = Ok () →
    leaves !! N.to_nat i = Some leaf.

(** The hash input of a leaf. *)
Definition leaf_input (config_id : Id32) (generation : u64) (index : u16) (f : list byte) :=
  fragment_leaf_preimage config_id generation index (U64 (len f)) (sha256 f).

Definition no_collision (x y : list byte) : Prop := sha256 x = sha256 y → x = y.

Lemma fragment_leaf_Ok config_id generation (index : u16) f leaf :
  ciphertext_fragment_leaf config_id generation index f = Ok leaf →
  leaf = sha256 (leaf_input config_id generation index f).
Proof.
  unfold ciphertext_fragment_leaf. rewrite guard_Ok. intros [_ (l & Hl%ok_or_Ok & [= <-])%bind_Ok].
  unfold try_u64 in Hl. destruct (len f <? 2 ^ 64)%N; [| done]. by injection Hl as <-.
Qed.

Lemma leaf_input_inj id1 g1 i1 f1 id2 g2 i2 f2 :
  leaf_input id1 g1 i1 f1 = leaf_input id2 g2 i2 f2 →
  id1 = id2 ∧ g1 = g2 ∧ i1 = i2 ∧ sha256 f1 = sha256 f2.
Proof.
  unfold leaf_input, fragment_leaf_preimage. intros H%(inj (app _)).
  apply app_array_inj in H as [-> H]. apply app_be_inj in H as [-> H]; [| done].
  apply app_be_inj in H as [-> H]; [| done]. apply app_be_inj in H as [_ H]; [| done].
  split_and!; [done | done | done |]. by apply barr_eq.
Qed.

(** (safety): what verifies against a committed root is the committed fragment
    of that index, of that configuration and payload generation: a fragment
    that is corrupt, moved to another index or of another payload is rejected
    (unless it collides under SHA-256 or the Merkle tree opens to a leaf it
    does not hold). *)
Theorem verified_fragment_is_committed config_id generation fragments commitment leaves
    config_id' generation' (index n : u16) f proof :
  commit_ciphertext_fragments config_id generation fragments = Ok commitment →
  fragment_leaves config_id generation fragments = Ok leaves →
  opens_to (cfcm_root commitment) leaves → uval n = len fragments →
  (∀ i f0, fragments !! i = Some f0 → no_collision f f0
     ∧ no_collision (leaf_input config_id' generation' index f)
         (leaf_input config_id generation (U16 (N.of_nat i + 1)) f0)) →
  verify_ciphertext_fragment (cfcm_root commitment) config_id' generation' index n f proof
    = Ok () →
  fragments !! N.to_nat (index - 1) = Some f ∧ config_id' = config_id
  ∧ generation' = generation.
Proof.
  intros _ Hleaves Hopen Hn Hnc (Hi & leaf & Hleaf & Hv)%verify_fragment_Ok.
  rewrite Hn in Hv, Hi. unfold len in Hv, Hi.
  rewrite <- (length_fragment_leaves _ _ _ _ Hleaves) in Hv. apply Hopen in Hv.
  destruct (lookup_lt_is_Some_2 fragments (N.to_nat (index - 1))) as [f0 Hf0]; [lia |].
  destruct (fragment_leaves_lookup _ _ _ _ _ _ Hleaves Hf0) as (x & leaf0 & Hx & Hl0 & Hcf0).
  rewrite Hv in Hl0. injection Hl0 as <-.
  destruct (Hnc _ _ Hf0) as [Hf Hin].
  assert (Heq : U16 (N.of_nat (N.to_nat (index - 1)) + 1) = x).
  { apply uint_eq. rewrite Hx. apply uval_to_uint. pose proof (uint_lt index). lia. }
  rewrite Heq in Hin. apply fragment_leaf_Ok in Hleaf. apply fragment_leaf_Ok in Hcf0.
  destruct (leaf_input_inj _ _ _ _ _ _ _ _ (Hin ltac:(congruence))) as (-> & -> & _ & Hh).
  by rewrite (Hf Hh).
Qed.

End commitments.

(** ** Witnesses *)

Import SharingScenario.

Lemma derived_keys_separate_witness :
  ∃ i j, i ≠ j ∧ is_Some (Hkdf_expand (id 9) i) ∧ is_Some (Hkdf_expand (id 9) j).
Proof.
  destruct (derived_keys_separate (id 9) (ShareKeyV3 (config 1 1) (U16 1))
    (ShareKeyV3 (config 2 1) (U16 1)) (digest (bytes_of (id 9) ++ kdf_info (ShareKeyV3 (config 1 1) (U16 1))))
    (digest (bytes_of (id 9) ++ kdf_info (ShareKeyV3 (config 2 1) (U16 1)))))
    as (i & j & Hne & Hi & Hj).
  - reflexivity.
  - reflexivity.
  - intros H. apply (f_equal (λ p, match p with
      | ShareKeyV3 r _ => uval (cr_guardian_epoch r) | _ => 0%N end)) in H. by vm_compute in H.
  - exists i, j. split_and!; [done | by eexists | by eexists].
Defined.

(** The second of two shares of the same index is refused. *)
Lemma share_bitmap_is_set_witness :
  decode_distinct ∅ [dealt_share (id 3) 199; dealt_share (id 3) 199] = Err CrDuplicateShare
  ∧ index_seen (marked (replicate SHAMIR_INDEX_WORDS (U64 0)) [dealt_share (id 3) 199])
      (share_index (dealt_share (id 3) 199)) = true.
Proof.
  split.
  - rewrite <- (proj1 (share_bitmap_is_set [dealt_share (id 3) 199; dealt_share (id 3) 199])).
    vm_compute. reflexivity.
  - refine (eq_trans (proj2 (proj2 (proj2 (share_bitmap_is_set [dealt_share (id 3) 199;
      dealt_share (id 3) 199]) [dealt_share (id 3) 199] (dealt_share (id 3) 199) [] eq_refl))) _).
    vm_compute. reflexivity.
Defined.

Definition ex_dealt : list (list byte) :=
  match split_secret (id 3) (U16 2) (U16 3) (id 4) with Ok dealt => dealt | Err _ => [] end.

Lemma split_recover_witness :
  recover_secret [dealt_share (id 3) 2; dealt_share (id 3) 0] (U16 2) = Ok (bytes_of (id 3)).
Proof.
  apply (split_recover (id 3) (U16 2) (U16 3) (id 4) ex_dealt
    [dealt_share (id 3) 2; dealt_share (id 3) 0]).
  - by vm_compute.
  - refine (bool_decide_unpack _ _). by vm_compute.
  - intros x Hx. refine (bool_decide_unpack _ _).
    rewrite !elem_of_cons in Hx. destruct Hx as [-> | [-> | []%elem_of_nil]]; by vm_compute.
Defined.

Definition ex_data : list byte := [x01; x02; x03; x04; x05].
Definition ex_code : list (list byte) :=
  match erasure_encode ex_data (U16 2) (U16 2) with Ok code => code | Err _ => [] end.
Definition ex_fragments : list (u16 * list byte) :=
  [(U16 2, [x04; x05; x00]); (U16 1, [x01; x02; x03])].

Lemma ex_fragments_from : fragments_from ex_code ex_fragments.
Proof.
  split; [refine (bool_decide_unpack _ _); by vm_compute |].
  intros index fragment Hin. unfold ex_fragments in Hin. rewrite !elem_of_cons in Hin.
  destruct Hin as [[= -> ->] | [[= -> ->] | []%elem_of_nil]]; split; by vm_compute.
Qed.

Lemma erasure_round_trip_witness :
  erasure_reconstruct ex_fragments (U16 2) (U16 2) 5 = Ok ex_data.
Proof.
  apply (erasure_round_trip ex_data (U16 2) (U16 2) ex_code ex_fragments).
  - by vm_compute.
  - exact ex_fragments_from.
Defined.

Lemma rotate_is_encode_witness :
  rotate_ciphertext_fragments ex_fragments (U16 2) (U16 2) 5 (U16 1) (U16 3)
    = Ok [ex_data; ex_data; ex_data].
Proof.
  etransitivity;
    [apply (rotate_is_encode ex_data (U16 2) (U16 2) (U16 1) (U16 3) ex_code ex_fragments) |].
  - by vm_compute.
  - exact ex_fragments_from.
  - by vm_compute.
  - by vm_compute.
Defined.

Definition ex_commitment : CiphertextFragmentCommitment :=
  match commit_ciphertext_fragments (id 1) (U64 1) ex_code with
  | Ok c => c
  | Err _ => {| cfcm_root := id 0; cfcm_proofs := [] |}
  end.

Lemma committed_fragments_verify_witness :
  verify_ciphertext_fragment (cfcm_root ex_commitment) (id 1) (U64 1) (U16 2) (U16 2)
    [x04; x05; x00] (default [] (cfcm_proofs ex_commitment !! 1)) = Ok ().
Proof.
  apply (committed_fragments_verify (id 1) (U64 1) ex_code ex_commitment 1); by vm_compute.
Defined.

(** The toy instance with Merkle proofs for one tree only. *)
Definition one_tree (known : list byte) : Primitives := {|
  Sha256_digest := digest;
  VerifyingKey := barr 32;
  VerifyingKey_from_bytes := Some;
  Signature := list byte;
  Signature_try_from := Some;
  VerifyingKey_verify := @VerifyingKey_verify toy;
  SigningKey := Id32;
  SigningKey_from_bytes := λ seed, seed;
  SigningKey_verifying_key := λ key, key;
  SigningKey_sign := signature_of;
  MerkleTree_root := @MerkleTree_root toy;
  MerkleTree_proof := @MerkleTree_proof toy;
  MerkleProof := list byte;
  MerkleProof_try_from := Some;
  MerkleProof_verify := λ proof root indices leaves count,
    bool_decide (proof = known) && @MerkleProof_verify toy proof root indices leaves count
|}.

Definition ex_leaves : list Id32 := Eval vm_compute in
  match fragment_leaves (id 1) (U64 1) ex_code with Ok leaves => leaves | Err _ => [] end.
Definition ex_proof : list byte := Eval vm_compute in concat (bytes_of <$> ex_leaves).

Lemma ex_opens root : @opens_to (one_tree ex_proof) root ex_leaves.
Proof.
  intros i leaf proof H. unfold merkle_verify in H.
  cbn [MerkleProof_try_from MerkleProof_verify one_tree toy ok_or mbind Result_bind] in H.
  destruct (bool_decide (proof = ex_proof)) eqn:Ep; [| discriminate H].
  apply bool_decide_eq_true in Ep as ->.
  destruct (bool_decide (take 32 _ = _)) eqn:Et; [| by rewrite andb_false_r in H].
  apply bool_decide_eq_true in Et.
  destruct (ex_leaves !! N.to_nat i) as [leaf' |] eqn:El.
  - f_equal. apply barr_eq. rewrite <- Et. symmetry.
    exact (nth_array ex_leaves (N.to_nat i) leaf' El).
  - exfalso. apply lookup_ge_None in El. apply (f_equal length) in Et.
    rewrite barr_len, drop_ge in Et; [discriminate Et |].
    change ex_proof with (concat (bytes_of <$> ex_leaves)). rewrite length_arrays. lia.
Qed.

Lemma verified_fragment_is_committed_witness :
  ex_code !! 1 = Some [x04; x05; x00] ∧ id 1 = id 1 ∧ U64 1 = U64 1.
Proof.
  apply (@verified_fragment_is_committed (one_tree ex_proof) (id 1) (U64 1) ex_code
    ex_commitment ex_leaves (id 1) (U64 1) (U16 2) (U16 2) [x04; x05; x00] ex_proof).
  - by vm_compute.
  - by vm_compute.
  - apply ex_opens.
  - by vm_compute.
  - intros i f0 Hi. change ex_code with [[x01; x02; x03]; [x04; x05; x00]] in Hi.
    destruct i as [|[|i]]; [| | discriminate Hi]; injection Hi as <-; split; intros H;
      first [reflexivity | exfalso; apply (f_equal (λ h : Id32, bytes_of h)) in H;
        vm_compute in H; discriminate H].
  - by vm_compute.
Defined.
