(* ===== verification/Frost.v ===== *)
(** Threshold shares and their rotation: crates/gp-crypto/src/rotation.rs.

    Scalars, Shamir sharing, repair and refresh are the frost library's, the
    operations of the class [FrostPrimitives]; a [ChaCha20Rng::from_seed]
    handed to the library is its seed.  What this file defines is the code
    around them: bounds on encodings and identifiers, the checks on shares and
    public packages, the bookkeeping of each round, and the message tracker.
    A [BTreeMap] the library answers is given as its entries in key order. *)

From S2P Require Export Sharing.

(** The operations of frost_ristretto255, by their types there.  Byte
    encodings are [serialize] and [deserialize] of the type they name. *)
Class FrostPrimitives : Type := {
  Identifier : Set;
  Identifier_eq_dec :: EqDecision Identifier;
  Identifier_countable :: Countable Identifier;
  Identifier_try_from : u16 → option Identifier;
  Identifier_serialize : Identifier → list byte;
  FrostVerifyingKey : Set;
  FrostVerifyingKey_eq_dec :: EqDecision FrostVerifyingKey;
  VerifyingShare : Set;
  VerifyingShare_eq_dec :: EqDecision VerifyingShare;
  SigningShare : Set;
  VerifyingShare_from : SigningShare → VerifyingShare;
  (* keys::KeyPackage *)
  KeyPackage : Set;
  KeyPackage_deserialize : list byte → option KeyPackage;
  KeyPackage_serialize : KeyPackage → option (list byte);
  kp_identifier : KeyPackage → Identifier;
  kp_signing_share : KeyPackage → SigningShare;
  kp_verifying_share : KeyPackage → VerifyingShare;
  kp_verifying_key : KeyPackage → FrostVerifyingKey;
  kp_min_signers : KeyPackage → u16;
  (* keys::PublicKeyPackage *)
  PublicKeyPackage : Set;
  PublicKeyPackage_new :
    gmap Identifier VerifyingShare → FrostVerifyingKey → option u16 → PublicKeyPackage;
  PublicKeyPackage_deserialize : list byte → option PublicKeyPackage;
  PublicKeyPackage_serialize : PublicKeyPackage → option (list byte);
  pkp_verifying_shares : PublicKeyPackage → gmap Identifier VerifyingShare;
  pkp_verifying_key : PublicKeyPackage → FrostVerifyingKey;
  pkp_min_signers : PublicKeyPackage → option u16;
  (* keys::generate_with_dealer(total, threshold, Default, rng), reconstruct *)
  SecretShare : Set;
  generate_with_dealer : u16 → u16 → Id32 → option (list SecretShare * PublicKeyPackage);
  KeyPackage_try_from : SecretShare → option KeyPackage;
  reconstruct : list KeyPackage → option (list byte);
  (* keys::repairable *)
  Delta : Set;
  Delta_serialize : Delta → list byte;
  Delta_deserialize : list byte → option Delta;
  Sigma : Set;
  Sigma_serialize : Sigma → list byte;
  Sigma_deserialize : list byte → option Sigma;
  repair_share_part1 :
    list Identifier → KeyPackage → Id32 → Identifier → option (gmap Identifier Delta);
  repair_share_part2 : list Delta → Sigma;
  repair_share_part3 : list Sigma → Identifier → PublicKeyPackage → option KeyPackage;
  (* keys::refresh and keys::dkg *)
  Round1Secret : Set;
  Round1Secret_serialize : Round1Secret → option (list byte);
  Round1Secret_deserialize : list byte → option Round1Secret;
  r1s_identifier : Round1Secret → Identifier;
  Round1Package : Set;
  Round1Package_serialize : Round1Package → option (list byte);
  Round1Package_deserialize : list byte → option Round1Package;
  refresh_dkg_part1 : Identifier → u16 → u16 → Id32 → option (Round1Secret * Round1Package);
  Round2Secret : Set;
  Round2Secret_serialize : Round2Secret → option (list byte);
  Round2Secret_deserialize : list byte → option Round2Secret;
  r2s_identifier : Round2Secret → Identifier;
  Round2Package : Set;
  Round2Package_serialize : Round2Package → option (list byte);
  Round2Package_deserialize : list byte → option Round2Package;
  refresh_dkg_part2 :
    Round1Secret → gmap Identifier Round1Package →
    option (Round2Secret * list (Identifier * Round2Package));
  refresh_dkg_shares :
    Round2Secret → gmap Identifier Round1Package → gmap Identifier Round2Package →
    PublicKeyPackage → KeyPackage → option (KeyPackage * PublicKeyPackage)
}.

Definition FROST_SHARE_MAX_LEN : N := 512.
Definition FROST_PUBLIC_PACKAGE_MAX_LEN : N := 4 * 1024.
Definition FROST_ROUND_PACKAGE_MAX_LEN : N := 4 * 1024.
Definition FROST_SCALAR_LEN : N := 32.

Record FrostDealerOutput : Set := mkFrostDealerOutput {
  fdo_dek : list byte;
  fdo_shares : list (list byte);
  fdo_public_package : list byte
}.

Record FrostRefreshRound1 : Set := mkFrostRefreshRound1 {
  frr1_secret_state : list byte;
  frr1_broadcast : list byte
}.

Record FrostRefreshRound2 : Set := mkFrostRefreshRound2 {
  frr2_secret_state : list byte;
  frr2_direct_messages : list (u16 * list byte)
}.

Record FrostRefreshOutput : Set := mkFrostRefreshOutput {
  fro_share : list byte;
  fro_public_package : list byte
}.

(** The label of an encoded share. *)
Record EpochFrostShare : Set := mkEpochFrostShare {
  efs_config_ref : ConfigRef;
  efs_encoded_share : list byte
}.

Record DpssMessageTracker : Set := mkDpssMessageTracker {
  next_sequences : gmap (u16 * u16) u64;
  seen_payloads : gset Id32
}.

Definition DpssMessageTracker_default : DpssMessageTracker :=
  {| next_sequences := ∅; seen_payloads := ∅ |}.

Section frost.
Context `{Prims : Primitives} `{Frost : FrostPrimitives}.

(** ** Bounds *)

Definition identifier (value : u16) : Result CryptoError Identifier :=
  if (uval value =? 0)%N || (FROST_MAX_PARTICIPANTS <? value)%mr
  then Err CrInvalidFrostParticipant
  else ok_or (Identifier_try_from value) CrInvalidFrostParticipant.

Definition validate_threshold (threshold total : u16) : Result CryptoError () :=
  fail_if ((threshold <? 2) || (total <? threshold)
    || negb ((2 <=? total) && (total <=? FROST_MAX_PARTICIPANTS)))%mr CrInvalidThreshold.

Definition bounded (value : list byte) (maximum : N) : Result CryptoError () :=
  fail_if (bool_decide (value = []) || (maximum <? len value)%mr) CrInvalidFrost.

(** [for candidate in 1..=u16::MAX], from [candidate] on, with the remaining
    iterations as fuel. *)
Fixpoint numeric_identifier_from (iterations : nat) (candidate : u16) (value : Identifier) :
    Result CryptoError u16 :=
  match iterations with
  | O => Err CrInvalidFrostParticipant
  | S iterations =>
      i ← identifier candidate;
      if bool_decide (i = value) then Ok candidate else
      if (FROST_MAX_PARTICIPANTS <=? candidate)%mr then Err CrInvalidFrostParticipant else
      numeric_identifier_from iterations (U16 (candidate + 1)) value
  end.

Definition numeric_identifier (value : Identifier) : Result CryptoError u16 :=
  numeric_identifier_from (N.to_nat 65535) (U16 1) value.

(** ** Message ordering *)

Definition accept_dpss_message (sender recipient : u16) (sequence : u64)
    (provider_payload : list byte) : SR DpssMessageTracker CryptoError () :=
  _ ← lift (identifier sender);
  _ ← lift (identifier recipient);
  if bool_decide (sender = recipient) then lift (Err CrInvalidFrostParticipant) else
  _ ← lift (bounded provider_payload FROST_ROUND_PACKAGE_MAX_LEN);
  tracker ← get;
  let expected := default (U64 1) (next_sequences tracker !! (sender, recipient)) in
  let entered := <[(sender, recipient) := expected]> (next_sequences tracker) in
  let digest := sha256 provider_payload in
  if bool_decide (sequence ≠ expected) then
    _ ← put {| next_sequences := entered; seen_payloads := seen_payloads tracker |};
    lift (Err CrInvalidFrost)
  else if bool_decide (digest ∈ seen_payloads tracker) then
    _ ← put {| next_sequences := entered; seen_payloads := seen_payloads tracker |};
    lift (Err CrInvalidFrost)
  else
    put {| next_sequences := <[(sender, recipient) := sat_add expected (U64 1)]> entered;
           seen_payloads := {[digest]} ∪ seen_payloads tracker |}.

(** ** Encodings *)

Definition decode_share (value : list byte) : Result CryptoError KeyPackage :=
  _ ← bounded value FROST_SHARE_MAX_LEN;
  share ← ok_or (KeyPackage_deserialize value) CrInvalidFrost;
  if bool_decide (VerifyingShare_from (kp_signing_share share) ≠ kp_verifying_share share)
  then Err CrInvalidFrost else Ok share.

Definition decode_public (value : list byte) : Result CryptoError PublicKeyPackage :=
  _ ← bounded value FROST_PUBLIC_PACKAGE_MAX_LEN;
  ok_or (PublicKeyPackage_deserialize value) CrInvalidFrost.

Definition encode_share (value : KeyPackage) : Result CryptoError (list byte) :=
  encoded ← ok_or (KeyPackage_serialize value) CrInvalidFrost;
  _ ← bounded encoded FROST_SHARE_MAX_LEN;
  Ok encoded.

Definition encode_public (value : PublicKeyPackage) : Result CryptoError (list byte) :=
  encoded ← ok_or (PublicKeyPackage_serialize value) CrInvalidFrost;
  _ ← bounded encoded FROST_PUBLIC_PACKAGE_MAX_LEN;
  Ok encoded.

(** ** Dealing and recovering *)

(** The loop over the secret shares: all shares encoded, and the first
    [threshold] key packages. *)
Fixpoint dealer_shares (threshold : N) (reconstruction : list KeyPackage)
    (secret_shares : list SecretShare) :
    Result CryptoError (list (list byte) * list KeyPackage) :=
  match secret_shares with
  | [] => Ok ([], reconstruction)
  | secret_share :: secret_shares =>
      key_package ← ok_or (KeyPackage_try_from secret_share) CrInvalidFrost;
      encoded ← encode_share key_package;
      '(shares, reconstruction) ← dealer_shares threshold
        (if (len reconstruction <? threshold)%mr then reconstruction ++ [key_package]
         else reconstruction) secret_shares;
      Ok (encoded :: shares, reconstruction)
  end.

Definition frost_dealer_split (threshold total : u16) (seed : Id32) :
    Result CryptoError FrostDealerOutput :=
  _ ← validate_threshold threshold total;
  '(secret_shares, public_package) ←
    ok_or (generate_with_dealer total threshold seed) CrInvalidFrost;
  if bool_decide (len secret_shares ≠ uval total) then Err CrInvalidFrost else
  '(shares, reconstruction) ← dealer_shares threshold [] secret_shares;
  dek ← ok_or (reconstruct reconstruction) CrInvalidFrost;
  if bool_decide (len dek ≠ FROST_SCALAR_LEN) then Err CrInvalidFrost else
  public_package ← encode_public public_package;
  Ok {| fdo_dek := dek; fdo_shares := shares; fdo_public_package := public_package |}.

(** The loop over the encoded shares, with the identifiers and the verifying
    key seen. *)
Fixpoint recover_packages (threshold : u16) (identifiers : gset (list byte))
    (verifying_key : option FrostVerifyingKey) (shares : list (list byte)) :
    Result CryptoError (list KeyPackage) :=
  match shares with
  | [] => Ok []
  | encoded :: shares =>
      package ← decode_share encoded;
      let i := Identifier_serialize (kp_identifier package) in
      if bool_decide (kp_min_signers package ≠ threshold) || bool_decide (i ∈ identifiers)
         || match verifying_key with
            | Some key => bool_decide (key ≠ kp_verifying_key package)
            | None => false
            end
      then Err CrInvalidFrostParticipant else
      packages ← recover_packages threshold ({[i]} ∪ identifiers)
        (Some (kp_verifying_key package)) shares;
      Ok (package :: packages)
  end.

Definition frost_recover_dek (shares : list (list byte)) (threshold : u16) :
    Result CryptoError (list byte) :=
  if ((threshold <? 2) || (len shares <? threshold))%mr then Err CrInsufficientShares else
  packages ← recover_packages threshold ∅ None shares;
  output ← ok_or (reconstruct packages) CrInvalidFrost;
  if bool_decide (len output ≠ FROST_SCALAR_LEN) then Err CrInvalidFrost else Ok output.

Definition frost_recover_dek_for_epoch (shares : list EpochFrostShare) (expected : ConfigRef)
    (threshold : u16) : Result CryptoError (list byte) :=
  if existsb (λ share, bool_decide (efs_config_ref share ≠ expected)) shares
  then Err CrInvalidFrostParticipant
  else frost_recover_dek (efs_encoded_share <$> shares) threshold.

Definition frost_verify_share (encoded_share encoded_public : list byte) :
    Result CryptoError u16 :=
  share ← decode_share encoded_share;
  public ← decode_public encoded_public;
  if bool_decide (kp_verifying_key share ≠ pkp_verifying_key public)
     || bool_decide (pkp_min_signers public ≠ Some (kp_min_signers share))
     || bool_decide (pkp_verifying_shares public !! kp_identifier share
                     ≠ Some (kp_verifying_share share))
  then Err CrInvalidFrost
  else numeric_identifier (kp_identifier share).

Definition frost_public_package_digest (encoded_public : list byte) :
    Result CryptoError Id32 :=
  public ← decode_public encoded_public;
  encoded ← encode_public public;
  Ok (sha256 encoded).

(** The loop over the successors' packages and shares. *)
Fixpoint check_successors (encoded_canonical : list byte)
    (successors : list (list byte * list byte)) : Result CryptoError (gset u16) :=
  match successors with
  | [] => Ok ∅
  | (public, share) :: successors =>
      if bool_decide (public ≠ encoded_canonical) then Err CrInvalidFrost else
      participant ← frost_verify_share share encoded_canonical;
      actual ← check_successors encoded_canonical successors;
      Ok ({[participant]} ∪ actual)
  end.

Definition verify_dpss_result (old_public : list byte)
    (successor_public_packages successor_shares : list (list byte))
    (expected_participants : list u16) : Result CryptoError Id32 :=
  if bool_decide (length successor_public_packages ≠ length expected_participants)
     || bool_decide (length successor_shares ≠ length expected_participants)
     || bool_decide (expected_participants = [])
  then Err CrInvalidFrostParticipant else
  identifiers ← collect identifier expected_participants;
  let expected : gset Identifier := list_to_set identifiers in
  if bool_decide (size expected ≠ length expected_participants)
  then Err CrInvalidFrostParticipant else
  old ← decode_public old_public;
  canonical ← decode_public (default [] (head successor_public_packages));
  if bool_decide (pkp_verifying_key old ≠ pkp_verifying_key canonical)
     || bool_decide (dom (pkp_verifying_shares canonical) ≠ expected)
  then Err CrInvalidFrost else
  encoded_canonical ← encode_public canonical;
  actual ← check_successors encoded_canonical
    (zip successor_public_packages successor_shares);
  if bool_decide (actual ≠ list_to_set expected_participants)
  then Err CrInvalidFrostParticipant
  else Ok (sha256 encoded_canonical).

(** ** Repairing a share *)

Definition frost_repair_part1 (helper_share : list byte) (helper_ids : list u16)
    (replacement_id : u16) (seed : Id32) : Result CryptoError (list (u16 * list byte)) :=
  helper ← decode_share helper_share;
  helper_identifiers ← collect identifier helper_ids;
  let unique : gset Identifier := list_to_set helper_identifiers in
  if bool_decide (size unique ≠ length helper_identifiers)
     || bool_decide (kp_identifier helper ∉ unique)
     || (len helper_ids <? kp_min_signers helper)%mr
  then Err CrInvalidFrostParticipant else
  replacement ← identifier replacement_id;
  values ← ok_or (repair_share_part1 helper_identifiers helper seed replacement)
    CrInvalidFrost;
  collect (λ '(numeric, id),
      value ← ok_or (values !! id) CrInvalidFrost;
      let encoded := Delta_serialize value in
      _ ← bounded encoded FROST_ROUND_PACKAGE_MAX_LEN;
      Ok (numeric, encoded))
    (zip helper_ids helper_identifiers).

Definition begin_old_share (helper_share : list byte) (helper_ids : list u16)
    (replacement_id : u16) (seed : Id32) : Result CryptoError (list (u16 * list byte)) :=
  frost_repair_part1 helper_share helper_ids replacement_id seed.

Definition frost_repair_part2 (deltas : list (list byte)) : Result CryptoError (list byte) :=
  if (len deltas <? 2)%mr then Err CrInsufficientShares else
  decoded ← collect (λ value,
      _ ← bounded value FROST_ROUND_PACKAGE_MAX_LEN;
      ok_or (Delta_deserialize value) CrInvalidFrost) deltas;
  Ok (Sigma_serialize (repair_share_part2 decoded)).

Definition frost_repair_part3 (sigmas : list (list byte)) (replacement_id : u16)
    (encoded_public : list byte) : Result CryptoError (list byte) :=
  public ← decode_public encoded_public;
  threshold ← ok_or (pkp_min_signers public) CrInvalidFrost;
  if (len sigmas <? uval threshold)%mr then Err CrInsufficientShares else
  decoded ← collect (λ value,
      _ ← bounded value FROST_ROUND_PACKAGE_MAX_LEN;
      ok_or (Sigma_deserialize value) CrInvalidFrost) sigmas;
  replacement ← identifier replacement_id;
  share ← ok_or (repair_share_part3 decoded replacement public) CrInvalidFrost;
  encode_share share.

Definition finalize_new_share (sigmas : list (list byte)) (replacement_id : u16)
    (encoded_public : list byte) : Result CryptoError (list byte) :=
  frost_repair_part3 sigmas replacement_id encoded_public.

Definition frost_public_add_repaired_share (encoded_public repaired_share : list byte) :
    Result CryptoError (list byte) :=
  public ← decode_public encoded_public;
  share ← decode_share repaired_share;
  if bool_decide (pkp_verifying_key public ≠ kp_verifying_key share)
     || bool_decide (pkp_min_signers public ≠ Some (kp_min_signers share))
  then Err CrInvalidFrost else
  if bool_decide (is_Some (pkp_verifying_shares public !! kp_identifier share))
  then Err CrInvalidFrostParticipant else
  encode_public (PublicKeyPackage_new
    (<[kp_identifier share := kp_verifying_share share]> (pkp_verifying_shares public))
    (pkp_verifying_key public) (pkp_min_signers public)).

(** ** Refreshing all shares *)

Definition frost_refresh_part1 (participant_id threshold total : u16) (seed : Id32) :
    Result CryptoError FrostRefreshRound1 :=
  _ ← validate_threshold threshold total;
  participant ← identifier participant_id;
  '(secret, public) ←
    ok_or (refresh_dkg_part1 participant total threshold seed) CrInvalidFrost;
  secret_state ← ok_or (Round1Secret_serialize secret) CrInvalidFrost;
  broadcast ← ok_or (Round1Package_serialize public) CrInvalidFrost;
  _ ← bounded secret_state FROST_ROUND_PACKAGE_MAX_LEN;
  _ ← bounded broadcast FROST_ROUND_PACKAGE_MAX_LEN;
  Ok {| frr1_secret_state := secret_state; frr1_broadcast := broadcast |}.

(** The loop that decodes the messages of a round, one for each sender. *)
Fixpoint round_messages {P : Set} (deserialize : list byte → option P) (self_id : Identifier)
    (messages : gmap Identifier P) (encoded_messages : list (u16 * list byte)) :
    Result CryptoError (gmap Identifier P) :=
  match encoded_messages with
  | [] => Ok messages
  | (sender, encoded) :: encoded_messages =>
      sender ← identifier sender;
      if bool_decide (sender = self_id) || bool_decide (is_Some (messages !! sender))
      then Err CrInvalidFrostParticipant else
      _ ← bounded encoded FROST_ROUND_PACKAGE_MAX_LEN;
      package ← ok_or (deserialize encoded) CrInvalidFrost;
      round_messages deserialize self_id (<[sender := package]> messages) encoded_messages
  end.

Definition frost_refresh_part2 (secret_state : list byte)
    (round1_messages : list (u16 * list byte)) : Result CryptoError FrostRefreshRound2 :=
  _ ← bounded secret_state FROST_ROUND_PACKAGE_MAX_LEN;
  secret ← ok_or (Round1Secret_deserialize secret_state) CrInvalidFrost;
  messages ← round_messages Round1Package_deserialize (r1s_identifier secret) ∅
    round1_messages;
  '(next_secret, outgoing) ← ok_or (refresh_dkg_part2 secret messages) CrInvalidFrost;
  secret_state ← ok_or (Round2Secret_serialize next_secret) CrInvalidFrost;
  direct_messages ← collect (λ '(recipient, package),
      numeric ← numeric_identifier recipient;
      encoded ← ok_or (Round2Package_serialize package) CrInvalidFrost;
      _ ← bounded encoded FROST_ROUND_PACKAGE_MAX_LEN;
      Ok (numeric, encoded)) outgoing;
  Ok {| frr2_secret_state := secret_state; frr2_direct_messages := direct_messages |}.

Definition frost_refresh_part3 (secret_state : list byte)
    (round1_messages round2_messages : list (u16 * list byte))
    (old_public old_share : list byte) : Result CryptoError FrostRefreshOutput :=
  _ ← bounded secret_state FROST_ROUND_PACKAGE_MAX_LEN;
  secret ← ok_or (Round2Secret_deserialize secret_state) CrInvalidFrost;
  let self_id := r2s_identifier secret in
  round1 ← round_messages Round1Package_deserialize self_id ∅ round1_messages;
  round2 ← round_messages Round2Package_deserialize self_id ∅ round2_messages;
  if bool_decide (dom round1 ≠ dom round2) then Err CrInvalidFrostParticipant else
  old_public ← decode_public old_public;
  old_share ← decode_share old_share;
  if bool_decide (kp_identifier old_share ≠ self_id) then Err CrInvalidFrostParticipant else
  '(share, public) ←
    ok_or (refresh_dkg_shares secret round1 round2 old_public old_share) CrInvalidFrost;
  share ← encode_share share;
  public_package ← encode_public public;
  Ok {| fro_share := share; fro_public_package := public_package |}.

End frost.

(** What the library promises of identifiers: every nonzero number is one, and
    different numbers are different identifiers. *)
Class IdentifierLaws `{FrostPrimitives} : Prop := {
  identifier_total (value : u16) : (0 < value)%N → is_Some (Identifier_try_from value);
  identifier_injective (v w : u16) i :
    Identifier_try_from v = Some i → Identifier_try_from w = Some i → v = w
}.

(** What the library promises of a dealer: packages survive their encodings;
    the dealt shares, in the order of their identifiers 1, 2, .., agree with the
    public package; any [threshold] of them reconstruct the same key. *)
Class DealerLaws `{FrostPrimitives} : Prop := {
  key_package_decodes p encoded :
    KeyPackage_serialize p = Some encoded → KeyPackage_deserialize encoded = Some p;
  public_package_decodes p encoded :
    PublicKeyPackage_serialize p = Some encoded → PublicKeyPackage_deserialize encoded = Some p;
  identifier_encoding i j : Identifier_serialize i = Identifier_serialize j → i = j;
  dealer_min_signers total threshold seed shares public :
    generate_with_dealer total threshold seed = Some (shares, public) →
    pkp_min_signers public = Some threshold;
  dealer_package total threshold seed shares public i share package :
    generate_with_dealer total threshold seed = Some (shares, public) →
    shares !! i = Some share → KeyPackage_try_from share = Some package →
    Identifier_try_from (U16 (N.of_nat i + 1)) = Some (kp_identifier package)
    ∧ kp_min_signers package = threshold
    ∧ kp_verifying_key package = pkp_verifying_key public
    ∧ VerifyingShare_from (kp_signing_share package) = kp_verifying_share package
    ∧ pkp_verifying_shares public !! kp_identifier package
      = Some (kp_verifying_share package);
  dealer_reconstruct total threshold seed shares public :
    generate_with_dealer total threshold seed = Some (shares, public) →
    ∃ key, ∀ packages, NoDup packages →
      (∀ p, p ∈ packages → ∃ share, share ∈ shares ∧ KeyPackage_try_from share = Some p) →
      (threshold <= len packages)%N → reconstruct packages = Some key
}.
