(* ===== verification/FrostProps.v ===== *)
(** Properties of the threshold-share code: crates/gp-crypto/src/rotation.rs.

    Over all histories of calls the message tracker accepts exactly the next
    message of a sender to a recipient; identifiers and numbers correspond;
    what a recovery of the key and the check of a rotation's result accept. *)

From S2P Require Export Frost.
From S2P Require Import Scenario.

Section tracker.
Context `{Prims : Primitives} `{Frost : FrostPrimitives}.

(** ** The message tracker *)

Record DpssMessage : Set := mkDpssMessage {
  dm_sender : u16;
  dm_recipient : u16;
  dm_sequence : u64;
  dm_payload : list byte
}.

Definition accept (m : DpssMessage) : SR DpssMessageTracker CryptoError () :=
  accept_dpss_message (dm_sender m) (dm_recipient m) (dm_sequence m) (dm_payload m).

Definition step (s : DpssMessageTracker * list DpssMessage) (m : DpssMessage) :
    DpssMessageTracker * list DpssMessage :=
  let '(r, tracker) := accept m s.1 in (tracker, if is_ok r then s.2 ++ [m] else s.2).

(** The tracker after a sequence of calls, and the messages it accepted. *)
Definition run (messages : list DpssMessage) : DpssMessageTracker * list DpssMessage :=
  foldl step (DpssMessageTracker_default, []) messages.

Definition between (sender recipient : u16) (messages : list DpssMessage) : list DpssMessage :=
  filter (λ m, (dm_sender m, dm_recipient m) = (sender, recipient)) messages.

(** The number the next message of a sender to a recipient must carry. *)
Definition next_number (sender recipient : u16) (accepted : list DpssMessage) : N :=
  N.min (1 + len (between sender recipient accepted)) (2 ^ 64 - 1).

Definition well_formed (m : DpssMessage) : Prop :=
  is_ok (identifier (dm_sender m)) = true ∧ is_ok (identifier (dm_recipient m)) = true
  ∧ dm_sender m ≠ dm_recipient m ∧ (1 <= len (dm_payload m) <= 4096)%N.

Definition fresh_digest (m : DpssMessage) (accepted : list DpssMessage) : Prop :=
  ∀ m', m' ∈ accepted → sha256 (dm_payload m') ≠ sha256 (dm_payload m).

(** What the tracker remembers of the accepted messages. *)
Definition tracks (tracker : DpssMessageTracker) (accepted : list DpssMessage) : Prop :=
  (∀ sender recipient,
     uval (default (U64 1) (next_sequences tracker !! (sender, recipient)))
       = next_number sender recipient accepted)
  ∧ seen_payloads tracker = list_to_set ((λ m, sha256 (dm_payload m)) <$> accepted).

Lemma bounded_Ok value maximum u :
  bounded value maximum = Ok u ↔ (1 <= len value <= maximum)%N.
Proof.
  unfold bounded. rewrite fail_if_Ok, orb_false_iff, bool_decide_eq_false, N.ltb_ge.
  destruct value as [|b value]; unfold len; simpl; split; [intros [[] _]; done | lia | |].
  - lia.
  - intros H. split; [done | lia].
Qed.

Lemma tracks_digest tracker accepted m :
  tracks tracker accepted →
  sha256 (dm_payload m) ∉ seen_payloads tracker ↔ fresh_digest m accepted.
Proof.
  intros [_ ->]. rewrite elem_of_list_to_set, list_elem_of_fmap. unfold fresh_digest.
  naive_solver.
Qed.

Lemma next_number_snoc sender recipient accepted m :
  next_number sender recipient (accepted ++ [m])
    = if decide ((dm_sender m, dm_recipient m) = (sender, recipient))
      then N.min (next_number sender recipient accepted + 1) (2 ^ 64 - 1)
      else next_number sender recipient accepted.
Proof.
  unfold next_number, between. rewrite list.filter_app, len_app, filter_cons, filter_nil.
  case_decide; unfold len; simpl length; lia.
Qed.

(** A call, once its arguments are found well formed. *)
Lemma accept_cases tracker accepted m r tracker' :
  tracks tracker accepted → accept m tracker = (r, tracker') →
  (r = Ok () ∧ well_formed m
     ∧ uval (dm_sequence m) = next_number (dm_sender m) (dm_recipient m) accepted
     ∧ fresh_digest m accepted ∧ tracks tracker' (accepted ++ [m]))
  ∨ ((∃ e, r = Err e)
     ∧ ¬ (well_formed m
          ∧ uval (dm_sequence m) = next_number (dm_sender m) (dm_recipient m) accepted
          ∧ fresh_digest m accepted)
     ∧ tracks tracker' accepted).
Proof.
  intros Ht. pose proof (tracks_digest _ _ m Ht) as Hd. pose proof Ht as [Hn Hs].
  unfold accept, accept_dpss_message, well_formed.
  intros [(i & Hi & H) | (e & Hi & -> & ->)]%lift_bind_inv;
    [| right; rewrite Hi; split_and!; [by eexists | naive_solver | done]].
  apply lift_bind_inv in H as [(j & Hj & H) | (e & Hj & -> & ->)];
    [| right; rewrite Hj; split_and!; [by eexists | naive_solver | done]].
  rewrite Hi, Hj. case_bool_decide as Hsr.
  { injection H as <- <-. right. split_and!; [by eexists | naive_solver | done]. }
  apply lift_bind_inv in H as [([] & Hb & H) | (e & Hb & -> & ->)].
  2: { right. split_and!; [by eexists | | done]. intros ((_ & _ & _ & Hl) & _).
       change 4096%N with FROST_ROUND_PACKAGE_MAX_LEN in Hl.
       by rewrite (proj2 (bounded_Ok _ _ ()) Hl) in Hb. }
  apply bounded_Ok in Hb. change FROST_ROUND_PACKAGE_MAX_LEN with 4096%N in Hb.
  unfold mbind, SR_bind, get in H.
  set (expected := default (U64 1) (next_sequences tracker !! (dm_sender m, dm_recipient m))) in *.
  assert (He : uval expected = next_number (dm_sender m) (dm_recipient m) accepted) by apply Hn.
  assert (Hent : ∀ s t, default (U64 1) (<[(dm_sender m, dm_recipient m) := expected]>
      (next_sequences tracker) !! (s, t)) = default (U64 1) (next_sequences tracker !! (s, t))).
  { intros s t. destruct (decide ((dm_sender m, dm_recipient m) = (s, t))) as [E | Hne].
    - rewrite <- E. by rewrite lookup_insert_eq.
    - by rewrite lookup_insert_ne. }
  case_bool_decide as Hq.
  { injection H as <- <-. right. split_and!; [by eexists | | split; [| done]].
    - intros (_ & Hq' & _). apply Hq, uint_eq. by rewrite He.
    - intros s t. cbn [next_sequences]. rewrite Hent. apply Hn. }
  case_bool_decide as Hdup.
  { injection H as <- <-. right. split_and!; [by eexists | | split; [| done]].
    - intros (_ & _ & Hf). by apply Hd in Hf.
    - intros s t. cbn [next_sequences]. rewrite Hent. apply Hn. }
  injection H as <- <-. left. rewrite Hq.
  split_and!; [done | done | done | done | lia | lia | done | by apply Hd |].
  split; cbn [next_sequences seen_payloads].
  - intros s t. rewrite next_number_snoc, insert_insert_eq. case_decide as E.
    + rewrite <- E, lookup_insert_eq. change (default (U64 1) (Some ?x)) with x.
      rewrite uval_sat_add, He.
      injection E as -> ->. change (uval (U64 1)) with 1%N. done.
    + rewrite lookup_insert_ne by done. apply Hn.
  - rewrite fmap_app, list_to_set_app_L, Hs. cbn [fmap list_fmap list_to_set].
    rewrite (right_id_L ∅ (∪)). apply (comm_L (∪)).
Qed.

Lemma run_snoc messages m : run (messages ++ [m]) = step (run messages) m.
Proof. unfold run. by rewrite foldl_app. Qed.

Lemma run_tracks messages : tracks (run messages).1 (run messages).2.
Proof.
  induction messages as [|m messages IH] using rev_ind; [split; [| done]; intros s t|].
  - unfold run. cbn [foldl fst snd DpssMessageTracker_default next_sequences].
    by rewrite lookup_empty.
  - rewrite run_snoc. unfold step. destruct (accept m (run messages).1) as [r t] eqn:E.
    destruct (accept_cases _ _ _ _ _ IH E) as [(-> & _ & _ & _ & H) | ((e & ->) & _ & H)]; done.
Qed.

(** (refinement): after any sequence of calls, accepted or refused, the tracker
    accepts a message exactly if both numbers are participants', they differ,
    the payload has 1 to 4096 bytes, the sequence number is the next for that
    sender and recipient (1 after none, and 2^64 - 1 forever once reached),
    and no accepted message, between whomever, had the same digest. *)
Theorem dpss_accept_iff messages m :
  is_ok (accept m (run messages).1).1 = true ↔
    well_formed m
    ∧ uval (dm_sequence m) = next_number (dm_sender m) (dm_recipient m) (run messages).2
    ∧ fresh_digest m (run messages).2.
Proof.
  pose proof (run_tracks messages) as Ht.
  destruct (accept m (run messages).1) as [r t] eqn:E. cbn [fst].
  destruct (accept_cases _ _ _ _ _ Ht E) as [(-> & H) | ((e & ->) & H & _)]; simpl.
  - naive_solver.
  - split; [done | by intros ?%H].
Qed.

(** (safety): the accepted messages of a sender to a recipient carry the
    numbers 1, 2, 3, ... in order, without gaps or repeats as long as they
    fit, and no two accepted messages share a payload digest. *)
Theorem dpss_messages_in_order messages :
  (∀ sender recipient i m, between sender recipient (run messages).2 !! i = Some m →
     uval (dm_sequence m) = N.min (N.of_nat i + 1) (2 ^ 64 - 1))
  ∧ NoDup ((λ m, sha256 (dm_payload m)) <$> (run messages).2).
Proof.
  induction messages as [|m messages [IHo IHd]] using rev_ind.
  { split; [done | constructor]. }
  rewrite run_snoc. unfold step. destruct (accept m (run messages).1) as [r t] eqn:E.
  destruct (accept_cases _ _ _ _ _ (run_tracks messages) E)
    as [(-> & _ & Hq & Hf & _) | ((e & ->) & _)]; cbn [is_ok fst snd]; [| done].
  split.
  - intros sender recipient i m'. unfold between. rewrite list.filter_app, filter_cons, filter_nil.
    intros [Hi | [Hge Hi]]%lookup_app_Some; [by apply (IHo sender recipient) |].
    case_decide as Ep; [| done]. apply list_lookup_singleton_Some in Hi as [Hi <-].
    rewrite Hq. unfold next_number, between, len.
    injection Ep as -> ->. replace (length _) with i by lia. lia.
  - rewrite fmap_app, list.NoDup_app. split_and!; [done | | apply NoDup_singleton].
    intros d (m' & -> & Hm')%list_elem_of_fmap.
    cbn [fmap list_fmap]. rewrite list_elem_of_singleton. intros H. by apply (Hf m').
Qed.

End tracker.

(** ** Identifiers and shares *)

Section shares.
Context `{Prims : Primitives} `{Frost : FrostPrimitives}.

Lemma identifier_Ok value i :
  identifier value = Ok i ↔ (1 <= value <= 32)%N ∧ Identifier_try_from value = Some i.
Proof.
  unfold identifier. rewrite guard_Ok, ok_or_Ok, orb_false_iff, N.eqb_neq, N.ltb_ge.
  change (uval FROST_MAX_PARTICIPANTS) with 32%N. split; intros [? ?]; split; lia || done.
Qed.

Lemma numeric_from_Ok iterations candidate value v :
  numeric_identifier_from iterations candidate value = Ok v → identifier v = Ok value.
Proof.
  revert candidate. induction iterations as [|n IH]; intros candidate; simpl; [done |].
  intros (i & Hi & H)%bind_Ok. case_bool_decide as E.
  - injection H as <-. by rewrite Hi, E.
  - destruct (_ <=? _)%mr; [done |]. by apply IH in H.
Qed.

Lemma numeric_from_finds `{!IdentifierLaws} iterations (candidate v : u16) value :
  (1 <= candidate <= v)%N → (N.of_nat iterations > v - candidate)%N →
  identifier v = Ok value → numeric_identifier_from iterations candidate value = Ok v.
Proof.
  intros Hc Hn Hv. revert candidate Hc Hn. apply identifier_Ok in Hv as [Hr Hv].
  induction iterations as [|n IH]; intros candidate Hc Hn; [lia |].
  cbn [numeric_identifier_from].
  destruct (identifier_total candidate) as [i Hi]; [lia |].
  rewrite (proj2 (identifier_Ok candidate i)) by (split; [lia | done]).
  cbn [mbind Result_bind]. case_bool_decide as E.
  - subst i. f_equal. by apply (identifier_injective _ _ value).
  - assert (candidate ≠ v) as Hne by (intros ->; rewrite Hi in Hv; by injection Hv).
    assert (uval candidate ≠ uval v) by by intros ?%uint_eq.
    destruct (N.leb_spec FROST_MAX_PARTICIPANTS candidate) as [Hf | _];
      [change (uval FROST_MAX_PARTICIPANTS) with 32%N in Hf; lia |].
    assert (Hs : uval (U16 (candidate + 1)) = (candidate + 1)%N).
    { apply uval_to_uint. change (2 ^ 16)%N with 65536%N. lia. }
    apply IH; lia.
Qed.

(** (roundtrip): the search for the number of an identifier stops after at most
    32 of its 65535 rounds and finds exactly the number the identifier was
    made from. *)
Theorem numeric_identifier_inverse `{!IdentifierLaws} value v :
  numeric_identifier value = Ok v ↔ identifier v = Ok value.
Proof.
  split; [apply numeric_from_Ok |]. intros Hv. pose proof Hv as [Hr _]%identifier_Ok.
  apply numeric_from_finds; [| | done]; change (uval (U16 1)) with 1%N; lia.
Qed.

Lemma collect_identifier_NoDup ids identifiers :
  collect identifier ids = Ok identifiers →
  size (list_to_set identifiers : gset Identifier) = length ids → NoDup ids.
Proof.
  intros HF%collect_Ok Hsz.
  assert (Hnd : NoDup identifiers).
  { assert (Hlen : length ids = length identifiers) by by apply Forall2_length in HF.
    rewrite Hlen in Hsz. clear HF Hlen. induction identifiers as [|i l IH]; [constructor |].
    assert (Hle : ∀ k : list Identifier, size (list_to_set k : gset Identifier) ≤ length k).
    { induction k as [|j k IHk]; [done |]. cbn [list_to_set length].
      pose proof (size_union_alt {[j]} (list_to_set k : gset Identifier)) as E.
      assert (size (list_to_set k ∖ {[j]} : gset Identifier)
        ≤ size (list_to_set k : gset Identifier)) by (apply subseteq_size; set_solver).
      rewrite size_singleton in E. lia. }
    cbn [list_to_set length] in Hsz. specialize (Hle l).
    destruct (decide (i ∈ l)) as [Hin | Hni].
    - replace ({[i]} ∪ list_to_set l : gset Identifier) with (list_to_set l : gset Identifier)
        in Hsz by set_solver. lia.
    - rewrite size_union in Hsz by set_solver. rewrite size_singleton in Hsz.
      constructor; [done |]. apply IH. lia. }
  clear Hsz. induction HF as [|v i ids identifiers Hv HF IH]; [constructor |].
  apply list.NoDup_cons in Hnd as [Hi Hnd]. constructor; [| by apply IH]. intros Hin.
  apply Hi. apply list_elem_of_lookup in Hin as [k Hk].
  destruct (Forall2_lookup_l _ _ _ _ _ HF Hk) as (j & Hj & Hj'). rewrite Hv in Hj'.
  injection Hj' as <-. by apply list_elem_of_lookup_2 in Hj.
Qed.

Lemma check_successors_Ok canonical successors actual :
  check_successors canonical successors = Ok actual ↔
  Forall (λ s, s.1 = canonical) successors
  ∧ ∃ participants, Forall2 (λ s participant, frost_verify_share s.2 canonical = Ok participant)
      successors participants ∧ actual = list_to_set participants.
Proof.
  revert actual. induction successors as [|[public share] successors IH]; intros actual; simpl.
  { split; [intros [= <-]; split; [constructor |]; by exists [] |].
    intros (_ & ps & ->%Forall2_nil_inv_l & ->). done. }
  rewrite guard_Ok, neb_false, bind_Ok. split.
  - intros (-> & p & Hp & H). apply bind_Ok in H as (actual' & (HF & ps & H2 & ->)%IH & [= <-]).
    split; [by constructor |]. exists (p :: ps). split; [by constructor | done].
  - intros ([Hpub HF]%Forall_cons_1 & ps & H2 & ->).
    apply Forall2_cons_inv_l in H2 as (p & ps' & Hp & H2 & ->). split; [done |].
    exists p. split; [done |]. apply bind_Ok. exists (list_to_set ps'). split; [| done].
    apply IH. split; [done |]. by exists ps'.
Qed.

(** (safety): an accepted rotation result commits to one public package, the
    canonical encoding that every successor sent; its verifying key is the old
    one, so the key shared is the old key; it names exactly the expected
    participants, who are distinct and in range; and the shares, each valid
    under it, are theirs, one share for each. *)
Theorem dpss_result_sound old_public packages shares participants hash :
  verify_dpss_result old_public packages shares participants = Ok hash →
  ∃ canonical old public,
    hash = sha256 canonical ∧ (∀ package, package ∈ packages → package = canonical)
    ∧ decode_public old_public = Ok old ∧ decode_public canonical = Ok public
    ∧ pkp_verifying_key public = pkp_verifying_key old
    ∧ NoDup participants
    ∧ (∀ v, v ∈ participants → ∃ i, identifier v = Ok i ∧ i ∈ dom (pkp_verifying_shares public))
    ∧ ∃ order, order ≡ₚ participants
        ∧ Forall2 (λ share v, frost_verify_share share canonical = Ok v) shares order.
Proof.
  unfold verify_dpss_result. rewrite guard_Ok, !orb_false_iff, !neb_false.
  rewrite bool_decide_eq_false.
  intros [[[Hlp Hls] Hne] (ids & Hids & H)%bind_Ok].
  apply guard_Ok in H as [Hsz H]. rewrite neb_false in Hsz.
  apply bind_Ok in H as (old & Hold & H). apply bind_Ok in H as (public & Hpub & H).
  apply guard_Ok in H as [[Hkey Hdom]%orb_false_iff H]. rewrite neb_false in Hkey; rewrite neb_false in Hdom.
  apply bind_Ok in H as (canonical & Henc & H). apply bind_Ok in H as (actual & Hact & H).
  apply guard_Ok in H as [Hset H]. rewrite neb_false in Hset. injection H as <-.
  apply check_successors_Ok in Hact as (Hall & order & HF & ->).
  pose proof (collect_identifier_NoDup _ _ Hids Hsz) as Hnd.
  assert (Hpk : ∀ package, package ∈ packages → package = canonical).
  { intros package [i Hi]%list_elem_of_lookup.
    destruct (lookup_lt_is_Some_2 shares i) as [share Hs];
      [apply lookup_lt_Some in Hi; lia |].
    pose proof (proj1 (list.Forall_forall _ _) Hall (package, share)) as Hc. apply Hc.
    apply (list_elem_of_lookup_2 _ i). apply lookup_zip_with_Some. by exists package, share. }
  exists canonical, old, public. split_and!; [done | done | done | | done | done | |].
  - destruct packages as [|package packages]; [destruct participants; done |].
    rewrite <- (Hpk package) by by left. done.
  - intros v [k Hk]%list_elem_of_lookup. apply collect_Ok in Hids.
    destruct (Forall2_lookup_l _ _ _ _ _ Hids Hk) as (i & Hi & Hv). exists i.
    split; [done |]. rewrite Hdom. apply elem_of_list_to_set. by apply list_elem_of_lookup_2 in Hi.
  - exists order.
    assert (Hlo : length order = length participants).
    { apply Forall2_length in HF. rewrite <- HF, length_zip_with_l_eq; lia. }
    split.
    + symmetry. apply submseteq_length_Permutation; [| lia]. apply NoDup_submseteq; [done |].
      intros v Hv. apply (elem_of_list_to_set (C := gset u16)). rewrite Hset.
      by apply elem_of_list_to_set.
    + apply Forall2_same_length_lookup_2.
      * rewrite Hls. lia.
      * intros i share v Hs Hv. destruct (lookup_lt_is_Some_2 packages i) as [package Hp];
          [apply lookup_lt_Some in Hs; lia |].
        apply (Forall2_lookup_lr _ _ _ i (package, share) v HF); [| done].
        apply lookup_zip_with_Some. by exists package, share.
Qed.

Lemma recover_packages_Ok threshold seen key shares packages :
  recover_packages threshold seen key shares = Ok packages ↔
  Forall2 (λ encoded package, decode_share encoded = Ok package
    ∧ kp_min_signers package = threshold) shares packages
  ∧ NoDup ((λ p, Identifier_serialize (kp_identifier p)) <$> packages)
  ∧ (∀ p, p ∈ packages → Identifier_serialize (kp_identifier p) ∉ seen)
  ∧ (∀ p k, p ∈ packages → key = Some k → kp_verifying_key p = k)
  ∧ (∀ p q, p ∈ packages → q ∈ packages → kp_verifying_key p = kp_verifying_key q).
Proof.
  revert seen key packages. induction shares as [|encoded shares IH];
    intros seen key packages; simpl.
  { split.
    - intros [= <-]. split_and!; [constructor | constructor |..]; intros ? ?%elem_of_nil || idtac;
        try done; by intros ?? ?%elem_of_nil.
    - by intros (->%Forall2_nil_inv_l & _). }
  rewrite bind_Ok. split.
  - intros (p & Hd & H). apply guard_Ok in H as [[[Hm Hs]%orb_false_iff Hk]%orb_false_iff H].
    apply bind_Ok in H as (ps & (HF & Hnd & Hseen & Hkey & Hsame)%IH & [= <-]).
    rewrite neb_false in Hm. apply bool_decide_eq_false in Hs.
    assert (Hp : ∀ q, q ∈ ps → kp_verifying_key q = kp_verifying_key p).
    { intros q Hq. by apply (Hkey q _ Hq). }
    split_and!.
    + by constructor.
    + rewrite fmap_cons. constructor; [| done].
      intros (q & Hq & Hin)%list_elem_of_fmap. apply (Hseen q Hin). rewrite <- Hq. set_solver.
    + intros q [-> | Hq]%elem_of_cons; [done |]. specialize (Hseen q Hq). set_solver.
    + intros q k [-> | Hq]%elem_of_cons ->; rewrite neb_false in Hk; [done |]. by rewrite Hp.
    + assert (Hp' : ∀ q, q ∈ p :: ps → kp_verifying_key q = kp_verifying_key p)
        by by intros q [-> | Hq]%elem_of_cons; [| apply Hp].
      intros q q' Hq Hq'. by rewrite (Hp' q), (Hp' q').
  - intros (HF & Hnd & Hseen & Hkey & Hsame).
    apply Forall2_cons_inv_l in HF as (p & ps & (Hd & Hm) & HF & ->).
    rewrite fmap_cons in Hnd. apply list.NoDup_cons in Hnd as [Hx Hnd].
    exists p. split; [done |]. apply guard_Ok. split.
    + rewrite !orb_false_iff. split; [split; [by apply neb_false |] |].
      * apply bool_decide_eq_false. apply Hseen. by left.
      * destruct key as [k |]; [| done]. apply neb_false. symmetry. apply Hkey; [by left | done].
    + apply bind_Ok. exists ps. split; [| done]. apply IH. split_and!; [done | done | | |].
      * intros q Hq. specialize (Hseen q ltac:(by right)).
        intros [Heq%elem_of_singleton | ?]%elem_of_union; [| done].
        apply Hx. rewrite <- Heq.
        apply (list_elem_of_fmap_2 (λ p, Identifier_serialize (kp_identifier p)) _ _ Hq).
      * intros q k Hq [= <-]. apply Hsame; [by right | by left].
      * intros q q' Hq Hq'. apply Hsame; by right.
Qed.

(** (functional): a key is recovered for an epoch exactly if every share is
    labelled with that epoch, there are at least [threshold >= 2] of them, and
    they decode to shares of distinct participants with that threshold and a
    common verifying key, which the library joins to a 32-byte key. *)
Theorem frost_recovery_iff shares expected threshold dek :
  frost_recover_dek_for_epoch shares expected threshold = Ok dek ↔
  (∀ share, share ∈ shares → efs_config_ref share = expected)
  ∧ (2 <= threshold <= len shares)%N
  ∧ ∃ packages, Forall2 (λ share package, decode_share (efs_encoded_share share) = Ok package
        ∧ kp_min_signers package = threshold) shares packages
    ∧ NoDup ((λ p, Identifier_serialize (kp_identifier p)) <$> packages)
    ∧ (∀ p q, p ∈ packages → q ∈ packages → kp_verifying_key p = kp_verifying_key q)
    ∧ reconstruct packages = Some dek ∧ length dek = 32.
Proof.
  unfold frost_recover_dek_for_epoch, frost_recover_dek.
  rewrite !guard_Ok, existsb_false, orb_false_iff, !N.ltb_ge, bind_Ok.
  assert (Hlen : len (efs_encoded_share <$> shares) = len shares)
    by by unfold len; rewrite length_fmap.
  rewrite Hlen. split.
  - intros (Hl & [Ht Hn] & ps & (HF & Hnd & _ & _ & Hk)%recover_packages_Ok & H).
    apply bind_Ok in H as (out & Hr%ok_or_Ok & H).
    apply guard_Ok in H as [Ho H]. injection H as <-. rewrite neb_false in Ho.
    change FROST_SCALAR_LEN with 32%N in Ho. unfold len in Ho.
    split_and!; [| done | done |].
    + intros share Hs. by apply neb_false, Hl.
    + exists ps. rewrite Forall2_fmap_l in HF. split_and!; [done.. | lia].
  - intros (Hl & [Ht Hn] & ps & HF & Hnd & Hk & Hr & Ho).
    split; [intros share Hs; apply neb_false; by apply Hl |]. split; [done |]. exists ps. split.
    + apply recover_packages_Ok. rewrite Forall2_fmap_l.
      split_and!; [done | done | set_solver | done | done].
    + apply bind_Ok. exists dek. rewrite Hr. split; [done |]. apply guard_Ok.
      split; [apply neb_false; unfold len; by rewrite Ho | done].
Qed.

End shares.

(** ** Witnesses *)

Import Scenario.

(** A toy instance: an identifier is its number, shares and keys are bytes, a
    key package is six bytes and a public package its key, its threshold and a
    pair for each participant. *)
Fixpoint byte_pairs (l : list byte) : option (gmap u16 byte) :=
  match l with
  | [] => Some ∅
  | i :: share :: l => m ← byte_pairs l; Some (<[U16 (Byte.to_N i) := share]> m)
  | [_] => None
  end.

Definition toy_public : Set := gmap u16 byte * byte * option u16.

Definition toy_public_bytes (p : toy_public) : list byte :=
  p.1.2 :: byte_of_N (match p.2 with Some t => uval t | None => 0 end)
    :: concat ((λ e, [byte_of_N (uval e.1); e.2]) <$> map_to_list p.1.1).

Definition toy_dealt (total threshold : u16) : list (u16 * byte * byte * u16) :=
  (λ i, (U16 (N.of_nat i), byte_of_N (N.of_nat (16 + i)), x07, threshold))
    <$> seq 1 (N.to_nat total).

#[local] Instance toy_frost : FrostPrimitives := {|
  Identifier := u16;
  Identifier_try_from := λ v, if (uval v =? 0)%N then None else Some v;
  Identifier_serialize := be;
  FrostVerifyingKey := byte;
  VerifyingShare := byte;
  SigningShare := byte;
  VerifyingShare_from := λ s, s;
  KeyPackage := u16 * byte * byte * u16;
  KeyPackage_deserialize := λ l,
    match l with
    | [a; b; share; key; c; d] =>
        Some (U16 (be_value [a; b]), share, key, U16 (be_value [c; d]))
    | _ => None
    end;
  KeyPackage_serialize := λ p, Some (be p.1.1.1 ++ [p.1.1.2; p.1.2] ++ be p.2);
  kp_identifier := λ p, p.1.1.1;
  kp_signing_share := λ p, p.1.1.2;
  kp_verifying_share := λ p, p.1.1.2;
  kp_verifying_key := λ p, p.1.2;
  kp_min_signers := λ p, p.2;
  PublicKeyPackage := toy_public;
  PublicKeyPackage_new := λ shares key t, (shares, key, t);
  PublicKeyPackage_deserialize := λ l,
    match l with
    | key :: t :: l => shares ← byte_pairs l; Some (shares, key, Some (U16 (Byte.to_N t)))
    | _ => None
    end;
  PublicKeyPackage_serialize := λ p, Some (toy_public_bytes p);
  pkp_verifying_shares := λ p, p.1.1;
  pkp_verifying_key := λ p, p.1.2;
  pkp_min_signers := λ p, p.2;
  SecretShare := u16 * byte * byte * u16;
  generate_with_dealer := λ total threshold _,
    Some (toy_dealt total threshold,
      (list_to_map ((λ s, s.1.1) <$> toy_dealt total threshold), x07, Some threshold));
  KeyPackage_try_from := Some;
  reconstruct := λ packages, p ← head packages; Some (replicate 32 p.1.2);
  Delta := list byte;
  Delta_serialize := λ d, d;
  Delta_deserialize := Some;
  Sigma := list byte;
  Sigma_serialize := λ s, s;
  Sigma_deserialize := Some;
  repair_share_part1 := λ ids _ _ _, Some (list_to_map ((λ i, (i, [x01])) <$> ids));
  repair_share_part2 := λ deltas, concat deltas;
  repair_share_part3 := λ _ i p, Some (i, x23, p.1.2, default (U16 2) p.2);
  Round1Secret := u16;
  Round1Secret_serialize := λ s, Some (be s);
  Round1Secret_deserialize := λ l, Some (U16 (be_value l));
  r1s_identifier := λ s, s;
  Round1Package := list byte;
  Round1Package_serialize := Some;
  Round1Package_deserialize := Some;
  refresh_dkg_part1 := λ i _ _ _, Some (i, [x05]);
  Round2Secret := u16;
  Round2Secret_serialize := λ s, Some (be s);
  Round2Secret_deserialize := λ l, Some (U16 (be_value l));
  r2s_identifier := λ s, s;
  Round2Package := list byte;
  Round2Package_serialize := Some;
  Round2Package_deserialize := Some;
  refresh_dkg_part2 := λ s messages, Some (s, (λ i, (i, [x06])) <$> elements (dom messages));
  refresh_dkg_shares := λ _ _ _ public share, Some (share, public)
|}.

#[local] Instance toy_identifiers : IdentifierLaws.
Proof.
  split; simpl.
  - intros v Hv. destruct (N.eqb_spec v 0); [lia | by eexists].
  - intros v w i. destruct (uval v =? 0)%N, (uval w =? 0)%N; congruence.
Qed.

Lemma numeric_identifier_inverse_witness :
  @numeric_identifier toy_frost (U16 17) = Ok (U16 17).
Proof.
  apply (@numeric_identifier_inverse toy_frost toy_identifiers (U16 17) (U16 17)). by vm_compute.
Defined.

(** Two participants of a key [x07]: the old public package and the new one. *)
Definition ex_old : list byte := [x07; x02; x01; x11; x02; x12].
Definition ex_new : list byte := Eval vm_compute in
  toy_public_bytes (<[U16 2 := x22]> {[U16 3 := x23]}, x07, Some (U16 2)).
Definition ex_share (i : N) (share : byte) : list byte := be (U16 i) ++ [share; x07] ++ be (U16 2).

Lemma dpss_result_sound_witness :
  ∃ order, order ≡ₚ [U16 3; U16 2]
    ∧ Forall2 (λ share v, frost_verify_share share ex_new = Ok v)
        [ex_share 2 x22; ex_share 3 x23] order.
Proof.
  assert (E : verify_dpss_result ex_old [ex_new; ex_new] [ex_share 2 x22; ex_share 3 x23]
    [U16 3; U16 2] = Ok (digest ex_new)) by by vm_compute.
  destruct (dpss_result_sound _ _ _ _ _ E) as (c & o & p & _ & Hc & _ & _ & _ & _ & _ & order & Ho & HF).
  exists order. split; [exact Ho |]. rewrite (Hc ex_new ltac:(by left)). exact HF.
Defined.
