(* ===== verification/FrostBounds.v ===== *)
(** Sizes and numbers in what crates/gp-crypto/src/rotation.rs gives out. *)

From S2P Require Export FrostProps.

Definition fits (maximum : N) (value : list byte) : Prop :=
  (1 <= len value <= maximum)%N.
Definition participant_number (v : u16) : Prop := (1 <= uval v <= 32)%N.

Section bounds.
Context `{Prims : Primitives} `{Frost : FrostPrimitives}.

(** A message of a round: for a participant, and of bounded size. *)
Definition sendable (m : u16 * list byte) : Prop :=
  participant_number m.1 ∧ fits 4096 m.2.

Lemma encode_share_fits value encoded : encode_share value = Ok encoded → fits 512 encoded.
Proof.
  intros (e & _ & H)%bind_Ok. by apply bind_Ok in H as (u & H%bounded_Ok & [= <-]).
Qed.

Lemma encode_public_fits value encoded : encode_public value = Ok encoded → fits 4096 encoded.
Proof.
  intros (e & _ & H)%bind_Ok. by apply bind_Ok in H as (u & H%bounded_Ok & [= <-]).
Qed.

Lemma identifier_participant v i : identifier v = Ok i → participant_number v.
Proof. by intros [? _]%identifier_Ok. Qed.

Lemma validate_threshold_Ok threshold total u :
  validate_threshold threshold total = Ok u →
  (2 <= uval threshold <= uval total)%N ∧ (uval total <= 32)%N.
Proof.
  unfold validate_threshold. rewrite fail_if_Ok. change (uval FROST_MAX_PARTICIPANTS) with 32%N.
  rewrite !orb_false_iff, negb_false_iff, andb_true_iff, !N.ltb_ge, !N.leb_le. lia.
Qed.

Lemma dealer_shares_fit threshold reconstruction secrets shares packages :
  dealer_shares threshold reconstruction secrets = Ok (shares, packages) →
  Forall (fits 512) shares ∧ length shares = length secrets.
Proof.
  revert reconstruction shares. induction secrets as [| secret secrets IH];
    intros reconstruction shares; cbn [dealer_shares].
  - by intros [= <- <-].
  - intros (kp & _ & H)%bind_Ok. apply bind_Ok in H as (e & He%encode_share_fits & H).
    apply bind_Ok in H as ([shares' r] & H & [= <- <-]). apply IH in H as [HF Hl].
    split; [by constructor | by cbn; rewrite Hl].
Qed.

Lemma dealer_bounds threshold total seed out :
  frost_dealer_split threshold total seed = Ok out →
  (2 <= uval threshold <= uval total)%N ∧ (uval total <= 32)%N
  ∧ len (fdo_dek out) = 32%N ∧ len (fdo_shares out) = uval total
  ∧ Forall (fits 512) (fdo_shares out) ∧ fits 4096 (fdo_public_package out).
Proof.
  unfold frost_dealer_split. intros (u & Ht%validate_threshold_Ok & H)%bind_Ok.
  apply bind_Ok in H as ([secrets public] & _ & H).
  apply guard_Ok in H as [Hn H]. rewrite neb_false in Hn.
  apply bind_Ok in H as ([shares packages] & [HF Hl]%dealer_shares_fit & H).
  apply bind_Ok in H as (dek & _ & H). apply guard_Ok in H as [Hd H]. rewrite neb_false in Hd.
  apply bind_Ok in H as (p & Hp%encode_public_fits & [= <-]).
  split_and!; try lia; try done. cbn. unfold len in *. congruence.
Qed.

Lemma part1_bounds share helpers replacement seed out :
  begin_old_share share helpers replacement seed = Ok out →
  Forall sendable out ∧ NoDup out.*1 ∧ participant_number replacement.
Proof.
  unfold begin_old_share, frost_repair_part1. intros (helper & _ & H)%bind_Ok.
  apply bind_Ok in H as (ids & Hids & H). apply guard_Ok in H as [Hg H].
  rewrite !orb_false_iff, !neb_false in Hg. destruct Hg as [[Hsz _] _].
  apply bind_Ok in H as (i & Hr%identifier_participant & H).
  apply bind_Ok in H as (values & _ & H). apply collect_Ok in H.
  pose proof Hids as HF. apply collect_Ok in HF.
  assert (Hfst : out.*1 = helpers).
  { assert (Hl : length helpers = length ids) by by eapply Forall2_length.
    transitivity (zip helpers ids).*1; [| apply fst_zip; lia]. clear -H.
    induction H as [| [n j] [m e] zs os Hz _ IH]; [done |]. cbn. f_equal; [| done].
    apply bind_Ok in Hz as (v & _ & Hz). by apply bind_Ok in Hz as (u & _ & [= -> _]). }
  split_and!; [| | done].
  - apply list.Forall_forall. intros m Hm. apply list_elem_of_lookup in Hm as [k Hk].
    split.
    + assert (Hh : helpers !! k = Some m.1) by by rewrite <- Hfst, list_lookup_fmap, Hk.
      destruct (Forall2_lookup_l _ _ _ _ _ HF Hh) as (j & _ & Hj). by eapply identifier_participant.
    + destruct (Forall2_lookup_r _ _ _ _ _ H Hk) as ([n j] & _ & Hz).
      apply bind_Ok in Hz as (v & _ & Hz).
      by apply bind_Ok in Hz as (u & Hb%bounded_Ok & [= <-]).
  - rewrite Hfst. apply (collect_identifier_NoDup _ ids Hids). rewrite Hsz.
    symmetry. by eapply Forall2_length.
Qed.

Lemma part3_bounds sigmas replacement public share :
  finalize_new_share sigmas replacement public = Ok share → fits 512 share.
Proof.
  unfold finalize_new_share, frost_repair_part3. intros (p & _ & H)%bind_Ok.
  apply bind_Ok in H as (t & _ & H). apply guard_Ok in H as [_ H].
  apply bind_Ok in H as (decoded & _ & H). apply bind_Ok in H as (r & _ & H).
  apply bind_Ok in H as (s & _ & H). by eapply encode_share_fits.
Qed.

Lemma add_repaired_bounds public share expanded :
  frost_public_add_repaired_share public share = Ok expanded → fits 4096 expanded.
Proof.
  unfold frost_public_add_repaired_share. intros (p & _ & H)%bind_Ok.
  apply bind_Ok in H as (s & _ & H). apply guard_Ok in H as [_ H].
  apply guard_Ok in H as [_ H]. by eapply encode_public_fits.
Qed.

Lemma refresh1_bounds participant threshold total seed out :
  frost_refresh_part1 participant threshold total seed = Ok out →
  participant_number participant ∧ fits 4096 (frr1_secret_state out)
  ∧ fits 4096 (frr1_broadcast out).
Proof.
  unfold frost_refresh_part1. intros (u & _ & H)%bind_Ok.
  apply bind_Ok in H as (i & Hi%identifier_participant & H).
  apply bind_Ok in H as ([s p] & _ & H). apply bind_Ok in H as (state & _ & H).
  apply bind_Ok in H as (message & _ & H). apply bind_Ok in H as (u1 & H1%bounded_Ok & H).
  by apply bind_Ok in H as (u2 & H2%bounded_Ok & [= <-]).
Qed.

Lemma refresh2_bounds secret messages out :
  frost_refresh_part2 secret messages = Ok out → Forall sendable (frr2_direct_messages out).
Proof.
  unfold frost_refresh_part2. intros (u & _ & H)%bind_Ok.
  apply bind_Ok in H as (s & _ & H). apply bind_Ok in H as (ms & _ & H).
  apply bind_Ok in H as ([next outgoing] & _ & H). apply bind_Ok in H as (state & _ & H).
  apply bind_Ok in H as (direct & Hd%collect_Ok & [= <-]). cbn.
  induction Hd as [| [i p] m outgoing direct Hm _ IH]; constructor; [| done].
  apply bind_Ok in Hm as (v & Hv%numeric_from_Ok%identifier_participant & Hm).
  apply bind_Ok in Hm as (e & _ & Hm).
  by apply bind_Ok in Hm as (u2 & He%bounded_Ok & [= <-]).
Qed.

Lemma refresh3_bounds secret round1 round2 public share out :
  frost_refresh_part3 secret round1 round2 public share = Ok out →
  fits 512 (fro_share out) ∧ fits 4096 (fro_public_package out).
Proof.
  unfold frost_refresh_part3. intros (u & _ & H)%bind_Ok.
  apply bind_Ok in H as (s & _ & H). apply bind_Ok in H as (m1 & _ & H).
  apply bind_Ok in H as (m2 & _ & H). apply guard_Ok in H as [_ H].
  apply bind_Ok in H as (p & _ & H). apply bind_Ok in H as (k & _ & H).
  apply guard_Ok in H as [_ H]. apply bind_Ok in H as ([k' p'] & _ & H).
  apply bind_Ok in H as (e1 & H1%encode_share_fits & H).
  by apply bind_Ok in H as (e2 & H2%encode_public_fits & [= <-]).
Qed.

Lemma collect_bounded {A} (f : list byte → option A) values decoded :
  collect (λ value, _ ← bounded value FROST_ROUND_PACKAGE_MAX_LEN;
    ok_or (f value) CrInvalidFrost) values = Ok decoded →
  Forall (fits 4096) values.
Proof.
  intros H%collect_Ok. induction H as [| v d values decoded Hv _ IH]; constructor; [| done].
  by apply bind_Ok in Hv as (u & Hb%bounded_Ok & _).
Qed.

(** What the two outputs that are not measured meet where they come back. *)
Lemma part2_taken deltas sigma : frost_repair_part2 deltas = Ok sigma → Forall (fits 4096) deltas.
Proof.
  unfold frost_repair_part2. intros [_ H]%guard_Ok. apply bind_Ok in H as (d & Hd & _).
  by eapply collect_bounded.
Qed.
Lemma sigmas_taken sigmas replacement public share :
  finalize_new_share sigmas replacement public = Ok share → Forall (fits 4096) sigmas.
Proof.
  unfold finalize_new_share, frost_repair_part3. intros (p & _ & H)%bind_Ok.
  apply bind_Ok in H as (t & _ & H). apply guard_Ok in H as [_ H].
  apply bind_Ok in H as (decoded & Hd & _). by eapply collect_bounded.
Qed.
Lemma state_taken secret round1 round2 public share out :
  frost_refresh_part3 secret round1 round2 public share = Ok out → fits 4096 secret.
Proof. unfold frost_refresh_part3. by intros (u & Hb%bounded_Ok & _)%bind_Ok. Qed.

(** C40 (bounds): whatever the library answers, what these functions give out keeps
    to the limits of the wire, but for two outputs that are not measured: the
    sigma of the second step of a repair, and the secret state that a
    participant keeps from the second step of a refresh.  Those are measured
    when they come back, by the third steps.  A dealt key has 32 bytes and one
    share for each of the participants, of which there are at most 32 and at
    least as many as the threshold; every share has at most 512 bytes, every
    public package, the secret state of the first step of a refresh, and every
    message of the first step of a repair and of the first two of a refresh at
    most 4096, and none is empty; the messages to one participant are for
    numbers from 1 to 32, those of a repair for different ones. *)
Theorem frost_outputs_bounded :
  (∀ threshold total seed out, frost_dealer_split threshold total seed = Ok out →
     (2 <= uval threshold <= uval total)%N ∧ (uval total <= 32)%N
     ∧ len (fdo_dek out) = 32%N ∧ len (fdo_shares out) = uval total
     ∧ Forall (fits 512) (fdo_shares out) ∧ fits 4096 (fdo_public_package out))
  ∧ (∀ share helpers replacement seed out,
     begin_old_share share helpers replacement seed = Ok out →
     Forall sendable out ∧ NoDup out.*1 ∧ participant_number replacement)
  ∧ (∀ deltas sigma, frost_repair_part2 deltas = Ok sigma → Forall (fits 4096) deltas)
  ∧ (∀ sigmas replacement public share,
     finalize_new_share sigmas replacement public = Ok share →
     fits 512 share ∧ Forall (fits 4096) sigmas)
  ∧ (∀ public share expanded,
     frost_public_add_repaired_share public share = Ok expanded → fits 4096 expanded)
  ∧ (∀ participant threshold total seed out,
     frost_refresh_part1 participant threshold total seed = Ok out →
     participant_number participant ∧ fits 4096 (frr1_secret_state out)
     ∧ fits 4096 (frr1_broadcast out))
  ∧ (∀ secret messages out, frost_refresh_part2 secret messages = Ok out →
     Forall sendable (frr2_direct_messages out))
  ∧ (∀ secret round1 round2 public share out,
     frost_refresh_part3 secret round1 round2 public share = Ok out →
     fits 4096 secret ∧ fits 512 (fro_share out) ∧ fits 4096 (fro_public_package out)).
Proof.
  repeat match goal with |- (∀ _, _) ∧ _ => split end; intros;
    [ by eapply dealer_bounds | by eapply part1_bounds | by eapply part2_taken
    | split; [by eapply part3_bounds | by eapply sigmas_taken]
    | by eapply add_repaired_bounds | by eapply refresh1_bounds | by eapply refresh2_bounds
    | split; [by eapply state_taken | by eapply refresh3_bounds] ].
Qed.

End bounds.

(** ** Witness *)

(** A key dealt to three participants; participant 3 repaired by 1 and 2 and added
    to their public package; a refresh of participant 1 with 2. *)
Lemma frost_outputs_bounded_witness :
  ∃ dealt deltas sigma share expanded r1 r2 r3,
    (@frost_dealer_split toy_frost (U16 2) (U16 3) (brep 32 x01) = Ok dealt
     ∧ len (fdo_shares dealt) = 3%N ∧ Forall (fits 512) (fdo_shares dealt))
  ∧ (@begin_old_share toy_frost (ex_share 1 x11) [U16 1; U16 2] (U16 3) (brep 32 x01) = Ok deltas
     ∧ length deltas = 2 ∧ Forall sendable deltas)
  ∧ (@frost_repair_part2 toy_frost [[x01]; [x02]] = Ok sigma
     ∧ Forall (fits 4096) [[x01]; [x02]])
  ∧ (@finalize_new_share toy_frost [sigma; sigma] (U16 3) ex_old = Ok share ∧ fits 512 share)
  ∧ (@frost_public_add_repaired_share toy_frost ex_old share = Ok expanded
     ∧ fits 4096 expanded)
  ∧ (@frost_refresh_part1 toy_frost (U16 1) (U16 2) (U16 2) (brep 32 x01) = Ok r1
     ∧ fits 4096 (frr1_broadcast r1))
  ∧ (@frost_refresh_part2 toy_frost (frr1_secret_state r1) [(U16 2, [x05])] = Ok r2
     ∧ length (frr2_direct_messages r2) = 1 ∧ Forall sendable (frr2_direct_messages r2))
  ∧ (@frost_refresh_part3 toy_frost (frr2_secret_state r2) [(U16 2, [x05])] [(U16 2, [x06])]
       ex_old (ex_share 1 x11) = Ok r3 ∧ fits 512 (fro_share r3)).
Proof.
  do 8 eexists.
  destruct (frost_outputs_bounded (Frost := toy_frost)) as (H1 & H2 & H3 & H4 & H5 & H6 & H7 & H8).
  split; [split; [vm_compute; reflexivity | split; [reflexivity |]] |].
  { eapply (H1 (U16 2) (U16 3) (brep 32 x01)). vm_compute. reflexivity. }
  split; [split; [vm_compute; reflexivity | split; [reflexivity |]] |].
  { eapply (H2 (ex_share 1 x11) [U16 1; U16 2] (U16 3) (brep 32 x01)). vm_compute. reflexivity. }
  split; [split; [vm_compute; reflexivity |] |].
  { eapply H3. vm_compute. reflexivity. }
  split; [split; [vm_compute; reflexivity |] |].
  { eapply (H4 [[x01; x02]; [x01; x02]] (U16 3) ex_old). vm_compute. reflexivity. }
  split; [split; [vm_compute; reflexivity |] |].
  { eapply (H5 ex_old (ex_share 3 x23)). vm_compute. reflexivity. }
  split; [split; [vm_compute; reflexivity |] |].
  { eapply (H6 (U16 1) (U16 2) (U16 2) (brep 32 x01)). vm_compute. reflexivity. }
  split; [split; [vm_compute; reflexivity | split; [reflexivity |]] |].
  { eapply (H7 (be (U16 1)) [(U16 2, [x05])]). vm_compute. reflexivity. }
  split; [vm_compute; reflexivity |].
  eapply (H8 (be (U16 1)) [(U16 2, [x05])] [(U16 2, [x06])] ex_old (ex_share 1 x11)).
  vm_compute. reflexivity.
Defined.
