(* ===== verification/DealerProps.v ===== *)
(** The dealer of FROST shares: what [frost_dealer_split] deals verifies, and
    any threshold of it gives the key back. *)

From S2P Require Export FrostProps.

Section dealer.
Context `{Prims : Primitives} `{Frost : FrostPrimitives}.

Lemma encode_share_Ok p encoded :
  encode_share p = Ok encoded →
  KeyPackage_serialize p = Some encoded ∧ bounded encoded FROST_SHARE_MAX_LEN = Ok ().
Proof.
  intros (e & He%ok_or_Ok & ([] & Hb & [= <-])%bind_Ok)%bind_Ok. done.
Qed.

Lemma encode_public_Ok p encoded :
  encode_public p = Ok encoded →
  PublicKeyPackage_serialize p = Some encoded
  ∧ bounded encoded FROST_PUBLIC_PACKAGE_MAX_LEN = Ok ().
Proof.
  intros (e & He%ok_or_Ok & ([] & Hb & [= <-])%bind_Ok)%bind_Ok. done.
Qed.

Lemma dealer_shares_Ok threshold acc secret_shares encoded packages :
  dealer_shares threshold acc secret_shares = Ok (encoded, packages) →
  ∃ dealt, Forall2 (λ share p, KeyPackage_try_from share = Some p) secret_shares dealt
    ∧ Forall2 (λ p e, encode_share p = Ok e) dealt encoded
    ∧ packages = acc ++ take (N.to_nat threshold - length acc) dealt.
Proof.
  revert acc encoded packages. induction secret_shares as [|s ss IH]; intros acc encoded packages;
    cbn [dealer_shares].
  - intros [= <- <-]. exists []. split_and!; [constructor | constructor |].
    by rewrite take_nil, app_nil_r.
  - intros (p & Hp%ok_or_Ok & (e & He & ([es ps] & H & [= <- <-])%bind_Ok)%bind_Ok)%bind_Ok.
    apply IH in H as (dealt & HT & HE & ->). exists (p :: dealt).
    split_and!; [by constructor | by constructor |].
    destruct (N.ltb_spec (len acc) threshold) as [Hlt | Hge]; unfold len in *.
    + rewrite <- app_assoc, length_app. simpl. f_equal.
      replace (N.to_nat threshold - length acc)
        with (S (N.to_nat threshold - (length acc + 1))) by lia. done.
    + f_equal. by replace (N.to_nat threshold - length acc) with 0 by lia.
Qed.

(** What a successful split consists of: the packages behind the encoded
    shares, and the key they reconstruct. *)
Lemma dealer_split_Ok threshold total seed out :
  frost_dealer_split threshold total seed = Ok out →
  ∃ secret_shares public dealt,
    (2 <= threshold <= total)%N ∧ (total <= 32)%N
    ∧ generate_with_dealer total threshold seed = Some (secret_shares, public)
    ∧ length dealt = N.to_nat total
    ∧ Forall2 (λ share p, KeyPackage_try_from share = Some p) secret_shares dealt
    ∧ Forall2 (λ p e, encode_share p = Ok e) dealt (fdo_shares out)
    ∧ reconstruct (take (N.to_nat threshold) dealt) = Some (fdo_dek out)
    ∧ length (fdo_dek out) = 32
    ∧ encode_public public = Ok (fdo_public_package out).
Proof.
  unfold frost_dealer_split. intros ([] & Ht & H)%bind_Ok.
  apply fail_if_Ok in Ht. rewrite !orb_false_iff, negb_false_iff, andb_true_iff in Ht.
  destruct Ht as ((Ht2%N.ltb_ge & Htn%N.ltb_ge) & _ & Hn%N.leb_le).
  change (uval FROST_MAX_PARTICIPANTS) with 32%N in Hn.
  apply bind_Ok in H as ([ss public] & Hg%ok_or_Ok & H).
  apply guard_Ok in H as [Hl H]. rewrite neb_false in Hl. unfold len in Hl.
  apply bind_Ok in H as ([shares packages] & Hd & H).
  apply bind_Ok in H as (dek & Hr%ok_or_Ok & H). apply guard_Ok in H as [Hk H].
  rewrite neb_false in Hk. change FROST_SCALAR_LEN with 32%N in Hk. unfold len in Hk.
  apply bind_Ok in H as (p & Hp & [= <-]).
  apply dealer_shares_Ok in Hd as (dealt & HT & HE & ->). cbn [app length] in Hr.
  rewrite Nat.sub_0_r in Hr. exists ss, public, dealt. cbn [fdo_shares fdo_dek fdo_public_package].
  pose proof (Forall2_length HT). split_and!; done || lia.
Qed.

Context `{DL : !DealerLaws} `{IL : !IdentifierLaws}.

Lemma encoded_share_decodes total threshold seed secret_shares public i share package encoded :
  generate_with_dealer total threshold seed = Some (secret_shares, public) →
  secret_shares !! i = Some share → KeyPackage_try_from share = Some package →
  encode_share package = Ok encoded → decode_share encoded = Ok package.
Proof.
  intros Hg Hi Hp [Hs Hb]%encode_share_Ok. unfold decode_share. rewrite Hb. cbn [mbind Result_bind].
  rewrite (key_package_decodes _ _ Hs). cbn [ok_or mbind Result_bind].
  destruct (dealer_package _ _ _ _ _ _ _ _ Hg Hi Hp) as (_ & _ & _ & Hv & _).
  by rewrite (proj2 (neb_false _ _) Hv).
Qed.

Lemma number_below i : i < 32 → uval (U16 (N.of_nat i + 1)) = (N.of_nat i + 1)%N.
Proof. intros H. apply uval_to_uint. change (2 ^ 16)%N with 65536%N. lia. Qed.

(** The dealt shares verify as those of participants 1, 2, .. *)
Lemma dealt_share_verifies threshold total seed out i encoded :
  frost_dealer_split threshold total seed = Ok out → fdo_shares out !! i = Some encoded →
  frost_verify_share encoded (fdo_public_package out) = Ok (U16 (N.of_nat i + 1)).
Proof.
  intros (ss & public & dealt & _ & Hn & Hg & Hl & HT & HE & _ & _ & Hpub)%dealer_split_Ok Hi.
  destruct (Forall2_lookup_r _ _ _ _ _ HE Hi) as (p & Hdi & He).
  destruct (Forall2_lookup_r _ _ _ _ _ HT Hdi) as (share & Hsi & Hp).
  destruct (dealer_package _ _ _ _ _ _ _ _ Hg Hsi Hp) as (Hid & Hm & Hk & _ & Hv).
  unfold frost_verify_share. rewrite (encoded_share_decodes _ _ _ _ _ _ _ _ _ Hg Hsi Hp He).
  cbn [mbind Result_bind]. apply encode_public_Ok in Hpub as [Hs Hb].
  unfold decode_public. rewrite Hb. cbn [mbind Result_bind].
  rewrite (public_package_decodes _ _ Hs). cbn [ok_or mbind Result_bind].
  rewrite (proj2 (neb_false _ _) Hk), Hm, (dealer_min_signers _ _ _ _ _ Hg), Hv.
  rewrite !(proj2 (neb_false _ _)) by done. simpl.
  apply numeric_identifier_inverse, identifier_Ok. apply lookup_lt_Some in Hdi.
  rewrite number_below by lia. split; [lia | done].
Qed.

Lemma dealt_share_distinct threshold total seed out i j encoded :
  frost_dealer_split threshold total seed = Ok out → fdo_shares out !! i = Some encoded →
  fdo_shares out !! j = Some encoded → i = j.
Proof.
  intros H Hi Hj. pose proof (dealt_share_verifies _ _ _ _ _ _ H Hi) as Vi.
  rewrite (dealt_share_verifies _ _ _ _ _ _ H Hj) in Vi.
  assert (uval (U16 (N.of_nat j + 1)) = uval (U16 (N.of_nat i + 1))) as E by congruence.
  apply dealer_split_Ok in H as (? & ? & dealt & _ & Hn & _ & Hl & _ & HE & _).
  apply Forall2_length in HE. apply lookup_lt_Some in Hi, Hj. rewrite !number_below in E by lia.
  lia.
Qed.

(** Equal identifiers are the same position of a dealing. *)
Lemma dealt_identifiers total threshold seed secret_shares public dealt i j p q :
  generate_with_dealer total threshold seed = Some (secret_shares, public) →
  length dealt ≤ 32 →
  Forall2 (λ share p, KeyPackage_try_from share = Some p) secret_shares dealt →
  dealt !! i = Some p → dealt !! j = Some q → kp_identifier p = kp_identifier q → i = j.
Proof.
  intros Hg Hl HT Hi Hj E.
  destruct (Forall2_lookup_r _ _ _ _ _ HT Hi) as (s & Hsi & Hp).
  destruct (Forall2_lookup_r _ _ _ _ _ HT Hj) as (t & Htj & Hq).
  destruct (dealer_package _ _ _ _ _ _ _ _ Hg Hsi Hp) as (Hpi & _).
  destruct (dealer_package _ _ _ _ _ _ _ _ Hg Htj Hq) as (Hqi & _).
  rewrite <- E in Hqi. pose proof (identifier_injective _ _ _ Hpi Hqi) as Hu.
  apply (f_equal uval) in Hu. apply lookup_lt_Some in Hi, Hj.
  rewrite !number_below in Hu by lia. lia.
Qed.

Lemma forall2_subset {A B} (R : A → B → Prop) xs ys chosen :
  Forall2 R xs ys → chosen ⊆ ys →
  ∃ picked, Forall2 R picked chosen ∧ picked ⊆ xs.
Proof.
  intros HF. induction chosen as [|y chosen IH]; intros Hsub.
  - exists []. split; [constructor | by intros ? ?%elem_of_nil].
  - destruct IH as (picked & HP & Hin); [intros z Hz; apply Hsub; by right |].
    destruct (proj1 (list_elem_of_lookup _ _) (Hsub y ltac:(by left))) as [i Hi].
    destruct (Forall2_lookup_r _ _ _ _ _ HF Hi) as (x & Hx & HR).
    exists (x :: picked). split; [by constructor |].
    intros z [-> | Hz]%elem_of_cons; [by eapply list_elem_of_lookup_2 | by apply Hin].
Qed.

(** (roundtrip): any [threshold] or more distinct shares of a dealing recover
    its key; fewer are refused. *)
Theorem frost_split_recover threshold total seed out chosen :
  frost_dealer_split threshold total seed = Ok out → NoDup chosen → chosen ⊆ fdo_shares out →
  frost_recover_dek chosen threshold =
    if (len chosen <? threshold)%N then Err CrInsufficientShares else Ok (fdo_dek out).
Proof.
  intros (ss & public & dealt & Ht & Hn & Hg & Hl & HT & HE & Hr & Hk & _)%dealer_split_Ok Hnd Hsub.
  unfold frost_recover_dek. rewrite (proj2 (N.ltb_ge threshold 2)) by lia. simpl.
  destruct (N.ltb_spec (len chosen) threshold) as [| Hc]; [done |].
  destruct (forall2_subset _ _ _ _ HE Hsub) as (picked & HP & Hin).
  assert (Hpick : ∀ p, p ∈ picked → ∃ i share, ss !! i = Some share ∧ dealt !! i = Some p
    ∧ KeyPackage_try_from share = Some p).
  { intros p [i Hi]%Hin%list_elem_of_lookup.
    destruct (Forall2_lookup_r _ _ _ _ _ HT Hi) as (s & Hs & Hp). by exists i, s. }
  assert (Hndp : NoDup ((λ p, Identifier_serialize (kp_identifier p)) <$> picked)).
  { apply NoDup_alt. intros i j e (p & -> & Hi)%list_lookup_fmap_Some
      (q & Hq & Hj)%list_lookup_fmap_Some.
    apply identifier_encoding in Hq.
    destruct (Hpick p) as (i' & _ & _ & Hi' & _); [by eapply list_elem_of_lookup_2 |].
    destruct (Hpick q) as (j' & _ & _ & Hj' & _); [by eapply list_elem_of_lookup_2 |].
    assert (i' = j') as -> by (apply (dealt_identifiers _ _ _ _ _ dealt i' j' p q Hg); [lia | done..]).
    assert (q = p) as -> by congruence.
    destruct (Forall2_lookup_l _ _ _ _ _ HP Hi) as (e1 & He1 & H1).
    destruct (Forall2_lookup_l _ _ _ _ _ HP Hj) as (e2 & He2 & H2).
    rewrite H1 in H2. injection H2 as ->. by eapply NoDup_lookup. }
  destruct (dealer_reconstruct _ _ _ _ _ Hg) as (key & Hkey).
  assert (Hre : ∀ packages, NoDup packages → packages ⊆ dealt → (threshold <= len packages)%N →
    reconstruct packages = Some key).
  { intros packages Hp Hps Hlen. apply Hkey; [done | | done]. intros p [i Hi]%Hps%list_elem_of_lookup.
    destruct (Forall2_lookup_r _ _ _ _ _ HT Hi) as (s & Hs & Hp'). exists s.
    split; [by eapply list_elem_of_lookup_2 | done]. }
  assert (Hndd : NoDup dealt).
  { apply NoDup_alt. intros i j p Hi Hj.
    apply (dealt_identifiers _ _ _ _ _ dealt i j p p Hg); [lia | done..]. }
  assert (Some key = Some (fdo_dek out)) as [= ->].
  { rewrite <- Hr. symmetry. apply Hre.
    - eapply sublist_NoDup; [exact Hndd | apply sublist_take].
    - intros p (i & Hi & _)%elem_of_take. by eapply list_elem_of_lookup_2.
    - unfold len. rewrite length_take. lia. }
  rewrite (proj2 (recover_packages_Ok _ _ _ _ picked)).
  - cbn [mbind Result_bind]. rewrite (Hre picked); [cbn [ok_or mbind Result_bind] | | done |].
    + apply guard_Ok. split; [apply neb_false; unfold len; by rewrite Hk | done].
    + by apply NoDup_fmap_1 in Hndp.
    + apply Forall2_length in HP. unfold len in *. lia.
  - split_and!; [| done | set_solver | done |].
    + apply Forall2_same_length_lookup_2; [by apply Forall2_length in HP |].
      intros i e p Hi Hp. destruct (Forall2_lookup_l _ _ _ _ _ HP Hp) as (e' & He' & He).
      assert (e' = e) as -> by congruence.
      destruct (Hpick p) as (j & s & Hs & _ & Hsp); [by eapply list_elem_of_lookup_2 |].
      split; [by eapply encoded_share_decodes |].
      by destruct (dealer_package _ _ _ _ _ _ _ _ Hg Hs Hsp) as (_ & Hm & _).
    + intros p q (i & s & Hs & _ & Hsp)%Hpick (j & t & Ht' & _ & Htq)%Hpick.
      destruct (dealer_package _ _ _ _ _ _ _ _ Hg Hs Hsp) as (_ & _ & -> & _).
      by destruct (dealer_package _ _ _ _ _ _ _ _ Hg Ht' Htq) as (_ & _ & -> & _).
Qed.

End dealer.
