(* ===== verification/EpochReads.v ===== *)
(** Reading the current epoch from the config witnesses:
    witness_read_quorum_hash_v3 and select_latest_epoch_v3 of
    rotation_protocol.rs. *)

From stdpp Require Import sorting.
From S2P Require Import Scenario.

Section reads.
Context `{Prims : Primitives}.

(** ** The loop of [select_latest_epoch_v3] *)

Abbreviation id_of envelope := (werr_witness_id (wre_response envelope)).

(** The part of the turn's condition that is about the envelope alone. *)
Definition addressed (card : RecoveryCardV3) (challenge : EpochReadChallenge)
    (envelope : WitnessReadEnvelope) (pin : WitnessPin) : Prop :=
  witness_pins card !! id_of envelope = Some pin
  ∧ werr_protocol_version (wre_response envelope) = PROTOCOL_VERSION_V3
  ∧ werr_config_id (wre_response envelope) = erc_config_id challenge
  ∧ werr_client_nonce (wre_response envelope) = erc_client_nonce challenge
  ∧ werr_witness_public_key (wre_response envelope) = pin_public_key pin
  ∧ werr_highest_guardian_epoch (wre_response envelope) = epoch_of (wre_capsule envelope)
  ∧ werr_capsule_hash (wre_response envelope) = cap3_capsule_hash (wre_capsule envelope).

(** An answer to the challenge, signed by a pinned witness, with a capsule that
    is activated for the card. *)
Definition valid_answer (card : RecoveryCardV3) (challenge : EpochReadChallenge)
    (envelope : WitnessReadEnvelope) : Prop :=
  (∃ pin, addressed card challenge envelope pin
     ∧ signed (pin_public_key pin) (witness_epoch_read_response (wre_response envelope))
         (werr_witness_signature (wre_response envelope)))
  ∧ activated card (wre_capsule envelope).

(** A writer that cannot fail. *)
Definition total (w : Writer) : Prop := ∀ out, ∃ e, w out = Ok e.

Lemma total_wseq w1 w2 : total w1 → total w2 → total (w1 >> w2).
Proof. intros H1 H2 out. unfold wseq. destruct (H1 out) as [e ->]. apply H2. Qed.

Lemma total_wu16 v : total (wu16 v).
Proof. intros out. by eexists. Qed.

Lemma total_wu64 v : total (wu64 v).
Proof. intros out. by eexists. Qed.

Lemma total_wbytes v : (len v ≤ MAX_FIELD_LEN)%N → total (wbytes v).
Proof.
  intros H out. unfold wbytes, try_u32.
  assert (Hmax : (MAX_FIELD_LEN < 2 ^ 32)%N) by done.
  rewrite (proj2 (N.ltb_lt (len v) (2 ^ 32)) (N.le_lt_trans _ _ _ H Hmax)). simpl.
  rewrite (proj2 (N.ltb_ge _ _)) by done. by eexists.
Qed.

Lemma total_array (a : barr 32) : total (wbytes (bytes_of a)).
Proof. apply total_wbytes. unfold len. by rewrite barr_len. Qed.

Create HintDb total.
#[local] Hint Resolve total_wseq total_wu16 total_wu64 total_array : total.

Lemma read_response_encodes r :
  werr_protocol_version r = PROTOCOL_VERSION_V3 →
  ∃ t, witness_epoch_read_response r = Ok t.
Proof.
  intros Hv. unfold witness_epoch_read_response. rewrite Hv. simpl.
  assert (H : total (domain "gp/witness-epoch-read-response/v3")) by by apply total_wbytes.
  enough (Ht : total (domain "gp/witness-epoch-read-response/v3"
    >> wu16 PROTOCOL_VERSION_V3 >> wbytes (werr_config_id r) >> wbytes (werr_client_nonce r)
    >> wu16 (werr_witness_id r) >> wu64 (werr_highest_guardian_epoch r)
    >> wbytes (werr_capsule_hash r) >> wbytes (werr_witness_public_key r)))
    by apply Ht.
  repeat apply total_wseq; auto with total.
Qed.

(** *** One turn *)

Lemma addressed_checks card challenge envelope pin :
  witness_pins card !! id_of envelope = Some pin →
  ((werr_protocol_version (wre_response envelope) !=? PROTOCOL_VERSION_V3)
   || (werr_config_id (wre_response envelope) !=? erc_config_id challenge)
   || (werr_client_nonce (wre_response envelope) !=? erc_client_nonce challenge)
   || (werr_witness_public_key (wre_response envelope) !=? pin_public_key pin)
   || (werr_highest_guardian_epoch (wre_response envelope)
       !=? epoch_of (wre_capsule envelope))
   || (werr_capsule_hash (wre_response envelope)
       !=? cap3_capsule_hash (wre_capsule envelope)))%mr = false ↔
  addressed card challenge envelope pin.
Proof. intros Hp. rewrite !orb_false_iff, !neb_false. unfold addressed. tauto. Qed.

(** What one accepted answer adds. *)
Definition with_answer (reads : Reads) (envelope : WitnessReadEnvelope) : Reads := {|
  seen_witnesses := {[id_of envelope]} ∪ seen_witnesses reads;
  valid_witnesses := {[id_of envelope]} ∪ valid_witnesses reads;
  valid := valid reads ++ [wre_capsule envelope]
|}.

Lemma read_envelope_valid card challenge reads envelope :
  valid_answer card challenge envelope → id_of envelope ∉ seen_witnesses reads →
  read_envelope card challenge reads envelope = Ok (with_answer reads envelope).
Proof.
  intros [(pin & Ha & t & Ht & Hs) Hact] Hn. unfold read_envelope.
  pose proof Ha as [Hp _]. rewrite Hp, (proj2 (addressed_checks _ _ _ _ Hp) Ha).
  rewrite bool_decide_eq_false_2 by done. simpl. rewrite Ht. simpl. rewrite Hs.
  apply validate_activated_capsule_Ok with (u := ()) in Hact. by rewrite Hact.
Qed.

Lemma read_envelope_inv card challenge reads envelope :
  ∃ reads', read_envelope card challenge reads envelope = Ok reads'
    ∧ (reads' = with_answer reads envelope ∧ valid_answer card challenge envelope
         ∧ (id_of envelope ∉ seen_witnesses reads)
       ∨ ((¬ valid_answer card challenge envelope ∨ id_of envelope ∈ seen_witnesses reads)
          ∧ valid reads' = valid reads ∧ valid_witnesses reads' = valid_witnesses reads
          ∧ (seen_witnesses reads ⊆ seen_witnesses reads')
          ∧ seen_witnesses reads' ⊆ {[id_of envelope]} ∪ seen_witnesses reads)).
Proof.
  destruct (decide (id_of envelope ∈ seen_witnesses reads)) as [Hin | Hn].
  { unfold read_envelope. destruct (witness_pins card !! id_of envelope).
    - rewrite (bool_decide_eq_true_2 _ Hin), orb_true_r. eexists. split; [done |]. right.
      split_and!; [by right | done | done | done |]. apply union_subseteq_r.
    - eexists. split; [done |]. right.
      split_and!; [by right | done | done | done |]. apply union_subseteq_r. }
  unfold read_envelope. destruct (witness_pins card !! id_of envelope) as [pin|] eqn:Hp; cycle 1.
  { eexists. split; [done |]. right. split_and!; try done; [| apply union_subseteq_r].
    left. intros [(pin & [Hp' _] & _) _]. by rewrite Hp in Hp'. }
  rewrite (bool_decide_eq_false_2 _ Hn), orb_false_r.
  destruct ((_ || _)%mr) eqn:Ec.
  { eexists. split; [done |]. right. split_and!; try done; [| apply union_subseteq_r].
    left. intros [(pin' & Ha & _) _]. pose proof Ha as [Hp' _].
    rewrite Hp in Hp'. injection Hp' as <-.
    apply (addressed_checks _ _ _ _ Hp) in Ha. by rewrite Ha in Ec. }
  apply (addressed_checks card challenge envelope pin Hp) in Ec.
  destruct (read_response_encodes (wre_response envelope)) as [t Ht]; [apply Ec |].
  rewrite Ht. simpl.
  destruct (verify (pin_public_key pin) t _) as [[] | ?] eqn:Hs; simpl.
  - destruct (validate_activated_capsule_v3 card (wre_capsule envelope)) as [[] | x] eqn:Hv;
      simpl.
    + eexists. split; [done |]. left. split_and!; try done. split.
      * exists pin. split; [done | by exists t].
      * by apply validate_activated_capsule_Ok in Hv.
    + eexists. split; [done |]. right. simpl. split_and!; try done; [| apply union_subseteq_r].
      left. intros [_ Ha]. apply (validate_activated_capsule_Ok _ _ ()) in Ha. by rewrite Ha in Hv.
  - eexists. split; [done |]. right. simpl. split_and!; try done; [| apply union_subseteq_r].
    left. intros [(pin' & [Hp' _] & t' & Ht' & Hs') _].
    rewrite Hp in Hp'. injection Hp' as <-. rewrite Ht in Ht'. injection Ht' as <-.
    by rewrite Hs in Hs'.
Qed.

Definition counted (card : RecoveryCardV3) (challenge : EpochReadChallenge)
    (envelope : WitnessReadEnvelope) : bool :=
  match read_envelope card challenge Reads_new envelope with
  | Ok r => negb (len (valid r) =? 0)%N
  | Err _ => false
  end.

Lemma counted_valid card challenge envelope :
  counted card challenge envelope = true → valid_answer card challenge envelope.
Proof.
  unfold counted.
  destruct (read_envelope_inv card challenge Reads_new envelope)
    as (r & -> & [(_ & ? & _) | (_ & -> & _)]); done.
Qed.

(** *** All turns *)

(** The answers counted by the loop are a sublist of the envelopes: valid
    answers of distinct witnesses. *)
Lemma read_envelopes_inv card challenge reads envelopes :
  ∃ reads' answers,
    read_envelopes card challenge reads envelopes = Ok reads'
    ∧ answers `sublist_of` envelopes
    ∧ valid reads' = valid reads ++ (wre_capsule <$> answers)
    ∧ valid_witnesses reads'
      = list_to_set ((λ a, id_of a) <$> answers) ∪ valid_witnesses reads
    ∧ NoDup ((λ a, id_of a) <$> answers)
    ∧ (∀ a, a ∈ answers → valid_answer card challenge a
         ∧ id_of a ∉ seen_witnesses reads)
    ∧ (seen_witnesses reads ⊆ seen_witnesses reads')
    ∧ (∀ a, a ∈ answers → id_of a ∈ seen_witnesses reads').
Proof.
  revert reads. induction envelopes as [|envelope envelopes IH]; intros reads; simpl.
  { exists reads, []. simpl. rewrite app_nil_r, (left_id_L ∅ (∪)).
    split_and!; try done; [constructor |..]; by intros ? ?%elem_of_nil. }
  destruct (read_envelope_inv card challenge reads envelope) as (r1 & -> & Hor).
  destruct (IH r1) as (r2 & answers & H2 & Hsub & Hv & Hw & Hnd & Hall & Hs & Hseen).
  exists r2. simpl.
  destruct Hor as [(-> & Hval & Hn) | (_ & Ev & Ew & Hs1 & Hs2)].
  - exists (envelope :: answers). simpl in *. split_and!; try done.
    + by apply sublist_skip.
    + by rewrite Hv, <- app_assoc.
    + rewrite Hw. clear. set_solver.
    + constructor; [| done]. intros (a & Ha & Hin)%list_elem_of_fmap.
      destruct (Hall a Hin) as [_ Hna]. rewrite <- Ha in Hna. clear -Hna. set_solver.
    + intros a [-> | Hin]%elem_of_cons; [done |]. destruct (Hall a Hin) as [? Hna].
      split; [done | clear -Hna; set_solver].
    + clear -Hs. set_solver.
    + intros a [-> | Hin]%elem_of_cons; [clear -Hs; set_solver | by apply Hseen].
  - exists answers. rewrite Hv, Hw, Ev, Ew. split_and!; try done.
    + by apply sublist_cons.
    + intros a Hin. destruct (Hall a Hin) as [? Hna]. split; [done | clear -Hna Hs1; set_solver].
    + clear -Hs Hs1. set_solver.
Qed.

(** A witness all of whose answers are valid is counted. *)
Lemma read_envelopes_counts card challenge w reads envelopes reads' :
  read_envelopes card challenge reads envelopes = Ok reads' →
  (∀ e, e ∈ envelopes → id_of e = w → valid_answer card challenge e) →
  (w ∈ valid_witnesses reads
   ∨ (w ∉ seen_witnesses reads) ∧ ∃ e, e ∈ envelopes ∧ id_of e = w) →
  w ∈ valid_witnesses reads'.
Proof.
  revert reads. induction envelopes as [|e envelopes IH]; intros reads; simpl.
  { intros [= <-] _ [? | (_ & e & ?%elem_of_nil & _)]; done. }
  destruct (read_envelope_inv card challenge reads e) as (r1 & -> & Hor). simpl.
  intros H Hval Hw. apply (IH r1 H).
  { intros e' Hin. apply Hval. by right. }
  destruct Hw as [Hw | (Hn & e' & [-> | Hin]%elem_of_cons & He)].
  - left. destruct Hor as [(-> & _) | (_ & _ & -> & _)]; [| done].
    by apply elem_of_union_r.
  - left. destruct Hor as [(-> & _) | ([Hbad | Hbad] & _)].
    + simpl. rewrite He. by apply elem_of_union_l, elem_of_singleton.
    + destruct Hbad. by apply Hval; [left |].
    + by rewrite He in Hbad.
  - destruct (decide (id_of e = w)) as [<- | Hne].
    + left. destruct Hor as [(-> & _) | ([Hbad | Hbad] & _)]; [| | done].
      * simpl. by apply elem_of_union_l, elem_of_singleton.
      * destruct Hbad. by apply Hval; [left |].
    + right. split; [| by exists e'].
      destruct Hor as [(-> & _) | (_ & _ & _ & _ & Hs)]; simpl.
      * rewrite elem_of_union, elem_of_singleton. naive_solver.
      * intros Hs'%Hs. rewrite elem_of_union, elem_of_singleton in Hs'. naive_solver.
Qed.

(** *** The highest epoch *)

Lemma max_epoch_spec capsules :
  match max_epoch capsules with
  | None => capsules = []
  | Some e => (∃ c, c ∈ capsules ∧ epoch_of c = e)
      ∧ ∀ c, c ∈ capsules → (epoch_of c ≤ e)%N
  end.
Proof.
  induction capsules as [|c capsules IH] using rev_ind; [done |].
  unfold max_epoch in *. rewrite foldl_app. simpl.
  destruct (foldl _ None capsules) as [e|].
  - destruct IH as [(c' & Hin & He) Hall].
    destruct (N.leb_spec e (epoch_of c)) as [Hle | Hlt].
    + split; [exists c; split; [set_solver | done] |].
      intros x [Hx | ->%list_elem_of_singleton]%elem_of_app; [| done].
      etrans; [by apply Hall | done].
    + split; [exists c'; split; [set_solver | done] |].
      intros x [Hx | ->%list_elem_of_singleton]%elem_of_app; [by apply Hall |].
      by apply N.lt_le_incl.
  - subst. split; [exists c; split; [set_solver | done] |].
    by intros x ->%list_elem_of_singleton.
Qed.

(** The answers a selection rests on. *)
Definition answer_quorum (card : RecoveryCardV3) (challenge : EpochReadChallenge)
    (answers : list WitnessReadEnvelope) : Prop :=
  NoDup ((λ a, id_of a) <$> answers)
  ∧ (2 * card3_witness_fault_bound card + 1 ≤ len answers)%N
  ∧ ∀ a, a ∈ answers → valid_answer card challenge a.

Lemma select_inv card challenge envelopes capsule :
  select_latest_epoch_v3 card challenge envelopes = Ok capsule →
  card_ok card ∧ erc_config_id challenge = card3_config_id card
  ∧ ∃ answers, answers `sublist_of` envelopes ∧ answer_quorum card challenge answers
      ∧ capsule ∈ wre_capsule <$> answers
      ∧ ∀ a, a ∈ answers → (epoch_of (wre_capsule a) ≤ epoch_of capsule)%N
          ∧ (epoch_of (wre_capsule a) = epoch_of capsule →
             cap3_capsule_hash (wre_capsule a) = cap3_capsule_hash capsule).
Proof.
  unfold select_latest_epoch_v3. intros H.
  apply bind_Ok in H as ([] & Hc%validate_recovery_card_Ok & H).
  apply bind_Ok in H as (ct & _ & H). rewrite guard_Ok, neb_false in H.
  destruct H as [Ecfg H].
  destruct (read_envelopes_inv card challenge Reads_new envelopes)
    as (r & answers & Hr & Hsub & Hv & _ & Hnd & Hall & _).
  rewrite Hr, required_witness_quorum_exact in H. simpl in H, Hv.
  rewrite guard_Ok, orb_false_iff, !N.ltb_ge in H. destruct H as [[_ Hn] H].
  split_and!; [done | done |]. exists answers. split; [done |].
  apply bind_Ok in H as (e & He%ok_or_Ok & H). rewrite guard_Ok in H. destruct H as [Hsz H].
  apply bool_decide_eq_false, dec_stable in Hsz.
  pose proof (max_epoch_spec (valid r)) as Hmax. rewrite He in Hmax.
  destruct Hmax as [_ Hmax].
  destruct (filter _ (valid r)) as [|sel rest] eqn:Ef; [done |].
  assert (sel = capsule) as ->.
  { destruct (uval e =? 1)%N; [| by injection H].
    rewrite guard_Ok in H. by destruct H as [_ [= ->]]. }
  assert (Hsel : capsule ∈ filter (λ c, epoch_of c = e) (valid r)) by (rewrite Ef; by left).
  apply list_elem_of_filter in Hsel as [Hep Hin]. rewrite Hv in Hin.
  split_and!; [split_and!; [done | | intros a Ha; by apply Hall] | done |].
  { rewrite Hv in Hn. unfold len in *. by rewrite length_fmap in Hn. }
  intros a Ha. assert (Hav : wre_capsule a ∈ valid r)
    by (rewrite Hv; by apply list_elem_of_fmap_2).
  split; [rewrite Hep; by apply Hmax |]. intros Heq.
  apply size_1_elem_of in Hsz as (h & Hh).
  assert (Hfil : ∀ c, c ∈ valid r → epoch_of c = e → cap3_capsule_hash c = h).
  { intros c Hcv Hce.
    assert (Hch : cap3_capsule_hash c
      ∈ (list_to_set (cap3_capsule_hash <$> (capsule :: rest)) : gset Id32)).
    { apply elem_of_list_to_set, list_elem_of_fmap_2. rewrite <- Ef.
      by apply list_elem_of_filter. }
    apply Hh in Hch. by apply elem_of_singleton in Hch. }
  rewrite (Hfil (wre_capsule a)) by congruence.
  symmetry. apply Hfil; [by rewrite Hv | done].
Qed.

Lemma select_activated card challenge envelopes capsule :
  select_latest_epoch_v3 card challenge envelopes = Ok capsule → activated card capsule.
Proof.
  intros (_ & _ & answers & _ & Hq & (a & -> & Ha)%list_elem_of_fmap & _)%select_inv. by apply Hq.
Qed.

(** (safety): a capsule is selected only from a quorum: 2f+1 distinct
    witnesses of the card answered this challenge, each under its pinned key
    and with an activated capsule; the selected one is among these, no answer
    has a later epoch, and none has another capsule of the same epoch. *)
Theorem latest_epoch_selected card challenge envelopes capsule :
  select_latest_epoch_v3 card challenge envelopes = Ok capsule →
  activated card capsule
  ∧ ∃ answers, answers `sublist_of` envelopes ∧ answer_quorum card challenge answers
      ∧ capsule ∈ wre_capsule <$> answers
      ∧ ∀ a, a ∈ answers → (epoch_of (wre_capsule a) ≤ epoch_of capsule)%N
          ∧ (epoch_of (wre_capsule a) = epoch_of capsule →
             cap3_capsule_hash (wre_capsule a) = cap3_capsule_hash capsule).
Proof.
  intros H. split; [by eapply select_activated |].
  apply select_inv in H as (_ & _ & answers & Hsub & Hq & Hin & Hall). by exists answers.
Qed.

(** An activated capsule has a positive epoch. *)
Lemma activated_epoch card capsule : activated card capsule → (1 ≤ epoch_of capsule)%N.
Proof.
  intros (_&_&_&_&_&_& [(-> & _) | (_ & k & h & q & _ & _ & Hk & _)]); [done |].
  destruct Hk as (_&_&_&_&_& He & _). unfold epoch_of.
  rewrite <- He, uval_sat_add. change (uval (U64 1)) with 1%N. lia.
Qed.

(** Distinct elements of a set. *)
Lemma len_le_size {A} (f : A → u16) (l : list A) (X : gset u16) :
  NoDup (f <$> l) → (∀ a, a ∈ l → f a ∈ X) → (len l ≤ N.of_nat (size X))%N.
Proof.
  intros Hnd Hin. unfold len.
  rewrite <- (length_fmap f), <- (size_list_to_set (C := gset u16)) by done.
  assert (Hle : ∀ a b : nat, a ≤ b → (N.of_nat a ≤ N.of_nat b)%N) by lia. apply Hle.
  apply subseteq_size. intros w. rewrite elem_of_list_to_set.
  intros (a & -> & Ha)%list_elem_of_fmap. by apply Hin.
Qed.

(** Agreement at genesis follows from the checks before it. *)
Lemma genesis_agreement card challenge envelopes answers (valid_ids : gset u16) hash :
  answers `sublist_of` envelopes → answer_quorum card challenge answers →
  valid_ids = list_to_set ((λ a, id_of a) <$> answers) →
  (∀ a, a ∈ answers → uval (epoch_of (wre_capsule a)) = 1%N
     ∧ cap3_capsule_hash (wre_capsule a) = hash) →
  (2 * card3_witness_fault_bound card + 1
   ≤ valid_genesis_agreement envelopes valid_ids hash)%N.
Proof.
  intros Hsub (Hnd & Hn & Hval) -> Hall. unfold valid_genesis_agreement.
  etrans; [exact Hn |]. apply (len_le_size (λ a, id_of a)); [done |]. intros a Ha.
  apply elem_of_list_to_set, list_elem_of_fmap. exists a. split; [done |]. apply list_elem_of_filter.
  destruct (Hval a Ha) as [(pin & (_&_&_&_&_& He & Hh) & _) _].
  destruct (Hall a Ha) as [H1 H2]. split; [split_and! |].
  - by apply elem_of_list_to_set, (list_elem_of_fmap_2 (λ a, id_of a)).
  - by rewrite He.
  - by rewrite Hh.
  - by eapply elem_of_sublist.
Qed.

(** Capsules that agree at an epoch have one hash. *)
Lemma one_hash (capsules : list ConfigCapsuleV3) (e : u64) top :
  top ∈ capsules → epoch_of top = e →
  (∀ c, c ∈ capsules → epoch_of c = e → cap3_capsule_hash c = cap3_capsule_hash top) →
  size (list_to_set (cap3_capsule_hash
    <$> filter (λ c, epoch_of c = e) capsules) : gset Id32) = 1.
Proof.
  intros Htop Hte Hsame.
  replace (list_to_set _ : gset Id32) with ({[cap3_capsule_hash top]} : gset Id32);
    [apply size_singleton |].
  apply set_eq. intros h. rewrite elem_of_singleton, elem_of_list_to_set, list_elem_of_fmap.
  split.
  - intros ->. exists top. split; [done |]. by apply list_elem_of_filter.
  - intros (c & -> & [Hc1 Hc2]%list_elem_of_filter). by apply Hsame.
Qed.

(** When no envelope that claims a witness of the quorum is invalid, the loop
    counts at least as many answers as the quorum has. *)
Lemma quorum_counted card challenge envelopes answers r counted :
  read_envelopes card challenge Reads_new envelopes = Ok r →
  valid_witnesses r = list_to_set ((λ a, id_of a) <$> counted) →
  NoDup ((λ a, id_of a) <$> counted) →
  answers `sublist_of` envelopes → NoDup ((λ a, id_of a) <$> answers) →
  (∀ e a, e ∈ envelopes → a ∈ answers → id_of e = id_of a →
     valid_answer card challenge e) →
  (len answers ≤ len counted)%N.
Proof.
  intros Hr Hw Hcn Hsub Hnd Hclaim.
  assert (Hlc : N.of_nat (size (valid_witnesses r)) = len counted).
  { rewrite Hw, size_list_to_set by done. unfold len. by rewrite length_fmap. }
  rewrite <- Hlc. apply (len_le_size (λ a, id_of a)); [done |]. intros a Ha.
  apply (read_envelopes_counts _ _ _ _ _ _ Hr).
  - intros e He. by apply Hclaim.
  - right. split; [apply not_elem_of_empty |]. exists a. split; [| done].
    by eapply elem_of_sublist.
Qed.

(** (liveness): the selection succeeds when a quorum of witnesses answered
    validly, no envelope that claims one of these witnesses is invalid, and
    the valid answers of any one epoch agree. *)
Theorem latest_epoch_available card challenge envelopes answers :
  card_ok card → is_ok (epoch_read_challenge challenge) = true →
  erc_config_id challenge = card3_config_id card →
  answers `sublist_of` envelopes → answer_quorum card challenge answers →
  (∀ e a, e ∈ envelopes → a ∈ answers →
     werr_witness_id (wre_response e) = werr_witness_id (wre_response a) →
     valid_answer card challenge e) →
  (∀ e1 e2, e1 ∈ envelopes → e2 ∈ envelopes →
     valid_answer card challenge e1 → valid_answer card challenge e2 →
     epoch_of (wre_capsule e1) = epoch_of (wre_capsule e2) →
     cap3_capsule_hash (wre_capsule e1) = cap3_capsule_hash (wre_capsule e2)) →
  is_ok (select_latest_epoch_v3 card challenge envelopes) = true.
Proof.
  intros Hcard Hch Hcfg Hsub (Hnd & Hn & Hans) Hclaim Hagree.
  unfold select_latest_epoch_v3. rewrite (proj2 (validate_recovery_card_Ok card ()) Hcard).
  destruct (epoch_read_challenge challenge) as [ct|] eqn:Ect; [| done]. simpl.
  rewrite (bool_decide_eq_false_2 (erc_config_id challenge ≠ _)) by (by intros []).
  destruct (read_envelopes_inv card challenge Reads_new envelopes)
    as (r & counted & Hr & Hcs & Hv & Hw & Hcn & Hcall & _ & Hseen).
  rewrite Hr, required_witness_quorum_exact. simpl in Hw, Hv |- *.
  rewrite (right_id_L ∅ (∪)) in Hw.
  assert (Hq : (2 * card3_witness_fault_bound card + 1 ≤ len counted)%N).
  { etrans; [exact Hn |].
    by apply (quorum_counted card challenge envelopes answers r counted). }
  assert (Hsz : (2 * card3_witness_fault_bound card + 1
    ≤ N.of_nat (size (seen_witnesses r)))%N).
  { etrans; [exact Hq |]. by apply (len_le_size (λ a, id_of a)). }
  assert (Hlen : len (valid r) = len counted).
  { rewrite Hv. unfold len. by rewrite length_fmap. }
  rewrite Hlen, (proj2 (N.ltb_ge _ _) Hsz), (proj2 (N.ltb_ge _ _) Hq). simpl.
  assert (Hmem : ∀ c, c ∈ valid r → ∃ a, a ∈ counted ∧ c = wre_capsule a).
  { intros c. rewrite Hv. intros (a & -> & Ha)%list_elem_of_fmap. by exists a. }
  pose proof (max_epoch_spec (valid r)) as Hmax.
  destruct (max_epoch (valid r)) as [e|]; cycle 1.
  { rewrite Hmax in Hlen. unfold len at 1 in Hlen. simpl in Hlen. lia. }
  destruct Hmax as [(top & Htop & Hte) Hmax]. simpl.
  assert (Hsame : ∀ c, c ∈ valid r → epoch_of c = e →
    cap3_capsule_hash c = cap3_capsule_hash top).
  { intros c Hc Hce. destruct (Hmem c Hc) as (a & Ha & ->).
    destruct (Hmem top Htop) as (b & Hb & ->).
    apply Hagree; [by eapply elem_of_sublist | by eapply elem_of_sublist
      | by apply Hcall | by apply Hcall | congruence]. }
  pose proof (one_hash _ _ _ Htop Hte Hsame) as Hone.
  rewrite Hone. simpl.
  destruct (filter (λ c, epoch_of c = e) (valid r)) as [|sel rest] eqn:Ef; [done |].
  destruct (uval e =? 1)%N eqn:Ee; [| done]. apply N.eqb_eq in Ee.
  rewrite (proj2 (N.ltb_ge _ _)); [done |].
  apply (genesis_agreement card challenge envelopes counted); [done | | done |].
  { split_and!; [done | done |]. intros a Ha. by apply Hcall. }
  assert (Hsel : sel ∈ filter (λ c, epoch_of c = e) (valid r)) by (rewrite Ef; by left).
  apply list_elem_of_filter in Hsel as [Hse Hsv]. intros a Ha.
  assert (Hav : wre_capsule a ∈ valid r) by (rewrite Hv; by apply list_elem_of_fmap_2).
  assert (Hae : epoch_of (wre_capsule a) = e).
  { apply uint_eq. destruct (Hcall a Ha) as [[_ Hact] _].
    pose proof (activated_epoch _ _ Hact). pose proof (Hmax _ Hav). lia. }
  split; [by rewrite Hae |]. by rewrite (Hsame _ Hav Hae), (Hsame _ Hsv Hse).
Qed.

(** ** The hash of a set of reads *)

Lemma read_material_distinct ids material ordered m :
  read_material ids material ordered = Ok m → NoDup ((λ r, id_of r) <$> ordered).
Proof.
  revert ids material.
  assert (Hgen : ∀ ids material, read_material ids material ordered = Ok m →
    NoDup ((λ r, id_of r) <$> ordered)
    ∧ ∀ r, r ∈ ordered → id_of r ∉ ids); [| intros ids material H; by eapply Hgen].
  induction ordered as [|r ordered IH]; intros ids material; simpl.
  { intros _. split; [constructor | by intros ? ?%elem_of_nil]. }
  rewrite guard_Ok, bool_decide_eq_false. intros [Hn H].
  apply bind_Ok in H as (t & _ & H). destruct (IH _ _ H) as [Hnd Hall]. split.
  - constructor; [| done]. intros (r' & Hr & Hin)%list_elem_of_fmap.
    specialize (Hall r' Hin). simpl in Hr. rewrite <- Hr in Hall. set_solver.
  - intros r' [-> | Hin]%elem_of_cons; [done |]. specialize (Hall r' Hin). set_solver.
Qed.

#[local] Instance by_witness_id_trans : Transitive by_witness_id.
Proof. intros a b c. unfold by_witness_id. apply N.le_trans. Qed.
#[local] Instance by_witness_id_total : Total by_witness_id.
Proof. intros a b. unfold by_witness_id. destruct (N.le_ge_cases (id_of a) (id_of b)); auto. Qed.

(** Reads of distinct witnesses have one order by witness. *)
Lemma merge_sort_by_witness (reads reads' : list WitnessReadEnvelope) :
  reads ≡ₚ reads' → NoDup ((λ r, id_of r) <$> reads) →
  merge_sort by_witness_id reads = merge_sort by_witness_id reads'.
Proof.
  intros Hp Hnd.
  apply (StronglySorted_unique_strong by_witness_id).
  - intros x y Hx Hy H1 H2. unfold by_witness_id in *.
    rewrite merge_sort_Permutation in Hx. rewrite merge_sort_Permutation, <- Hp in Hy.
    assert (Hid : id_of x = id_of y) by (apply uint_eq; lia).
    apply list_elem_of_lookup in Hx as [i Hi], Hy as [j Hj].
    assert (i = j) as ->; [| congruence].
    eapply (NoDup_lookup _ _ _ (id_of x) Hnd); rewrite list_lookup_fmap;
      [by rewrite Hi | by rewrite Hj, Hid].
  - apply StronglySorted_merge_sort; apply _.
  - apply StronglySorted_merge_sort; apply _.
  - by rewrite !merge_sort_Permutation.
Qed.

(** (equivalence): the hash of a set of reads is defined only for reads of
    distinct witnesses, and does not depend on the order in which they came. *)
Theorem read_quorum_hash_unordered challenge reads reads' hash :
  reads ≡ₚ reads' →
  (witness_read_quorum_hash_v3 challenge reads = Ok hash ↔
     witness_read_quorum_hash_v3 challenge reads' = Ok hash)
  ∧ (witness_read_quorum_hash_v3 challenge reads = Ok hash →
     NoDup ((λ r, werr_witness_id (wre_response r)) <$> reads)).
Proof.
  assert (Hnd : ∀ rs, witness_read_quorum_hash_v3 challenge rs = Ok hash →
    NoDup ((λ r, id_of r) <$> rs)).
  { intros rs H. unfold witness_read_quorum_hash_v3 in H. cbv zeta in H.
    apply bind_Ok in H as (ct & _ & H). apply fmap_Ok in H as (m & Hm & _).
    apply read_material_distinct in Hm. by rewrite merge_sort_Permutation in Hm. }
  intros Hp. split; [| apply Hnd]. unfold witness_read_quorum_hash_v3 in *. cbv zeta in *.
  split; intros H; pose proof (Hnd _ H) as Hd.
  - by rewrite <- (merge_sort_by_witness reads reads' Hp Hd).
  - by rewrite <- (merge_sort_by_witness reads' reads (symmetry Hp) Hd).
Qed.

End reads.

(** ** Witnesses *)

Import Scenario.

(** An envelope that claims to come from a witness, without its signature,
    keeps the witness's own answer from being counted: with one faulty witness
    out of four, which may answer in another's name, the honest three are no
    quorum. *)
Definition forged : WitnessReadEnvelope := {|
  wre_response := response 11 genesis [] 2;
  wre_capsule := genesis
|}.
Lemma forged_answer_blocks_quorum :
  select_latest_epoch_v3 card (challenge 11)
    [read 11 genesis 2; read 11 genesis 3; read 11 genesis 4] = Ok genesis
  ∧ is_ok (select_latest_epoch_v3 card (challenge 11)
      [forged; read 11 genesis 2; read 11 genesis 3; read 11 genesis 4]) = false.
Proof. split; by vm_compute. Qed.

Abbreviation ex_reads := [read 11 genesis 4; read 11 (successor 1 [1; 2; 3]%N) 2;
  read 11 genesis 1].

Lemma latest_epoch_selected_witness : activated card (successor 1 [1; 2; 3]%N).
Proof.
  exact (proj1 (latest_epoch_selected card (challenge 11) ex_reads _ successor_read)).
Defined.

Lemma ex_reads_valid a : a ∈ ex_reads → valid_answer card (challenge 11) a.
Proof.
  intros H. apply counted_valid.
  assert (Hall : forallb (counted card (challenge 11)) ex_reads = true) by by vm_compute.
  rewrite forallb_forall in Hall. by apply Hall, list_elem_of_In.
Qed.

Lemma ex_reads_quorum : answer_quorum card (challenge 11) ex_reads.
Proof.
  split_and!; [| by vm_compute | exact ex_reads_valid].
  apply (bool_decide_unpack _). by vm_compute.
Qed.

Lemma latest_epoch_available_witness :
  is_ok (select_latest_epoch_v3 card (challenge 11) ex_reads) = true.
Proof.
  apply (latest_epoch_available card (challenge 11) ex_reads ex_reads).
  - apply (proj1 (validate_recovery_card_Ok card ())). by vm_compute.
  - by vm_compute.
  - done.
  - done.
  - exact ex_reads_quorum.
  - intros e a He _ _. by apply ex_reads_valid.
  - intros e1 e2 H1 H2 _ _ Heq.
    rewrite !elem_of_cons, elem_of_nil in H1, H2.
    destruct H1 as [-> | [-> | [-> | []]]], H2 as [-> | [-> | [-> | []]]];
      first [reflexivity | by apply (f_equal uval) in Heq].
Defined.

Lemma read_quorum_hash_unordered_witness :
  ∃ hash, witness_read_quorum_hash_v3 (challenge 11) [read 11 genesis 4; read 11 genesis 1]
    = Ok hash
  ∧ witness_read_quorum_hash_v3 (challenge 11) [read 11 genesis 1; read 11 genesis 4]
    = Ok hash.
Proof.
  destruct (witness_read_quorum_hash_v3 (challenge 11) [read 11 genesis 4; read 11 genesis 1])
    as [hash | e] eqn:E; [| vm_compute in E; discriminate].
  exists hash. split; [done |].
  apply (read_quorum_hash_unordered (challenge 11) [read 11 genesis 4; read 11 genesis 1]
    [read 11 genesis 1; read 11 genesis 4] hash); [apply Permutation_swap | exact E].
Defined.
