(* ===== verification/RotationProps.v ===== *)
(** What the validators of rotation_protocol.rs accept: card and capsules,
    the signers' rotation and recovery certificates, rotation plans, and reads
    of the epoch from the witnesses. *)

From stdpp Require Import sorting.
From S2P Require Import Scenario.

Section certificates.
Context `{Prims : Primitives}.

(** ** Activated capsules *)

(** C28 (functional): a client accepts a capsule exactly when it matches the
    card it holds, its hash is the hash of its body, and it is either an
    unsigned genesis or carries an Activate certificate of a signer threshold
    and a QC of 2f+1 distinct pinned witnesses for this very step. *)
Theorem activated_capsule_iff card capsule :
  validate_activated_capsule_v3 card capsule = Ok () ↔ activated card capsule.
Proof. apply validate_activated_capsule_Ok. Qed.

(** ** Rotation plans *)

(** The plan [plan] is for [predecessor], at [now]; [hash] is its hash. *)
Definition plan_ok (plan : RotationPlan) (predecessor : ConfigCapsuleV3) (now : u64)
    (hash : Id32) : Prop :=
  (∃ t, rotation_plan plan = Ok t ∧ hash = sha256 t)
  ∧ ctx_protocol_version (plan_context plan) = PROTOCOL_VERSION_V3
  ∧ ctx_config_ref (plan_context plan) = cap3_config_ref predecessor
  ∧ ctx_predecessor_capsule_hash (plan_context plan) = cap3_capsule_hash predecessor
  ∧ plan_predecessor plan = cap3_config_ref predecessor
  ∧ is_direct_successor_of (plan_successor plan) (plan_predecessor plan) = true
  ∧ (ctx_issued_at (plan_context plan) ≤ now < ctx_expiry (plan_context plan))%N
  ∧ (ctx_issued_at (plan_context plan) < plan_preparation_deadline plan
     < plan_drain_deadline plan)%N
  ∧ (cap3_minimum_recovery_delay predecessor ≤ plan_minimum_delay_secs plan)%N
  ∧ plan_old_guardian_threshold plan = cap3_guardian_threshold predecessor
  ∧ plan_data_shards plan = cap3_guardian_threshold predecessor
  ∧ plan_total_shards plan = cap3_guardian_count predecessor
  ∧ len (plan_old_roster plan) = uval (cap3_guardian_count predecessor)
  ∧ len (plan_new_roster plan) = uval (cap3_guardian_count predecessor)
  ∧ (2 ≤ plan_new_guardian_threshold plan ≤ cap3_guardian_count predecessor)%N
  ∧ (∃ r, guardian_roster_v3 (plan_old_roster plan) = Ok r
       ∧ plan_old_roster_commitment plan = sha256 r)
  ∧ (∃ r, guardian_roster_v3 (plan_new_roster plan) = Ok r
       ∧ plan_new_roster_commitment plan = sha256 r).

Lemma rotation_plan_rosters plan t :
  rotation_plan plan = Ok t →
  NoDup (gr3_guardian_index <$> plan_old_roster plan)
  ∧ NoDup (gr3_guardian_index <$> plan_new_roster plan).
Proof.
  unfold rotation_plan. rewrite guard_Ok. intros [_ H].
  apply bind_Ok in H as ([] & [Ho _]%unique_ids_Ok & H).
  by apply bind_Ok in H as ([] & [Hn _]%unique_ids_Ok & H).
Qed.

Lemma try_u16_exact (n : u16) : try_u16 n = Some n.
Proof.
  unfold try_u16. pose proof (uint_lt n) as Hn. rewrite (proj2 (N.ltb_lt _ _)) by done.
  f_equal. apply uint_eq. by apply uval_to_uint.
Qed.

Lemma validate_rotation_plan_Ok plan predecessor now hash :
  validate_rotation_plan_v3 plan predecessor now = Ok hash ↔ plan_ok plan predecessor now hash.
Proof.
  unfold validate_rotation_plan_v3, plan_ok. cbv zeta. rewrite bind_Ok. split.
  - intros (t & Ht%wire_Ok & H). rewrite guard_Ok, !orb_false_iff, !neb_false,
      negb_false_iff, !N.ltb_ge, !N.leb_gt in H. destruct H as [Hg H]. destruct_and! Hg.
    apply bind_Ok in H as (n & Hn%ok_or_Ok & H). rewrite guard_Ok, N.ltb_ge in H.
    destruct H as [Hle H].
    apply bind_Ok in H as (ro & Hro%wire_Ok & H). apply bind_Ok in H as (rn & Hrn%wire_Ok & H).
    rewrite guard_Ok, orb_false_iff, !neb_false in H. destruct H as [[Eo En] [= <-]].
    assert (Hc : len (plan_new_roster plan) = uval (cap3_guardian_count predecessor))
      by congruence.
    rewrite Hc, try_u16_exact in Hn. injection Hn as <-.
    split_and!; try done; by eexists.
  - intros ((t & Ht & ->) & H).
    destruct H as (E1&E2&E3&E4&E5&[E6 E7]&[E8 E9]&E10&E11&E12&E13&E14&E15&[E16 E17]&
      (ro & Hro & E18)&(rn & Hrn & E19)).
    exists t. split; [by apply wire_Ok |]. rewrite guard_Ok, !orb_false_iff, !neb_false,
      negb_false_iff, !N.ltb_ge, !N.leb_gt.
    split; [split_and!; try done; congruence |].
    rewrite E15, try_u16_exact. simpl. rewrite guard_Ok, N.ltb_ge. split; [done |].
    rewrite Hro, Hrn. simpl. by rewrite guard_Ok, orb_false_iff, !neb_false.
Qed.

(** ** Begin and Release of a rotation *)

Definition begin_ok (certificate : BeginRotationCertificate) (plan : RotationPlan)
    (predecessor : ConfigCapsuleV3) (now : u64) (hash : Id32) : Prop :=
  (∃ plan_hash, plan_ok plan predecessor now plan_hash
     ∧ brot_plan_hash certificate = plan_hash)
  ∧ (∃ t, begin_rotation_certificate certificate = Ok t ∧ hash = sha256 t)
  ∧ brot_context certificate = plan_context plan
  ∧ brot_intent_hash certificate = plan_intent_hash plan
  ∧ brot_old_roster_commitment certificate = plan_old_roster_commitment plan
  ∧ brot_new_roster_commitment certificate = plan_new_roster_commitment plan
  ∧ (now < plan_preparation_deadline plan)%N
  ∧ (sat_add (ctx_issued_at (plan_context plan)) (plan_minimum_delay_secs plan)
     ≤ brot_not_before_wall certificate)%N
  ∧ signer_quorum predecessor srbv_signer_id srbv_signer_public_key
      srbv_signer_membership_proof srbv_signer_signature signer_rotation_begin_vote
      (brot_votes certificate).

Lemma validate_begin_rotation_Ok certificate plan predecessor now hash :
  validate_begin_rotation_certificate_v3 certificate plan predecessor now = Ok hash ↔
  begin_ok certificate plan predecessor now hash.
Proof.
  unfold validate_begin_rotation_certificate_v3, begin_ok. rewrite bind_Ok. split.
  - intros (ph & Hp%validate_rotation_plan_Ok & H).
    apply bind_Ok in H as (t & Ht%wire_Ok & H).
    rewrite guard_Ok, !orb_false_iff, !neb_false, N.leb_gt, N.ltb_ge in H.
    destruct H as [Hg H]. destruct_and! Hg.
    apply bind_Ok in H as (ids & Hv & H). rewrite guard_Ok, N.ltb_ge in H.
    destruct H as [Hth [= <-]].
    destruct (proj1 (vote_loop_Ok predecessor _ _ _ _ _ _ _ _ ids) (conj Hv Hth)) as [Hq _].
    split_and!; try done; [by exists ph | by exists t | congruence].
  - intros ((ph & Hp & Eh) & (t & Ht & ->) & E1 & E2 & E3 & E4 & E5 & E6 & Hq).
    exists ph. split; [by apply validate_rotation_plan_Ok |].
    apply bind_Ok. exists t. split; [by apply wire_Ok |].
    rewrite guard_Ok, !orb_false_iff, !neb_false, N.leb_gt, N.ltb_ge.
    split; [split_and!; try done; congruence |]. apply bind_Ok.
    destruct (proj2 (vote_loop_Ok predecessor srbv_signer_id srbv_signer_public_key
      srbv_signer_membership_proof srbv_signer_signature signer_rotation_begin_vote
      (λ _, false) (Msg "duplicate signer Begin vote") (brot_votes certificate) _)
      (conj Hq (conj (λ _ _, eq_refl) eq_refl))) as [Hv Hth].
    eexists. split; [exact Hv |]. by rewrite guard_Ok, N.ltb_ge.
Qed.

Definition release_ok (release : RotationReleaseCertificate) (begin : BeginRotationCertificate)
    (plan : RotationPlan) (predecessor : ConfigCapsuleV3) (now : u64) (hash : Id32) : Prop :=
  (∃ begin_hash, begin_ok begin plan predecessor now begin_hash
     ∧ rrc_begin_certificate_hash release = begin_hash)
  ∧ (∃ t, rotation_release_certificate release = Ok t ∧ hash = sha256 t)
  ∧ rrc_context release = plan_context plan
  ∧ rrc_plan_hash release = brot_plan_hash begin
  ∧ (brot_not_before_wall begin ≤ now)%N
  ∧ signer_quorum predecessor srrv_signer_id srrv_signer_public_key
      srrv_signer_membership_proof srrv_signer_signature signer_rotation_release_vote
      (rrc_votes release).

Lemma validate_rotation_release_Ok release begin plan predecessor now hash :
  validate_rotation_release_certificate_v3 release begin plan predecessor now = Ok hash ↔
  release_ok release begin plan predecessor now hash.
Proof.
  unfold validate_rotation_release_certificate_v3, release_ok. cbv zeta. rewrite bind_Ok. split.
  - intros (bh & Hb%validate_begin_rotation_Ok & H).
    apply bind_Ok in H as (t & Ht%wire_Ok & H). rewrite guard_Ok, neb_false in H.
    destruct H as [E1 H]. apply bind_Ok in H as (pt & Hpt%wire_Ok & H).
    rewrite guard_Ok, !orb_false_iff, !neb_false, N.leb_gt, N.ltb_ge in H.
    destruct H as [[[[E2 E3] E4] E5] H].
    apply bind_Ok in H as (ids & Hv & H). rewrite guard_Ok, N.ltb_ge in H.
    destruct H as [Hth [= <-]].
    destruct (proj1 (vote_loop_Ok predecessor _ _ _ _ _ _ _ _ ids) (conj Hv Hth)) as [Hq _].
    destruct Hb as ((ph & (Hpp & Hp) & Eh) & Hb).
    split_and!; try done; [| by exists t |].
    + exists bh. split; [| done]. split; [by exists ph | done].
    + destruct Hpp as (pt' & Hpt' & ->). congruence.
  - intros ((bh & Hb & Eh) & (t & Ht & ->) & E1 & E2 & E3 & Hq).
    exists bh. split; [by apply validate_begin_rotation_Ok |].
    apply bind_Ok. exists t. split; [by apply wire_Ok |]. rewrite guard_Ok, neb_false.
    split; [done |].
    destruct Hb as ((ph & ((pt & Hpt & ->) & Hp) & Eph) & _ & _ & _ & _ & _ & Hd & _).
    apply bind_Ok. exists pt. split; [by apply wire_Ok |].
    rewrite guard_Ok, !orb_false_iff, !neb_false, N.leb_gt, N.ltb_ge.
    split; [split_and!; try done; congruence |]. apply bind_Ok.
    destruct (proj2 (vote_loop_Ok predecessor srrv_signer_id srrv_signer_public_key
      srrv_signer_membership_proof srrv_signer_signature signer_rotation_release_vote
      (λ _, false) (Msg "duplicate signer Release vote") (rrc_votes release) _)
      (conj Hq (conj (λ _ _, eq_refl) eq_refl))) as [Hv Hth].
    eexists. split; [exact Hv |]. by rewrite guard_Ok, N.ltb_ge.
Qed.

(** (functional): a plan, a Begin and a Release certificate are accepted
    exactly under the conditions [plan_ok], [begin_ok] and [release_ok], with
    the hash of their transcript as the answer. *)
Theorem rotation_certificates_iff plan begin release predecessor now hash :
  (validate_rotation_plan_v3 plan predecessor now = Ok hash ↔
     plan_ok plan predecessor now hash)
  ∧ (validate_begin_rotation_certificate_v3 begin plan predecessor now = Ok hash ↔
     begin_ok begin plan predecessor now hash)
  ∧ (validate_rotation_release_certificate_v3 release begin plan predecessor now = Ok hash ↔
     release_ok release begin plan predecessor now hash).
Proof.
  split_and!; [apply validate_rotation_plan_Ok | apply validate_begin_rotation_Ok |
    apply validate_rotation_release_Ok].
Qed.

Lemma sat_add_mono {w} (a b c : uint w) : (b ≤ c)%N → (sat_add a b ≤ sat_add a c)%N.
Proof. intros H. rewrite !uval_sat_add. lia. Qed.

(** The votes of a quorum are for this plan. *)
Lemma begin_votes_for certificate t v :
  begin_rotation_certificate certificate = Ok t → v ∈ brot_votes certificate →
  srbv_plan_hash v = brot_plan_hash certificate.
Proof.
  unfold begin_rotation_certificate. intros H Hin.
  apply bind_Ok in H as ([] & _ & H). rewrite guard_Ok, existsb_false in H.
  destruct H as [Hall _]. specialize (Hall v Hin).
  rewrite !orb_false_iff, !neb_false in Hall. by destruct_and! Hall.
Qed.

Lemma release_votes_for certificate t v :
  rotation_release_certificate certificate = Ok t → v ∈ rrc_votes certificate →
  srrv_plan_hash v = rrc_plan_hash certificate
  ∧ srrv_begin_certificate_hash v = rrc_begin_certificate_hash certificate.
Proof.
  unfold rotation_release_certificate. intros H Hin.
  apply bind_Ok in H as ([] & _ & H). rewrite guard_Ok, existsb_false in H.
  destruct H as [Hall _]. specialize (Hall v Hin).
  rewrite !orb_false_iff, !neb_false in Hall. by destruct_and! Hall.
Qed.

(** C24 (safety): a guardian that accepts a Release at [now] knows that two
    thresholds of the predecessor's signers signed, one for Begin and one for
    Release, each vote naming the hash of exactly this plan; that the plan goes
    from the predecessor to a direct successor; and that at least the
    predecessor's recovery delay has passed since the rotation was issued,
    while its preparation deadline has not. *)
Theorem rotation_release_authorised release begin plan predecessor now hash :
  validate_rotation_release_certificate_v3 release begin plan predecessor now = Ok hash →
  (sat_add (ctx_issued_at (plan_context plan)) (cap3_minimum_recovery_delay predecessor)
     ≤ now < plan_preparation_deadline plan)%N
  ∧ is_direct_successor_of (plan_successor plan) (cap3_config_ref predecessor) = true
  ∧ ∃ t, rotation_plan plan = Ok t
      ∧ signer_quorum predecessor srbv_signer_id srbv_signer_public_key
          srbv_signer_membership_proof srbv_signer_signature signer_rotation_begin_vote
          (brot_votes begin)
      ∧ signer_quorum predecessor srrv_signer_id srrv_signer_public_key
          srrv_signer_membership_proof srrv_signer_signature signer_rotation_release_vote
          (rrc_votes release)
      ∧ (∀ v, v ∈ brot_votes begin → srbv_plan_hash v = sha256 t)
      ∧ (∀ v, v ∈ rrc_votes release → srrv_plan_hash v = sha256 t
           ∧ srrv_begin_certificate_hash v = rrc_begin_certificate_hash release).
Proof.
  intros ((bh & Hb & Eh) & (rt & Hrt & _) & E1 & E2 & Hnb & Hrq)%validate_rotation_release_Ok.
  destruct Hb as ((ph & ((t & Ht & ->) & _&_&_& Hp &Hd&_&_& Hmin &_) & Eph)
    & (bt & Hbt & _) & _&_&_&_& Hdl & Hdel & Hbq).
  rewrite Hp in Hd. split_and!; [| done | done |].
  - etrans; [| exact Hnb]. etrans; [| exact Hdel]. by apply sat_add_mono.
  - exists t. split_and!; try done.
    + intros v Hin. by rewrite (begin_votes_for _ _ _ Hbt Hin).
    + intros v Hin. destruct (release_votes_for _ _ _ Hrt Hin) as [-> ->].
      by rewrite E2, Eph.
Qed.

End certificates.

Section certificates.
Context `{Prims : Primitives}.

(** ** Stopping a rotation *)

Definition abort_ok (certificate : AbortRotationCertificate) (plan : RotationPlan)
    (predecessor : ConfigCapsuleV3) (now : u64) (hash : Id32) : Prop :=
  (∃ plan_hash, plan_ok plan predecessor now plan_hash
     ∧ arc_plan_hash certificate = plan_hash)
  ∧ (∃ t, abort_rotation_certificate certificate = Ok t ∧ hash = sha256 t)
  ∧ arc_context certificate = plan_context plan
  ∧ arc_state_at_abort certificate
      ∈ [RotProposed; RotDelayPending; RotPreparing; RotReady; RotActivating]
  ∧ signer_quorum predecessor srabv_signer_id srabv_signer_public_key
      srabv_signer_membership_proof srabv_signer_signature signer_rotation_abort_vote
      (arc_votes certificate)
  ∧ (∀ v, v ∈ arc_votes certificate →
       srabv_context v = arc_context certificate
       ∧ srabv_plan_hash v = arc_plan_hash certificate
       ∧ srabv_state_at_abort v = arc_state_at_abort certificate
       ∧ srabv_reason_code v = arc_reason_code certificate).

(** The veto of a pinned witness for this cancellation of this rotation. *)
Definition vetoed_by (card : RecoveryCardV3) (plan : RotationPlan)
    (plan_hash cancel_hash : Id32) (ack : WitnessRotationCancelAck) : Prop :=
  wrca_protocol_version ack = PROTOCOL_VERSION_V3
  ∧ wrca_config_id ack = card3_config_id card
  ∧ wrca_rotation_id ack = ctx_rotation_id (plan_context plan)
  ∧ wrca_plan_hash ack = plan_hash
  ∧ wrca_cancel_certificate_hash ack = cancel_hash
  ∧ ∃ pin, witness_pins card !! wrca_witness_id ack = Some pin
      ∧ wrca_witness_public_key ack = pin_public_key pin
      ∧ signed (pin_public_key pin) (witness_rotation_cancel_ack ack)
          (wrca_witness_signature ack).

Definition owner_cancel_ok (certificate : OwnerRotationCancelCertificate)
    (acks : list WitnessRotationCancelAck) (card : RecoveryCardV3) (plan : RotationPlan)
    (predecessor : ConfigCapsuleV3) (now : u64) (hash : Id32) : Prop :=
  card_ok card
  ∧ (∃ plan_hash, plan_ok plan predecessor now plan_hash
       ∧ orcc_plan_hash certificate = plan_hash)
  ∧ card3_config_id card = cr_config_id (cap3_config_ref predecessor)
  ∧ card3_owner_cancel_public_key card = cap3_owner_cancel_public_key predecessor
  ∧ orcc_context certificate = plan_context plan
  ∧ orcc_owner_cancel_public_key certificate = cap3_owner_cancel_public_key predecessor
  ∧ len (orcc_cancel_response_recipient_key certificate) = XWING_PUBLIC_KEY_LEN
  ∧ (∃ t, owner_rotation_cancel_certificate certificate = Ok t ∧ hash = sha256 t
       ∧ verify (cap3_owner_cancel_public_key predecessor) t
           (orcc_owner_signature certificate) = Ok ())
  ∧ NoDup (wrca_witness_id <$> acks)
  ∧ (∀ ack, ack ∈ acks → vetoed_by card plan (orcc_plan_hash certificate) hash ack)
  ∧ (2 * card3_witness_fault_bound card + 1 ≤ len acks)%N.

Lemma validate_abort_rotation_Ok certificate plan predecessor now hash :
  validate_abort_rotation_certificate_v3 certificate plan predecessor now = Ok hash ↔
  abort_ok certificate plan predecessor now hash.
Proof.
  unfold validate_abort_rotation_certificate_v3, abort_ok. rewrite bind_Ok. split.
  - intros (ph & Hp%validate_rotation_plan_Ok & H).
    apply bind_Ok in H as (t & Ht%wire_Ok & H).
    rewrite guard_Ok, !orb_false_iff, !neb_false, negb_false_iff in H.
    destruct H as [[[E1 E2] E3] H].
    apply bind_Ok in H as (ids & Hv & H). rewrite guard_Ok, N.ltb_ge in H.
    destruct H as [Hth [= <-]].
    destruct (proj1 (vote_loop_Ok predecessor _ _ _ _ _ _ _ _ ids) (conj Hv Hth))
      as (Hq & Hbad & _).
    split_and!; try done; [by exists ph | by exists t | |].
    + rewrite !elem_of_cons. destruct (arc_state_at_abort certificate); naive_solver.
    + intros v Hin. specialize (Hbad v Hin). rewrite !orb_false_iff, !neb_false in Hbad. tauto.
  - intros ((ph & Hp & Eh) & (t & Ht & ->) & E1 & E2 & Hq & Hall).
    exists ph. split; [by apply validate_rotation_plan_Ok |].
    apply bind_Ok. exists t. split; [by apply wire_Ok |].
    rewrite guard_Ok, !orb_false_iff, !neb_false, negb_false_iff.
    split. { split_and!; try done. rewrite !elem_of_cons, elem_of_nil in E2.
      by destruct E2 as [-> | [-> | [-> | [-> | [-> | []]]]]]. }
    apply bind_Ok.
    eassert (Hbad : ∀ v, v ∈ arc_votes certificate → _ = false); cycle 1.
    { destruct (proj2 (vote_loop_Ok predecessor srabv_signer_id srabv_signer_public_key
        srabv_signer_membership_proof srabv_signer_signature signer_rotation_abort_vote
        (λ vote, (srabv_context vote !=? arc_context certificate)
          || (srabv_plan_hash vote !=? arc_plan_hash certificate)
          || (srabv_state_at_abort vote !=? arc_state_at_abort certificate)
          || (srabv_reason_code vote !=? arc_reason_code certificate))%mr
        (Msg "Abort certificate contains a duplicate or mismatched vote")
        (arc_votes certificate) _) (conj Hq (conj Hbad eq_refl))) as [Hv Hth].
      eexists. split; [exact Hv |]. by rewrite guard_Ok, N.ltb_ge. }
    intros v Hin. cbv beta. destruct (Hall v Hin) as (? & ? & ? & ?).
    by rewrite !orb_false_iff, !neb_false.
Qed.

Lemma validate_owner_cancel_Ok certificate acks card plan predecessor now hash :
  validate_owner_rotation_cancel_witness_quorum_v3 certificate acks card plan predecessor now
    = Ok hash ↔
  owner_cancel_ok certificate acks card plan predecessor now hash.
Proof.
  unfold validate_owner_rotation_cancel_witness_quorum_v3, owner_cancel_ok. cbv zeta.
  rewrite bind_Ok. split.
  - intros ([] & Hc%validate_recovery_card_Ok & H).
    apply bind_Ok in H as (ph & Hp%validate_rotation_plan_Ok & H).
    rewrite guard_Ok, !orb_false_iff, !neb_false in H.
    destruct H as [[[[[[E1 E2] E3] E4] E5] E6] H].
    apply bind_Ok in H as (t & Ht%wire_Ok & H).
    apply bind_Ok in H as ([] & Hs%crypto_Ok & H).
    apply bind_Ok in H as (ids & (Hnd & _ & Hall & ->)%for_each_distinct_Ok & H).
    rewrite required_witness_quorum_exact, (right_id_L ∅ (∪)) in H.
    apply bind_Ok in H as (? & [= <-] & H).
    rewrite guard_Ok, N.ltb_ge, size_list_to_set, length_fmap in H by done.
    destruct H as [Hth [= <-]]. rewrite E5 in Hs.
    split_and!; try done; [by exists ph | by exists t |].
    intros ack Hin. destruct (Hall ack Hin) as (pin & Hpin%ok_or_Ok & Hbad & Hsig%signed_Ok).
    rewrite !orb_false_iff, !neb_false in Hbad. destruct_and! Hbad.
    unfold vetoed_by. split_and!; try done; [congruence | by exists pin].
  - intros (Hc & (ph & Hp & Eh) & E1 & E2 & E3 & E4 & E5 & (t & Ht & -> & Hs) & Hnd & Hall & Hth).
    exists (). split; [by apply validate_recovery_card_Ok |].
    apply bind_Ok. exists ph. split; [by apply validate_rotation_plan_Ok |].
    rewrite guard_Ok, !orb_false_iff, !neb_false. split; [by split_and! |].
    apply bind_Ok. exists t. split; [by apply wire_Ok |].
    apply bind_Ok. exists (). split; [by rewrite E4; apply crypto_Ok |].
    apply bind_Ok. eexists. split.
    + apply for_each_distinct_Ok.
      split_and!; [done | intros; apply not_elem_of_empty | | reflexivity].
      intros ack Hin. destruct (Hall ack Hin) as (F1&F2&F3&F4&F5& pin & Hpin & F6 & Hsig).
      exists pin. split_and!; [by apply ok_or_Ok | | by apply signed_Ok].
      rewrite !orb_false_iff, !neb_false. split_and!; try done. congruence.
    + rewrite required_witness_quorum_exact, (right_id_L ∅ (∪)). simpl.
      by rewrite guard_Ok, N.ltb_ge, size_list_to_set, length_fmap.
Qed.

(** (functional): a rotation is stopped before activation exactly by an
    Abort certificate of a signer threshold naming a state before activation,
    or by the owner's signed cancellation with the vetoes of 2f+1 distinct
    pinned witnesses, each bound to the exact plan. *)
Theorem rotation_stop_iff abort cancel acks card plan predecessor now hash :
  (validate_abort_rotation_certificate_v3 abort plan predecessor now = Ok hash ↔
     abort_ok abort plan predecessor now hash)
  ∧ (validate_owner_rotation_cancel_witness_quorum_v3 cancel acks card plan predecessor now
       = Ok hash ↔
     owner_cancel_ok cancel acks card plan predecessor now hash).
Proof. split; [apply validate_abort_rotation_Ok | apply validate_owner_cancel_Ok]. Qed.

End certificates.

Section recovery.
Context `{Prims : Primitives}.

(** ** Recovery requests and certificates *)

Definition request_ok (request : RecoveryRequestV3) (capsule : ConfigCapsuleV3)
    (config_ref : ConfigRef) (now : u64) (digest : Id32) : Prop :=
  rr3_protocol_version request = PROTOCOL_VERSION_V3
  ∧ rr3_config_ref request = config_ref
  ∧ cr_config_id config_ref = cr_config_id (cap3_config_ref capsule)
  ∧ cr_payload_generation config_ref = cr_payload_generation (cap3_config_ref capsule)
  ∧ cr_authorization_epoch config_ref = cr_authorization_epoch (cap3_config_ref capsule)
  ∧ len (rr3_recovery_recipient_key request) = XWING_PUBLIC_KEY_LEN
  ∧ (rr3_requested_at request ≤ now < rr3_expiry request)%N
  ∧ (rr3_expiry request
     ≤ sat_add (rr3_requested_at request) (cap3_max_request_lifetime capsule))%N
  ∧ ∃ t, WireV3.recovery_request_digest_v3 request = Ok t ∧ digest = sha256 t.

Lemma recovery_request_Ok request capsule config_ref now digest :
  validate_recovery_request_for_ref_v3 request capsule config_ref now = Ok digest ↔
  request_ok request capsule config_ref now digest.
Proof.
  unfold validate_recovery_request_for_ref_v3, request_ok, recovery_request_digest_v3.
  cbv zeta. rewrite guard_Ok, !orb_false_iff, !neb_false, !N.ltb_ge, N.leb_gt, fmap_Ok.
  setoid_rewrite wire_Ok. split.
  - intros (Hg & t & Ht & <-). destruct_and! Hg. split_and!; try done; try congruence.
    by exists t.
  - intros (E1 & <- & E3 & E4 & E5 & E6 & [E7 E8] & E9 & t & Ht & ->).
    split; [by split_and! | by exists t].
Qed.

Definition begin_recovery_ok (certificate : BeginRecoveryCertificateV3)
    (capsule : ConfigCapsuleV3) (now : u64) (digest : Id32) : Prop :=
  request_ok (brc3_request certificate) capsule (cap3_config_ref capsule) now digest
  ∧ is_ok (begin_recovery_certificate_v3 certificate) = true
  ∧ brc3_request_digest certificate = digest
  ∧ (∀ c, c ∈ brc3_signer_contributions certificate →
       src3_request c = brc3_request certificate)
  ∧ signer_quorum capsule src3_signer_id src3_signer_public_key src3_signer_membership_proof
      src3_signer_signature signer_recovery_contribution_v3
      (brc3_signer_contributions certificate).

Definition release_recovery_ok (certificate : RecoveryReleaseCertificateV3)
    (capsule : ConfigCapsuleV3) (config_ref : ConfigRef) (now : u64) (digest : Id32) : Prop :=
  request_ok (rrc3_request certificate) capsule config_ref now digest
  ∧ is_ok (recovery_release_certificate_v3 certificate) = true
  ∧ rrc3_request_digest certificate = digest
  ∧ (∀ v, v ∈ rrc3_votes certificate → srrv3_request v = rrc3_request certificate)
  ∧ signer_quorum capsule srrv3_signer_id srrv3_signer_public_key
      srrv3_signer_membership_proof srrv3_signer_signature signer_recovery_release_vote_v3
      (rrc3_votes certificate).

Definition owner_recovery_cancel_ok (certificate : OwnerRecoveryCancelCertificateV3)
    (request : RecoveryRequestV3) (capsule : ConfigCapsuleV3) (config_ref : ConfigRef)
    (now : u64) (digest : Id32) : Prop :=
  request_ok request capsule config_ref now digest
  ∧ orcc3_request certificate = request
  ∧ orcc3_request_digest certificate = digest
  ∧ orcc3_owner_cancel_public_key certificate = cap3_owner_cancel_public_key capsule
  ∧ signed (cap3_owner_cancel_public_key capsule)
      (owner_recovery_cancel_certificate_v3 certificate) (orcc3_owner_signature certificate).

Lemma is_ok_iff {E A} (r : Result E A) : is_ok r = true ↔ ∃ a, r = Ok a.
Proof. destruct r; naive_solver. Qed.

(** The shape the two certificates share: a quorum of votes for one request. *)
Lemma request_votes_Ok {V} capsule (request : V → RecoveryRequestV3) id key proof sig t
    (req : RecoveryRequestV3) e votes ids :
  for_each_distinct id (λ _, Ok ()) (λ v _, request v !=? req)%mr e
    (λ v (_ : ()), _ ← validate_signer_membership (id v) (key v) (proof v) capsule;
       b ← wire (t v); crypto (verify (key v) b (sig v)))
    ∅ votes = Ok ids ∧ (cap3_signer_threshold capsule ≤ N.of_nat (size ids))%N
  ↔ (signer_quorum capsule id key proof sig t votes
     ∧ (∀ v, v ∈ votes → request v = req)) ∧ ids = list_to_set (id <$> votes).
Proof.
  rewrite (vote_loop_Ok capsule id key proof sig t (λ v, request v !=? req)%mr).
  setoid_rewrite neb_false. tauto.
Qed.

Lemma begin_recovery_Ok certificate capsule now digest :
  validate_begin_recovery_certificate_v3 certificate capsule now = Ok digest ↔
  begin_recovery_ok certificate capsule now digest.
Proof.
  unfold validate_begin_recovery_certificate_v3, begin_recovery_ok,
    validate_recovery_request_v3. rewrite bind_Ok, is_ok_iff. split.
  - intros (d & Hd%recovery_request_Ok & H). apply bind_Ok in H as (t & Ht%wire_Ok & H).
    rewrite guard_Ok, neb_false in H. destruct H as [E H].
    apply bind_Ok in H as (ids & Hv & H). rewrite guard_Ok, N.ltb_ge in H.
    destruct H as [Hth [= <-]].
    destruct (proj1 (request_votes_Ok capsule _ _ _ _ _ _ _ _ _ ids) (conj Hv Hth))
      as [[Hq Hr] _].
    split_and!; try done. by exists t.
  - intros (Hd & (t & Ht) & E & Hr & Hq). exists digest.
    split; [by apply recovery_request_Ok |]. apply bind_Ok. exists t.
    split; [by apply wire_Ok |]. rewrite guard_Ok, neb_false. split; [done |].
    apply bind_Ok.
    destruct (proj2 (request_votes_Ok capsule src3_request src3_signer_id
      src3_signer_public_key src3_signer_membership_proof src3_signer_signature
      signer_recovery_contribution_v3 (brc3_request certificate)
      (Msg "duplicate or request-mismatched signer recovery contribution")
      (brc3_signer_contributions certificate) _) (conj (conj Hq Hr) eq_refl)) as [Hv Hth].
    eexists. split; [exact Hv |]. by rewrite guard_Ok, N.ltb_ge.
Qed.

Lemma release_recovery_Ok certificate capsule config_ref now digest :
  validate_recovery_release_certificate_for_ref_v3 certificate capsule config_ref now
    = Ok digest ↔
  release_recovery_ok certificate capsule config_ref now digest.
Proof.
  unfold validate_recovery_release_certificate_for_ref_v3, release_recovery_ok.
  rewrite bind_Ok, is_ok_iff. split.
  - intros (d & Hd%recovery_request_Ok & H). apply bind_Ok in H as (t & Ht%wire_Ok & H).
    rewrite guard_Ok, neb_false in H. destruct H as [E H].
    apply bind_Ok in H as (ids & Hv & H). rewrite guard_Ok, N.ltb_ge in H.
    destruct H as [Hth [= <-]].
    destruct (proj1 (request_votes_Ok capsule _ _ _ _ _ _ _ _ _ ids) (conj Hv Hth))
      as [[Hq Hr] _].
    split_and!; try done. by exists t.
  - intros (Hd & (t & Ht) & E & Hr & Hq). exists digest.
    split; [by apply recovery_request_Ok |]. apply bind_Ok. exists t.
    split; [by apply wire_Ok |]. rewrite guard_Ok, neb_false. split; [done |].
    apply bind_Ok.
    destruct (proj2 (request_votes_Ok capsule srrv3_request srrv3_signer_id
      srrv3_signer_public_key srrv3_signer_membership_proof srrv3_signer_signature
      signer_recovery_release_vote_v3 (rrc3_request certificate)
      (Msg "duplicate or request-mismatched v3 Release vote")
      (rrc3_votes certificate) _) (conj (conj Hq Hr) eq_refl)) as [Hv Hth].
    eexists. split; [exact Hv |]. by rewrite guard_Ok, N.ltb_ge.
Qed.

Lemma owner_recovery_cancel_Ok certificate request capsule config_ref now digest :
  validate_owner_recovery_cancel_for_ref_v3 certificate request capsule config_ref now
    = Ok digest ↔
  owner_recovery_cancel_ok certificate request capsule config_ref now digest.
Proof.
  unfold validate_owner_recovery_cancel_for_ref_v3, owner_recovery_cancel_ok.
  rewrite bind_Ok. split.
  - intros (d & Hd%recovery_request_Ok & H).
    rewrite guard_Ok, !orb_false_iff, !neb_false in H. destruct H as [[[E1 E2] E3] H].
    apply bind_Ok in H as (t & Ht%wire_Ok & H).
    apply bind_Ok in H as ([] & Hs%crypto_Ok & [= <-]). rewrite E3 in Hs.
    split_and!; try done. by exists t.
  - intros (Hd & E1 & E2 & E3 & t & Ht & Hs). exists digest.
    split; [by apply recovery_request_Ok |].
    rewrite guard_Ok, !orb_false_iff, !neb_false. split; [done |].
    apply bind_Ok. exists t. split; [by apply wire_Ok |].
    apply bind_Ok. exists (). by rewrite E3, crypto_Ok.
Qed.

(** (functional): a recovery is begun and released exactly by a request that
    is current, within the capsule's maximal lifetime and for the expected
    configuration, with the votes of a threshold of distinct signers of the
    capsule that each repeat this very request; it is cancelled exactly by a
    certificate of the owner's key for it. *)
Theorem recovery_certificates_iff begin release cancel request capsule config_ref now digest :
  (validate_begin_recovery_certificate_v3 begin capsule now = Ok digest ↔
     begin_recovery_ok begin capsule now digest)
  ∧ (validate_recovery_release_certificate_for_ref_v3 release capsule config_ref now
       = Ok digest ↔
     release_recovery_ok release capsule config_ref now digest)
  ∧ (validate_owner_recovery_cancel_for_ref_v3 cancel request capsule config_ref now
       = Ok digest ↔
     owner_recovery_cancel_ok cancel request capsule config_ref now digest).
Proof.
  split_and!; [apply begin_recovery_Ok | apply release_recovery_Ok |
    apply owner_recovery_cancel_Ok].
Qed.

End recovery.

(** ** Witnesses *)

Import Scenario.

Lemma rotation_release_authorised_witness :
  (sat_add (U64 100) (U64 10) ≤ U64 120 < U64 150)%N.
Proof.
  destruct (validate_rotation_release_certificate_v3 (release 1) (begin 1) (plan 1) genesis
    (U64 120)) as [hash | e] eqn:E.
  - exact (proj1 (rotation_release_authorised _ _ _ _ _ _ E)).
  - apply (f_equal is_ok) in E. rewrite rotation_released in E. discriminate.
Defined.
