(* ===== verification/RosterProps.v ===== *)
(** What a rotation does to the roster of guardians: plans against the signers'
    intent, and the Ready certificate, of rotation_protocol.rs. *)

From S2P Require Import RotationProps Scenario.

Section rosters.
Context `{Prims : Primitives}.

(** ** Rosters *)

Lemma btree_collect_map {A} (f : A → u16) (roster : list A) :
  NoDup (f <$> roster) →
  map_to_list (btree_collect ((λ r, (f r, r)) <$> roster)) ≡ₚ (λ r, (f r, r)) <$> roster.
Proof.
  intros Hnd. assert (Hk : NoDup ((λ r, (f r, r)) <$> roster).*1)
    by by rewrite <- list_fmap_compose.
  assert (Hm : btree_collect ((λ r, (f r, r)) <$> roster)
    = list_to_map ((λ r, (f r, r)) <$> roster)).
  { apply map_eq. intros i. apply option_eq. intros a.
    rewrite (btree_collect_NoDup _ i a Hk). by apply elem_of_list_to_map. }
  rewrite Hm. by apply map_to_list_to_map.
Qed.

Lemma routes_lookup roster i r :
  NoDup (gr3_guardian_index <$> roster) →
  routes_by_index roster !! i = Some r ↔ r ∈ roster ∧ gr3_guardian_index r = i.
Proof.
  intros Hnd. unfold routes_by_index. rewrite btree_collect_NoDup.
  - rewrite list_elem_of_fmap. split.
    + by intros (? & [= -> ->] & ?).
    + intros [? <-]. by exists r.
  - by rewrite <- list_fmap_compose.
Qed.

Lemma routes_dom roster i :
  i ∈ dom (routes_by_index roster) ↔ i ∈ gr3_guardian_index <$> roster.
Proof.
  unfold routes_by_index. by rewrite btree_collect_dom, elem_of_list_to_set,
    <- list_fmap_compose.
Qed.

Lemma routes_values roster :
  NoDup (gr3_guardian_index <$> roster) → (map_to_list (routes_by_index roster)).*2 ≡ₚ roster.
Proof.
  intros Hnd. unfold routes_by_index. rewrite btree_collect_map by done.
  rewrite <- list_fmap_compose. unfold compose. simpl. by rewrite list_fmap_id.
Qed.

(** As many values as entries: no value occurs twice. *)
Lemma NoDup_of_size {B} `{Countable B} (l : list B) :
  size (list_to_set l : gset B) = length l → NoDup l.
Proof.
  induction l as [|b l IH]; [constructor |]. simpl. intros Hs.
  assert (Hle : ∀ k : list B, size (list_to_set k : gset B) ≤ length k).
  { intros k. induction k as [|c k IHk]; simpl; [done |].
    rewrite size_union_alt, size_singleton.
    assert (size (list_to_set k ∖ {[c]} : gset B) ≤ size (list_to_set k : gset B))
      by (apply subseteq_size; apply subseteq_difference_l; done). lia. }
  assert (Hb : b ∉ l).
  { intros Hin. assert (E : ({[b]} ∪ list_to_set l : gset B) = list_to_set l) by set_solver.
    rewrite E in Hs. specialize (Hle l). lia. }
  constructor; [done |]. apply IH. rewrite size_union in Hs by set_solver.
  rewrite size_singleton in Hs. lia.
Qed.

Lemma values_distinct `{Countable B} (f : GuardianRouteV3 → B) roster :
  NoDup (gr3_guardian_index <$> roster) →
  size (values_set f (routes_by_index roster)) = size (routes_by_index roster) →
  NoDup (f <$> roster).
Proof.
  intros Hnd Hs. unfold values_set in Hs.
  assert (Hp : f <$> (map_to_list (routes_by_index roster)).*2 ≡ₚ f <$> roster)
    by by rewrite routes_values.
  rewrite <- Hp. apply NoDup_of_size. rewrite Hs, length_fmap.
  by rewrite length_fmap, length_map_to_list.
Qed.

Lemma values_elem `{Countable B} (f : GuardianRouteV3 → B) roster b :
  NoDup (gr3_guardian_index <$> roster) →
  b ∈ values_set f (routes_by_index roster) ↔ b ∈ f <$> roster.
Proof.
  intros Hnd. unfold values_set. rewrite elem_of_list_to_set.
  by rewrite (routes_values roster Hnd).
Qed.

(** ** One guardian out, one guardian in *)

(** The guardian [new_route] carries on [old_route]: same index, identity and
    operator, at a fresh slot and mailbox. *)
Definition carried_over (old_route new_route : GuardianRouteV3) : Prop :=
  gr3_guardian_index new_route = gr3_guardian_index old_route
  ∧ gr3_guardian_public_key new_route = gr3_guardian_public_key old_route
  ∧ gr3_session_recipient_key new_route = gr3_session_recipient_key old_route
  ∧ gr3_operator_domain_commitment new_route = gr3_operator_domain_commitment old_route
  ∧ gr3_opaque_slot_id new_route ≠ gr3_opaque_slot_id old_route
  ∧ gr3_mailbox new_route ≠ gr3_mailbox old_route.

(** [new] replaces exactly [out] of [old] by [into]. *)
Definition replaces_one (old new : list GuardianRouteV3) (out into : GuardianRouteV3) :
    Prop :=
  out ∈ old ∧ into ∈ new
  ∧ (gr3_guardian_index out ∉ gr3_guardian_index <$> new)
  ∧ (gr3_guardian_index into ∉ gr3_guardian_index <$> old)
  ∧ (gr3_guardian_public_key into ∉ gr3_guardian_public_key <$> old)
  ∧ (∀ r, r ∈ old → r ≠ out → ∃ r', r' ∈ new ∧ carried_over r r')
  ∧ (∀ r', r' ∈ new → r' ≠ into → ∃ r, r ∈ old ∧ carried_over r r')
  ∧ NoDup (gr3_guardian_index <$> new) ∧ NoDup (gr3_guardian_public_key <$> new)
  ∧ NoDup (gr3_mailbox <$> new) ∧ NoDup (gr3_opaque_slot_id <$> new)
  ∧ NoDup (gr3_operator_domain_commitment <$> new).

Lemma elements_one (X : gset u16) i :
  elements X = [i] → ∀ j, j ∈ X ↔ j = i.
Proof. intros E j. by rewrite <- elem_of_elements, E, list_elem_of_singleton. Qed.

Lemma not_carried_over_false old new r r' :
  NoDup (gr3_guardian_index <$> old) → NoDup (gr3_guardian_index <$> new) →
  existsb (not_carried_over (routes_by_index new)) (map_to_list (routes_by_index old)) = false →
  r ∈ old → r' ∈ new → gr3_guardian_index r' = gr3_guardian_index r → carried_over r r'.
Proof.
  intros Ho Hn Hex Hr Hr' Hi. rewrite existsb_false in Hex.
  assert (Hin : (gr3_guardian_index r, r) ∈ map_to_list (routes_by_index old))
    by by apply elem_of_map_to_list, routes_lookup.
  specialize (Hex _ Hin). unfold not_carried_over in Hex.
  rewrite (proj2 (routes_lookup new _ r' Hn) (conj Hr' Hi)) in Hex.
  rewrite !orb_false_iff, !neb_false, !bool_decide_eq_false in Hex.
  unfold carried_over. tauto.
Qed.

Lemma index_other (roster : list GuardianRouteV3) r r' :
  NoDup (gr3_guardian_index <$> roster) → r ∈ roster → r' ∈ roster →
  gr3_guardian_index r = gr3_guardian_index r' → r = r'.
Proof.
  intros Hnd Hr Hr' E.
  assert (H1 := proj2 (routes_lookup roster _ r Hnd) (conj Hr E)).
  assert (H2 := proj2 (routes_lookup roster _ r' Hnd) (conj Hr' eq_refl)). congruence.
Qed.

(** C25 (safety): a plan accepted against the signers' intent replaces exactly
    one guardian, the one the intent authorises: every other guardian keeps its
    identity at a fresh slot and mailbox, the new guardian's index and key were
    not in the old roster, and no two guardians of the new roster share an
    index, a key, a mailbox, a slot or an operator. *)
Theorem rotation_replaces_one plan intent predecessor now hash :
  validate_rotation_plan_against_intent_v3 plan intent predecessor now = Ok hash →
  plan_ok plan predecessor now hash
  ∧ plan_context plan = ri_context intent
  ∧ (∃ t, rotation_intent intent = Ok t ∧ plan_intent_hash plan = sha256 t)
  ∧ ∃ out into,
      sha256 (be (gr3_guardian_index out)) = ri_selection_constraints_commitment intent
      ∧ replaces_one (plan_old_roster plan) (plan_new_roster plan) out into.
Proof.
  unfold validate_rotation_plan_against_intent_v3. cbv zeta. intros H.
  apply bind_Ok in H as (ph & Hp%validate_rotation_plan_Ok & H).
  apply bind_Ok in H as (ih & (t & Ht%wire_Ok & <-)%fmap_Ok & H).
  rewrite guard_Ok, !orb_false_iff, !neb_false in H. destruct H as [[[[E1 E2] _] _] H].
  apply bind_Ok in H as (n & _ & H). rewrite guard_Ok in H. destruct H as [_ H].
  assert (Hr : ∃ t, rotation_plan plan = Ok t) by (destruct Hp as [(pt & ? & _) _]; by exists pt).
  destruct Hr as [pt Hpt]. destruct (rotation_plan_rosters _ _ Hpt) as [Ho Hn].
  destruct (elements (dom (routes_by_index (plan_old_roster plan))
    ∖ dom (routes_by_index (plan_new_roster plan)))) as [|i [|]] eqn:Ei; try done.
  destruct (elements (dom (routes_by_index (plan_new_roster plan))
    ∖ dom (routes_by_index (plan_old_roster plan)))) as [|j [|]] eqn:Ej; try done.
  pose proof (elements_one _ _ Ei) as Hi. pose proof (elements_one _ _ Ej) as Hj.
  rewrite guard_Ok, neb_false in H. destruct H as [Esel H].
  rewrite guard_Ok in H. destruct H as [Hcar H].
  rewrite guard_Ok, !orb_false_iff, !neb_false in H.
  destruct H as [[[[[Dk Dm] Ds] Dd] Hnew] [= ->]].
  setoid_rewrite elem_of_difference in Hi. setoid_rewrite elem_of_difference in Hj.
  setoid_rewrite routes_dom in Hi. setoid_rewrite routes_dom in Hj.
  destruct (proj2 (Hi i) eq_refl) as [(out & -> & Hout)%list_elem_of_fmap Hi'].
  destruct (proj2 (Hj j) eq_refl) as [(into & -> & Hinto)%list_elem_of_fmap Hj'].
  rewrite (proj2 (routes_lookup _ _ into Hn) (conj Hinto eq_refl)) in Hnew.
  rewrite bool_decide_eq_false, (values_elem _ _ _ Ho) in Hnew.
  split_and!; [done | done | by exists t |]. exists out, into. split; [done |].
  unfold replaces_one. split_and!; try done; try by apply values_distinct.
  - intros r Hr Hne.
    assert (Hin : gr3_guardian_index r ∈ gr3_guardian_index <$> plan_new_roster plan).
    { destruct (decide (gr3_guardian_index r ∈ gr3_guardian_index <$> plan_new_roster plan))
        as [|Hno]; [done |]. destruct Hne.
      apply (index_other (plan_old_roster plan)); try done.
      apply Hi. split; [by apply list_elem_of_fmap_2 | done]. }
    apply list_elem_of_fmap in Hin as (r' & Hx & Hr'). exists r'. split; [done |].
    by apply (not_carried_over_false (plan_old_roster plan) (plan_new_roster plan)).
  - intros r' Hr' Hne.
    assert (Hin : gr3_guardian_index r' ∈ gr3_guardian_index <$> plan_old_roster plan).
    { destruct (decide (gr3_guardian_index r' ∈ gr3_guardian_index <$> plan_old_roster plan))
        as [|Hno]; [done |]. destruct Hne.
      apply (index_other (plan_new_roster plan)); try done.
      apply Hj. split; [by apply list_elem_of_fmap_2 | done]. }
    apply list_elem_of_fmap in Hin as (r & Hx & Hr). exists r. split; [done |].
    by apply (not_carried_over_false (plan_old_roster plan) (plan_new_roster plan)).
Qed.

(** ** Ready *)

Lemma keys_lookup roster i key :
  NoDup (gr3_guardian_index <$> roster) →
  keys_by_index roster !! i = Some key ↔
  ∃ r, r ∈ roster ∧ gr3_guardian_index r = i ∧ gr3_guardian_public_key r = key.
Proof.
  intros Hnd. unfold keys_by_index. rewrite btree_collect_NoDup.
  - rewrite list_elem_of_fmap. split.
    + intros (r & [= -> ->] & ?). by exists r.
    + intros (r & ? & <- & <-). by exists r.
  - by rewrite <- list_fmap_compose.
Qed.

Lemma ready_acks_distinct ready t :
  rotation_ready_certificate ready = Ok t →
  NoDup (ngpa_new_guardian_index <$> ready_prepared_acks ready)
  ∧ NoDup (ogha_old_guardian_index <$> ready_old_handoff_acks ready)
  ∧ (∀ a, a ∈ ready_prepared_acks ready → ngpa_plan_hash a = ready_plan_hash ready
       ∧ ngpa_dpss_result_commitment a = ready_dpss_result_commitment ready
       ∧ ngpa_guardian_material_root a = ready_guardian_material_root ready)
  ∧ (∀ a, a ∈ ready_old_handoff_acks ready → ogha_plan_hash a = ready_plan_hash ready
       ∧ ogha_dpss_result_commitment a = ready_dpss_result_commitment ready).
Proof.
  unfold rotation_ready_certificate. intros H.
  apply bind_Ok in H as ([] & [Hp _]%unique_ids_Ok & H).
  apply bind_Ok in H as ([] & [Ho _]%unique_ids_Ok & H).
  rewrite guard_Ok, orb_false_iff, !existsb_false in H. destruct H as [[Hpa Hoa] _].
  split_and!; [done | done | |]; intros a Hin.
  - specialize (Hpa a Hin). rewrite !orb_false_iff, !neb_false in Hpa. tauto.
  - specialize (Hoa a Hin). rewrite !orb_false_iff, !neb_false in Hoa. tauto.
Qed.

(** Distinct members, as many as the list: all of it. *)
Lemma NoDup_covers {A} `{EqDecision A} (l k : list A) x :
  NoDup l → (∀ y, y ∈ l → y ∈ k) → len l = len k → x ∈ k → x ∈ l.
Proof.
  intros Hnd Hin Hlen Hx. destruct (decide (x ∈ l)) as [|Hno]; [done |].
  assert (Hs : x :: l ⊆+ k).
  { apply NoDup_submseteq; [by constructor |]. intros y [-> | ?]%elem_of_cons; auto. }
  apply submseteq_length in Hs. unfold len in Hlen. simpl in Hs. lia.
Qed.

(** (safety): a Ready certificate is accepted only when every guardian of
    the new roster has acknowledged, under its key in the plan, the durable
    storage of its part of this very result, and at least the old threshold of
    guardians of the old roster acknowledged the handoff of it. *)
Theorem ready_is_complete ready plan predecessor now hash :
  validate_rotation_ready_certificate_v3 ready plan predecessor now = Ok hash →
  plan_ok plan predecessor now (ready_plan_hash ready)
  ∧ (now < plan_preparation_deadline plan)%N
  ∧ (∀ r, r ∈ plan_new_roster plan → ∃ a, a ∈ ready_prepared_acks ready
       ∧ ngpa_new_guardian_index a = gr3_guardian_index r
       ∧ signed (gr3_guardian_public_key r) (new_guardian_prepared_ack a)
           (ngpa_guardian_signature a)
       ∧ ngpa_plan_hash a = ready_plan_hash ready
       ∧ ngpa_dpss_result_commitment a = ready_dpss_result_commitment ready
       ∧ ngpa_guardian_material_root a = ready_guardian_material_root ready)
  ∧ NoDup (ogha_old_guardian_index <$> ready_old_handoff_acks ready)
  ∧ (plan_old_guardian_threshold plan ≤ len (ready_old_handoff_acks ready))%N
  ∧ (∀ a, a ∈ ready_old_handoff_acks ready → ∃ r, r ∈ plan_old_roster plan
       ∧ ogha_old_guardian_index a = gr3_guardian_index r
       ∧ signed (gr3_guardian_public_key r) (old_guardian_handoff_ack a)
           (ogha_guardian_signature a)
       ∧ ogha_plan_hash a = ready_plan_hash ready
       ∧ ogha_dpss_result_commitment a = ready_dpss_result_commitment ready).
Proof.
  unfold validate_rotation_ready_certificate_v3. cbv zeta. intros H.
  apply bind_Ok in H as (ph & Hp%validate_rotation_plan_Ok & H).
  apply bind_Ok in H as (t & Ht%wire_Ok & H).
  rewrite guard_Ok, !orb_false_iff, !neb_false, N.leb_gt, N.ltb_ge in H.
  destruct H as [[[[[[E1 E2] E3] E4] E5] E6] H].
  apply bind_Ok in H as ([] & Hpre & H). apply bind_Ok in H as ([] & Hold & _).
  rewrite for_each_Ok in Hpre. rewrite for_each_Ok in Hold.
  assert (Hr : ∃ t, rotation_plan plan = Ok t) by (destruct Hp as [(pt & ? & _) _]; by exists pt).
  destruct Hr as [pt Hpt]. destruct (rotation_plan_rosters _ _ Hpt) as [Ho Hn].
  destruct (ready_acks_distinct _ _ Ht) as (Hpd & Hod & Hpa & Hoa).
  assert (Hpk : ∀ a, a ∈ ready_prepared_acks ready → ∃ r, r ∈ plan_new_roster plan
    ∧ gr3_guardian_index r = ngpa_new_guardian_index a
    ∧ signed (gr3_guardian_public_key r) (new_guardian_prepared_ack a)
        (ngpa_guardian_signature a)).
  { intros a Ha. specialize (Hpre a Ha).
    apply bind_Ok in Hpre as (key & Hk%ok_or_Ok & Hs%signed_Ok).
    apply (keys_lookup _ _ _ Hn) in Hk as (r & Hr & Hi & <-). by exists r. }
  split_and!; [by rewrite E2 | done | | done | done |].
  - intros r Hr.
    assert (Hin : gr3_guardian_index r ∈ ngpa_new_guardian_index <$> ready_prepared_acks ready).
    { apply (NoDup_covers _ (gr3_guardian_index <$> plan_new_roster plan)).
      - done.
      - intros i (a & -> & Ha)%list_elem_of_fmap. destruct (Hpk a Ha) as (r' & Hr' & <- & _).
        by apply list_elem_of_fmap_2.
      - unfold len in *. by rewrite !length_fmap.
      - by apply list_elem_of_fmap_2. }
    apply list_elem_of_fmap in Hin as (a & Hi & Ha). exists a.
    destruct (Hpk a Ha) as (r' & Hr' & Hi' & Hs). destruct (Hpa a Ha) as (? & ? & ?).
    assert (r' = r) as -> by (apply (index_other _ _ _ Hn); [done | done | congruence]).
    by split_and!.
  - intros a Ha. specialize (Hold a Ha). destruct (Hoa a Ha) as [? ?].
    apply bind_Ok in Hold as (key & Hk%ok_or_Ok & Hs%signed_Ok).
    apply (keys_lookup _ _ _ Ho) in Hk as (r & Hr & Hi & <-). by exists r.
Qed.

End rosters.

(** ** Witnesses *)

Import Scenario.

Lemma rotation_replaces_one_witness :
  ∃ out into, replaces_one old_roster new_roster out into.
Proof.
  destruct (validate_rotation_plan_against_intent_v3 (plan 1) (intent 1) genesis (U64 120))
    as [hash | e] eqn:E.
  - destruct (rotation_replaces_one _ _ _ _ _ E) as (_ & _ & _ & out & into & _ & H).
    by exists out, into.
  - apply (f_equal is_ok) in E. rewrite rotation_intended in E. discriminate.
Defined.

Lemma ready_is_complete_witness :
  ∃ a, a ∈ ready_prepared_acks (ready 1) ∧ ngpa_new_guardian_index a = U16 4.
Proof.
  destruct (validate_rotation_ready_certificate_v3 (ready 1) (plan 1) genesis (U64 120))
    as [hash | e] eqn:E.
  - pose proof (ready_is_complete _ _ _ _ _ E) as (_ & _ & H & _).
    assert (Hin : route 4 96 ∈ new_roster).
    { apply elem_of_cons. right. apply elem_of_cons. right. apply elem_of_cons. by left. }
    destruct (H (route 4 96) Hin) as (a & Ha & Hi & _). exists a. exact (conj Ha Hi).
  - apply (f_equal is_ok) in E. rewrite rotation_ready in E. discriminate.
Defined.
