(* ===== verification/Protocol.v ===== *)
(** The version-2 protocol between owner, signers, guardians and the recovery
    client: crates/gp-network/src/protocol.rs.

    [create_setup] draws from the thread's random generator, so it is code
    over the generator's state; everything else is a function.  The generator,
    the JSON of a descriptor and [hex::encode] are third-party code, the class
    [ProtocolPrimitives].  [zeroize_id] leaves no trace here. *)

From Stdlib Require Import Ascii.
From S2P Require Export Storage Sharing RotationProtocol.

(** The generator and the encodings used by the protocol. *)
Class ProtocolPrimitives : Type := {
  (* rand::rng().fill(&mut [u8; n]) *)
  Rng : Type;
  rng_fill (n : nat) : Rng → barr n * Rng;
  (* serde_json::to_vec, serde_json::from_slice *)
  descriptor_to_vec : RecoveryDescriptor → option (list byte);
  descriptor_from_slice : list byte → option RecoveryDescriptor;
  (* hex::encode of an identifier *)
  hex_encode : Id32 → string
}.

(** crates/gp-network/src/types.rs *)
Record GuardianProvision : Set := mkGuardianProvision {
  gprov_mailbox : string;
  gprov_guardian_id : u16;
  gprov_signing_seed : Id32;
  gprov_record : GuardianRecord
}.

Record SetupBundle : Set := mkSetupBundle {
  sb_capsule : ConfigCapsule;
  sb_card : RecoveryCard;
  sb_signers : list Signer.SignerState;
  sb_guardians : list GuardianProvision;
  sb_owner_cancel_signing_seed : list byte;
  sb_owner_guardian_routes : list GuardianRoute
}.

(** [value.trim_end_matches('/')]. *)
Fixpoint trim_end_slashes (value : string) : string :=
  match value with
  | EmptyString => EmptyString
  | String c value =>
      let rest := trim_end_slashes value in
      if bool_decide (rest = EmptyString) && bool_decide (c = "/"%char)
      then EmptyString else String c rest
  end.

(** [index - 1] on [u16]: release builds wrap around. *)
Definition wrapping_pred (index : u16) : u16 := U16 (index + 65535).

Section protocol.
Context `{Prims : Primitives} `{Sharing : SharingPrimitives} `{Protocol : ProtocolPrimitives}.

Definition random_id : SR Rng Error Id32 := λ rng, let '(v, rng) := rng_fill 32 rng in (Ok v, rng).
Definition random_nonce : SR Rng Error (barr 24) := λ rng,
  let '(v, rng) := rng_fill 24 rng in (Ok v, rng).

(** [vec[offset]]. *)
Definition index_or_panic {A} (l : list A) (offset : nat) : Result Error A :=
  ok_or (l !! offset) EPanic.

(** ** Setup *)

(** The loop over the signer mailboxes: the state and leaf of each signer. *)
Fixpoint setup_signers (policy : SetupPolicy) (config_id : Id32) (config_version : u64)
    (a_shares : list (list byte)) (offset : nat) (mailboxes : list string) :
    SR Rng Error (list (Signer.SignerState * Id32)) :=
  match mailboxes with
  | [] => mret []
  | mailbox :: mailboxes =>
      signer_id ← lift (ok_or (try_u16 (N.of_nat offset + 1)) ETryFromInt);
      seed ← random_id;
      let public := verifying_key_bytes (signing_key seed) in
      leaf ← lift (wire (signer_leaf signer_id public));
      share ← lift (index_or_panic a_shares offset);
      rest ← setup_signers policy config_id config_version a_shares (S offset) mailboxes;
      mret (({| Signer.ss_signer_id := signer_id;
                Signer.ss_mailbox := mailbox;
                Signer.ss_authorization_share := share;
                Signer.ss_signing_seed := seed;
                Signer.ss_signing_public_key := public;
                Signer.ss_membership_proof := [];
                Signer.ss_policy := {|
                  sp_config_id := config_id;
                  sp_config_version := config_version;
                  sp_signer_set_commitment := brep 32 x00;
                  sp_signer_threshold := setup_signer_threshold policy
                |};
                Signer.ss_seen_requests := ∅;
                Signer.ss_seen_nonces := ∅ |}, sha256 leaf) :: rest)
  end.

(** [signer.membership_proof = proof; signer.policy.signer_set_commitment = root;] *)
Definition with_membership (signer_root : Id32) (signer : Signer.SignerState)
    (proof : list byte) : Signer.SignerState := {|
  Signer.ss_signer_id := Signer.ss_signer_id signer;
  Signer.ss_mailbox := Signer.ss_mailbox signer;
  Signer.ss_authorization_share := Signer.ss_authorization_share signer;
  Signer.ss_signing_seed := Signer.ss_signing_seed signer;
  Signer.ss_signing_public_key := Signer.ss_signing_public_key signer;
  Signer.ss_membership_proof := proof;
  Signer.ss_policy := {|
    sp_config_id := sp_config_id (Signer.ss_policy signer);
    sp_config_version := sp_config_version (Signer.ss_policy signer);
    sp_signer_set_commitment := signer_root;
    sp_signer_threshold := sp_signer_threshold (Signer.ss_policy signer)
  |};
  Signer.ss_seen_requests := Signer.ss_seen_requests signer;
  Signer.ss_seen_nonces := Signer.ss_seen_nonces signer
|}.

(** [for (signer, proof) in signers.iter_mut().zip(proofs)]. *)
Fixpoint assign_memberships (signer_root : Id32) (signers : list Signer.SignerState)
    (proofs : list (list byte)) : list Signer.SignerState :=
  match signers, proofs with
  | signer :: signers, proof :: proofs =>
      with_membership signer_root signer proof :: assign_memberships signer_root signers proofs
  | _, _ => signers
  end.

(** What the loop over the guardian mailboxes makes for each. *)
Record RawGuardian : Set := mkRawGuardian {
  raw_index : u16;
  raw_signing_seed : Id32;
  raw_fragment : list byte;
  raw_encrypted_share : AeadCiphertext;
  raw_route : GuardianRoute;
  raw_leaf : Id32
}.

Fixpoint setup_guardians (config_id : Id32) (config_version : u64) (authorization_key : list byte)
    (fragments dek_shares : list (list byte)) (offset : nat) (mailboxes : list string) :
    SR Rng Error (list RawGuardian) :=
  match mailboxes with
  | [] => mret []
  | mailbox :: mailboxes =>
      index ← lift (ok_or (try_u16 (N.of_nat offset + 1)) ETryFromInt);
      authorization ← lift (ok_or (try_barr 32 authorization_key)
        (Msg "invalid authorization key"));
      key ← lift (crypto (guardian_share_key authorization config_id config_version index));
      nonce ← random_nonce;
      dek_share ← lift (index_or_panic dek_shares offset);
      context ← lift (wire (guardian_share_context config_id config_version index));
      encrypted_share ← lift (crypto (aead_encrypt key nonce dek_share context));
      fragment ← lift (index_or_panic fragments offset);
      leaf ← lift (wire (guardian_leaf config_id config_version index (sha256 fragment)
        (hash_aead encrypted_share)));
      signing_seed ← random_id;
      opaque_slot_id ← random_id;
      rest ← setup_guardians config_id config_version authorization_key fragments dek_shares
        (S offset) mailboxes;
      mret ({| raw_index := index;
               raw_signing_seed := signing_seed;
               raw_fragment := fragment;
               raw_encrypted_share := encrypted_share;
               raw_route := {|
                 gr_mailbox := mailbox;
                 gr_opaque_slot_id := opaque_slot_id;
                 gr_guardian_index := index;
                 gr_guardian_public_key := verifying_key_bytes (signing_key signing_seed)
               |};
               raw_leaf := sha256 leaf |} :: rest)
  end.

(** The provision of a guardian from its raw parts and its Merkle proof. *)
Definition guardian_provision (policy : GuardianPolicy) (raw : RawGuardian)
    (proof : list byte) : GuardianProvision := {|
  gprov_mailbox := gr_mailbox (raw_route raw);
  gprov_guardian_id := raw_index raw;
  gprov_signing_seed := raw_signing_seed raw;
  gprov_record := {|
    grec_opaque_slot_id := gr_opaque_slot_id (raw_route raw);
    grec_guardian_index := raw_index raw;
    grec_ciphertext_fragment := raw_fragment raw;
    grec_encrypted_dek_share := raw_encrypted_share raw;
    grec_merkle_path_proof := proof;
    grec_policy := policy
  |}
|}.

Definition setup_policy_invalid (policy : SetupPolicy) (signer_mailboxes guardian_mailboxes : list string) :
    bool :=
  ((len signer_mailboxes !=? uval (setup_signer_count policy))
   || (len guardian_mailboxes !=? uval (setup_guardian_count policy))
   || (uval (setup_signer_threshold policy) =? 0)%N
   || (setup_signer_count policy <? setup_signer_threshold policy)
   || (uval (setup_guardian_threshold policy) =? 0)%N
   || (setup_guardian_count policy <? setup_guardian_threshold policy))%mr.

Definition create_setup (secret : list byte) (policy : SetupPolicy)
    (signer_mailboxes guardian_mailboxes capsule_locator_bases relay_bases : list string) :
    SR Rng Error SetupBundle :=
  if bool_decide (capsule_locator_bases = []) || bool_decide (relay_bases = [])
  then lift (Err (Msg "at least one config store and one relay base is required")) else
  if setup_policy_invalid policy signer_mailboxes guardian_mailboxes
  then lift (Err (Msg "invalid setup policy or node count")) else
  config_id ← random_id;
  let config_version := U64 1 in
  owner_seed ← random_id;
  owner_key ← lift (ok_or (try_barr 32 (bytes_of owner_seed))
    (Msg "invalid owner cancellation seed"));
  let owner_cancel_public_key := verifying_key_bytes (signing_key owner_key) in
  a ← random_id;
  let authorization_key := bytes_of a in
  d ← random_id;
  let dek := bytes_of d in
  a_seed ← random_id;
  a_shares ← lift (crypto (split_secret authorization_key (setup_signer_threshold policy)
    (setup_signer_count policy) a_seed));
  signers ← setup_signers policy config_id config_version a_shares 0 signer_mailboxes;
  '(signer_root, signer_proofs) ← lift (crypto (merkle_commit signers.*2));
  let signers := assign_memberships signer_root signers.*1 signer_proofs in
  payload_nonce ← random_nonce;
  dek_key ← lift (ok_or (try_barr 32 dek) (Msg "invalid DEK"));
  context ← lift (wire (payload_context config_id config_version));
  payload ← lift (crypto (aead_encrypt dek_key payload_nonce secret context));
  fragments ← lift (crypto (erasure_encode (aead_ciphertext payload)
    (setup_guardian_threshold policy) (setup_guardian_count policy)));
  dek_seed ← random_id;
  dek_shares ← lift (crypto (split_secret dek (setup_guardian_threshold policy)
    (setup_guardian_count policy) dek_seed));
  raw ← setup_guardians config_id config_version authorization_key fragments dek_shares 0
    guardian_mailboxes;
  '(guardian_root, proofs) ← lift (crypto (merkle_commit (raw_leaf <$> raw)));
  let guardian_policy := {|
    gpol_config_id := config_id;
    gpol_config_version := config_version;
    gpol_signer_set_commitment := signer_root;
    gpol_signer_count := setup_signer_count policy;
    gpol_signer_threshold := setup_signer_threshold policy;
    gpol_owner_cancel_public_key := owner_cancel_public_key;
    gpol_minimum_recovery_delay := setup_minimum_recovery_delay policy;
    gpol_guardian_material_root := guardian_root
  |} in
  let guardians := zip_with (guardian_provision guardian_policy) raw proofs in
  let routes := raw_route <$> raw in
  let descriptor := {|
    rd_guardians := routes;
    rd_guardian_material_root := guardian_root;
    rd_data_shards := setup_guardian_threshold policy;
    rd_total_shards := setup_guardian_count policy;
    rd_ciphertext_len := U64 (len (aead_ciphertext payload));
    rd_payload_nonce := payload_nonce
  |} in
  descriptor_bytes ← lift (ok_or (descriptor_to_vec descriptor) ESerde);
  key ← lift (ok_or (try_barr 32 authorization_key) (Msg "invalid authorization key"));
  descriptor_key_value ← lift (crypto (descriptor_key key config_id config_version));
  descriptor_nonce ← random_nonce;
  context ← lift (wire (descriptor_context config_id config_version));
  encrypted_recovery_descriptor ← lift (crypto (aead_encrypt descriptor_key_value
    descriptor_nonce descriptor_bytes context));
  let capsule := {|
    cap_protocol_version := PROTOCOL_VERSION;
    cap_crypto_suite := CryptoSuite_default;
    cap_config_id := config_id;
    cap_config_version := config_version;
    cap_signer_count := setup_signer_count policy;
    cap_signer_threshold := setup_signer_threshold policy;
    cap_guardian_count := setup_guardian_count policy;
    cap_guardian_threshold := setup_guardian_threshold policy;
    cap_minimum_recovery_delay := setup_minimum_recovery_delay policy;
    cap_signer_set_commitment := signer_root;
    cap_owner_cancel_public_key := owner_cancel_public_key;
    cap_guardian_material_commitment := guardian_root;
    cap_encrypted_recovery_descriptor := encrypted_recovery_descriptor;
    cap_max_request_lifetime := U64 (7 * 24 * 60 * 60)
  |} in
  let card := {|
    card_config_id := config_id;
    card_capsule_locators := (λ base, trim_end_slashes base +:+ "/v1/configs/"
      +:+ hex_encode config_id) <$> capsule_locator_bases;
    card_capsule_locator := None;
    card_signer_mailboxes := signer_mailboxes;
    card_relay_bases := relay_bases;
    card_signer_set_commitment := signer_root;
    card_owner_cancel_public_key := owner_cancel_public_key
  |} in
  mret {| sb_capsule := capsule;
          sb_card := card;
          sb_signers := signers;
          sb_guardians := guardians;
          sb_owner_cancel_signing_seed := bytes_of owner_seed;
          sb_owner_guardian_routes := routes |}.

(** ** Validation *)

Definition validate_capsule (card : RecoveryCard) (capsule : ConfigCapsule) : Result Error () :=
  fail_if ((cap_protocol_version capsule !=? PROTOCOL_VERSION)
    || (cap_crypto_suite capsule !=? CryptoSuite_default)
    || (cap_config_id capsule !=? card_config_id card)
    || (cap_signer_set_commitment capsule !=? card_signer_set_commitment card)
    || (cap_owner_cancel_public_key capsule !=? card_owner_cancel_public_key card)
    || (uval (cap_signer_count capsule) =? 0)%N
    || (uval (cap_signer_threshold capsule) =? 0)%N
    || (cap_signer_count capsule <? cap_signer_threshold capsule)
    || (uval (cap_guardian_count capsule) =? 0)%N
    || (uval (cap_guardian_threshold capsule) =? 0)%N
    || (cap_guardian_count capsule <? cap_guardian_threshold capsule))%mr
    (Msg "Config Capsule does not match the Recovery Card or has invalid thresholds").

Definition validate_request (request : RecoveryRequest) (capsule : ConfigCapsule) (now : u64) :
    Result Error () :=
  fail_if ((rr_protocol_version request !=? PROTOCOL_VERSION)
    || (rr_crypto_suite request !=? cap_crypto_suite capsule)
    || (rr_config_id request !=? cap_config_id capsule)
    || (rr_config_version request !=? cap_config_version capsule)
    || (len (rr_recovery_recipient_key request) !=? XWING_PUBLIC_KEY_LEN)
    || (now <? rr_requested_at request)
    || (rr_expiry request <=? now)
    || (sat_add (rr_requested_at request) (cap_max_request_lifetime capsule)
        <? rr_expiry request))%mr
    (Msg "invalid, stale, expired, or recipient-mismatched RecoveryRequest").

Definition validate_membership (signer_id : u16) (public : barr 32) (proof : list byte)
    (root : Id32) (signer_count : u16) : Result Error () :=
  if (uval signer_id =? 0)%N || (signer_count <? signer_id)%mr
  then Err (Msg "invalid signer index") else
  leaf ← wire (signer_leaf signer_id public);
  crypto (merkle_verify root (sha256 leaf) (signer_id - 1) signer_count proof).

(** The checks that guardians make of a request against their policy; the suite
    is not among those of a Begin. *)
Definition request_outside_policy (request : RecoveryRequest) (policy : GuardianPolicy)
    (now : u64) : bool :=
  ((rr_protocol_version request !=? PROTOCOL_VERSION)
   || (rr_config_id request !=? gpol_config_id policy)
   || (rr_config_version request !=? gpol_config_version policy)
   || (len (rr_recovery_recipient_key request) !=? XWING_PUBLIC_KEY_LEN)
   || (now <? rr_requested_at request)
   || (rr_expiry request <=? now))%mr.

(** The checks on one contribution after the comparison of its request. *)
Definition check_contribution (request : RecoveryRequest) (contribution : SignerContribution)
    (root : Id32) (signer_count : u16) : Result Error () :=
  _ ← validate_membership (sc_signer_id contribution) (sc_signer_public_key contribution)
    (sc_signer_membership_proof contribution) root signer_count;
  t ← wire (signer_approval request (sc_signer_id contribution)
    (sc_encrypted_a_share contribution));
  crypto (verify (sc_signer_public_key contribution) t (sc_signer_signature contribution)).

Definition validate_begin_for_policy (certificate : BeginRecoveryCertificate)
    (policy : GuardianPolicy) (now : u64) : Result Error () :=
  let request := brc_request certificate in
  if request_outside_policy request policy now
  then Err (Msg "guardian rejected RecoveryRequest fields") else
  ids ← for_each_distinct sc_signer_id (λ _, Ok ())
    (λ contribution _, sc_request contribution !=? request)%mr
    (Msg "duplicate or request-mismatched signer contribution")
    (λ contribution _, check_contribution request contribution
       (gpol_signer_set_commitment policy) (gpol_signer_count policy))
    ∅ (brc_signer_contributions certificate);
  fail_if (N.of_nat (size ids) <? gpol_signer_threshold policy)%mr
    (Msg "signer approval threshold not reached").

(** The loop of [reconstruct_a]: checks and opens the shares in order. *)
Fixpoint open_contributions (request : RecoveryRequest) (capsule : ConfigCapsule)
    (recipient : RecipientKeyPair) (ids : gset u16) (contributions : list SignerContribution) :
    Result Error (list (list byte)) :=
  match contributions with
  | [] => Ok []
  | contribution :: contributions =>
      let signer_id := sc_signer_id contribution in
      if bool_decide (sc_request contribution ≠ request) || bool_decide (signer_id ∈ ids)
      then Err (Msg "duplicate or mismatched signer contribution") else
      _ ← check_contribution request contribution (cap_signer_set_commitment capsule)
        (cap_signer_count capsule);
      context ← wire (recipient_share_context request signer_id);
      share ← crypto (open recipient (sc_encrypted_a_share contribution) context);
      shares ← open_contributions request capsule recipient ({[signer_id]} ∪ ids) contributions;
      Ok (share :: shares)
  end.

Definition reconstruct_a (certificate : BeginRecoveryCertificate) (capsule : ConfigCapsule)
    (recipient : RecipientKeyPair) (now : u64) : Result Error (list byte) :=
  _ ← validate_request (brc_request certificate) capsule now;
  shares ← open_contributions (brc_request certificate) capsule recipient ∅
    (brc_signer_contributions certificate);
  if (len shares <? cap_signer_threshold capsule)%mr
  then Err (Msg "signer threshold not reached") else
  crypto (recover_secret shares (cap_signer_threshold capsule)).

Definition open_descriptor (capsule : ConfigCapsule) (authorization_key : list byte) :
    Result Error RecoveryDescriptor :=
  authorization_key ← ok_or (try_barr 32 authorization_key) (Msg "invalid authorization key");
  key ← crypto (descriptor_key authorization_key (cap_config_id capsule)
    (cap_config_version capsule));
  context ← wire (descriptor_context (cap_config_id capsule) (cap_config_version capsule));
  plaintext ← crypto (aead_decrypt key (cap_encrypted_recovery_descriptor capsule) context);
  descriptor ← ok_or (descriptor_from_slice plaintext) ESerde;
  if ((len (rd_guardians descriptor) !=? uval (cap_guardian_count capsule))
      || (rd_guardian_material_root descriptor !=? cap_guardian_material_commitment capsule)
      || (rd_data_shards descriptor !=? cap_guardian_threshold capsule)
      || (rd_total_shards descriptor !=? cap_guardian_count capsule))%mr
  then Err (Msg "Recovery Descriptor does not match Config Capsule") else
  Ok descriptor.

Definition request_digest (request : RecoveryRequest) : Result Error Id32 :=
  sha256 <$> wire (request_digest_preimage request).

Definition validate_release_for_policy (certificate : ReleaseCertificate)
    (policy : GuardianPolicy) (request : RecoveryRequest) (now : u64) : Result Error () :=
  if request_outside_policy request policy now
     || (rr_crypto_suite request !=? CryptoSuite_default)%mr
  then Err (Msg "release request is stale or expired") else
  digest ← request_digest request;
  ids ← for_each_distinct rv_signer_id (λ _, Ok ())
    (λ vote _, (rv_protocol_version vote !=? PROTOCOL_VERSION)
       || (rv_config_id vote !=? rr_config_id request)
       || (rv_config_version vote !=? rr_config_version request)
       || (rv_request_id vote !=? rr_request_id request)
       || (rv_request_digest vote !=? digest)
       || (rv_recovery_recipient_key vote !=? rr_recovery_recipient_key request)
       || (rv_nonce vote !=? rr_nonce request))%mr
    (Msg "release vote is not bound to the exact request")
    (λ vote _,
       _ ← validate_membership (rv_signer_id vote) (rv_signer_public_key vote)
         (rv_signer_membership_proof vote) (gpol_signer_set_commitment policy)
         (gpol_signer_count policy);
       t ← wire (release_vote vote);
       crypto (verify (rv_signer_public_key vote) t (rv_signer_signature vote)))
    ∅ (rc_votes certificate);
  fail_if (N.of_nat (size ids) <? gpol_signer_threshold policy)%mr
    (Msg "release threshold not reached").

(** The certificate of [make_owner_cancel_certificate], with its signature. *)
Definition owner_cancel_certificate (request : RecoveryRequest) (digest : Id32)
    (owner_key : SigningKey) (cancel_response_recipient_key : list byte) (reason_code : u16)
    (issued_at : u64) (owner_signature : list byte) : OwnerCancelCertificate := {|
  occ_protocol_version := PROTOCOL_VERSION;
  occ_config_id := rr_config_id request;
  occ_config_version := rr_config_version request;
  occ_request_id := rr_request_id request;
  occ_request_digest := digest;
  occ_recovery_recipient_key := rr_recovery_recipient_key request;
  occ_cancel_response_recipient_key := cancel_response_recipient_key;
  occ_reason_code := reason_code;
  occ_nonce := rr_nonce request;
  occ_issued_at := issued_at;
  occ_owner_cancel_public_key := verifying_key_bytes owner_key;
  occ_owner_signature := owner_signature
|}.

Definition make_owner_cancel_certificate (request : RecoveryRequest)
    (owner_cancel_signing_seed : Id32) (cancel_response_recipient_key : list byte)
    (reason_code : u16) (issued_at : u64) : Result Error OwnerCancelCertificate :=
  let owner_key := signing_key owner_cancel_signing_seed in
  digest ← request_digest request;
  let certificate := owner_cancel_certificate request digest owner_key
    cancel_response_recipient_key reason_code issued_at in
  t ← wire (owner_cancel (certificate []));
  Ok (certificate (sign owner_key t)).

Definition validate_owner_cancel_for_policy (certificate : OwnerCancelCertificate)
    (policy : GuardianPolicy) (request : RecoveryRequest) (now : u64) : Result Error () :=
  let malformed :=
    Msg "owner hard-cancel is stale, malformed, or not bound to the exact request" in
  if request_outside_policy request policy now
     || ((rr_crypto_suite request !=? CryptoSuite_default)
         || (occ_protocol_version certificate !=? PROTOCOL_VERSION)
         || (occ_config_id certificate !=? rr_config_id request)
         || (occ_config_version certificate !=? rr_config_version request)
         || (occ_request_id certificate !=? rr_request_id request))%mr
  then Err malformed else
  digest ← request_digest request;
  if ((occ_request_digest certificate !=? digest)
      || (occ_recovery_recipient_key certificate !=? rr_recovery_recipient_key request)
      || (len (occ_cancel_response_recipient_key certificate) !=? XWING_PUBLIC_KEY_LEN)
      || (occ_nonce certificate !=? rr_nonce request)
      || (occ_issued_at certificate <? rr_requested_at request)
      || (now <? occ_issued_at certificate)
      || (rr_expiry request <=? occ_issued_at certificate)
      || (occ_owner_cancel_public_key certificate !=? gpol_owner_cancel_public_key policy))%mr
  then Err malformed else
  t ← wire (owner_cancel certificate);
  crypto (verify (gpol_owner_cancel_public_key policy) t (occ_owner_signature certificate)).

Definition validate_owner_cancel_ack (ack : OwnerCancelAck)
    (certificate : OwnerCancelCertificate) (request : RecoveryRequest) (route : GuardianRoute) :
    Result Error () :=
  let unbound := Msg "owner hard-cancel acknowledgement is not bound to the exact request" in
  if ((oca_protocol_version ack !=? PROTOCOL_VERSION)
      || (oca_config_id ack !=? rr_config_id request)
      || (oca_config_version ack !=? rr_config_version request)
      || (oca_request_id ack !=? rr_request_id request))%mr
  then Err unbound else
  digest ← request_digest request;
  if (oca_request_digest ack !=? digest)%mr then Err unbound else
  transcript ← wire (owner_cancel certificate);
  if ((oca_owner_cancel_transcript_digest ack !=? sha256 transcript)
      || (oca_guardian_index ack !=? gr_guardian_index route))%mr
  then Err unbound else
  t ← wire (owner_cancel_ack ack);
  crypto (verify (gr_guardian_public_key route) t (oca_guardian_signature ack)).

(** ** Guardian contributions *)

Definition validate_guardian_contribution (contribution : GuardianContribution)
    (route : GuardianRoute) (descriptor : RecoveryDescriptor) (request : RecoveryRequest)
    (authorization_key : list byte) : Result Error (list byte) :=
  digest ← request_digest request;
  if ((gc_protocol_version contribution !=? PROTOCOL_VERSION)
      || (gc_config_id contribution !=? rr_config_id request)
      || (gc_config_version contribution !=? rr_config_version request)
      || (gc_request_id contribution !=? rr_request_id request)
      || (gc_request_digest contribution !=? digest)
      || (gc_guardian_index contribution !=? gr_guardian_index route))%mr
  then Err (Msg "guardian contribution is not bound to the exact request") else
  t ← wire (guardian_contribution contribution);
  _ ← crypto (verify (gr_guardian_public_key route) t (gc_guardian_signature contribution));
  leaf ← wire (guardian_leaf (gc_config_id contribution) (gc_config_version contribution)
    (gc_guardian_index contribution) (sha256 (gc_ciphertext_fragment contribution))
    (hash_aead (gc_encrypted_dek_share contribution)));
  _ ← crypto (merkle_verify (rd_guardian_material_root descriptor) (sha256 leaf)
    (wrapping_pred (gc_guardian_index contribution)) (rd_total_shards descriptor)
    (gc_merkle_path_proof contribution));
  authorization_key ← ok_or (try_barr 32 authorization_key) (Msg "invalid authorization key");
  key ← crypto (guardian_share_key authorization_key (gc_config_id contribution)
    (gc_config_version contribution) (gc_guardian_index contribution));
  context ← wire (guardian_share_context (gc_config_id contribution)
    (gc_config_version contribution) (gc_guardian_index contribution));
  crypto (aead_decrypt key (gc_encrypted_dek_share contribution) context).

Definition reconstruct_payload (capsule : ConfigCapsule) (descriptor : RecoveryDescriptor)
    (fragments : list (u16 * list byte)) (dek_shares : list (list byte)) :
    Result Error (list byte) :=
  dek ← crypto (recover_secret dek_shares (cap_guardian_threshold capsule));
  ciphertext ← crypto (erasure_reconstruct fragments (rd_data_shards descriptor)
    (rd_total_shards descriptor) (rd_ciphertext_len descriptor));
  key ← ok_or (try_barr 32 dek) (Msg "invalid DEK");
  context ← wire (payload_context (cap_config_id capsule) (cap_config_version capsule));
  crypto (aead_decrypt key
    {| aead_nonce := rd_payload_nonce descriptor; aead_ciphertext := ciphertext |} context).

(** [GuardianContribution] with its signature replaced. *)
Definition with_guardian_signature (contribution : GuardianContribution)
    (signature : list byte) : GuardianContribution := {|
  gc_protocol_version := gc_protocol_version contribution;
  gc_config_id := gc_config_id contribution;
  gc_config_version := gc_config_version contribution;
  gc_request_id := gc_request_id contribution;
  gc_request_digest := gc_request_digest contribution;
  gc_guardian_index := gc_guardian_index contribution;
  gc_ciphertext_fragment := gc_ciphertext_fragment contribution;
  gc_encrypted_dek_share := gc_encrypted_dek_share contribution;
  gc_merkle_path_proof := gc_merkle_path_proof contribution;
  gc_guardian_signature := signature
|}.

Definition sign_guardian_contribution (contribution : GuardianContribution)
    (signing_seed : Id32) : Result Error GuardianContribution :=
  t ← wire (guardian_contribution contribution);
  Ok (with_guardian_signature contribution (sign (signing_key signing_seed) t)).

End protocol.
