(* ===== verification/Api.v ===== *)
(** Errors, steps and persistence shared by the nodes of
    crates/gp-network/src/server.rs.

    A handler is code over the state its node holds under a lock; it answers a
    response or an [ApiError].  An error keeps what it was made from; its HTTP
    status is its constructor.  [panicked] stands for an index or slice out of
    range: the request's task ends and the state stays as it is. *)

From Stdlib Require Import Ascii.
From S2P Require Export Storage CoreRecovery RotationProtocol.

Inductive Cause : Set :=
| Text (message : string)
| OfWire (e : WireError)
| OfCrypto (e : CryptoError)
| OfStorage (e : StorageError)
| OfCore (e : CoreError)
| OfError (e : Error)
| OfClock
| OfSave.

Inductive ApiError : Set :=
| bad_request (cause : Cause)
| forbidden (message : string)
| not_found (message : string)
| rate_limited (message : string)
| panicked.

Definition bad {S A} (message : string) : SR S ApiError A :=
  lift (Err (bad_request (Text message))).

(** [if c { return Err(ApiError::bad_request(message)) }]. *)
Definition refuse_if {S} (c : bool) (message : string) : SR S ApiError () :=
  lift (fail_if c (bad_request (Text message))).

(** [.map_err(ApiError::bad_request)?]. *)
Definition wire_ok {S A} (r : Result WireError A) : SR S ApiError A :=
  lift (map_err (λ e, bad_request (OfWire e)) r).
Definition crypto_ok {S A} (r : Result CryptoError A) : SR S ApiError A :=
  lift (map_err (λ e, bad_request (OfCrypto e)) r).
Definition some_or {S A} (o : option A) (message : string) : SR S ApiError A :=
  lift (ok_or o (bad_request (Text message))).
Definition wall_now {S} (now : option u64) : SR S ApiError u64 :=
  lift (ok_or now (bad_request OfClock)).

Definition error_ok {S A} (r : Result Error A) : SR S ApiError A :=
  lift (map_err (λ e, bad_request (OfError e)) r).

(** [store.save()]. *)
Definition save {S} (saved : bool) : SR S ApiError () :=
  lift (fail_if (negb saved) (bad_request OfSave)).

(** *** Inverting the steps of a handler

    A step either goes on, or stops with an error and the state as it is. *)

Definition stopped {S A} (r : Result ApiError A) (s s' : S) : Prop :=
  (∃ e, r = Err e) ∧ s' = s.

Lemma lifted_inv {S A B} (c : Result ApiError A) (f : A → SR S ApiError B) s r s' :
  (lift c ≫= f) s = (r, s') → stopped r s s' ∨ ∃ a, c = Ok a ∧ f a s = (r, s').
Proof.
  intros [? | (e & -> & -> & ->)]%lift_bind_inv; [by right | left]. split; [by exists e | done].
Qed.

Lemma refuse_if_inv {S B} c m (f : () → SR S ApiError B) s r s' :
  (refuse_if c m ≫= f) s = (r, s') → stopped r s s' ∨ (c = false ∧ f () s = (r, s')).
Proof.
  intros [? | ([] & ?%fail_if_Ok & ?)]%lifted_inv; [by left | by right].
Qed.

Lemma wire_ok_inv {S A B} (c : Result WireError A) (f : A → SR S ApiError B) s r s' :
  (wire_ok c ≫= f) s = (r, s') → stopped r s s' ∨ ∃ a, c = Ok a ∧ f a s = (r, s').
Proof.
  intros [? | (a & ?%map_err_Ok & ?)]%lifted_inv; [by left | right; by exists a].
Qed.

Lemma crypto_ok_inv {S A B} (c : Result CryptoError A) (f : A → SR S ApiError B) s r s' :
  (crypto_ok c ≫= f) s = (r, s') → stopped r s s' ∨ ∃ a, c = Ok a ∧ f a s = (r, s').
Proof.
  intros [? | (a & ?%map_err_Ok & ?)]%lifted_inv; [by left | right; by exists a].
Qed.

Lemma error_ok_inv {S A B} (c : Result Error A) (f : A → SR S ApiError B) s r s' :
  (error_ok c ≫= f) s = (r, s') → stopped r s s' ∨ ∃ a, c = Ok a ∧ f a s = (r, s').
Proof.
  intros [? | (a & ?%map_err_Ok & ?)]%lifted_inv; [by left | right; by exists a].
Qed.

Lemma some_or_inv {S A B} (o : option A) m (f : A → SR S ApiError B) s r s' :
  (some_or o m ≫= f) s = (r, s') → stopped r s s' ∨ ∃ a, o = Some a ∧ f a s = (r, s').
Proof.
  intros [? | (a & ?%ok_or_Ok & ?)]%lifted_inv; [by left | right; by exists a].
Qed.

Lemma wall_now_inv {S B} now (f : u64 → SR S ApiError B) s r s' :
  (wall_now now ≫= f) s = (r, s') → stopped r s s' ∨ ∃ t, now = Some t ∧ f t s = (r, s').
Proof.
  intros [? | (a & ?%ok_or_Ok & ?)]%lifted_inv; [by left | right; by exists a].
Qed.

Lemma save_inv {S B} saved (f : () → SR S ApiError B) s r s' :
  (save saved ≫= f) s = (r, s') → stopped r s s' ∨ (saved = true ∧ f () s = (r, s')).
Proof.
  intros [? | ([] & Hs%fail_if_Ok & ?)]%lifted_inv; [by left | right].
  by apply negb_false_iff in Hs.
Qed.

(** The conjuncts of passed checks. *)
Ltac checks :=
  repeat match goal with
  | u : () |- _ => destruct u
  | H : orb _ _ = false |- _ => rewrite orb_false_iff in H; destruct H
  | H : bool_decide (_ ≠ _) = false |- _ => rewrite neb_false in H
  | H : N.ltb _ _ = false |- _ => rewrite N.ltb_ge in H
  | H : N.leb _ _ = false |- _ => rewrite N.leb_gt in H
  | H : negb _ = false |- _ => rewrite negb_false_iff in H
  end.

(** [sr_step H]: the next step of the handler run in [H]; the case in which it
    stops is solved when the goal allows for it on the left. *)
Ltac sr_step H :=
  cbv beta zeta in H;
  first
    [ apply refuse_if_inv in H as [H | [? H]]
    | apply wire_ok_inv in H as [H | (? & ? & H)]
    | apply crypto_ok_inv in H as [H | (? & ? & H)]
    | apply error_ok_inv in H as [H | (? & ? & H)]
    | apply some_or_inv in H as [H | (? & ? & H)]
    | apply wall_now_inv in H as [H | (? & ? & H)]
    | apply save_inv in H as [H | [? H]]
    | apply lifted_inv in H as [H | (? & ? & H)]
    | match type of H with (get ≫= ?f) ?s = _ => change (f s s) with (f s s) in H;
        unfold mbind, SR_bind, get in H; cbv beta iota in H end ];
  [ first [ left; exact H | idtac ] | .. ].

(** ** Persisted state

    [Persisted<T>]: the data in memory and what the state file holds.
    [save_json] writes a temporary file, renames it over the state file and
    syncs the directory; it can fail before or after the renaming. *)

Record Persisted (D : Type) : Type := mkPersisted {
  data : D;
  file : D
}.
Arguments mkPersisted {D}.
Arguments data {D}.
Arguments file {D}.

Inductive SaveOutcome : Set :=
| Saved
| SaveFailed (renamed : bool).

Definition save_store {D} (outcome : SaveOutcome) : SR (Persisted D) ApiError () := λ s,
  match outcome with
  | Saved => (Ok (), mkPersisted (data s) (data s))
  | SaveFailed renamed =>
      (Err (bad_request OfSave), mkPersisted (data s) (if renamed then data s else file s))
  end.

Definition get_data {D} : SR (Persisted D) ApiError D := λ s, (Ok (data s), s).
Definition put_data {D} (d : D) : SR (Persisted D) ApiError () := λ s,
  (Ok (), mkPersisted d (file s)).

(** The process stops and starts again: [load_json]. *)
Definition reload {D} (s : Persisted D) : Persisted D := mkPersisted (file s) (file s).

(** [println!("... {}…", &mailbox[..10])] fails on a string shorter than ten
    bytes or with a character across the tenth. *)
Definition prefix_sliceable (s : string) : bool :=
  match String.get 10 s with
  | Some c => negb ((N_of_ascii c / 64) =? 2)%N
  | None => (String.length s =? 10)%nat
  end.

Definition log_mailbox {S} (mailbox : string) : SR S ApiError () :=
  lift (fail_if (negb (prefix_sliceable mailbox)) panicked).
