(* ===== verification/Mailbox.v ===== *)
(** Sealed mailboxes: the requests and answers of version-2 signers and
    guardians (crates/gp-network/src/types.rs), how a node opens and seals them
    (crates/gp-network/src/server.rs), and the relay and config-store nodes.

    serde_json is third-party code: [request_from_slice] and the like are the
    operations of the class [MailboxPrimitives]. *)

From Stdlib Require Import Ascii.
From S2P Require Export Api Protocol.

(** ** Requests and answers *)

Inductive MailboxRequest : Set :=
| MSignerApprove (request : RecoveryRequest)
| MSignerRelease (request : RecoveryRequest)
| MGuardianBegin (certificate : BeginRecoveryCertificate)
| MGuardianCancel (request : RecoveryRequest) (certificate : OwnerCancelCertificate)
| MGuardianRelease (request : RecoveryRequest) (certificate : ReleaseCertificate).

(** [MailboxRequest::request]. *)
Definition request_of (self : MailboxRequest) : RecoveryRequest :=
  match self with
  | MSignerApprove request | MSignerRelease request
  | MGuardianCancel request _ | MGuardianRelease request _ => request
  | MGuardianBegin certificate => brc_request certificate
  end.

Inductive MailboxResponse : Set :=
| MSignerContribution (contribution : SignerContribution)
| MReleaseVote (vote : ReleaseVote)
| MBeginAccepted (not_before_monotonic : u64)
| MCancellationAccepted (ack : OwnerCancelAck)
| MReleaseRefused (reason : string)
| MGuardianContribution (contribution : GuardianContribution).

Inductive ProvisionPayload : Set :=
| ProvisionSigner (signer : Signer.SignerState)
| ProvisionGuardian (guardian : GuardianProvision).

Record SealedMailboxBody : Set := mkSealedMailboxBody { smb_sealed : SealedMessage }.

Record ProvisionAck : Set := mkProvisionAck { pack_mailbox : string; pack_stored : bool }.

Record IdentityDisk : Set := mkIdentityDisk { idd_node_id : string; idd_kem_seed : Id32 }.

Class MailboxPrimitives : Type := {
  request_from_slice : list byte → option MailboxRequest;
  response_to_vec : MailboxResponse → option (list byte);
  provision_from_slice : list byte → option ProvisionPayload
}.

(** What a handler finds around it: the clocks ([None] when they cannot be
    read), the boot identifier, the outcome of the final write, and its random
    draws, for a share and for the answer's envelope. *)
Record Surroundings : Set := mkSurroundings {
  sur_wall : option u64;
  sur_monotonic : option u64;
  sur_boot : string;
  sur_saved : SaveOutcome;
  sur_share_draws : Id32 * barr 24;
  sur_envelope_draws : Id32 * barr 24
}.

Section mailbox.
Context `{Prims : Primitives} `{Sharing : SharingPrimitives}.
Context `{Protocol : ProtocolPrimitives} `{Mailbox : MailboxPrimitives}.

Definition open_mailbox_request (identity : IdentityDisk) (mailbox : string)
    (body : SealedMailboxBody) : Result Error MailboxRequest :=
  context ← wire (mailbox_transport_context mailbox "request");
  plaintext ← crypto (open (RecipientKeyPair_from_seed (idd_kem_seed identity))
    (smb_sealed body) context);
  ok_or (request_from_slice plaintext) ESerde.

Definition seal_mailbox_response (mailbox : string) (response_recipient_key : list byte)
    (response : MailboxResponse) (draws : Id32 * barr 24) : Result Error SealedMailboxBody :=
  bytes ← ok_or (response_to_vec response) ESerde;
  context ← wire (mailbox_transport_context mailbox "response");
  sealed ← crypto (seal_to_recipient response_recipient_key draws.1 draws.2 bytes context);
  Ok {| smb_sealed := sealed |}.

Definition open_provision (identity : IdentityDisk) (role : string) (sealed : SealedMessage) :
    Result Error ProvisionPayload :=
  context ← wire (node_provision_context (idd_node_id identity) role);
  plaintext ← crypto (open (RecipientKeyPair_from_seed (idd_kem_seed identity)) sealed context);
  ok_or (provision_from_slice plaintext) ESerde.

End mailbox.

Fixpoint contains_slash (value : string) : bool :=
  match value with
  | EmptyString => false
  | String c rest => bool_decide (c = "/"%char) || contains_slash rest
  end.

(** [value.rsplit('/').next()]: the part after the last slash. *)
Fixpoint after_last_slash (value : string) : string :=
  match value with
  | EmptyString => EmptyString
  | String c rest =>
      if contains_slash rest then after_last_slash rest
      else if bool_decide (c = "/"%char) then rest else value
  end.

Definition mailbox_id (mailbox_url : string) : Result Error string :=
  let value := after_last_slash (trim_end_slashes mailbox_url) in
  if 32 <=? String.length value then Ok value else Err (Msg "invalid opaque mailbox URL").

(** ** Relays and config stores

    A relay keeps routes, a config store keeps version-2 capsules.  Forwarding
    is one request to the target of a route: [relay_target] is its address. *)

Record RouteRegistration : Set := mkRouteRegistration {
  rreg_mailbox : string;
  rreg_target_url : string;
  rreg_transport_public_key : list byte
}.

Record RouteRecord : Set := mkRouteRecord {
  rrec_target_url : string;
  rrec_transport_public_key : list byte
}.

Abbreviation RelayDisk := (gmap string RouteRecord).
Abbreviation ConfigDisk := (gmap string ConfigCapsule).

(** [token.is_empty() || bearer(&headers) != Some(token)]. *)
Definition unauthorised (token : string) (bearer : option string) : bool :=
  bool_decide (token = ""%string) || bool_decide (bearer ≠ Some token).

Section stores.
Context `{Protocol : ProtocolPrimitives}.

Definition relay_register (token : string) (bearer : option string) (saved : SaveOutcome)
    (registration : RouteRegistration) : SR (Persisted RelayDisk) ApiError ProvisionAck :=
  _ ← lift (fail_if (unauthorised token bearer)
    (forbidden "invalid relay registration token"));
  _ ← refuse_if ((String.length (rreg_mailbox registration) <? 32)
      || bool_decide (rreg_target_url registration = ""%string)
      || (len (rreg_transport_public_key registration) !=? XWING_PUBLIC_KEY_LEN)%mr)
    "invalid route registration";
  routes ← get_data;
  _ ← refuse_if (bool_decide (is_Some (routes !! rreg_mailbox registration)))
    "mailbox is already registered";
  _ ← put_data (<[rreg_mailbox registration := {|
      rrec_target_url := trim_end_slashes (rreg_target_url registration);
      rrec_transport_public_key := rreg_transport_public_key registration
    |}]> routes);
  _ ← save_store saved;
  mret {| pack_mailbox := rreg_mailbox registration; pack_stored := true |}.

Definition relay_key (mailbox : string) : SR (Persisted RelayDisk) ApiError (list byte) :=
  routes ← get_data;
  route ← lift (ok_or ((routes : RelayDisk) !! mailbox) (not_found "unknown mailbox"));
  mret (rrec_transport_public_key route).

(** The address that [relay_forward], [relay_forward_v3] and
    [relay_forward_recovery_v3] post to, with the path of each. *)
Definition relay_target (path mailbox : string) : SR (Persisted RelayDisk) ApiError string :=
  routes ← get_data;
  route ← lift (ok_or ((routes : RelayDisk) !! mailbox) (not_found "unknown mailbox"));
  mret (rrec_target_url route +:+ path +:+ mailbox).

Definition config_get (config_id : string) :
    SR (Persisted ConfigDisk) ApiError ConfigCapsule :=
  capsules ← get_data;
  lift (ok_or ((capsules : ConfigDisk) !! config_id)
    (not_found "Config Capsule was not found")).

Definition config_put (admin_token : string) (bearer : option string) (saved : SaveOutcome)
    (config_id : string) (capsule : ConfigCapsule) :
    SR (Persisted ConfigDisk) ApiError ProvisionAck :=
  _ ← lift (fail_if (unauthorised admin_token bearer)
    (forbidden "invalid config-store write token"));
  _ ← refuse_if (hex_encode (cap_config_id capsule) !=? config_id)%mr
    "config id path/body mismatch";
  capsules ← get_data;
  _ ← refuse_if (bool_decide (is_Some (capsules !! config_id)))
    "protocol-v2 Config Capsules are immutable; rotation uses protocol-v3 witnesses";
  _ ← put_data (<[config_id := capsule]> capsules);
  _ ← save_store saved;
  _ ← log_mailbox config_id;
  mret {| pack_mailbox := config_id; pack_stored := true |}.

End stores.
