(* ===== verification/SignerNode.v ===== *)
(** A version-2 signer node: the /v1 handlers of a signer in
    crates/gp-network/src/server.rs. *)

From S2P Require Export Mailbox.

Module SignerNode.

(** The version-2 part of [SignerDisk]. *)
Record SignerDisk : Set := mkSignerDisk {
  sd_entries : gmap string Signer.SignerState;
  sd_last_approval_at : gmap string u64
}.

Section signer.
Context `{Prims : Primitives} `{Sharing : SharingPrimitives}.
Context `{Protocol : ProtocolPrimitives} `{Mailbox : MailboxPrimitives}.

Abbreviation Step A := (SR (Persisted SignerDisk) ApiError A).

Definition validate_signer_request (signer : Signer.SignerState) (request : RecoveryRequest)
    (now : u64) : Result Error () :=
  fail_if ((rr_protocol_version request !=? PROTOCOL_VERSION)
    || (rr_config_id request !=? sp_config_id (Signer.ss_policy signer))
    || (rr_config_version request !=? sp_config_version (Signer.ss_policy signer))
    || (len (rr_recovery_recipient_key request) !=? XWING_PUBLIC_KEY_LEN)
    || (now <? rr_requested_at request)
    || (rr_expiry request <=? now))%mr
    (Msg "signer rejected stale, expired, or malformed RecoveryRequest").

Definition signer_provision (identity : IdentityDisk) (admin_token : string)
    (bearer : option string) (saved : SaveOutcome) (body : SealedMailboxBody) :
    Step ProvisionAck :=
  _ ← lift (fail_if (unauthorised admin_token bearer)
    (forbidden "invalid node provisioning token"));
  payload ← error_ok (open_provision identity "signer" (smb_sealed body));
  signer ← lift match payload with
    | ProvisionSigner signer => Ok signer
    | _ => Err (bad_request (Text "wrong provisioning role"))
    end;
  mailbox ← error_ok (mailbox_id (Signer.ss_mailbox signer));
  store ← get_data;
  _ ← refuse_if (bool_decide (is_Some (sd_entries store !! mailbox)))
    "signer mailbox is already provisioned";
  _ ← put_data {| sd_entries := <[mailbox := signer]> (sd_entries store);
                  sd_last_approval_at := sd_last_approval_at store |};
  _ ← save_store saved;
  mret {| pack_mailbox := mailbox; pack_stored := true |}.

(** The contribution of an approval, with its signature. *)
Definition contribution_of (signer : Signer.SignerState) (request : RecoveryRequest)
    (encrypted_a_share : SealedMessage) (signature : list byte) : SignerContribution := {|
  sc_request := request;
  sc_signer_id := Signer.ss_signer_id signer;
  sc_signer_public_key := Signer.ss_signing_public_key signer;
  sc_signer_signature := signature;
  sc_signer_membership_proof := Signer.ss_membership_proof signer;
  sc_encrypted_a_share := encrypted_a_share
|}.

(** Sealing the share for the request and signing the approval. *)
Definition approve (signer : Signer.SignerState) (request : RecoveryRequest)
    (draws : Id32 * barr 24) : Result ApiError SignerContribution :=
  context ← map_err (λ e, bad_request (OfWire e))
    (recipient_share_context request (Signer.ss_signer_id signer));
  encrypted_a_share ← map_err (λ e, bad_request (OfCrypto e))
    (seal_to_recipient (rr_recovery_recipient_key request) draws.1 draws.2
      (Signer.ss_authorization_share signer) context);
  t ← map_err (λ e, bad_request (OfWire e))
    (signer_approval request (Signer.ss_signer_id signer) encrypted_a_share);
  Ok (contribution_of signer request encrypted_a_share
    (sign (signing_key (Signer.ss_signing_seed signer)) t)).

(** The vote of a release, with its signature. *)
Definition vote_of (signer : Signer.SignerState) (request : RecoveryRequest) (digest : Id32)
    (signature : list byte) : ReleaseVote := {|
  rv_protocol_version := PROTOCOL_VERSION;
  rv_config_id := rr_config_id request;
  rv_config_version := rr_config_version request;
  rv_request_id := rr_request_id request;
  rv_request_digest := digest;
  rv_recovery_recipient_key := rr_recovery_recipient_key request;
  rv_nonce := rr_nonce request;
  rv_signer_id := Signer.ss_signer_id signer;
  rv_signer_public_key := Signer.ss_signing_public_key signer;
  rv_signer_membership_proof := Signer.ss_membership_proof signer;
  rv_signer_signature := signature
|}.

Definition vote_release (signer : Signer.SignerState) (request : RecoveryRequest)
    (digest : Id32) : Result ApiError ReleaseVote :=
  _ ← fail_if (bool_decide
      (Signer.ss_seen_requests signer !! hex_encode (rr_request_id request) ≠ Some digest))
    (bad_request (Text "signer never approved this exact request"));
  t ← map_err (λ e, bad_request (OfWire e)) (release_vote (vote_of signer request digest []));
  Ok (vote_of signer request digest (sign (signing_key (Signer.ss_signing_seed signer)) t)).

(** Writing an entry back. *)
Definition put_signer (mailbox : string) (signer : Signer.SignerState) : Step () :=
  store ← get_data;
  put_data {| sd_entries := <[mailbox := signer]> (sd_entries store);
              sd_last_approval_at := sd_last_approval_at store |}.

(** What the node does with an opened request, under the lock. *)
Definition signer_action (mailbox : string) (action : MailboxRequest) (now : u64)
    (sur : Surroundings) : Step MailboxResponse :=
  let request := request_of action in
  store ← get_data;
  signer ← lift (ok_or (sd_entries store !! mailbox)
    (not_found "signer mailbox is not provisioned"));
  _ ← error_ok (validate_signer_request signer request now);
  _ ← match action with
      | MSignerApprove _ =>
          match sd_last_approval_at store !! mailbox with
          | Some last =>
              if (now <? sat_add last (U64 1))%mr then
                lift (Err (rate_limited
                  "signer mailbox accepts at most one approval request per second"))
              else mret ()
          | None => mret ()
          end;;
          put_data {| sd_entries := sd_entries store;
                      sd_last_approval_at := <[mailbox := now]> (sd_last_approval_at store) |}
      | _ => mret ()
      end;
  digest ← error_ok (request_digest request);
  response ← match action with
    | MSignerApprove _ =>
        let '(observed, signer') := Signer.observe_request hex_encode signer
          (rr_config_id request) (rr_config_version request) (rr_request_id request)
          (rr_nonce request) digest in
        _ ← put_signer mailbox signer';
        _ ← lift (map_err (λ e, bad_request (OfStorage e)) observed);
        contribution ← lift (approve signer' request (sur_share_draws sur));
        mret (MSignerContribution contribution)
    | MSignerRelease _ =>
        vote ← lift (vote_release signer request digest);
        mret (MReleaseVote vote)
    | _ => bad "request is not valid for a signer"
    end;
  _ ← save_store (sur_saved sur);
  _ ← log_mailbox mailbox;
  mret response.

Definition signer_mailbox (identity : IdentityDisk) (auto_approve : bool) (mailbox : string)
    (sur : Surroundings) (body : SealedMailboxBody) : Step SealedMailboxBody :=
  _ ← lift (fail_if (negb auto_approve)
    (forbidden "automatic social approval is disabled on this signer"));
  action ← error_ok (open_mailbox_request identity mailbox body);
  now ← wall_now (sur_wall sur);
  response ← signer_action mailbox action now sur;
  error_ok (seal_mailbox_response mailbox
    (rr_recovery_recipient_key (request_of action)) response (sur_envelope_draws sur)).

End signer.

End SignerNode.
