(* ===== verification/GuardianNode.v ===== *)
(** A version-2 guardian node: the /v1 handlers of a guardian in
    crates/gp-network/src/server.rs, with their data of
    crates/gp-network/src/types.rs. *)

From S2P Require Export Mailbox.

Module GuardianNode.

Record PendingNetworkRecovery : Set := mkPendingNetworkRecovery {
  pnr_request : RecoveryRequest;
  pnr_request_digest : Id32;
  pnr_accepted_wall_time : u64;
  pnr_started_monotonic : u64;
  pnr_not_before_monotonic : u64;
  pnr_boot_id : string
}.

Record GuardianEntry : Set := mkGuardianEntry {
  ge_provision : GuardianProvision;
  ge_pending : gmap string PendingNetworkRecovery;
  ge_cancelled : gmap string Id32;
  ge_released : gmap string Id32;
  ge_seen_nonces : gset Id32
}.

(** The version-2 part of [GuardianDisk]. *)
Abbreviation GuardianDisk := (gmap string GuardianEntry).

(** [GuardianEntry::new]. *)
Definition new (provision : GuardianProvision) : GuardianEntry := {|
  ge_provision := provision;
  ge_pending := ∅;
  ge_cancelled := ∅;
  ge_released := ∅;
  ge_seen_nonces := ∅
|}.

Section guardian.
Context `{Prims : Primitives} `{Sharing : SharingPrimitives}.
Context `{Protocol : ProtocolPrimitives} `{Mailbox : MailboxPrimitives}.

Abbreviation Step A := (SR (Persisted GuardianDisk) ApiError A).

Definition guardian_provision (identity : IdentityDisk) (admin_token : string)
    (bearer : option string) (allow_insecure_demo_delay : bool) (saved : SaveOutcome)
    (body : SealedMailboxBody) : Step ProvisionAck :=
  _ ← lift (fail_if (unauthorised admin_token bearer)
    (forbidden "invalid node provisioning token"));
  payload ← error_ok (open_provision identity "guardian" (smb_sealed body));
  provision ← lift match payload with
    | ProvisionGuardian provision => Ok provision
    | _ => Err (bad_request (Text "wrong provisioning role"))
    end;
  _ ← lift (fail_if ((gpol_minimum_recovery_delay (grec_policy (gprov_record provision))
                        <? PRODUCTION_MIN_DELAY_SECS)%mr && negb allow_insecure_demo_delay)
    (forbidden "guardian refuses a delay below 24 hours outside explicit demo mode"));
  mailbox ← error_ok (mailbox_id (gprov_mailbox provision));
  store ← get_data;
  _ ← refuse_if (bool_decide (is_Some ((store : GuardianDisk) !! mailbox)))
    "guardian mailbox is already provisioned";
  _ ← put_data (<[mailbox := new provision]> store);
  _ ← save_store saved;
  mret {| pack_mailbox := mailbox; pack_stored := true |}.

(** ** One request, on the entry of its mailbox

    The entry is changed in place: a step that stops keeps what was done
    before. *)

Abbreviation OnEntry A := (SR GuardianEntry ApiError A).

Definition core_ok {A} (r : Result CoreError A) : OnEntry A :=
  lift (map_err (λ e, bad_request (OfCore e)) r).

Definition policy_of (entry : GuardianEntry) : GuardianPolicy :=
  grec_policy (gprov_record (ge_provision entry)).

Definition with_seen_nonces (entry : GuardianEntry) (nonces : gset Id32) : GuardianEntry := {|
  ge_provision := ge_provision entry;
  ge_pending := ge_pending entry;
  ge_cancelled := ge_cancelled entry;
  ge_released := ge_released entry;
  ge_seen_nonces := nonces
|}.
Definition with_pending (entry : GuardianEntry) (key : string)
    (pending : PendingNetworkRecovery) : GuardianEntry := {|
  ge_provision := ge_provision entry;
  ge_pending := <[key := pending]> (ge_pending entry);
  ge_cancelled := ge_cancelled entry;
  ge_released := ge_released entry;
  ge_seen_nonces := ge_seen_nonces entry
|}.
Definition with_cancelled (entry : GuardianEntry) (key : string) (digest : Id32) :
    GuardianEntry := {|
  ge_provision := ge_provision entry;
  ge_pending := ge_pending entry;
  ge_cancelled := <[key := digest]> (ge_cancelled entry);
  ge_released := ge_released entry;
  ge_seen_nonces := ge_seen_nonces entry
|}.
Definition with_released (entry : GuardianEntry) (key : string) (digest : Id32) :
    GuardianEntry := {|
  ge_provision := ge_provision entry;
  ge_pending := ge_pending entry;
  ge_cancelled := ge_cancelled entry;
  ge_released := <[key := digest]> (ge_released entry);
  ge_seen_nonces := ge_seen_nonces entry
|}.

(** The machine a handler makes anew for one decision. *)
Definition machine_for (policy : GuardianPolicy) : Guardian.GuardianMachine :=
  Guardian.new (gpol_config_id policy) (gpol_config_version policy).

Definition begin_action (certificate : BeginRecoveryCertificate) (digest : Id32) (key : string)
    (wall monotonic : u64) (boot : string) : OnEntry MailboxResponse :=
  entry ← get;
  let policy := policy_of entry in
  let request := brc_request certificate in
  _ ← error_ok (validate_begin_for_policy certificate policy wall);
  _ ← refuse_if (bool_decide (ge_cancelled entry !! key = Some digest))
    "request was permanently cancelled";
  _ ← refuse_if (bool_decide (is_Some (ge_pending entry !! key))
      || bool_decide (rr_nonce request ∈ ge_seen_nonces entry))
    "replayed request id or nonce";
  _ ← put (with_seen_nonces entry ({[rr_nonce request]} ∪ ge_seen_nonces entry));
  not_before ← core_ok (Guardian.begin_at (machine_for policy) request digest wall monotonic
    (gpol_minimum_recovery_delay policy) true).1;
  entry ← get;
  _ ← put (with_pending entry key {|
      pnr_request := request;
      pnr_request_digest := digest;
      pnr_accepted_wall_time := wall;
      pnr_started_monotonic := monotonic;
      pnr_not_before_monotonic := not_before;
      pnr_boot_id := boot
    |});
  mret (MBeginAccepted not_before).

(** The acknowledgement of a cancellation, with its signature. *)
Definition cancel_ack (request : RecoveryRequest) (digest transcript_digest : Id32)
    (guardian_index : u16) (signature : list byte) : OwnerCancelAck := {|
  oca_protocol_version := PROTOCOL_VERSION;
  oca_config_id := rr_config_id request;
  oca_config_version := rr_config_version request;
  oca_request_id := rr_request_id request;
  oca_request_digest := digest;
  oca_owner_cancel_transcript_digest := transcript_digest;
  oca_guardian_index := guardian_index;
  oca_guardian_signature := signature
|}.

Definition cancel_action (request : RecoveryRequest) (certificate : OwnerCancelCertificate)
    (digest : Id32) (key : string) (wall : u64) : OnEntry MailboxResponse :=
  entry ← get;
  _ ← error_ok (validate_owner_cancel_for_policy certificate (policy_of entry) request wall);
  _ ← refuse_if (bool_decide (ge_released entry !! key = Some digest))
    "guardian already released material for this request";
  _ ← refuse_if match ge_cancelled entry !! key with
      | Some stored => bool_decide (stored ≠ digest)
      | None => false
      end "cancellation digest conflict";
  _ ← put (with_cancelled entry key digest);
  transcript ← wire_ok (owner_cancel certificate);
  let provision := ge_provision entry in
  let ack := cancel_ack request digest (sha256 transcript)
    (grec_guardian_index (gprov_record provision)) in
  t ← wire_ok (owner_cancel_ack (ack []));
  mret (MCancellationAccepted (ack (sign (signing_key (gprov_signing_seed provision)) t))).

(** The guardian's contribution, still unsigned. *)
Definition contribution_for (record : GuardianRecord) (request : RecoveryRequest)
    (digest : Id32) (ciphertext_fragment : list byte) : GuardianContribution := {|
  gc_protocol_version := PROTOCOL_VERSION;
  gc_config_id := rr_config_id request;
  gc_config_version := rr_config_version request;
  gc_request_id := rr_request_id request;
  gc_request_digest := digest;
  gc_guardian_index := grec_guardian_index record;
  gc_ciphertext_fragment := ciphertext_fragment;
  gc_encrypted_dek_share := grec_encrypted_dek_share record;
  gc_merkle_path_proof := grec_merkle_path_proof record;
  gc_guardian_signature := []
|}.

(** [if let Some(byte) = fragment.first_mut() { *byte ^= 1 }]. *)
Definition corrupt (fragment : list byte) : list byte :=
  match fragment with
  | [] => []
  | byte :: fragment => byte_of_N (N.lxor (Byte.to_N byte) 1) :: fragment
  end.

Definition release_action (corrupt_contribution : bool) (request : RecoveryRequest)
    (certificate : ReleaseCertificate) (digest : Id32) (key : string) (wall monotonic : u64)
    (boot : string) : OnEntry MailboxResponse :=
  entry ← get;
  let policy := policy_of entry in
  _ ← error_ok (validate_release_for_policy certificate policy request wall);
  pending ← some_or (ge_pending entry !! key) "Begin was not observed";
  _ ← refuse_if (bool_decide (pnr_boot_id pending ≠ boot))
    "guardian rebooted during delay and fails closed";
  let '(begun, machine) := Guardian.begin_at (machine_for policy) (pnr_request pending)
    (pnr_request_digest pending) (pnr_accepted_wall_time pending)
    (pnr_started_monotonic pending) (gpol_minimum_recovery_delay policy) true in
  _ ← core_ok begun;
  _ ← core_ok (Guardian.authorize_release_at machine (rr_request_id request) digest wall
    monotonic true true).1;
  let record := gprov_record (ge_provision entry) in
  let fragment := grec_ciphertext_fragment record in
  contribution ← error_ok (sign_guardian_contribution
    (contribution_for record request digest
      (if corrupt_contribution then corrupt fragment else fragment))
    (gprov_signing_seed (ge_provision entry)));
  _ ← put (with_released entry key digest);
  mret (MGuardianContribution contribution).

Definition entry_action (corrupt_contribution : bool) (action : MailboxRequest)
    (digest : Id32) (key : string) (wall monotonic : u64) (boot : string) :
    OnEntry MailboxResponse :=
  match action with
  | MGuardianBegin certificate => begin_action certificate digest key wall monotonic boot
  | MGuardianCancel request certificate =>
      cancel_action request certificate digest key wall
  | MGuardianRelease request certificate =>
      entry ← get;
      if bool_decide (ge_cancelled entry !! key = Some digest)
      then mret (MReleaseRefused "cancelled")
      else release_action corrupt_contribution request certificate digest key wall monotonic
             boot
  | _ => bad "request is not valid for a guardian"
  end.

(** ** The handler *)

(** Running the code of an entry on the entry in the store. *)
Definition on_entry {A} (mailbox : string) (body : OnEntry A) : Step A := λ s,
  match data s !! mailbox with
  | None => (Err (not_found "guardian mailbox is not provisioned"), s)
  | Some entry =>
      let '(r, entry) := body entry in
      (r, mkPersisted (<[mailbox := entry]> (data s)) (file s))
  end.

Definition response_recipient_key (action : MailboxRequest) : list byte :=
  match action with
  | MGuardianCancel _ certificate => occ_cancel_response_recipient_key certificate
  | _ => rr_recovery_recipient_key (request_of action)
  end.

(** What the node does with an opened request. *)
Definition guardian_action (corrupt_contribution : bool) (mailbox : string)
    (action : MailboxRequest) (sur : Surroundings) : Step MailboxResponse :=
  let request := request_of action in
  wall ← wall_now (sur_wall sur);
  monotonic ← wall_now (sur_monotonic sur);
  digest ← error_ok (request_digest request);
  let key := hex_encode (rr_request_id request) in
  response ← on_entry mailbox (entry_action corrupt_contribution action digest key wall
    monotonic (sur_boot sur));
  _ ← save_store (sur_saved sur);
  _ ← log_mailbox mailbox;
  mret response.

Definition guardian_mailbox (identity : IdentityDisk) (corrupt_contribution : bool)
    (mailbox : string) (sur : Surroundings) (body : SealedMailboxBody) :
    Step SealedMailboxBody :=
  action ← error_ok (open_mailbox_request identity mailbox body);
  response ← guardian_action corrupt_contribution mailbox action sur;
  error_ok (seal_mailbox_response mailbox (response_recipient_key action) response
    (sur_envelope_draws sur)).

End guardian.

End GuardianNode.
