(* ===== verification/RecoveryScenario.v ===== *)
(** A small version-2 configuration on which setup, the nodes and the client
    are run: three signers of which two are needed, two guardians that are both
    needed.

    The random generator is a counter, and the JSON of a descriptor is known
    for the one descriptor of the configuration.  Nothing here models code; the
    statements of the other files are evaluated on it. *)

From S2P Require Export SharingScenario SignerNode GuardianNode.

Module RecoveryScenario.
Export SharingScenario.

Definition draw (n : nat) (counter : N) : barr n := brep n (byte_of_N counter).

(** The generator, with the JSON of [d]. *)
Definition protocol_of (d : option RecoveryDescriptor) : ProtocolPrimitives := {|
  Rng := N;
  rng_fill := λ n counter, (draw n counter, (counter + 1)%N);
  descriptor_to_vec := λ descriptor,
    if decide (d = None ∨ d = Some descriptor) then Some [x00] else None;
  descriptor_from_slice := λ bytes, if bool_decide (bytes = [x00]) then d else None;
  hex_encode := hex
|}.

Definition secret : list byte := as_bytes "correct horse".
Definition policy : SetupPolicy := {|
  setup_signer_count := U16 3;
  setup_signer_threshold := U16 2;
  setup_guardian_count := U16 2;
  setup_guardian_threshold := U16 2;
  setup_minimum_recovery_delay := U64 5
|}.

Definition mailbox_name (n : N) : string := hex (id n).
Definition mailbox_at (n : N) : string := "https://relay/v1/mailboxes/" +:+ mailbox_name n.
Definition signer_boxes : list string := mailbox_at <$> [101; 102; 103]%N.
Definition guardian_boxes : list string := mailbox_at <$> [111; 112]%N.
Definition relays : list string := ["https://relay/"%string].
Definition stores : list string := ["https://config"%string].

Definition setup_with (d : option RecoveryDescriptor) : Result Error SetupBundle * N :=
  create_setup (Protocol := protocol_of d) secret policy signer_boxes guardian_boxes stores
    relays 1%N.

Definition no_bundle : SetupBundle := {|
  sb_capsule := {|
    cap_protocol_version := PROTOCOL_VERSION;
    cap_crypto_suite := CryptoSuite_default;
    cap_config_id := id 0;
    cap_config_version := U64 0;
    cap_signer_count := U16 0;
    cap_signer_threshold := U16 0;
    cap_guardian_count := U16 0;
    cap_guardian_threshold := U16 0;
    cap_minimum_recovery_delay := U64 0;
    cap_signer_set_commitment := id 0;
    cap_owner_cancel_public_key := id 0;
    cap_guardian_material_commitment := id 0;
    cap_encrypted_recovery_descriptor :=
      {| aead_nonce := brep 24 x00; aead_ciphertext := [] |};
    cap_max_request_lifetime := U64 0
  |};
  sb_card := {|
    card_config_id := id 0;
    card_capsule_locators := [];
    card_capsule_locator := None;
    card_signer_mailboxes := [];
    card_relay_bases := [];
    card_signer_set_commitment := id 0;
    card_owner_cancel_public_key := id 0
  |};
  sb_signers := [];
  sb_guardians := [];
  sb_owner_cancel_signing_seed := [];
  sb_owner_guardian_routes := []
|}.

Definition bundle_of (r : Result Error SetupBundle * N) : SetupBundle :=
  match r.1 with Ok bundle => bundle | Err _ => no_bundle end.

(** The descriptor that setup makes, and its JSON in the configuration. *)
Definition descriptor : RecoveryDescriptor := Eval vm_compute in
  let bundle := bundle_of (setup_with None) in {|
    rd_guardians := sb_owner_guardian_routes bundle;
    rd_guardian_material_root := cap_guardian_material_commitment (sb_capsule bundle);
    rd_data_shards := U16 2;
    rd_total_shards := U16 2;
    rd_ciphertext_len := U64 (32 + len secret);
    rd_payload_nonce := draw 24 9
  |}.
#[export] Instance toy_protocol : ProtocolPrimitives := protocol_of (Some descriptor).

Definition bundle : SetupBundle := Eval vm_compute in bundle_of (setup_with (Some descriptor)).
Definition capsule : ConfigCapsule := sb_capsule bundle.

Example setup_ok : setup_with (Some descriptor) = (Ok bundle, 18%N).
Proof. by vm_compute. Qed.

(** ** A recovery *)

Definition client_seed : Id32 := id 40.
Definition client_keys : RecipientKeyPair := RecipientKeyPair_from_seed client_seed.

Definition request_number (i nonce : N) : RecoveryRequest := {|
  rr_protocol_version := PROTOCOL_VERSION;
  rr_crypto_suite := CryptoSuite_default;
  rr_config_id := cap_config_id capsule;
  rr_config_version := cap_config_version capsule;
  rr_request_id := id i;
  rr_recovery_recipient_key := rkp_public client_keys;
  rr_requested_at := U64 100;
  rr_nonce := id nonce;
  rr_expiry := U64 1000
|}.
Definition request : RecoveryRequest := request_number 41 42.

Definition the_digest : Id32 := Eval vm_compute in
  match request_digest request with Ok d => d | Err _ => id 0 end.

Definition all_ok {A B} (f : A → Result ApiError B) (l : list A) : list B :=
  omap (λ a, match f a with Ok b => Some b | Err _ => None end) l.

Definition draws : Id32 * barr 24 := (id 43, brep 24 x00).

Definition contributions (request : RecoveryRequest) : list SignerContribution :=
  all_ok (λ s, SignerNode.approve s request draws) (sb_signers bundle).
Definition begin_for (request : RecoveryRequest) : BeginRecoveryCertificate := {|
  brc_request := request;
  brc_signer_contributions := take 2 (contributions request)
|}.
Definition begin_certificate : BeginRecoveryCertificate :=
  Eval vm_compute in begin_for request.

Example begin_valid guardian :
  sb_guardians bundle !! 0 = Some guardian →
  validate_begin_for_policy begin_certificate (grec_policy (gprov_record guardian)) (U64 200)
    = Ok ().
Proof. intros [= <-]. by vm_compute. Qed.

(** The signers vote for what they have seen. *)
Definition seen_by (s : Signer.SignerState) : Signer.SignerState :=
  (Signer.observe_request hex_encode s (rr_config_id request) (rr_config_version request)
    (rr_request_id request) (rr_nonce request) the_digest).2.
Definition release_certificate : ReleaseCertificate := Eval vm_compute in {|
  rc_votes := all_ok (λ s, SignerNode.vote_release (seen_by s) request the_digest)
    (drop 1 (sb_signers bundle))
|}.

Definition cancel_certificate : OwnerCancelCertificate := Eval vm_compute in
  match make_owner_cancel_certificate request (default (id 0) (try_barr 32
    (sb_owner_cancel_signing_seed bundle))) (rkp_public client_keys) (U16 1) (U64 150) with
  | Ok certificate => certificate
  | Err _ => {|
      occ_protocol_version := PROTOCOL_VERSION; occ_config_id := id 0;
      occ_config_version := U64 0; occ_request_id := id 0; occ_request_digest := id 0;
      occ_recovery_recipient_key := []; occ_cancel_response_recipient_key := [];
      occ_reason_code := U16 0; occ_nonce := id 0; occ_issued_at := U64 0;
      occ_owner_cancel_public_key := id 0; occ_owner_signature := [] |}
  end.

End RecoveryScenario.
