(* ===== verification/GuardianProps.v ===== *)
(** What a version-2 guardian node does over its whole life: from an empty
    store, through provisioning, requests, failed writes and restarts. *)

From S2P Require Export GuardianNode.
From S2P Require Import RecoveryScenario.
Export GuardianNode.

Section node.
Context `{Prims : Primitives} `{Sharing : SharingPrimitives}.
Context `{Protocol : ProtocolPrimitives} `{Mailbox : MailboxPrimitives}.
Context (identity : IdentityDisk) (corrupt_contribution : bool).

(** ** Histories *)

(** A request is given opened: [guardian_mailbox] is [guardian_action] between
    opening the request and sealing the answer. *)
Inductive Op : Set :=
| OpProvision (admin_token : string) (bearer : option string) (allow_insecure : bool)
    (saved : SaveOutcome) (body : SealedMailboxBody)
| OpRequest (mailbox : string) (action : MailboxRequest) (sur : Surroundings)
| OpRestart.

Definition serve (op : Op) (s : Persisted GuardianDisk) :
    Result ApiError (option MailboxResponse) * Persisted GuardianDisk :=
  match op with
  | OpProvision token bearer allow saved body =>
      let '(r, s) := guardian_provision identity token bearer allow saved body s in
      ((λ _, None) <$> r, s)
  | OpRequest mailbox action sur =>
      let '(r, s) := guardian_action corrupt_contribution mailbox action sur s in
      (Some <$> r, s)
  | OpRestart => (Ok None, reload s)
  end.

Abbreviation History := (list (Op * Result ApiError (option MailboxResponse))).

(** The node's state after a history, the newest call first. *)
Inductive ran : History → Persisted GuardianDisk → Prop :=
| ran_start : ran [] (mkPersisted ∅ ∅)
| ran_step h s op r s' : ran h s → serve op s = (r, s') → ran ((op, r) :: h) s'.

(** ** What a request can change *)

(** An entry only gains records. *)
Definition grows (e e' : GuardianEntry) : Prop :=
  ge_provision e' = ge_provision e ∧ ge_pending e ⊆ ge_pending e'
  ∧ ge_cancelled e ⊆ ge_cancelled e' ∧ ge_seen_nonces e ⊆ ge_seen_nonces e'.

Lemma grows_refl e : grows e e.
Proof. by split_and!. Qed.

#[local] Hint Resolve grows_refl : core.

Lemma grows_trans e1 e2 e3 : grows e1 e2 → grows e2 e3 → grows e1 e3.
Proof.
  intros (E1 & P1 & C1 & N1) (E2 & P2 & C2 & N2).
  split_and!; [congruence | by etrans | by etrans | by etrans].
Qed.

(** A Begin that was recorded as [p]. *)
Definition begun (policy : GuardianPolicy) (certificate : BeginRecoveryCertificate)
    (wall monotonic : u64) (boot : string) (p : PendingNetworkRecovery) : Prop :=
  validate_begin_for_policy certificate policy wall = Ok ()
  ∧ pnr_request p = brc_request certificate
  ∧ request_digest (brc_request certificate) = Ok (pnr_request_digest p)
  ∧ pnr_accepted_wall_time p = wall ∧ pnr_started_monotonic p = monotonic
  ∧ pnr_boot_id p = boot.

(** The conditions of a release of [request] by an entry holding [p]. *)
Definition releasable (e : GuardianEntry) (request : RecoveryRequest)
    (certificate : ReleaseCertificate) (digest : Id32) (key : string) (wall monotonic : u64)
    (boot : string) (p : PendingNetworkRecovery) : Prop :=
  ge_cancelled e !! key ≠ Some digest
  ∧ ge_pending e !! key = Some p
  ∧ validate_release_for_policy certificate (policy_of e) request wall = Ok ()
  ∧ pnr_boot_id p = boot
  ∧ rr_request_id (pnr_request p) = rr_request_id request
  ∧ pnr_request_digest p = digest
  ∧ (sat_add (pnr_started_monotonic p) (gpol_minimum_recovery_delay (policy_of e))
       <= monotonic)%N
  ∧ (wall < rr_expiry (pnr_request p))%N.

(** The outcome of a request on an entry. *)
Definition outcome (action : MailboxRequest) (digest : Id32) (key : string)
    (wall monotonic : u64) (boot : string) (e : GuardianEntry)
    (r : Result ApiError MailboxResponse) (e' : GuardianEntry) : Prop :=
  grows e e'
  ∧ (∀ k p, ge_pending e' !! k = Some p → ge_pending e !! k = Some p
       ∨ ∃ certificate, action = MGuardianBegin certificate ∧ k = key
           ∧ validate_begin_for_policy certificate (policy_of e) wall = Ok ()
           ∧ p = {| pnr_request := brc_request certificate;
                    pnr_request_digest := digest;
                    pnr_accepted_wall_time := wall;
                    pnr_started_monotonic := monotonic;
                    pnr_not_before_monotonic := pnr_not_before_monotonic p;
                    pnr_boot_id := boot |})
  ∧ ∀ response, r = Ok response →
      match response with
      | MBeginAccepted _ => ge_pending e !! key = None ∧ is_Some (ge_pending e' !! key)
          ∧ ¬ (rr_nonce (request_of action) ∈ ge_seen_nonces e)
          ∧ rr_nonce (request_of action) ∈ ge_seen_nonces e'
          ∧ ∃ certificate, action = MGuardianBegin certificate
      | MCancellationAccepted _ => ge_cancelled e' !! key = Some digest
          ∧ ∃ request certificate, action = MGuardianCancel request certificate
              ∧ validate_owner_cancel_for_policy certificate (policy_of e) request wall = Ok ()
      | MGuardianContribution _ => ∃ request certificate p,
          action = MGuardianRelease request certificate
          ∧ releasable e request certificate digest key wall monotonic boot p
      | _ => True
      end.

Lemma outcome_stopped action digest key wall monotonic boot e (x : ApiError) :
  outcome action digest key wall monotonic boot e (Err x) e.
Proof. split_and!; [done | by left | done]. Qed.

Lemma core_ok_inv {S A B} (c : Result CoreError A) (f : A → SR S ApiError B) (s : S) r s' :
  (lift (map_err (λ e, bad_request (OfCore e)) c) ≫= f) s = (r, s') →
  stopped r s s' ∨ ∃ a, c = Ok a ∧ f a s = (r, s').
Proof.
  intros [? | (a & ?%map_err_Ok & ?)]%lifted_inv; [by left | right; by exists a].
Qed.

Lemma begin_outcome certificate digest key wall monotonic boot e r e' :
  begin_action certificate digest key wall monotonic boot e = (r, e') →
  outcome (MGuardianBegin certificate) digest key wall monotonic boot e r e'.
Proof.
  unfold begin_action. intros H. change ((get ≫= ?f) e) with (f e e) in H. cbv beta zeta in H.
  assert (Hst : stopped r e e' →
    outcome (MGuardianBegin certificate) digest key wall monotonic boot e r e')
    by (intros [[x ->] ->]; apply outcome_stopped).
  apply error_ok_inv in H as [H | ([] & Hv & H)]; [by apply Hst |].
  apply refuse_if_inv in H as [H | [_ H]]; [by apply Hst |].
  apply refuse_if_inv in H as [H | [Hf H]]; [by apply Hst |].
  apply orb_false_iff in Hf as [Hp%bool_decide_eq_false Hn%bool_decide_eq_false].
  apply eq_None_not_Some in Hp.
  change ((put ?x ≫= ?f) e) with (f () x) in H. cbv beta in H. clear Hst.
  set (e1 := with_seen_nonces e ({[rr_nonce (brc_request certificate)]} ∪ ge_seen_nonces e)) in *.
  assert (Hg1 : grows e e1) by (split_and!; [done | done | done | simpl; set_solver]).
  apply core_ok_inv in H as [[[x ->] ->] | (nb & _ & H)].
  { split_and!; [done | by left | done]. }
  change ((get ≫= ?f) e1) with (f e1 e1) in H. cbv beta zeta in H.
  change ((put ?x ≫= ?f) e1) with (f () x) in H. cbv beta in H.
  injection H as <- <-. split_and!.
  - split_and!; simpl; [done | by apply insert_subseteq | done | set_solver].
  - intros k p. simpl. intros [[<- <-] | [_ Hk]]%lookup_insert_Some; [right | by left].
    by exists certificate.
  - intros response [= <-]. simpl. rewrite lookup_insert_eq.
    split_and!; [done | by eexists | done | set_solver | by eexists].
Qed.

Lemma cancel_outcome request certificate digest key wall monotonic boot e r e' :
  cancel_action request certificate digest key wall e = (r, e') →
  outcome (MGuardianCancel request certificate) digest key wall monotonic boot e r e'.
Proof.
  unfold cancel_action. intros H. change ((get ≫= ?f) e) with (f e e) in H. cbv beta zeta in H.
  assert (Hst : stopped r e e' →
    outcome (MGuardianCancel request certificate) digest key wall monotonic boot e r e')
    by (intros [[x ->] ->]; apply outcome_stopped).
  apply error_ok_inv in H as [H | ([] & Hv & H)]; [by apply Hst |].
  apply refuse_if_inv in H as [H | [_ H]]; [by apply Hst |].
  apply refuse_if_inv in H as [H | [Hc H]]; [by apply Hst |].
  change ((put ?x ≫= ?f) e) with (f () x) in H. cbv beta in H. clear Hst.
  assert (Hg : grows e (with_cancelled e key digest)).
  { split_and!; simpl; [done | done | | done].
    destruct (ge_cancelled e !! key) as [stored |] eqn:E; [| by apply insert_subseteq].
    rewrite neb_false in Hc. subst stored. by rewrite insert_id. }
  assert (Herr : stopped r (with_cancelled e key digest) e' →
    outcome (MGuardianCancel request certificate) digest key wall monotonic boot e r e').
  { intros [[x ->] ->]. split_and!; [done | by left | done]. }
  apply wire_ok_inv in H as [H | (t & _ & H)]; [by apply Herr |].
  apply wire_ok_inv in H as [H | (t' & _ & H)]; [by apply Herr |].
  injection H as <- <-. split_and!; [done | by left |].
  intros response [= <-]. simpl. split; [apply lookup_insert_eq |].
  by exists request, certificate.
Qed.

(** What the fresh machine of a release decides. *)
Lemma fresh_machine_release policy p id digest wall monotonic nb machine :
  Guardian.begin_at (machine_for policy) (pnr_request p) (pnr_request_digest p)
    (pnr_accepted_wall_time p) (pnr_started_monotonic p) (gpol_minimum_recovery_delay policy)
    true = (Ok nb, machine) →
  (Guardian.authorize_release_at machine id digest wall monotonic true true).1 = Ok () →
  rr_request_id (pnr_request p) = id ∧ pnr_request_digest p = digest
  ∧ (sat_add (pnr_started_monotonic p) (gpol_minimum_recovery_delay policy) <= monotonic)%N
  ∧ (wall < rr_expiry (pnr_request p))%N.
Proof.
  unfold Guardian.begin_at. destruct (Guardian.validate_request _ _); [| done]. simpl negb.
  cbv iota. destruct (_ <? _)%mr; [done |]. destruct (_ <=? _)%mr; [done |].
  unfold machine_for, Guardian.new. cbn [Guardian.gm_cancelled Guardian.gm_pending
    Guardian.gm_seen Guardian.gm_seen_nonces]. rewrite lookup_empty.
  rewrite !bool_decide_eq_false_2 by set_solver. cbn [orb].
  set (nb' := sat_add _ _). intros [= _ <-].
  unfold Guardian.authorize_release_at. cbn [Guardian.gm_cancelled Guardian.gm_pending negb orb].
  rewrite lookup_empty.
  destruct (decide (rr_request_id (pnr_request p) = id)) as [<- | Hne];
    [| by rewrite lookup_insert_ne, lookup_empty by done].
  rewrite lookup_insert_eq. cbv zeta. cbn [Guardian.gp_request_digest Guardian.begun].
  case_bool_decide as Hd; [done |].
  destruct (_ <=? _)%mr eqn:He; [done |]. destruct (_ <? _)%mr eqn:Hn; [done |]. intros _.
  apply N.leb_gt in He. apply N.ltb_ge in Hn. by split_and!.
Qed.

Lemma release_outcome request certificate digest key wall monotonic boot e r e' :
  ge_cancelled e !! key ≠ Some digest →
  release_action corrupt_contribution request certificate digest key wall monotonic boot e
    = (r, e') →
  outcome (MGuardianRelease request certificate) digest key wall monotonic boot e r e'.
Proof.
  intros Hnc. unfold release_action. intros H. change ((get ≫= ?f) e) with (f e e) in H.
  cbv beta zeta in H.
  assert (Hst : stopped r e e' →
    outcome (MGuardianRelease request certificate) digest key wall monotonic boot e r e')
    by (intros [[x ->] ->]; apply outcome_stopped).
  apply error_ok_inv in H as [H | ([] & Hv & H)]; [by apply Hst |].
  apply some_or_inv in H as [H | (p & Hp & H)]; [by apply Hst |].
  apply refuse_if_inv in H as [H | [Hb H]]; [by apply Hst |]. rewrite neb_false in Hb.
  destruct (Guardian.begin_at _ _ _ _ _ _ _) as [begun machine] eqn:Hm.
  apply core_ok_inv in H as [H | (nb & -> & H)]; [by apply Hst |].
  apply core_ok_inv in H as [H | ([] & Ha & H)]; [by apply Hst |].
  apply error_ok_inv in H as [H | (g & _ & H)]; [by apply Hst |].
  change ((put ?x ≫= ?f) e) with (f () x) in H. injection H as <- <-.
  destruct (fresh_machine_release _ _ _ _ _ _ _ _ Hm Ha) as (Hid & Hd & Ht & Hw).
  split_and!; [by split_and! | by left |].
  intros response [= <-]. exists request, certificate, p. split; [done |].
  unfold releasable. by split_and!.
Qed.

Lemma entry_outcome action digest key wall monotonic boot e r e' :
  entry_action corrupt_contribution action digest key wall monotonic boot e = (r, e') →
  outcome action digest key wall monotonic boot e r e'.
Proof.
  destruct action as [| |certificate | request certificate | request certificate]; simpl.
  - intros [= <- <-]. apply outcome_stopped.
  - intros [= <- <-]. apply outcome_stopped.
  - apply begin_outcome.
  - apply cancel_outcome.
  - change ((get ≫= ?f) e) with (f e e). cbv beta. case_bool_decide as Hc.
    + intros [= <- <-]. split_and!; [done | by left | by intros response [= <-]].
    + by apply release_outcome.
Qed.

(** ** The node *)

(** One request: it stops before the entry, or acts on it; an answer is given
    only when the store was written. *)
Lemma guardian_action_inv mailbox action sur s r s' :
  guardian_action corrupt_contribution mailbox action sur s = (r, s') →
  (s' = s ∧ ∃ e, r = Err e)
  ∨ ∃ wall monotonic digest e re e',
      sur_wall sur = Some wall ∧ sur_monotonic sur = Some monotonic
      ∧ request_digest (request_of action) = Ok digest
      ∧ data s !! mailbox = Some e
      ∧ outcome action digest (hex_encode (rr_request_id (request_of action))) wall monotonic
          (sur_boot sur) e re e'
      ∧ data s' = <[mailbox := e']> (data s)
      ∧ (file s' = file s ∨ file s' = data s')
      ∧ ∀ response, r = Ok response → re = Ok response ∧ file s' = data s'.
Proof.
  unfold guardian_action. cbv zeta. intros H.
  apply wall_now_inv in H as [H | (wall & Hw & H)]; [left; by destruct H |].
  apply wall_now_inv in H as [H | (monotonic & Hm & H)]; [left; by destruct H |].
  apply error_ok_inv in H as [H | (digest & Hd & H)]; [left; by destruct H |].
  unfold on_entry in H. unfold mbind at 1, SR_bind at 1 in H.
  destruct (data s !! mailbox) as [e |] eqn:Hs; [| injection H as <- <-; left; by eauto].
  destruct (entry_action _ _ _ _ _ _ _ e) as [re e'] eqn:He.
  apply entry_outcome in He. right. exists wall, monotonic, digest, e, re, e'.
  split_and!; [done | done | done | done | done | |..];
    destruct re as [response | x]; [| by injection H as <- <- | | injection H as <- <-; by left
      | | by injection H as <- <-];
    unfold mbind, SR_bind, save_store in H; destruct (sur_saved sur) as [| []]; simpl in H;
    unfold log_mailbox, lift in H; destruct (prefix_sliceable mailbox); simpl in H;
    injection H as <- <-; simpl; first [done | by left | by right].
Qed.

(** Provisioning adds an entry where there was none. *)
Lemma guardian_provision_inv token bearer allow saved body s r s' :
  guardian_provision identity token bearer allow saved body s = (r, s') →
  (s' = s ∧ ∃ e, r = Err e)
  ∨ ∃ mailbox provision, data s !! mailbox = None
      ∧ data s' = <[mailbox := new provision]> (data s)
      ∧ (file s' = file s ∨ file s' = data s').
Proof.
  unfold guardian_provision. intros H.
  apply lifted_inv in H as [H | (u & _ & H)]; [left; by destruct H |].
  apply error_ok_inv in H as [H | (payload & _ & H)]; [left; by destruct H |].
  apply lifted_inv in H as [H | (provision & _ & H)]; [left; by destruct H |].
  apply lifted_inv in H as [H | (u' & _ & H)]; [left; by destruct H |].
  apply error_ok_inv in H as [H | (mailbox & _ & H)]; [left; by destruct H |].
  change ((get_data ≫= ?f) s) with (f (data s) s) in H. cbv beta in H.
  apply refuse_if_inv in H as [H | [Hf H]]; [left; by destruct H |].
  apply bool_decide_eq_false, eq_None_not_Some in Hf.
  right. exists mailbox, provision. split; [done |].
  unfold put_data, save_store, mbind, SR_bind in H. destruct saved as [| []]; simpl in H;
    injection H as <- <-; split; simpl; auto.
Qed.

(** An entry found after a call, in memory or in the file, is one found before
    it, or new, or the outcome of the request. *)
Definition holds (s : Persisted GuardianDisk) (mailbox : string) (e : GuardianEntry) : Prop :=
  data s !! mailbox = Some e ∨ file s !! mailbox = Some e.

Lemma serve_holds op s r s' mailbox e' :
  serve op s = (r, s') → holds s' mailbox e' →
  holds s mailbox e'
  ∨ (∃ provision, e' = new provision)
  ∨ ∃ action sur wall monotonic digest e re, op = OpRequest mailbox action sur
      ∧ holds s mailbox e
      ∧ sur_wall sur = Some wall ∧ sur_monotonic sur = Some monotonic
      ∧ request_digest (request_of action) = Ok digest
      ∧ outcome action digest (hex_encode (rr_request_id (request_of action))) wall monotonic
          (sur_boot sur) e re e'.
Proof.
  intros H Hh. destruct op as [token bearer allow saved body | mailbox' action sur |].
  - simpl in H. destruct (guardian_provision _ _ _ _ _ _ _) as [r0 s0] eqn:E.
    injection H as _ <-. apply guardian_provision_inv in E
      as [[-> _] | (mailbox' & provision & _ & Hd & Hf)]; [by left |].
    assert (Hcase : data s0 !! mailbox = Some e' ∨ holds s mailbox e').
    { destruct Hh as [? | Hh]; [by left |].
      destruct Hf as [Hf | Hf]; rewrite Hf in Hh; [right; by right | by left]. }
    destruct Hcase as [Hd' |]; [| by left]. rewrite Hd in Hd'.
    apply lookup_insert_Some in Hd' as [[_ <-] | [_ ?]]; [right; left; by eexists | left; by left].
  - simpl in H. destruct (guardian_action _ _ _ _ _) as [r0 s0] eqn:E.
    injection H as _ <-. apply guardian_action_inv in E as [[-> _] |
      (wall & mono & digest & e & re & e1 & Hw & Hm & Hd & Hs & Ho & Hdata & Hf & _)];
      [by left |].
    assert (Hcase : data s0 !! mailbox = Some e' ∨ holds s mailbox e').
    { destruct Hh as [? | Hh]; [by left |].
      destruct Hf as [Hf | Hf]; rewrite Hf in Hh; [right; by right | by left]. }
    destruct Hcase as [Hd' |]; [| by left]. rewrite Hdata in Hd'.
    apply lookup_insert_Some in Hd' as [[<- <-] | [_ ?]]; [| left; by left].
    right; right. exists action, sur, wall, mono, digest, e, re.
    split_and!; [done | by left | done | done | done | done].
  - injection H as _ <-. left. destruct Hh; by right.
Qed.

(** What holds of an entry in memory and in the file, and is kept as entries
    grow, holds from then on, through restarts. *)
Definition durable (s : Persisted GuardianDisk) (mailbox : string) (P : GuardianEntry → Prop) :
    Prop :=
  (∃ e, data s !! mailbox = Some e ∧ P e) ∧ (∃ e, file s !! mailbox = Some e ∧ P e).

Lemma durable_serve op s r s' mailbox (P : GuardianEntry → Prop) :
  (∀ e e', grows e e' → P e → P e') → durable s mailbox P → serve op s = (r, s') →
  durable s' mailbox P.
Proof.
  intros HP [(e & Hd & He) (ef & Hf & Hef)] H.
  assert (Hmake : (∃ e', data s' !! mailbox = Some e' ∧ P e') →
    file s' = file s ∨ file s' = data s' → durable s' mailbox P).
  { intros Hd' Hor. split; [done |]. destruct Hor as [-> | ->]; [by exists ef | done]. }
  destruct op as [token bearer allow saved body | mailbox' action sur |].
  - simpl in H. destruct (guardian_provision _ _ _ _ _ _ _) as [r0 s0] eqn:E.
    injection H as _ <-. apply guardian_provision_inv in E
      as [[-> _] | (mailbox' & provision & Hn & Hdata & Hor)]; [split; by eauto |].
    apply Hmake; [| done]. exists e. split; [| done]. rewrite Hdata, lookup_insert_ne; [done |].
    congruence.
  - simpl in H. destruct (guardian_action _ _ _ _ _) as [r0 s0] eqn:E.
    injection H as _ <-. apply guardian_action_inv in E as [[-> _] |
      (wall & mono & digest & e0 & re & e1 & _ & _ & _ & Hs & [Hg _] & Hdata & Hor & _)];
      [split; by eauto |].
    apply Hmake; [| done]. rewrite Hdata.
    destruct (decide (mailbox' = mailbox)) as [-> |].
    + rewrite lookup_insert_eq. exists e1. split; [done |]. apply (HP e); [congruence | done].
    + rewrite lookup_insert_ne by done. by exists e.
  - injection H as _ <-. split; by exists ef.
Qed.

Lemma ran_app_durable h1 h2 s mailbox (P : GuardianEntry → Prop) :
  (∀ e e', grows e e' → P e → P e') →
  (∀ s1, ran h1 s1 → durable s1 mailbox P) → ran (h2 ++ h1) s → durable s mailbox P.
Proof.
  intros HP H1. revert s. induction h2 as [|[op r] h2 IH]; intros s Hr; [by apply H1 |].
  inversion Hr as [|h s0 op' r' s' Hr0 Hs]; subst. by eapply durable_serve; [| apply IH |].
Qed.

Lemma ran_split h2 op r h1 s :
  ran (h2 ++ (op, r) :: h1) s →
  ∃ s0 s1, ran h1 s0 ∧ serve op s0 = (r, s1) ∧ ran ((op, r) :: h1) s1.
Proof.
  revert s. induction h2 as [|[op' r'] h2 IH]; intros s Hr.
  - inversion Hr as [|h s0 op' r' s' Hr0 Hs]; subst. by exists s0, s.
  - inversion Hr as [|h s0 op0 r0 s' Hr0 Hs]; subst. by apply IH in Hr0.
Qed.

(** An answered request: the entry, the times and the outcome. *)
Lemma serve_answered mailbox action sur response s s' :
  serve (OpRequest mailbox action sur) s = (Ok (Some response), s') →
  ∃ wall monotonic digest e e',
    sur_wall sur = Some wall ∧ sur_monotonic sur = Some monotonic
    ∧ request_digest (request_of action) = Ok digest
    ∧ data s !! mailbox = Some e ∧ data s' !! mailbox = Some e' ∧ file s' = data s'
    ∧ outcome action digest (hex_encode (rr_request_id (request_of action))) wall monotonic
        (sur_boot sur) e (Ok response) e'.
Proof.
  simpl. destruct (guardian_action _ _ _ _ _) as [r0 s0] eqn:E. intros [= Hr <-].
  destruct r0 as [response0 |]; [| done]. injection Hr as ->.
  apply guardian_action_inv in E as [[_ [e He]] |
    (wall & mono & digest & e & re & e' & Hw & Hm & Hd & Hs & Ho & Hdata & _ & Hok)]; [done |].
  destruct (Hok response eq_refl) as [-> Hf]. exists wall, mono, digest, e, e'.
  rewrite Hdata, lookup_insert_eq. by split_and!; [.. | rewrite Hf, Hdata |].
Qed.

Lemma answered_durable mailbox action sur response h s (P : GuardianEntry → Prop) :
  (∀ digest wall monotonic e e', request_digest (request_of action) = Ok digest →
     outcome action digest (hex_encode (rr_request_id (request_of action))) wall monotonic
       (sur_boot sur) e (Ok response) e' → P e') →
  ran ((OpRequest mailbox action sur, Ok (Some response)) :: h) s → durable s mailbox P.
Proof.
  intros HP Hr. inversion Hr as [|h0 s0 op r s' Hr0 Hs]; subst.
  apply serve_answered in Hs as (wall & mono & digest & e & e' & _ & _ & Hd & _ & Hs' & Hf & Ho).
  assert (HPe : P e') by by eapply HP. split; exists e'; [done |]. by rewrite Hf.
Qed.

(** Where a recorded Begin comes from. *)
Definition begun_in (h : History) (mailbox : string) (e : GuardianEntry) (key : string)
    (p : PendingNetworkRecovery) : Prop :=
  ∃ certificate sur r, (OpRequest mailbox (MGuardianBegin certificate) sur, r) ∈ h
    ∧ sur_wall sur = Some (pnr_accepted_wall_time p)
    ∧ sur_monotonic sur = Some (pnr_started_monotonic p)
    ∧ sur_boot sur = pnr_boot_id p
    ∧ pnr_request p = brc_request certificate
    ∧ request_digest (brc_request certificate) = Ok (pnr_request_digest p)
    ∧ validate_begin_for_policy certificate (policy_of e) (pnr_accepted_wall_time p) = Ok ()
    ∧ key = hex_encode (rr_request_id (brc_request certificate)).

Lemma ran_begun h s mailbox e key p :
  ran h s → holds s mailbox e → ge_pending e !! key = Some p → begun_in h mailbox e key p.
Proof.
  intros Hr. revert e key p. induction Hr as [|h s op r s' Hr IH Hs]; intros e key p Hh Hp.
  { destruct Hh as [Hh | Hh]; simpl in Hh; by rewrite lookup_empty in Hh. }
  assert (Hold : ∀ e0, holds s mailbox e0 → policy_of e0 = policy_of e →
    ge_pending e0 !! key = Some p → begun_in ((op, r) :: h) mailbox e key p).
  { intros e0 Hh0 Hpol Hp0. destruct (IH e0 key p Hh0 Hp0) as (c & sur & r0 & Hin & H).
    rewrite Hpol in H. exists c, sur, r0. split; [by right | exact H]. }
  destruct (serve_holds _ _ _ _ _ _ Hs Hh) as [Hh0 | [[provision ->] |
    (action & sur & wall & mono & digest & e0 & re & -> & Hh0 & Hw & Hm & Hd & Hg & Hpend & _)]].
  - by apply (Hold e).
  - simpl in Hp. by rewrite lookup_empty in Hp.
  - assert (Hpol : policy_of e0 = policy_of e).
    { unfold policy_of. destruct Hg as [-> _]. done. }
    destruct (Hpend key p Hp) as [Hp0 | (c & -> & -> & Hv & Ep)]; [by apply (Hold e0) |].
    rewrite Hpol in Hv. exists c, sur, r. split; [by left |]. simpl in Hd.
    rewrite Ep. simpl. by split_and!.
Qed.

(** An acknowledged cancellation blocks the release of its request. *)
Lemma acked_cancel_blocks h2 h1 mailbox request certificate sur ack s certificate' sur'
    contribution s' :
  ran (h2 ++ (OpRequest mailbox (MGuardianCancel request certificate) sur,
    Ok (Some (MCancellationAccepted ack))) :: h1) s →
  serve (OpRequest mailbox (MGuardianRelease request certificate') sur') s
    ≠ (Ok (Some (MGuardianContribution contribution)), s').
Proof.
  intros Hr Hs.
  apply serve_answered in Hs as (wall & mono & digest & e & e' & _ & _ & Hd & He & _ & _ & _ & _ & Ho).
  destruct (Ho _ eq_refl) as (q & c & p & [= <- <-] & Hne & _). simpl in Hd, Hne.
  set (P := λ e, ge_cancelled e !! hex_encode (rr_request_id request) = Some digest).
  assert (Hdur : durable s mailbox P).
  { apply (ran_app_durable _ _ _ _ _) with (3 := Hr).
    - intros e1 e2 (_ & _ & Hsub & _) HP. unfold P in *. by eapply lookup_weaken.
    - intros s2 Hr2. apply (answered_durable _ _ _ _ _ _ P) with (2 := Hr2).
      intros digest' wall' mono' e1 e2 Hd' (_ & _ & Hc). unfold P.
      destruct (Hc _ eq_refl) as [Hcc _]. simpl in Hd', Hcc. congruence. }
  destruct Hdur as [(e1 & He1 & HP) _]. rewrite He in He1. injection He1 as <-. by apply Hne.
Qed.

(** ** Properties *)

(** C16 (safety): a cancellation a guardian has acknowledged is final: whatever
    happens afterwards, writes that fail and restarts included, it never again
    answers a release of that request with its material. *)
Theorem guardian_node_cancel_permanent h2 h1 mailbox request certificate sur ack s
    certificate' sur' contribution :
  ran (h2 ++ (OpRequest mailbox (MGuardianCancel request certificate) sur,
    Ok (Some (MCancellationAccepted ack))) :: h1) s →
  (OpRequest mailbox (MGuardianRelease request certificate') sur',
    Ok (Some (MGuardianContribution contribution))) ∉ h2.
Proof.
  intros Hr Hin. apply list_elem_of_split in Hin as (h3 & h4 & ->).
  rewrite <- app_assoc in Hr. simpl in Hr.
  apply ran_split in Hr as (s0 & s1 & Hr0 & Hs & _).
  by eapply acked_cancel_blocks.
Qed.

(** C15 (safety): a guardian gives out its material only for a request that began
    at this node, in the same boot of its machine, with a valid Begin
    certificate of the very request (same identifier and digest), at least the
    policy's delay of monotonic time ago, and that has not expired; a valid
    Release certificate came with the request, and no cancellation of it was
    acknowledged before. *)
Theorem guardian_node_release_authorised h mailbox request certificate sur contribution s :
  ran ((OpRequest mailbox (MGuardianRelease request certificate) sur,
    Ok (Some (MGuardianContribution contribution))) :: h) s →
  ∃ e wall monotonic begin begin_sur begin_result begin_wall begin_monotonic,
    data s !! mailbox = Some e
    ∧ sur_wall sur = Some wall ∧ sur_monotonic sur = Some monotonic
    ∧ (OpRequest mailbox (MGuardianBegin begin) begin_sur, begin_result) ∈ h
    ∧ sur_wall begin_sur = Some begin_wall ∧ sur_monotonic begin_sur = Some begin_monotonic
    ∧ sur_boot begin_sur = sur_boot sur
    ∧ rr_request_id (brc_request begin) = rr_request_id request
    ∧ request_digest (brc_request begin) = request_digest request
    ∧ validate_begin_for_policy begin (policy_of e) begin_wall = Ok ()
    ∧ validate_release_for_policy certificate (policy_of e) request wall = Ok ()
    ∧ (sat_add begin_monotonic (gpol_minimum_recovery_delay (policy_of e)) <= monotonic)%N
    ∧ (wall < rr_expiry (brc_request begin))%N
    ∧ ∀ cancel cancel_sur ack, (OpRequest mailbox (MGuardianCancel request cancel) cancel_sur,
        Ok (Some (MCancellationAccepted ack))) ∉ h.
Proof.
  intros Hr. assert (Hcancel : ∀ cancel cancel_sur ack,
    (OpRequest mailbox (MGuardianCancel request cancel) cancel_sur,
      Ok (Some (MCancellationAccepted ack))) ∉ h).
  { intros cancel csur ack Hin. apply list_elem_of_split in Hin as (h3 & h4 & ->).
    inversion Hr as [|h0 s0 op r s' Hr0 Hs]; subst. by eapply acked_cancel_blocks. }
  inversion Hr as [|h0 s0 op r s' Hr0 Hs]; subst.
  apply serve_answered in Hs
    as (wall & mono & digest & e & e' & Hw & Hm & Hd & He & He' & _ & [Hprov _] & _ & Ho).
  destruct (Ho _ eq_refl) as (q & c & p & [= <- <-] & Hrel).
  destruct Hrel as (_ & Hp & Hv & Hb & Hid & Hpd & Hdel & Hexp).
  destruct (ran_begun _ _ _ _ _ _ Hr0 (or_introl He) Hp)
    as (bc & bsur & br & Hin & Hbw & Hbm & Hbb & Hreq & Hbd & Hbv & _).
  assert (Hpol : policy_of e' = policy_of e) by (unfold policy_of; by rewrite Hprov).
  exists e', wall, mono, bc, bsur, br, (pnr_accepted_wall_time p), (pnr_started_monotonic p).
  rewrite Hpol, <- Hreq. simpl in Hd. rewrite Hreq in Hid. rewrite Hreq in *.
  split_and!; try done; [congruence |]. rewrite Hbd, Hd. congruence.
Qed.

(** (safety): the Begins a guardian has accepted on a mailbox have different
    request identifiers and different nonces, through failed writes and
    restarts: no request is replayed. *)
Theorem guardian_node_begins_once h2 h1 mailbox certificate sur not_before s
    certificate' sur' not_before' :
  ran (h2 ++ (OpRequest mailbox (MGuardianBegin certificate) sur,
    Ok (Some (MBeginAccepted not_before))) :: h1) s →
  (OpRequest mailbox (MGuardianBegin certificate') sur',
    Ok (Some (MBeginAccepted not_before'))) ∈ h2 →
  rr_request_id (brc_request certificate') ≠ rr_request_id (brc_request certificate)
  ∧ rr_nonce (brc_request certificate') ≠ rr_nonce (brc_request certificate).
Proof.
  intros Hr Hin. apply list_elem_of_split in Hin as (h3 & h4 & ->).
  rewrite <- app_assoc in Hr. simpl in Hr.
  apply ran_split in Hr as (s0 & s1 & Hr0 & Hs & _).
  apply serve_answered in Hs as (wall & mono & digest & e & e' & _ & _ & _ & He & _ & _ & _ & _ & Ho).
  destruct (Ho _ eq_refl) as (Hnone & _ & Hfresh & _). simpl in Hnone, Hfresh.
  set (P := λ e, is_Some (ge_pending e !! hex_encode (rr_request_id (brc_request certificate)))
    ∧ rr_nonce (brc_request certificate) ∈ ge_seen_nonces e).
  assert (Hdur : durable s0 mailbox P).
  { apply (ran_app_durable _ _ _ _ _) with (3 := Hr0).
    - intros e1 e2 (_ & Hsub & _ & Hn) [[p Hp] Hin]. split; [| by apply Hn].
      exists p. by eapply lookup_weaken.
    - intros s2 Hr2. apply (answered_durable _ _ _ _ _ _ P) with (2 := Hr2).
      intros digest' wall' mono' e1 e2 _ (_ & _ & Hc).
      destruct (Hc _ eq_refl) as (_ & Hp & _ & Hn & _). done. }
  destruct Hdur as [(e1 & He1 & [p Hp] & Hn) _]. rewrite He in He1. injection He1 as <-.
  split; intros Heq; rewrite Heq in *; [by rewrite Hp in Hnone | done].
Qed.

End node.

(** ** A guardian at work

    Guardian 1 of the small configuration, through a recovery and through a
    cancelled one. *)

Module GuardianScenario.
Import RecoveryScenario.

#[export] Instance toy_mailbox : MailboxPrimitives := {|
  request_from_slice := λ _, None;
  response_to_vec := λ _, Some [];
  provision_from_slice := λ plaintext,
    match plaintext with
    | [b] => ProvisionGuardian <$> sb_guardians bundle !! N.to_nat (Byte.to_N b)
    | _ => None
    end
|}.

Definition identity : IdentityDisk := {| idd_node_id := "guardian-1"; idd_kem_seed := id 50 |}.
Definition mailbox : string := mailbox_name 111.

Definition provision_body : SealedMailboxBody := Eval vm_compute in
  {| smb_sealed := match context ← wire (node_provision_context "guardian-1" "guardian");
      crypto (seal_to_recipient
        (rkp_public (RecipientKeyPair_from_seed (idd_kem_seed identity)))
        (id 51) (brep 24 x00) [x00] context) with
    | Ok sealed => sealed
    | Err _ => {| sealed_kem_ciphertext := [];
                  sealed_payload := {| aead_nonce := brep 24 x00; aead_ciphertext := [] |} |}
    end |}.

Definition at_times (wall monotonic : N) (boot : string) : Surroundings := {|
  sur_wall := Some (U64 wall);
  sur_monotonic := Some (U64 monotonic);
  sur_boot := boot;
  sur_saved := Saved;
  sur_share_draws := draws;
  sur_envelope_draws := draws
|}.

Definition op_provision : Op :=
  OpProvision "token" (Some "token"%string) true Saved provision_body.
Definition op_begin (certificate : BeginRecoveryCertificate) (wall monotonic : N) : Op :=
  OpRequest mailbox (MGuardianBegin certificate) (at_times wall monotonic "boot").
Definition op_release (wall monotonic : N) : Op :=
  OpRequest mailbox (MGuardianRelease request release_certificate)
    (at_times wall monotonic "boot").
Definition op_cancel : Op :=
  OpRequest mailbox (MGuardianCancel request cancel_certificate) (at_times 205 12 "boot").

(** The node plays requests, the most recent last. *)
Definition play (ops : list Op) :
    list (Op * Result ApiError (option MailboxResponse)) * Persisted GuardianDisk :=
  foldl (λ '(h, s) op, let '(r, s) := serve identity false op s in ((op, r) :: h, s))
    ([], mkPersisted ∅ ∅) ops.

Lemma guardian_play_ran ops : ran identity false (play ops).1 (play ops).2.
Proof.
  unfold play. generalize (ran_start identity false). generalize (mkPersisted (D := GuardianDisk) ∅ ∅).
  generalize (@nil (Op * Result ApiError (option MailboxResponse))).
  induction ops as [|op ops IH]; intros h s Hs; [exact Hs |].
  cbn [foldl]. destruct (serve identity false op s) as [r s'] eqn:E.
  apply IH. by econstructor.
Qed.

Definition recovered : list Op :=
  [op_provision; op_begin begin_certificate 200 10; op_release 204 14; op_release 210 20].
Definition cancelled : list Op :=
  [op_provision; op_begin begin_certificate 200 10; op_cancel; OpRestart; op_release 210 20].
Definition begun_twice : list Op :=
  [op_provision; op_begin begin_certificate 200 10; op_begin begin_certificate 201 11;
   op_begin (begin_for (request_number 44 45)) 202 12].

(** The history with the call at a position in front of the earlier ones. *)
Lemma guardian_play_split ops i op r :
  (play ops).1 !! i = Some (op, r) →
  ran identity false (take i (play ops).1 ++ (op, r) :: drop (S i) (play ops).1) (play ops).2.
Proof. intros H. rewrite take_drop_middle by done. apply guardian_play_ran. Qed.

End GuardianScenario.

Import RecoveryScenario GuardianScenario.

Lemma guardian_node_cancel_permanent_witness :
  ∃ ack, (play cancelled).1 !! 2 = Some (op_cancel, Ok (Some (MCancellationAccepted ack)))
    ∧ ∀ contribution, (op_release 210 20, Ok (Some (MGuardianContribution contribution)))
        ∉ take 2 (play cancelled).1.
Proof.
  eexists. split; [vm_compute; reflexivity |]. intros contribution.
  eapply (guardian_node_cancel_permanent identity false _ (drop 3 (play cancelled).1)).
  apply (guardian_play_split cancelled 2). vm_compute. reflexivity.
Defined.

Lemma guardian_node_release_authorised_witness :
  ∃ contribution begin begin_sur begin_result,
    (play recovered).1 !! 0
      = Some (op_release 210 20, Ok (Some (MGuardianContribution contribution)))
    ∧ (OpRequest mailbox (MGuardianBegin begin) begin_sur, begin_result)
        ∈ drop 1 (play recovered).1
    ∧ request_digest (brc_request begin) = request_digest request.
Proof.
  assert (H : ∃ contribution, (play recovered).1 !! 0
    = Some (op_release 210 20, Ok (Some (MGuardianContribution contribution)))).
  { eexists. vm_compute. reflexivity. }
  destruct H as [contribution H].
  pose proof (guardian_node_release_authorised identity false (drop 1 (play recovered).1)
    mailbox request release_certificate _ contribution _ (guardian_play_split recovered 0 _ _ H))
    as (_ & _ & _ & begin & sur & result & _ & _ & _ & _ & _ & Hin & _ & _ & _ & _ & Hd & _).
  exists contribution, begin, sur, result. split; [exact H | split; [exact Hin | exact Hd]].
Defined.

Lemma guardian_node_begins_once_witness :
  ∃ n n', (play begun_twice).1 !! 2
      = Some (op_begin begin_certificate 200 10, Ok (Some (MBeginAccepted n)))
    ∧ (play begun_twice).1 !! 0
      = Some (op_begin (begin_for (request_number 44 45)) 202 12, Ok (Some (MBeginAccepted n')))
    ∧ rr_nonce (request_number 44 45) ≠ rr_nonce request.
Proof.
  assert (H : ∃ n n', (play begun_twice).1 !! 2
      = Some (op_begin begin_certificate 200 10, Ok (Some (MBeginAccepted n)))
    ∧ (play begun_twice).1 !! 0
      = Some (op_begin (begin_for (request_number 44 45)) 202 12,
          Ok (Some (MBeginAccepted n')))).
  { do 2 eexists. split; vm_compute; reflexivity. }
  destruct H as (n & n' & H & H'). exists n, n'. split; [exact H | split; [exact H' |]].
  apply (guardian_node_begins_once identity false _ _ mailbox begin_certificate
    (at_times 200 10 "boot") n _ (begin_for (request_number 44 45)) (at_times 202 12 "boot") n'
    (guardian_play_split begun_twice 2 _ _ H)).
  apply list_elem_of_lookup_2 with 0. rewrite lookup_take_lt; [exact H' | lia].
Defined.
