(* ===== verification/WitnessServer.v ===== *)
(** A config witness node: the /v3/witness handlers of
    crates/gp-network/src/server.rs with their data of
    crates/gp-network/src/types.rs.

    A handler is code over the node's [WitnessDisk], which is held in memory
    under a lock for the whole of a handler; it answers a response or an
    [ApiError].  Inputs that are not in the request are arguments: the clock
    ([now], [None] when it cannot be read), whether the final write of the
    state file succeeds ([saved]; a failed write is answered as an error and
    the memory keeps the change), the node's signing seed and the provisioning
    token.  [ran] are the requests of one process, over its memory; [lived]
    adds the state file, its writes and restarts.  HTTP routing and the encoding of errors as status and text are not
    modelled: an error keeps what it was made from. *)

From S2P Require Export StorageRotation Api.
Export RotationProtocol.

Module WitnessServer.

(** ** Data *)

Record WitnessConfigProvision : Set := mkWitnessConfigProvision {
  wcp_witness_id : u16;
  wcp_capsule : ConfigCapsuleV3;
  wcp_signer_public_keys : gmap u16 (barr 32);
  wcp_witness_public_keys : gmap u16 (barr 32);
  wcp_witness_fault_bound : u16
}.

Record WitnessRotationCancellation : Set := mkWitnessRotationCancellation {
  wrcn_plan_hash : Id32;
  wrcn_cancel_certificate_hash : Id32
}.

Record WitnessConfigEntry : Set := mkWitnessConfigEntry {
  wce_witness_id : u16;
  wce_register : WitnessStore.WitnessEpochStore;
  wce_capsule : ConfigCapsuleV3;
  wce_pending_capsule : option ConfigCapsuleV3;
  wce_pending_ack : option WitnessActivationAck;
  wce_rotation_cancellations : gmap string WitnessRotationCancellation;
  wce_signer_public_keys : gmap u16 (barr 32);
  wce_witness_public_keys : gmap u16 (barr 32);
  wce_witness_fault_bound : u16
}.

Definition WitnessDisk : Set := gmap string WitnessConfigEntry.

(** [stored_capsule] with its certificate and QC replaced. *)
Definition with_evidence (c : ConfigCapsuleV3)
    (certificate : option RotationActivateCertificate) (qc : option EpochActivationQc) :
    ConfigCapsuleV3 := {|
  cap3_protocol_version := cap3_protocol_version c;
  cap3_config_ref := cap3_config_ref c;
  cap3_capsule_hash := cap3_capsule_hash c;
  cap3_predecessor_capsule_hash := cap3_predecessor_capsule_hash c;
  cap3_signer_count := cap3_signer_count c;
  cap3_signer_threshold := cap3_signer_threshold c;
  cap3_guardian_count := cap3_guardian_count c;
  cap3_guardian_threshold := cap3_guardian_threshold c;
  cap3_minimum_recovery_delay := cap3_minimum_recovery_delay c;
  cap3_max_request_lifetime := cap3_max_request_lifetime c;
  cap3_signer_set_commitment := cap3_signer_set_commitment c;
  cap3_owner_cancel_public_key := cap3_owner_cancel_public_key c;
  cap3_dpss_suite := cap3_dpss_suite c;
  cap3_dpss_public_commitment := cap3_dpss_public_commitment c;
  cap3_ciphertext_fragment_root := cap3_ciphertext_fragment_root c;
  cap3_guardian_material_root := cap3_guardian_material_root c;
  cap3_encrypted_recovery_descriptor := cap3_encrypted_recovery_descriptor c;
  cap3_activation_certificate := certificate;
  cap3_activation_qc := qc
|}.

(** Assignments to the entry: register, served capsule, pending pair. *)
Definition update (e : WitnessConfigEntry) (register : WitnessStore.WitnessEpochStore)
    (capsule : ConfigCapsuleV3) (pending : option ConfigCapsuleV3)
    (ack : option WitnessActivationAck)
    (cancellations : gmap string WitnessRotationCancellation) : WitnessConfigEntry := {|
  wce_witness_id := wce_witness_id e;
  wce_register := register;
  wce_capsule := capsule;
  wce_pending_capsule := pending;
  wce_pending_ack := ack;
  wce_rotation_cancellations := cancellations;
  wce_signer_public_keys := wce_signer_public_keys e;
  wce_witness_public_keys := wce_witness_public_keys e;
  wce_witness_fault_bound := wce_witness_fault_bound e
|}.

Abbreviation OnEntry A := (SR WitnessConfigEntry ApiError A).
Abbreviation OnDisk A := (SR WitnessDisk ApiError A).

(** [entries.get_mut(&config_id).ok_or_else(..)?], and the code that works
    through the reference. *)
Definition on_entry {A} (config_id : string) (body : OnEntry A) : OnDisk A := λ disk,
  match disk !! config_id with
  | None => (Err (not_found "witness configuration was not found"), disk)
  | Some entry => let '(r, entry) := body entry in (r, <[config_id := entry]> disk)
  end.

(** A call of a register operation. *)
Definition on_register (op : WitnessStore.WitnessEpochStore →
    Result StorageError () * WitnessStore.WitnessEpochStore) : OnEntry () := λ e,
  let '(r, register) := op (wce_register e) in
  (map_err (λ x, bad_request (OfStorage x)) r,
   update e register (wce_capsule e) (wce_pending_capsule e) (wce_pending_ack e)
     (wce_rotation_cancellations e)).

Section handlers.
Context `{Prims : Primitives} (hex_encode : Id32 → string) (kem_seed : Id32).

(** ** Provisioning *)

(** [1..=n]. *)
Definition id_range (n : u16) : gset u16 :=
  list_to_set ((λ i, U16 (N.of_nat i)) <$> seq 1 (N.to_nat n)).

Definition witness_provision (admin_token : string) (bearer : option string) (saved : bool)
    (provision : WitnessConfigProvision) : OnDisk (string * bool) :=
  let capsule := wcp_capsule provision in
  let signer_keys := wcp_signer_public_keys provision in
  let witness_keys := wcp_witness_public_keys provision in
  _ ← lift (fail_if (bool_decide (admin_token = ""%string)
                     || bool_decide (bearer ≠ Some admin_token))
              (forbidden "invalid witness provisioning token"));
  _ ← refuse_if ((uval (wcp_witness_id provision) =? 0)%N
      || (cap3_protocol_version capsule !=? PROTOCOL_VERSION_V3)
      || (uval (cr_guardian_epoch (cap3_config_ref capsule)) =? 0)%N
      || (N.of_nat (size signer_keys) !=? uval (cap3_signer_count capsule))
      || (uval (wcp_witness_fault_bound provision) =? 0)%N)%mr
    "invalid witness genesis policy";
  body ← wire_ok (config_capsule_body_v3 capsule);
  _ ← refuse_if (sha256 body !=? cap3_capsule_hash capsule)%mr "invalid genesis capsule hash";
  _ ← refuse_if (dom signer_keys !=? id_range (cap3_signer_count capsule))%mr
    "signer ids are not canonical";
  signer_leaves ← wire_ok (collect (λ id,
      match signer_keys !! id with
      | Some key => sha256 <$> signer_leaf id key
      | None => Err InvalidValue
      end) ((λ i, U16 (N.of_nat i)) <$> seq 1 (N.to_nat (cap3_signer_count capsule))));
  signer_root ← crypto_ok (merkle_commit signer_leaves);
  _ ← refuse_if (signer_root.1 !=? cap3_signer_set_commitment capsule)%mr
    "pinned signer keys do not match signer-set commitment";
  required_witnesses ←
    some_or (value ← checked_mul (wcp_witness_fault_bound provision) 3; checked_add value 1)
      "witness policy overflow";
  let own_witness_key := verifying_key_bytes (signing_key kem_seed) in
  _ ← refuse_if ((N.of_nat (size witness_keys) <? required_witnesses)
      || (witness_keys !! wcp_witness_id provision !=? Some own_witness_key)
      || (size (list_to_set (C := gset (barr 32)) (map_to_list witness_keys).*2)
          !=? size witness_keys))%mr
    "invalid pinned witness roster";
  let key := hex_encode (cr_config_id (cap3_config_ref capsule)) in
  disk ← get;
  _ ← refuse_if (bool_decide (is_Some ((disk : WitnessDisk) !! key)))
    "witness configuration is already provisioned";
  _ ← put (<[key := {|
      wce_witness_id := wcp_witness_id provision;
      wce_register :=
        WitnessStore.new (cap3_config_ref capsule) (cap3_capsule_hash capsule);
      wce_capsule := capsule;
      wce_pending_capsule := None;
      wce_pending_ack := None;
      wce_rotation_cancellations := ∅;
      wce_signer_public_keys := signer_keys;
      wce_witness_public_keys := witness_keys;
      wce_witness_fault_bound := wcp_witness_fault_bound provision |}]> disk);
  _ ← save saved;
  mret (key, true).

(** ** Owner cancellations *)

(** The part of the handler between the recorded cancellations and the
    acknowledgement: a pending successor of this rotation is rolled back, and
    the cancellation is recorded. *)
Definition record_cancellation (certificate : OwnerRotationCancelCertificate)
    (cancel_hash : Id32) : OnEntry () :=
  entry ← get;
  _ ← match wce_pending_capsule entry with
      | Some pending =>
          activation ← some_or (cap3_activation_certificate pending)
            "pending successor lacks an activation certificate";
          _ ← refuse_if ((ctx_rotation_id (rac_context activation)
                           !=? ctx_rotation_id (orcc_context certificate))
              || (rac_plan_hash activation !=? orcc_plan_hash certificate)
              || (cap3_predecessor_capsule_hash pending
                  !=? cap3_capsule_hash (wce_capsule entry)))%mr
            "owner cancellation does not bind the pending successor";
          _ ← on_register (λ register,
            WitnessStore.cancel_pending_successor hex_encode register
              (epoch_of (wce_capsule entry)) (cap3_capsule_hash (wce_capsule entry))
              (epoch_of pending) (cap3_capsule_hash pending));
          e ← get;
          put (update e (wce_register e) (wce_capsule e) None None
            (wce_rotation_cancellations e))
      | None => mret ()
      end;
  e ← get;
  put (update e (wce_register e) (wce_capsule e) (wce_pending_capsule e) (wce_pending_ack e)
    (<[hex_encode (ctx_rotation_id (orcc_context certificate)) := {|
         wrcn_plan_hash := orcc_plan_hash certificate;
         wrcn_cancel_certificate_hash := cancel_hash |}]> (wce_rotation_cancellations e))).

(** [gp_types::WitnessRotationCancelAck { .. }], signed. *)
Definition cancel_ack_of (certificate : OwnerRotationCancelCertificate) (cancel_hash : Id32)
    (witness_id : u16) (signature : list byte) : WitnessRotationCancelAck := {|
  wrca_protocol_version := PROTOCOL_VERSION_V3;
  wrca_config_id := cr_config_id (ctx_config_ref (orcc_context certificate));
  wrca_rotation_id := ctx_rotation_id (orcc_context certificate);
  wrca_plan_hash := orcc_plan_hash certificate;
  wrca_cancel_certificate_hash := cancel_hash;
  wrca_witness_id := witness_id;
  wrca_witness_public_key := verifying_key_bytes (signing_key kem_seed);
  wrca_witness_signature := signature
|}.

Definition cancel_locked (certificate : OwnerRotationCancelCertificate)
    (cancel_transcript : list byte) (saved : bool) : OnEntry WitnessRotationCancelAck :=
  let context := orcc_context certificate in
  let cancel_hash := sha256 cancel_transcript in
  entry ← get;
  let capsule := wce_capsule entry in
  _ ← refuse_if ((ctx_config_ref context !=? cap3_config_ref capsule)
      || (ctx_predecessor_capsule_hash context !=? cap3_capsule_hash capsule)
      || (orcc_owner_cancel_public_key certificate
          !=? cap3_owner_cancel_public_key capsule))%mr
    "owner cancellation does not bind the witness's active predecessor";
  _ ← crypto_ok (verify (cap3_owner_cancel_public_key capsule) cancel_transcript
    (orcc_owner_signature certificate));
  _ ← match wce_rotation_cancellations entry !! hex_encode (ctx_rotation_id context) with
      | Some existing =>
          refuse_if ((wrcn_plan_hash existing !=? orcc_plan_hash certificate)
              || (wrcn_cancel_certificate_hash existing !=? cancel_hash))%mr
            "witness has a conflicting cancellation for this rotation id"
      | None => record_cancellation certificate cancel_hash
      end;
  let witness_key := signing_key kem_seed in
  let unsigned := cancel_ack_of certificate cancel_hash (wce_witness_id entry) [] in
  t ← wire_ok (witness_rotation_cancel_ack unsigned);
  _ ← save saved;
  mret (cancel_ack_of certificate cancel_hash (wce_witness_id entry) (sign witness_key t)).

Definition witness_cancel_rotation (config_id : string) (now : option u64) (saved : bool)
    (certificate : OwnerRotationCancelCertificate) : OnDisk WitnessRotationCancelAck :=
  let context := orcc_context certificate in
  now ← wall_now now;
  _ ← refuse_if ((ctx_protocol_version context !=? PROTOCOL_VERSION_V3)
      || (hex_encode (cr_config_id (ctx_config_ref context)) !=? config_id)
      || (uval now <? ctx_issued_at context)
      || (ctx_expiry context <=? now)
      || (len (orcc_cancel_response_recipient_key certificate) !=? XWING_PUBLIC_KEY_LEN))%mr
    "owner witness cancellation is malformed or expired";
  cancel_transcript ← wire_ok (owner_rotation_cancel_certificate certificate);
  on_entry config_id (cancel_locked certificate cancel_transcript saved).

(** ** Activations *)

(** [gp_types::WitnessActivationAck { .. }] for the entry, with a signature. *)
Definition activation_ack_of (entry : WitnessConfigEntry) (capsule : ConfigCapsuleV3)
    (certificate : RotationActivateCertificate) (capsule_hash activation_hash : Id32)
    (signature : list byte) : WitnessActivationAck := {|
  waa_context := rac_context certificate;
  waa_plan_hash := rac_plan_hash certificate;
  waa_activation_certificate_hash := activation_hash;
  waa_witness_id := wce_witness_id entry;
  waa_predecessor_epoch := epoch_of (wce_capsule entry);
  waa_predecessor_capsule_hash := cap3_capsule_hash (wce_capsule entry);
  waa_successor_epoch := epoch_of capsule;
  waa_successor_capsule_hash := capsule_hash;
  waa_witness_public_key := verifying_key_bytes (signing_key kem_seed);
  waa_witness_signature := signature
|}.

(** The successor keeps the immutable policy of its predecessor and is
    authorised for it. *)
Definition stale_or_downgraded (entry : WitnessConfigEntry) (capsule : ConfigCapsuleV3)
    (certificate : RotationActivateCertificate) : bool :=
  let old := wce_capsule entry in
  ((ctx_config_ref (rac_context certificate) !=? cap3_config_ref old)
   || (cap3_predecessor_capsule_hash capsule !=? cap3_capsule_hash old)
   || (cap3_signer_count capsule !=? cap3_signer_count old)
   || (cap3_signer_threshold capsule !=? cap3_signer_threshold old)
   || (cap3_signer_set_commitment capsule !=? cap3_signer_set_commitment old)
   || (cap3_owner_cancel_public_key capsule !=? cap3_owner_cancel_public_key old)
   || (cap3_minimum_recovery_delay capsule <? cap3_minimum_recovery_delay old)
   || (cap3_max_request_lifetime capsule !=? cap3_max_request_lifetime old)
   || (cap3_dpss_suite capsule !=? cap3_dpss_suite old)
   || (len (rac_votes certificate) <? cap3_signer_threshold old))%mr.

(** A vote of a pinned signer. *)
Definition check_pinned_vote (entry : WitnessConfigEntry) (vote : SignerRotationActivateVote) :
    Result ApiError () :=
  _ ← fail_if (wce_signer_public_keys entry !! srav_signer_id vote
               !=? Some (srav_signer_public_key vote))%mr
    (bad_request (Text "activate vote is not from a pinned signer"));
  t ← map_err (λ e, bad_request (OfWire e)) (signer_rotation_activate_vote vote);
  map_err (λ e, bad_request (OfCrypto e))
    (verify (srav_signer_public_key vote) t (srav_signer_signature vote)).

Definition activate_locked (capsule : ConfigCapsuleV3)
    (certificate : RotationActivateCertificate) (capsule_hash activation_hash : Id32)
    (saved : bool) : OnEntry WitnessActivationAck :=
  entry ← get;
  _ ← refuse_if (bool_decide (is_Some (wce_rotation_cancellations entry
                   !! hex_encode (ctx_rotation_id (rac_context certificate)))))
    "witness permanently rejected this owner-cancelled rotation";
  match wce_pending_capsule entry with
  | Some pending =>
      if (cap3_capsule_hash pending ==? cap3_capsule_hash capsule)%mr
      then some_or (wce_pending_ack entry) "pending witness write has no durable ack"
      else bad "witness is already locked to another successor"
  | None =>
      _ ← refuse_if (stale_or_downgraded entry capsule certificate)
        "stale predecessor, immutable-policy downgrade, or signer quorum failure";
      _ ← lift (for_each (check_pinned_vote entry) (rac_votes certificate));
      _ ← on_register (λ register,
        WitnessStore.persist_successor_before_ack hex_encode register
          (cap3_config_ref (wce_capsule entry)) (cap3_capsule_hash (wce_capsule entry))
          (cap3_config_ref capsule) (cap3_capsule_hash capsule));
      let stored_capsule := with_evidence capsule (Some certificate) None in
      let witness_key := signing_key kem_seed in
      t ← wire_ok (witness_activation_ack
        (activation_ack_of entry capsule certificate capsule_hash activation_hash []));
      let ack := activation_ack_of entry capsule certificate capsule_hash activation_hash
        (sign witness_key t) in
      e ← get;
      _ ← put (update e (wce_register e) (wce_capsule e) (Some stored_capsule) (Some ack)
        (wce_rotation_cancellations e));
      _ ← save saved;
      mret ack
  end.

Definition witness_activate (config_id : string) (saved : bool) (capsule : ConfigCapsuleV3)
    (certificate : RotationActivateCertificate) : OnDisk WitnessActivationAck :=
  _ ← refuse_if (hex_encode (cr_config_id (cap3_config_ref capsule)) !=? config_id)%mr
    "config id path/body mismatch";
  body ← wire_ok (config_capsule_body_v3 capsule);
  let capsule_hash := sha256 body in
  _ ← refuse_if ((capsule_hash !=? cap3_capsule_hash capsule)
      || (rac_successor certificate !=? cap3_config_ref capsule)
      || (rac_successor_capsule_hash certificate !=? capsule_hash)
      || (cap3_predecessor_capsule_hash capsule
          !=? ctx_predecessor_capsule_hash (rac_context certificate)))%mr
    "activation certificate does not bind the exact capsule";
  activation_transcript ← wire_ok (rotation_activate_certificate certificate);
  on_entry config_id
    (activate_locked capsule certificate capsule_hash (sha256 activation_transcript) saved).

(** ** Finalising *)

(** The loop over the acknowledgements of the QC. *)
Definition qc_witnesses (entry : WitnessConfigEntry) (qc : EpochActivationQc) :
    Result ApiError (gset u16) :=
  for_each_distinct waa_witness_id
    (λ ack, ok_or (wce_witness_public_keys entry !! waa_witness_id ack)
       (bad_request (Text "QC contains an unpinned witness")))
    (λ ack pinned, pinned !=? waa_witness_public_key ack)%mr
    (bad_request (Text "QC contains duplicate or substituted witnesses"))
    (λ ack pinned,
       t ← map_err (λ e, bad_request (OfWire e)) (witness_activation_ack ack);
       map_err (λ e, bad_request (OfCrypto e))
         (verify pinned t (waa_witness_signature ack)))
    ∅ (qc_witness_acks qc).

Definition finalize_locked (config_id : string) (qc : EpochActivationQc) (saved : bool) :
    OnEntry (string * bool) :=
  entry ← get;
  pending ← some_or (wce_pending_capsule entry) "witness has no pending successor";
  pending_ack ← some_or (wce_pending_ack entry) "pending successor has no witness ack";
  _ ← refuse_if (bool_decide (is_Some (wce_rotation_cancellations entry
                   !! hex_encode (qc_rotation_id qc))))
    "witness refuses to finalize an owner-cancelled rotation";
  _ ← wire_ok (epoch_activation_qc qc);
  _ ← refuse_if ((qc_config_id qc !=? cr_config_id (cap3_config_ref pending))
      || (hex_encode (qc_config_id qc) !=? config_id)
      || (qc_witness_fault_bound qc !=? wce_witness_fault_bound entry)
      || (qc_rotation_id qc !=? ctx_rotation_id (waa_context pending_ack))
      || (qc_predecessor_epoch qc !=? waa_predecessor_epoch pending_ack)
      || (qc_predecessor_capsule_hash qc !=? waa_predecessor_capsule_hash pending_ack)
      || (qc_successor_epoch qc !=? epoch_of pending)
      || (qc_successor_capsule_hash qc !=? cap3_capsule_hash pending)
      || (qc_activation_certificate_hash qc
          !=? waa_activation_certificate_hash pending_ack))%mr
    "activation QC does not bind the pending successor";
  required ←
    some_or (value ← checked_mul (wce_witness_fault_bound entry) 2; checked_add value 1)
      "witness quorum overflow";
  witness_ids ← lift (qc_witnesses entry qc);
  _ ← refuse_if ((N.of_nat (size witness_ids) <? required)%mr
      || negb (existsb (λ ack, bool_decide (waa_witness_id ack = wce_witness_id entry)
                               && bool_decide (ack = pending_ack)) (qc_witness_acks qc)))
    "QC has no 2f+1 quorum or omits this witness's exact ack";
  let activated := with_evidence pending (cap3_activation_certificate pending) (Some qc) in
  _ ← put (update entry (wce_register entry) activated None None
    (wce_rotation_cancellations entry));
  _ ← save saved;
  mret (config_id, true).

Definition witness_finalize (config_id : string) (saved : bool) (qc : EpochActivationQc) :
    OnDisk (string * bool) :=
  on_entry config_id (finalize_locked config_id qc saved).

(** ** Reads *)

Definition read_response_of (entry : WitnessConfigEntry) (challenge : EpochReadChallenge)
    (signature : list byte) : WitnessEpochReadResponse := {|
  werr_protocol_version := PROTOCOL_VERSION_V3;
  werr_config_id := erc_config_id challenge;
  werr_client_nonce := erc_client_nonce challenge;
  werr_witness_id := wce_witness_id entry;
  werr_highest_guardian_epoch := epoch_of (wce_capsule entry);
  werr_capsule_hash := cap3_capsule_hash (wce_capsule entry);
  werr_witness_public_key := verifying_key_bytes (signing_key kem_seed);
  werr_witness_signature := signature
|}.

Definition read_locked (challenge : EpochReadChallenge) (saved : bool) :
    OnEntry WitnessReadEnvelope :=
  entry ← get;
  _ ← on_register (λ register,
    WitnessStore.observe_read_nonce register (erc_client_nonce challenge));
  _ ← save saved;
  let witness_key := signing_key kem_seed in
  t ← wire_ok (witness_epoch_read_response (read_response_of entry challenge []));
  mret {| wre_response := read_response_of entry challenge (sign witness_key t);
          wre_capsule := wce_capsule entry |}.

Definition witness_read (config_id : string) (now : option u64) (saved : bool)
    (challenge : EpochReadChallenge) : OnDisk WitnessReadEnvelope :=
  _ ← refuse_if ((erc_protocol_version challenge !=? PROTOCOL_VERSION_V3)
      || (hex_encode (erc_config_id challenge) !=? config_id))%mr
    "invalid witness read challenge";
  now ← wall_now now;
  _ ← refuse_if ((uval now <? erc_issued_at challenge) || (erc_expiry challenge <=? now))%mr
    "expired witness read challenge";
  _ ← wire_ok (epoch_read_challenge challenge);
  on_entry config_id (read_locked challenge saved).

(** ** The node *)

Inductive Op : Set :=
| OpProvision (admin_token : string) (bearer : option string) (saved : bool)
    (provision : WitnessConfigProvision)
| OpCancel (config_id : string) (now : option u64) (saved : bool)
    (certificate : OwnerRotationCancelCertificate)
| OpActivate (config_id : string) (saved : bool) (capsule : ConfigCapsuleV3)
    (certificate : RotationActivateCertificate)
| OpFinalize (config_id : string) (saved : bool) (qc : EpochActivationQc)
| OpRead (config_id : string) (now : option u64) (saved : bool)
    (challenge : EpochReadChallenge).

Inductive Response : Set :=
| RStored (key : string)
| RCancel (ack : WitnessRotationCancelAck)
| RActivate (ack : WitnessActivationAck)
| RRead (envelope : WitnessReadEnvelope).

(** The answer to one request. *)
Definition serve (op : Op) : OnDisk Response :=
  match op with
  | OpProvision token bearer saved provision =>
      a ← witness_provision token bearer saved provision; mret (RStored a.1)
  | OpCancel config_id now saved certificate =>
      a ← witness_cancel_rotation config_id now saved certificate; mret (RCancel a)
  | OpActivate config_id saved capsule certificate =>
      a ← witness_activate config_id saved capsule certificate; mret (RActivate a)
  | OpFinalize config_id saved qc =>
      a ← witness_finalize config_id saved qc; mret (RStored a.1)
  | OpRead config_id now saved challenge =>
      a ← witness_read config_id now saved challenge; mret (RRead a)
  end.

(** ** What a request can do to the entry of one configuration

    [moves id e op r e']: the node holding [e] for configuration [id] answers
    [op] with [r] and then holds [e'].  One constructor per way the entry
    changes or an answer is given; the premises are the checks passed. *)

(** Rolling back the pending successor of a cancelled rotation. *)
Definition rolled_back (e : WitnessConfigEntry) (certificate : OwnerRotationCancelCertificate)
    (register : WitnessStore.WitnessEpochStore) (ack : option WitnessActivationAck) : Prop :=
  (wce_pending_capsule e = None ∧ register = wce_register e ∧ ack = wce_pending_ack e)
  ∨ (∃ p activation, wce_pending_capsule e = Some p
       ∧ cap3_activation_certificate p = Some activation
       ∧ ctx_rotation_id (rac_context activation)
         = ctx_rotation_id (orcc_context certificate)
       ∧ ack = None
       ∧ WitnessStore.cancel_pending_successor hex_encode (wce_register e)
           (epoch_of (wce_capsule e)) (cap3_capsule_hash (wce_capsule e))
           (epoch_of p) (cap3_capsule_hash p) = (Ok (), register)).

Definition cancel_checked (id : string) (e : WitnessConfigEntry)
    (certificate : OwnerRotationCancelCertificate) (t : list byte) : Prop :=
  hex_encode (cr_config_id (ctx_config_ref (orcc_context certificate))) = id
  ∧ owner_rotation_cancel_certificate certificate = Ok t
  ∧ ctx_config_ref (orcc_context certificate) = cap3_config_ref (wce_capsule e)
  ∧ ctx_predecessor_capsule_hash (orcc_context certificate)
    = cap3_capsule_hash (wce_capsule e)
  ∧ verify (cap3_owner_cancel_public_key (wce_capsule e)) t
      (orcc_owner_signature certificate) = Ok ().

(** An activation request for which the witness locks and acknowledges. *)
Definition activation_checked (id : string) (e : WitnessConfigEntry)
    (capsule : ConfigCapsuleV3) (certificate : RotationActivateCertificate) (t : list byte) :
    Prop :=
  hex_encode (cr_config_id (cap3_config_ref capsule)) = id
  ∧ (∃ body, config_capsule_body_v3 capsule = Ok body
       ∧ cap3_capsule_hash capsule = sha256 body)
  ∧ rac_successor certificate = cap3_config_ref capsule
  ∧ rac_successor_capsule_hash certificate = cap3_capsule_hash capsule
  ∧ cap3_predecessor_capsule_hash capsule
    = ctx_predecessor_capsule_hash (rac_context certificate)
  ∧ rotation_activate_certificate certificate = Ok t
  ∧ wce_rotation_cancellations e
      !! hex_encode (ctx_rotation_id (rac_context certificate)) = None
  ∧ wce_pending_capsule e = None
  ∧ stale_or_downgraded e capsule certificate = false
  ∧ (∀ vote, vote ∈ rac_votes certificate → check_pinned_vote e vote = Ok ()).

(** The acknowledgement the witness signs for an activation. *)
Definition signed_ack (e : WitnessConfigEntry) (capsule : ConfigCapsuleV3)
    (certificate : RotationActivateCertificate) (t : list byte) : option WitnessActivationAck :=
  let ack := activation_ack_of e capsule certificate (cap3_capsule_hash capsule) (sha256 t) in
  match witness_activation_ack (ack []) with
  | Ok b => Some (ack (sign (signing_key kem_seed) b))
  | Err _ => None
  end.

Definition qc_checked (id : string) (e : WitnessConfigEntry) (p : ConfigCapsuleV3)
    (a : WitnessActivationAck) (qc : EpochActivationQc) : Prop :=
  is_ok (epoch_activation_qc qc) = true
  ∧ wce_rotation_cancellations e !! hex_encode (qc_rotation_id qc) = None
  ∧ qc_config_id qc = cr_config_id (cap3_config_ref p)
  ∧ hex_encode (qc_config_id qc) = id
  ∧ qc_witness_fault_bound qc = wce_witness_fault_bound e
  ∧ qc_rotation_id qc = ctx_rotation_id (waa_context a)
  ∧ qc_predecessor_epoch qc = waa_predecessor_epoch a
  ∧ qc_predecessor_capsule_hash qc = waa_predecessor_capsule_hash a
  ∧ qc_successor_epoch qc = epoch_of p
  ∧ qc_successor_capsule_hash qc = cap3_capsule_hash p
  ∧ qc_activation_certificate_hash qc = waa_activation_certificate_hash a
  ∧ NoDup (ack_ids qc)
  ∧ (∀ ack, ack ∈ qc_witness_acks qc →
       wce_witness_public_keys e !! waa_witness_id ack = Some (waa_witness_public_key ack)
       ∧ signed (waa_witness_public_key ack) (witness_activation_ack ack)
           (waa_witness_signature ack))
  ∧ (2 * wce_witness_fault_bound e + 1 ≤ len (ack_ids qc))%N
  ∧ a ∈ qc_witness_acks qc.

Definition signed_read (e : WitnessConfigEntry) (challenge : EpochReadChallenge) :
    option WitnessReadEnvelope :=
  match witness_epoch_read_response (read_response_of e challenge []) with
  | Ok t => Some {| wre_response := read_response_of e challenge
                      (sign (signing_key kem_seed) t);
                    wre_capsule := wce_capsule e |}
  | Err _ => None
  end.

(** An answer that is [a], or an error. *)
Definition answers (r : Result ApiError Response) (a : option Response) : Prop :=
  is_ok r = true → ∃ x, a = Some x ∧ r = Ok x.

Inductive moves (id : string) (e : WitnessConfigEntry) :
    Op → Result ApiError Response → WitnessConfigEntry → Prop :=
| mv_refused op x : moves id e op (Err x) e
| mv_provision token bearer saved provision r :
    moves id e (OpProvision token bearer saved provision) r e
| mv_other_cancel id' now saved certificate r :
    id' ≠ id → moves id e (OpCancel id' now saved certificate) r e
| mv_other_activate id' saved capsule certificate r :
    id' ≠ id → moves id e (OpActivate id' saved capsule certificate) r e
| mv_other_finalize id' saved qc r : id' ≠ id → moves id e (OpFinalize id' saved qc) r e
| mv_other_read id' now saved challenge r :
    id' ≠ id → moves id e (OpRead id' now saved challenge) r e
| mv_cancel_again now saved certificate t r existing :
    cancel_checked id e certificate t →
    wce_rotation_cancellations e
      !! hex_encode (ctx_rotation_id (orcc_context certificate)) = Some existing →
    moves id e (OpCancel id now saved certificate) r e
| mv_cancel now saved certificate t r register ack c :
    cancel_checked id e certificate t →
    wce_rotation_cancellations e
      !! hex_encode (ctx_rotation_id (orcc_context certificate)) = None →
    rolled_back e certificate register ack →
    moves id e (OpCancel id now saved certificate) r
      (update e register (wce_capsule e) None ack
        (<[hex_encode (ctx_rotation_id (orcc_context certificate)) := c]>
           (wce_rotation_cancellations e)))
| mv_ack_again saved capsule certificate p r :
    wce_rotation_cancellations e
      !! hex_encode (ctx_rotation_id (rac_context certificate)) = None →
    wce_pending_capsule e = Some p → cap3_capsule_hash p = cap3_capsule_hash capsule →
    answers r (RActivate <$> wce_pending_ack e) →
    moves id e (OpActivate id saved capsule certificate) r e
| mv_lock saved capsule certificate t x register :
    activation_checked id e capsule certificate t →
    WitnessStore.persist_successor_before_ack hex_encode (wce_register e)
      (cap3_config_ref (wce_capsule e)) (cap3_capsule_hash (wce_capsule e))
      (cap3_config_ref capsule) (cap3_capsule_hash capsule) = (Ok (), register) →
    signed_ack e capsule certificate t = None →
    moves id e (OpActivate id saved capsule certificate) (Err x)
      (update e register (wce_capsule e) None (wce_pending_ack e)
        (wce_rotation_cancellations e))
| mv_ack saved capsule certificate t ack r register :
    activation_checked id e capsule certificate t →
    WitnessStore.persist_successor_before_ack hex_encode (wce_register e)
      (cap3_config_ref (wce_capsule e)) (cap3_capsule_hash (wce_capsule e))
      (cap3_config_ref capsule) (cap3_capsule_hash capsule) = (Ok (), register) →
    signed_ack e capsule certificate t = Some ack →
    answers r (Some (RActivate ack)) →
    moves id e (OpActivate id saved capsule certificate) r
      (update e register (wce_capsule e)
        (Some (with_evidence capsule (Some certificate) None)) (Some ack)
        (wce_rotation_cancellations e))
| mv_finalize saved qc p a r :
    wce_pending_capsule e = Some p → wce_pending_ack e = Some a →
    qc_checked id e p a qc →
    moves id e (OpFinalize id saved qc) r
      (update e (wce_register e)
        (with_evidence p (cap3_activation_certificate p) (Some qc)) None None
        (wce_rotation_cancellations e))
| mv_read (now : option u64) (t : u64) saved challenge r register :
    now = Some t → (erc_issued_at challenge ≤ t < erc_expiry challenge)%N →
    erc_protocol_version challenge = PROTOCOL_VERSION_V3 →
    hex_encode (erc_config_id challenge) = id →
    WitnessStore.observe_read_nonce (wce_register e) (erc_client_nonce challenge)
      = (Ok (), register) →
    answers r (RRead <$> signed_read e challenge) →
    moves id e (OpRead id now saved challenge) r
      (update e register (wce_capsule e) (wce_pending_capsule e) (wce_pending_ack e)
        (wce_rotation_cancellations e)).

(** *** Every answer is such a move *)

Lemma update_self e :
  update e (wce_register e) (wce_capsule e) (wce_pending_capsule e) (wce_pending_ack e)
    (wce_rotation_cancellations e) = e.
Proof. by destruct e. Qed.

Lemma update_update e a b c d f a' b' c' d' f' :
  update (update e a b c d f) a' b' c' d' f' = update e a' b' c' d' f'.
Proof. done. Qed.

Lemma cancel_pending_Err reg pe ph se sh x reg' :
  WitnessStore.cancel_pending_successor hex_encode reg pe ph se sh = (Err x, reg') → reg' = reg.
Proof. unfold WitnessStore.cancel_pending_successor. case_match; congruence. Qed.

Lemma persist_Err reg p ph c h x reg' :
  WitnessStore.persist_successor_before_ack hex_encode reg p ph c h = (Err x, reg') → reg' = reg.
Proof. unfold WitnessStore.persist_successor_before_ack. repeat case_match; congruence. Qed.

Lemma observe_Err reg n x reg' :
  WitnessStore.observe_read_nonce reg n = (Err x, reg') → reg' = reg.
Proof. unfold WitnessStore.observe_read_nonce. case_match; congruence. Qed.

(** A register operation stops with the entry unchanged, or goes on. *)
Lemma on_register_inv {B} op (f : () → OnEntry B) e r e' :
  (∀ x reg, op (wce_register e) = (Err x, reg) → reg = wce_register e) →
  (on_register op ≫= f) e = (r, e') →
  stopped r e e' ∨
  ∃ register, op (wce_register e) = (Ok (), register)
    ∧ f () (update e register (wce_capsule e) (wce_pending_capsule e) (wce_pending_ack e)
              (wce_rotation_cancellations e)) = (r, e').
Proof.
  intros Herr H. unfold mbind, SR_bind, on_register in H.
  destruct (op (wce_register e)) as [[[] | x] register] eqn:E; simpl in H.
  - right. by exists register.
  - injection H as <- <-. left. split; [by eexists |]. by rewrite (Herr _ _ eq_refl), update_self.
Qed.

Lemma stopped_moves {A} id e op (f : A → Response) r e' :
  stopped r e e' → moves id e op (f <$> r) e'.
Proof. intros [[x ->] ->]. apply mv_refused. Qed.

Lemma record_cancellation_inv certificate ch e r e' :
  record_cancellation certificate ch e = (r, e') →
  stopped r e e' ∨
  (r = Ok () ∧ ∃ register ack c, rolled_back e certificate register ack
     ∧ e' = update e register (wce_capsule e) None ack
        (<[hex_encode (ctx_rotation_id (orcc_context certificate)) := c]>
           (wce_rotation_cancellations e))).
Proof.
  unfold record_cancellation, rolled_back. intros H.
  unfold mbind at 1, SR_bind at 1, get at 1 in H. cbv beta iota in H.
  destruct (wce_pending_capsule e) as [p|] eqn:Ep.
  - apply SR_bind_inv in H as [(u & s1 & H1 & H2) | (x & H1 & ->)].
    + sr_step H1; [by destruct H1 as [[? ?] _] |].
      sr_step H1; [by destruct H1 as [[? ?] _] |].
      apply on_register_inv in H1 as [H1 | (register & Hr & H1)];
        [by destruct H1 as [[? ?] _] | | intros ? ? ?; by eapply cancel_pending_Err].
      injection H1 as <- <-. injection H2 as <- <-. right. split; [done |].
      eexists register, None, _. split; [right | reflexivity].
      checks. eexists _, _. by split_and!.
    + left. sr_step H1; [by destruct H1 as [[? [= <-]] ->]; split; [eexists |] |].
      sr_step H1; [by destruct H1 as [[? [= <-]] ->]; split; [eexists |] |].
      apply on_register_inv in H1 as [H1 | (register & Hr & H1)];
        [ by destruct H1 as [[? [= <-]] ->]; split; [eexists |] | done
        | intros ? ? ?; by eapply cancel_pending_Err].
  - injection H as <- <-. right. split; [done |]. eexists _, _, _.
    split; [by left | by rewrite Ep].
Qed.

Lemma on_entry_inv {A} config_id (body : OnEntry A) d id e r d' :
  d !! id = Some e → on_entry config_id body d = (r, d') →
  (config_id ≠ id ∧ d' !! id = Some e)
  ∨ (config_id = id ∧ ∃ e', body e = (r, e') ∧ d' !! id = Some e').
Proof.
  intros He H. unfold on_entry in H. unfold WitnessDisk in *.
  destruct (decide (config_id = id)) as [-> | Hne].
  - rewrite He in H. destruct (body e) as [r' e'] eqn:E. injection H as <- <-.
    right. split; [done |]. exists e'. split; [done |]. by rewrite lookup_insert_eq.
  - left. split; [done |]. destruct (d !! config_id) as [e0|]; [| by injection H as <- <-].
    destruct (body e0). injection H as <- <-. by rewrite lookup_insert_ne.
Qed.

Lemma cancel_locked_moves id e now certificate t saved r e' :
  hex_encode (cr_config_id (ctx_config_ref (orcc_context certificate))) = id →
  owner_rotation_cancel_certificate certificate = Ok t →
  cancel_locked certificate t saved e = (r, e') →
  moves id e (OpCancel id now saved certificate) (RCancel <$> r) e'.
Proof.
  intros Hid Ht H. unfold cancel_locked in H. cbv zeta in H.
  unfold mbind at 1, SR_bind at 1, get at 1 in H. cbv beta iota in H.
  sr_step H; [by apply stopped_moves |]. checks.
  sr_step H; [by apply stopped_moves |].
  checks. assert (Hc : cancel_checked id e certificate t) by by split_and!.
  destruct (wce_rotation_cancellations e !! _) as [existing|] eqn:Ex.
  - sr_step H; [by apply stopped_moves |]. assert (e' = e) as ->.
    { sr_step H; [by destruct H |]. sr_step H; [by destruct H |]. by injection H. }
    by eapply mv_cancel_again.
  - apply SR_bind_inv in H as [(u & s1 & Hrec & H) | (x & Hrec & ->)].
    + apply record_cancellation_inv in Hrec as [[[? ?] _] | (_ & register & ack & c & Hr & ->)];
        [done |].
      assert (e' = update e register (wce_capsule e) None ack
        (<[hex_encode (ctx_rotation_id (orcc_context certificate)) := c]>
           (wce_rotation_cancellations e))) as ->.
      { sr_step H; [by destruct H |]. sr_step H; [by destruct H |]. by injection H. }
      by eapply mv_cancel.
    + apply record_cancellation_inv in Hrec as [[_ ->] | [? _]]; [apply mv_refused | done].
Qed.

Lemma activate_locked_moves id e capsule certificate body t saved r e' :
  hex_encode (cr_config_id (cap3_config_ref capsule)) = id →
  config_capsule_body_v3 capsule = Ok body → cap3_capsule_hash capsule = sha256 body →
  rac_successor certificate = cap3_config_ref capsule →
  rac_successor_capsule_hash certificate = cap3_capsule_hash capsule →
  cap3_predecessor_capsule_hash capsule
    = ctx_predecessor_capsule_hash (rac_context certificate) →
  rotation_activate_certificate certificate = Ok t →
  activate_locked capsule certificate (cap3_capsule_hash capsule) (sha256 t) saved e = (r, e') →
  moves id e (OpActivate id saved capsule certificate) (RActivate <$> r) e'.
Proof.
  intros Hid Hb Hh H1 H2 H3 Ht H. unfold activate_locked in H.
  unfold mbind at 1, SR_bind at 1, get at 1 in H. cbv beta iota in H.
  sr_step H; [by apply stopped_moves |].
  match goal with Hc : bool_decide (is_Some _) = false |- _ =>
    apply bool_decide_eq_false, eq_None_not_Some in Hc end.
  destruct (wce_pending_capsule e) as [p|] eqn:Ep.
  { case_bool_decide as Eh.
    - unfold some_or, lift in H. injection H as <- <-.
      eapply mv_ack_again; [done.. |]. intros Hr.
      destruct (wce_pending_ack e) as [a|]; [| done]. by exists (RActivate a).
    - injection H as <- <-. apply mv_refused. }
  sr_step H; [by apply stopped_moves |]. sr_step H; [by apply stopped_moves |].
  match goal with Hv : for_each _ _ = Ok _ |- _ => rewrite for_each_Ok in Hv end.
  assert (Hok : activation_checked id e capsule certificate t).
  { split_and!; try done. by exists body. }
  apply on_register_inv in H as [H | (register & Hr & H)];
    [by apply stopped_moves | | intros ? ? ?; by eapply persist_Err].
  rewrite Ep in H. unfold wire_ok in H.
  destruct (witness_activation_ack (activation_ack_of e capsule certificate
    (cap3_capsule_hash capsule) (sha256 t) [])) as [tr | err] eqn:Eb.
  - unfold mbind at 1, SR_bind at 1, lift at 1, map_err at 1 in H. cbv beta iota in H.
    unfold mbind at 1, SR_bind at 1, get at 1 in H. cbv beta iota in H.
    unfold mbind at 1, SR_bind at 1, put at 1 in H. cbv beta iota in H.
    destruct saved; unfold save, mbind, SR_bind, lift in H; simpl in H;
      injection H as <- <-; rewrite update_update; (eapply mv_ack; [done | done | by unfold signed_ack; rewrite Eb |]).
    + intros _. eexists. by split.
    + done.
  - unfold mbind at 1, SR_bind at 1, lift at 1, map_err at 1 in H. cbv beta iota in H.
    injection H as <- <-. eapply mv_lock; [done.. |]. by unfold signed_ack; rewrite Eb.
Qed.

Lemma qc_witnesses_Ok e qc ids :
  qc_witnesses e qc = Ok ids ↔
  NoDup (ack_ids qc)
  ∧ (∀ ack, ack ∈ qc_witness_acks qc →
       wce_witness_public_keys e !! waa_witness_id ack = Some (waa_witness_public_key ack)
       ∧ signed (waa_witness_public_key ack) (witness_activation_ack ack)
           (waa_witness_signature ack))
  ∧ ids = list_to_set (ack_ids qc).
Proof.
  unfold qc_witnesses. rewrite for_each_distinct_Ok, (right_id_L ∅ (∪)). unfold signed. split.
  - intros (Hnd & _ & Hall & ->). split_and!; try done. intros ack Hin.
    destruct (Hall ack Hin) as (pin & Hpin%ok_or_Ok & <-%neb_false & Hs).
    split; [done |]. apply bind_Ok in Hs as (b & Hb%map_err_Ok & Hv%map_err_Ok). by exists b.
  - intros (Hnd & Hall & ->).
    split_and!; [done | intros; apply not_elem_of_empty | | done]. intros ack Hin.
    destruct (Hall ack Hin) as (Hpin & b & Hb & Hv). eexists.
    split_and!; [by apply ok_or_Ok | by apply neb_false |].
    apply bind_Ok. exists b. by rewrite !map_err_Ok.
Qed.

Lemma finalize_locked_moves id e qc saved r e' :
  finalize_locked id qc saved e = (r, e') →
  moves id e (OpFinalize id saved qc) ((λ a, RStored a.1) <$> r) e'.
Proof.
  intros H. unfold finalize_locked in H.
  unfold mbind at 1, SR_bind at 1, get at 1 in H. cbv beta iota in H.
  do 8 (sr_step H; [by apply stopped_moves |]).
  unfold mbind at 1, SR_bind at 1, put at 1 in H. cbv beta iota in H.
  match goal with Hc : bool_decide (is_Some _) = false |- _ =>
    apply bool_decide_eq_false, eq_None_not_Some in Hc end.
  match goal with Hw : qc_witnesses _ _ = Ok _ |- _ =>
    apply qc_witnesses_Ok in Hw as (Hnd & Hall & ->) end.
  match goal with Hq : _ = Some ?n, Hb : (N.of_nat _ <? ?n)%N || _ = false |- _ =>
    rewrite usize_exact in Hq by done; injection Hq as <-;
    apply orb_false_iff in Hb as [Hn%N.ltb_ge He%negb_false_iff] end.
  rewrite size_list_to_set in Hn by done.
  rewrite existsb_exists in He. destruct He as (a' & Hin & [_ ->%bool_decide_eq_true]%andb_true_iff).
  apply list_elem_of_In in Hin.
  checks.
  assert (e' = update e (wce_register e)
    (with_evidence x (cap3_activation_certificate x) (Some qc)) None None
    (wce_rotation_cancellations e)) as ->.
  { sr_step H; [by destruct H |]. by injection H. }
  eapply mv_finalize; [done | done |]. unfold qc_checked. split_and!; try done.
  by match goal with Hq : epoch_activation_qc qc = Ok _ |- _ => rewrite Hq end.
Qed.

Lemma read_locked_moves id e (now : option u64) (t : u64) challenge saved r e' :
  now = Some t → (erc_issued_at challenge ≤ t < erc_expiry challenge)%N →
  erc_protocol_version challenge = PROTOCOL_VERSION_V3 →
  hex_encode (erc_config_id challenge) = id →
  read_locked challenge saved e = (r, e') →
  moves id e (OpRead id now saved challenge) (RRead <$> r) e'.
Proof.
  intros Hn Ht Hv Hid H. unfold read_locked in H.
  unfold mbind at 1, SR_bind at 1, get at 1 in H. cbv beta iota in H.
  apply on_register_inv in H as [H | (register & Hr & H)];
    [by apply stopped_moves | | intros ? ? ?; by eapply observe_Err].
  assert (e' = update e register (wce_capsule e) (wce_pending_capsule e) (wce_pending_ack e)
    (wce_rotation_cancellations e)) as ->.
  { sr_step H; [by destruct H |]. sr_step H; [by destruct H |]. by injection H. }
  eapply mv_read; [done.. |]. intros Hok. unfold signed_read.
  sr_step H; [by destruct H as [[? ->] _] |].
  sr_step H; [by destruct H as [[? ->] _] |]. injection H as <-.
  match goal with Hw : witness_epoch_read_response _ = Ok _ |- _ => rewrite Hw end.
  eexists. by split.
Qed.

(** The answer of a handler becomes the node's answer. *)
Lemma answered {A} (m : OnDisk A) (f : A → Response) d r d' :
  (m ≫= λ a, mret (f a)) d = (r, d') → ∃ r0, m d = (r0, d') ∧ r = f <$> r0.
Proof.
  unfold mbind, SR_bind, mret, SR_ret. destruct (m d) as [[a | x] d1]; intros [= <- <-];
    by eexists.
Qed.

(** A check in front of the entry is passed, or the node refuses. *)
Ltac front H :=
  sr_step H; [by destruct H as [[? ->] ->]; eexists; split; [done | apply mv_refused] |].

Lemma provision_keeps token bearer saved provision d r d' id e :
  d !! id = Some e → witness_provision token bearer saved provision d = (r, d') →
  d' !! id = Some e.
Proof.
  intros He H. unfold witness_provision in H.
  do 10 (sr_step H; [by destruct H as [_ ->] |]).
  unfold mbind at 1, SR_bind at 1, get at 1 in H. cbv beta iota in H.
  sr_step H; [by destruct H as [_ ->] |].
  unfold mbind at 1, SR_bind at 1, put at 1 in H. cbv beta iota in H.
  match goal with Hn : bool_decide (is_Some _) = false |- _ =>
    apply bool_decide_eq_false, eq_None_not_Some in Hn end.
  unfold WitnessDisk in *.
  sr_step H; [destruct H as [_ ->] | injection H as _ <-];
    (rewrite lookup_insert_ne; [done |]; intros Heq; congruence).
Qed.

(** What the node does for a configuration it holds. *)
Lemma serve_moves op d r d' id e :
  d !! id = Some e → serve op d = (r, d') →
  ∃ e', d' !! id = Some e' ∧ moves id e op r e'.
Proof.
  intros He H. destruct op; simpl in H; apply answered in H as (r0 & H & ->).
  - exists e. split; [by eapply provision_keeps | apply mv_provision].
  - unfold witness_cancel_rotation in H. do 3 front H. checks.
    apply (on_entry_inv _ _ _ _ _ _ _ He) in H as [[Hne Hd] | (-> & e' & H & Hd)].
    + exists e. split; [done | by apply mv_other_cancel].
    + exists e'. split; [done |]. by eapply cancel_locked_moves.
  - unfold witness_activate in H. do 4 front H. checks.
    apply (on_entry_inv _ _ _ _ _ _ _ He) in H as [[Hne Hd] | (-> & e' & H & Hd)].
    + exists e. split; [done | by apply mv_other_activate].
    + exists e'. split; [done |].
      match goal with Hs : sha256 _ = cap3_capsule_hash capsule |- _ => rewrite Hs in * end.
      by eapply activate_locked_moves.
  - unfold witness_finalize in H.
    apply (on_entry_inv _ _ _ _ _ _ _ He) in H as [[Hne Hd] | (-> & e' & H & Hd)].
    + exists e. split; [done | by apply mv_other_finalize].
    + exists e'. split; [done |]. by apply finalize_locked_moves.
  - unfold witness_read in H. do 4 front H. checks.
    apply (on_entry_inv _ _ _ _ _ _ _ He) in H as [[Hne Hd] | (-> & e' & H & Hd)].
    + exists e. split; [done | by apply mv_other_read].
    + exists e'. split; [done |]. by eapply read_locked_moves.
Qed.

(** ** The invariant of an entry *)

(** A pending successor: it was checked against the served capsule, the ack
    kept with it is the one signed for it, its predecessor is locked to it, and
    its rotation was not cancelled. *)
Definition pending_ok (e : WitnessConfigEntry) (p : ConfigCapsuleV3)
    (a : WitnessActivationAck) : Prop :=
  ∃ certificate t,
    cap3_activation_certificate p = Some certificate
    ∧ (∃ body, config_capsule_body_v3 p = Ok body ∧ cap3_capsule_hash p = sha256 body)
    ∧ is_direct_successor_of (cap3_config_ref p) (cap3_config_ref (wce_capsule e)) = true
    ∧ rac_successor certificate = cap3_config_ref p
    ∧ rac_successor_capsule_hash certificate = cap3_capsule_hash p
    ∧ cap3_predecessor_capsule_hash p
      = ctx_predecessor_capsule_hash (rac_context certificate)
    ∧ rotation_activate_certificate certificate = Ok t
    ∧ stale_or_downgraded e p certificate = false
    ∧ (∀ vote, vote ∈ rac_votes certificate → check_pinned_vote e vote = Ok ())
    ∧ a = activation_ack_of e p certificate (cap3_capsule_hash p) (sha256 t)
            (waa_witness_signature a)
    ∧ WitnessStore.wes_predecessor_locks (wce_register e)
        !! hex_encode (cap3_capsule_hash (wce_capsule e)) = Some (cap3_capsule_hash p)
    ∧ wce_rotation_cancellations e
        !! hex_encode (ctx_rotation_id (rac_context certificate)) = None.

Definition entry_ok (id : string) (e : WitnessConfigEntry) : Prop :=
  hex_encode (cr_config_id (cap3_config_ref (wce_capsule e))) = id
  ∧ match wce_pending_capsule e, wce_pending_ack e with
    | None, None => True
    | Some p, Some a => pending_ok e p a
    | _, _ => False
    end.

Abbreviation locks e := (WitnessStore.wes_predecessor_locks (wce_register e)).

Lemma persist_Ok reg pre preh suc such reg' :
  WitnessStore.persist_successor_before_ack hex_encode reg pre preh suc such = (Ok (), reg') →
  is_direct_successor_of suc pre = true
  ∧ WitnessStore.wes_predecessor_locks reg' !! hex_encode preh = Some such
  ∧ (∀ k s, WitnessStore.wes_predecessor_locks reg !! k = Some s →
       WitnessStore.wes_predecessor_locks reg' !! k = Some s)
  ∧ WitnessStore.wes_seen_read_nonces reg' = WitnessStore.wes_seen_read_nonces reg.
Proof.
  unfold WitnessStore.persist_successor_before_ack. intros H.
  destruct (is_direct_successor_of suc pre); [| done]. simpl in H.
  destruct (WitnessStore.wes_predecessor_locks reg !! hex_encode preh) as [x|] eqn:El.
  - case_bool_decide as E; [| done]. injection H as <-. subst x. by split_and!.
  - destruct (_ || _); [done |]. injection H as <-. simpl.
    split_and!; [done | by rewrite lookup_insert_eq | | done]. intros k s Hk.
    rewrite lookup_insert_ne; [done |]. intros <-. congruence.
Qed.

Lemma observe_Ok reg n reg' :
  WitnessStore.observe_read_nonce reg n = (Ok (), reg') →
  WitnessStore.wes_predecessor_locks reg' = WitnessStore.wes_predecessor_locks reg
  ∧ (n ∉ WitnessStore.wes_seen_read_nonces reg)
  ∧ WitnessStore.wes_seen_read_nonces reg' = {[n]} ∪ WitnessStore.wes_seen_read_nonces reg.
Proof.
  unfold WitnessStore.observe_read_nonce. case_bool_decide; [done |]. by intros [= <-].
Qed.

Lemma cancel_pending_Ok reg pe ph se sh reg' :
  WitnessStore.cancel_pending_successor hex_encode reg pe ph se sh = (Ok (), reg') →
  WitnessStore.wes_seen_read_nonces reg' = WitnessStore.wes_seen_read_nonces reg.
Proof.
  unfold WitnessStore.cancel_pending_successor. case_match; [done |]. by intros [= <-].
Qed.

Lemma signed_ack_Some e capsule certificate t ack :
  signed_ack e capsule certificate t = Some ack →
  ack = activation_ack_of e capsule certificate (cap3_capsule_hash capsule) (sha256 t)
          (waa_witness_signature ack).
Proof. unfold signed_ack. case_match; [| done]. by intros [= <-]. Qed.

Lemma moves_entry_ok id e op r e' : entry_ok id e → moves id e op r e' → entry_ok id e'.
Proof.
  intros [Hid Hp] Hm. destruct Hm; try (split; [exact Hid | exact Hp]).
  - split; [exact Hid |]. simpl.
    match goal with Hr : rolled_back _ _ _ _ |- _ =>
      destruct Hr as [(Hn & _ & ->) | (? & ? & _ & _ & _ & -> & _)] end; [| done].
    by rewrite Hn in Hp.
  - destruct H as (_&_&_&_&_&_&_&Hn&_). rewrite Hn in Hp. by split.
  - split; [exact Hid |]. simpl.
    destruct H as (_ & (body & Hb & Hh) & E1 & E2 & E3 & Ht & Hc & _ & Hs & Hv).
    apply persist_Ok in H0 as (Hd & Hl & _). exists certificate, t.
    split_and!; try done; [by exists body |]. by apply signed_ack_Some.
  - destruct H1 as (_ & _ & Hcfg & Hhex & _). split; [| done]. simpl. by rewrite <- Hcfg.
  - split; [exact Hid |]. simpl. apply observe_Ok in H3 as (Hl & _).
    destruct (wce_pending_capsule e), (wce_pending_ack e); try done.
    destruct Hp as (certificate & t' & Hp). exists certificate, t'.
    destruct_and! Hp. split_and!; try done. simpl. by rewrite Hl.
Qed.

(** What no request changes, and the epoch, which only grows. *)
Record same_policy (e e' : WitnessConfigEntry) : Prop := {
  sp_owner : cap3_owner_cancel_public_key (wce_capsule e')
    = cap3_owner_cancel_public_key (wce_capsule e);
  sp_signers : wce_signer_public_keys e' = wce_signer_public_keys e;
  sp_witnesses : wce_witness_public_keys e' = wce_witness_public_keys e;
  sp_fault : wce_witness_fault_bound e' = wce_witness_fault_bound e;
  sp_set : cap3_signer_set_commitment (wce_capsule e')
    = cap3_signer_set_commitment (wce_capsule e);
  sp_count : cap3_signer_count (wce_capsule e') = cap3_signer_count (wce_capsule e);
  sp_config : cr_config_id (cap3_config_ref (wce_capsule e'))
    = cr_config_id (cap3_config_ref (wce_capsule e));
  sp_epoch : (epoch_of (wce_capsule e) ≤ epoch_of (wce_capsule e'))%N
}.

#[export] Instance same_policy_preorder : PreOrder same_policy.
Proof.
  split.
  - intros e. by split.
  - intros e1 e2 e3 [] []. split; try congruence. lia.
Qed.

Lemma moves_same_policy id e op r e' :
  entry_ok id e → moves id e op r e' → same_policy e e'.
Proof.
  intros [_ Hp] Hm. destruct Hm; try (by split).
  rewrite H, H0 in Hp. destruct Hp as (certificate & t & _ & _ & Hd & _ & _ & _ & _ & Hs & _).
  unfold stale_or_downgraded in Hs. checks.
  apply is_direct_successor_of_spec in Hd as (Hc & _ & _ & He & _).
  split; simpl; try done. unfold epoch_of. simpl. rewrite He. apply sat_add_le.
Qed.

(** A cancellation request for [id] under the owner's signature. *)
Definition is_veto (id : string) (owner : barr 32) (entry : Op * Result ApiError Response) :
    bool :=
  match entry.1 with
  | OpCancel id' _ _ certificate =>
      bool_decide (id' = id)
      && match owner_rotation_cancel_certificate certificate with
         | Ok t => is_ok (verify owner t (orcc_owner_signature certificate))
         | Err _ => false
         end
  | _ => false
  end.

Definition vetoed (id : string) (owner : barr 32) (h : list (Op * Result ApiError Response)) :
    bool := existsb (is_veto id owner) h.

(** Locks are only lost to a veto. *)
Lemma moves_locks id e op r e' k x :
  moves id e op r e' →
  is_veto id (cap3_owner_cancel_public_key (wce_capsule e)) (op, r) = false →
  locks e !! k = Some x → locks e' !! k = Some x.
Proof.
  intros Hm Hv Hk. destruct Hm; simpl; try done.
  - unfold is_veto in Hv. simpl in Hv. destruct H as (_ & Ht & _ & _ & Hs).
    by rewrite bool_decide_eq_true_2, Ht, Hs in Hv.
  - apply persist_Ok in H0 as (_ & _ & Hl & _). by apply Hl.
  - apply persist_Ok in H0 as (_ & _ & Hl & _). by apply Hl.
  - apply observe_Ok in H3 as [-> _]. done.
Qed.

(** An acknowledged successor is locked. *)
Lemma moves_acked id e saved capsule certificate a e' :
  entry_ok id e → moves id e (OpActivate id saved capsule certificate) (Ok (RActivate a)) e' →
  locks e' !! hex_encode (waa_predecessor_capsule_hash a) = Some (waa_successor_capsule_hash a)
  ∧ waa_predecessor_capsule_hash a = cap3_capsule_hash (wce_capsule e)
  ∧ wce_rotation_cancellations e
      !! hex_encode (ctx_rotation_id (waa_context a)) = None.
Proof.
  intros [_ Hp] Hm. inversion Hm; subst; try done.
  - match goal with Hn : wce_pending_capsule e' = Some p |- _ => rewrite Hn in Hp end.
    match goal with Ha : answers _ _ |- _ => destruct (Ha eq_refl) as (x & Hx & [= <-]) end.
    destruct (wce_pending_ack e') as [b|]; [| done]. injection Hx as ->.
    destruct Hp as (k & t & _&_&_&_&_&_&_&_&_& -> & Hl & Hc). by split_and!.
  - match goal with Ha : answers _ _ |- _ => destruct (Ha eq_refl) as (x & [= <-] & [= <-]) end.
    match goal with Hs : signed_ack _ _ _ _ = _ |- _ => apply signed_ack_Some in Hs as -> end.
    match goal with Hr : WitnessStore.persist_successor_before_ack _ _ _ _ _ _ = _ |- _ =>
      apply persist_Ok in Hr as (_ & Hl & _) end.
    match goal with Hc : activation_checked _ _ _ _ _ |- _ =>
      destruct Hc as (_&_&_&_&_&_& Hc &_) end. by split_and!.
Qed.

(** ** Runs *)

Abbreviation Entry := (Op * Result ApiError Response)%type.

(** [ran d0 h d]: the node started with [d0] answered the requests of [h], the
    most recent first, and now holds [d]. *)
Inductive ran (d0 : WitnessDisk) : list Entry → WitnessDisk → Prop :=
| ran_start : ran d0 [] d0
| ran_serve h d op r d' : ran d0 h d → serve op d = (r, d') → ran d0 ((op, r) :: h) d'.

(** *** Writes of the state file, and restarts *)

(** Whether the state file can be written during a request. *)
Definition op_saved (op : Op) : bool :=
  match op with
  | OpProvision _ _ saved _ | OpCancel _ _ saved _ | OpActivate _ saved _ _
  | OpFinalize _ saved _ | OpRead _ _ saved _ => saved
  end.
Definition with_saved (saved : bool) (op : Op) : Op :=
  match op with
  | OpProvision token bearer _ provision => OpProvision token bearer saved provision
  | OpCancel id now _ certificate => OpCancel id now saved certificate
  | OpActivate id _ capsule certificate => OpActivate id saved capsule certificate
  | OpFinalize id _ qc => OpFinalize id saved qc
  | OpRead id now _ challenge => OpRead id now saved challenge
  end.

(** The answer is that the write failed. *)
Definition failed_save {A} (r : Result ApiError A) : bool :=
  match r with Err (bad_request OfSave) => true | _ => false end.

(** The handler reaches [store.save()]: it is where a failing write is answered. *)
Definition writes (op : Op) (d : WitnessDisk) : bool :=
  failed_save (serve (with_saved false op) d).1.

(** The file after a request that left the memory [d'].  No handler changes its
    data after [store.save()], so that is what a write stores; one that fails
    can have stored it nevertheless, when the file was renamed but its
    directory not synced. *)
Definition file_after (op : Op) (renamed : bool) (s : Persisted WitnessDisk) (d' : WitnessDisk) :
    WitnessDisk :=
  if writes op (data s) && (op_saved op || renamed) then d' else file s.

Inductive Event : Set :=
| Served (op : Op) (r : Result ApiError Response)
| Restarted.

(** [lived h s]: the node, started on an empty disk, went through the events of
    [h], the most recent first, and now holds [s] in memory and in its file; a
    restart reads the file. *)
Inductive lived (s0 : Persisted WitnessDisk) : list Event → Persisted WitnessDisk → Prop :=
| lived_start : lived s0 [] s0
| lived_serve h s op r d' renamed :
    lived s0 h s → serve op (data s) = (r, d') →
    lived s0 (Served op r :: h) (mkPersisted d' (file_after op renamed s d'))
| lived_restart h s : lived s0 h s → lived s0 (Restarted :: h) (reload s).

(** The requests of a life. *)
Definition served (h : list Event) : list Entry :=
  omap (λ ev, match ev with Served op r => Some (op, r) | Restarted => None end) h.

Lemma served_app h1 h2 : served (h1 ++ h2) = served h1 ++ served h2.
Proof. apply omap_app. Qed.

Lemma lived_split s0 h2 h1 s :
  lived s0 (h2 ++ h1) s → ∃ s1, lived s0 h1 s1 ∧ lived s1 h2 s.
Proof.
  revert s. induction h2 as [| ev h2 IH]; intros s H; simpl in H.
  - exists s. split; [done | apply lived_start].
  - inversion H as [| ? s' ? ? ? ? H' | ? s' H']; subst; apply IH in H' as (s1 & ? & ?);
      exists s1; (split; [done |]); by econstructor.
Qed.

(** Without restarts the file does not matter. *)
Lemma lived_ran s0 h s : lived s0 h s → Restarted ∉ h → ran (data s0) (served h) (data s).
Proof.
  induction 1 as [| h s op r d' renamed H IH Hs | h s H IH]; intros Hn.
  - apply ran_start.
  - eapply ran_serve; [apply IH; set_solver | done].
  - exfalso. apply Hn. by left.
Qed.

(** Restarts that find in the file what was in memory do not matter either. *)
Lemma lived_lossless s0 h s :
  lived s0 h s →
  (∀ h2 h1 s1, h = h2 ++ Restarted :: h1 → lived s0 h1 s1 → file s1 = data s1) →
  ran (data s0) (served h) (data s).
Proof.
  induction 1 as [| h s op r d' renamed H IH Hs | h s H IH]; intros Hf.
  - apply ran_start.
  - eapply ran_serve; [| done]. apply IH. intros h2 h1 s1 ->.
    by apply (Hf (Served op r :: h2)).
  - simpl. rewrite (Hf [] h s eq_refl H). apply IH. intros h2 h1 s1 ->.
    by apply (Hf (Restarted :: h2)).
Qed.

(** [unwritten p x m m' s]: when [m], whose write fails, does not reach it, [m']
    leaves [x] as the [p] of the state. *)
Definition unwritten {S X A} (p : S → X) (x : X) (m m' : SR S ApiError A) (s : S) : Prop :=
  failed_save (m s).1 = false → p (m' s).2 = x.

Lemma unwritten_lift {S X A B} (p : S → X) x (c : Result ApiError A)
    (f g : A → SR S ApiError B) s :
  p s = x → (∀ a, c = Ok a → unwritten p x (f a) (g a) s) →
  unwritten p x (lift c ≫= f) (lift c ≫= g) s.
Proof. intros He Hf. destruct c as [a |]; [by apply Hf | by intros _]. Qed.

Lemma unwritten_get {S X B} (p : S → X) x (f g : S → SR S ApiError B) s :
  unwritten p x (f s) (g s) s → unwritten p x (get ≫= f) (get ≫= g) s.
Proof. done. Qed.

Lemma unwritten_register {B} x op (f g : () → OnEntry B) e :
  wce_pending_ack e = x →
  (∀ e', wce_pending_ack e' = x → unwritten wce_pending_ack x (f ()) (g ()) e') →
  unwritten wce_pending_ack x (on_register op ≫= f) (on_register op ≫= g) e.
Proof.
  intros He Hf. unfold unwritten, mbind, SR_bind, on_register.
  destruct (op (wce_register e)) as [[[] |] register]; [| by intros _].
  by apply (Hf (update e register _ _ _ _)).
Qed.

(** An activation that does not reach its write leaves the acknowledgement. *)
Lemma activate_unwritten capsule certificate h1 h2 saved e :
  unwritten wce_pending_ack (wce_pending_ack e)
    (activate_locked capsule certificate h1 h2 false)
    (activate_locked capsule certificate h1 h2 saved) e.
Proof.
  unfold activate_locked, refuse_if, some_or, wire_ok, bad. apply unwritten_get.
  apply unwritten_lift; [done |]. intros _ _.
  destruct (wce_pending_capsule e) as [pending |].
  { unfold unwritten. by destruct (bool_decide _). }
  do 2 (apply unwritten_lift; [done |]; intros _ _).
  apply unwritten_register; [done |]. intros e' He'.
  apply unwritten_lift; [done |]. by intros t _.
Qed.

Lemma unwritten_acks id saved capsule certificate d r d' k :
  serve (OpActivate id saved capsule certificate) d = (r, d') →
  writes (OpActivate id saved capsule certificate) d = false →
  wce_pending_ack <$> d' !! k = wce_pending_ack <$> d !! k.
Proof.
  intros Hs. pose proof (f_equal snd Hs) as Hd. simpl in Hd. subst d'. clear Hs. revert k.
  assert (H : ∀ k, unwritten (λ d, wce_pending_ack <$> d !! k) (wce_pending_ack <$> d !! k)
    (witness_activate id false capsule certificate)
    (witness_activate id saved capsule certificate) d).
  { intros k. unfold witness_activate, refuse_if, wire_ok.
    do 4 (apply unwritten_lift; [done |]; intros ? ?).
    intros Hf. unfold on_entry in *. unfold WitnessDisk in *.
    destruct (d !! id) as [e |] eqn:He; [| done].
    pose proof (activate_unwritten capsule certificate (sha256 a0) (sha256 a2) saved e) as Ha.
    unfold unwritten in Ha.
    destruct (activate_locked _ _ _ _ false e) as [r0 e0].
    destruct (activate_locked _ _ _ _ saved e) as [r1 e1]. simpl in *.
    destruct (decide (id = k)) as [<- |]; [| by rewrite lookup_insert_ne].
    rewrite lookup_insert_eq, He. simpl. f_equal. by apply Ha. }
  intros k Hw. specialize (H k). unfold unwritten in H.
  unfold writes in Hw. simpl in Hw |- *. unfold mbind, SR_bind in *.
  destruct (witness_activate id false capsule certificate d) as [[a |e0] d0];
  destruct (witness_activate id saved capsule certificate d) as [[a' |e1] d1];
  simpl in *; by apply H.
Qed.

(** The same for one configuration. *)
Inductive evolves (id : string) (e0 : WitnessConfigEntry) :
    list Entry → WitnessConfigEntry → Prop :=
| evolves_start : evolves id e0 [] e0
| evolves_move h e op r e' :
    evolves id e0 h e → moves id e op r e' → evolves id e0 ((op, r) :: h) e'.

Lemma ran_evolves d0 h d id e0 :
  d0 !! id = Some e0 → ran d0 h d → ∃ e, d !! id = Some e ∧ evolves id e0 h e.
Proof.
  intros He0. induction 1 as [|h d op r d' Hr (e & He & Hev) Hs].
  - exists e0. split; [done | apply evolves_start].
  - destruct (serve_moves op d r d' id e He Hs) as (e' & He' & Hm). exists e'.
    split; [done |]. by eapply evolves_move.
Qed.

Lemma evolves_ok id e0 h e :
  entry_ok id e0 → evolves id e0 h e → entry_ok id e ∧ same_policy e0 e.
Proof.
  intros H0. induction 1 as [|h e op r e' Hev [Hok Hsp] Hm]; [by split |].
  split; [by eapply moves_entry_ok |]. etrans; [done |]. by eapply moves_same_policy.
Qed.

(** The acknowledgements given for [id]. *)
Definition acks (id : string) (h : list Entry) : list WitnessActivationAck :=
  omap (λ e, match e with
    | (OpActivate id' _ _ _, Ok (RActivate a)) => if bool_decide (id' = id) then Some a else None
    | _ => None end) h.

(** The reads answered for [id]. *)
Definition reads (id : string) (h : list Entry) : list WitnessReadEnvelope :=
  omap (λ e, match e with
    | (OpRead id' _ _ _, Ok (RRead v)) => if bool_decide (id' = id) then Some v else None
    | _ => None end) h.

(** While no veto comes in, a lock stays and every acknowledgement obeys it. *)
Lemma evolves_locked id e0 h e k x :
  entry_ok id e0 → evolves id e0 h e →
  vetoed id (cap3_owner_cancel_public_key (wce_capsule e0)) h = false →
  locks e0 !! k = Some x →
  locks e !! k = Some x
  ∧ ∀ a, a ∈ acks id h → hex_encode (waa_predecessor_capsule_hash a) = k →
      waa_successor_capsule_hash a = x.
Proof.
  intros H0 Hev Hv Hk. induction Hev as [|h e op r e' Hev IH Hm].
  { split; [done |]. by intros ? ?%elem_of_nil. }
  simpl in Hv. apply orb_false_iff in Hv as [Hv Hvs]. destruct (IH Hvs) as [Hl Hall].
  destruct (evolves_ok _ _ _ _ H0 Hev) as [Hok Hsp]. rewrite <- (sp_owner _ _ Hsp) in Hv.
  pose proof (moves_locks _ _ _ _ _ k x Hm Hv Hl) as Hl'. split; [done |].
  intros a Ha Hak. unfold acks in Ha. simpl in Ha.
  destruct op as [| |id' saved capsule certificate | |]; try (by apply Hall).
  destruct r as [[| |b|]|]; try (by apply Hall).
  case_bool_decide as Eid; [| by apply Hall]. subst id'.
  apply elem_of_cons in Ha as [-> | Ha]; [| by apply Hall].
  destruct (moves_acked _ _ _ _ _ _ _ Hok Hm) as (Hb & _). rewrite Hak in Hb. congruence.
Qed.


Lemma evolves_split id e0 h2 h1 e :
  evolves id e0 (h2 ++ h1) e → ∃ e1, evolves id e0 h1 e1 ∧ evolves id e1 h2 e.
Proof.
  revert e. induction h2 as [|[op r] h2 IH]; intros e H; simpl in H.
  - exists e. split; [done | apply evolves_start].
  - inversion H as [|? e1 ? ? ? Hev Hm]; subst. apply IH in Hev as (e2 & ? & ?).
    exists e2. split; [done |]. by eapply evolves_move.
Qed.

(** Cancellations are never forgotten, and shut out their rotation. *)
Lemma moves_cancelled id e op r e' k :
  moves id e op r e' → is_Some (wce_rotation_cancellations e !! k) →
  is_Some (wce_rotation_cancellations e' !! k).
Proof.
  intros Hm Hk. destruct Hm; simpl; try done.
  destruct (decide (hex_encode (ctx_rotation_id (orcc_context certificate)) = k)) as [<- |].
  - rewrite lookup_insert_eq. by eexists.
  - by rewrite lookup_insert_ne.
Qed.

Lemma evolves_cancelled id e0 h e rid :
  entry_ok id e0 → evolves id e0 h e →
  is_Some (wce_rotation_cancellations e0 !! hex_encode rid) →
  is_Some (wce_rotation_cancellations e !! hex_encode rid)
  ∧ (∀ a, a ∈ acks id h → ctx_rotation_id (waa_context a) ≠ rid)
  ∧ (∀ saved qc a, (OpFinalize id saved qc, Ok a) ∈ h → qc_rotation_id qc ≠ rid).
Proof.
  intros H0 Hev Hc. induction Hev as [|h e op r e' Hev IH Hm].
  { split_and!; [done | by intros ? ?%elem_of_nil.. |]. by intros ? ? ? ?%elem_of_nil. }
  destruct IH as (IH1 & IH2 & IH3). destruct (evolves_ok _ _ _ _ H0 Hev) as [Hok _].
  split_and!; [by eapply moves_cancelled | |].
  - intros a Ha. unfold acks in Ha. simpl in Ha.
    destruct op as [| |id' saved capsule certificate | |]; try (by apply IH2).
    destruct r as [[| |b|]|]; try (by apply IH2).
    case_bool_decide as Eid; [| by apply IH2]. subst id'.
    apply elem_of_cons in Ha as [-> | Ha]; [| by apply IH2].
    destruct (moves_acked _ _ _ _ _ _ _ Hok Hm) as (_ & _ & Hn).
    intros Hr. rewrite Hr in Hn. destruct IH1. congruence.
  - intros saved qc a [Heq | Hin]%elem_of_cons; [| by eapply IH3].
    injection Heq as <- <-. inversion Hm; subst; [done |].
    match goal with Hq : qc_checked _ _ _ _ _ |- _ => destruct Hq as (_ & Hn & _) end.
    intros Hr. rewrite Hr in Hn. destruct IH1. congruence.
Qed.

(** *** The nonces of reads *)

Lemma moves_nonces id e op r e' :
  moves id e op r e' →
  WitnessStore.wes_seen_read_nonces (wce_register e)
  ⊆ WitnessStore.wes_seen_read_nonces (wce_register e').
Proof.
  intros Hm. destruct Hm; simpl; try done.
  - destruct H1 as [(_ & -> & _) | (p & k & _ & _ & _ & _ & Hc)]; [done |].
    by rewrite (cancel_pending_Ok _ _ _ _ _ _ Hc).
  - apply persist_Ok in H0 as (_ & _ & _ & ->). done.
  - apply persist_Ok in H0 as (_ & _ & _ & ->). done.
  - apply observe_Ok in H3 as (_ & _ & ->). set_solver.
Qed.

(** A read is answered with the served capsule, for a nonce not seen before. *)
Lemma moves_read id e now saved challenge v e' :
  moves id e (OpRead id now saved challenge) (Ok (RRead v)) e' →
  signed_read e challenge = Some v
  ∧ (erc_client_nonce challenge ∉ WitnessStore.wes_seen_read_nonces (wce_register e))
  ∧ erc_client_nonce challenge ∈ WitnessStore.wes_seen_read_nonces (wce_register e').
Proof.
  intros Hm. inversion Hm; subst; try done.
  match goal with Ha : answers _ _ |- _ => destruct (Ha eq_refl) as (x & Hx & [= <-]) end.
  match goal with Hr : WitnessStore.observe_read_nonce _ _ = _ |- _ =>
    apply observe_Ok in Hr as (_ & Hn & Hs) end.
  destruct (signed_read e challenge) as [b|]; [| done]. injection Hx as ->.
  split_and!; [done | done |]. simpl. rewrite Hs. set_solver.
Qed.

Lemma signed_read_Some e challenge v :
  signed_read e challenge = Some v →
  wre_capsule v = wce_capsule e
  ∧ wre_response v = read_response_of e challenge (werr_witness_signature (wre_response v)).
Proof. unfold signed_read. case_match; [| done]. by intros [= <-]. Qed.

(** The reads of a run: each serves what the node held at the time. *)
Lemma evolves_reads id e0 h e :
  evolves id e0 h e →
  NoDup (werr_client_nonce ∘ wre_response <$> reads id h)
  ∧ ∀ v, v ∈ reads id h →
      werr_client_nonce (wre_response v)
        ∈ WitnessStore.wes_seen_read_nonces (wce_register e)
      ∧ ∃ h1 e1 challenge, h1 `suffix_of` h ∧ evolves id e0 h1 e1
          ∧ signed_read e1 challenge = Some v.
Proof.
  induction 1 as [|h e op r e' Hev IH Hm]; [by split; [constructor | intros ? ?%elem_of_nil] |].
  destruct IH as [Hnd Hall].
  assert (Hold : ∀ v, v ∈ reads id h →
      werr_client_nonce (wre_response v)
        ∈ WitnessStore.wes_seen_read_nonces (wce_register e')
      ∧ ∃ h1 e1 challenge, h1 `suffix_of` (op, r) :: h ∧ evolves id e0 h1 e1
          ∧ signed_read e1 challenge = Some v).
  { intros v Hv. destruct (Hall v Hv) as (Hn & h1 & e1 & challenge & Hs & Hev1 & Hr).
    split; [by apply (moves_nonces _ _ _ _ _ Hm) |]. exists h1, e1, challenge.
    split_and!; [by apply suffix_cons_r | done | done]. }
  unfold reads. simpl.
  destruct op as [| | | |id' now saved challenge]; try (by split).
  destruct r as [[| | |v]|]; try (by split).
  case_bool_decide as Eid; [| by split]. subst id'.
  apply moves_read in Hm as (Hr & Hn & Hn').
  destruct (signed_read_Some _ _ _ Hr) as [_ Hresp].
  assert (Hnonce : werr_client_nonce (wre_response v) = erc_client_nonce challenge)
    by by rewrite Hresp.
  simpl. rewrite list.NoDup_cons. split; [split; [| done] |].
  - intros (w & Hw & Hin)%list_elem_of_fmap. destruct (Hall w Hin) as [Hsw _].
    simpl in Hw. rewrite Hnonce in Hw. by rewrite <- Hw in Hsw.
  - intros w [-> | Hin]%elem_of_cons; [| by apply Hold].
    split; [by rewrite Hnonce |]. exists h, e, challenge.
    split_and!; [by apply suffix_cons_r | done | done].
Qed.

(** ** Served capsules pass the clients' validation *)

(** The card a client holds pins this node's configuration and witnesses. *)
Record card_matches (card : RecoveryCardV3) (e : WitnessConfigEntry) : Prop := {
  cm_card : card_ok card;
  cm_config : card3_config_id card = cr_config_id (cap3_config_ref (wce_capsule e));
  cm_set : card3_signer_set_commitment card = cap3_signer_set_commitment (wce_capsule e);
  cm_owner : card3_owner_cancel_public_key card
    = cap3_owner_cancel_public_key (wce_capsule e);
  cm_fault : card3_witness_fault_bound card = wce_witness_fault_bound e;
  cm_witnesses : wce_witness_public_keys e = pin_public_key <$> witness_pins card
}.

(** A pinned signer signs a vote only with its own membership proof. *)
Definition signers_know_their_leaf (e : WitnessConfigEntry) : Prop :=
  ∀ vote, wce_signer_public_keys e !! srav_signer_id vote = Some (srav_signer_public_key vote) →
    signed (srav_signer_public_key vote) (signer_rotation_activate_vote vote)
      (srav_signer_signature vote) →
    member (wce_capsule e) (srav_signer_id vote) (srav_signer_public_key vote)
      (srav_signer_membership_proof vote).

Lemma card_matches_same card e e' :
  same_policy e e' → card_matches card e → card_matches card e'.
Proof. intros [] []. split; congruence. Qed.

Lemma signers_know_same e e' :
  same_policy e e' → signers_know_their_leaf e → signers_know_their_leaf e'.
Proof.
  intros [] H vote Hk Hs. rewrite sp_signers0 in Hk.
  destruct (H vote Hk Hs) as [Hr Hl]. unfold member in *. by rewrite sp_count0, sp_set0.
Qed.

Lemma finalized_activated card id e p a qc :
  card_matches card e → signers_know_their_leaf e → entry_ok id e →
  activated card (wce_capsule e) →
  wce_pending_capsule e = Some p → wce_pending_ack e = Some a → qc_checked id e p a qc →
  activated card (with_evidence p (cap3_activation_certificate p) (Some qc)).
Proof.
  intros [] Hsig [_ Hp] Hact Ep Ea Hqc. rewrite Ep, Ea in Hp.
  destruct Hp as (k & t & Hk & (body & Hb & Hh) & Hd & E1 & E2 & E3 & Ht & Hs & Hv & Hack & _).
  unfold stale_or_downgraded in Hs. checks.
  pose proof Hd as Hd'. apply is_direct_successor_of_spec in Hd' as (D1 & D2 & D3 & D4 & _).
  destruct Hqc as (Q1&_&Q3&_&Q5&Q6&Q7&Q8&Q9&Q10&Q11&Qnd&Qall&Qn&_).
  assert (Hep : (1 ≤ epoch_of (wce_capsule e))%N).
  { destruct Hact as (_&_&_&_&_&_& [(-> & _) | (_ & k' & h' & q' & _ & _ & Hk' & _)]); [done |].
    destruct Hk' as (_&_&_&_&_& He6 & _). unfold epoch_of.
    rewrite <- He6, uval_sat_add. change (uval (U64 1)) with 1%N. lia. }
  assert (Hv3 : cap3_protocol_version p = PROTOCOL_VERSION_V3).
  { unfold config_capsule_body_v3 in Hb. apply guard_Ok in Hb as [Hb _]. by checks. }
  unfold activated. simpl.
  split_and!; try congruence; [by exists body |]. right. unfold epoch_of at 1. simpl. split.
  { rewrite D4, uval_sat_add. unfold epoch_of in Hep. change (uval (U64 1)) with 1%N. lia. }
  exists k, (sha256 t), qc. split_and!; try done.
  - unfold activate_certificate_ok. simpl.
    match goal with Hr : ctx_config_ref (rac_context k) = _ |- _ => rewrite Hr end.
    split_and!; try congruence; [by exists t |]. unfold signer_quorum. split_and!.
    + unfold rotation_activate_certificate in Ht.
      by apply bind_Ok in Ht as ([] & [Hnd _]%unique_ids_Ok & _).
    + intros v Hin. pose proof (Hv v Hin) as Hc. unfold check_pinned_vote in Hc.
      apply bind_Ok in Hc as ([] & Hpin%fail_if_Ok & Hc). rewrite neb_false in Hpin.
      apply bind_Ok in Hc as (b & Hvb%map_err_Ok & Hvs%map_err_Ok).
      assert (Hsv : signed (srav_signer_public_key v) (signer_rotation_activate_vote v)
        (srav_signer_signature v)) by by exists b.
      split; [| done]. destruct (Hsig v Hpin Hsv) as [Hr Hl]. unfold member in *. simpl.
      repeat match goal with E : _ p = _ (wce_capsule e) |- _ => rewrite E; clear E end.
      done.
    + simpl. congruence.
  - unfold activation_qc_ok. unfold epoch_of in *. simpl.
    rewrite Hack in Q6, Q7, Q8, Q11. simpl in Q6, Q7, Q8, Q11.
    destruct (epoch_activation_qc qc) as [qt|] eqn:Hqt; [| done].
    pose proof (epoch_activation_qc_Ok qc qt Hqt) as (_ & _ & _ & _ & _ & Hbound).
    split_and!; try congruence.
    + rewrite Q7. unfold epoch_of. congruence.
    + intros ack Hin. split; [by apply Hbound |].
      destruct (Qall ack Hin) as [Hl Hsa]. rewrite cm_witnesses0, lookup_fmap in Hl.
      destruct (witness_pins card !! waa_witness_id ack) as [pin|] eqn:Epin; [| done].
      injection Hl as Hl. exists pin. rewrite Hl. by split_and!.
Qed.

Lemma evolves_activated card id e0 h e :
  card_matches card e0 → signers_know_their_leaf e0 → entry_ok id e0 →
  activated card (wce_capsule e0) → evolves id e0 h e → activated card (wce_capsule e).
Proof.
  intros Hc Hs H0 Ha Hev. induction Hev as [|h e op r e' Hev IH Hm]; [done |].
  destruct (evolves_ok _ _ _ _ H0 Hev) as [Hok Hsp].
  destruct Hm; simpl; try done. apply (finalized_activated card id e p a qc); try done.
  - by eapply card_matches_same.
  - by eapply signers_know_same.
Qed.

End handlers.
End WitnessServer.
