(* ===== verification/WitnessProps.v ===== *)
(** What a config witness node does: from an empty disk, through any sequence of
    requests, to the acknowledgements and reads it signs; that it acknowledges
    one successor of a capsule is shown over restarts too. *)

From S2P Require Import WitnessServer Scenario.
Import WitnessServer.

Section node.
Context `{Prims : Primitives} (hex_encode : Id32 → string) (kem_seed : Id32).

#[local] Abbreviation serve := (serve hex_encode kem_seed).
#[local] Abbreviation ran := (ran hex_encode kem_seed).
#[local] Abbreviation evolves := (evolves hex_encode kem_seed).
#[local] Abbreviation Entry := (Op * Result ApiError Response)%type.
#[local] Abbreviation entry_ok := (entry_ok hex_encode kem_seed).
#[local] Abbreviation lived := (lived hex_encode kem_seed).
#[local] Abbreviation moves := (moves hex_encode kem_seed).
#[local] Abbreviation writes := (writes hex_encode kem_seed).
#[local] Abbreviation file_after := (file_after hex_encode kem_seed).

(** ** Provisioning *)

(** The configuration a request is for, when it is for one. *)
Definition target (op : Op) : option string :=
  match op with
  | OpProvision _ _ _ _ => None
  | OpCancel id _ _ _ | OpActivate id _ _ _ | OpFinalize id _ _ | OpRead id _ _ _ => Some id
  end.

(** The entry an accepted provisioning stores. *)
Definition provisioned_entry (provision : WitnessConfigProvision) : WitnessConfigEntry := {|
  wce_witness_id := wcp_witness_id provision;
  wce_register := WitnessStore.new (cap3_config_ref (wcp_capsule provision))
    (cap3_capsule_hash (wcp_capsule provision));
  wce_capsule := wcp_capsule provision;
  wce_pending_capsule := None;
  wce_pending_ack := None;
  wce_rotation_cancellations := ∅;
  wce_signer_public_keys := wcp_signer_public_keys provision;
  wce_witness_public_keys := wcp_witness_public_keys provision;
  wce_witness_fault_bound := wcp_witness_fault_bound provision
|}.

(** What provisioning has checked. *)
Definition provision_ok (id : string) (provision : WitnessConfigProvision) : Prop :=
  let capsule := wcp_capsule provision in
  hex_encode (cr_config_id (cap3_config_ref capsule)) = id
  ∧ uval (wcp_witness_id provision) ≠ 0%N
  ∧ uval (epoch_of capsule) ≠ 0%N
  ∧ (∃ body, config_capsule_body_v3 capsule = Ok body
       ∧ sha256 body = cap3_capsule_hash capsule)
  ∧ dom (wcp_signer_public_keys provision) = id_range (cap3_signer_count capsule)
  ∧ (∃ leaves proofs,
       collect (λ i, match wcp_signer_public_keys provision !! i with
                     | Some key => sha256 <$> signer_leaf i key
                     | None => Err InvalidValue end)
         ((λ i, U16 (N.of_nat i)) <$> seq 1 (N.to_nat (cap3_signer_count capsule)))
       = Ok leaves
       ∧ merkle_commit leaves = Ok (cap3_signer_set_commitment capsule, proofs))
  ∧ uval (wcp_witness_fault_bound provision) ≠ 0%N
  ∧ (3 * wcp_witness_fault_bound provision + 1
     ≤ N.of_nat (size (wcp_witness_public_keys provision)))%N
  ∧ wcp_witness_public_keys provision !! wcp_witness_id provision
    = Some (verifying_key_bytes (signing_key kem_seed)).

Lemma on_entry_absent {A} config_id (body : SR WitnessConfigEntry ApiError A) d id r d' :
  d !! id = None → on_entry config_id body d = (r, d') →
  d' !! id = None ∧ (config_id = id → is_ok r = false).
Proof.
  intros Hd H. unfold on_entry in H. unfold WitnessDisk in *.
  destruct (decide (config_id = id)) as [-> | Hne].
  - rewrite Hd in H. by injection H as <- <-.
  - split; [| done]. destruct (d !! config_id); [| by injection H as _ <-].
    destruct (body _). injection H as _ <-. by rewrite lookup_insert_ne.
Qed.

Lemma provision_absent token bearer saved provision d r d' id :
  d !! id = None → witness_provision hex_encode kem_seed token bearer saved provision d = (r, d') →
  d' !! id = None
  ∨ (d' !! id = Some (provisioned_entry provision) ∧ provision_ok id provision).
Proof.
  intros Hd H. unfold witness_provision in H.
  do 10 (sr_step H; [by left; destruct H as [_ ->] |]).
  unfold mbind at 1, SR_bind at 1, get at 1 in H. cbv beta iota in H.
  sr_step H; [by left; destruct H as [_ ->] |].
  unfold mbind at 1, SR_bind at 1, put at 1 in H. cbv beta iota in H. checks.
  assert (Hd' : d' = <[hex_encode (cr_config_id (cap3_config_ref (wcp_capsule provision)))
    := provisioned_entry provision]> d).
  { sr_step H; [by destruct H as [_ ->] | by injection H as _ <-]. }
  subst d'. unfold WitnessDisk in *.
  destruct (decide (hex_encode (cr_config_id (cap3_config_ref (wcp_capsule provision))) = id))
    as [<- | Hne]; [right | left; by rewrite lookup_insert_ne].
  rewrite lookup_insert_eq. split; [done |]. unfold provision_ok.
  match goal with
  | Hs : checked_mul _ _ ≫= _ = Some ?n, Hm : merkle_commit _ = Ok ?c |- _ =>
      rewrite usize_exact in Hs by done; injection Hs as <-; destruct c as [root proofs]
  end.
  simpl in *. rewrite !N.eqb_neq in *. subst root.
  split_and!; try done; [by eexists | by eexists _, proofs].
Qed.

Lemma serve_absent op d r d' id :
  d !! id = None → serve op d = (r, d') →
  (d' !! id = None ∧ (target op = Some id → is_ok r = false))
  ∨ (target op = None ∧ ∃ provision, d' !! id = Some (provisioned_entry provision)
       ∧ provision_ok id provision).
Proof.
  intros Hd H. destruct op; simpl in H; apply answered in H as (r0 & H & ->); simpl.
  - apply (provision_absent _ _ _ _ _ _ _ _ Hd) in H as [? | [? ?]]; [by left |].
    right. split; [done |]. by exists provision.
  - left. unfold witness_cancel_rotation in H.
    do 3 (sr_step H; [by destruct H as [[? ->] ->]; split |]).
    destruct (on_entry_absent _ _ _ _ _ _ Hd H) as [? Hr]. split; [done |].
    intros [= ->]. specialize (Hr eq_refl). by destruct r0.
  - left. unfold witness_activate in H.
    do 4 (sr_step H; [by destruct H as [[? ->] ->]; split |]).
    destruct (on_entry_absent _ _ _ _ _ _ Hd H) as [? Hr]. split; [done |].
    intros [= ->]. specialize (Hr eq_refl). by destruct r0.
  - left. unfold witness_finalize in H.
    destruct (on_entry_absent _ _ _ _ _ _ Hd H) as [? Hr]. split; [done |].
    intros [= ->]. specialize (Hr eq_refl). by destruct r0.
  - left. unfold witness_read in H.
    do 4 (sr_step H; [by destruct H as [[? ->] ->]; split |]).
    destruct (on_entry_absent _ _ _ _ _ _ Hd H) as [? Hr]. split; [done |].
    intros [= ->]. specialize (Hr eq_refl). by destruct r0.
Qed.

Lemma provisioned_ok id provision :
  provision_ok id provision → entry_ok id (provisioned_entry provision).
Proof. intros (Hid & _). by split. Qed.

(** ** The life of a node *)

(** No request for [id] was answered. *)
Definition quiet (id : string) (h : list Entry) : Prop :=
  ∀ op r, (op, r) ∈ h → target op = Some id → is_ok r = false.

(** From an empty disk: nothing was answered for a configuration before it was
    provisioned, and from then on its entry evolves. *)
Lemma life h d id :
  ran ∅ h d →
  (d !! id = None ∧ quiet id h)
  ∨ ∃ h2 h1 provision e, h = h2 ++ h1 ∧ quiet id h1 ∧ provision_ok id provision
      ∧ evolves id (provisioned_entry provision) h2 e ∧ d !! id = Some e.
Proof.
  induction 1 as [|h d op r d' Hr IH Hs]; [by left; split; [| intros ? ? ?%elem_of_nil] |].
  destruct IH as [[Hd Hq] | (h2 & h1 & provision & e & -> & Hq & Hp & Hev & Hd)].
  - destruct (serve_absent _ _ _ _ _ Hd Hs) as [[Hd' Hr'] | (Ht & provision & Hd' & Hp)].
    + left. split; [done |]. intros op' r' [[= -> ->] | Hin]%elem_of_cons; [done |]. by apply Hq.
    + right. exists [], ((op, r) :: h), provision, (provisioned_entry provision).
      split_and!; [done | | done | apply evolves_start | done].
      intros op' r' [[= -> ->] | Hin]%elem_of_cons; [by rewrite Ht | by apply Hq].
  - right. destruct (serve_moves _ _ _ _ _ _ _ _ Hd Hs) as (e' & Hd' & Hm).
    exists ((op, r) :: h2), h1, provision, e'. split_and!; try done.
    by eapply evolves_move.
Qed.

(** Answers come after the provisioning. *)
Lemma answered_after {id h h1 h2 h3 op r} :
  h ++ (op, r) :: h1 = h2 ++ h3 → quiet id h3 → target op = Some id → is_ok r = true →
  ∃ h1', h2 = h ++ (op, r) :: h1'.
Proof.
  intros E Hq Ht Hr. revert h2 E.
  induction h as [|x h IH]; intros h2 E; destruct h2 as [|y h2]; simpl in E.
  - subst h3. rewrite (Hq op r) in Hr; [done | by left | done].
  - injection E as <- _. by exists h2.
  - subst h3. rewrite (Hq op r) in Hr; [done | | done]. simpl.
    right. apply elem_of_app. right. by left.
  - injection E as <- E. destruct (IH h2 E) as [h1' ->]. by exists h1'.
Qed.

Lemma acks_app id h1 h2 : acks id (h1 ++ h2) = acks id h1 ++ acks id h2.
Proof. unfold acks. apply omap_app. Qed.

Lemma reads_app id h1 h2 : reads id (h1 ++ h2) = reads id h1 ++ reads id h2.
Proof. unfold reads. apply omap_app. Qed.

Lemma quiet_acks id h : quiet id h → acks id h = [].
Proof.
  induction h as [|[op r] h IH]; intros Hq; [done |].
  assert (IH' : acks id h = []).
  { apply IH. intros op' r' Hin. apply Hq. by right. }
  change ((op, r) :: h) with ([(op, r)] ++ h). rewrite acks_app, IH', app_nil_r. unfold acks. simpl.
  destruct op; try done. destruct r as [[]|]; try done. case_bool_decide; [| done].
  subst. by specialize (Hq _ _ (list_elem_of_here _ _) eq_refl).
Qed.

Lemma quiet_reads id h : quiet id h → reads id h = [].
Proof.
  induction h as [|[op r] h IH]; intros Hq; [done |].
  assert (IH' : reads id h = []).
  { apply IH. intros op' r' Hin. apply Hq. by right. }
  change ((op, r) :: h) with ([(op, r)] ++ h). rewrite reads_app, IH', app_nil_r. unfold reads. simpl.
  destruct op; try done. destruct r as [[]|]; try done. case_bool_decide; [| done].
  subst. by specialize (Hq _ _ (list_elem_of_here _ _) eq_refl).
Qed.

Lemma ran_entry_ok h d id e : ran ∅ h d → d !! id = Some e → entry_ok id e.
Proof.
  intros Hr Hd. destruct (life h d id Hr)
    as [[Hn _] | (h2 & h1 & provision & e' & _ & _ & Hp & Hev & Hd')]; [congruence |].
  assert (e' = e) as -> by congruence.
  by apply (evolves_ok _ _ _ _ _ _ (provisioned_ok _ _ Hp) Hev).
Qed.

(** (invariant): every configuration a node holds is well formed after any
    requests: it is kept under its own id, and a pending successor comes with
    the acknowledgement signed for it, was authorised by the pinned signers as a
    direct successor of the served capsule, is the one its predecessor is locked
    to, and its rotation was not cancelled. *)
Theorem witness_node_wf h d id e : ran ∅ h d → d !! id = Some e → entry_ok id e.
Proof. apply ran_entry_ok. Qed.

(** ** Restarts *)

#[local] Abbreviation locks e := (WitnessStore.wes_predecessor_locks (wce_register e)).

(** An entry for [id] whose lock of [k] is on [x]. *)
Definition holds (id k : string) (x : Id32) (owner : barr 32) (d : WitnessDisk) : Prop :=
  ∃ e, d !! id = Some e ∧ entry_ok id e
  ∧ cap3_owner_cancel_public_key (wce_capsule e) = owner ∧ locks e !! k = Some x.

Lemma holds_serve id k x owner op d r d' :
  holds id k x owner d → serve op d = (r, d') → is_veto id owner (op, r) = false →
  holds id k x owner d'
  ∧ ∀ a, a ∈ acks id [(op, r)] → hex_encode (waa_predecessor_capsule_hash a) = k →
      waa_successor_capsule_hash a = x.
Proof.
  intros (e & He & Hok & <- & Hl) Hs Hv.
  destruct (serve_moves _ _ _ _ _ _ _ _ He Hs) as (e' & He' & Hm).
  pose proof (moves_locks _ _ _ _ _ _ _ _ _ Hm Hv Hl) as Hl'. split.
  - exists e'. split_and!; [done | by eapply moves_entry_ok | | done].
    by apply (sp_owner _ _ (moves_same_policy _ _ _ _ _ _ _ Hok Hm)).
  - intros a Ha Hk. unfold acks in Ha. simpl in Ha.
    destruct op as [| | id' saved capsule certificate | |]; try by apply elem_of_nil in Ha.
    destruct r as [[| | b |] |]; try by apply elem_of_nil in Ha.
    case_bool_decide as E; [| by apply elem_of_nil in Ha]. subst id'.
    apply list_elem_of_singleton in Ha as ->.
    destruct (moves_acked _ _ _ _ _ _ _ _ _ Hok Hm) as (Hb & _). rewrite Hk in Hb. congruence.
Qed.

(** A lock in memory, and in the file if there are restarts, stays until a veto. *)
Lemma lived_holds id k x owner s0 h s :
  lived s0 h s → holds id k x owner (data s0) →
  (Restarted ∈ h → holds id k x owner (file s0)) → vetoed id owner (served h) = false →
  holds id k x owner (data s)
  ∧ ∀ a, a ∈ acks id (served h) → hex_encode (waa_predecessor_capsule_hash a) = k →
      waa_successor_capsule_hash a = x.
Proof.
  intros H Hd Hf Hv.
  cut (holds id k x owner (data s)
    ∧ (holds id k x owner (file s0) → holds id k x owner (file s))
    ∧ ∀ a, a ∈ acks id (served h) → hex_encode (waa_predecessor_capsule_hash a) = k →
      waa_successor_capsule_hash a = x); [tauto |].
  induction H as [| h s op r d' renamed H IH Hs | h s H IH]; simpl in Hv.
  - split_and!; [done | done | by intros ? ?%elem_of_nil].
  - apply orb_false_iff in Hv as [Hv Hvs].
    destruct IH as (IH1 & IH2 & IH3); [intros Hin; apply Hf; by right | done |].
    destruct (holds_serve _ _ _ _ _ _ _ _ IH1 Hs Hv) as [Hd' Ha]. split_and!; [done | |].
    + intros H0. simpl. unfold WitnessServer.file_after. destruct (_ && _); [done | by apply IH2].
    + intros a. change (served (Served op r :: h)) with ([(op, r)] ++ served h).
      rewrite acks_app, elem_of_app. intros [? | ?]; [by apply Ha | by apply IH3].
  - destruct IH as (IH1 & IH2 & IH3); [intros Hin; apply Hf; by right | done |].
    simpl. split_and!; [apply IH2, Hf; by left | done | done].
Qed.

(** What every request keeps, a life keeps, with what a restart reads. *)
Lemma lived_keeps (P : WitnessDisk → Prop) s0 h s :
  (∀ op d r d', P d → serve op d = (r, d') → P d') →
  lived s0 h s → P (data s0) → (Restarted ∈ h → P (file s0)) → P (data s).
Proof.
  intros HP H Hd Hf. cut (P (data s) ∧ (P (file s0) → P (file s))); [tauto |].
  induction H as [| h s op r d' renamed H IH Hs | h s H IH].
  - done.
  - destruct IH as [IH1 IH2]; [intros Hin; apply Hf; by right |].
    assert (Hd' : P d') by by eapply HP. split; [done |]. intros H0. simpl.
    unfold WitnessServer.file_after. destruct (_ && _); [done | by apply IH2].
  - destruct IH as [_ IH2]; [intros Hin; apply Hf; by right |]. simpl.
    split; [apply IH2, Hf; by left | done].
Qed.

(** The owner's key of a configuration never changes. *)
Definition owned (id : string) (owner : barr 32) (d : WitnessDisk) : Prop :=
  ∃ e, d !! id = Some e ∧ entry_ok id e ∧ cap3_owner_cancel_public_key (wce_capsule e) = owner.

Lemma holds_owned id k x owner d : holds id k x owner d → owned id owner d.
Proof. intros (e & ? & ? & ? & _). by exists e. Qed.

Lemma owned_serve id owner op d r d' : owned id owner d → serve op d = (r, d') → owned id owner d'.
Proof.
  intros (e & He & Hok & <-) Hs. destruct (serve_moves _ _ _ _ _ _ _ _ He Hs) as (e' & He' & Hm).
  exists e'. split_and!; [done | by eapply moves_entry_ok |].
  by apply (sp_owner _ _ (moves_same_policy _ _ _ _ _ _ _ Hok Hm)).
Qed.

(** No write of an acknowledgement failed. *)
Definition activations_saved (h : list Event) : Prop :=
  ∀ id saved capsule certificate r,
    Served (OpActivate id saved capsule certificate) r ∈ h → saved = true.

Lemma entry_ok_lock id e a :
  entry_ok id e → wce_pending_ack e = Some a →
  locks e !! hex_encode (waa_predecessor_capsule_hash a) = Some (waa_successor_capsule_hash a).
Proof.
  intros [_ Hp] Ha. rewrite Ha in Hp. destruct (wce_pending_capsule e) as [p |]; [| done].
  destruct Hp as (k & t & _&_&_&_&_&_&_&_&_& -> & Hl & _). done.
Qed.

(** Entries are well formed in memory and in the file, and the acknowledgement of
    a pending successor is in the file. *)
Record durable (s : Persisted WitnessDisk) : Prop := mkDurable {
  durable_data id e : data s !! id = Some e → entry_ok id e;
  durable_file id e : file s !! id = Some e → entry_ok id e;
  durable_acks id e a : data s !! id = Some e → wce_pending_ack e = Some a →
    holds id (hex_encode (waa_predecessor_capsule_hash a)) (waa_successor_capsule_hash a)
      (cap3_owner_cancel_public_key (wce_capsule e)) (file s)
}.

Lemma entry_ok_holds id e a d :
  d !! id = Some e → entry_ok id e → wce_pending_ack e = Some a →
  holds id (hex_encode (waa_predecessor_capsule_hash a)) (waa_successor_capsule_hash a)
    (cap3_owner_cancel_public_key (wce_capsule e)) d.
Proof. intros He Hok Ha. exists e. split_and!; [done.. | by eapply entry_ok_lock]. Qed.

(** Only an activation makes an acknowledgement. *)
Lemma moves_pending_ack id e op r e' a :
  moves id e op r e' → wce_pending_ack e' = Some a →
  wce_pending_ack e = Some a ∨ ∃ saved capsule certificate,
    op = OpActivate id saved capsule certificate.
Proof.
  intros Hm Ha. destruct Hm; simpl in Ha; try (by left); try (right; by eexists _, _, _).
  match goal with Hr : rolled_back _ _ _ _ _ |- _ =>
    destruct Hr as [(_ & _ & ->) | (? & ? & _ & _ & _ & -> & _)] end; [by left | done].
Qed.

Lemma serve_entry_ok op d r d' id e' :
  (∀ e, d !! id = Some e → entry_ok id e) → serve op d = (r, d') → d' !! id = Some e' →
  entry_ok id e'
  ∧ ((∃ e, d !! id = Some e ∧ moves id e op r e') ∨ wce_pending_ack e' = None).
Proof.
  intros Hd Hs He'. destruct (d !! id) as [e |] eqn:He.
  - destruct (serve_moves _ _ _ _ _ _ _ _ He Hs) as (e1 & He1 & Hm).
    assert (e1 = e') as -> by congruence.
    split; [by eapply moves_entry_ok; [apply Hd |] | left; by exists e].
  - destruct (serve_absent _ _ _ _ _ He Hs) as [[? _] | (_ & provision & Hd' & Hp)];
      [congruence |].
    assert (e' = provisioned_entry provision) as -> by congruence.
    split; [by apply provisioned_ok | by right].
Qed.

Lemma durable_step s op r d' renamed :
  durable s → serve op (data s) = (r, d') →
  (∀ id saved capsule certificate, op = OpActivate id saved capsule certificate → saved = true) →
  durable (mkPersisted d' (file_after op renamed s d')).
Proof.
  intros [Dd Df Da] Hs Hsaved.
  assert (Hok : ∀ id e, d' !! id = Some e → entry_ok id e).
  { intros id e He. by apply (serve_entry_ok _ _ _ _ _ _ (Dd id) Hs He). }
  unfold WitnessServer.file_after. destruct (_ && _) eqn:Hw; split; simpl; try done.
  - intros id e a He Ha. apply entry_ok_holds; [done | by apply Hok | done].
  - intros id e' a He' Ha.
    destruct (serve_entry_ok _ _ _ _ _ _ (Dd id) Hs He') as [_ [(e & He & Hm) | Hn]]; [| congruence].
    rewrite (sp_owner _ _ (moves_same_policy _ _ _ _ _ _ _ (Dd _ _ He) Hm)).
    apply Da; [done |].
    destruct (moves_pending_ack _ _ _ _ _ _ Hm Ha) as [? | (saved & capsule & certificate & ->)];
      [done |].
    rewrite (Hsaved _ _ _ _ eq_refl), andb_true_r in Hw.
    pose proof (unwritten_acks _ _ _ _ _ _ _ _ _ id Hs Hw) as E.
    unfold WitnessDisk in *. rewrite He, He' in E. simpl in E. congruence.
Qed.

Lemma lived_durable h s :
  lived (mkPersisted ∅ ∅) h s → activations_saved h → durable s.
Proof.
  induction 1 as [| h s op r d' renamed H IH Hs | h s H IH]; intros Hw.
  - split; simpl; intros;
      match goal with H : _ !! _ = Some _ |- _ => by apply lookup_empty_Some in H end.
  - eapply durable_step; [| done |].
    + apply IH. intros id saved capsule certificate r' Hin. by eapply Hw; right.
    + intros id saved capsule certificate ->. by eapply Hw; left.
  - destruct IH as [Dd Df Da].
    { intros id saved capsule certificate r' Hin. by eapply Hw; right. }
    split; simpl; [done | done |]. intros id e a He Ha. apply entry_ok_holds; auto.
Qed.

(** Whatever writes fail, the entries stay well formed. *)
Lemma lived_wf h s :
  lived (mkPersisted ∅ ∅) h s →
  (∀ id e, data s !! id = Some e → entry_ok id e) ∧ (∀ id e, file s !! id = Some e → entry_ok id e).
Proof.
  induction 1 as [| h s op r d' renamed H [IHd IHf] Hs | h s H [IHd IHf]].
  - split; simpl; intros;
      match goal with H : _ !! _ = Some _ |- _ => by apply lookup_empty_Some in H end.
  - assert (Hok : ∀ id e, d' !! id = Some e → entry_ok id e).
    { intros id e He. by apply (serve_entry_ok _ _ _ _ _ _ (IHd id) Hs He). }
    split; simpl; [done |]. unfold WitnessServer.file_after. by destruct (_ && _).
  - by split.
Qed.

(** An acknowledged successor is locked, and in the file unless a write failed. *)
Lemma acked_holds h s id saved capsule certificate a d' renamed :
  lived (mkPersisted ∅ ∅) h s →
  serve (OpActivate id saved capsule certificate) (data s) = (Ok (RActivate a), d') →
  ∃ owner,
    let k := hex_encode (waa_predecessor_capsule_hash a) in
    holds id k (waa_successor_capsule_hash a) owner d'
  ∧ (saved = true → activations_saved h → holds id k (waa_successor_capsule_hash a) owner
       (file_after (OpActivate id saved capsule certificate) renamed s d')).
Proof.
  intros H Hs. destruct (lived_wf _ _ H) as [Hd _].
  destruct (data s !! id) as [e |] eqn:He.
  2:{ destruct (serve_absent _ _ _ _ _ He Hs) as [[_ Hr] | [? _]]; [| done].
      by specialize (Hr eq_refl). }
  destruct (serve_moves _ _ _ _ _ _ _ _ He Hs) as (e' & He' & Hm).
  pose proof (Hd _ _ He) as Hok. pose proof (moves_entry_ok _ _ _ _ _ _ _ Hok Hm) as Hok'.
  destruct (moves_acked _ _ _ _ _ _ _ _ _ Hok Hm) as (Hl & _).
  pose proof (sp_owner _ _ (moves_same_policy _ _ _ _ _ _ _ Hok Hm)) as Ho.
  assert (Hh : holds id (hex_encode (waa_predecessor_capsule_hash a))
    (waa_successor_capsule_hash a) (cap3_owner_cancel_public_key (wce_capsule e)) d').
  { exists e'. split_and!; congruence. }
  exists (cap3_owner_cancel_public_key (wce_capsule e)). split; [done |]. intros -> Hw.
  unfold WitnessServer.file_after. destruct (_ && _) eqn:E; [done |].
  simpl in E. rewrite andb_true_r in E.
  pose proof (unwritten_acks _ _ _ _ _ _ _ _ _ id Hs E) as Hp. unfold WitnessDisk in *.
  rewrite He, He' in Hp. injection Hp as Hp.
  apply (durable_acks _ (lived_durable _ _ H Hw)); [done |]. rewrite <- Hp.
  inversion Hm; subst; try done; simpl in *.
  - match goal with Ha : answers _ _ |- _ => destruct (Ha eq_refl) as (x & Hx & [= <-]) end.
    destruct (wce_pending_ack _); [by injection Hx as -> | done].
  - match goal with Ha : answers _ _ |- _ => destruct (Ha eq_refl) as (x & [= <-] & [= <-]) end.
    done.
Qed.

(** C14 (safety): once a node has acknowledged a successor of a capsule, every
    later acknowledgement for the same predecessor is for the same successor,
    unless a cancellation signed by the owner came in between, whatever requests
    it serves, whatever writes of its state file fail, and however often it is
    restarted from that file; with restarts, provided that no write of an
    activation had failed up to that acknowledgement ([unsaved_ack_forgotten]
    is what happens otherwise). *)
Theorem witness_one_child_until_veto h2 h1 s id e saved capsule certificate a1 a2 :
  lived (mkPersisted ∅ ∅)
    (h2 ++ Served (OpActivate id saved capsule certificate) (Ok (RActivate a1)) :: h1) s →
  (Restarted ∈ h2 → activations_saved
     (Served (OpActivate id saved capsule certificate) (Ok (RActivate a1)) :: h1)) →
  data s !! id = Some e →
  vetoed id (cap3_owner_cancel_public_key (wce_capsule e)) (served h2) = false →
  a2 ∈ acks id (served h2) →
  waa_predecessor_capsule_hash a2 = waa_predecessor_capsule_hash a1 →
  waa_successor_capsule_hash a2 = waa_successor_capsule_hash a1.
Proof.
  intros (s1 & H1 & H2)%lived_split Hw He Hv Ha Hpre.
  inversion H1 as [| ? s0 ? ? d' renamed H0 Hs |]; subst.
  destruct (acked_holds _ _ _ _ _ _ _ _ renamed H0 Hs) as (owner & Hd & Hf).
  assert (Hf' : Restarted ∈ h2 → holds id (hex_encode (waa_predecessor_capsule_hash a1))
    (waa_successor_capsule_hash a1) owner
    (file_after (OpActivate id saved capsule certificate) renamed s0 d')).
  { intros Hin. specialize (Hw Hin). apply Hf; [by eapply Hw; left |].
    intros ? ? ? ? ? Hin'. by eapply Hw; right. }
  assert (Ho : owned id owner (data s)).
  { apply (lived_keeps _ _ _ _ (owned_serve id owner) H2); [by apply holds_owned in Hd |].
    intros Hin. by apply holds_owned in Hf'. }
  destruct Ho as (e' & He' & _ & Ho). assert (e' = e) as -> by congruence. rewrite Ho in Hv.
  destruct (lived_holds _ _ _ _ _ _ _ H2 Hd Hf' Hv) as [_ Hall]. apply Hall; [done |].
  by rewrite Hpre.
Qed.

(** C27 (safety): once a node has acknowledged the cancellation of a rotation, it
    never again acknowledges an activation of that rotation, and never
    finalises one. *)
Theorem witness_cancel_permanent h2 h1 d id now saved certificate c :
  ran ∅ (h2 ++ (OpCancel id now saved certificate, Ok (RCancel c)) :: h1) d →
  (∀ a, a ∈ acks id h2 →
     ctx_rotation_id (waa_context a) ≠ ctx_rotation_id (orcc_context certificate))
  ∧ (∀ saved' qc r, (OpFinalize id saved' qc, Ok r) ∈ h2 →
     qc_rotation_id qc ≠ ctx_rotation_id (orcc_context certificate)).
Proof.
  intros Hr. destruct (life _ d id Hr)
    as [[_ Hq] | (h & hq & provision & e & Eh & Hq & Hp & Hev & _)].
  { assert (Hin : (OpCancel id now saved certificate, Ok (RCancel c))
      ∈ h2 ++ (OpCancel id now saved certificate, Ok (RCancel c)) :: h1)
      by (apply elem_of_app; right; by left).
    by specialize (Hq _ _ Hin eq_refl). }
  destruct (answered_after Eh Hq eq_refl eq_refl) as [h1' ->].
  apply evolves_split in Hev as (e1 & Hev1 & Hev2).
  inversion Hev1 as [|? e0 ? ? ? Hev0 Hm]; subst.
  destruct (evolves_ok _ _ _ _ _ _ (provisioned_ok _ _ Hp) Hev0) as [Hok0 _].
  pose proof (moves_entry_ok _ _ _ _ _ _ _ Hok0 Hm) as Hok1.
  assert (Hc : is_Some (wce_rotation_cancellations e1
    !! hex_encode (ctx_rotation_id (orcc_context certificate)))).
  { inversion Hm; subst; try done; simpl. rewrite lookup_insert_eq. by eexists. }
  by destruct (evolves_cancelled _ _ _ _ _ _ _ Hok1 Hev2 Hc) as (_ & ? & ?).
Qed.

(** A read carries the served capsule of its time. *)
Lemma evolves_read_epochs id e0 h e v :
  entry_ok id e0 → evolves id e0 h e → v ∈ reads id h →
  (epoch_of (wce_capsule e0) ≤ epoch_of (wre_capsule v) ≤ epoch_of (wce_capsule e))%N.
Proof.
  intros H0 Hev. induction Hev as [|h e op r e' Hev IH Hm]; [by intros ?%elem_of_nil |].
  destruct (evolves_ok _ _ _ _ _ _ H0 Hev) as [Hok Hsp].
  pose proof (sp_epoch _ _ (moves_same_policy _ _ _ _ _ _ _ Hok Hm)) as Hle.
  pose proof (sp_epoch _ _ Hsp) as Hle0.
  change ((op, r) :: h) with ([(op, r)] ++ h). rewrite reads_app, elem_of_app.
  intros [Hv | Hv]; [| destruct (IH Hv); split; [done | by etrans]].
  unfold reads in Hv. simpl in Hv.
  destruct op as [| | | |id' now saved challenge]; try (by apply elem_of_nil in Hv).
  destruct r as [[| | |v']|]; try (by apply elem_of_nil in Hv).
  case_bool_decide as Eid; [| by apply elem_of_nil in Hv].
  apply list_elem_of_singleton in Hv as ->. subst id'.
  apply moves_read in Hm as (Hr & _). apply signed_read_Some in Hr as [-> _]. by split.
Qed.

(** (safety): from its provisioning on a node answers no read nonce twice;
    every read it signs reports the epoch and hash of the capsule it carries; the
    epochs never go back; and every capsule it serves is one a client accepts as
    activated, when the client's card pins the provisioned genesis and the
    pinned signers sign activation votes only with their own membership
    proofs. *)
Theorem witness_serves_activated card id provision d0 h2 h1 d :
  d0 !! id = Some (provisioned_entry provision) → provision_ok id provision →
  card_matches card (provisioned_entry provision) →
  signers_know_their_leaf (provisioned_entry provision) →
  activated card (wcp_capsule provision) →
  ran d0 (h2 ++ h1) d →
  NoDup (werr_client_nonce ∘ wre_response <$> reads id (h2 ++ h1))
  ∧ (∀ v, v ∈ reads id (h2 ++ h1) → activated card (wre_capsule v)
       ∧ werr_highest_guardian_epoch (wre_response v) = epoch_of (wre_capsule v)
       ∧ werr_capsule_hash (wre_response v) = cap3_capsule_hash (wre_capsule v))
  ∧ (∀ v1 v2, v1 ∈ reads id h1 → v2 ∈ reads id h2 →
       (epoch_of (wre_capsule v1) ≤ epoch_of (wre_capsule v2))%N).
Proof.
  intros Hd0 Hp Hc Hs Ha Hr. pose proof (provisioned_ok _ _ Hp) as H0.
  destruct (ran_evolves _ _ _ _ _ _ _ Hd0 Hr) as (e & _ & Hev).
  destruct (evolves_reads _ _ _ _ _ _ Hev) as [Hnd Hall]. split_and!; [done | |].
  - intros v Hv. destruct (Hall v Hv) as (_ & k & e1 & challenge & _ & Hev1 & Hsr).
    apply signed_read_Some in Hsr as [Ecap Eresp].
    pose proof (evolves_activated _ _ _ _ _ _ _ Hc Hs H0 Ha Hev1) as Hact.
    rewrite Ecap, Eresp. by split_and!.
  - intros v1 v2 H1 H2. destruct (evolves_split _ _ _ _ _ _ _ Hev) as (e1 & Hev1 & Hev2).
    destruct (evolves_ok _ _ _ _ _ _ H0 Hev1) as [Hok1 _].
    destruct (evolves_read_epochs _ _ _ _ _ H0 Hev1 H1) as [_ Hle1].
    destruct (evolves_read_epochs _ _ _ _ _ Hok1 Hev2 H2) as [Hle2 _]. by etrans.
Qed.

End node.

(** ** Witnesses *)

Import Scenario.

Abbreviation ex_hex := StorageRotation.Epochs.ex_hex.
Definition ex_config_id : string := ex_hex (id 1).

Definition ex_provision (w : N) : WitnessConfigProvision := {|
  wcp_witness_id := U16 w;
  wcp_capsule := genesis;
  wcp_signer_public_keys := {[U16 1 := signer_key 1; U16 2 := signer_key 2]};
  wcp_witness_public_keys := {[U16 1 := id 1; U16 2 := id 2; U16 3 := id 3; U16 4 := id 4]};
  wcp_witness_fault_bound := U16 1
|}.

Definition op_provision (w : N) : Op :=
  OpProvision "token" (Some "token"%string) true (ex_provision w).
Definition op_activate (n : N) : Op := OpActivate ex_config_id true (proposed n) (activate n).
Definition op_finalize (n : N) (witnesses : list N) : Op :=
  OpFinalize ex_config_id true (qc n witnesses).
Definition op_read (nonce : N) : Op := OpRead ex_config_id (Some (U64 120)) true (challenge nonce).

Definition veto (n : N) (signature : list byte) : OwnerRotationCancelCertificate := {|
  orcc_context := rotation_context n;
  orcc_plan_hash := plan_hash n;
  orcc_reason_code := U16 1;
  orcc_cancel_response_recipient_key := replicate 1216 x01;
  orcc_owner_cancel_public_key := owner_key;
  orcc_owner_signature := signature
|}.
Definition signed_veto (n : N) : OwnerRotationCancelCertificate :=
  veto n (signature_of owner_key (ok_bytes (owner_rotation_cancel_certificate (veto n [])))).
Definition op_veto (n : N) : Op :=
  OpCancel ex_config_id (Some (U64 120)) true (signed_veto n).

(** The node [w] plays requests, the most recent last. *)
Section play.
Context `{Prims : Primitives}.

Definition play (w : N) (d : WitnessDisk) (ops : list Op) :
    list (Op * Result ApiError Response) * WitnessDisk :=
  foldl (λ hd op, let '(r, d) := serve ex_hex (id w) op hd.2 in ((op, r) :: hd.1, d))
    ([], d) ops.

Lemma play_snoc w d ops op :
  play w d (ops ++ [op])
  = (let '(r, d') := serve ex_hex (id w) op (play w d ops).2 in
     ((op, r) :: (play w d ops).1, d')).
Proof. unfold play. by rewrite foldl_app. Qed.

Lemma play_ran w d ops :
  ran ex_hex (id w) d (play w d ops).1 (play w d ops).2.
Proof.
  induction ops as [|op ops IH] using rev_ind; [apply ran_start |].
  rewrite play_snoc. destruct (serve _ _ op _) as [r d'] eqn:E. by eapply ran_serve.
Qed.

Lemma play_ops w d ops : (play w d ops).1.*1 = rev ops.
Proof.
  induction ops as [|op ops IH] using rev_ind; [done |].
  rewrite play_snoc, rev_app_distr. simpl. rewrite <- IH.
  by destruct (serve _ _ op (play w d ops).2) as [r d'].
Qed.

End play.

Definition answers_ok (h : list (Op * Result ApiError Response)) : bool :=
  forallb (λ e, is_ok e.2) h.

Definition ex_ops : list Op :=
  [op_provision 1; op_activate 1; op_finalize 1 [1; 2; 3]%N; op_read 11].

(** The node provisions, acknowledges, finalises and serves the successor. *)
Example ex_run : answers_ok (play 1 ∅ ex_ops).1 = true.
Proof. by vm_compute. Qed.
Example ex_served :
  match (play 1 ∅ ex_ops).2 !! ex_config_id with
  | Some e => bool_decide (wce_capsule e = successor 1 [1; 2; 3]%N)
  | None => false
  end = true.
Proof. by vm_compute. Qed.
Example ex_locked :
  (λ e, is_ok e.2) <$> (play 1 ∅ [op_provision 1; op_activate 1; op_activate 2]).1
  = [false; true; true].
Proof. by vm_compute. Qed.

(** An acknowledgement can leave the node before any write of the state file has
    succeeded: when the write fails the request is refused, but the
    acknowledgement stays in memory and a repeat of the request answers it
    without writing. *)
Lemma unsaved_ack_released :
  (λ e, is_ok e.2) <$> (play 1 ∅ [op_provision 1;
    OpActivate ex_config_id false (proposed 1) (activate 1);
    OpActivate ex_config_id false (proposed 1) (activate 1)]).1
  = [true; false; true].
Proof. by vm_compute. Qed.

(** An owner's veto rolls back a successor the node has already acknowledged,
    after which it acknowledges another child of the same predecessor. *)
Lemma veto_frees_the_predecessor :
  (λ e, is_ok e.2) <$> (play 1 ∅ [op_provision 1; op_activate 1; op_veto 1; op_activate 2]).1
  = [true; true; true; true].
Proof. by vm_compute. Qed.

(** The entry after the four requests. *)
Lemma ex_entry : ∃ e, (play 1 ∅ ex_ops).2 !! ex_config_id = Some e.
Proof.
  pose proof ex_served as H.
  destruct ((play 1 ∅ ex_ops).2 !! ex_config_id) as [e|]; [by exists e | discriminate H].
Qed.

Lemma witness_node_wf_witness :
  ∃ e, (play 1 ∅ ex_ops).2 !! ex_config_id = Some e
    ∧ WitnessServer.entry_ok ex_hex (id 1) ex_config_id e.
Proof.
  destruct ex_entry as [e He]. exists e. split; [exact He |].
  exact (witness_node_wf ex_hex (id 1) _ _ ex_config_id e (play_ran 1 ∅ ex_ops) He).
Defined.

(** The node [w] lives through events: requests, and restarts ([None]). *)
Definition live `{Prims : Primitives} (w : N) (events : list (option Op)) :
    list Event * Persisted WitnessDisk :=
  foldl (λ hs event,
    match event with
    | Some op =>
        let '(r, d) := serve ex_hex (id w) op (data hs.2) in
        (Served op r :: hs.1, mkPersisted d (file_after ex_hex (id w) op false hs.2 d))
    | None => (Restarted :: hs.1, reload hs.2)
    end) ([], mkPersisted ∅ ∅) events.

Lemma live_lived `{Prims : Primitives} w events :
  lived ex_hex (id w) (mkPersisted ∅ ∅) (live w events).1 (live w events).2.
Proof.
  induction events as [| [op |] events IH] using rev_ind; unfold live in *;
    rewrite ?foldl_app; simpl.
  - apply lived_start.
  - destruct (serve _ _ op _) as [r d] eqn:E. by apply lived_serve.
  - by apply lived_restart.
Qed.

Lemma live_events `{Prims : Primitives} w events :
  (λ ev, match ev with Served op _ => Some op | Restarted => None end) <$> (live w events).1
  = rev events.
Proof.
  induction events as [| [op |] events IH] using rev_ind; [done | |];
    unfold live in *; rewrite foldl_app, rev_app_distr; simpl; [| by f_equal].
  destruct (serve _ _ op _) as [r d]. simpl. by f_equal.
Qed.

Definition acked (h : list Event) : list (Id32 * Id32) :=
  (λ a, (waa_predecessor_capsule_hash a, waa_successor_capsule_hash a))
    <$> acks ex_config_id (served h).

(** A node acknowledges a successor, restarts, refuses another and repeats its
    acknowledgement. *)
Definition ex_life : list (option Op) :=
  [Some (op_provision 1); Some (op_activate 1); None; Some (op_activate 2); Some (op_activate 1)].

Example ex_life_answers :
  (λ e, is_ok e.2) <$> served (live 1 ex_life).1 = [true; false; true; true].
Proof. by vm_compute. Qed.

(** An acknowledgement of which the write failed is answered when its request is
    repeated, forgotten by a restart, and then one of another successor of the
    same predecessor is given, without any veto. *)
Lemma unsaved_ack_forgotten :
  let h := (live 1 [Some (op_provision 1);
    Some (OpActivate ex_config_id false (proposed 1) (activate 1));
    Some (OpActivate ex_config_id false (proposed 1) (activate 1)); None;
    Some (op_activate 2)]).1 in
  vetoed ex_config_id owner_key (served h) = false
  ∧ acked h = [(cap3_capsule_hash genesis, cap3_capsule_hash (proposed 2));
               (cap3_capsule_hash genesis, cap3_capsule_hash (proposed 1))]
  ∧ cap3_capsule_hash (proposed 1) ≠ cap3_capsule_hash (proposed 2).
Proof.
  split_and!; [by vm_compute | by vm_compute |].
  apply (bool_decide_eq_true_1 _). by vm_compute.
Qed.

(** The two acknowledgements of that life, on either side of the restart. *)
Lemma ex_two_acks :
  ∃ r a1 a2 h1 s e, lived ex_hex (id 1) (mkPersisted ∅ ∅)
      ([Served (op_activate 1) (Ok (RActivate a2)); Served (op_activate 2) r; Restarted]
       ++ Served (op_activate 1) (Ok (RActivate a1)) :: h1) s
    ∧ activations_saved (Served (op_activate 1) (Ok (RActivate a1)) :: h1)
    ∧ data s !! ex_config_id = Some e
    ∧ vetoed ex_config_id (cap3_owner_cancel_public_key (wce_capsule e))
        (served [Served (op_activate 1) (Ok (RActivate a2)); Served (op_activate 2) r; Restarted])
      = false
    ∧ waa_predecessor_capsule_hash a2 = waa_predecessor_capsule_hash a1.
Proof.
  assert (H : match (live 1 ex_life).1, data (live 1 ex_life).2 !! ex_config_id with
    | [Served _ (Ok (RActivate a2)); Served _ _; Restarted; Served _ (Ok (RActivate a1));
       Served _ _], Some e =>
        bool_decide (waa_predecessor_capsule_hash a2 = waa_predecessor_capsule_hash a1)
        && negb (vetoed ex_config_id (cap3_owner_cancel_public_key (wce_capsule e))
             [(op_activate 1, Ok (RActivate a2)); (op_activate 2, Err panicked)])
    | _, _ => false end = true) by by vm_compute.
  pose proof (live_lived 1 ex_life) as Hl. pose proof (live_events 1 ex_life) as Ho.
  destruct (live 1 ex_life) as [h s]. simpl in H, Hl, Ho.
  destruct h as [| [op2 [[| | a2 |] |] |] [| [opr r |] [| [| ] [| [op1 [[| | a1 |] |] |]
    [| [op0 r0 |] [|]]]]]]; try discriminate H.
  destruct (data s !! ex_config_id) as [e |] eqn:He; [| discriminate H].
  apply andb_true_iff in H as [Hp%bool_decide_eq_true _].
  injection Ho as -> -> -> ->. exists r, a1, a2, [Served (op_provision 1) r0], s, e.
  split; [exact Hl |]. split; [| split; [exact He | split; [reflexivity | exact Hp]]].
  intros i saved capsule certificate r' [E | [E | []%elem_of_nil]%elem_of_cons]%elem_of_cons;
    injection E; [done |]. discriminate E.
Qed.

Lemma witness_one_child_until_veto_witness :
  ∃ a1 a2 : WitnessActivationAck,
    waa_successor_capsule_hash a2 = waa_successor_capsule_hash a1.
Proof.
  destruct ex_two_acks as (r & a1 & a2 & h1 & s & e & Hl & Hw & He & Hv & Hp). exists a1, a2.
  apply (witness_one_child_until_veto ex_hex (id 1) _ _ _ _ _ _ _ _ _ _ Hl (λ _, Hw) He Hv);
    [left | exact Hp].
Defined.

(** A vetoed rotation is not acknowledged afterwards. *)
Lemma ex_vetoed :
  ∃ h c r d, WitnessServer.ran ex_hex (id 1) ∅
    ([(op_activate 1, r)] ++ (op_veto 1, Ok (RCancel c)) :: h) d.
Proof.
  assert (H : match serve ex_hex (id 1) (op_veto 1) (play 1 ∅ [op_provision 1; op_activate 1]).2 with
    | (Ok (RCancel c), d1) => true | _ => false end = true) by by vm_compute.
  pose proof (play_ran 1 ∅ [op_provision 1; op_activate 1]) as Hran.
  destruct (serve _ _ (op_veto 1) (play 1 ∅ [op_provision 1; op_activate 1]).2)
    as [r1 d1] eqn:E1.
  destruct r1 as [[|c| |]|];
    [discriminate H | | discriminate H | discriminate H | discriminate H].
  destruct (serve ex_hex (id 1) (op_activate 1) d1) as [r2 d2] eqn:E2.
  exists (play 1 ∅ [op_provision 1; op_activate 1]).1, c, r2, d2.
  eapply ran_serve; [| exact E2]. eapply ran_serve; [exact Hran | exact E1].
Qed.

Lemma witness_cancel_permanent_witness :
  ∃ r : Result ApiError Response, ∀ a, a ∈ acks ex_config_id [(op_activate 1, r)] →
    ctx_rotation_id (waa_context a) ≠ id 71.
Proof.
  destruct ex_vetoed as (h & c & r & d & Hr). exists r.
  exact (proj1 (witness_cancel_permanent ex_hex (id 1) _ _ _ _ _ _ _ _ Hr)).
Defined.

(** An instance in which the signers sign only their votes for rotation 1. *)
Definition vote_transcripts : list (list byte) := Eval vm_compute in
  (λ s, ok_bytes (signer_rotation_activate_vote (activate_vote 1 [] s))) <$> signer_ids.

Definition strict : Primitives := {|
  Sha256_digest := digest;
  VerifyingKey := barr 32;
  VerifyingKey_from_bytes := Some;
  Signature := list byte;
  Signature_try_from := Some;
  VerifyingKey_verify := λ key message signature,
    bool_decide (signature = signature_of key message)
    && (negb (bool_decide (key ∈ signer_key <$> signer_ids))
        || bool_decide (message ∈ vote_transcripts));
  SigningKey := Id32;
  SigningKey_from_bytes := λ seed, seed;
  SigningKey_verifying_key := λ key, key;
  SigningKey_sign := signature_of;
  MerkleTree_root := @MerkleTree_root toy;
  MerkleTree_proof := @MerkleTree_proof toy;
  MerkleProof := list byte;
  MerkleProof_try_from := Some;
  MerkleProof_verify := @MerkleProof_verify toy
|}.

Definition ex_disk : WitnessDisk := {[ex_config_id := provisioned_entry (ex_provision 1)]}.
Definition ex_later : list Op := [op_activate 1; op_finalize 1 [1; 2; 3]%N; op_read 11].

Example strict_run : answers_ok (play (Prims := strict) 1 ex_disk ex_later).1 = true.
Proof. by vm_compute. Qed.

Lemma ex_provision_ok : @provision_ok strict ex_hex (id 1) ex_config_id (ex_provision 1).
Proof.
  destruct (@witness_provision strict ex_hex (id 1) "token" (Some "token"%string) true
    (ex_provision 1) ∅) as [r d] eqn:E.
  assert (H : bool_decide (is_Some (d !! ex_config_id)) = true).
  { apply (f_equal (λ x, bool_decide (is_Some (x.2 !! ex_config_id)))) in E.
    vm_compute in E. symmetry. exact E. }
  apply bool_decide_eq_true in H as [e He].
  destruct (@provision_absent strict ex_hex (id 1) _ _ _ _ _ _ _ ex_config_id
    (lookup_empty _) E) as [Hn | [_ Hp]]; [congruence | exact Hp].
Qed.

Lemma ex_card_matches : @card_matches card (provisioned_entry (ex_provision 1)).
Proof.
  split; try reflexivity.
  apply (proj1 (validate_recovery_card_Ok card ())). by vm_compute.
Qed.

Lemma ex_signers_know : @signers_know_their_leaf strict (provisioned_entry (ex_provision 1)).
Proof.
  intros vote Hk (b & Hb & Hs).
  assert (Hkey : srav_signer_public_key vote ∈ signer_key <$> signer_ids).
  { simpl in Hk. apply lookup_insert_Some in Hk as [[_ <-] | [_ Hk]]; [by left |].
    apply lookup_singleton_Some in Hk as [_ <-]. right. by left. }
  unfold verify in Hs. simpl in Hs.
  rewrite (bool_decide_eq_true_2 _ Hkey) in Hs. simpl in Hs.
  destruct (bool_decide (b ∈ vote_transcripts)) eqn:Hin; [| by rewrite andb_false_r in Hs].
  apply bool_decide_eq_true in Hin.
  assert (Hmem : ∀ s, s ∈ signer_ids →
    signer_rotation_activate_vote (activate_vote 1 [] s) = Ok b →
    @member strict genesis (srav_signer_id vote) (srav_signer_public_key vote)
      (srav_signer_membership_proof vote)).
  { intros s Hin' Ht. pose proof (signer_rotation_activate_vote_binds _ _ _ Hb Ht) as E.
    pose proof (f_equal srav_signer_id E) as E1.
    pose proof (f_equal srav_signer_public_key E) as E2.
    pose proof (f_equal srav_signer_membership_proof E) as E3. simpl in E1, E2, E3.
    rewrite E1, E2, E3. apply (proj1 (@validate_signer_membership_Ok strict _ _ _ _ ())).
    unfold signer_ids in Hin'. rewrite !elem_of_cons, elem_of_nil in Hin'.
    destruct Hin' as [-> | [-> | []]]; by vm_compute. }
  unfold vote_transcripts in Hin. rewrite !elem_of_cons, elem_of_nil in Hin.
  destruct Hin as [-> | [-> | []]].
  - apply (Hmem 1%N); [by left | by vm_compute].
  - apply (Hmem 2%N); [right; by left | by vm_compute].
Qed.

Lemma witness_serves_activated_witness :
  length (reads ex_config_id (play (Prims := strict) 1 ex_disk ex_later).1) = 1
  ∧ Forall (λ v, @activated strict card (wre_capsule v))
      (reads ex_config_id (play (Prims := strict) 1 ex_disk ex_later).1).
Proof.
  split; [vm_compute; exact eq_refl |]. apply list.Forall_forall. intros v Hv.
  refine (proj1 (proj1 (proj2 (@witness_serves_activated strict ex_hex (id 1) card ex_config_id
    (ex_provision 1) ex_disk _ [] _ _ ex_provision_ok ex_card_matches ex_signers_know _ _))
    v _)).
  - apply lookup_singleton_eq.
  - apply (proj1 (@validate_activated_capsule_Ok strict card genesis ())). by vm_compute.
  - rewrite app_nil_r. apply (@play_ran strict 1 ex_disk ex_later).
  - rewrite app_nil_r. exact Hv.
Defined.
