(* ===== verification/WitnessQuorum.v ===== *)
(** The witnesses of a configuration together: a client's card, its honest
    witness nodes and whatever the others send.

    An honest node runs the handlers from an empty disk; nothing is assumed of
    the other witnesses.  What ties a node to the card is unforgeability: a
    message that verifies under the pinned key of an honest node is one of the
    statements the node has signed in an answer. *)

From S2P Require Import WitnessServer Scenario WitnessProps EpochReads.
Import WitnessServer.

Section quorum.
Context `{Prims : Primitives} (hex_encode : Id32 → string).

#[local] Abbreviation Entry := (Op * Result ApiError Response)%type.

(** ** One node *)

Record Node : Set := mkNode {
  node_seed : Id32;
  node_history : list Entry;
  node_disk : WitnessDisk
}.

(** The statement an answer signs. *)
Definition statement (entry : Entry) : option Doc :=
  match entry with
  | (OpCancel _ _ _ _, Ok (RCancel c)) => Some (D_witness_rotation_cancel_ack c)
  | (OpActivate _ _ _ _, Ok (RActivate a)) => Some (D_witness_activation_ack a)
  | (OpRead _ _ _ _, Ok (RRead v)) => Some (D_witness_epoch_read_response (wre_response v))
  | _ => None
  end.
Definition said (h : list Entry) : list Doc := omap statement h.

Lemma said_ack a h : D_witness_activation_ack a ∈ said h → ∃ id, a ∈ acks id h.
Proof.
  unfold said. rewrite list_elem_of_omap. intros ([op r] & Hin & Hs).
  destruct op as [| |id saved capsule certificate| |]; try done; destruct r as [[]|]; try done.
  injection Hs as ->. exists id. unfold acks. apply list_elem_of_omap. eexists.
  split; [exact Hin |]. simpl. by rewrite bool_decide_eq_true_2.
Qed.

Lemma said_read r h :
  D_witness_epoch_read_response r ∈ said h → ∃ id v, v ∈ reads id h ∧ wre_response v = r.
Proof.
  unfold said. rewrite list_elem_of_omap. intros ([op x] & Hin & Hs).
  destruct op as [| | | |id now saved challenge]; try done; destruct x as [[| | |v]|]; try done.
  injection Hs as <-. exists id, v. split; [| done]. unfold reads. apply list_elem_of_omap.
  eexists. split; [exact Hin |]. simpl. by rewrite bool_decide_eq_true_2.
Qed.

(** The configuration an acknowledgement names is the one asked for. *)
Lemma moves_ack_context kem_seed id e saved capsule certificate a e' :
  entry_ok hex_encode kem_seed id e →
  moves hex_encode kem_seed id e (OpActivate id saved capsule certificate)
    (Ok (RActivate a)) e' →
  hex_encode (cr_config_id (ctx_config_ref (waa_context a))) = id.
Proof.
  intros [Hid Hp] Hm.
  assert (Hctx : ∀ k p, stale_or_downgraded e p k = false →
    hex_encode (cr_config_id (ctx_config_ref (rac_context k))) = id).
  { intros k p Hs. unfold stale_or_downgraded in Hs. checks. congruence. }
  inversion Hm; subst; try done.
  - match goal with Hn : wce_pending_capsule e' = Some p |- _ => rewrite Hn in Hp end.
    match goal with Ha : answers _ _ |- _ => destruct (Ha eq_refl) as (x & Hx & [= <-]) end.
    destruct (wce_pending_ack e') as [b|]; [| done]. injection Hx as ->.
    destruct Hp as (k & t & _&_&_&_&_&_&_& Hs &_& -> & _). by apply (Hctx k p).
  - match goal with Ha : answers _ _ |- _ => destruct (Ha eq_refl) as (x & [= <-] & [= <-]) end.
    match goal with Hs : signed_ack _ _ _ _ _ = _ |- _ => apply signed_ack_Some in Hs as -> end.
    match goal with Hc : activation_checked _ _ _ _ _ _ |- _ =>
      destruct Hc as (_&_&_&_&_&_&_&_& Hs &_) end. by apply (Hctx certificate capsule).
Qed.

(** Every acknowledgement given is locked, as long as no veto comes in. *)
Lemma evolves_acks kem_seed id e0 h e :
  entry_ok hex_encode kem_seed id e0 → evolves hex_encode kem_seed id e0 h e →
  vetoed id (cap3_owner_cancel_public_key (wce_capsule e0)) h = false →
  ∀ a, a ∈ acks id h →
    WitnessStore.wes_predecessor_locks (wce_register e)
      !! hex_encode (waa_predecessor_capsule_hash a) = Some (waa_successor_capsule_hash a).
Proof.
  intros H0 Hev Hv. induction Hev as [|h e op r e' Hev IH Hm]; [by intros ? ?%elem_of_nil |].
  simpl in Hv. apply orb_false_iff in Hv as [Hv Hvs].
  destruct (evolves_ok _ _ _ _ _ _ H0 Hev) as [Hok Hsp]. rewrite <- (sp_owner _ _ Hsp) in Hv.
  change ((op, r) :: h) with ([(op, r)] ++ h). intros a. rewrite acks_app, elem_of_app.
  intros [Ha | Ha]; [| by apply (moves_locks _ _ _ _ _ _ _ _ _ Hm Hv), IH].
  unfold acks in Ha. simpl in Ha.
  destruct op as [| |id' saved capsule certificate| |]; try (by apply elem_of_nil in Ha).
  destruct r as [[| |b|]|]; try (by apply elem_of_nil in Ha).
  case_bool_decide as Eid; [| by apply elem_of_nil in Ha].
  apply list_elem_of_singleton in Ha as ->. subst id'.
  by apply (moves_acked _ _ _ _ _ _ _ _ _ Hok) in Hm as (? & _).
Qed.

Lemma evolves_ack_context kem_seed id e0 h e a :
  entry_ok hex_encode kem_seed id e0 → evolves hex_encode kem_seed id e0 h e → a ∈ acks id h →
  hex_encode (cr_config_id (ctx_config_ref (waa_context a))) = id.
Proof.
  intros H0 Hev. induction Hev as [|h e op r e' Hev IH Hm]; [by intros ?%elem_of_nil |].
  destruct (evolves_ok _ _ _ _ _ _ H0 Hev) as [Hok _].
  change ((op, r) :: h) with ([(op, r)] ++ h). rewrite acks_app, elem_of_app.
  intros [Ha | Ha]; [| by apply IH]. unfold acks in Ha. simpl in Ha.
  destruct op as [| |id' saved capsule certificate| |]; try (by apply elem_of_nil in Ha).
  destruct r as [[| |b|]|]; try (by apply elem_of_nil in Ha).
  case_bool_decide as Eid; [| by apply elem_of_nil in Ha].
  apply list_elem_of_singleton in Ha as ->. subst id'. by eapply moves_ack_context.
Qed.

(** A read names the configuration and epoch of the capsule it carries. *)
Lemma evolves_read_config kem_seed id e0 h e v :
  evolves hex_encode kem_seed id e0 h e → v ∈ reads id h →
  hex_encode (werr_config_id (wre_response v)) = id
  ∧ werr_highest_guardian_epoch (wre_response v) = epoch_of (wre_capsule v).
Proof.
  intros Hev. induction Hev as [|h e op r e' Hev IH Hm]; [by intros ?%elem_of_nil |].
  change ((op, r) :: h) with ([(op, r)] ++ h). rewrite reads_app, elem_of_app.
  intros [Hv | Hv]; [| by apply IH]. unfold reads in Hv. simpl in Hv.
  destruct op as [| | | |id' now saved challenge]; try (by apply elem_of_nil in Hv).
  destruct r as [[| | |v']|]; try (by apply elem_of_nil in Hv).
  case_bool_decide as Eid; [| by apply elem_of_nil in Hv].
  apply list_elem_of_singleton in Hv as ->. subst id'.
  pose proof (moves_read _ _ _ _ _ _ _ _ _ Hm) as [Hr _].
  apply signed_read_Some in Hr as [Ec Er]. rewrite Er, Ec. split; [| done].
  by inversion Hm.
Qed.

(** A node that has run the handlers since its disk was empty; [owner] is the
    key it holds for configuration [id]. *)
Record honest (id : string) (owner : barr 32) (n : Node) : Prop := {
  hn_runs : ran hex_encode (node_seed n) ∅ (node_history n) (node_disk n);
  hn_owner : ∀ e, node_disk n !! id = Some e →
    cap3_owner_cancel_public_key (wce_capsule e) = owner
}.

Lemma honest_ack_context id owner n id' a :
  honest id owner n → a ∈ acks id' (node_history n) →
  hex_encode (cr_config_id (ctx_config_ref (waa_context a))) = id'.
Proof.
  intros [Hr _] Ha. destruct (life _ _ _ _ id' Hr)
    as [[_ Hq] | (h2 & h1 & provision & e & Eh & Hq & Hp & Hev & _)].
  - rewrite (quiet_acks _ _ Hq) in Ha. by apply elem_of_nil in Ha.
  - rewrite Eh, acks_app, (quiet_acks _ _ Hq), app_nil_r in Ha.
    by apply (evolves_ack_context _ _ _ _ _ _ (provisioned_ok _ _ _ _ Hp) Hev).
Qed.

Lemma honest_read_config id owner n id' v :
  honest id owner n → v ∈ reads id' (node_history n) →
  hex_encode (werr_config_id (wre_response v)) = id'
  ∧ werr_highest_guardian_epoch (wre_response v) = epoch_of (wre_capsule v).
Proof.
  intros [Hr _] Ha. destruct (life _ _ _ _ id' Hr)
    as [[_ Hq] | (h2 & h1 & provision & e & Eh & Hq & Hp & Hev & _)].
  - rewrite (quiet_reads _ _ Hq) in Ha. by apply elem_of_nil in Ha.
  - rewrite Eh, reads_app, (quiet_reads _ _ Hq), app_nil_r in Ha.
    by apply (evolves_read_config _ _ _ _ _ _ Hev).
Qed.

Lemma honest_acks id owner n a1 a2 :
  honest id owner n → vetoed id owner (node_history n) = false →
  a1 ∈ acks id (node_history n) → a2 ∈ acks id (node_history n) →
  waa_predecessor_capsule_hash a1 = waa_predecessor_capsule_hash a2 →
  waa_successor_capsule_hash a1 = waa_successor_capsule_hash a2.
Proof.
  intros [Hr Ho] Hv H1 H2 Hpre. destruct (life _ _ _ _ id Hr)
    as [[_ Hq] | (h2 & h1 & provision & e & Eh & Hq & Hp & Hev & Hd)].
  - rewrite (quiet_acks _ _ Hq) in H1. by apply elem_of_nil in H1.
  - pose proof (provisioned_ok _ _ _ _ Hp) as H0.
    rewrite Eh, acks_app, (quiet_acks _ _ Hq), app_nil_r in H1, H2.
    rewrite Eh in Hv. unfold vetoed in Hv. rewrite existsb_app in Hv.
    apply orb_false_iff in Hv as [Hv _].
    destruct (evolves_ok _ _ _ _ _ _ H0 Hev) as [_ Hsp].
    rewrite <- (Ho e Hd), (sp_owner _ _ Hsp) in Hv.
    pose proof (evolves_acks _ _ _ _ _ H0 Hev Hv _ H1) as L1.
    pose proof (evolves_acks _ _ _ _ _ H0 Hev Hv _ H2) as L2.
    rewrite Hpre in L1. congruence.
Qed.

(** ** Nodes and the card *)

Definition unforgeable (card : RecoveryCardV3) (nodes : gmap u16 Node) : Prop :=
  ∀ w n pin b sig, nodes !! w = Some n → witness_pins card !! w = Some pin →
    verify (pin_public_key pin) b sig = Ok () →
    ∃ s, s ∈ said (node_history n) ∧ doc_transcript s = Ok b.

(** The honest nodes of a card: all but at most [f] of at most [3f+1]. *)
Record deployment (card : RecoveryCardV3) (nodes : gmap u16 Node) : Prop := {
  dp_size : (N.of_nat (size (roster card)) ≤ 3 * card3_witness_fault_bound card + 1)%N;
  dp_faults : (N.of_nat (size (roster card ∖ dom nodes)) ≤ card3_witness_fault_bound card)%N;
  dp_honest : ∀ w n, nodes !! w = Some n →
    honest (hex_encode (card3_config_id card)) (card3_owner_cancel_public_key card) n;
  dp_signatures : unforgeable card nodes
}.

(** An acknowledgement under an honest node's key is one the node gave. *)
Lemma genuine_ack card nodes qc capsule certificate hash ack n :
  deployment card nodes → activation_qc_ok card capsule certificate hash qc →
  ack ∈ qc_witness_acks qc → nodes !! waa_witness_id ack = Some n →
  ∃ a, a ∈ acks (hex_encode (card3_config_id card)) (node_history n)
    ∧ waa_unsigned a = waa_unsigned ack.
Proof.
  intros Hdep Hqc Hin Hn.
  destruct Hqc as (_ & Hcfg & _&_&_&_&_&_&_& Hall & _).
  destruct (Hall ack Hin) as [(_ & Hc & _) (pin & Hpin & Hk & b & Hb & Hs)].
  destruct (dp_signatures _ _ Hdep _ _ _ _ _ Hn Hpin Hs) as (s & Hsaid & Hsb).
  pose proof (transcripts_determine s (D_witness_activation_ack ack) b Hsb Hb) as E.
  destruct s; try discriminate E.
  assert (U : waa_unsigned value = waa_unsigned ack).
  { exact (f_equal (λ d, match d with D_witness_activation_ack a => a | _ => ack end) E). }
  destruct (said_ack _ _ Hsaid) as [id Ha].
  pose proof (honest_ack_context _ _ _ _ _ (dp_honest _ _ Hdep _ _ Hn) Ha) as Hid.
  exists value. split; [| done].
  assert (Hctx : waa_context value = waa_context ack)
    by exact (f_equal waa_context U).
  rewrite Hctx, Hc, Hcfg in Hid. by rewrite Hid.
Qed.

(** A read under an honest node's key is one the node answered. *)
Lemma genuine_read card nodes challenge envelope n :
  deployment card nodes → valid_answer card challenge envelope →
  nodes !! werr_witness_id (wre_response envelope) = Some n →
  ∃ id v, v ∈ reads id (node_history n)
    ∧ werr_unsigned (wre_response v) = werr_unsigned (wre_response envelope).
Proof.
  intros Hdep [(pin & [Hpin _] & b & Hb & Hs) _] Hn.
  destruct (dp_signatures _ _ Hdep _ _ _ _ _ Hn Hpin Hs) as (s & Hsaid & Hsb).
  pose proof (transcripts_determine s (D_witness_epoch_read_response (wre_response envelope))
    b Hsb Hb) as E.
  destruct s; try discriminate E.
  assert (U : werr_unsigned value = werr_unsigned (wre_response envelope)).
  { exact (f_equal (λ d, match d with
      D_witness_epoch_read_response r => r | _ => wre_response envelope end) E). }
  destruct (said_read _ _ Hsaid) as (id & v & Hv & <-). by exists id, v.
Qed.

(** ** No fork *)

(** C1 (safety): guardian epochs do not fork.  Two capsules that a client
    accepts as activated and that follow the same predecessor are the same, as
    long as at most f of the at most 3f+1 pinned witnesses are dishonest and
    no honest witness was given a cancellation by the owner. *)
Theorem activated_capsules_do_not_fork card nodes c1 c2 :
  deployment card nodes →
  (∀ w n, nodes !! w = Some n →
     vetoed (hex_encode (card3_config_id card)) (card3_owner_cancel_public_key card)
       (node_history n) = false) →
  activated card c1 → activated card c2 →
  uval (epoch_of c1) ≠ 1%N → uval (epoch_of c2) ≠ 1%N →
  cap3_predecessor_capsule_hash c1 = cap3_predecessor_capsule_hash c2 →
  cap3_capsule_hash c1 = cap3_capsule_hash c2.
Proof.
  intros Hdep Hv H1 H2 He1 He2 Hpre.
  destruct H1 as (_&_&_&_&_&_& [[? _] | (_ & k1 & h1 & q1 & _ & _ & _ & Q1)]); [done |].
  destruct H2 as (_&_&_&_&_&_& [[? _] | (_ & k2 & h2 & q2 & _ & _ & _ & Q2)]); [done |].
  assert (Hq : ∀ c k h q, activation_qc_ok card c k h q →
    list_to_set (ack_ids q) ⊆ roster card
    ∧ (2 * card3_witness_fault_bound card + 1
       ≤ N.of_nat (size (list_to_set (ack_ids q) : gset u16)))%N).
  { intros c k h q Q. split.
    - intros w Hw%elem_of_list_to_set. by eapply activated_acks_pinned.
    - destruct Q as (_&_&_&_&_&_&_&_&_&_& Hnd & Hn). by rewrite size_list_to_set. }
  destruct (Hq _ _ _ _ Q1) as [R1 S1], (Hq _ _ _ _ Q2) as [R2 S2].
  destruct (quorums_share_honest _ _ _ (dom nodes) _ R1 R2 (dp_size _ _ Hdep) S1 S2
    (dp_faults _ _ Hdep)) as (w & W1 & W2 & Hw).
  apply elem_of_dom in Hw as [n Hn].
  apply elem_of_list_to_set, list_elem_of_fmap in W1 as (b1 & -> & B1).
  apply elem_of_list_to_set, list_elem_of_fmap in W2 as (b2 & Ew & B2).
  destruct (genuine_ack _ _ _ _ _ _ _ _ Hdep Q1 B1 Hn) as (a1 & A1 & U1).
  rewrite Ew in Hn. destruct (genuine_ack _ _ _ _ _ _ _ _ Hdep Q2 B2 Hn) as (a2 & A2 & U2).
  destruct Q1 as (_&_&_&_& P1 &_& C1 &_&_& All1 & _), Q2 as (_&_&_&_& P2 &_& C2 &_&_& All2 & _).
  destruct (All1 b1 B1) as [(_&_&_&_& P1' &_& C1' & _) _].
  destruct (All2 b2 B2) as [(_&_&_&_& P2' &_& C2' & _) _].
  pose proof (f_equal waa_predecessor_capsule_hash U1) as U1p.
  pose proof (f_equal waa_successor_capsule_hash U1) as U1s.
  pose proof (f_equal waa_predecessor_capsule_hash U2) as U2p.
  pose proof (f_equal waa_successor_capsule_hash U2) as U2s. simpl in *.
  assert (E : waa_successor_capsule_hash a1 = waa_successor_capsule_hash a2).
  { apply (honest_acks _ _ n _ _ (dp_honest _ _ Hdep _ _ Hn) (Hv _ _ Hn) A1 A2). congruence. }
  congruence.
Qed.

(** ** Fresh reads *)

(** C6 (safety): a client never falls behind.  If at some time 2f+1 witnesses
    were at epoch [e] or later (as far as they are honest), and the client's
    nonce had not been answered by then, the capsule it selects has epoch [e]
    or later. *)
Theorem latest_epoch_is_fresh card nodes challenge envelopes capsule (Q : gset u16) (e : u64)
    (earlier later : u16 → list Entry) (then_ : u16 → WitnessDisk) :
  deployment card nodes →
  select_latest_epoch_v3 card challenge envelopes = Ok capsule →
  Q ⊆ roster card →
  (2 * card3_witness_fault_bound card + 1 ≤ N.of_nat (size Q))%N →
  (∀ w n, nodes !! w = Some n →
     node_history n = later w ++ earlier w
     ∧ ran hex_encode (node_seed n) ∅ (earlier w) (then_ w)
     ∧ ran hex_encode (node_seed n) (then_ w) (later w) (node_disk n)
     ∧ (∀ id v, v ∈ reads id (earlier w) →
          werr_client_nonce (wre_response v) ≠ erc_client_nonce challenge)) →
  (∀ w n, w ∈ Q → nodes !! w = Some n →
     ∃ entry, then_ w !! hex_encode (card3_config_id card) = Some entry
       ∧ (e ≤ epoch_of (wce_capsule entry))%N) →
  (e ≤ epoch_of capsule)%N.
Proof.
  intros Hdep Hsel HQ HsQ Hruns HeQ.
  apply select_inv in Hsel as (_ & Ecfg & answers & _ & (Hnd & Hn & Hval) & _ & Hmax).
  assert (Hids : list_to_set ((λ a, werr_witness_id (wre_response a)) <$> answers)
    ⊆ roster card).
  { intros w. rewrite elem_of_list_to_set. intros (a & -> & Ha)%list_elem_of_fmap.
    destruct (Hval a Ha) as [(pin & [Hpin _] & _) _]. by eapply witness_pins_roster. }
  assert (Hs : (2 * card3_witness_fault_bound card + 1
    ≤ N.of_nat (size (list_to_set ((λ a, werr_witness_id (wre_response a)) <$> answers)
        : gset u16)))%N).
  { rewrite size_list_to_set by done. unfold len in Hn. by rewrite length_fmap. }
  destruct (quorums_share_honest _ _ _ (dom nodes) _ Hids HQ (dp_size _ _ Hdep) Hs HsQ
    (dp_faults _ _ Hdep)) as (w & Wa & Wq & Hw).
  apply elem_of_dom in Hw as [n Hnode].
  apply elem_of_list_to_set, list_elem_of_fmap in Wa as (a & -> & Ha).
  destruct (genuine_read _ _ _ _ _ Hdep (Hval a Ha) Hnode) as (id & v & Hv & U).
  destruct (honest_read_config _ _ _ _ _ (dp_honest _ _ Hdep _ _ Hnode) Hv) as [Hid Hep].
  destruct (Hval a Ha) as [(pin & (_&_& Hc & Hno &_& Hh &_) & _) _].
  pose proof (f_equal werr_config_id U) as Uc. pose proof (f_equal werr_client_nonce U) as Un.
  pose proof (f_equal werr_highest_guardian_epoch U) as Uh. simpl in Uc, Un, Uh.
  rewrite Uc, Hc, Ecfg in Hid. subst id.
  destruct (Hruns _ _ Hnode) as (Eh & R1 & R2 & Hfresh).
  rewrite Eh, reads_app in Hv. apply elem_of_app in Hv as [Hv | Hv];
    [| destruct (Hfresh _ _ Hv); congruence].
  destruct (HeQ _ _ Wq Hnode) as (entry & Hentry & Hle).
  pose proof (ran_entry_ok _ _ _ _ _ _ R1 Hentry) as Hok.
  destruct (ran_evolves _ _ _ _ _ _ _ Hentry R2) as (e' & _ & Hev).
  destruct (evolves_read_epochs _ _ _ _ _ _ _ Hok Hev Hv) as [Hge _].
  destruct (Hmax a Ha) as [Hm _]. rewrite <- Hh, <- Uh, Hep in Hm.
  etrans; [exact Hle |]. by etrans.
Qed.

End quorum.

(** ** Witnesses

    Witnesses 1, 2 and 3 are honest: each provisions, acknowledges the
    successor, finalises it and answers one read.  Their keys sign nothing
    else; witness 4 may sign anything. *)

Import Scenario.

Definition ex_setup_of (w : N) : list Op :=
  [op_provision w; op_activate 1; op_finalize 1 [1; 2; 3]%N].

Definition messages (h : list (Op * Result ApiError Response)) : list (list byte) :=
  (λ s, ok_bytes (doc_transcript s)) <$> said h.

Definition node_messages (w : N) : list (list byte) :=
  [ok_bytes (witness_activation_ack (ack 1 [] w));
   ok_bytes (witness_epoch_read_response (response 11 (successor 1 [1; 2; 3]%N) [] w))].
Definition messages_1 : list (list byte) := Eval vm_compute in node_messages 1.
Definition messages_2 : list (list byte) := Eval vm_compute in node_messages 2.
Definition messages_3 : list (list byte) := Eval vm_compute in node_messages 3.

Definition messages_of (w : N) : list (list byte) :=
  if (w =? 1)%N then messages_1 else if (w =? 2)%N then messages_2 else messages_3.
Definition honest_ids : list N := [1; 2; 3]%N.

(** What a key signs, when it is the key of an honest node. *)
Definition signs (key : barr 32) (message : list byte) : bool :=
  forallb (λ w, negb (bool_decide (key = id w)) || bool_decide (message ∈ messages_of w))
    honest_ids.

Definition honest_keys : Primitives := {|
  Sha256_digest := digest;
  VerifyingKey := barr 32;
  VerifyingKey_from_bytes := Some;
  Signature := list byte;
  Signature_try_from := Some;
  VerifyingKey_verify := λ key message signature,
    bool_decide (signature = signature_of key message) && signs key message;
  SigningKey := Id32;
  SigningKey_from_bytes := λ seed, seed;
  SigningKey_verifying_key := λ key, key;
  SigningKey_sign := signature_of;
  MerkleTree_root := @MerkleTree_root toy;
  MerkleTree_proof := @MerkleTree_proof toy;
  MerkleProof := list byte;
  MerkleProof_try_from := Some;
  MerkleProof_verify := @MerkleProof_verify toy
|}.

Definition ex_before (w : N) := play (Prims := honest_keys) w ∅ (ex_setup_of w).
Definition ex_after (w : N) :=
  play (Prims := honest_keys) w ∅ (ex_setup_of w ++ [op_read 11]).
Definition ex_node (w : N) : Node := {|
  node_seed := id w;
  node_history := (ex_after w).1;
  node_disk := (ex_after w).2
|}.
Definition ex_nodes : gmap u16 Node :=
  list_to_map ((λ w, (U16 w, ex_node w)) <$> honest_ids).

Definition entry_is (f : WitnessConfigEntry → bool) (d : WitnessDisk) : bool :=
  match d !! ex_config_id with Some e => f e | None => false end.

(** The facts about a run that are evaluated. *)
Definition run_checked (signed_messages : list (list byte))
    (before after : list (Op * Result ApiError Response) * WitnessDisk) : bool :=
  bool_decide (messages after.1 = rev signed_messages)
  && entry_is (λ e, bool_decide (cap3_owner_cancel_public_key (wce_capsule e) = owner_key))
       after.2
  && entry_is (λ e, 2 <=? uval (epoch_of (wce_capsule e)))%N before.2
  && negb (@vetoed honest_keys ex_config_id owner_key after.1).

Lemma ex_checks :
  forallb (λ w, run_checked (messages_of w) (ex_before w) (ex_after w)) honest_ids = true.
Proof. by vm_compute. Qed.

Lemma ex_checked w :
  w ∈ honest_ids → run_checked (messages_of w) (ex_before w) (ex_after w) = true.
Proof.
  intros Hw. pose proof ex_checks as H. rewrite forallb_forall in H.
  by apply H, list_elem_of_In.
Qed.

Lemma ex_node_id w n :
  ex_nodes !! w = Some n → ∃ v, v ∈ honest_ids ∧ w = U16 v ∧ n = ex_node v.
Proof.
  intros H%elem_of_list_to_map_2. apply list_elem_of_fmap in H as (v & [= -> ->] & Hv).
  by exists v.
Qed.

Lemma ex_runs w :
  ran ex_hex (id w) ∅ (ex_before w).1 (ex_before w).2 (Prims := honest_keys)
  ∧ ∃ r, (ex_after w).1 = [(op_read 11, r)] ++ (ex_before w).1
      ∧ ran ex_hex (id w) (ex_before w).2 [(op_read 11, r)] (ex_after w).2
          (Prims := honest_keys)
      ∧ ran ex_hex (id w) ∅ (ex_after w).1 (ex_after w).2 (Prims := honest_keys).
Proof.
  split; [apply play_ran |]. unfold ex_after, ex_before. rewrite play_snoc.
  pose proof (play_ran (Prims := honest_keys) w ∅ (ex_setup_of w)) as Hr.
  destruct (serve ex_hex (id w) (op_read 11) (play w ∅ (ex_setup_of w)).2) as [r d] eqn:E.
  exists r. split_and!; [done | |].
  - eapply ran_serve; [apply ran_start | exact E].
  - eapply ran_serve; [exact Hr | exact E].
Qed.

Lemma reads_none i (h : list (Op * Result ApiError Response)) :
  (∀ op, op ∈ h.*1 → ∀ j now saved c, op ≠ OpRead j now saved c) → reads i h = [].
Proof.
  induction h as [|[op r] h IH]; intros Hall; [done |].
  change ((op, r) :: h) with ([(op, r)] ++ h). rewrite reads_app, IH, app_nil_r.
  - unfold reads. simpl. destruct op; try done.
    by destruct (Hall _ (list_elem_of_here _ _) _ _ _ _ eq_refl).
  - intros op' Hin. apply Hall. by right.
Qed.

Lemma ex_before_reads i w : reads i (ex_before w).1 = [].
Proof.
  apply reads_none. intros op Hin j now saved c ->.
  unfold ex_before in Hin. rewrite play_ops in Hin. unfold ex_setup_of in Hin. simpl in Hin.
  rewrite !elem_of_cons, elem_of_nil in Hin. by destruct Hin as [? | [? | [? | []]]].
Qed.

#[local] Opaque ex_before ex_after.

Lemma ex_honest w :
  w ∈ honest_ids → @honest honest_keys ex_hex ex_config_id owner_key (ex_node w).
Proof.
  intros Hw. destruct (ex_runs w) as (_ & r & _ & _ & Hr). split; [exact Hr |].
  intros e He. pose proof (ex_checked w Hw) as Hc. unfold run_checked in Hc.
  apply andb_true_iff in Hc as [[[_ Ho]%andb_true_iff _]%andb_true_iff _].
  unfold entry_is in Ho. simpl in He. rewrite He in Ho. by apply bool_decide_eq_true in Ho.
Qed.

Lemma ex_messages w :
  w ∈ honest_ids → messages (node_history (ex_node w)) = rev (messages_of w).
Proof.
  intros Hw. pose proof (ex_checked w Hw) as Hc. unfold run_checked in Hc.
  apply andb_true_iff in Hc as [[[Hm _]%andb_true_iff _]%andb_true_iff _].
  apply bool_decide_eq_true in Hm. exact Hm.
Qed.

Lemma ex_no_veto w :
  w ∈ honest_ids → @vetoed honest_keys ex_config_id owner_key (node_history (ex_node w)) = false.
Proof.
  intros Hw. pose proof (ex_checked w Hw) as Hc. unfold run_checked in Hc.
  apply andb_true_iff in Hc as [_ Hv]. rewrite negb_true_iff in Hv. exact Hv.
Qed.

Lemma ex_dom : dom ex_nodes = list_to_set ((λ w, U16 w) <$> honest_ids).
Proof. unfold ex_nodes. by rewrite dom_list_to_map_L, <- list_fmap_compose. Qed.

Lemma ex_pin w pin :
  w ∈ honest_ids → witness_pins card !! U16 w = Some pin → pin_public_key pin = id w.
Proof.
  intros Hw Hp.
  assert (Hall : forallb (λ w, match witness_pins card !! U16 w with
    | Some pin => bool_decide (pin_public_key pin = id w) | None => false end) honest_ids
    = true) by by vm_compute.
  rewrite forallb_forall in Hall. apply list_elem_of_In in Hw. specialize (Hall w Hw).
  rewrite Hp in Hall. by apply bool_decide_eq_true in Hall.
Qed.

Lemma ok_bytes_Ok {E} (r : Result E (list byte)) b : b ≠ [] → ok_bytes r = b → r = Ok b.
Proof. destruct r; simpl; congruence. Qed.

Lemma messages_said h b :
  b ≠ [] → b ∈ messages h → ∃ s, s ∈ said h ∧ doc_transcript s = Ok b.
Proof.
  intros Hne (s & Hb & Hs)%list_elem_of_fmap. exists s. split; [done |].
  by apply ok_bytes_Ok.
Qed.

Lemma messages_nonempty w b : w ∈ honest_ids → b ∈ messages_of w → b ≠ [].
Proof.
  intros Hw Hb ->.
  assert (Hall : forallb (λ w, forallb (λ m, negb (len m =? 0)%N) (messages_of w)) honest_ids
    = true) by by vm_compute.
  rewrite forallb_forall in Hall. apply list_elem_of_In in Hw. specialize (Hall w Hw).
  rewrite forallb_forall in Hall. apply list_elem_of_In in Hb. by specialize (Hall [] Hb).
Qed.

Lemma ex_signs key b sig :
  @verify honest_keys key b sig = Ok () → signs key b = true.
Proof.
  unfold verify. simpl. destruct (bool_decide (sig = signature_of key b)); simpl; [| done].
  by destruct (signs key b).
Qed.

Lemma ex_unforgeable : @unforgeable honest_keys card ex_nodes.
Proof.
  intros w n pin b sig (v & Hv & -> & ->)%ex_node_id Hpin Hs.
  pose proof (ex_pin v pin Hv Hpin) as Hk.
  apply ex_signs in Hs. unfold signs in Hs. rewrite forallb_forall in Hs.
  specialize (Hs v (proj1 (list_elem_of_In _ _) Hv)).
  rewrite Hk, bool_decide_eq_true_2 in Hs by done. simpl in Hs.
  apply bool_decide_eq_true in Hs.
  apply messages_said; [by eapply messages_nonempty |]. rewrite (ex_messages v Hv).
  apply list_elem_of_In, in_rev. rewrite rev_involutive. by apply list_elem_of_In.
Qed.

Lemma ex_deployment : @deployment honest_keys ex_hex card ex_nodes.
Proof.
  split.
  - by vm_compute.
  - rewrite ex_dom. by vm_compute.
  - intros w n (v & Hv & -> & ->)%ex_node_id. exact (ex_honest v Hv).
  - exact ex_unforgeable.
Qed.

Lemma activated_capsules_do_not_fork_witness :
  cap3_capsule_hash (successor 1 [1; 2; 3]%N) = cap3_capsule_hash (successor 1 [1; 2; 4]%N).
Proof.
  apply (@activated_capsules_do_not_fork honest_keys ex_hex card ex_nodes).
  - exact ex_deployment.
  - intros w n (v & Hv & -> & ->)%ex_node_id.
    exact (ex_no_veto v Hv).
  - apply (proj1 (@validate_activated_capsule_Ok honest_keys card _ ())). by vm_compute.
  - apply (proj1 (@validate_activated_capsule_Ok honest_keys card _ ())). by vm_compute.
  - by vm_compute.
  - by vm_compute.
  - by vm_compute.
Defined.

Abbreviation ex_fresh_reads := [read 11 (successor 1 [1; 2; 3]%N) 1;
  read 11 (successor 1 [1; 2; 3]%N) 2; read 11 (successor 1 [1; 2; 3]%N) 3].

Lemma ex_before_epoch w :
  w ∈ honest_ids → ∃ e, (ex_before w).2 !! ex_config_id = Some e
    ∧ (2 ≤ epoch_of (wce_capsule e))%N.
Proof.
  intros Hw. pose proof (ex_checked w Hw) as Hc. unfold run_checked in Hc.
  apply andb_true_iff in Hc as [[_ He]%andb_true_iff _]. unfold entry_is in He.
  destruct ((ex_before w).2 !! ex_config_id) as [e|]; [| discriminate He].
  exists e. split; [reflexivity |]. by apply N.leb_le.
Qed.

Lemma latest_epoch_is_fresh_witness :
  ∃ capsule, @select_latest_epoch_v3 honest_keys card (challenge 11) ex_fresh_reads = Ok capsule
    ∧ (2 ≤ epoch_of capsule)%N.
Proof.
  assert (Hok : is_ok (@select_latest_epoch_v3 honest_keys card (challenge 11) ex_fresh_reads)
    = true) by by vm_compute.
  destruct (@select_latest_epoch_v3 honest_keys card (challenge 11) ex_fresh_reads)
    as [capsule | x] eqn:E.
  - exists capsule. split; [reflexivity |].
    apply (@latest_epoch_is_fresh honest_keys ex_hex card ex_nodes (challenge 11) ex_fresh_reads
      capsule (list_to_set ((λ w, U16 w) <$> honest_ids)) (U64 2)
      (λ w, (ex_before (uval w)).1)
      (λ w, take 1 (ex_after (uval w)).1)
      (λ w, (ex_before (uval w)).2)).
    + exact ex_deployment.
    + exact E.
    + apply (bool_decide_unpack _). by vm_compute.
    + by vm_compute.
    + intros w n (v & Hv & -> & ->)%ex_node_id.
      assert (Ev : uval (U16 v) = v).
      { unfold honest_ids in Hv. rewrite !elem_of_cons, elem_of_nil in Hv.
        by destruct Hv as [-> | [-> | [-> | []]]]. }
      rewrite Ev. destruct (ex_runs v) as (H1 & r & Eh & H2 & _).
      rewrite Eh. split_and!.
      * exact Eh.
      * exact H1.
      * exact H2.
      * intros i x Hx. rewrite ex_before_reads in Hx.
        destruct (proj1 (elem_of_nil x) Hx).
    + intros w n _ (v & Hv & -> & ->)%ex_node_id.
      assert (Ev : uval (U16 v) = v).
      { unfold honest_ids in Hv. rewrite !elem_of_cons, elem_of_nil in Hv.
        by destruct Hv as [-> | [-> | [-> | []]]]. }
      rewrite Ev. destruct (ex_before_epoch v Hv) as (e & He & Hle). exists e.
      change (ex_hex (card3_config_id card)) with ex_config_id.
      change (uval (U64 2)) with 2%N. exact (conj He Hle).
  - discriminate Hok.
Defined.
