(* ===== verification/RuntimeTypes.v ===== *)
(** Data of the protocol-v3 actors (crates/gp-network/src/types.rs) and the
    steps of their code: a handler changes an entry in place and draws from the
    thread's random generator, so it is code over an entry and the generator's
    state; an error keeps what was changed before it.

    serde_json is third-party code, the class [RuntimePrimitives]. *)

From S2P Require Export StorageRotation Protocol.

(** ** Signers *)

Record SignerRotationProvisionV3 : Set := mkSignerRotationProvisionV3 {
  srp_mailbox : string;
  srp_signer_id : u16;
  srp_authorization_share : list byte;
  srp_signing_seed : Id32;
  srp_signing_public_key : barr 32;
  srp_membership_proof : list byte;
  srp_recovery_card : RecoveryCardV3;
  srp_active_capsule : ConfigCapsuleV3
}.

Record SignerRotationEntryV3 : Set := mkSignerRotationEntryV3 {
  sre_provision : SignerRotationProvisionV3;
  sre_security_state : Votes.SignerRotationStore;
  sre_recovery_requests : gmap string Id32;
  sre_recovery_nonces : gset Id32
}.

Inductive SignerRecoveryRequestV3 : Set :=
| RecApprove (request : RecoveryRequestV3) (witness_challenge : EpochReadChallenge)
    (witness_reads : list WitnessReadEnvelope)
| RecRelease (request : RecoveryRequestV3).

Inductive SignerRecoveryResponseV3 : Set :=
| RecContribution (contribution : SignerRecoveryContributionV3)
| RecReleaseVote (vote : SignerRecoveryReleaseVoteV3).

Inductive SignerRotationRequestV3 : Set :=
| SrIntent (intent : RotationIntent) (witness_challenge : EpochReadChallenge)
    (witness_reads : list WitnessReadEnvelope)
| SrBegin (intent_hash : Id32) (plan : RotationPlan)
| SrRelease (plan : RotationPlan) (begin_certificate : BeginRotationCertificate)
| SrActivate (plan : RotationPlan) (ready_certificate : RotationReadyCertificate)
    (successor_capsule : ConfigCapsuleV3)
| SrAbort (plan : RotationPlan) (state_at_abort : RotationState) (reason_code : u16)
    (response_recipient_key : list byte)
| SrFinalizeAbort (plan : RotationPlan) (certificate : AbortRotationCertificate)
    (response_recipient_key : list byte)
| SrFinalizeOwnerCancel (plan : RotationPlan) (certificate : OwnerRotationCancelCertificate)
    (witness_acks : list WitnessRotationCancelAck) (response_recipient_key : list byte).

(** [SignerRotationRequestV3::context]. *)
Definition signer_context (self : SignerRotationRequestV3) : RotationContext :=
  match self with
  | SrIntent intent _ _ => ri_context intent
  | SrBegin _ plan | SrRelease plan _ | SrActivate plan _ _ => plan_context plan
  | SrAbort plan _ _ _ | SrFinalizeAbort plan _ _ | SrFinalizeOwnerCancel plan _ _ _ =>
      plan_context plan
  end.

Inductive SignerRotationResponseV3 : Set :=
| SrIntentContribution (contribution : SignerRotationIntentContribution)
| SrBeginVote (vote : SignerRotationBeginVote)
| SrReleaseVote (vote : SignerRotationReleaseVote)
| SrActivateVote (vote : SignerRotationActivateVote)
| SrAbortVote (vote : SignerRotationAbortVote)
| SrAbortFinalized
| SrOwnerCancelFinalized.

(** ** Guardians *)

Record GuardianRotationProvisionV3 : Set := mkGuardianRotationProvisionV3 {
  grp_mailbox : string;
  grp_signing_seed : Id32;
  grp_signing_public_key : barr 32;
  grp_recovery_card : RecoveryCardV3;
  grp_predecessor_capsule : ConfigCapsuleV3;
  grp_signer_public_keys : gmap u16 (barr 32);
  grp_epoch_store : Epochs.GuardianEpochStore
}.

Record StagedGuardianMaterialV3 : Set := mkStagedGuardianMaterialV3 {
  sgm_record_draft : GuardianRecordV3;
  sgm_leaf : PreparedRecordLeaf;
  sgm_dpss_result_commitment : Id32
}.

Record GuardianRotationSessionV3 : Set := mkGuardianRotationSessionV3 {
  grs_rotation_machine : Rotation.RotationMachine;
  grs_plan_hash : Id32;
  grs_begin_certificate_hash : Id32;
  grs_accepted_wall_time : u64;
  grs_started_monotonic : u64;
  grs_not_before_monotonic : u64;
  grs_boot_id : string;
  grs_cancelled : bool;
  grs_next_outgoing_sequences : gmap string u64;
  grs_next_incoming_sequences : gmap string u64;
  grs_encrypted_local_state : option AeadCiphertext;
  grs_staged_material : option StagedGuardianMaterialV3
}.

Record PendingNetworkRecoveryV3 : Set := mkPendingNetworkRecoveryV3 {
  pn3_request : RecoveryRequestV3;
  pn3_request_digest : Id32;
  pn3_accepted_wall_time : u64;
  pn3_started_monotonic : u64;
  pn3_not_before_monotonic : u64;
  pn3_boot_id : string;
  pn3_cancelled : bool;
  pn3_released : bool
}.

Record GuardianRotationEntryV3 : Set := mkGuardianRotationEntryV3 {
  gre_provision : GuardianRotationProvisionV3;
  gre_sessions : gmap string GuardianRotationSessionV3;
  gre_recoveries : gmap string PendingNetworkRecoveryV3
}.

Inductive GuardianRecoveryRequestV3 : Set :=
| GvBegin (certificate : BeginRecoveryCertificateV3)
| GvCancel (request : RecoveryRequestV3) (certificate : OwnerRecoveryCancelCertificateV3)
| GvRelease (request : RecoveryRequestV3) (certificate : RecoveryReleaseCertificateV3).

(** [GuardianRecoveryRequestV3::request]. *)
Definition guardian_request (self : GuardianRecoveryRequestV3) : RecoveryRequestV3 :=
  match self with
  | GvBegin certificate => brc3_request certificate
  | GvCancel request _ | GvRelease request _ => request
  end.

Inductive GuardianRecoveryResponseV3 : Set :=
| GvBeginAccepted (not_before_monotonic : u64)
| GvCancelled (ack : OwnerRecoveryCancelAckV3)
| GvContribution (contribution : GuardianRecoveryContributionV3)
| GvRefused (reason : string).

Record DpssDeliveryV3 : Set := mkDpssDeliveryV3 {
  dd3_target_mailbox : string;
  dd3_sealed_message : SealedMessage
}.

Inductive GuardianRotationRequestV3 : Set :=
| GrBegin (plan : RotationPlan) (certificate : BeginRotationCertificate)
| GrCancel (plan : RotationPlan) (certificate : OwnerRotationCancelCertificate)
| GrRepairRound1 (plan : RotationPlan) (begin_certificate : BeginRotationCertificate)
    (release_certificate : RotationReleaseCertificate) (unlock_grant : OldShareUnlockGrant)
    (helper_ids : list u16) (replacement_id : u16)
| GrRepairRound2 (plan : RotationPlan) (incoming : list SealedMessage) (replacement_id : u16)
| GrRepairFinalize (plan : RotationPlan) (incoming : list SealedMessage)
    (old_public_package : list byte)
| GrRefreshRound1 (plan : RotationPlan) (begin_certificate : option BeginRotationCertificate)
    (release_certificate : option RotationReleaseCertificate)
    (old_share_grant : option OldShareUnlockGrant)
| GrRefreshRound2 (plan : RotationPlan) (incoming : list SealedMessage)
| GrRefreshFinalize (plan : RotationPlan) (incoming : list SealedMessage)
    (old_public_package : list byte)
| GrStageMaterial (plan : RotationPlan) (wrap_grant : NewShareWrapGrant)
    (fragment_index : u16) (ciphertext_fragment ciphertext_fragment_proof : list byte)
    (policy : GuardianPolicyV3) (opaque_slot_id : Id32)
| GrPrepareCommit (plan : RotationPlan) (guardian_material_root : Id32)
    (merkle_path_proof : list byte) (dpss_result_commitment : Id32)
| GrHandoffComplete (plan : RotationPlan) (dpss_result_commitment : Id32)
| GrActivate (plan : RotationPlan) (activated_capsule : ConfigCapsuleV3)
    (drain_deadline : u64)
| GrAbort (plan : RotationPlan) (certificate : AbortRotationCertificate)
| GrRetire (notice : RetirementNotice) (monotonic_now : u64).

(** [GuardianRotationRequestV3::context]. *)
Definition guardian_context (self : GuardianRotationRequestV3) : RotationContext :=
  match self with
  | GrBegin plan _ | GrCancel plan _ | GrRepairRound1 plan _ _ _ _ _
  | GrRepairRound2 plan _ _ | GrRepairFinalize plan _ _ | GrRefreshRound1 plan _ _ _
  | GrRefreshRound2 plan _ | GrRefreshFinalize plan _ _ | GrStageMaterial plan _ _ _ _ _ _
  | GrPrepareCommit plan _ _ _ | GrHandoffComplete plan _ | GrActivate plan _ _
  | GrAbort plan _ => plan_context plan
  | GrRetire notice _ => rn_context notice
  end.

Inductive GuardianRotationResponseV3 : Set :=
| GrBeginAccepted (not_before_monotonic : u64)
| GrCancelled (ack : OwnerRotationCancelAck)
| GrDpssDeliveries (deliveries : list DpssDeliveryV3)
    (fragment : option CiphertextFragmentContribution)
| GrRepairStored (guardian_index : u16) (expanded_public_package : list byte)
| GrRefreshFinalized (guardian_index : u16) (public_package : list byte)
    (dpss_result_commitment : Id32)
| GrRefreshMaterialStaged (leaf : PreparedRecordLeaf) (public_package : list byte)
    (dpss_result_commitment : Id32)
| GrPrepared (ack : NewGuardianPreparedAck)
| GrHandoff (ack : OldGuardianHandoffAck)
| GrActivated (guardian_epoch : u64)
| GrAborted
| GrRetired (ack : RetirementAck).

(** ** Steps *)

(** Code over an entry and the generator. *)
Abbreviation Act E A := (SR (E * Rng) Error A).

Section steps.
Context `{Protocol : ProtocolPrimitives}.

Definition entry_of {E} : Act E E := λ s, (Ok s.1, s).
Definition write {E} (e : E) : Act E () := λ s, (Ok (), (e, s.2)).
Definition try {E A} (r : Result Error A) : Act E A := λ s, (r, s).

(** [if c { bail!(message) }]. *)
Definition bail_if {E} (c : bool) (message : string) : Act E () :=
  try (fail_if c (Msg message)).
(** [.context(message)?] on an option. *)
Definition present {E A} (o : option A) (message : string) : Act E A :=
  try (ok_or o (Msg message)).

(** A draw from the generator. *)
Definition draw {E A} (m : SR Rng Error A) : Act E A := λ s,
  let '(r, rng) := m s.2 in (r, (s.1, rng)).

(** A change of the entry that keeps it on an error. *)
Definition stored {E A} (f : E → Result StorageError A * E) : Act E A := λ s,
  let '(r, e) := f s.1 in (map_err EStorage r, (e, s.2)).

(** [sign] over an encoded transcript: the value with its signature. *)
Definition sign_with {E A} `{Prims : Primitives} (seed : Id32) (transcript : Result WireError (list byte))
    (value : list byte → A) : Act E A :=
  t ← try (wire transcript);
  mret (value (sign (signing_key seed) t)).

End steps.
