(* ===== verification/Actors.v ===== *)
(** Reasoning about the actors' code: weakest preconditions of the steps of
    RuntimeTypes.v, and histories of calls.

    [wp m Q s]: run on the entry and generator [s], [m] ends with a result and
    a state in [Q], errors included. *)

From S2P Require Export Api RuntimeTypes.

Section wp.
Context `{Protocol : ProtocolPrimitives}.

Definition wp {E A} (m : Act E A) (Q : Result Error A → E * Rng → Prop) (s : E * Rng) : Prop :=
  Q (m s).1 (m s).2.

(** What remains to be shown where a step stops. *)
Definition stops {E A} (Q : Result Error A → E * Rng → Prop) (s : E * Rng) : Prop :=
  ∀ e, Q (Err e) s.

Lemma wp_run {E A} (m : Act E A) Q s r s' : wp m Q s → m s = (r, s') → Q r s'.
Proof. unfold wp. intros H Hm. by rewrite Hm in H. Qed.

Lemma wp_mono {E A} (m : Act E A) (P Q : Result Error A → E * Rng → Prop) s :
  wp m P s → (∀ r s', P r s' → Q r s') → wp m Q s.
Proof. unfold wp. auto. Qed.

Lemma wp_bind {E A B} (m : Act E A) (f : A → Act E B) Q s :
  wp m (λ r s', match r with Ok a => wp (f a) Q s' | Err e => Q (Err e) s' end) s →
  wp (m ≫= f) Q s.
Proof. unfold wp, mbind, SR_bind. by destruct (m s) as [[a | e] s1]. Qed.

Lemma wp_assoc {E A B C} (m : Act E A) (f : A → Act E B) (g : B → Act E C) Q s :
  wp (m ≫= λ a, f a ≫= g) Q s → wp ((m ≫= f) ≫= g) Q s.
Proof. unfold wp, mbind, SR_bind. by destruct (m s) as [[a | e] s1]. Qed.

Lemma wp_ret {E A} (a : A) (Q : Result Error A → E * Rng → Prop) s : Q (Ok a) s → wp (mret a) Q s.
Proof. done. Qed.

Lemma wp_ret_bind {E A B} (a : A) (f : A → Act E B) Q s :
  wp (f a) Q s → wp (mret a ≫= f) Q s.
Proof. done. Qed.

Lemma wp_entry_of {E B} (f : E → Act E B) Q s : wp (f s.1) Q s → wp (entry_of ≫= f) Q s.
Proof. done. Qed.

Lemma wp_write {E B} (e : E) (f : () → Act E B) Q s :
  wp (f ()) Q (e, s.2) → wp (write e ≫= f) Q s.
Proof. done. Qed.

Lemma wp_try {E A B} (r : Result Error A) (f : A → Act E B) Q s :
  stops Q s → (∀ a, r = Ok a → wp (f a) Q s) → wp (try r ≫= f) Q s.
Proof. intros He Ha. destruct r; [by apply Ha | apply He]. Qed.

Lemma wp_bail_if {E B} c message (f : () → Act E B) Q s :
  stops Q s → (c = false → wp (f ()) Q s) → wp (bail_if c message ≫= f) Q s.
Proof. intros He Ha. destruct c; [apply He | by apply Ha]. Qed.

Lemma wp_present {E A B} (o : option A) message (f : A → Act E B) Q s :
  stops Q s → (∀ a, o = Some a → wp (f a) Q s) → wp (present o message ≫= f) Q s.
Proof. intros He Ha. destruct o; [by apply Ha | apply He]. Qed.

Lemma wp_draw {E A B} (m : SR Rng Error A) (f : A → Act E B) Q s :
  (∀ rng, stops Q (s.1, rng)) → (∀ a rng, wp (f a) Q (s.1, rng)) → wp (draw m ≫= f) Q s.
Proof.
  intros He Ha. unfold wp, mbind, SR_bind, draw.
  destruct (m s.2) as [[a | e] rng]; [apply Ha | apply He].
Qed.

Lemma wp_stored {E A B} (g : E → Result StorageError A * E) (f : A → Act E B) Q s :
  (∀ e, (g s.1).1 = Err e → stops Q ((g s.1).2, s.2)) →
  (∀ a, (g s.1).1 = Ok a → wp (f a) Q ((g s.1).2, s.2)) → wp (stored g ≫= f) Q s.
Proof.
  intros He Ha. unfold wp, mbind, SR_bind, stored.
  destruct (g s.1) as [[a | e] e']; simpl in *; [by apply Ha | by eapply He].
Qed.

Lemma wp_sign_with `{Prims : Primitives} {E A B} seed t (v : list byte → A)
    (f : A → Act E B) Q s :
  stops Q s → (∀ b, t = Ok b → wp (f (v (sign (signing_key seed) b))) Q s) →
  wp (sign_with seed t v ≫= f) Q s.
Proof. intros He Ha. destruct t; [by apply Ha | apply He]. Qed.

End wp.

(** Guards on options. *)
Lemma not_None {A} `{EqDecision A} (o : option A) : bool_decide (o = None) = false → is_Some o.
Proof. rewrite bool_decide_eq_false. apply not_eq_None_Some. Qed.

Lemma not_Some {A} (o : option A) `{Decision (is_Some o)} :
  bool_decide (is_Some o) = false → o = None.
Proof. rewrite bool_decide_eq_false. apply eq_None_not_Some. Qed.

(** [wp_step_with other]: the next step of the code in the goal; [other] is for
    the steps that are not those of RuntimeTypes.v. *)
Ltac wp_step_with other :=
  cbv beta zeta;
  lazymatch goal with
  | |- wp (mbind _ ?m) _ _ =>
      lazymatch m with
      | mbind _ _ => apply wp_assoc
      | mret _ => apply wp_ret_bind
      | entry_of => apply wp_entry_of
      | write _ => apply wp_write
      | bail_if _ _ => apply wp_bail_if; [| intros ?]
      | present _ _ => apply wp_present; [| intros ? ?]
      | try _ => apply wp_try; [| intros ? ?]
      | draw _ => apply wp_draw; [intros ? | intros ? ?]
      | sign_with _ _ _ => apply wp_sign_with; [| intros ? ?]
      | match ?x with _ => _ end => destruct x eqn:?
      | _ => other m
      end
  | |- wp (mret _) _ _ => apply wp_ret
  | |- wp (match ?x with _ => _ end) _ _ => destruct x eqn:?
  end;
  cbv beta zeta.

(** ** Code that respects a relation

    Whatever it answers, the entry after it is related to the one before. *)

Section respects.
Context `{Protocol : ProtocolPrimitives} {E : Type} (R : E → E → Prop) `{!PreOrder R}.

Definition respects {A} (m : Act E A) : Prop := ∀ s, R s.1 (m s).2.1.

Lemma respects_bind {A B} (m : Act E A) (f : A → Act E B) :
  respects m → (∀ a, respects (f a)) → respects (m ≫= f).
Proof.
  intros Hm Hf s. specialize (Hm s). unfold mbind, SR_bind.
  destruct (m s) as [[a | e] s1]; [| done]. etrans; [exact Hm | apply Hf].
Qed.

Lemma respects_ret {A} (a : A) : respects (mret a).
Proof. intros s. reflexivity. Qed.
Lemma respects_try {A} (r : Result Error A) : respects (try r).
Proof. intros s. reflexivity. Qed.
Lemma respects_entry_of : respects entry_of.
Proof. intros s. reflexivity. Qed.
Lemma respects_draw {A} (m : SR Rng Error A) : respects (draw m).
Proof. intros s. unfold draw. by destruct (m s.2). Qed.
Lemma respects_sign_with `{Prims : Primitives} {A} seed t (v : list byte → A) :
  respects (sign_with seed t v).
Proof. intros s. by destruct t. Qed.
Lemma respects_write e : (∀ e0, R e0 e) → respects (write e).
Proof. intros H s. apply H. Qed.
Lemma respects_stored {A} (g : E → Result StorageError A * E) :
  (∀ e, R e (g e).2) → respects (stored g).
Proof. intros H s. unfold stored. specialize (H s.1). by destruct (g s.1). Qed.

(** Code that first reads the entry. *)
Lemma respects_read {A} (f : E → Act E A) :
  (∀ e rng, R e (f e (e, rng)).2.1) → respects (entry_of ≫= f).
Proof. intros H [e rng]. apply H. Qed.

(** Such code in front of other code, and at the end. *)
Lemma wp_respects {A B} (m : Act E A) (f : A → Act E B) Q s :
  respects m →
  (∀ s', R s.1 s'.1 → stops Q s') → (∀ a s', R s.1 s'.1 → wp (f a) Q s') →
  wp (m ≫= f) Q s.
Proof.
  intros Hm He Hf. specialize (Hm s). unfold wp, mbind, SR_bind.
  destruct (m s) as [[a | e] s']; [by apply Hf | by apply He].
Qed.

Lemma wp_rest {A} (m : Act E A) Q s :
  respects m → (∀ r s', R s.1 s'.1 → Q r s') → wp m Q s.
Proof. intros Hm HQ. apply HQ, Hm. Qed.

End respects.

(** The next step of code that respects a relation; [other] is for the steps
    that are not those of RuntimeTypes.v. *)
Ltac respects_step_with other :=
  cbv beta zeta;
  lazymatch goal with
  | |- respects _ (mbind _ _) => apply respects_bind; [exact _ | | intros ?]
  | |- respects _ (mret _) => apply respects_ret; exact _
  | |- respects _ entry_of => apply respects_entry_of; exact _
  | |- respects _ (try _) => apply respects_try; exact _
  | |- respects _ (bail_if _ _) => apply respects_try; exact _
  | |- respects _ (present _ _) => apply respects_try; exact _
  | |- respects _ (draw _) => apply respects_draw; exact _
  | |- respects _ (sign_with _ _ _) => apply respects_sign_with; exact _
  | |- respects _ (match ?x with _ => _ end) => destruct x
  | |- respects _ _ => other
  end.

(** ** Histories

    [did handle e0 h e]: the entry [e0] was given the requests of [h], the
    oldest first, which it answered as written there, and is now [e].  Each
    call has its own generator. *)

Inductive did `{Protocol : ProtocolPrimitives} {Entry Req Res : Type}
    (handle : Req → Act Entry Res) (e0 : Entry) : list (Req * Result Error Res) → Entry → Prop :=
| did_new : did handle e0 [] e0
| did_call h e request rng r e' rng' :
    did handle e0 h e → handle request (e, rng) = (r, (e', rng')) →
    did handle e0 (h ++ [(request, r)]) e'.

Section did.
Context `{Protocol : ProtocolPrimitives} {Entry Req Res : Type}.
Context (handle : Req → Act Entry Res).

(** The state from which the call at the end of a prefix was made, and the
    history after it. *)
Lemma did_split e0 h1 h2 e :
  did handle e0 (h1 ++ h2) e → ∃ e1, did handle e0 h1 e1 ∧ did handle e1 h2 e.
Proof.
  remember (h1 ++ h2) as h eqn:Eh. intros H. revert h2 Eh.
  induction H as [| h e request rng r e' rng' H IH Hs]; intros h2 Eh.
  - symmetry in Eh. apply app_eq_nil in Eh as [-> ->]. exists e0. split; constructor.
  - destruct h2 as [| x h2 _] using rev_ind.
    + rewrite app_nil_r in Eh. subst h1. exists e'. split; [by eapply did_call | constructor].
    + rewrite app_assoc in Eh. apply app_inj_tail in Eh as [Eh <-].
      destruct (IH h2 Eh) as (e1 & H1 & H2). exists e1. split; [done |].
      by eapply did_call.
Qed.

Lemma did_one e0 request r e :
  did handle e0 [(request, r)] e →
  ∃ rng rng', handle request (e0, rng) = (r, (e, rng')).
Proof.
  inversion 1 as [| h e1 request' rng r' e' rng' H' Hs Eh]; [].
  destruct h as [| ? h]; [| by destruct h].
  simplify_eq/=. inversion H'; [| by destruct h]. subst. eauto.
Qed.

(** A relation that every call respects holds along a history. *)
Lemma did_preorder (R : Entry → Entry → Prop) `{!PreOrder R} e0 h e :
  (∀ request s, wp (handle request) (λ _ s', R s.1 s'.1) s) →
  did handle e0 h e → R e0 e.
Proof.
  intros HR. induction 1 as [| h e request rng r e' rng' H IH Hs]; [done |].
  etrans; [exact IH |]. apply (wp_run _ _ _ _ _ (HR request (e, rng)) Hs).
Qed.

(** Running requests. *)
Fixpoint play (rng : Rng) (e : Entry) (requests : list Req) :
    list (Req * Result Error Res) * Entry :=
  match requests with
  | [] => ([], e)
  | request :: requests =>
      let '(r, (e, rng)) := handle request (e, rng) in
      let '(h, e) := play rng e requests in ((request, r) :: h, e)
  end.

Lemma did_cons e0 request r e1 rng rng' h e :
  handle request (e0, rng) = (r, (e1, rng')) → did handle e1 h e →
  did handle e0 ((request, r) :: h) e.
Proof.
  intros Hs H. induction H as [| h e q rng1 r' e' rng2 H IH Hs'].
  - by apply (did_call _ _ [] e0 request rng r e1 rng'); [constructor |].
  - by apply (did_call _ _ ((request, r) :: h) e q rng1 r' e' rng2).
Qed.

Lemma play_did rng e0 requests :
  did handle e0 (play rng e0 requests).1 (play rng e0 requests).2.
Proof.
  revert rng e0. induction requests as [| q requests IH]; intros rng e0; [constructor |].
  cbn [play]. destruct (handle q (e0, rng)) as [r [e1 rng1]] eqn:Es. specialize (IH rng1 e1).
  destruct (play rng1 e1 requests) as [h e]. by eapply did_cons.
Qed.

Lemma play_split rng e0 requests i request r :
  (play rng e0 requests).1 !! i = Some (request, r) →
  did handle e0 (take i (play rng e0 requests).1
    ++ (request, r) :: drop (S i) (play rng e0 requests).1) (play rng e0 requests).2.
Proof. intros H. rewrite take_drop_middle by done. apply play_did. Qed.

Lemma play_upto rng e0 requests i request r :
  (play rng e0 requests).1 !! i = Some (request, r) →
  ∃ e, did handle e0 (take i (play rng e0 requests).1 ++ [(request, r)]) e.
Proof.
  intros H%play_split. rewrite cons_middle, app_assoc in H. apply did_split in H as (e & H & _). eauto.
Qed.

End did.
