(* ===== verification/SignerRuntime.v ===== *)
(** A protocol-v3 signer: its decisions on rotations
    (crates/gp-network/src/rotation_runtime.rs) and on recoveries
    (crates/gp-network/src/recovery_runtime.rs). *)

From S2P Require Export RuntimeTypes.
Export RotationProtocol.

Module SignerRuntime.
Import Votes.

(** ** Assignments *)

Definition with_store (entry : SignerRotationEntryV3) (store : SignerRotationStore) :
    SignerRotationEntryV3 := {|
  sre_provision := sre_provision entry;
  sre_security_state := store;
  sre_recovery_requests := sre_recovery_requests entry;
  sre_recovery_nonces := sre_recovery_nonces entry
|}.

Definition with_active (entry : SignerRotationEntryV3) (active : ConfigCapsuleV3) :
    SignerRotationEntryV3 :=
  let p := sre_provision entry in {|
  sre_provision := {|
    srp_mailbox := srp_mailbox p;
    srp_signer_id := srp_signer_id p;
    srp_authorization_share := srp_authorization_share p;
    srp_signing_seed := srp_signing_seed p;
    srp_signing_public_key := srp_signing_public_key p;
    srp_membership_proof := srp_membership_proof p;
    srp_recovery_card := srp_recovery_card p;
    srp_active_capsule := active
  |};
  sre_security_state := sre_security_state entry;
  sre_recovery_requests := sre_recovery_requests entry;
  sre_recovery_nonces := sre_recovery_nonces entry
|}.

Definition with_recovery (entry : SignerRotationEntryV3) (requests : gmap string Id32)
    (nonces : gset Id32) : SignerRotationEntryV3 := {|
  sre_provision := sre_provision entry;
  sre_security_state := sre_security_state entry;
  sre_recovery_requests := requests;
  sre_recovery_nonces := nonces
|}.

(** The maps of votes, one per kind, as fields to assign. *)
Inductive Ballot : Set := IntentVotes | BeginVotes | ReleaseVotes | ActivateVotes.
#[export] Instance Ballot_eq_dec : EqDecision Ballot.
Proof. solve_decision. Defined.

Definition votes_of (ballot : Ballot) (store : SignerRotationStore) : gmap string Id32 :=
  match ballot with
  | IntentVotes => srs_intent_votes store
  | BeginVotes => srs_begin_votes store
  | ReleaseVotes => srs_release_votes store
  | ActivateVotes => srs_activate_votes store
  end.

Definition set_votes (ballot : Ballot) (store : SignerRotationStore)
    (votes : gmap string Id32) : SignerRotationStore :=
  let pick b old := if decide (ballot = b) then votes else old in {|
  srs_predecessor_plan_locks := srs_predecessor_plan_locks store;
  srs_intents := srs_intents store;
  srs_intent_votes := pick IntentVotes (srs_intent_votes store);
  srs_begin_votes := pick BeginVotes (srs_begin_votes store);
  srs_release_votes := pick ReleaseVotes (srs_release_votes store);
  srs_activate_votes := pick ActivateVotes (srs_activate_votes store);
  srs_cancelled_rotations := srs_cancelled_rotations store;
  srs_highest_observed_epoch := srs_highest_observed_epoch store
|}.

Definition set_intent (store : SignerRotationStore) (key : string) (intent : RotationIntent) :
    SignerRotationStore := {|
  srs_predecessor_plan_locks := srs_predecessor_plan_locks store;
  srs_intents := <[key := intent]> (srs_intents store);
  srs_intent_votes := srs_intent_votes store;
  srs_begin_votes := srs_begin_votes store;
  srs_release_votes := srs_release_votes store;
  srs_activate_votes := srs_activate_votes store;
  srs_cancelled_rotations := srs_cancelled_rotations store;
  srs_highest_observed_epoch := srs_highest_observed_epoch store
|}.

Definition set_epoch (store : SignerRotationStore) (key : string) (epoch : u64) :
    SignerRotationStore := {|
  srs_predecessor_plan_locks := srs_predecessor_plan_locks store;
  srs_intents := srs_intents store;
  srs_intent_votes := srs_intent_votes store;
  srs_begin_votes := srs_begin_votes store;
  srs_release_votes := srs_release_votes store;
  srs_activate_votes := srs_activate_votes store;
  srs_cancelled_rotations := srs_cancelled_rotations store;
  srs_highest_observed_epoch := <[key := epoch]> (srs_highest_observed_epoch store)
|}.

(** A rotation is recorded as cancelled and its predecessor unlocked. *)
Definition close_rotation (store : SignerRotationStore) (rotation_key predecessor_key : string)
    (evidence : Id32) : SignerRotationStore := {|
  srs_predecessor_plan_locks := delete predecessor_key (srs_predecessor_plan_locks store);
  srs_intents := srs_intents store;
  srs_intent_votes := srs_intent_votes store;
  srs_begin_votes := srs_begin_votes store;
  srs_release_votes := srs_release_votes store;
  srs_activate_votes := srs_activate_votes store;
  srs_cancelled_rotations := <[rotation_key := evidence]> (srs_cancelled_rotations store);
  srs_highest_observed_epoch := srs_highest_observed_epoch store
|}.

Section runtime.
Context `{Prims : Primitives} `{Sharing : SharingPrimitives} `{Protocol : ProtocolPrimitives}.

Abbreviation Step A := (Act SignerRotationEntryV3 A).

Definition map_store (f : SignerRotationStore → SignerRotationStore) : Step () :=
  entry ← entry_of;
  write (with_store entry (f (sre_security_state entry))).

(** [SignerRotationStore::record_vote(&mut entry.security_state.<votes>, ..)?]. *)
Definition cast (ballot : Ballot) (rotation_id transcript_hash : Id32) : Step () :=
  stored (λ entry : SignerRotationEntryV3,
    let store := sre_security_state entry in
    let '(r, votes) := record_vote hex_encode (votes_of ballot store) rotation_id
      transcript_hash in
    (r, with_store entry (set_votes ballot store votes))).

Definition lock (predecessor_hash plan_hash : Id32) : Step () :=
  stored (λ entry : SignerRotationEntryV3,
    let '(r, store) := lock_plan hex_encode (sre_security_state entry) predecessor_hash
      plan_hash in
    (r, with_store entry store)).

(** Sealing the authorization share for a recipient. *)
Definition seal_share (recipient_key : list byte) (context : Result WireError (list byte)) :
    Step SealedMessage :=
  entry ← entry_of;
  seed ← draw random_id;
  nonce ← draw random_nonce;
  context ← try (wire context);
  try (crypto (seal_to_recipient recipient_key seed nonce
    (srp_authorization_share (sre_provision entry)) context)).

(** ** Rotations *)

Definition intent_contribution (p : SignerRotationProvisionV3) (intent : RotationIntent)
    (intent_hash : Id32) (share : SealedMessage) (signature : list byte) :
    SignerRotationIntentContribution := {|
  sric_context := ri_context intent;
  sric_intent_hash := intent_hash;
  sric_signer_id := srp_signer_id p;
  sric_signer_public_key := srp_signing_public_key p;
  sric_signer_membership_proof := srp_membership_proof p;
  sric_encrypted_authorization_share := share;
  sric_signer_signature := signature
|}.

Definition handle_intent (intent : RotationIntent) (witness_challenge : EpochReadChallenge)
    (witness_reads : list WitnessReadEnvelope) : Step SignerRotationResponseV3 :=
  entry ← entry_of;
  let context := ri_context intent in
  let unbound := "rotation intent does not bind the fresh active witness view"%string in
  active ← try (select_latest_epoch_v3 (srp_recovery_card (sre_provision entry))
    witness_challenge witness_reads);
  _ ← bail_if ((cap3_config_ref active !=? ctx_config_ref context)
      || (cap3_capsule_hash active !=? ctx_predecessor_capsule_hash context)
      || (ri_old_guardian_count intent !=? cap3_guardian_count active)
      || (ri_old_guardian_threshold intent !=? cap3_guardian_threshold active)
      || bool_decide (ri_allowed_new_guardian_count intent = [])
      || bool_decide (ri_allowed_new_guardian_threshold intent = [])
      || bool_decide (ri_allowed_dpss_suites intent = []))%mr unbound;
  qc_hash ← try (witness_read_quorum_hash_v3 witness_challenge witness_reads);
  _ ← bail_if (ri_witness_read_qc_hash intent !=? qc_hash)%mr unbound;
  intent_transcript ← try (wire (rotation_intent intent));
  let intent_hash := sha256 intent_transcript in
  _ ← cast IntentVotes (ctx_rotation_id context) intent_hash;
  entry ← entry_of;
  let intent_key := hex_encode (ctx_rotation_id context) in
  _ ← match srs_intents (sre_security_state entry) !! intent_key with
      | Some existing =>
          bail_if (existing !=? intent)%mr
            "signer already approved a conflicting rotation Intent"
      | None => map_store (λ store, set_intent store intent_key intent)
      end;
  entry ← entry_of;
  _ ← write (with_active entry active);
  _ ← map_store (λ store, set_epoch store (hex_encode (cr_config_id (ctx_config_ref context)))
        (cr_guardian_epoch (ctx_config_ref context)));
  entry ← entry_of;
  let p := sre_provision entry in
  share ← seal_share (ctx_recipient_key context)
    (rotation_intent_share_context_v3 context intent_hash (srp_signer_id p));
  contribution ← sign_with (srp_signing_seed p)
    (signer_rotation_intent_contribution (intent_contribution p intent intent_hash share []))
    (intent_contribution p intent intent_hash share);
  mret (SrIntentContribution contribution).

Definition begin_vote (p : SignerRotationProvisionV3) (plan : RotationPlan)
    (intent_hash plan_hash : Id32) (signature : list byte) : SignerRotationBeginVote := {|
  srbv_context := plan_context plan;
  srbv_intent_hash := intent_hash;
  srbv_plan_hash := plan_hash;
  srbv_old_roster_commitment := plan_old_roster_commitment plan;
  srbv_new_roster_commitment := plan_new_roster_commitment plan;
  srbv_signer_id := srp_signer_id p;
  srbv_signer_public_key := srp_signing_public_key p;
  srbv_signer_membership_proof := srp_membership_proof p;
  srbv_signer_signature := signature
|}.

(** [cancelled_rotations.contains_key(&rotation_key)]. *)
Definition is_cancelled (store : SignerRotationStore) (rotation_key : string) : bool :=
  bool_decide (is_Some (srs_cancelled_rotations store !! rotation_key)).

Definition handle_begin (intent_hash : Id32) (plan : RotationPlan) (now : u64) :
    Step SignerRotationResponseV3 :=
  entry ← entry_of;
  let store := sre_security_state entry in
  let p := sre_provision entry in
  let rotation_key := hex_encode (ctx_rotation_id (plan_context plan)) in
  _ ← bail_if (is_cancelled store rotation_key)
    "signer permanently rejected this cancelled rotation id";
  approved_intent ← present (srs_intents store !! rotation_key)
    "signer has no approved Intent for this rotation";
  plan_hash ← try (validate_rotation_plan_against_intent_v3 plan approved_intent
    (srp_active_capsule p) now);
  _ ← bail_if ((plan_intent_hash plan !=? intent_hash)
      || bool_decide (srs_intent_votes store !! rotation_key ≠ Some intent_hash))%mr
    "signer did not authorize this exact descriptor-open intent";
  _ ← lock (ctx_predecessor_capsule_hash (plan_context plan)) plan_hash;
  _ ← cast BeginVotes (ctx_rotation_id (plan_context plan)) plan_hash;
  vote ← sign_with (srp_signing_seed p)
    (signer_rotation_begin_vote (begin_vote p plan intent_hash plan_hash []))
    (begin_vote p plan intent_hash plan_hash);
  mret (SrBeginVote vote).

Definition release_vote (p : SignerRotationProvisionV3) (plan : RotationPlan)
    (plan_hash begin_hash : Id32) (signature : list byte) : SignerRotationReleaseVote := {|
  srrv_context := plan_context plan;
  srrv_plan_hash := plan_hash;
  srrv_begin_certificate_hash := begin_hash;
  srrv_signer_id := srp_signer_id p;
  srrv_signer_public_key := srp_signing_public_key p;
  srrv_signer_membership_proof := srp_membership_proof p;
  srrv_signer_signature := signature
|}.

Definition handle_release (plan : RotationPlan) (begin_certificate : BeginRotationCertificate)
    (now : u64) : Step SignerRotationResponseV3 :=
  entry ← entry_of;
  let store := sre_security_state entry in
  let p := sre_provision entry in
  let rotation_key := hex_encode (ctx_rotation_id (plan_context plan)) in
  _ ← bail_if (is_cancelled store rotation_key)
    "signer refuses Release for a cancelled rotation";
  plan_transcript ← try (wire (rotation_plan plan));
  let release_plan_hash := sha256 plan_transcript in
  _ ← bail_if (bool_decide (srs_begin_votes store !! rotation_key ≠ Some release_plan_hash))
    "signer never approved this exact Begin plan";
  begin_hash ← try (validate_begin_rotation_certificate_v3 begin_certificate plan
    (srp_active_capsule p) now);
  _ ← bail_if (now <? brot_not_before_wall begin_certificate)%mr
    "rotation delay has not elapsed";
  let vote := release_vote p plan release_plan_hash begin_hash in
  transcript ← try (wire (signer_rotation_release_vote (vote [])));
  _ ← cast ReleaseVotes (ctx_rotation_id (plan_context plan)) (sha256 transcript);
  mret (SrReleaseVote (vote (sign (signing_key (srp_signing_seed p)) transcript))).

Definition activate_vote (p : SignerRotationProvisionV3) (plan : RotationPlan)
    (plan_hash ready_hash capsule_hash : Id32) (signature : list byte) :
    SignerRotationActivateVote := {|
  srav_context := plan_context plan;
  srav_plan_hash := plan_hash;
  srav_ready_certificate_hash := ready_hash;
  srav_successor_capsule_hash := capsule_hash;
  srav_signer_id := srp_signer_id p;
  srav_signer_public_key := srp_signing_public_key p;
  srav_signer_membership_proof := srp_membership_proof p;
  srav_signer_signature := signature
|}.

Definition handle_activate (plan : RotationPlan) (ready_certificate : RotationReadyCertificate)
    (successor_capsule : ConfigCapsuleV3) (now : u64) : Step SignerRotationResponseV3 :=
  entry ← entry_of;
  let store := sre_security_state entry in
  let p := sre_provision entry in
  let active := srp_active_capsule p in
  let absent := "signer did not participate in this rotation's Begin and Release"%string in
  let mismatch := "successor capsule does not match Ready and immutable signer policy"%string in
  let rotation_key := hex_encode (ctx_rotation_id (plan_context plan)) in
  _ ← bail_if (is_cancelled store rotation_key) absent;
  plan_transcript ← try (wire (rotation_plan plan));
  _ ← bail_if (bool_decide (srs_begin_votes store !! rotation_key
                  ≠ Some (sha256 plan_transcript))
      || bool_decide (srs_release_votes store !! rotation_key = None)) absent;
  ready_hash ← try (validate_rotation_ready_certificate_v3 ready_certificate plan active now);
  body ← try (wire (config_capsule_body_v3 successor_capsule));
  let capsule_hash := sha256 body in
  _ ← bail_if ((cap3_config_ref successor_capsule !=? plan_successor plan)
      || (cap3_predecessor_capsule_hash successor_capsule !=? cap3_capsule_hash active)
      || (cap3_capsule_hash successor_capsule !=? capsule_hash)
      || (cap3_signer_count successor_capsule !=? cap3_signer_count active)
      || (cap3_signer_threshold successor_capsule !=? cap3_signer_threshold active)
      || (cap3_signer_set_commitment successor_capsule !=? cap3_signer_set_commitment active)
      || (cap3_owner_cancel_public_key successor_capsule
          !=? cap3_owner_cancel_public_key active))%mr mismatch;
  new_count ← try (ok_or (try_u16 (len (plan_new_roster plan))) ETryFromInt);
  _ ← bail_if ((cap3_guardian_count successor_capsule !=? new_count)
      || (cap3_guardian_threshold successor_capsule !=? plan_new_guardian_threshold plan)
      || (cap3_dpss_public_commitment successor_capsule
          !=? ready_dpss_result_commitment ready_certificate)
      || (cap3_guardian_material_root successor_capsule
          !=? ready_guardian_material_root ready_certificate)
      || (hash_aead (cap3_encrypted_recovery_descriptor successor_capsule)
          !=? ready_encrypted_descriptor_hash ready_certificate)
      || bool_decide (is_Some (cap3_activation_certificate successor_capsule))
      || bool_decide (is_Some (cap3_activation_qc successor_capsule)))%mr mismatch;
  let vote := activate_vote p plan (ready_plan_hash ready_certificate) ready_hash
    capsule_hash in
  transcript ← try (wire (signer_rotation_activate_vote (vote [])));
  _ ← cast ActivateVotes (ctx_rotation_id (plan_context plan)) (sha256 transcript);
  mret (SrActivateVote (vote (sign (signing_key (srp_signing_seed p)) transcript))).

Definition abort_vote (p : SignerRotationProvisionV3) (plan : RotationPlan) (plan_hash : Id32)
    (state_at_abort : RotationState) (reason_code : u16) (signature : list byte) :
    SignerRotationAbortVote := {|
  srabv_context := plan_context plan;
  srabv_plan_hash := plan_hash;
  srabv_state_at_abort := state_at_abort;
  srabv_reason_code := reason_code;
  srabv_signer_id := srp_signer_id p;
  srabv_signer_public_key := srp_signing_public_key p;
  srabv_signer_membership_proof := srp_membership_proof p;
  srabv_signer_signature := signature
|}.

Definition abortable (state : RotationState) : bool :=
  match state with
  | RotDelayPending | RotPreparing | RotReady | RotActivating => true
  | _ => false
  end.

Definition handle_abort (plan : RotationPlan) (state_at_abort : RotationState)
    (reason_code : u16) (response_recipient_key : list byte) (now : u64) :
    Step SignerRotationResponseV3 :=
  _ ← bail_if (len response_recipient_key !=? XWING_PUBLIC_KEY_LEN)%mr
    "signer Abort response recipient is malformed";
  entry ← entry_of;
  let store := sre_security_state entry in
  let p := sre_provision entry in
  let rotation_key := hex_encode (ctx_rotation_id (plan_context plan)) in
  plan_hash ← try (validate_rotation_plan_v3 plan (srp_active_capsule p) now);
  _ ← bail_if (is_cancelled store rotation_key
      || bool_decide (srs_begin_votes store !! rotation_key ≠ Some plan_hash)
      || bool_decide (is_Some (srs_activate_votes store !! rotation_key))
      || negb (abortable state_at_abort))
    "signer refuses an unbegun, post-activation, or invalid-state abort";
  vote ← sign_with (srp_signing_seed p)
    (signer_rotation_abort_vote (abort_vote p plan plan_hash state_at_abort reason_code []))
    (abort_vote p plan plan_hash state_at_abort reason_code);
  mret (SrAbortVote vote).

Definition handle_finalize_abort (plan : RotationPlan) (certificate : AbortRotationCertificate)
    (response_recipient_key : list byte) (now : u64) : Step SignerRotationResponseV3 :=
  _ ← bail_if (len response_recipient_key !=? XWING_PUBLIC_KEY_LEN)%mr
    "signer abort-finalization recipient is malformed";
  entry ← entry_of;
  let store := sre_security_state entry in
  let rotation_key := hex_encode (ctx_rotation_id (plan_context plan)) in
  _ ← try (validate_abort_rotation_certificate_v3 certificate plan
    (srp_active_capsule (sre_provision entry)) now);
  plan_transcript ← try (wire (rotation_plan plan));
  let plan_hash := sha256 plan_transcript in
  _ ← bail_if (bool_decide (srs_begin_votes store !! rotation_key ≠ Some plan_hash)
      || bool_decide (is_Some (srs_activate_votes store !! rotation_key)))
    "signer refuses to finalize an unbegun or post-Activate abort";
  let predecessor_key := hex_encode (ctx_predecessor_capsule_hash (plan_context plan)) in
  _ ← bail_if (bool_decide (srs_predecessor_plan_locks store !! predecessor_key
                  ≠ Some plan_hash))
    "signer predecessor lock does not match the aborted plan";
  evidence ← try (wire (abort_rotation_certificate certificate));
  _ ← map_store (λ store, close_rotation store rotation_key predecessor_key
        (sha256 evidence));
  mret SrAbortFinalized.

Definition handle_finalize_owner_cancel (plan : RotationPlan)
    (certificate : OwnerRotationCancelCertificate)
    (witness_acks : list WitnessRotationCancelAck) (response_recipient_key : list byte)
    (now : u64) : Step SignerRotationResponseV3 :=
  _ ← bail_if (len response_recipient_key !=? XWING_PUBLIC_KEY_LEN)%mr
    "signer owner-cancel finalization recipient is malformed";
  entry ← entry_of;
  let store := sre_security_state entry in
  let p := sre_provision entry in
  cancel_hash ← try (validate_owner_rotation_cancel_witness_quorum_v3 certificate
    witness_acks (srp_recovery_card p) plan (srp_active_capsule p) now);
  let rotation_key := hex_encode (ctx_rotation_id (plan_context plan)) in
  if bool_decide (srs_cancelled_rotations store !! rotation_key = Some cancel_hash)
  then mret SrOwnerCancelFinalized else
  plan_transcript ← try (wire (rotation_plan plan));
  let plan_hash := sha256 plan_transcript in
  _ ← bail_if (bool_decide (srs_begin_votes store !! rotation_key ≠ Some plan_hash))
    "signer refuses to finalize owner cancellation for an unbegun plan";
  let predecessor_key := hex_encode (ctx_predecessor_capsule_hash (plan_context plan)) in
  _ ← bail_if (bool_decide (srs_predecessor_plan_locks store !! predecessor_key
                  ≠ Some plan_hash))
    "signer predecessor lock does not match the owner-cancelled plan";
  _ ← map_store (λ store, close_rotation store rotation_key predecessor_key cancel_hash);
  mret SrOwnerCancelFinalized.

Definition handle_signer_rotation_v3 (request : SignerRotationRequestV3) (now : u64) :
    Step SignerRotationResponseV3 :=
  let context := signer_context request in
  entry ← entry_of;
  _ ← bail_if ((ctx_protocol_version context !=? PROTOCOL_VERSION_V3)
      || (cr_config_id (ctx_config_ref context)
          !=? card3_config_id (srp_recovery_card (sre_provision entry)))
      || (now <? ctx_issued_at context)
      || (ctx_expiry context <=? now)
      || (len (ctx_recipient_key context) !=? XWING_PUBLIC_KEY_LEN))%mr
    "signer rejected malformed, stale, or recipient-mismatched rotation context";
  match request with
  | SrIntent intent witness_challenge witness_reads =>
      handle_intent intent witness_challenge witness_reads
  | SrBegin intent_hash plan => handle_begin intent_hash plan now
  | SrRelease plan begin_certificate => handle_release plan begin_certificate now
  | SrActivate plan ready_certificate successor_capsule =>
      handle_activate plan ready_certificate successor_capsule now
  | SrAbort plan state_at_abort reason_code response_recipient_key =>
      handle_abort plan state_at_abort reason_code response_recipient_key now
  | SrFinalizeAbort plan certificate response_recipient_key =>
      handle_finalize_abort plan certificate response_recipient_key now
  | SrFinalizeOwnerCancel plan certificate witness_acks response_recipient_key =>
      handle_finalize_owner_cancel plan certificate witness_acks response_recipient_key now
  end.

(** ** Recoveries *)

Definition recovery_contribution (p : SignerRotationProvisionV3) (request : RecoveryRequestV3)
    (share : SealedMessage) (signature : list byte) : SignerRecoveryContributionV3 := {|
  src3_request := request;
  src3_signer_id := srp_signer_id p;
  src3_signer_public_key := srp_signing_public_key p;
  src3_signer_membership_proof := srp_membership_proof p;
  src3_encrypted_authorization_share := share;
  src3_signer_signature := signature
|}.

Definition handle_approve (request : RecoveryRequestV3) (witness_challenge : EpochReadChallenge)
    (witness_reads : list WitnessReadEnvelope) (now : u64) : Step SignerRecoveryResponseV3 :=
  _ ← bail_if ((now <? erc_issued_at witness_challenge)
      || (erc_expiry witness_challenge <=? now)
      || (erc_response_recipient_key witness_challenge
          !=? rr3_recovery_recipient_key request))%mr
    "signer requires a fresh witness read bound to the recovery recipient";
  entry ← entry_of;
  active ← try (select_latest_epoch_v3 (srp_recovery_card (sre_provision entry))
    witness_challenge witness_reads);
  digest ← try (validate_recovery_request_v3 request active now);
  let request_key := hex_encode (rr3_request_id request) in
  _ ← match sre_recovery_requests entry !! request_key with
      | Some previous =>
          bail_if (previous !=? digest)%mr
            "signer request id is already bound to another transcript"
      | None =>
          _ ← bail_if (bool_decide (rr3_nonce request ∈ sre_recovery_nonces entry))
            "signer rejected a replayed recovery nonce";
          write (with_recovery entry (<[request_key := digest]> (sre_recovery_requests entry))
            ({[rr3_nonce request]} ∪ sre_recovery_nonces entry))
      end;
  entry ← entry_of;
  _ ← write (with_active entry active);
  entry ← entry_of;
  let p := sre_provision entry in
  share ← seal_share (rr3_recovery_recipient_key request)
    (recovery_authorization_share_context_v3 request (srp_signer_id p));
  contribution ← sign_with (srp_signing_seed p)
    (signer_recovery_contribution_v3 (recovery_contribution p request share []))
    (recovery_contribution p request share);
  mret (RecContribution contribution).

Definition recovery_release_vote (p : SignerRotationProvisionV3) (request : RecoveryRequestV3)
    (digest : Id32) (signature : list byte) : SignerRecoveryReleaseVoteV3 := {|
  srrv3_request := request;
  srrv3_request_digest := digest;
  srrv3_signer_id := srp_signer_id p;
  srrv3_signer_public_key := srp_signing_public_key p;
  srrv3_signer_membership_proof := srp_membership_proof p;
  srrv3_signer_signature := signature
|}.

Definition handle_recovery_release (request : RecoveryRequestV3) (now : u64) :
    Step SignerRecoveryResponseV3 :=
  entry ← entry_of;
  let p := sre_provision entry in
  digest ← try (validate_recovery_request_v3 request (srp_active_capsule p) now);
  _ ← bail_if (bool_decide (sre_recovery_requests entry !! hex_encode (rr3_request_id request)
                  ≠ Some digest))
    "signer never approved this exact recovery request";
  vote ← sign_with (srp_signing_seed p)
    (signer_recovery_release_vote_v3 (recovery_release_vote p request digest []))
    (recovery_release_vote p request digest);
  mret (RecReleaseVote vote).

Definition handle_signer_recovery_v3 (request : SignerRecoveryRequestV3) (now : u64) :
    Step SignerRecoveryResponseV3 :=
  match request with
  | RecApprove request witness_challenge witness_reads =>
      handle_approve request witness_challenge witness_reads now
  | RecRelease request => handle_recovery_release request now
  end.

End runtime.

End SignerRuntime.
