(* ===== verification/SignerSpec.v ===== *)
(** What one call does to the store of a protocol-v3 signer, for every request
    and on every branch; SignerHistory.v puts calls together. *)

From S2P Require Export Actors SignerRuntime.
From S2P Require Import RotationProps.

Module SignerSpec.
Import Votes SignerRuntime.

Section props.
Context `{Prims : Primitives} `{Sharing : SharingPrimitives} `{Protocol : ProtocolPrimitives}.

Abbreviation Step A := (Act SignerRotationEntryV3 A).
Abbreviation Request := (sum SignerRotationRequestV3 SignerRecoveryRequestV3).
Abbreviation Response := (sum SignerRotationResponseV3 SignerRecoveryResponseV3).

(** A request at either mailbox of a signer. *)
Definition handle (now : u64) (request : Request) : Step Response :=
  match request with
  | inl request => r ← handle_signer_rotation_v3 request now; mret (inl r)
  | inr request => r ← handle_signer_recovery_v3 request now; mret (inr r)
  end.

(** A request with the time it is answered at. *)
Definition call (request : u64 * Request) : Step Response := handle request.1 request.2.

Abbreviation store := sre_security_state.

(** ** Steps *)

Lemma wp_map_store {B} g (f : () → Step B) Q s :
  wp (f ()) Q (with_store s.1 (g (store s.1)), s.2) → wp (map_store g ≫= f) Q s.
Proof. done. Qed.

Lemma wp_seal_share {B} key context (f : SealedMessage → Step B) Q s :
  (∀ rng, stops Q (s.1, rng)) → (∀ m rng, wp (f m) Q (s.1, rng)) →
  wp (seal_share key context ≫= f) Q s.
Proof.
  intros He Hf. apply wp_bind. apply wp_entry_of. apply wp_draw; [done | intros ? ?].
  apply wp_draw; [done | intros ? ?]. apply wp_try; [intros ?; apply He | intros ? _].
  unfold wp, try. destruct (crypto _); [apply Hf | apply He].
Qed.

(** The votes of every kind after one more vote of kind [b]. *)
Definition cast_store (b : Ballot) (s : SignerRotationStore) (id h : Id32) :
    SignerRotationStore := set_votes b s (<[hex_encode id := h]> (votes_of b s)).

Lemma wp_cast {B} b id h (f : () → Step B) Q s :
  stops Q s →
  (votes_of b (store s.1) !! hex_encode id = Some h → wp (f ()) Q s) →
  (votes_of b (store s.1) !! hex_encode id = None →
     wp (f ()) Q (with_store s.1 (cast_store b (store s.1) id h), s.2)) →
  wp (cast b id h ≫= f) Q s.
Proof.
  intros He Hs Hn. unfold wp, cast, mbind, SR_bind, stored, record_vote.
  assert (Hid : (with_store s.1 (set_votes b (store s.1) (votes_of b (store s.1))), s.2) = s).
  { destruct s as [[p st rr rn] rng]. by destruct b, st. }
  destruct (votes_of b (store s.1) !! hex_encode id) as [h' |] eqn:E.
  - case_bool_decide as Eh; simpl; rewrite Hid.
    + apply He.
    + subst h'. by apply Hs.
  - by apply Hn.
Qed.

Lemma wp_lock {B} p ph (f : () → Step B) Q s :
  stops Q s →
  (srs_predecessor_plan_locks (store s.1) !! hex_encode p = Some ph → wp (f ()) Q s) →
  (srs_predecessor_plan_locks (store s.1) !! hex_encode p = None →
     wp (f ()) Q (with_store s.1 (lock_plan hex_encode (store s.1) p ph).2, s.2)) →
  wp (lock p ph ≫= f) Q s.
Proof.
  intros He Hs Hn. unfold wp, lock, mbind, SR_bind, stored. unfold lock_plan in *.
  assert (Hid : (with_store s.1 (store s.1), s.2) = s) by by destruct s as [[] rng].
  destruct (srs_predecessor_plan_locks (store s.1) !! hex_encode p) as [h' |] eqn:E.
  - case_bool_decide as Eh; simpl; rewrite Hid.
    + apply He.
    + subst h'. by apply Hs.
  - by apply Hn.
Qed.

(** ** The store after a call *)

(** Recorded votes, closed rotations and locks stay. *)
Record extends (s s' : SignerRotationStore) : Prop := mkExtends {
  ext_votes b k h : votes_of b s !! k = Some h → votes_of b s' !! k = Some h;
  ext_closed k : is_Some (srs_cancelled_rotations s !! k) →
    is_Some (srs_cancelled_rotations s' !! k);
  ext_locks k h : srs_predecessor_plan_locks s !! k = Some h →
    srs_predecessor_plan_locks s' !! k = Some h
}.

#[export] Instance extends_preorder : PreOrder extends.
Proof.
  split; [by intros s | intros s1 s2 s3 [V1 C1 L1] [V2 C2 L2]; split; eauto].
Qed.

Lemma votes_of_set b b' s votes :
  votes_of b (set_votes b' s votes) = if decide (b' = b) then votes else votes_of b s.
Proof. by destruct b, b'. Qed.

Lemma cast_store_same b s id h : votes_of b (cast_store b s id h) !! hex_encode id = Some h.
Proof. unfold cast_store. rewrite votes_of_set, decide_True by done. apply lookup_insert_eq. Qed.

Lemma extends_cast b s s1 id h :
  votes_of b s1 !! hex_encode id = None → extends s s1 → extends s (cast_store b s1 id h).
Proof.
  intros Hn. intros Hs. etrans; [exact Hs |]. split; [| done | done]. intros b' k h' Hk.
  unfold cast_store. rewrite votes_of_set. case_decide as Eb; [subst b' | done].
  rewrite lookup_insert_ne; [done |]. intros <-. congruence.
Qed.

Lemma extends_lock s s1 p ph :
  srs_predecessor_plan_locks s1 !! hex_encode p = None → extends s s1 →
  extends s (lock_plan hex_encode s1 p ph).2.
Proof.
  intros Hn Hs. etrans; [exact Hs |]. unfold lock_plan. rewrite Hn. simpl.
  split; simpl; [by intros [] | done |]. intros k h Hk.
  rewrite lookup_insert_ne; [done |]. intros <-. congruence.
Qed.

Lemma lock_plan_votes b s p ph k h :
  votes_of b s !! k = Some h → votes_of b (lock_plan hex_encode s p ph).2 !! k = Some h.
Proof. unfold lock_plan. by case_match; destruct b. Qed.

Lemma cast_store_locks b s id h k :
  srs_predecessor_plan_locks (cast_store b s id h) !! k = srs_predecessor_plan_locks s !! k.
Proof. done. Qed.

Lemma epoch_votes b s k e k' h :
  votes_of b s !! k' = Some h → votes_of b (set_epoch s k e) !! k' = Some h.
Proof. by destruct b. Qed.
Lemma intent_votes b s k i k' h :
  votes_of b s !! k' = Some h → votes_of b (set_intent s k i) !! k' = Some h.
Proof. by destruct b. Qed.

Lemma lock_plan_locks s p ph :
  srs_predecessor_plan_locks s !! hex_encode p = None →
  srs_predecessor_plan_locks (lock_plan hex_encode s p ph).2 !! hex_encode p = Some ph.
Proof. unfold lock_plan. intros ->. apply lookup_insert_eq. Qed.

Lemma extends_intent s s1 k i : extends s s1 → extends s (set_intent s1 k i).
Proof. intros Hs. etrans; [exact Hs |]. by split; [intros [] | |]. Qed.
Lemma extends_epoch s s1 k i : extends s s1 → extends s (set_epoch s1 k i).
Proof. intros Hs. etrans; [exact Hs |]. by split; [intros [] | |]. Qed.

(** ** What an answer says of the store *)

Abbreviation key_of context := (hex_encode (ctx_rotation_id context)).
Abbreviation predecessor_of context := (hex_encode (ctx_predecessor_capsule_hash context)).

(** A vote without its signature, hashed as recorded. *)
Definition release_vote_hash (v : SignerRotationReleaseVote) : Result WireError Id32 :=
  sha256 <$> signer_rotation_release_vote {|
    srrv_context := srrv_context v;
    srrv_plan_hash := srrv_plan_hash v;
    srrv_begin_certificate_hash := srrv_begin_certificate_hash v;
    srrv_signer_id := srrv_signer_id v;
    srrv_signer_public_key := srrv_signer_public_key v;
    srrv_signer_membership_proof := srrv_signer_membership_proof v;
    srrv_signer_signature := []
  |}.
Definition activate_vote_hash (v : SignerRotationActivateVote) : Result WireError Id32 :=
  sha256 <$> signer_rotation_activate_vote {|
    srav_context := srav_context v;
    srav_plan_hash := srav_plan_hash v;
    srav_ready_certificate_hash := srav_ready_certificate_hash v;
    srav_successor_capsule_hash := srav_successor_capsule_hash v;
    srav_signer_id := srav_signer_id v;
    srav_signer_public_key := srav_signer_public_key v;
    srav_signer_membership_proof := srav_signer_membership_proof v;
    srav_signer_signature := []
  |}.

(** The plan a request asks to close. *)
Definition closing_plan (request : Request) : option RotationPlan :=
  match request with
  | inl (SrFinalizeAbort plan _ _) | inl (SrFinalizeOwnerCancel plan _ _ _) => Some plan
  | _ => None
  end.

Definition open_for (s : SignerRotationStore) (context : RotationContext) : Prop :=
  srs_cancelled_rotations s !! key_of context = None.

Lemma not_cancelled_open s context :
  is_cancelled s (key_of context) = false → open_for s context.
Proof. unfold is_cancelled. rewrite bool_decide_eq_false. apply eq_None_not_Some. Qed.

Definition closed_by (request : Request) (s s' : SignerRotationStore) : Prop :=
  ∃ plan, closing_plan request = Some plan
  ∧ is_Some (srs_cancelled_rotations s' !! key_of (plan_context plan))
  ∧ (s' = s ∨ ∃ evidence, s' = close_rotation s (key_of (plan_context plan))
       (predecessor_of (plan_context plan)) evidence).

Definition answered (request : Request) (a : Response) (s s' : SignerRotationStore) : Prop :=
  match a with
  | inl (SrIntentContribution c) =>
      extends s s' ∧
      votes_of IntentVotes s' !! key_of (sric_context c) = Some (sric_intent_hash c)
  | inl (SrBeginVote v) =>
      extends s s' ∧ open_for s (srbv_context v)
      ∧ votes_of IntentVotes s !! key_of (srbv_context v) = Some (srbv_intent_hash v)
      ∧ votes_of BeginVotes s' !! key_of (srbv_context v) = Some (srbv_plan_hash v)
      ∧ srs_predecessor_plan_locks s' !! predecessor_of (srbv_context v)
        = Some (srbv_plan_hash v)
  | inl (SrReleaseVote v) =>
      extends s s' ∧ open_for s (srrv_context v)
      ∧ votes_of BeginVotes s !! key_of (srrv_context v) = Some (srrv_plan_hash v)
      ∧ ∃ h, release_vote_hash v = Ok h
        ∧ votes_of ReleaseVotes s' !! key_of (srrv_context v) = Some h
  | inl (SrActivateVote v) =>
      extends s s' ∧ open_for s (srav_context v)
      ∧ votes_of BeginVotes s !! key_of (srav_context v) = Some (srav_plan_hash v)
      ∧ is_Some (votes_of ReleaseVotes s !! key_of (srav_context v))
      ∧ ∃ h, activate_vote_hash v = Ok h
        ∧ votes_of ActivateVotes s' !! key_of (srav_context v) = Some h
  | inl (SrAbortVote v) =>
      s' = s ∧ open_for s (srabv_context v)
      ∧ votes_of BeginVotes s !! key_of (srabv_context v) = Some (srabv_plan_hash v)
      ∧ votes_of ActivateVotes s !! key_of (srabv_context v) = None
  | inl SrAbortFinalized =>
      closed_by request s s'
      ∧ ∀ plan, closing_plan request = Some plan →
        votes_of ActivateVotes s !! key_of (plan_context plan) = None
  | inl SrOwnerCancelFinalized => closed_by request s s'
  | inr _ => s' = s
  end.

Definition called (request : Request) (r : Result Error Response)
    (s s' : SignerRotationStore) : Prop :=
  match r with
  | Ok a => answered request a s s'
  | Err _ => extends s s'
  end.

End props.

Ltac wp_step :=
  wp_step_with ltac:(fun m =>
    lazymatch m with
    | map_store _ => apply wp_map_store
    | cast _ _ _ => apply wp_cast; [| intros ? | intros ?]
    | lock _ _ => apply wp_lock; [| intros ? | intros ?]
    | seal_share _ _ => apply wp_seal_share; [intros ? | intros ? ?]
    end).

Arguments votes_of : simpl never.
Arguments cast_store : simpl never.
Arguments lock_plan : simpl never.
Arguments is_cancelled : simpl never.

Create HintDb signer discriminated.
#[export] Hint Resolve cast_store_same lock_plan_votes lock_plan_locks epoch_votes intent_votes
  not_cancelled_open : signer.
#[export] Hint Resolve extends_cast extends_lock extends_intent extends_epoch : signer.
#[export] Hint Extern 1 (extends ?s ?s) => reflexivity : signer.

(** The end of a step that stops. *)
Ltac stopped := intros ?; cbn; auto with signer.

Section handlers.
Context `{Prims : Primitives} `{Sharing : SharingPrimitives} `{Protocol : ProtocolPrimitives}.

Abbreviation Step A := (Act SignerRotationEntryV3 A).
Abbreviation store := sre_security_state.

(** The specification of a rotation handler, with its answer tagged. *)
Definition spec (request : SignerRotationRequestV3) (s : SignerRotationStore)
    (r : Result Error SignerRotationResponseV3) (s' : SignerRotationEntryV3 * Rng) : Prop :=
  called (inl request) (r ← r; Ok (inl r)) s (store s'.1).

(** The steps of a handler; what it stops at or answers is left. *)
Ltac run := repeat wp_step; try solve [stopped]; checks; unfold spec, called, answered; cbn;
  rewrite ?cast_store_locks.

Lemma intent_spec intent challenge reads s :
  wp (handle_intent intent challenge reads)
    (spec (SrIntent intent challenge reads) (store s.1)) s.
Proof.
  unfold handle_intent. run.
  all: split_and!; eauto 6 with signer.
Qed.

Lemma plan_hash_Ok plan predecessor now h :
  validate_rotation_plan_v3 plan predecessor now = Ok h →
  ∃ t, rotation_plan plan = Ok t ∧ h = sha256 t.
Proof. by intros [? _]%validate_rotation_plan_Ok. Qed.

Lemma ready_plan_hash_Ok ready plan predecessor now h :
  validate_rotation_ready_certificate_v3 ready plan predecessor now = Ok h →
  ∃ t, rotation_plan plan = Ok t ∧ ready_plan_hash ready = sha256 t.
Proof.
  unfold validate_rotation_ready_certificate_v3. cbv zeta. intros H.
  apply bind_Ok in H as (ph & Hp%plan_hash_Ok & H). apply bind_Ok in H as (t & _ & H).
  rewrite guard_Ok, !orb_false_iff, !neb_false in H. destruct H as [Hg _]. destruct_and! Hg.
  destruct Hp as (pt & ? & ->). eauto.
Qed.

Lemma begin_spec intent_hash plan now s :
  wp (handle_begin intent_hash plan now) (spec (SrBegin intent_hash plan) (store s.1)) s.
Proof.
  unfold handle_begin. run.
  all: split_and!; eauto 6 with signer.
Qed.

Lemma hash_of_wire (t : Result WireError (list byte)) a :
  wire t = Ok a → sha256 <$> t = Ok (sha256 a).
Proof. by intros ->%wire_Ok. Qed.

Lemma release_spec plan certificate now s :
  wp (handle_release plan certificate now) (spec (SrRelease plan certificate) (store s.1)) s.
Proof.
  unfold handle_release. run.
  all: split_and!; eauto 6 with signer; eexists; split; eauto with signer.
  all: by apply hash_of_wire.
Qed.

Lemma activate_spec plan ready capsule now s :
  wp (handle_activate plan ready capsule now)
    (spec (SrActivate plan ready capsule) (store s.1)) s.
Proof.
  unfold handle_activate. run.
  all: match goal with H : validate_rotation_ready_certificate_v3 _ _ _ _ = Ok _ |- _ =>
    apply ready_plan_hash_Ok in H as (? & Hp & Hready) end.
  all: match goal with H : wire (rotation_plan _) = Ok _ |- _ => apply wire_Ok in H end.
  all: assert (x = a) as -> by congruence.
  all: match goal with H : bool_decide (_ = None) = false |- _ => apply not_None in H end.
  all: rewrite Hready in *; split_and!; eauto 6 with signer; eexists; split; eauto with signer.
  all: by apply hash_of_wire.
Qed.

Lemma abort_spec plan state reason key now s :
  wp (handle_abort plan state reason key now) (spec (SrAbort plan state reason key) (store s.1)) s.
Proof.
  unfold handle_abort. run.
  all: split_and!; eauto 6 using not_Some with signer.
Qed.

Lemma closed_key (s : SignerRotationStore) k p e :
  is_Some (srs_cancelled_rotations (close_rotation s k p e) !! k).
Proof. cbn. rewrite lookup_insert_eq. eauto. Qed.

Lemma finalize_abort_spec plan certificate key now s :
  wp (handle_finalize_abort plan certificate key now)
    (spec (SrFinalizeAbort plan certificate key) (store s.1)) s.
Proof.
  unfold handle_finalize_abort. run.
  all: split; [exists plan; split_and!; eauto using closed_key |].
  all: intros ? [= <-]; eauto using not_Some.
Qed.

Lemma finalize_owner_cancel_spec plan certificate acks key now s :
  wp (handle_finalize_owner_cancel plan certificate acks key now)
    (spec (SrFinalizeOwnerCancel plan certificate acks key) (store s.1)) s.
Proof.
  unfold handle_finalize_owner_cancel. run.
  all: exists plan; split_and!; eauto using closed_key.
  match goal with H : bool_decide _ = true |- _ => apply bool_decide_eq_true in H end. eauto.
Qed.

Lemma rotation_spec request now s :
  wp (handle_signer_rotation_v3 request now) (spec request (store s.1)) s.
Proof.
  unfold handle_signer_rotation_v3. do 2 wp_step; [stopped |].
  destruct request; [apply intent_spec | apply begin_spec | apply release_spec
    | apply activate_spec | apply abort_spec | apply finalize_abort_spec
    | apply finalize_owner_cancel_spec].
Qed.

Lemma recovery_spec request now s :
  wp (handle_signer_recovery_v3 request now)
    (λ r s', called (inr request) (r ← r; Ok (inr r)) (store s.1) (store s'.1)) s.
Proof.
  destruct request; cbn [handle_signer_recovery_v3].
  - unfold handle_approve. run. all: done.
  - unfold handle_recovery_release. run. all: done.
Qed.

(** A call extends the store, unless it closes a rotation, and its answer is
    justified by it. *)
Lemma call_spec request s :
  wp (call request) (λ r s', called request.2 r (store s.1) (store s'.1)) s.
Proof.
  destruct request as [now [request | request]]; unfold call, handle; cbn [fst snd].
  - apply wp_bind. eapply wp_mono; [apply rotation_spec |]. by intros [a | e] s'.
  - apply wp_bind. eapply wp_mono; [apply recovery_spec |]. by intros [a | e] s'.
Qed.

End handlers.

End SignerSpec.
