(* ===== verification/SignerHistory.v ===== *)
(** Histories of a protocol-v3 signer: what stays in its store over any
    sequence of requests. *)

From S2P Require Export SignerSpec.

Module SignerHistory.
Import Votes SignerRuntime SignerSpec.

Section histories.
Context `{Prims : Primitives} `{Sharing : SharingPrimitives} `{Protocol : ProtocolPrimitives}.

Abbreviation store := sre_security_state.
Abbreviation key_of context := (hex_encode (ctx_rotation_id context)).
Abbreviation predecessor_of context := (hex_encode (ctx_predecessor_capsule_hash context)).

(** ** Histories *)

(** Votes and closed rotations stay, whatever is called. *)
Record grows (s s' : SignerRotationStore) : Prop := mkGrows {
  grows_votes b k h : votes_of b s !! k = Some h → votes_of b s' !! k = Some h;
  grows_closed k : is_Some (srs_cancelled_rotations s !! k) →
    is_Some (srs_cancelled_rotations s' !! k)
}.

#[local] Instance grows_preorder : PreOrder grows.
Proof. split; [by intros s | intros s1 s2 s3 [V1 C1] [V2 C2]; split; eauto]. Qed.

#[local] Instance grows_entries : PreOrder (λ e e' : SignerRotationEntryV3,
  grows (store e) (store e')).
Proof. split; [by intros e | intros e1 e2 e3; apply transitivity]. Qed.

Lemma extends_grows s s' : extends s s' → grows s s'.
Proof. by intros [V C _]. Qed.

Lemma closed_by_grows request s s' : closed_by request s s' → grows s s'.
Proof.
  intros (plan & _ & _ & [-> | [evidence ->]]); [done |]. split; [by intros [] |].
  intros k Hk. cbn. destruct (decide (key_of (plan_context plan) = k)) as [<- |].
  - rewrite lookup_insert_eq. eauto.
  - by rewrite lookup_insert_ne.
Qed.

Lemma called_grows request r s s' : called request r s s' → grows s s'.
Proof.
  destruct r as [[[] | ?] | ?]; simpl;
    first [ by intros [?%closed_by_grows _] | by intros ?%closed_by_grows
          | by intros [?%extends_grows _] | by intros ?%extends_grows
          | by intros -> | by intros [-> _] ].
Qed.

Abbreviation History := (list ((u64 * sum SignerRotationRequestV3 SignerRecoveryRequestV3)
  * Result Error (sum SignerRotationResponseV3 SignerRecoveryResponseV3))).

Lemma history_grows (e0 : SignerRotationEntryV3) h e :
  did call e0 h e → grows (store e0) (store e).
Proof.
  apply (did_preorder call (λ e e', grows (store e) (store e'))).
  intros request s. eapply wp_mono; [apply call_spec |]. intros r s'. apply called_grows.
Qed.

(** A call inside a history. *)
Lemma history_at (e0 : SignerRotationEntryV3) h1 request r h2 e :
  did call e0 (h1 ++ (request, r) :: h2) e →
  ∃ e1 e2, did call e0 h1 e1 ∧ called request.2 r (store e1) (store e2) ∧ did call e2 h2 e.
Proof.
  intros (e1 & H1 & H)%did_split. apply (did_split call e1 [_]) in H as (e2 & H & H2).
  apply did_one in H as (rng & rng' & H). exists e1, e2. split_and!; [done | | done].
  apply (wp_run _ _ _ _ _ (call_spec request (e1, rng)) H).
Qed.

(** What a vote says of the store, at the time and ever after. *)
Definition recorded (a : sum SignerRotationResponseV3 SignerRecoveryResponseV3)
    (s : SignerRotationStore) : Prop :=
  match a with
  | inl (SrIntentContribution c) =>
      votes_of IntentVotes s !! key_of (sric_context c) = Some (sric_intent_hash c)
  | inl (SrBeginVote v) =>
      votes_of BeginVotes s !! key_of (srbv_context v) = Some (srbv_plan_hash v)
  | inl (SrReleaseVote v) =>
      ∃ h, release_vote_hash v = Ok h ∧ votes_of ReleaseVotes s !! key_of (srrv_context v) = Some h
  | inl (SrActivateVote v) =>
      ∃ h, activate_vote_hash v = Ok h ∧ votes_of ActivateVotes s !! key_of (srav_context v) = Some h
  | _ => True
  end.

Lemma called_recorded request a s s' : called request (Ok a) s s' → recorded a s'.
Proof. destruct a as [[] |]; simpl; naive_solver. Qed.

Lemma recorded_grows a s s' : grows s s' → recorded a s → recorded a s'.
Proof. intros [V _]. destruct a as [[] |]; simpl; naive_solver. Qed.

Lemma history_recorded (e0 : SignerRotationEntryV3) h e request a :
  did call e0 h e → (request, Ok a) ∈ h → recorded a (store e).
Proof.
  intros H (h1 & h2 & ->)%list_elem_of_split. apply history_at in H as (e1 & e2 & _ & Hc & H).
  eapply recorded_grows; [by eapply history_grows | by eapply called_recorded].
Qed.

(** ** A closed rotation *)

Definition closes (request : u64 * sum SignerRotationRequestV3 SignerRecoveryRequestV3)
    (r : Result Error (sum SignerRotationResponseV3 SignerRecoveryResponseV3)) :
    option RotationPlan :=
  match r with
  | Ok (inl SrAbortFinalized) | Ok (inl SrOwnerCancelFinalized) => closing_plan request.2
  | _ => None
  end.

Definition votes_for (a : sum SignerRotationResponseV3 SignerRecoveryResponseV3) :
    option Id32 :=
  match a with
  | inl (SrBeginVote v) => Some (ctx_rotation_id (srbv_context v))
  | inl (SrReleaseVote v) => Some (ctx_rotation_id (srrv_context v))
  | inl (SrActivateVote v) => Some (ctx_rotation_id (srav_context v))
  | inl (SrAbortVote v) => Some (ctx_rotation_id (srabv_context v))
  | _ => None
  end.

Lemma closes_closed q r s s' plan :
  called q.2 r s s' → closes q r = Some plan →
  is_Some (srs_cancelled_rotations s' !! key_of (plan_context plan)).
Proof.
  intros Hc Hp. unfold closes in Hp. destruct r as [[[] |] |]; try discriminate; simpl in Hc.
  - destruct Hc as [(plan' & Hp' & ? & _) _]. by simplify_eq.
  - destruct Hc as (plan' & Hp' & ? & _). by simplify_eq.
Qed.

Lemma votes_open q a s s' id :
  called q (Ok a) s s' → votes_for a = Some id →
  srs_cancelled_rotations s !! hex_encode id = None.
Proof. destruct a as [[] |]; simpl; try discriminate; intros Hc [= <-]; naive_solver. Qed.

(** ** One plan for a predecessor *)

Lemma called_lock q r s s' k h :
  called q.2 r s s' →
  (∀ plan, closes q r = Some plan → predecessor_of (plan_context plan) ≠ k) →
  srs_predecessor_plan_locks s !! k = Some h → srs_predecessor_plan_locks s' !! k = Some h.
Proof.
  intros Hc Hp Hk.
  assert (Hclosed : ∀ plan, closed_by q.2 s s' → closing_plan q.2 = Some plan →
    predecessor_of (plan_context plan) ≠ k → srs_predecessor_plan_locks s' !! k = Some h).
  { intros plan (plan' & Hp' & _ & [-> | [evidence ->]]) ? ?; [done |]. cbn.
    rewrite lookup_delete_ne; [done | congruence]. }
  assert (Hext : extends s s' → srs_predecessor_plan_locks s' !! k = Some h)
    by (intros [_ _ Hl]; auto).
  unfold closes in Hp. destruct r as [[[] | ?] | ?]; simpl in Hc;
    try solve [apply Hext; apply Hc]; try solve [by subst s' | by destruct Hc as [-> _]].
  - destruct Hc as [Hc _]. pose proof Hc as (plan & Hq & _). eauto.
  - pose proof Hc as (plan & Hq & _). eauto.
Qed.

Lemma history_lock (e0 : SignerRotationEntryV3) h e k ph :
  did call e0 h e →
  (∀ q r plan, (q, r) ∈ h → closes q r = Some plan → predecessor_of (plan_context plan) ≠ k) →
  srs_predecessor_plan_locks (store e0) !! k = Some ph →
  srs_predecessor_plan_locks (store e) !! k = Some ph.
Proof.
  intros H. induction H as [| h e q rng r e' rng' H IH Hs]; [done |]. intros Hq Hk.
  apply (called_lock q r (store e) _ _ _ (wp_run _ _ _ _ _ (call_spec q (e, rng)) Hs)).
  - intros plan. apply Hq, elem_of_app. right. by left.
  - apply IH; [| done]. intros q' r' plan Hin. apply Hq, elem_of_app. by left.
Qed.

End histories.

End SignerHistory.
