(* ===== verification/SignerScenario.v ===== *)
(** A signer of the small configuration takes part in its rotations. *)

From S2P Require Export SignerHistory RecoveryScenario.

Module SignerScenario.
Export RecoveryScenario.
Import Votes SignerRuntime SignerSpec SignerHistory.

Definition signer : SignerRotationEntryV3 := {|
  sre_provision := {|
    srp_mailbox := mailbox_name 121;
    srp_signer_id := U16 1;
    srp_authorization_share := [x11];
    srp_signing_seed := signer_key 1;
    srp_signing_public_key := signer_key 1;
    srp_membership_proof := signer_proof;
    srp_recovery_card := card;
    srp_active_capsule := genesis
  |};
  sre_security_state := Votes.new;
  sre_recovery_requests := ∅;
  sre_recovery_nonces := ∅
|}.

Abbreviation Request := (u64 * sum SignerRotationRequestV3 SignerRecoveryRequestV3)%type.

Definition at_time (now : N) (request : SignerRotationRequestV3) : Request :=
  (U64 now, inl request).
Definition intend (n : N) : Request :=
  at_time 110 (SrIntent (intent n) (challenge 11) genesis_reads).
Definition ask_begin (n : N) : Request := at_time 111 (SrBegin (intent_hash n) (plan n)).
Definition ask_release (n : N) : Request := at_time 120 (SrRelease (plan n) (begin n)).
Definition ask_activate (n : N) : Request :=
  at_time 121 (SrActivate (plan n) (ready n) (proposed n)).
Definition ask_abort (n : N) : Request :=
  at_time 121 (SrAbort (plan n) RotReady (U16 1) (replicate 1216 x09)).

Definition answers (requests : list Request) := (play call 1%N signer requests).1.

(** What kind of answer each request of a run has. *)
Inductive Kind : Set :=
  Refused | Intends | Begins | Releases | Activates | Aborts | Closes | Recovers.
Definition kind (r : Result Error (sum SignerRotationResponseV3 SignerRecoveryResponseV3)) :
    Kind :=
  match r with
  | Err _ => Refused
  | Ok (inl (SrIntentContribution _)) => Intends
  | Ok (inl (SrBeginVote _)) => Begins
  | Ok (inl (SrReleaseVote _)) => Releases
  | Ok (inl (SrActivateVote _)) => Activates
  | Ok (inl (SrAbortVote _)) => Aborts
  | Ok (inl _) => Closes
  | Ok (inr _) => Recovers
  end.
Definition kinds (requests : list Request) : list Kind := kind ∘ snd <$> answers requests.

(** *** The rotation goes through, the abort vote in its middle without effect *)

Definition rotated : list Request :=
  [intend 1; ask_begin 1; ask_begin 1; intend 2; ask_begin 2; ask_release 1; ask_abort 1;
   ask_activate 1; ask_abort 1; ask_activate 1].

Example rotated_kinds : kinds rotated =
  [Intends; Begins; Begins; Intends; Refused; Releases; Aborts; Activates; Refused; Activates].
Proof. vm_compute. reflexivity. Qed.

(** *** An abort, and another rotation of the same predecessor *)

Definition abort_vote (n : N) (signature : list byte) (s : N) : SignerRotationAbortVote := {|
  srabv_context := rotation_context n;
  srabv_plan_hash := plan_hash n;
  srabv_state_at_abort := RotReady;
  srabv_reason_code := U16 1;
  srabv_signer_id := U16 s;
  srabv_signer_public_key := signer_key s;
  srabv_signer_membership_proof := signer_proof;
  srabv_signer_signature := signature
|}.
Definition abort (n : N) : AbortRotationCertificate := {|
  arc_context := rotation_context n;
  arc_plan_hash := plan_hash n;
  arc_state_at_abort := RotReady;
  arc_reason_code := U16 1;
  arc_votes := (λ s, abort_vote n (signature_of (signer_key s)
    (ok_bytes (signer_rotation_abort_vote (abort_vote n [] s)))) s) <$> signer_ids
|}.
Definition ask_finalize_abort (n : N) : Request :=
  at_time 122 (SrFinalizeAbort (plan n) (abort n) (replicate 1216 x09)).

Definition aborted : list Request :=
  [intend 1; intend 2; ask_begin 1; ask_begin 2; ask_abort 1; ask_finalize_abort 1;
   ask_begin 2; ask_begin 1; ask_release 1].

Example aborted_kinds : kinds aborted =
  [Intends; Intends; Begins; Refused; Aborts; Closes; Begins; Refused; Refused].
Proof. vm_compute. reflexivity. Qed.

(** *** Reads *)

(** A challenge that expired at 105, and an intent that binds it. *)
Definition expired_challenge : EpochReadChallenge := {|
  erc_protocol_version := PROTOCOL_VERSION_V3;
  erc_config_id := id 1;
  erc_client_nonce := id 11;
  erc_response_recipient_key := [x01];
  erc_issued_at := U64 100;
  erc_expiry := U64 105
|}.
Definition intent_on (context : RotationContext) (challenge : EpochReadChallenge)
    (reads : list WitnessReadEnvelope) : RotationIntent := {|
  ri_context := context;
  ri_reason := ReasonPlannedExit;
  ri_old_guardian_count := U16 3;
  ri_old_guardian_threshold := U16 2;
  ri_allowed_new_guardian_count := [U16 3];
  ri_allowed_new_guardian_threshold := [U16 2];
  ri_allowed_dpss_suites := [ZfFrostRistretto255RtsRefreshV1];
  ri_selection_constraints_commitment := digest (be (U16 3));
  ri_witness_read_qc_hash := match witness_read_quorum_hash_v3 challenge reads with
    | Ok hash => hash
    | Err _ => id 0
    end
|}.

(** A rotation of the successor of rotation 1. *)
Definition next_context : RotationContext := {|
  ctx_protocol_version := PROTOCOL_VERSION_V3;
  ctx_config_ref := config 2 101;
  ctx_rotation_id := id 75;
  ctx_predecessor_capsule_hash := successor_hash 1;
  ctx_recipient_key := replicate 1216 x09;
  ctx_nonce := id 85;
  ctx_issued_at := U64 100;
  ctx_expiry := U64 200
|}.
Definition successor_reads : list WitnessReadEnvelope :=
  read 12 (successor 1 [1; 2; 3]%N) <$> [1; 2; 3]%N.
Definition intend_next : Request :=
  at_time 130 (SrIntent (intent_on next_context (challenge 12) successor_reads) (challenge 12)
    successor_reads).
Definition intend_stale : Request :=
  at_time 140 (SrIntent (intent_on (rotation_context 3) expired_challenge genesis_reads)
    expired_challenge genesis_reads).

Definition active_epoch (requests : list Request) : N :=
  epoch_of (srp_active_capsule (sre_provision (play call 1%N signer requests).2)).
Definition observed_epoch (requests : list Request) : option N :=
  uval <$> srs_highest_observed_epoch (sre_security_state (play call 1%N signer requests).2)
    !! hex (id 1).

(** A signer that has seen epoch 2 goes back to epoch 1 on an expired read. *)
Lemma signer_rolls_back :
  kinds [intend_next; intend_stale] = [Intends; Intends]
  ∧ active_epoch [intend_next] = 2%N ∧ observed_epoch [intend_next] = Some 2%N
  ∧ active_epoch [intend_next; intend_stale] = 1%N
  ∧ observed_epoch [intend_next; intend_stale] = Some 1%N.
Proof. split_and!; vm_compute; reflexivity. Qed.

End SignerScenario.
