(* ===== verification/SignerProps.v ===== *)
(** What a protocol-v3 signer signs over any history of requests: a vote of
    each kind for a rotation, one plan for a predecessor until its rotation is
    closed, and nothing for a closed rotation. *)

From S2P Require Import SignerScenario.

Module SignerProps.
Import Votes SignerRuntime SignerSpec SignerHistory.

Section props.
Context `{Prims : Primitives} `{Sharing : SharingPrimitives} `{Protocol : ProtocolPrimitives}.

Abbreviation store := sre_security_state.
Abbreviation key_of context := (hex_encode (ctx_rotation_id context)).
Abbreviation predecessor_of context := (hex_encode (ctx_predecessor_capsule_hash context)).

(** C12 (safety): whatever a signer is asked and in whatever order, errors
    and repetitions included, all its Begin votes for a rotation are for one
    plan, all its Release votes for one transcript and all its Activate votes
    for one transcript, with one successor's hash in it; and the contributions
    it makes for a rotation are to one intent. *)
Theorem signer_votes_once e0 h e :
  did call e0 h e →
  (∀ q1 q2 c1 c2, (q1, Ok (inl (SrIntentContribution c1))) ∈ h →
     (q2, Ok (inl (SrIntentContribution c2))) ∈ h →
     ctx_rotation_id (sric_context c1) = ctx_rotation_id (sric_context c2) →
     sric_intent_hash c1 = sric_intent_hash c2)
  ∧ (∀ q1 q2 v1 v2, (q1, Ok (inl (SrBeginVote v1))) ∈ h →
     (q2, Ok (inl (SrBeginVote v2))) ∈ h →
     ctx_rotation_id (srbv_context v1) = ctx_rotation_id (srbv_context v2) →
     srbv_plan_hash v1 = srbv_plan_hash v2)
  ∧ (∀ q1 q2 v1 v2, (q1, Ok (inl (SrReleaseVote v1))) ∈ h →
     (q2, Ok (inl (SrReleaseVote v2))) ∈ h →
     ctx_rotation_id (srrv_context v1) = ctx_rotation_id (srrv_context v2) →
     release_vote_hash v1 = release_vote_hash v2)
  ∧ (∀ q1 q2 v1 v2, (q1, Ok (inl (SrActivateVote v1))) ∈ h →
     (q2, Ok (inl (SrActivateVote v2))) ∈ h →
     ctx_rotation_id (srav_context v1) = ctx_rotation_id (srav_context v2) →
     activate_vote_hash v1 = activate_vote_hash v2).
Proof.
  intros H. split_and!; intros q1 q2 v1 v2 H1 H2 E;
    apply (history_recorded _ _ _ _ _ H) in H1, H2; simpl in H1, H2; rewrite E in H1.
  - congruence.
  - congruence.
  - destruct H1 as (h1 & -> & H1), H2 as (h2 & -> & H2). congruence.
  - destruct H1 as (h1 & -> & H1), H2 as (h2 & -> & H2). congruence.
Qed.

(** C9 (safety): once a signer has answered that a rotation is finally
    aborted or cancelled by its owner, it never again votes for it, neither to
    begin, release, activate nor abort; and once it has voted to activate a
    rotation it never votes to abort it, nor answers that it is aborted. *)
Theorem signer_closed_forever e0 h1 q r h2 e :
  did call e0 (h1 ++ (q, r) :: h2) e →
  (∀ plan q' a, closes q r = Some plan → (q', Ok a) ∈ h2 →
     votes_for a ≠ Some (ctx_rotation_id (plan_context plan)))
  ∧ (∀ v, r = Ok (inl (SrActivateVote v)) →
     (∀ q' v', (q', Ok (inl (SrAbortVote v'))) ∈ h2 →
        ctx_rotation_id (srabv_context v') ≠ ctx_rotation_id (srav_context v))
     ∧ (∀ q' plan, (q', Ok (inl SrAbortFinalized)) ∈ h2 → closing_plan q'.2 = Some plan →
        ctx_rotation_id (plan_context plan) ≠ ctx_rotation_id (srav_context v))).
Proof.
  intros (e1 & e2 & _ & Hc & H)%history_at.
  assert (Hin : ∀ q' a, (q', Ok a) ∈ h2 → ∃ e3 e4,
    grows (store e2) (store e3) ∧ called q'.2 (Ok a) (store e3) (store e4)).
  { intros q' a (h3 & h4 & ->)%list_elem_of_split.
    apply history_at in H as (e3 & e4 & H3%history_grows & H4 & _). by exists e3, e4. }
  split.
  - intros plan q' a Hp Ha Hv. destruct (Hin q' a Ha) as (e3 & e4 & Hg & Hc').
    pose proof (grows_closed _ _ Hg _ (closes_closed _ _ _ _ _ Hc Hp)) as [x Hx].
    rewrite (votes_open _ _ _ _ _ Hc' Hv) in Hx. discriminate.
  - intros v ->. assert (Hx : ∀ e3, grows (store e2) (store e3) →
      is_Some (votes_of ActivateVotes (store e3) !! key_of (srav_context v))).
    { intros e3 Hg. destruct Hc as (_ & _ & _ & _ & x & _ & Hx). exists x.
      by apply (grows_votes _ _ Hg). }
    split.
    + intros q' v' Ha E. destruct (Hin _ _ Ha) as (e3 & e4 & Hg & _ & _ & _ & Hn).
      rewrite E in Hn. destruct (Hx _ Hg). congruence.
    + intros q' plan Ha Hp E. destruct (Hin _ _ Ha) as (e3 & e4 & Hg & _ & Hn).
      specialize (Hn plan Hp). rewrite E in Hn. destruct (Hx _ Hg). congruence.
Qed.

(** C26 (safety): a signer that voted to begin a plan votes to begin no other plan
    for the same predecessor capsule, unless it has in between answered that a
    rotation from this predecessor is aborted or cancelled. *)
Theorem signer_one_plan_per_predecessor e0 h1 q1 v1 h2 q2 v2 h3 e :
  did call e0 (h1 ++ (q1, Ok (inl (SrBeginVote v1))) :: h2
    ++ (q2, Ok (inl (SrBeginVote v2))) :: h3) e →
  ctx_predecessor_capsule_hash (srbv_context v1)
    = ctx_predecessor_capsule_hash (srbv_context v2) →
  (∀ q r plan, (q, r) ∈ h2 → closes q r = Some plan →
     predecessor_of (plan_context plan) ≠ predecessor_of (srbv_context v1)) →
  srbv_plan_hash v1 = srbv_plan_hash v2.
Proof.
  intros (e1 & e2 & _ & Hc1 & H)%history_at E Hq.
  apply history_at in H as (e3 & e4 & H & Hc2 & _).
  destruct Hc1 as (_ & _ & _ & _ & Hk). destruct Hc2 as ([_ _ Hkept] & _ & _ & _ & Hk').
  apply (history_lock _ _ _ _ _ H Hq) in Hk. apply Hkept in Hk. rewrite E in Hk. congruence.
Qed.

End props.

(** ** Witnesses *)

Import SignerScenario.

(** The second Activate vote of the small run repeats the first. *)
Lemma signer_votes_once_witness : ∃ q1 q2 v1 v2,
  (q1, Ok (inl (SrActivateVote v1))) ∈ drop 7 (answers rotated)
  ∧ (q2, Ok (inl (SrActivateVote v2))) ∈ drop 9 (answers rotated)
  ∧ activate_vote_hash v1 = activate_vote_hash v2.
Proof.
  assert (H : ∃ q1 v1 q2 v2, answers rotated !! 7 = Some (q1, Ok (inl (SrActivateVote v1)))
    ∧ answers rotated !! 9 = Some (q2, Ok (inl (SrActivateVote v2)))
    ∧ ctx_rotation_id (srav_context v1) = ctx_rotation_id (srav_context v2)).
  { do 4 eexists. split_and!; vm_compute; reflexivity. }
  destruct H as (q1 & v1 & q2 & v2 & H1 & H2 & E). exists q1, q2, v1, v2. split_and!.
  - apply (list_elem_of_lookup_2 _ 0). by rewrite lookup_drop.
  - apply (list_elem_of_lookup_2 _ 0). by rewrite lookup_drop.
  - destruct (signer_votes_once signer (answers rotated) _ (play_did call _ signer rotated))
      as (_ & _ & _ & Ha).
    apply (Ha q1 q2); [by eapply list_elem_of_lookup_2 | by eapply list_elem_of_lookup_2 | done].
Defined.

(** After the abort of rotation 1 the signer begins the plan of rotation 2, and
    nothing more for rotation 1. *)
Lemma signer_closed_forever_witness :
  kinds aborted = [Intends; Intends; Begins; Refused; Aborts; Closes; Begins; Refused; Refused]
  ∧ ∀ q a, (q, Ok a) ∈ drop 6 (answers aborted) → votes_for a ≠ Some (id 71).
Proof.
  split; [exact aborted_kinds |]. intros q a Ha.
  assert (H : answers aborted !! 5 = Some (ask_finalize_abort 1, Ok (inl SrAbortFinalized)))
    by (vm_compute; reflexivity).
  apply (play_split call _ signer) in H.
  destruct (signer_closed_forever signer _ _ _ _ _ H) as [Hc _].
  exact (Hc (plan 1) q a eq_refl Ha).
Defined.

(** The two Begin votes of the small run are for the one plan. *)
Lemma signer_one_plan_per_predecessor_witness : ∃ q1 v1 q2 v2,
  answers rotated !! 1 = Some (q1, Ok (inl (SrBeginVote v1)))
  ∧ answers rotated !! 2 = Some (q2, Ok (inl (SrBeginVote v2)))
  ∧ srbv_plan_hash v1 = srbv_plan_hash v2.
Proof.
  assert (H : ∃ q1 v1 q2 v2, answers rotated !! 1 = Some (q1, Ok (inl (SrBeginVote v1)))
    ∧ answers rotated !! 2 = Some (q2, Ok (inl (SrBeginVote v2)))
    ∧ ctx_predecessor_capsule_hash (srbv_context v1)
      = ctx_predecessor_capsule_hash (srbv_context v2)).
  { do 4 eexists. split_and!; vm_compute; reflexivity. }
  destruct H as (q1 & v1 & q2 & v2 & H1 & H2 & E). exists q1, v1, q2, v2. split_and!; [done.. |].
  pose proof (play_split call _ signer rotated _ _ _ H1) as H. unfold answers in H2.
  rewrite <- (take_drop_middle (drop 2 (play call _ signer rotated).1) 0 _
    ltac:(rewrite lookup_drop; exact H2)) in H.
  rewrite take_0 in H.
  refine (signer_one_plan_per_predecessor signer _ q1 v1 [] q2 v2 _ _ H E _).
  intros q r p Hin. exfalso. exact (not_elem_of_nil _ Hin).
Defined.

End SignerProps.
