(* ===== verification/GuardianRecovery.v ===== *)
(** Recoveries at a protocol-v3 guardian: the guardian's half of
    crates/gp-network/src/recovery_runtime.rs. *)

From S2P Require Export RuntimeTypes.
Export RotationProtocol.

Module GuardianRecovery.
Import Epochs.

(** ** Assignments *)

Definition with_provision (entry : GuardianRotationEntryV3) (store : GuardianEpochStore)
    (predecessor : ConfigCapsuleV3) : GuardianRotationEntryV3 :=
  let p := gre_provision entry in {|
  gre_provision := {|
    grp_mailbox := grp_mailbox p;
    grp_signing_seed := grp_signing_seed p;
    grp_signing_public_key := grp_signing_public_key p;
    grp_recovery_card := grp_recovery_card p;
    grp_predecessor_capsule := predecessor;
    grp_signer_public_keys := grp_signer_public_keys p;
    grp_epoch_store := store
  |};
  gre_sessions := gre_sessions entry;
  gre_recoveries := gre_recoveries entry
|}.

Definition epoch_store (entry : GuardianRotationEntryV3) : GuardianEpochStore :=
  grp_epoch_store (gre_provision entry).
Definition predecessor_capsule (entry : GuardianRotationEntryV3) : ConfigCapsuleV3 :=
  grp_predecessor_capsule (gre_provision entry).

Definition with_epoch_store (entry : GuardianRotationEntryV3) (store : GuardianEpochStore) :
    GuardianRotationEntryV3 :=
  with_provision entry store (predecessor_capsule entry).

Definition with_recoveries (entry : GuardianRotationEntryV3)
    (recoveries : gmap string PendingNetworkRecoveryV3) : GuardianRotationEntryV3 := {|
  gre_provision := gre_provision entry;
  gre_sessions := gre_sessions entry;
  gre_recoveries := recoveries
|}.

Definition set_recovery_tombstone (s : GuardianEpochStore) (key : string) (digest : Id32) :
    GuardianEpochStore := {|
  ges_config_id := ges_config_id s;
  ges_expected_predecessor := ges_expected_predecessor s;
  ges_expected_predecessor_capsule_hash := ges_expected_predecessor_capsule_hash s;
  ges_active := ges_active s;
  ges_active_capsule_hash := ges_active_capsule_hash s;
  ges_prepared := ges_prepared s;
  ges_draining := ges_draining s;
  ges_dpss_journal := ges_dpss_journal s;
  ges_rotation_tombstones := ges_rotation_tombstones s;
  ges_recovery_cancellation_tombstones :=
    <[key := digest]> (ges_recovery_cancellation_tombstones s);
  ges_activation_qc := ges_activation_qc s;
  ges_next_write_generation := ges_next_write_generation s
|}.

(** [pending.cancelled = c; pending.released = r;] *)
Definition mark_pending (p : PendingNetworkRecoveryV3) (cancelled released : bool) :
    PendingNetworkRecoveryV3 := {|
  pn3_request := pn3_request p;
  pn3_request_digest := pn3_request_digest p;
  pn3_accepted_wall_time := pn3_accepted_wall_time p;
  pn3_started_monotonic := pn3_started_monotonic p;
  pn3_not_before_monotonic := pn3_not_before_monotonic p;
  pn3_boot_id := pn3_boot_id p;
  pn3_cancelled := cancelled;
  pn3_released := released
|}.

(** ** The record that serves a request *)

(** [epoch_store.draining.get(&epoch).filter(..)]. *)
Definition draining_epoch (store : GuardianEpochStore) (config_ref : ConfigRef) :
    option DrainingGuardianEpoch :=
  epoch ← ges_draining store !! cr_guardian_epoch config_ref;
  if bool_decide (record_config (dge_record epoch) = config_ref) then Some epoch else None.

Definition record_for_request (entry : GuardianRotationEntryV3) (config_ref : ConfigRef)
    (request_id : Id32) (require_pending_drain : bool) : Result Error GuardianRecordV3 :=
  let draining :=
    draining ← ok_or (draining_epoch (epoch_store entry) config_ref)
      (Msg "guardian has no record for the recovery request's exact epoch");
    if require_pending_drain
       && bool_decide (request_id ∉ dge_pending_request_ids draining)
    then Err (Msg "draining guardian refuses a recovery that did not begin before activation")
    else Ok (dge_record draining) in
  match ges_active (epoch_store entry) with
  | Some record =>
      if bool_decide (record_config record = config_ref) then Ok record else draining
  | None => draining
  end.

Definition pending_old_recovery_ids (entry : GuardianRotationEntryV3) : gset Id32 :=
  let predecessor := cap3_config_ref (predecessor_capsule entry) in
  list_to_set ((λ kp : string * PendingNetworkRecoveryV3, rr3_request_id (pn3_request kp.2)) <$>
    filter (λ kp : string * PendingNetworkRecoveryV3,
      rr3_config_ref (pn3_request kp.2) = predecessor ∧
      pn3_cancelled kp.2 = false ∧ pn3_released kp.2 = false)
    (map_to_list (gre_recoveries entry))).

(** [recoveries.values().any(|pending| pending.request.nonce == nonce)]. *)
Definition nonce_pending (entry : GuardianRotationEntryV3) (nonce : Id32) : bool :=
  existsb (λ kp : string * PendingNetworkRecoveryV3,
    bool_decide (rr3_nonce (pn3_request kp.2) = nonce)) (map_to_list (gre_recoveries entry)).

Section runtime.
Context `{Prims : Primitives} `{Sharing : SharingPrimitives} `{Protocol : ProtocolPrimitives}.

Abbreviation Step A := (Act GuardianRotationEntryV3 A).

(** The delay a guardian waits. *)
Definition local_delay (allow_insecure_demo_delay : bool) (delay : u64) : u64 :=
  if allow_insecure_demo_delay
  then if (2 <? uval delay)%N then U64 2 else delay
  else delay.

Definition handle_begin (certificate : BeginRecoveryCertificateV3)
    (wall_now monotonic_now : u64) (boot_id : string) (allow_insecure_demo_delay : bool) :
    Step GuardianRecoveryResponseV3 :=
  let request := brc3_request certificate in
  let key := hex_encode (rr3_request_id request) in
  entry ← entry_of;
  active ← present (ges_active (epoch_store entry))
    "guardian has no ACTIVE recovery authority";
  _ ← bail_if (record_config active !=? rr3_config_ref request)%mr
    "new recovery Begin is not for this guardian's ACTIVE epoch";
  digest ← try (validate_begin_recovery_certificate_v3 certificate
    (predecessor_capsule entry) wall_now);
  _ ← bail_if (bool_decide
      (is_Some (ges_recovery_cancellation_tombstones (epoch_store entry) !! key)))
    "recovery request was permanently cancelled";
  match gre_recoveries entry !! key with
  | Some existing =>
      _ ← bail_if ((pn3_request_digest existing !=? digest)
          || (pn3_request existing !=? request))%mr
        "recovery request id is locked to another transcript";
      mret (GvBeginAccepted (pn3_not_before_monotonic existing))
  | None =>
      _ ← bail_if (nonce_pending entry (rr3_nonce request))
        "guardian rejected a replayed recovery nonce";
      let delay := local_delay allow_insecure_demo_delay
        (gpol3_minimum_recovery_delay (grec3_policy active)) in
      let not_before_monotonic := sat_add monotonic_now delay in
      _ ← write (with_recoveries entry (<[key := {|
            pn3_request := request;
            pn3_request_digest := digest;
            pn3_accepted_wall_time := wall_now;
            pn3_started_monotonic := monotonic_now;
            pn3_not_before_monotonic := not_before_monotonic;
            pn3_boot_id := boot_id;
            pn3_cancelled := false;
            pn3_released := false |}]> (gre_recoveries entry)));
      mret (GvBeginAccepted not_before_monotonic)
  end.

Definition cancel_ack (request : RecoveryRequestV3) (digest certificate_hash : Id32)
    (guardian_index : u16) (signature : list byte) : OwnerRecoveryCancelAckV3 := {|
  orca3_config_ref := rr3_config_ref request;
  orca3_request_id := rr3_request_id request;
  orca3_request_digest := digest;
  orca3_cancel_certificate_hash := certificate_hash;
  orca3_guardian_index := guardian_index;
  orca3_guardian_signature := signature
|}.

Definition handle_cancel (request : RecoveryRequestV3)
    (certificate : OwnerRecoveryCancelCertificateV3) (wall_now : u64) :
    Step GuardianRecoveryResponseV3 :=
  let key := hex_encode (rr3_request_id request) in
  let expected_ref := rr3_config_ref request in
  entry ← entry_of;
  _ ← try (record_for_request entry expected_ref (rr3_request_id request) true);
  digest ← try (validate_owner_recovery_cancel_for_ref_v3 certificate request
    (predecessor_capsule entry) expected_ref wall_now);
  _ ← match gre_recoveries entry !! key with
      | Some pending =>
          _ ← bail_if (pn3_request_digest pending !=? digest)%mr
            "cancellation conflicts with the accepted request transcript";
          bail_if (pn3_released pending)
            "owner cancellation is not retroactive after material release"
      | None => mret ()
      end;
  let cancelled := with_epoch_store entry
    (set_recovery_tombstone (epoch_store entry) key digest) in
  _ ← write (with_recoveries cancelled
    (alter (λ pending, mark_pending pending true (pn3_released pending)) key
      (gre_recoveries entry)));
  entry ← entry_of;
  record ← try (record_for_request entry expected_ref (rr3_request_id request) true);
  certificate_transcript ← try (wire (owner_recovery_cancel_certificate_v3 certificate));
  let ack := cancel_ack request digest (sha256 certificate_transcript)
    (grec3_guardian_index record) in
  ack ← sign_with (grp_signing_seed (gre_provision entry))
    (owner_recovery_cancel_ack_v3 (ack [])) ack;
  mret (GvCancelled ack).

Definition contribution (request : RecoveryRequestV3) (digest : Id32)
    (record : GuardianRecordV3) (signature : list byte) : GuardianRecoveryContributionV3 := {|
  grc3_config_ref := rr3_config_ref request;
  grc3_request_id := rr3_request_id request;
  grc3_request_digest := digest;
  grc3_recovery_recipient_key := rr3_recovery_recipient_key request;
  grc3_nonce := rr3_nonce request;
  grc3_guardian_index := grec3_guardian_index record;
  grc3_fragment_index := grec3_fragment_index record;
  grc3_encrypted_ciphertext_fragment := grec3_encrypted_ciphertext_fragment record;
  grc3_encrypted_dek_share := grec3_encrypted_dek_share record;
  grc3_merkle_path_proof := grec3_merkle_path_proof record;
  grc3_guardian_signature := signature
|}.

Definition handle_release (request : RecoveryRequestV3)
    (certificate : RecoveryReleaseCertificateV3) (wall_now monotonic_now : u64)
    (boot_id : string) : Step GuardianRecoveryResponseV3 :=
  let key := hex_encode (rr3_request_id request) in
  let expected_ref := rr3_config_ref request in
  entry ← entry_of;
  digest ← try (validate_recovery_release_certificate_for_ref_v3 certificate
    (predecessor_capsule entry) expected_ref wall_now);
  record ← try (record_for_request entry expected_ref (rr3_request_id request) true);
  pending ← present (gre_recoveries entry !! key)
    "guardian never accepted Begin for this exact request";
  _ ← bail_if ((pn3_request pending !=? request)
      || (pn3_request_digest pending !=? digest))%mr
    "guardian Release does not match the durably accepted Begin";
  _ ← bail_if (pn3_cancelled pending || pn3_released pending
      || bool_decide (ges_recovery_cancellation_tombstones (epoch_store entry) !! key
           = Some digest))
    "guardian refuses cancelled or replayed recovery Release";
  _ ← bail_if (bool_decide (pn3_boot_id pending ≠ boot_id)
      || (monotonic_now <? pn3_not_before_monotonic pending)%mr
      || (rr3_expiry (pn3_request pending) <=? wall_now)%mr)
    "guardian recovery delay is incomplete, expired, or reboot-ambiguous";
  let c := contribution request digest record in
  c ← sign_with (grp_signing_seed (gre_provision entry))
    (guardian_recovery_contribution_v3 (c [])) c;
  _ ← write (with_recoveries entry
    (<[key := mark_pending pending (pn3_cancelled pending) true]> (gre_recoveries entry)));
  let epoch := cr_guardian_epoch expected_ref in
  _ ← (if bool_decide (is_Some (ges_draining (epoch_store entry) !! epoch))
       then stored (λ entry,
         let '(r, store) := finish_draining_request (epoch_store entry) epoch
           (rr3_request_id request) in
         (r, with_epoch_store entry store))
       else mret ());
  mret (GvContribution c).

Definition handle_guardian_recovery_v3 (request : GuardianRecoveryRequestV3)
    (wall_now monotonic_now : u64) (boot_id : string) (allow_insecure_demo_delay : bool) :
    Step GuardianRecoveryResponseV3 :=
  let recovery := guardian_request request in
  _ ← bail_if ((rr3_protocol_version recovery !=? PROTOCOL_VERSION_V3)
      || (len (rr3_recovery_recipient_key recovery) !=? XWING_PUBLIC_KEY_LEN))%mr
    "guardian rejected malformed protocol-v3 recovery request";
  match request with
  | GvBegin certificate =>
      handle_begin certificate wall_now monotonic_now boot_id allow_insecure_demo_delay
  | GvCancel request certificate => handle_cancel request certificate wall_now
  | GvRelease request certificate =>
      handle_release request certificate wall_now monotonic_now boot_id
  end.

End runtime.

End GuardianRecovery.
