(* ===== verification/GuardianSession.v ===== *)
(** The session a protocol-v3 guardian keeps for a rotation, and the messages
    it exchanges in it: crates/gp-network/src/guardian_runtime.rs up to its
    handler.

    A [&mut GuardianRotationSessionV3] is code over the session, run by
    [in_session] on the session of a plan.  The JSON of a guardian's local
    state and of a DPSS message is third-party code, [RuntimePrimitives]. *)

From stdpp Require Import pretty.
From S2P Require Export GuardianRecovery Frost.

(** [LocalDpssState], encrypted on the disk. *)
Inductive LocalDpssState : Set :=
| StRepairDealer (old_share self_delta : list byte)
| StOldShare (share : list byte)
| StRepaired (share : list byte)
| StRefreshed (share public_package : list byte)
| StRefreshRound1 (old_share secret_state : list byte)
| StRefreshRound2 (old_share secret_state : list byte)
    (round1_messages : list (u16 * list byte)).

(** serde_json::to_vec and serde_json::from_slice. *)
Class RuntimePrimitives : Type := {
  local_state_to_vec : LocalDpssState → option (list byte);
  local_state_from_slice : list byte → option LocalDpssState;
  dpss_message_to_vec : DpssProtocolMessage → option (list byte);
  dpss_message_from_slice : list byte → option DpssProtocolMessage
}.

Module GuardianSession.
Import GuardianRecovery.

(** ** Assignments *)

Definition with_sessions (entry : GuardianRotationEntryV3)
    (sessions : gmap string GuardianRotationSessionV3) : GuardianRotationEntryV3 := {|
  gre_provision := gre_provision entry;
  gre_sessions := sessions;
  gre_recoveries := gre_recoveries entry
|}.

(** The mutable fields of a session. *)
Definition session_with (s : GuardianRotationSessionV3) (machine : Rotation.RotationMachine)
    (cancelled : bool) (outgoing incoming : gmap string u64)
    (local_state : option AeadCiphertext) (staged : option StagedGuardianMaterialV3) :
    GuardianRotationSessionV3 := {|
  grs_rotation_machine := machine;
  grs_plan_hash := grs_plan_hash s;
  grs_begin_certificate_hash := grs_begin_certificate_hash s;
  grs_accepted_wall_time := grs_accepted_wall_time s;
  grs_started_monotonic := grs_started_monotonic s;
  grs_not_before_monotonic := grs_not_before_monotonic s;
  grs_boot_id := grs_boot_id s;
  grs_cancelled := cancelled;
  grs_next_outgoing_sequences := outgoing;
  grs_next_incoming_sequences := incoming;
  grs_encrypted_local_state := local_state;
  grs_staged_material := staged
|}.

Definition set_machine (machine : Rotation.RotationMachine) (s : GuardianRotationSessionV3) :=
  session_with s machine (grs_cancelled s) (grs_next_outgoing_sequences s)
    (grs_next_incoming_sequences s) (grs_encrypted_local_state s) (grs_staged_material s).
Definition set_outgoing (key : string) (next : u64) (s : GuardianRotationSessionV3) :=
  session_with s (grs_rotation_machine s) (grs_cancelled s)
    (<[key := next]> (grs_next_outgoing_sequences s))
    (grs_next_incoming_sequences s) (grs_encrypted_local_state s) (grs_staged_material s).
Definition set_incoming (key : string) (next : u64) (s : GuardianRotationSessionV3) :=
  session_with s (grs_rotation_machine s) (grs_cancelled s) (grs_next_outgoing_sequences s)
    (<[key := next]> (grs_next_incoming_sequences s))
    (grs_encrypted_local_state s) (grs_staged_material s).
Definition set_local_state (state : option AeadCiphertext) (s : GuardianRotationSessionV3) :=
  session_with s (grs_rotation_machine s) (grs_cancelled s) (grs_next_outgoing_sequences s)
    (grs_next_incoming_sequences s) state (grs_staged_material s).
Definition set_staged (staged : option StagedGuardianMaterialV3)
    (s : GuardianRotationSessionV3) :=
  session_with s (grs_rotation_machine s) (grs_cancelled s) (grs_next_outgoing_sequences s)
    (grs_next_incoming_sequences s) (grs_encrypted_local_state s) staged.
Definition set_cancelled (s : GuardianRotationSessionV3) :=
  session_with s (grs_rotation_machine s) true (grs_next_outgoing_sequences s)
    (grs_next_incoming_sequences s) (grs_encrypted_local_state s) (grs_staged_material s).

(** ** Routes *)

Definition roster_of (plan : RotationPlan) (successor : bool) : list GuardianRouteV3 :=
  if successor then plan_new_roster plan else plan_old_roster plan.

Definition guardian_route (entry : GuardianRotationEntryV3) (plan : RotationPlan)
    (successor : bool) : Result Error GuardianRouteV3 :=
  let own := grp_signing_public_key (gre_provision entry) in
  match filter (λ route, gr3_guardian_public_key route = own) (roster_of plan successor) with
  | [route] => Ok route
  | _ => Err (Msg "guardian identity is absent or duplicated in the exact plan roster")
  end.

(** [roster.iter().find(|route| route.guardian_index == index)] and its
    [position]. *)
Definition find_route (roster : list GuardianRouteV3) (index : u16) : option GuardianRouteV3 :=
  snd <$> list_find (λ route, gr3_guardian_index route = index) roster.
Definition route_position (roster : list GuardianRouteV3) (index : u16) : option nat :=
  fst <$> list_find (λ route, gr3_guardian_index route = index) roster.

(** [format!("{sender}:{recipient}")]. *)
Definition sequence_key (sender recipient : u16) : string :=
  pretty (uval sender) +:+ ":" +:+ pretty (uval recipient).

Section session.
Context `{Prims : Primitives} `{Sharing : SharingPrimitives} `{Protocol : ProtocolPrimitives}.
Context `{Runtime : RuntimePrimitives}.

Abbreviation Step A := (Act GuardianRotationEntryV3 A).
Abbreviation Session A := (Act GuardianRotationSessionV3 A).

Definition change {E} (f : E → E) : Act E () :=
  e ← entry_of;
  write (f e).

(** ** The local state *)

Definition local_journal_context (plan : RotationPlan) (guardian_index : u16) :
    Result Error (list byte) :=
  context ← wire (rotation_plan plan);
  Ok (context ++ as_bytes "gp/network-guardian-local-state/v3" ++ be guardian_index).

Definition save_local_state (identity_seed : Id32) (plan : RotationPlan)
    (guardian_index : u16) (state : LocalDpssState) : Session () :=
  plaintext ← try (ok_or (local_state_to_vec state) ESerde);
  nonce ← draw random_nonce;
  context ← try (local_journal_context plan guardian_index);
  encrypted ← try (crypto (seal_local_rotation_journal identity_seed nonce plaintext context));
  change (set_local_state (Some encrypted)).

Definition open_local_state (identity_seed : Id32) (plan : RotationPlan)
    (guardian_index : u16) : Session LocalDpssState :=
  session ← entry_of;
  encrypted ← present (grs_encrypted_local_state session)
    "guardian has no encrypted local DPSS state";
  context ← try (local_journal_context plan guardian_index);
  plaintext ← try (crypto (open_local_rotation_journal identity_seed encrypted context));
  try (ok_or (local_state_from_slice plaintext) ESerde).

(** ** Messages *)

Definition dpss_message (plan : RotationPlan) (plan_hash : Id32) (phase : DpssPhase)
    (sender_index recipient_index : u16) (sequence : u64) (payload signature : list byte) :
    DpssProtocolMessage := {|
  dpm_context := plan_context plan;
  dpm_plan_hash := plan_hash;
  dpm_dpss_suite := plan_dpss_suite plan;
  dpm_dpss_session_id := plan_dpss_session_id plan;
  dpm_qualified_set_commitment := plan_dpss_qualified_set_commitment plan;
  dpm_phase := phase;
  dpm_sender_index := sender_index;
  dpm_recipient_index := recipient_index;
  dpm_sequence := sequence;
  dpm_provider_payload := payload;
  dpm_sender_signature := signature
|}.

(** [map.entry(key).or_insert(1)], read. *)
Definition next_sequence (sequences : gmap string u64) (key : string) : u64 :=
  default (U64 1) (sequences !! key).

Definition make_delivery (signing_seed : Id32) (plan : RotationPlan) (sender_index : u16)
    (target : GuardianRouteV3) (phase : DpssPhase) (provider_payload : list byte) :
    Session DpssDeliveryV3 :=
  let key := sequence_key sender_index (gr3_guardian_index target) in
  session ← entry_of;
  let sequence := next_sequence (grs_next_outgoing_sequences session) key in
  _ ← change (set_outgoing key sequence);
  plan_transcript ← try (wire (rotation_plan plan));
  let message := dpss_message plan (sha256 plan_transcript) phase sender_index
    (gr3_guardian_index target) sequence provider_payload in
  _ ← change (set_outgoing key (sat_add sequence (U64 1)));
  message ← sign_with signing_seed (dpss_protocol_message (message [])) message;
  kem_seed ← draw random_id;
  nonce ← draw random_nonce;
  encoded ← try (ok_or (dpss_message_to_vec message) ESerde);
  context ← try (wire (mailbox_transport_context (gr3_mailbox target) "dpss-direct"));
  sealed ← try (crypto (seal_to_recipient (gr3_session_recipient_key target) kem_seed nonce
    encoded context));
  mret {| dd3_target_mailbox := gr3_mailbox target; dd3_sealed_message := sealed |}.

(** The loop over the deliveries; [senders] are those of the earlier ones. *)
Fixpoint open_deliveries_from (identity_seed : Id32) (plan : RotationPlan)
    (own_route : GuardianRouteV3) (route_keys : gmap u16 (barr 32))
    (expected_phase : DpssPhase) (senders : gset u16) (incoming : list SealedMessage) :
    Session (list (u16 * list byte)) :=
  match incoming with
  | [] => mret []
  | sealed :: incoming =>
      let mismatch := "DPSS delivery is replayed or transcript-mismatched"%string in
      transport ← try (wire (mailbox_transport_context (gr3_mailbox own_route) "dpss-direct"));
      plaintext ← try (crypto (open (RecipientKeyPair_from_seed identity_seed) sealed
        transport));
      message ← try (ok_or (dpss_message_from_slice plaintext) ESerde);
      let sender := dpm_sender_index message in
      sender_key ← present (route_keys !! sender)
        "DPSS message is from an actor outside the expected roster";
      transcript ← try (wire (dpss_protocol_message message));
      _ ← bail_if (dpm_context message !=? plan_context plan)%mr mismatch;
      plan_transcript ← try (wire (rotation_plan plan));
      _ ← bail_if ((dpm_plan_hash message !=? sha256 plan_transcript)
          || (dpm_dpss_suite message !=? plan_dpss_suite plan)
          || (dpm_dpss_session_id message !=? plan_dpss_session_id plan)
          || (dpm_qualified_set_commitment message
              !=? plan_dpss_qualified_set_commitment plan)
          || (dpm_phase message !=? expected_phase)
          || (dpm_recipient_index message !=? gr3_guardian_index own_route)
          || bool_decide (sender ∈ senders))%mr mismatch;
      let key := sequence_key sender (gr3_guardian_index own_route) in
      session ← entry_of;
      let sequence := next_sequence (grs_next_incoming_sequences session) key in
      _ ← change (set_incoming key sequence);
      _ ← bail_if (dpm_sequence message !=? sequence)%mr
        "DPSS delivery is reordered or replayed";
      _ ← try (crypto (verify sender_key transcript (dpm_sender_signature message)));
      _ ← change (set_incoming key (sat_add sequence (U64 1)));
      opened ← open_deliveries_from identity_seed plan own_route route_keys expected_phase
        ({[sender]} ∪ senders) incoming;
      mret ((sender, dpm_provider_payload message) :: opened)
  end.

Definition open_deliveries (identity_seed : Id32) (plan : RotationPlan)
    (own_route : GuardianRouteV3) (sender_routes : list GuardianRouteV3)
    (expected_phase : DpssPhase) (incoming : list SealedMessage) :
    Session (list (u16 * list byte)) :=
  let route_keys := btree_collect
    ((λ route, (gr3_guardian_index route, gr3_guardian_public_key route)) <$> sender_routes) in
  open_deliveries_from identity_seed plan own_route route_keys expected_phase ∅ incoming.

(** ** The session of a plan *)

Definition session_mut (entry : GuardianRotationEntryV3) (plan : RotationPlan) :
    Result Error GuardianRotationSessionV3 :=
  plan_transcript ← wire (rotation_plan plan);
  let plan_hash := sha256 plan_transcript in
  session ← ok_or (gre_sessions entry !! hex_encode (ctx_rotation_id (plan_context plan)))
    (Msg "guardian has not accepted Begin for this rotation");
  let machine := grs_rotation_machine session in
  if ((grs_plan_hash session !=? plan_hash)
      || (Rotation.rot_rotation_id machine !=? ctx_rotation_id (plan_context plan))
      || (Rotation.rot_plan_hash machine !=? plan_hash)
      || (Rotation.rot_predecessor machine !=? plan_predecessor plan)
      || (Rotation.rot_successor machine !=? plan_successor plan)
      || grs_cancelled session)%mr
  then Err (Msg "guardian rotation session is cancelled or plan-mismatched")
  else Ok session.

(** Code over [session_mut(entry, plan)?]; the session keeps its changes. *)
Definition in_session {A} (plan : RotationPlan) (m : Session A) : Step A := λ s,
  match session_mut s.1 plan with
  | Err e => (Err e, s)
  | Ok session =>
      let '(r, (session, rng)) := m (session, s.2) in
      (r, (with_sessions s.1
             (<[hex_encode (ctx_rotation_id (plan_context plan)) := session]>
               (gre_sessions s.1)), rng))
  end.

(** [session.rotation_machine.apply(event)?]. *)
Definition apply_event (event : RotationEvent) : Session () := λ s,
  let '(r, machine) := Rotation.apply (grs_rotation_machine s.1) event in
  (_ ← map_err ERotation r; Ok (), (set_machine machine s.1, s.2)).

(** The message also names the state. *)
Definition advance_to_preparing (monotonic_now : u64) : Session () :=
  session ← entry_of;
  match Rotation.rot_state (grs_rotation_machine session) with
  | RotDelayPending => apply_event (EvReleaseAccepted monotonic_now true true)
  | RotPreparing => mret ()
  | _ => try (Err (Msg "rotation Release is invalid from local state"))
  end.

End session.

End GuardianSession.
