(* ===== verification/GuardianRuntime.v ===== *)
(** A protocol-v3 guardian in a rotation: the operations of
    crates/gp-network/src/guardian_runtime.rs and its handler. *)

From S2P Require Export GuardianSession.

Module GuardianRuntime.
Import GuardianRecovery GuardianSession.

Section runtime.
Context `{Prims : Primitives} `{Sharing : SharingPrimitives} `{Frost : FrostPrimitives}.
Context `{Protocol : ProtocolPrimitives} `{Runtime : RuntimePrimitives}.

Abbreviation Step A := (Act GuardianRotationEntryV3 A).
Abbreviation Session A := (Act GuardianRotationSessionV3 A).

(** A call of the epoch store. *)
Definition store_call {A}
    (f : Epochs.GuardianEpochStore → Result StorageError A * Epochs.GuardianEpochStore) :
    Step A :=
  stored (λ entry, let '(r, store) := f (epoch_store entry) in (r, with_epoch_store entry store)).

Definition remove_session (plan : RotationPlan) : Step () :=
  change (λ entry, with_sessions entry
    (delete (hex_encode (ctx_rotation_id (plan_context plan))) (gre_sessions entry))).

(** The guardian has a route in one of the plan's rosters. *)
Definition participant (entry : GuardianRotationEntryV3) (plan : RotationPlan) : bool :=
  is_ok (guardian_route entry plan false) || is_ok (guardian_route entry plan true).

(** ** Grants *)

Definition fixed_key (key : list byte) : Result Error (barr 32) :=
  ok_or (try_barr 32 key) ETryFromSlice.

Definition open_old_material (entry : GuardianRotationEntryV3) (identity_seed : Id32)
    (plan : RotationPlan) (grant : OldShareUnlockGrant) (release_hash : Id32) :
    Result Error (list byte * list byte) :=
  let unbound := Msg "old-share grant does not bind this guardian and release" in
  route ← guardian_route entry plan false;
  _ ← fail_if (osug_context grant !=? plan_context plan)%mr unbound;
  plan_transcript ← wire (rotation_plan plan);
  _ ← fail_if ((osug_plan_hash grant !=? sha256 plan_transcript)
      || (osug_release_certificate_hash grant !=? release_hash)
      || (osug_old_guardian_index grant !=? gr3_guardian_index route))%mr unbound;
  _ ← wire (old_share_unlock_grant grant);
  let recipient := RecipientKeyPair_from_seed identity_seed in
  share_context ← wire (old_share_unlock_grant_payload_context grant false);
  share_key ← crypto (open recipient (osug_encrypted_unwrap_key grant) share_context);
  fragment_context ← wire (old_share_unlock_grant_payload_context grant true);
  fragment_key ← crypto (open recipient (osug_encrypted_fragment_key grant) fragment_context);
  _ ← fail_if ((len share_key !=? 32)%N || (len fragment_key !=? 32)%N)%mr
    (Msg "old-share grant contains an invalid key length");
  record ← ok_or (Epochs.ges_active (epoch_store entry))
    (Msg "old guardian has no active record");
  let config_ref := Epochs.record_config record in
  share_key ← fixed_key share_key;
  context ← wire (guardian_share_context_v3 config_ref (grec3_guardian_index record));
  share ← crypto (aead_decrypt share_key (grec3_encrypted_dek_share record) context);
  fragment_key ← fixed_key fragment_key;
  context ← wire (guardian_fragment_context_v3 config_ref (grec3_guardian_index record)
    (grec3_fragment_index record));
  fragment ← crypto (aead_decrypt fragment_key (grec3_encrypted_ciphertext_fragment record)
    context);
  Ok (share, fragment).

Definition open_new_keys (identity_seed : Id32) (plan : RotationPlan) (guardian_index : u16)
    (grant : NewShareWrapGrant) : Result Error (list byte * list byte) :=
  let unbound := Msg "new-share grant does not bind this successor guardian" in
  _ ← fail_if (nswg_context grant !=? plan_context plan)%mr unbound;
  plan_transcript ← wire (rotation_plan plan);
  _ ← fail_if ((nswg_plan_hash grant !=? sha256 plan_transcript)
      || (nswg_new_guardian_index grant !=? guardian_index))%mr unbound;
  _ ← wire (new_share_wrap_grant grant);
  let recipient := RecipientKeyPair_from_seed identity_seed in
  share_context ← wire (new_share_wrap_grant_payload_context grant false);
  share_key ← crypto (open recipient (nswg_encrypted_wrap_key grant) share_context);
  fragment_context ← wire (new_share_wrap_grant_payload_context grant true);
  fragment_key ← crypto (open recipient (nswg_encrypted_fragment_key grant) fragment_context);
  _ ← fail_if ((len share_key !=? 32)%N || (len fragment_key !=? 32)%N)%mr
    (Msg "new-share grant contains an invalid key length");
  Ok (share_key, fragment_key).

(** ** Begin *)

Definition substituted_key (entry : GuardianRotationEntryV3) (plan : RotationPlan)
    (transport_public_key : list byte) : bool :=
  existsb (λ route,
    bool_decide (gr3_guardian_public_key route = grp_signing_public_key (gre_provision entry))
    && (gr3_session_recipient_key route !=? transport_public_key)%mr)
    (plan_old_roster plan ++ plan_new_roster plan).

Definition new_session (machine : Rotation.RotationMachine) (plan_hash begin_hash : Id32)
    (wall_now monotonic_now not_before : u64) (boot_id : string) :
    GuardianRotationSessionV3 := {|
  grs_rotation_machine := machine;
  grs_plan_hash := plan_hash;
  grs_begin_certificate_hash := begin_hash;
  grs_accepted_wall_time := wall_now;
  grs_started_monotonic := monotonic_now;
  grs_not_before_monotonic := not_before;
  grs_boot_id := boot_id;
  grs_cancelled := false;
  grs_next_outgoing_sequences := ∅;
  grs_next_incoming_sequences := ∅;
  grs_encrypted_local_state := None;
  grs_staged_material := None
|}.

Definition new_machine (plan : RotationPlan) (plan_hash : Id32) :
    Result Error Rotation.RotationMachine :=
  map_err ERotation (Rotation.new (ctx_rotation_id (plan_context plan)) plan_hash
    (plan_predecessor plan) (plan_successor plan)).

(** A machine that is not yet in a session. *)
Definition applied (machine : Rotation.RotationMachine) (event : RotationEvent) :
    Result Error Rotation.RotationMachine :=
  let '(r, machine) := Rotation.apply machine event in
  _ ← map_err ERotation r;
  Ok machine.

Definition handle_begin (identity_seed : Id32) (plan : RotationPlan)
    (certificate : BeginRotationCertificate) (wall_now monotonic_now : u64)
    (boot_id : string) (allow_insecure_demo_delay : bool) : Step GuardianRotationResponseV3 :=
  entry ← entry_of;
  begin_hash ← try (validate_begin_rotation_certificate_v3 certificate plan
    (predecessor_capsule entry) wall_now);
  _ ← bail_if (negb (participant entry plan))
    "guardian is not a participant in this rotation";
  _ ← bail_if (substituted_key entry plan
      (rkp_public (RecipientKeyPair_from_seed identity_seed)))
    "plan substituted this guardian's DPSS session recipient key";
  plan_transcript ← try (wire (rotation_plan plan));
  let plan_hash := sha256 plan_transcript in
  let key := hex_encode (ctx_rotation_id (plan_context plan)) in
  _ ← bail_if (bool_decide (is_Some (Epochs.ges_rotation_tombstones (epoch_store entry) !! key)))
    "guardian permanently rejected this completed or cancelled rotation id";
  match gre_sessions entry !! key with
  | Some existing =>
      if (grs_plan_hash existing ==? plan_hash)%mr
         && (grs_begin_certificate_hash existing ==? begin_hash)%mr
      then mret (GrBeginAccepted (grs_not_before_monotonic existing))
      else try (Err
        (Msg "guardian is already locked to another plan for this rotation id"))
  | None =>
      let delay := local_delay allow_insecure_demo_delay (plan_minimum_delay_secs plan) in
      machine ← try (new_machine plan plan_hash);
      machine ← try (applied machine (EvBeginAccepted monotonic_now delay true));
      not_before ← present (Rotation.rot_not_before machine)
        "rotation machine did not persist its delay";
      _ ← change (λ entry, with_sessions entry (<[key := new_session machine plan_hash
            begin_hash wall_now monotonic_now not_before boot_id]> (gre_sessions entry)));
      mret (GrBeginAccepted not_before)
  end.

(** ** Cancel and Abort *)

(** What an owner's cancellation does to the rotation's session. *)
Definition cancel_session (plan : RotationPlan) (plan_hash : Id32) : Step () :=
  let key := hex_encode (ctx_rotation_id (plan_context plan)) in
  entry ← entry_of;
  match Epochs.ges_rotation_tombstones (epoch_store entry) !! key with
  | Some tombstone =>
      bail_if ((Epochs.rt_plan_hash tombstone !=? plan_hash)
          || (Epochs.rt_terminal_state tombstone !=? RotAborted))%mr
        "rotation id already has a conflicting terminal state"
  | None =>
  match gre_sessions entry !! key with
  | Some session =>
      machine ← try (if grs_cancelled session then Ok (grs_rotation_machine session)
        else applied (grs_rotation_machine session) (EvOwnerCancelObserved true));
      change (λ entry, with_sessions entry
        (<[key := set_staged None (set_local_state None (set_cancelled
              (set_machine machine session)))]> (gre_sessions entry)))
  | None =>
      machine ← try (new_machine plan plan_hash);
      _ ← try (applied machine (EvOwnerCancelObserved true));
      mret ()
  end end.

Definition owner_cancel_ack (plan : RotationPlan) (plan_hash certificate_hash : Id32)
    (guardian_index : u16) (signature : list byte) : OwnerRotationCancelAck := {|
  orca_context := plan_context plan;
  orca_plan_hash := plan_hash;
  orca_cancel_certificate_hash := certificate_hash;
  orca_guardian_index := guardian_index;
  orca_guardian_signature := signature
|}.

(** The index of the guardian's active record, or else of its new route. *)
Definition own_index (entry : GuardianRotationEntryV3) (plan : RotationPlan) : option u16 :=
  match Epochs.ges_active (epoch_store entry) with
  | Some record => Some (grec3_guardian_index record)
  | None => match guardian_route entry plan true with
            | Ok route => Some (gr3_guardian_index route)
            | Err _ => None
            end
  end.

Definition handle_cancel (plan : RotationPlan) (certificate : OwnerRotationCancelCertificate)
    (wall_now : u64) : Step GuardianRotationResponseV3 :=
  entry ← entry_of;
  plan_hash ← try (validate_rotation_plan_v3 plan (predecessor_capsule entry) wall_now);
  _ ← bail_if ((orcc_context certificate !=? plan_context plan)
      || (orcc_plan_hash certificate !=? plan_hash)
      || (orcc_owner_cancel_public_key certificate
          !=? cap3_owner_cancel_public_key (predecessor_capsule entry))
      || (len (orcc_cancel_response_recipient_key certificate) !=? XWING_PUBLIC_KEY_LEN))%mr
    "owner rotation cancellation is plan-mismatched";
  certificate_transcript ← try (wire (owner_rotation_cancel_certificate certificate));
  _ ← try (crypto (verify (orcc_owner_cancel_public_key certificate) certificate_transcript
    (orcc_owner_signature certificate)));
  _ ← bail_if (negb (participant entry plan))
    "guardian is not a participant in this cancelled rotation";
  _ ← cancel_session plan plan_hash;
  _ ← store_call (λ store, Epochs.abort_prepared hex_encode store
    (ctx_rotation_id (plan_context plan)) plan_hash);
  _ ← remove_session plan;
  entry ← entry_of;
  guardian_index ← present (own_index entry plan)
    "cancel recipient has no guardian index";
  let ack := owner_cancel_ack plan plan_hash (sha256 certificate_transcript) guardian_index in
  ack ← sign_with (grp_signing_seed (gre_provision entry))
    (owner_rotation_cancel_ack (ack [])) ack;
  mret (GrCancelled ack).

Definition handle_abort (plan : RotationPlan) (certificate : AbortRotationCertificate)
    (wall_now : u64) : Step GuardianRotationResponseV3 :=
  entry ← entry_of;
  _ ← try (validate_abort_rotation_certificate_v3 certificate plan
    (predecessor_capsule entry) wall_now);
  plan_transcript ← try (wire (rotation_plan plan));
  let plan_hash := sha256 plan_transcript in
  _ ← in_session plan (apply_event (EvAbortObserved true));
  _ ← store_call (λ store, Epochs.abort_prepared hex_encode store
    (ctx_rotation_id (plan_context plan)) plan_hash);
  _ ← remove_session plan;
  mret GrAborted.

(** ** Repairing a share *)

Definition record_leaf (record : GuardianRecordV3) : Result Error PreparedRecordLeaf :=
  policy ← wire (guardian_policy_body_v3 (grec3_policy record));
  Ok {|
    prl_guardian_index := grec3_guardian_index record;
    prl_fragment_index := grec3_fragment_index record;
    prl_opaque_slot_id := grec3_opaque_slot_id record;
    prl_encrypted_share_hash := hash_aead (grec3_encrypted_dek_share record);
    prl_fragment_hash := hash_aead (grec3_encrypted_ciphertext_fragment record);
    prl_policy_hash := sha256 policy
  |}.

(** [for (target, payload) in messages { deliveries.push(make_delivery(..)?) }];
    [skip] is the recipient the loop passes over. *)
Fixpoint make_deliveries (signing_seed : Id32) (plan : RotationPlan) (sender_index : u16)
    (roster : list GuardianRouteV3) (unknown : string) (phase : DpssPhase)
    (skip : option u16) (messages : list (u16 * list byte)) : Session (list DpssDeliveryV3) :=
  match messages with
  | [] => mret []
  | (recipient, payload) :: messages =>
      let rest := make_deliveries signing_seed plan sender_index roster unknown phase skip
        messages in
      if bool_decide (Some recipient = skip) then rest else
      target ← present (find_route roster recipient) unknown;
      delivery ← make_delivery signing_seed plan sender_index target phase payload;
      rest ← rest;
      mret (delivery :: rest)
  end.

Definition fragment_contribution (plan : RotationPlan) (plan_hash release_hash : Id32)
    (guardian_index : u16) (record : GuardianRecordV3) (leaf : PreparedRecordLeaf)
    (fragment signature : list byte) : CiphertextFragmentContribution := {|
  cfc_context := plan_context plan;
  cfc_plan_hash := plan_hash;
  cfc_release_certificate_hash := release_hash;
  cfc_old_guardian_index := guardian_index;
  cfc_fragment_index := grec3_fragment_index record;
  cfc_ciphertext_fragment := fragment;
  cfc_fragment_commitment := sha256 fragment;
  cfc_prepared_record_leaf := leaf;
  cfc_merkle_path_proof := grec3_merkle_path_proof record;
  cfc_guardian_signature := signature
|}.

Definition repair_round1 (identity_seed : Id32) (plan : RotationPlan)
    (begin_certificate : BeginRotationCertificate)
    (release_certificate : RotationReleaseCertificate) (unlock_grant : OldShareUnlockGrant)
    (helper_ids : list u16) (replacement_id : u16) (wall_now monotonic_now : u64)
    (boot_id : string) : Step GuardianRotationResponseV3 :=
  entry ← entry_of;
  release_hash ← try (validate_rotation_release_certificate_v3 release_certificate
    begin_certificate plan (predecessor_capsule entry) wall_now);
  old_route ← try (guardian_route entry plan false);
  let index := gr3_guardian_index old_route in
  let signing_seed := grp_signing_seed (gre_provision entry) in
  '(old_share, fragment) ← try (open_old_material entry identity_seed plan unlock_grant
    release_hash);
  record ← present (Epochs.ges_active (epoch_store entry))
    "old guardian has no active record";
  leaf ← try (record_leaf record);
  in_session plan (
    session ← entry_of;
    begin_transcript ← try (wire (begin_rotation_certificate begin_certificate));
    _ ← bail_if ((grs_begin_certificate_hash session !=? sha256 begin_transcript)%mr
        || bool_decide (grs_boot_id session ≠ boot_id)
        || (monotonic_now <? grs_not_before_monotonic session)%mr)
      "guardian delay is incomplete or reboot-ambiguous";
    _ ← advance_to_preparing monotonic_now;
    seed ← draw random_id;
    deltas ← try (crypto (begin_old_share old_share helper_ids replacement_id seed));
    '(_, self_delta) ← present (snd <$> list_find (λ d : u16 * list byte, d.1 = index) deltas)
      "RTS provider omitted the helper's own delta";
    _ ← save_local_state identity_seed plan index (StRepairDealer old_share self_delta);
    deliveries ← make_deliveries signing_seed plan index (plan_old_roster plan)
      "RTS helper is not in the old roster" RepairRound1 (Some index) deltas;
    let c := fragment_contribution plan (grs_plan_hash session) release_hash index record leaf
      fragment in
    c ← sign_with signing_seed (ciphertext_fragment_contribution (c [])) c;
    mret (GrDpssDeliveries deliveries (Some c))).

Definition repair_round2 (identity_seed : Id32) (plan : RotationPlan)
    (incoming : list SealedMessage) (replacement_id : u16) : Step GuardianRotationResponseV3 :=
  entry ← entry_of;
  old_route ← try (guardian_route entry plan false);
  let index := gr3_guardian_index old_route in
  replacement ← present (find_route (plan_new_roster plan) replacement_id)
    "replacement is not in the successor roster";
  let signing_seed := grp_signing_seed (gre_provision entry) in
  in_session plan (
    opened ← open_deliveries identity_seed plan old_route (plan_old_roster plan) RepairRound1
      incoming;
    state ← open_local_state identity_seed plan index;
    match state with
    | StRepairDealer old_share self_delta =>
        sigma ← try (crypto (frost_repair_part2 (opened.*2 ++ [self_delta])));
        _ ← save_local_state identity_seed plan index (StOldShare old_share);
        delivery ← make_delivery signing_seed plan index replacement RepairRound2 sigma;
        mret (GrDpssDeliveries [delivery] None)
    | _ => try (Err (Msg "guardian is not in RTS repair-dealer state"))
    end).

Definition repair_finalize (identity_seed : Id32) (plan : RotationPlan)
    (incoming : list SealedMessage) (old_public_package : list byte) :
    Step GuardianRotationResponseV3 :=
  entry ← entry_of;
  new_route ← try (guardian_route entry plan true);
  let index := gr3_guardian_index new_route in
  in_session plan (
    opened ← open_deliveries identity_seed plan new_route (plan_old_roster plan) RepairRound2
      incoming;
    _ ← bail_if (len opened <? uval (plan_old_guardian_threshold plan))%mr
      "RTS finalization lacks an old-guardian threshold";
    session ← entry_of;
    _ ← advance_to_preparing (grs_not_before_monotonic session);
    share ← try (crypto (finalize_new_share opened.*2 index old_public_package));
    expanded_public_package ←
      try (crypto (frost_public_add_repaired_share old_public_package share));
    participant ← try (crypto (frost_verify_share share expanded_public_package));
    _ ← bail_if (participant !=? index)%mr
      "RTS replacement share has the wrong participant id";
    _ ← save_local_state identity_seed plan index (StRepaired share);
    mret (GrRepairStored index expanded_public_package)).

(** ** Refreshing the shares *)

(** The loop that sends the round-1 package to every other guardian. *)
Fixpoint broadcast (signing_seed : Id32) (plan : RotationPlan) (sender_index : u16)
    (payload : list byte) (targets : list GuardianRouteV3) : Session (list DpssDeliveryV3) :=
  match targets with
  | [] => mret []
  | target :: targets =>
      delivery ← make_delivery signing_seed plan sender_index target RefreshRound1 payload;
      rest ← broadcast signing_seed plan sender_index payload targets;
      mret (delivery :: rest)
  end.

Definition refresh_round1 (identity_seed : Id32) (plan : RotationPlan)
    (begin_certificate : option BeginRotationCertificate)
    (release_certificate : option RotationReleaseCertificate)
    (old_share_grant : option OldShareUnlockGrant) (wall_now monotonic_now : u64)
    (boot_id : string) : Step GuardianRotationResponseV3 :=
  entry ← entry_of;
  new_route ← try (guardian_route entry plan true);
  let index := gr3_guardian_index new_route in
  let signing_seed := grp_signing_seed (gre_provision entry) in
  share ← (match old_share_grant with
    | Some grant =>
        begin ← present begin_certificate
          "unchanged guardian refresh lacks Begin certificate";
        release ← present release_certificate
          "unchanged guardian refresh lacks Release certificate";
        release_hash ← try (validate_rotation_release_certificate_v3 release begin plan
          (predecessor_capsule entry) wall_now);
        '(share, _) ← try (open_old_material entry identity_seed plan grant release_hash);
        mret share
    | None =>
        in_session plan (
          state ← open_local_state identity_seed plan index;
          match state with
          | StRepaired share => mret share
          | _ => try (Err (Msg "candidate has no locally finalized RTS share"))
          end)
    end);
  in_session plan (
    session ← entry_of;
    _ ← bail_if (bool_decide (grs_boot_id session ≠ boot_id)
        || (monotonic_now <? grs_not_before_monotonic session)%mr)
      "guardian refresh delay is incomplete or reboot-ambiguous";
    _ ← advance_to_preparing monotonic_now;
    total ← try (ok_or (try_u16 (len (plan_new_roster plan))) ETryFromInt);
    seed ← draw random_id;
    refresh ← try (crypto (frost_refresh_part1 index (plan_new_guardian_threshold plan) total
      seed));
    _ ← save_local_state identity_seed plan index
      (StRefreshRound1 share (frr1_secret_state refresh));
    deliveries ← broadcast signing_seed plan index (frr1_broadcast refresh)
      (filter (λ route, gr3_guardian_index route ≠ index) (plan_new_roster plan));
    mret (GrDpssDeliveries deliveries None)).

(** [round.len().saturating_add(1) != plan.new_roster.len()]. *)
Definition incomplete {A} (plan : RotationPlan) (round : list A) : bool :=
  negb (S (length round) =? length (plan_new_roster plan))%nat.

Definition refresh_round2 (identity_seed : Id32) (plan : RotationPlan)
    (incoming : list SealedMessage) : Step GuardianRotationResponseV3 :=
  entry ← entry_of;
  new_route ← try (guardian_route entry plan true);
  let index := gr3_guardian_index new_route in
  let signing_seed := grp_signing_seed (gre_provision entry) in
  in_session plan (
    round1 ← open_deliveries identity_seed plan new_route (plan_new_roster plan) RefreshRound1
      incoming;
    _ ← bail_if (incomplete plan round1) "refresh round 1 is incomplete";
    state ← open_local_state identity_seed plan index;
    match state with
    | StRefreshRound1 old_share secret_state =>
        refresh ← try (crypto (frost_refresh_part2 secret_state round1));
        _ ← save_local_state identity_seed plan index
          (StRefreshRound2 old_share (frr2_secret_state refresh) round1);
        deliveries ← make_deliveries signing_seed plan index (plan_new_roster plan)
          "refresh provider emitted an unknown recipient" RefreshRound2 None
          (frr2_direct_messages refresh);
        mret (GrDpssDeliveries deliveries None)
    | _ => try (Err (Msg "guardian is not in refresh round-1 state"))
    end).

Definition refresh_finalize (identity_seed : Id32) (plan : RotationPlan)
    (incoming : list SealedMessage) (old_public_package : list byte) :
    Step GuardianRotationResponseV3 :=
  entry ← entry_of;
  new_route ← try (guardian_route entry plan true);
  let index := gr3_guardian_index new_route in
  in_session plan (
    round2 ← open_deliveries identity_seed plan new_route (plan_new_roster plan) RefreshRound2
      incoming;
    _ ← bail_if (incomplete plan round2) "refresh round 2 is incomplete";
    state ← open_local_state identity_seed plan index;
    match state with
    | StRefreshRound2 old_share secret_state round1_messages =>
        output ← try (crypto (frost_refresh_part3 secret_state round1_messages round2
          old_public_package old_share));
        let package := fro_public_package output in
        participant ← try (crypto (frost_verify_share (fro_share output) package));
        _ ← bail_if (participant !=? index)%mr "refreshed share has the wrong participant id";
        dpss_result_commitment ← try (crypto (frost_public_package_digest package));
        _ ← save_local_state identity_seed plan index (StRefreshed (fro_share output) package);
        mret (GrRefreshFinalized index package dpss_result_commitment)
    | _ => try (Err (Msg "guardian is not in refresh round-2 state"))
    end).

(** ** The successor's record *)

Definition custody_bytes (encrypted_share encrypted_fragment : AeadCiphertext) : list byte :=
  bytes_of (aead_nonce encrypted_share) ++ aead_ciphertext encrypted_share
  ++ bytes_of (aead_nonce encrypted_fragment) ++ aead_ciphertext encrypted_fragment.

Definition stage_material (identity_seed : Id32) (plan : RotationPlan)
    (wrap_grant : NewShareWrapGrant) (fragment_index : u16)
    (ciphertext_fragment ciphertext_fragment_proof : list byte) (policy : GuardianPolicyV3)
    (opaque_slot_id : Id32) : Step GuardianRotationResponseV3 :=
  entry ← entry_of;
  new_route ← try (guardian_route entry plan true);
  let index := gr3_guardian_index new_route in
  let predecessor := predecessor_capsule entry in
  in_session plan (
    state ← open_local_state identity_seed plan index;
    match state with
    | StRefreshed share public_package =>
    dpss_result_commitment ← try (crypto (frost_public_package_digest public_package));
    fragment_position ← present (route_position (plan_new_roster plan) index)
      "successor route is absent";
    expected_fragment_index ←
      try (ok_or (try_u16 (N.of_nat fragment_position + 1)) ETryFromInt);
    _ ← bail_if ((gpol3_config_ref policy !=? plan_successor plan)
        || (gpol3_epoch_state policy !=? EpochPrepared)
        || (gpol3_predecessor_capsule_hash policy !=? cap3_capsule_hash predecessor)
        || (gpol3_dpss_suite policy !=? plan_dpss_suite plan)
        || (gpol3_dpss_public_commitment policy !=? dpss_result_commitment)
        || (gpol3_signer_set_commitment policy !=? cap3_signer_set_commitment predecessor)
        || (opaque_slot_id !=? gr3_opaque_slot_id new_route)
        || (fragment_index !=? expected_fragment_index))%mr
      "successor policy or opaque slot does not bind the exact DPSS result";
    _ ← try (map_err
      (λ _, Msg "successor ciphertext fragment is not committed by the predecessor payload")
      (verify_ciphertext_fragment (cap3_ciphertext_fragment_root predecessor)
        (cr_config_id (plan_successor plan)) (cr_payload_generation (plan_successor plan))
        fragment_index (plan_total_shards plan) ciphertext_fragment
        ciphertext_fragment_proof));
    '(share_key, fragment_key) ← try (open_new_keys identity_seed plan index wrap_grant);
    share_key ← try (fixed_key share_key);
    nonce ← draw random_nonce;
    context ← try (wire (guardian_share_context_v3 (plan_successor plan) index));
    encrypted_dek_share ← try (crypto (aead_encrypt share_key nonce share context));
    fragment_key ← try (fixed_key fragment_key);
    nonce ← draw random_nonce;
    context ← try (wire (guardian_fragment_context_v3 (plan_successor plan) index
      fragment_index));
    encrypted_ciphertext_fragment ←
      try (crypto (aead_encrypt fragment_key nonce ciphertext_fragment context));
    policy_transcript ← try (wire (guardian_policy_body_v3 policy));
    let leaf := {|
      prl_guardian_index := index;
      prl_fragment_index := fragment_index;
      prl_opaque_slot_id := opaque_slot_id;
      prl_encrypted_share_hash := hash_aead encrypted_dek_share;
      prl_fragment_hash := hash_aead encrypted_ciphertext_fragment;
      prl_policy_hash := sha256 policy_transcript |} in
    custody ← try (crypto (custody_commit
      (custody_bytes encrypted_dek_share encrypted_ciphertext_fragment)));
    let record_draft := {|
      grec3_opaque_slot_id := opaque_slot_id;
      grec3_guardian_index := index;
      grec3_fragment_index := fragment_index;
      grec3_encrypted_ciphertext_fragment := encrypted_ciphertext_fragment;
      grec3_encrypted_dek_share := encrypted_dek_share;
      grec3_merkle_path_proof := [];
      grec3_custody_root := cust_root custody;
      grec3_policy := policy |} in
    _ ← change (set_local_state None);
    _ ← change (set_staged (Some {|
          sgm_record_draft := record_draft;
          sgm_leaf := leaf;
          sgm_dpss_result_commitment := dpss_result_commitment |}));
    mret (GrRefreshMaterialStaged leaf public_package dpss_result_commitment)
    | _ => try (Err (Msg "guardian has not finalized its refresh share"))
    end).

(** [record.policy.guardian_material_root = root; record.merkle_path_proof = proof;] *)
Definition committed_record (record : GuardianRecordV3) (root : Id32) (proof : list byte) :
    GuardianRecordV3 :=
  let p := grec3_policy record in {|
  grec3_opaque_slot_id := grec3_opaque_slot_id record;
  grec3_guardian_index := grec3_guardian_index record;
  grec3_fragment_index := grec3_fragment_index record;
  grec3_encrypted_ciphertext_fragment := grec3_encrypted_ciphertext_fragment record;
  grec3_encrypted_dek_share := grec3_encrypted_dek_share record;
  grec3_merkle_path_proof := proof;
  grec3_custody_root := grec3_custody_root record;
  grec3_policy := {|
    gpol3_config_ref := gpol3_config_ref p;
    gpol3_epoch_state := gpol3_epoch_state p;
    gpol3_signer_set_commitment := gpol3_signer_set_commitment p;
    gpol3_signer_count := gpol3_signer_count p;
    gpol3_signer_threshold := gpol3_signer_threshold p;
    gpol3_owner_cancel_public_key := gpol3_owner_cancel_public_key p;
    gpol3_minimum_recovery_delay := gpol3_minimum_recovery_delay p;
    gpol3_guardian_material_root := root;
    gpol3_dpss_suite := gpol3_dpss_suite p;
    gpol3_dpss_public_commitment := gpol3_dpss_public_commitment p;
    gpol3_predecessor_capsule_hash := gpol3_predecessor_capsule_hash p;
    gpol3_activation_qc_hash := gpol3_activation_qc_hash p;
    gpol3_drain_deadline := gpol3_drain_deadline p
  |}
|}.

Definition prepared_ack (plan : RotationPlan) (plan_hash dpss_result_commitment root : Id32)
    (index : u16) (leaf : PreparedRecordLeaf) (generation : u64) (signature : list byte) :
    NewGuardianPreparedAck := {|
  ngpa_context := plan_context plan;
  ngpa_plan_hash := plan_hash;
  ngpa_dpss_result_commitment := dpss_result_commitment;
  ngpa_guardian_material_root := root;
  ngpa_new_guardian_index := index;
  ngpa_prepared_record_leaf := leaf;
  ngpa_durable_write_generation := generation;
  ngpa_guardian_signature := signature
|}.

Definition prepare_commit (identity_seed : Id32) (plan : RotationPlan)
    (guardian_material_root : Id32) (merkle_path_proof : list byte)
    (dpss_result_commitment : Id32) : Step GuardianRotationResponseV3 :=
  entry ← entry_of;
  route ← try (guardian_route entry plan true);
  let index := gr3_guardian_index route in
  let signing_seed := grp_signing_seed (gre_provision entry) in
  session ← try (session_mut entry plan);
  let session_plan_hash := grs_plan_hash session in
  staged ← present (grs_staged_material session)
    "guardian has no staged successor material";
  leaf_transcript ← try (wire (prepared_record_leaf_v3 (sgm_leaf staged)));
  position ← present (route_position (plan_new_roster plan) index)
    "successor route is absent";
  _ ← bail_if ((sgm_dpss_result_commitment staged !=? dpss_result_commitment)
      || (guardian_material_root ==? brep 32 x00))%mr
    "durable successor record differs from locally staged material";
  _ ← try (crypto (merkle_verify guardian_material_root (sha256 leaf_transcript)
    (N.of_nat position) (len (plan_new_roster plan)) merkle_path_proof));
  let draft := sgm_record_draft staged in
  _ ← bail_if ((grec3_guardian_index draft !=? index)
      || (grec3_fragment_index draft !=? prl_fragment_index (sgm_leaf staged))
      || (grec3_opaque_slot_id draft !=? gr3_opaque_slot_id route)
      || (Epochs.record_config draft !=? plan_successor plan)
      || (gpol3_dpss_public_commitment (grec3_policy draft) !=? dpss_result_commitment))%mr
    "locally staged successor record is inconsistent";
  let record := committed_record draft guardian_material_root merkle_path_proof in
  custody ← try (crypto (custody_commit (custody_bytes (grec3_encrypted_dek_share record)
    (grec3_encrypted_ciphertext_fragment record))));
  _ ← bail_if (cust_root custody !=? grec3_custody_root record)%mr
    "successor custody commitment is invalid";
  nonce ← draw random_nonce;
  context ← try (local_journal_context plan index);
  journal_secret ← try (crypto (seal_local_rotation_journal identity_seed nonce
    (as_bytes "dpss-complete") context));
  let journal := {|
    Epochs.dj_rotation_id := ctx_rotation_id (plan_context plan);
    Epochs.dj_plan_hash := session_plan_hash;
    Epochs.dj_session_id := plan_dpss_session_id plan;
    Epochs.dj_qualified_set_digest := plan_dpss_qualified_set_commitment plan;
    Epochs.dj_phase := U16 6;
    Epochs.dj_next_sequence := U64 1;
    Epochs.dj_provider_public_journal := bytes_of dpss_result_commitment;
    Epochs.dj_encrypted_provider_secret_journal := journal_secret |} in
  generation ← store_call (λ store, Epochs.prepare_successor hex_encode store
    (ctx_rotation_id (plan_context plan)) session_plan_hash record journal);
  let ack := prepared_ack plan session_plan_hash dpss_result_commitment
    guardian_material_root index (sgm_leaf staged) generation in
  ack ← sign_with signing_seed (new_guardian_prepared_ack (ack [])) ack;
  let key := hex_encode (ctx_rotation_id (plan_context plan)) in
  entry ← entry_of;
  _ ← present (gre_sessions entry !! key) "rotation session disappeared during prepare";
  _ ← change (λ entry, with_sessions entry
        (alter (set_staged None) key (gre_sessions entry)));
  mret (GrPrepared ack).

Definition old_handoff_ack (plan : RotationPlan) (plan_hash dpss_result_commitment : Id32)
    (index : u16) (signature : list byte) : OldGuardianHandoffAck := {|
  ogha_context := plan_context plan;
  ogha_plan_hash := plan_hash;
  ogha_dpss_result_commitment := dpss_result_commitment;
  ogha_qualified_set_commitment := plan_dpss_qualified_set_commitment plan;
  ogha_old_guardian_index := index;
  ogha_guardian_signature := signature
|}.

Definition handoff_complete (plan : RotationPlan) (dpss_result_commitment : Id32) :
    Step GuardianRotationResponseV3 :=
  entry ← entry_of;
  route ← try (guardian_route entry plan false);
  let signing_seed := grp_signing_seed (gre_provision entry) in
  in_session plan (
    _ ← change (set_local_state None);
    session ← entry_of;
    let ack := old_handoff_ack plan (grs_plan_hash session) dpss_result_commitment
      (gr3_guardian_index route) in
    ack ← sign_with signing_seed (old_guardian_handoff_ack (ack [])) ack;
    mret (GrHandoff ack)).

(** ** Activation and retirement *)

(** The session's machine is taken to ACTIVE. *)
Definition activate_session (plan : RotationPlan) (drain_deadline : u64) : Step () :=
  in_session plan (
    session ← entry_of;
    _ ← advance_to_preparing (grs_not_before_monotonic session);
    count ← try (ok_or (try_u16 (len (plan_new_roster plan))) ETryFromInt);
    _ ← apply_event (EvPreparationComplete count count true true);
    _ ← apply_event (EvActivationAuthorized true true);
    apply_event (EvWitnessQcObserved true true drain_deadline)).

Definition activate (plan : RotationPlan) (activated_capsule : ConfigCapsuleV3)
    (drain_deadline : u64) : Step GuardianRotationResponseV3 :=
  entry ← entry_of;
  let unbound := "activation QC/capsule does not bind the exact plan"%string in
  let locally_pending := pending_old_recovery_ids entry in
  _ ← try (validate_activated_capsule_v3 (grp_recovery_card (gre_provision entry))
    activated_capsule);
  qc ← present (cap3_activation_qc activated_capsule)
    "activated successor capsule has no QC";
  qc_transcript ← try (wire (epoch_activation_qc qc));
  let qc_hash := sha256 qc_transcript in
  plan_transcript ← try (wire (rotation_plan plan));
  let plan_hash := sha256 plan_transcript in
  let predecessor := predecessor_capsule entry in
  _ ← bail_if ((cap3_config_ref activated_capsule !=? plan_successor plan)
      || (cap3_predecessor_capsule_hash activated_capsule !=? cap3_capsule_hash predecessor)
      || (cap3_ciphertext_fragment_root activated_capsule
          !=? cap3_ciphertext_fragment_root predecessor))%mr unbound;
  count ← try (ok_or (try_u16 (len (plan_new_roster plan))) ETryFromInt);
  _ ← bail_if ((cap3_guardian_count activated_capsule !=? count)
      || (cap3_guardian_threshold activated_capsule !=? plan_new_guardian_threshold plan)
      || (cap3_dpss_suite activated_capsule !=? plan_dpss_suite plan)
      || (qc_rotation_id qc !=? ctx_rotation_id (plan_context plan)))%mr unbound;
  let successor := is_ok (guardian_route entry plan true) in
  _ ← (if successor then
         prepared ← present (Epochs.ges_prepared (epoch_store entry))
           "successor guardian has no locally prepared record";
         let policy := grec3_policy (Epochs.pge_record prepared) in
         bail_if ((gpol3_config_ref policy !=? cap3_config_ref activated_capsule)
             || (gpol3_guardian_material_root policy
                 !=? cap3_guardian_material_root activated_capsule)
             || (gpol3_dpss_public_commitment policy
                 !=? cap3_dpss_public_commitment activated_capsule))%mr
           "activated capsule differs from the guardian's prepared record"
       else mret ());
  _ ← activate_session plan drain_deadline;
  let id := ctx_rotation_id (plan_context plan) in
  _ ← store_call (λ store,
        if successor
        then Epochs.activate_successor hex_encode store id plan_hash qc qc_hash drain_deadline
               locally_pending
        else Epochs.observe_replacement_activation hex_encode store id plan_hash qc qc_hash
               drain_deadline locally_pending);
  _ ← change (λ entry, with_provision entry (epoch_store entry) activated_capsule);
  _ ← remove_session plan;
  mret (GrActivated (cr_guardian_epoch (plan_successor plan))).

Definition retirement_ack_of (notice : RetirementNotice) (qc_hash : Id32)
    (guardian_index : u16) (tombstone_hash : Id32) (signature : list byte) :
    RetirementAck := {|
  rack_context := rn_context notice;
  rack_plan_hash := rn_plan_hash notice;
  rack_activation_qc_hash := qc_hash;
  rack_guardian_index := guardian_index;
  rack_retired_epoch := rn_retired_epoch notice;
  rack_tombstone_hash := tombstone_hash;
  rack_guardian_signature := signature
|}.

Definition retire (notice : RetirementNotice) (monotonic_now : u64) :
    Step GuardianRotationResponseV3 :=
  entry ← entry_of;
  qc ← present (Epochs.ges_activation_qc (epoch_store entry))
    "guardian has not observed an activation QC";
  qc_transcript ← try (wire (epoch_activation_qc qc));
  let qc_hash := sha256 qc_transcript in
  _ ← bail_if ((rn_activation_qc_hash notice !=? qc_hash)
      || (rn_retired_epoch notice !=? qc_predecessor_epoch qc)
      || (monotonic_now <? rn_drain_deadline notice))%mr
    "retirement notice is early or QC-mismatched";
  draining ← present (Epochs.ges_draining (epoch_store entry) !! rn_retired_epoch notice)
    "retired epoch is not draining";
  let guardian_index := grec3_guardian_index (Epochs.dge_record draining) in
  tombstone_hash ← store_call (λ store,
    Epochs.retire_epoch store (rn_retired_epoch notice) monotonic_now);
  let ack := retirement_ack_of notice qc_hash guardian_index tombstone_hash in
  ack ← sign_with (grp_signing_seed (gre_provision entry)) (retirement_ack (ack [])) ack;
  mret (GrRetired ack).

(** ** The handler *)

Definition handle_guardian_rotation_v3 (identity_seed : Id32)
    (request : GuardianRotationRequestV3) (wall_now monotonic_now : u64) (boot_id : string)
    (allow_insecure_demo_delay : bool) : Step GuardianRotationResponseV3 :=
  let context := guardian_context request in
  entry ← entry_of;
  _ ← bail_if ((ctx_protocol_version context !=? PROTOCOL_VERSION_V3)
      || (cr_config_id (ctx_config_ref context)
          !=? cr_config_id (cap3_config_ref (predecessor_capsule entry)))
      || (wall_now <? ctx_issued_at context)
      || (ctx_expiry context <=? wall_now)
      || (len (ctx_recipient_key context) !=? XWING_PUBLIC_KEY_LEN))%mr
    "guardian rejected malformed or expired rotation context";
  match request with
  | GrBegin plan certificate =>
      handle_begin identity_seed plan certificate wall_now monotonic_now boot_id
        allow_insecure_demo_delay
  | GrCancel plan certificate => handle_cancel plan certificate wall_now
  | GrRepairRound1 plan begin_certificate release_certificate unlock_grant helper_ids
      replacement_id =>
      repair_round1 identity_seed plan begin_certificate release_certificate unlock_grant
        helper_ids replacement_id wall_now monotonic_now boot_id
  | GrRepairRound2 plan incoming replacement_id =>
      repair_round2 identity_seed plan incoming replacement_id
  | GrRepairFinalize plan incoming old_public_package =>
      repair_finalize identity_seed plan incoming old_public_package
  | GrRefreshRound1 plan begin_certificate release_certificate old_share_grant =>
      refresh_round1 identity_seed plan begin_certificate release_certificate old_share_grant
        wall_now monotonic_now boot_id
  | GrRefreshRound2 plan incoming => refresh_round2 identity_seed plan incoming
  | GrRefreshFinalize plan incoming old_public_package =>
      refresh_finalize identity_seed plan incoming old_public_package
  | GrStageMaterial plan wrap_grant fragment_index ciphertext_fragment
      ciphertext_fragment_proof policy opaque_slot_id =>
      stage_material identity_seed plan wrap_grant fragment_index ciphertext_fragment
        ciphertext_fragment_proof policy opaque_slot_id
  | GrPrepareCommit plan guardian_material_root merkle_path_proof dpss_result_commitment =>
      prepare_commit identity_seed plan guardian_material_root merkle_path_proof
        dpss_result_commitment
  | GrHandoffComplete plan dpss_result_commitment =>
      handoff_complete plan dpss_result_commitment
  | GrActivate plan activated_capsule drain_deadline =>
      activate plan activated_capsule drain_deadline
  | GrAbort plan certificate => handle_abort plan certificate wall_now
  | GrRetire notice monotonic_now => retire notice monotonic_now
  end.

End runtime.

End GuardianRuntime.
