(* ===== verification/GuardianSpec.v ===== *)
(** What one call does to the entry of a protocol-v3 guardian, for every
    request and on every branch; GuardianHistory.v puts calls together. *)

From S2P Require Export Actors GuardianRuntime.

Module GuardianSpec.
Import Epochs GuardianRecovery GuardianSession GuardianRuntime.

Abbreviation tombstones e := (ges_recovery_cancellation_tombstones (epoch_store e)).
Abbreviation closed e := (ges_rotation_tombstones (epoch_store e)).

(** ** What a rotation leaves alone: the recoveries *)

Definition same_recoveries (e e' : GuardianRotationEntryV3) : Prop :=
  gre_recoveries e' = gre_recoveries e ∧ tombstones e' = tombstones e.

#[export] Instance same_recoveries_preorder : PreOrder same_recoveries.
Proof. split; [by intros e | intros e1 e2 e3 [] []; split; congruence]. Qed.

Section rotations.
Context `{Prims : Primitives} `{Sharing : SharingPrimitives} `{Frost : FrostPrimitives}.
Context `{Protocol : ProtocolPrimitives} `{Runtime : RuntimePrimitives}.

Abbreviation Step A := (Act GuardianRotationEntryV3 A).

Lemma same_in_session {A} plan (m : Act GuardianRotationSessionV3 A) :
  respects same_recoveries (in_session plan m).
Proof.
  intros s. unfold in_session. destruct (session_mut s.1 plan); [| done].
  by destruct (m _) as [r [session rng]].
Qed.

Lemma same_store_call {A} (f : GuardianEpochStore → Result StorageError A * GuardianEpochStore) :
  (∀ s, ges_recovery_cancellation_tombstones (f s).2
        = ges_recovery_cancellation_tombstones s) →
  respects same_recoveries (store_call f).
Proof.
  intros Hf. apply respects_stored. intros e. specialize (Hf (epoch_store e)).
  by destruct (f (epoch_store e)).
Qed.

Lemma same_change f :
  (∀ e, same_recoveries e (f e)) → respects same_recoveries (change f).
Proof. intros Hf. apply respects_read. intros e rng. apply Hf. Qed.

Lemma same_abort_prepared s id h :
  ges_recovery_cancellation_tombstones (abort_prepared hex_encode s id h).2
  = ges_recovery_cancellation_tombstones s.
Proof. unfold abort_prepared. by repeat case_match. Qed.
Lemma same_prepare_successor s id h r j :
  ges_recovery_cancellation_tombstones (prepare_successor hex_encode s id h r j).2
  = ges_recovery_cancellation_tombstones s.
Proof. unfold prepare_successor. by repeat case_match. Qed.
Lemma same_activate_successor s id h qc qh d p :
  ges_recovery_cancellation_tombstones (activate_successor hex_encode s id h qc qh d p).2
  = ges_recovery_cancellation_tombstones s.
Proof. unfold activate_successor. by repeat case_match. Qed.
Lemma same_observe s id h qc qh d p :
  ges_recovery_cancellation_tombstones
    (observe_replacement_activation hex_encode s id h qc qh d p).2
  = ges_recovery_cancellation_tombstones s.
Proof. unfold observe_replacement_activation. by repeat case_match. Qed.
Lemma same_retire s g m :
  ges_recovery_cancellation_tombstones (retire_epoch s g m).2
  = ges_recovery_cancellation_tombstones s.
Proof. unfold retire_epoch. by repeat case_match. Qed.

(** One step of code that leaves the recoveries alone. *)
Ltac same_step :=
  respects_step_with ltac:(idtac;
    lazymatch goal with
    | |- respects _ (in_session _ _) => apply same_in_session
    | |- respects _ (store_call _) =>
        apply same_store_call; intros ?;
        first [ apply same_abort_prepared | apply same_prepare_successor | apply same_retire
              | destruct (is_ok _); [apply same_activate_successor | apply same_observe] ]
    | |- respects _ (change _) => apply same_change; intros ?; done
    end).

Lemma rotation_keeps_recoveries seed request wall monotonic boot demo :
  respects same_recoveries
    (handle_guardian_rotation_v3 seed request wall monotonic boot demo).
Proof.
  unfold handle_guardian_rotation_v3, handle_begin, handle_cancel, repair_round1, repair_round2, repair_finalize,
      refresh_round1, refresh_round2, refresh_finalize, stage_material, prepare_commit,
      handoff_complete, activate, activate_session, handle_abort, retire, cancel_session,
      remove_session.
  repeat same_step.
Qed.

End rotations.

(** ** What a recovery request does *)

(** A request and its delay stay, and so do a cancellation and a release. *)
Record kept (p p' : PendingNetworkRecoveryV3) : Prop := mkKept {
  kept_request : pn3_request p' = pn3_request p;
  kept_digest : pn3_request_digest p' = pn3_request_digest p;
  kept_not_before : pn3_not_before_monotonic p' = pn3_not_before_monotonic p;
  kept_boot : pn3_boot_id p' = pn3_boot_id p;
  kept_cancelled : pn3_cancelled p = true → pn3_cancelled p' = true;
  kept_released : pn3_released p = true → pn3_released p' = true
}.

#[export] Instance kept_preorder : PreOrder kept.
Proof. split; [by intros p | intros p1 p2 p3 [] []; split; auto; congruence]. Qed.

Record extends (e e' : GuardianRotationEntryV3) : Prop := mkExtends {
  ext_pending k p : gre_recoveries e !! k = Some p →
    ∃ p', gre_recoveries e' !! k = Some p' ∧ kept p p';
  ext_tombstones k : is_Some (tombstones e !! k) → is_Some (tombstones e' !! k)
}.

#[export] Instance extends_preorder : PreOrder extends.
Proof.
  split; [intros e; split; [| done]; intros k p ?; by exists p |].
  intros e1 e2 e3 [P1 T1] [P2 T2]. split; [| auto]. intros k p Hp.
  destruct (P1 k p Hp) as (p2 & Hp2 & K1). destruct (P2 k p2 Hp2) as (p3 & Hp3 & K2).
  exists p3. split; [done | by etrans].
Qed.

Lemma same_extends e e' : same_recoveries e e' → extends e e'.
Proof. intros [Hr Ht]. split; rewrite ?Hr, ?Ht; [| done]. intros k p ?. by exists p. Qed.

(** The entry of a request is [p]. *)
Definition at_request `{Protocol : ProtocolPrimitives} (e : GuardianRotationEntryV3)
    (request : RecoveryRequestV3) : option PendingNetworkRecoveryV3 :=
  gre_recoveries e !! hex_encode (rr3_request_id request).

(** Nothing of a request can be released. *)
Definition barred `{Protocol : ProtocolPrimitives} (e : GuardianRotationEntryV3)
    (request : RecoveryRequestV3) : Prop :=
  is_Some (tombstones e !! hex_encode (rr3_request_id request))
  ∧ ∀ p, at_request e request = Some p → pn3_cancelled p = true.

Record Call : Type := mkCall {
  cl_seed : Id32;
  cl_wall : u64;
  cl_monotonic : u64;
  cl_boot : string;
  cl_demo : bool;
  cl_request : GuardianRotationRequestV3 + GuardianRecoveryRequestV3
}.

Section recoveries.
Context `{Prims : Primitives} `{Sharing : SharingPrimitives} `{Frost : FrostPrimitives}.
Context `{Protocol : ProtocolPrimitives} `{Runtime : RuntimePrimitives}.

Abbreviation Step A := (Act GuardianRotationEntryV3 A).
Abbreviation Response := (GuardianRotationResponseV3 + GuardianRecoveryResponseV3)%type.

(** A request at either mailbox of a guardian. *)
Definition call (c : Call) : Step Response :=
  match cl_request c with
  | inl request =>
      r ← handle_guardian_rotation_v3 (cl_seed c) request (cl_wall c) (cl_monotonic c)
        (cl_boot c) (cl_demo c);
      mret (inl r)
  | inr request =>
      r ← handle_guardian_recovery_v3 request (cl_wall c) (cl_monotonic c) (cl_boot c)
        (cl_demo c);
      mret (inr r)
  end.

(** What the answer to a recovery request says of the entry before and after. *)
Definition answered (c : Call) (request : GuardianRecoveryRequestV3)
    (a : GuardianRecoveryResponseV3) (e e' : GuardianRotationEntryV3) : Prop :=
  match request, a with
  | GvBegin certificate, GvBeginAccepted not_before =>
      ∃ p, at_request e' (brc3_request certificate) = Some p
      ∧ pn3_request p = brc3_request certificate ∧ pn3_not_before_monotonic p = not_before
  | GvCancel request _, GvCancelled _ =>
      barred e' request
      ∧ (∀ p, at_request e request = Some p → pn3_released p = false)
  | GvRelease request certificate, GvContribution contribution =>
      grc3_request_id contribution = rr3_request_id request
      ∧ ∃ p p', at_request e request = Some p ∧ at_request e' request = Some p'
      ∧ pn3_request p = request
      ∧ validate_recovery_release_certificate_for_ref_v3 certificate (predecessor_capsule e)
          (rr3_config_ref request) (cl_wall c) = Ok (pn3_request_digest p)
      ∧ pn3_cancelled p = false ∧ pn3_released p = false ∧ pn3_released p' = true
      ∧ pn3_boot_id p = cl_boot c ∧ (pn3_not_before_monotonic p ≤ cl_monotonic c)%N
      ∧ (cl_wall c < rr3_expiry request)%N
      ∧ is_ok (record_for_request e (rr3_config_ref request) (rr3_request_id request) true)
        = true
  | _, _ => False
  end.

(** The Begin that made [p] the request of [key]. *)
Definition begun (c : Call) (r : Result Error Response) (e : GuardianRotationEntryV3)
    (key : string) (p : PendingNetworkRecoveryV3) : Prop :=
  ∃ certificate record,
    cl_request c = inr (GvBegin certificate)
  ∧ r = Ok (inr (GvBeginAccepted (pn3_not_before_monotonic p)))
  ∧ pn3_request p = brc3_request certificate
  ∧ key = hex_encode (rr3_request_id (pn3_request p))
  ∧ gre_recoveries e !! key = None ∧ tombstones e !! key = None
  ∧ validate_begin_recovery_certificate_v3 certificate (predecessor_capsule e) (cl_wall c)
    = Ok (pn3_request_digest p)
  ∧ ges_active (epoch_store e) = Some record
  ∧ record_config record = rr3_config_ref (pn3_request p)
  ∧ pn3_boot_id p = cl_boot c
  ∧ pn3_not_before_monotonic p = sat_add (cl_monotonic c)
      (local_delay (cl_demo c) (gpol3_minimum_recovery_delay (grec3_policy record)))
  ∧ pn3_cancelled p = false ∧ pn3_released p = false
  ∧ ∀ k p0, gre_recoveries e !! k = Some p0 →
      rr3_nonce (pn3_request p0) ≠ rr3_nonce (pn3_request p).

Record called (c : Call) (r : Result Error Response) (e e' : GuardianRotationEntryV3) : Prop :=
  mkCalled {
  called_extends : extends e e';
  called_origin k p' : gre_recoveries e' !! k = Some p' →
    (∃ p, gre_recoveries e !! k = Some p ∧ kept p p') ∨ begun c r e k p';
  called_answer : match r with
    | Ok (inr a) => ∃ request, cl_request c = inr request ∧ answered c request a e e'
    | Ok (inl _) | Err _ => True
    end
}.

(** A call that leaves the recoveries as they are. *)
Lemma called_same c r e e' :
  same_recoveries e e' →
  match r with
  | Ok (inr a) => ∃ request, cl_request c = inr request ∧ answered c request a e e'
  | _ => True
  end → called c r e e'.
Proof.
  intros Hs Ha. split; [by apply same_extends | | done]. intros k p'. destruct Hs as [-> _].
  intros Hp. left. by exists p'.
Qed.

Ltac wp_step :=
  wp_step_with ltac:(fun m =>
    lazymatch m with stored _ => apply wp_stored; [intros ? ? | intros ? ?] end).

(** Recoveries seen from inside the handler. *)
Definition spec (c : Call) (e : GuardianRotationEntryV3)
    (r : Result Error GuardianRecoveryResponseV3) (s' : GuardianRotationEntryV3 * Rng) : Prop :=
  called c (r ← r; Ok (inr r)) e s'.1.

Lemma spec_stops c s : stops (spec c s.1) s.
Proof. intros e. by apply called_same. Qed.

Lemma nonce_fresh e nonce :
  nonce_pending e nonce = false →
  ∀ k p, gre_recoveries e !! k = Some p → rr3_nonce (pn3_request p) ≠ nonce.
Proof.
  unfold nonce_pending. intros Hn k p Hp <-. apply not_true_iff_false in Hn. apply Hn.
  apply existsb_exists. exists (k, p). split; [| by apply bool_decide_eq_true].
  by apply list_elem_of_In, elem_of_map_to_list.
Qed.

Lemma recovery_begin_spec c certificate s :
  cl_request c = inr (GvBegin certificate) →
  wp (GuardianRecovery.handle_begin certificate (cl_wall c) (cl_monotonic c) (cl_boot c)
    (cl_demo c)) (spec c s.1) s.
Proof.
  intros Hc. unfold GuardianRecovery.handle_begin.
  repeat wp_step; try apply spec_stops; checks.
  - apply called_same; [done |]. eexists. split; [exact Hc |].
    match goal with p : PendingNetworkRecoveryV3 |- _ => exists p end. by split_and!.
  - match goal with H : bool_decide (is_Some _) = false |- _ => apply not_Some in H end.
    set (key := hex_encode (rr3_request_id (brc3_request certificate))) in *.
    split; cbn.
    + split; [| done]. intros k p Hk. exists p. split; [| done]. cbn.
      rewrite lookup_insert_ne; [done | congruence].
    + intros k p' [[<- <-] | [? Hk]]%lookup_insert_Some; [| by left; exists p'].
      right. do 2 eexists. split_and!; try done. by apply nonce_fresh.
    + eexists. split; [exact Hc |]. eexists. split; [apply lookup_insert_eq | done].
Qed.

Lemma kept_mark p c r :
  (pn3_cancelled p = true → c = true) → (pn3_released p = true → r = true) →
  kept p (mark_pending p c r).
Proof. by split. Qed.

(** The two changes of a pending request. *)
Lemma changed_pending e e' key (f : PendingNetworkRecoveryV3 → PendingNetworkRecoveryV3) :
  (∀ p, kept p (f p)) →
  gre_recoveries e' = alter f key (gre_recoveries e) →
  (∀ k, is_Some (tombstones e !! k) → is_Some (tombstones e' !! k)) →
  extends e e'
  ∧ ∀ k p', gre_recoveries e' !! k = Some p' → ∃ p, gre_recoveries e !! k = Some p ∧ kept p p'.
Proof.
  intros Hf Hr Ht. split; [split; [| done] |]; rewrite Hr.
  - intros k p Hp. destruct (decide (key = k)) as [<- |].
    + exists (f p). by rewrite lookup_alter_eq, Hp.
    + exists p. by rewrite lookup_alter_ne.
  - intros k p' [[<- (p & Hp & ->)] | [? Hp]]%lookup_alter_Some; by eexists.
Qed.

Definition cancelled_entry (e : GuardianRotationEntryV3) (key : string) (digest : Id32) :
    GuardianRotationEntryV3 :=
  with_recoveries (with_epoch_store e (set_recovery_tombstone (epoch_store e) key digest))
    (alter (λ pending, mark_pending pending true (pn3_released pending)) key
      (gre_recoveries e)).

Lemma cancelled_pending e key digest :
  extends e (cancelled_entry e key digest)
  ∧ ∀ k p', gre_recoveries (cancelled_entry e key digest) !! k = Some p' →
    ∃ p, gre_recoveries e !! k = Some p ∧ kept p p'.
Proof.
  apply (changed_pending e _ key (λ p, mark_pending p true (pn3_released p))); [| done |].
  - intros p. by apply kept_mark.
  - intros k Hk. cbn. destruct (decide (key = k)) as [<- |].
    + rewrite lookup_insert_eq. eauto.
    + by rewrite lookup_insert_ne.
Qed.

Lemma cancelled_barred e request digest :
  barred (cancelled_entry e (hex_encode (rr3_request_id request)) digest) request.
Proof.
  split; cbn; [rewrite lookup_insert_eq; eauto |]. unfold at_request. cbn.
  by intros p [[_ (p0 & _ & ->)] | [? _]]%lookup_alter_Some.
Qed.

Lemma called_changed c r e e' :
  extends e e' ∧ (∀ k p', gre_recoveries e' !! k = Some p' →
    ∃ p, gre_recoveries e !! k = Some p ∧ kept p p') →
  match r with
  | Ok (inr a) => ∃ request, cl_request c = inr request ∧ answered c request a e e'
  | _ => True
  end → called c r e e'.
Proof. intros [He Ho] Ha. split; [done | | done]. intros k p' Hp. left. by apply Ho. Qed.

Lemma recovery_cancel_spec c request certificate s :
  cl_request c = inr (GvCancel request certificate) →
  wp (GuardianRecovery.handle_cancel request certificate (cl_wall c)) (spec c s.1) s.
Proof.
  intros Hc. unfold GuardianRecovery.handle_cancel.
  repeat wp_step; try apply spec_stops; checks;
    try (intros e; apply called_changed; [apply cancelled_pending | done]).
  all: apply called_changed; [apply cancelled_pending |].
  all: eexists; split; [exact Hc |]; split; [apply cancelled_barred |].
  all: intros q Hq; unfold at_request in Hq; congruence.
Qed.

Lemma same_finish s g id :
  ges_recovery_cancellation_tombstones (finish_draining_request s g id).2
  = ges_recovery_cancellation_tombstones s.
Proof. unfold finish_draining_request. by repeat case_match. Qed.

Lemma finish_draining_epoch e g id :
  same_recoveries e
    (let '(r, store) := finish_draining_request (epoch_store e) g id in
     (r, with_epoch_store e store)).2.
Proof.
  pose proof (same_finish (epoch_store e) g id) as H.
  by destruct (finish_draining_request (epoch_store e) g id) as [r' store].
Qed.

Lemma released_called c request certificate record e e' p :
  cl_request c = inr (GvRelease request certificate) →
  at_request e request = Some p → pn3_request p = request →
  validate_recovery_release_certificate_for_ref_v3 certificate (predecessor_capsule e)
    (rr3_config_ref request) (cl_wall c) = Ok (pn3_request_digest p) →
  record_for_request e (rr3_config_ref request) (rr3_request_id request) true = Ok record →
  pn3_cancelled p = false → pn3_released p = false →
  pn3_boot_id p = cl_boot c → (pn3_not_before_monotonic p ≤ cl_monotonic c)%N →
  (cl_wall c < rr3_expiry request)%N →
  same_recoveries (with_recoveries e (<[hex_encode (rr3_request_id request) :=
    mark_pending p (pn3_cancelled p) true]> (gre_recoveries e))) e' →
  ∀ r, (∀ a, r = Ok (inr a) → ∃ contribution, a = GvContribution contribution
    ∧ grc3_request_id contribution = rr3_request_id request) →
  called c r e e'.
Proof.
  intros Hc Hp Hreq Hv Hrec Hnc Hnr Hb Hm Hw [Hr Ht] r Ha.
  assert (Halt : gre_recoveries e' = alter (λ p, mark_pending p (pn3_cancelled p) true)
    (hex_encode (rr3_request_id request)) (gre_recoveries e)).
  { rewrite Hr. cbn. by apply (insert_alter (λ p, mark_pending p (pn3_cancelled p) true)). }
  apply called_changed.
  - apply (changed_pending e e' _ _ (λ p, kept_mark p _ true (λ H, H) (λ _, eq_refl)) Halt).
    by rewrite Ht.
  - destruct r as [[|a] |]; [done | | done]. destruct (Ha a eq_refl) as (contribution & -> & Hid).
    eexists. split; [exact Hc |]. split; [done |].
    exists p, (mark_pending p (pn3_cancelled p) true). rewrite Hrec. split_and!; try done.
    unfold at_request. rewrite Hr. apply lookup_insert_eq.
Qed.

Lemma recovery_release_spec c request certificate s :
  cl_request c = inr (GvRelease request certificate) →
  wp (GuardianRecovery.handle_release request certificate (cl_wall c) (cl_monotonic c)
    (cl_boot c)) (spec c s.1) s.
Proof.
  intros Hc. unfold GuardianRecovery.handle_release.
  repeat wp_step; try apply spec_stops; checks.
  all: unfold stops, spec; cbn; intros; subst.
  all: eapply (released_called c _ certificate _ _ _ _ Hc); try done.
  all: try (intros ? [= <-]; by eexists).
  all: try apply (finish_draining_epoch (with_recoveries _ _)).
Qed.

Lemma recovery_call_spec c request s :
  cl_request c = inr request →
  wp (handle_guardian_recovery_v3 request (cl_wall c) (cl_monotonic c) (cl_boot c) (cl_demo c))
    (spec c s.1) s.
Proof.
  intros Hc. unfold handle_guardian_recovery_v3. wp_step; [apply spec_stops |].
  destruct request; [by apply recovery_begin_spec | by apply recovery_cancel_spec | by apply recovery_release_spec].
Qed.

(** A call, whatever it answers. *)
Lemma guardian_call_spec c s : wp (call c) (λ r s', called c r s.1 s'.1) s.
Proof.
  unfold call. destruct (cl_request c) as [request | request] eqn:Hc; apply wp_bind.
  - pose proof (rotation_keeps_recoveries (cl_seed c) request (cl_wall c) (cl_monotonic c)
      (cl_boot c) (cl_demo c) s) as H.
    unfold wp. destruct (handle_guardian_rotation_v3 _ _ _ _ _ _ s) as [[a | e] s'];
      by apply called_same.
  - eapply wp_mono; [by apply recovery_call_spec |]. by intros [a | e] s'.
Qed.

End recoveries.

End GuardianSpec.
