(* ===== verification/GuardianHistory.v ===== *)
(** Histories of a protocol-v3 guardian: what stays in its entry over any
    sequence of requests to its two mailboxes. *)

From S2P Require Export GuardianSpec.

Module GuardianHistory.
Import Epochs GuardianRecovery GuardianSession GuardianRuntime GuardianSpec.

Section histories.
Context `{Prims : Primitives} `{Sharing : SharingPrimitives} `{Frost : FrostPrimitives}.
Context `{Protocol : ProtocolPrimitives} `{Runtime : RuntimePrimitives}.

Abbreviation key_of request := (hex_encode (rr3_request_id request)).

Lemma history_extends e0 h e : did call e0 h e → extends e0 e.
Proof.
  apply (did_preorder call extends). intros request s.
  eapply wp_mono; [apply guardian_call_spec |]. by intros r s' [? _ _].
Qed.

(** A call inside a history. *)
Lemma guardian_history_at e0 h1 c r h2 e :
  did call e0 (h1 ++ (c, r) :: h2) e →
  ∃ e1 e2, did call e0 h1 e1 ∧ called c r e1 e2 ∧ did call e2 h2 e.
Proof.
  intros (e1 & H1 & H)%did_split. apply (did_split call e1 [_]) in H as (e2 & H & H2).
  apply did_one in H as (rng & rng' & H). exists e1, e2. split_and!; [done | | done].
  apply (wp_run _ _ _ _ _ (guardian_call_spec c (e1, rng)) H).
Qed.

(** Every pending request comes from a Begin of the history. *)
Lemma history_origin e0 h e k p :
  did call e0 h e → gre_recoveries e0 = ∅ → gre_recoveries e !! k = Some p →
  ∃ h1 c r h2 e1 p0, h = h1 ++ (c, r) :: h2 ∧ did call e0 h1 e1 ∧ begun c r e1 k p0
    ∧ kept p0 p.
Proof.
  intros H H0. revert p. induction H as [| h e c rng r e' rng' H IH Hs]; intros p Hp.
  { rewrite H0, lookup_empty in Hp. discriminate. }
  pose proof (wp_run _ _ _ _ _ (guardian_call_spec c (e, rng)) Hs) as [_ Ho _].
  destruct (Ho k p Hp) as [(p1 & Hp1 & Hk) | Hb].
  - destruct (IH p1 Hp1) as (h1 & c0 & r0 & h2 & e1 & p0 & -> & H1 & Hb & Hk').
    exists h1, c0, r0, (h2 ++ [(c, r)]), e1, p0.
    split_and!; [by rewrite <- app_assoc | done | done | by etrans].
  - by exists h, c, r, [], e, p.
Qed.

Lemma called_barred c r e e' request : called c r e e' → barred e request → barred e' request.
Proof.
  intros [[_ Ht] Ho _] [Hx Hp]. split; [by apply Ht |]. intros p' Hp'.
  destruct (Ho _ _ Hp') as [(p & Hp0 & Hk) | (certificate & record & Hb)].
  - apply Hk. by apply Hp.
  - destruct Hb as (_ & _ & _ & _ & _ & Hn & _). destruct Hx. congruence.
Qed.

Lemma history_barred e0 h e request : did call e0 h e → barred e0 request → barred e request.
Proof.
  induction 1 as [| h e c rng r e' rng' H IH Hs]; [done |]. intros Hb.
  eapply called_barred; [| by apply IH].
  apply (wp_run _ _ _ _ _ (guardian_call_spec c (e, rng)) Hs).
Qed.

(** A contribution is made from a pending request, which is released then. *)
Lemma contributed c contribution e e' :
  called c (Ok (inr (GvContribution contribution))) e e' →
  ∃ request certificate p p', cl_request c = inr (GvRelease request certificate)
  ∧ grc3_request_id contribution = rr3_request_id request
  ∧ at_request e request = Some p ∧ at_request e' request = Some p'
  ∧ pn3_request p = request
  ∧ validate_recovery_release_certificate_for_ref_v3 certificate (predecessor_capsule e)
      (rr3_config_ref request) (cl_wall c) = Ok (pn3_request_digest p)
  ∧ pn3_cancelled p = false ∧ pn3_released p = false ∧ pn3_released p' = true
  ∧ pn3_boot_id p = cl_boot c ∧ (pn3_not_before_monotonic p ≤ cl_monotonic c)%N
  ∧ (cl_wall c < rr3_expiry request)%N.
Proof.
  intros [_ _ (request & Hq & Ha)]. destruct request; [done | done |].
  destruct Ha as (? & p & p' & ? & ? & ? & ? & ? & ? & ? & ? & ? & ? & _).
  exists request, certificate, p, p'. by split_and!.
Qed.

(** Once released, a request stays so. *)
Lemma history_released e0 h e request c contribution :
  did call e0 h e → (c, Ok (inr (GvContribution contribution))) ∈ h →
  grc3_request_id contribution = rr3_request_id request →
  ∃ p, at_request e request = Some p ∧ pn3_released p = true.
Proof.
  intros H (h1 & h2 & ->)%list_elem_of_split Hid.
  apply guardian_history_at in H as (e1 & e2 & _ & Hc & H).
  apply contributed in Hc as (request' & ? & _ & p' & _ & Hid' & _ & Hp' & _ & _ & _ & _ & Hr & _).
  destruct (ext_pending _ _ (history_extends _ _ _ H) _ _ Hp') as (p & Hp & Hk).
  exists p. split; [| by apply Hk]. unfold at_request in *. by rewrite <- Hid, Hid'.
Qed.

End histories.

End GuardianHistory.
