(* ===== verification/GuardianRotationSpec.v ===== *)
(** What one call does to the rotations of a protocol-v3 guardian: its sessions
    and the tombstones of those that ended. *)

From S2P Require Export GuardianSpec.

Module GuardianRotationSpec.
Import Epochs GuardianRecovery GuardianSession GuardianRuntime GuardianSpec.

(** ** Sessions *)

(** Whose rotation a machine is. *)
Definition machine_ids (m : Rotation.RotationMachine) : Id32 * Id32 :=
  (Rotation.rot_rotation_id m, Rotation.rot_plan_hash m).

Lemma apply_ids m event : machine_ids (Rotation.apply m event).2 = machine_ids m.
Proof. unfold Rotation.apply. by repeat case_match. Qed.

(** What Begin fixed of a session stays. *)
Record fixed (s s' : GuardianRotationSessionV3) : Prop := mkFixed {
  fixed_plan : grs_plan_hash s' = grs_plan_hash s;
  fixed_begin : grs_begin_certificate_hash s' = grs_begin_certificate_hash s;
  fixed_not_before : grs_not_before_monotonic s' = grs_not_before_monotonic s;
  fixed_boot : grs_boot_id s' = grs_boot_id s;
  fixed_machine : machine_ids (grs_rotation_machine s') = machine_ids (grs_rotation_machine s)
}.

#[export] Instance fixed_preorder : PreOrder fixed.
Proof. split; [by intros s | intros s1 s2 s3 [] []; split; congruence]. Qed.

Section sessions.
Context `{Prims : Primitives} `{Sharing : SharingPrimitives} `{Frost : FrostPrimitives}.
Context `{Protocol : ProtocolPrimitives} `{Runtime : RuntimePrimitives}.

Lemma fixed_change f : (∀ s, fixed s (f s)) → respects fixed (change f).
Proof. intros Hf. apply respects_read. intros s rng. apply Hf. Qed.

Lemma fixed_apply_event event : respects fixed (apply_event event).
Proof.
  intros [s rng]. unfold apply_event. cbn.
  pose proof (apply_ids (grs_rotation_machine s) event) as Hids.
  by destruct (Rotation.apply (grs_rotation_machine s) event).
Qed.

End sessions.

(** One step of code that keeps what Begin fixed; [other] is for calls. *)
Ltac fixed_step other :=
  respects_step_with ltac:(idtac;
    lazymatch goal with
    | |- respects _ (change _) => apply fixed_change; intros ?; done
    | |- respects _ (apply_event _) => apply fixed_apply_event
    | |- respects _ _ => other
    end).

Section calls.
Context `{Prims : Primitives} `{Sharing : SharingPrimitives} `{Frost : FrostPrimitives}.
Context `{Protocol : ProtocolPrimitives} `{Runtime : RuntimePrimitives}.

Lemma fixed_save_local_state seed plan i state :
  respects fixed (save_local_state seed plan i state).
Proof. unfold save_local_state. repeat fixed_step fail. Qed.

Lemma fixed_open_local_state seed plan i : respects fixed (open_local_state seed plan i).
Proof. unfold open_local_state. repeat fixed_step fail. Qed.

Lemma fixed_make_delivery seed plan i target phase payload :
  respects fixed (make_delivery seed plan i target phase payload).
Proof. unfold make_delivery. repeat fixed_step fail. Qed.

Lemma fixed_make_deliveries seed plan i roster unknown phase skip messages :
  respects fixed (make_deliveries seed plan i roster unknown phase skip messages).
Proof.
  induction messages as [| [recipient payload] messages IH]; simpl.
  - apply respects_ret, _.
  - case_bool_decide; [exact IH |].
    repeat fixed_step ltac:(first [apply fixed_make_delivery | exact IH]).
Qed.

Lemma fixed_broadcast seed plan i payload targets :
  respects fixed (broadcast seed plan i payload targets).
Proof.
  induction targets as [| target targets IH]; simpl; [apply respects_ret, _ |].
  repeat fixed_step ltac:(first [apply fixed_make_delivery | exact IH]).
Qed.

Lemma fixed_open_deliveries seed plan own keys phase senders incoming :
  respects fixed (open_deliveries_from seed plan own keys phase senders incoming).
Proof.
  revert senders. induction incoming as [| sealed incoming IH]; intros senders; simpl;
    [apply respects_ret, _ |].
  repeat fixed_step ltac:(apply IH).
Qed.

Lemma fixed_advance monotonic : respects fixed (advance_to_preparing monotonic).
Proof. unfold advance_to_preparing. repeat fixed_step fail. Qed.

End calls.

Ltac fixed_code :=
  repeat fixed_step ltac:(
    first [ apply fixed_save_local_state | apply fixed_open_local_state
          | apply fixed_make_delivery | apply fixed_make_deliveries | apply fixed_broadcast
          | apply fixed_open_deliveries | apply fixed_advance ]).

(** ** Entries *)

(** No rotation ends, and no session is made. *)
Record quiet (e e' : GuardianRotationEntryV3) : Prop := mkQuiet {
  quiet_closed : closed e' = closed e;
  quiet_sessions k s' : gre_sessions e' !! k = Some s' →
    ∃ s, gre_sessions e !! k = Some s ∧ fixed s s'
}.

#[export] Instance quiet_preorder : PreOrder quiet.
Proof.
  split; [intros e; split; [done |]; intros k s ?; by exists s |].
  intros e1 e2 e3 [C1 S1] [C2 S2]. split; [congruence |]. intros k s3 H3.
  destruct (S2 k s3 H3) as (s2 & H2 & F2). destruct (S1 k s2 H2) as (s1 & H1 & F1).
  exists s1. split; [done | by etrans].
Qed.

(** A rotation that has ended has no session. *)
Definition separate (e : GuardianRotationEntryV3) : Prop :=
  ∀ k, is_Some (closed e !! k) → gre_sessions e !! k = None.

Lemma quiet_separate e e' : quiet e e' → separate e → separate e'.
Proof.
  intros [Hc Hs] He k Hk. rewrite Hc in Hk. apply eq_None_not_Some. intros [s' Hs'].
  destruct (Hs k s' Hs') as (s & Hs0 & _). rewrite (He k Hk) in Hs0. discriminate.
Qed.

(** The tombstone of a rotation says once whether it was aborted. *)
Definition ended_aborted (e : GuardianRotationEntryV3) (k : string) : option bool :=
  (λ t, bool_decide (rt_terminal_state t = RotAborted)) <$> closed e !! k.

(** No session is made, and what has ended stays so. *)
Record moved (e e' : GuardianRotationEntryV3) : Prop := mkMoved {
  moved_sessions k s' : gre_sessions e' !! k = Some s' →
    ∃ s, gre_sessions e !! k = Some s ∧ fixed s s';
  moved_separate : separate e → separate e'
    ∧ ∀ k b, ended_aborted e k = Some b → ended_aborted e' k = Some b
}.

Lemma quiet_moved e e' : quiet e e' → moved e e'.
Proof.
  intros Hq. pose proof Hq as [Hc Hs]. split; [exact Hs |]. intros Hsep.
  split; [by eapply quiet_separate |]. intros k b. unfold ended_aborted. by rewrite Hc.
Qed.

Section rotations.
Context `{Prims : Primitives} `{Sharing : SharingPrimitives} `{Frost : FrostPrimitives}.
Context `{Protocol : ProtocolPrimitives} `{Runtime : RuntimePrimitives}.

Abbreviation Step A := (Act GuardianRotationEntryV3 A).
Abbreviation key_of plan := (hex_encode (ctx_rotation_id (plan_context plan))).

Lemma session_mut_Ok e plan s :
  session_mut e plan = Ok s →
  gre_sessions e !! key_of plan = Some s ∧ (∃ t, rotation_plan plan = Ok t ∧ grs_plan_hash s = sha256 t).
Proof.
  unfold session_mut. intros H. apply bind_Ok in H as (t & Ht%wire_Ok & H).
  apply bind_Ok in H as (s' & Hs%ok_or_Ok & H). rewrite guard_Ok in H. destruct H as [Hg [= ->]].
  checks. split; [done |]. by exists t.
Qed.

(** Code of a session, in the entry. *)
Lemma quiet_in_session {A} plan (m : Act GuardianRotationSessionV3 A) :
  respects fixed m → respects quiet (in_session plan m).
Proof.
  intros Hm s. unfold in_session. destruct (session_mut s.1 plan) as [session |] eqn:Es; [| done].
  apply session_mut_Ok in Es as (Es & _). specialize (Hm (session, s.2)).
  destruct (m (session, s.2)) as [r [session' rng]]. split; [done |]. cbn.
  intros k s' [[<- <-] | [? Hk]]%lookup_insert_Some; [by exists session | by exists s'].
Qed.

Lemma quiet_store_call {A} (f : GuardianEpochStore → Result StorageError A * GuardianEpochStore) :
  (∀ s, ges_rotation_tombstones (f s).2 = ges_rotation_tombstones s) →
  respects quiet (store_call f).
Proof.
  intros Hf. apply respects_stored. intros e. specialize (Hf (epoch_store e)).
  destruct (f (epoch_store e)) as [r store]. split; [done |]. intros k s ?. by exists s.
Qed.

Lemma quiet_prepare s id h r j :
  ges_rotation_tombstones (prepare_successor hex_encode s id h r j).2
  = ges_rotation_tombstones s.
Proof. unfold prepare_successor. by repeat case_match. Qed.
Lemma quiet_retire s g m :
  ges_rotation_tombstones (retire_epoch s g m).2 = ges_rotation_tombstones s.
Proof. unfold retire_epoch. by repeat case_match. Qed.

(** *** Operations that end nothing *)

(** A session of the plan satisfies [P]. *)
Definition uses (e : GuardianRotationEntryV3) (plan : RotationPlan)
    (P : GuardianRotationSessionV3 → Prop) : Prop :=
  ∃ s, gre_sessions e !! key_of plan = Some s
  ∧ (∃ t, rotation_plan plan = Ok t ∧ grs_plan_hash s = sha256 t) ∧ P s.

Definition working {A} (plan : RotationPlan) (P : GuardianRotationSessionV3 → Prop)
    (e : GuardianRotationEntryV3) (r : Result Error A) (s' : GuardianRotationEntryV3 * Rng) :
    Prop :=
  quiet e s'.1 ∧ (is_ok r = true → uses e plan P).

Lemma working_stops {A} plan P e s' : quiet e s'.1 → stops (working (A := A) plan P e) s'.
Proof. by intros Hq err. Qed.

Lemma wp_in_session {A} plan (m : Act GuardianRotationSessionV3 A) Q s :
  stops Q s →
  (∀ session, session_mut s.1 plan = Ok session →
     wp m (λ r s1, Q r (with_sessions s.1 (<[key_of plan := s1.1]> (gre_sessions s.1)), s1.2))
       (session, s.2)) →
  wp (in_session plan m) Q s.
Proof.
  intros He Hm. unfold wp, in_session in *. destruct (session_mut s.1 plan) as [session | err].
  - specialize (Hm session eq_refl). by destruct (m (session, s.2)) as [r [session' rng]].
  - apply He.
Qed.

Lemma quiet_update e k s s' :
  gre_sessions e !! k = Some s → fixed s s' →
  quiet e (with_sessions e (<[k := s']> (gre_sessions e))).
Proof.
  intros Hk Hf. split; [done |]. cbn.
  intros k' s1 [[<- <-] | [? Hk']]%lookup_insert_Some; [by exists s | by exists s1].
Qed.

(** Code of a session is entered from an entry that the operation has only
    worked on; [m] is its rest after the guards that show [P]. *)
Lemma working_session {A} plan (P : GuardianRotationSessionV3 → Prop)
    (m : Act GuardianRotationSessionV3 A) e s :
  quiet e s.1 →
  (∀ session, wp m (λ r s', fixed session s'.1
     ∧ (is_ok r = true → ∀ s0, fixed s0 session → P s0)) (session, s.2)) →
  wp (in_session plan m) (working plan P e) s.
Proof.
  intros Hq Hm. apply wp_in_session; [by apply working_stops |].
  intros session (Hs & Hplan)%session_mut_Ok. eapply wp_mono; [apply Hm |].
  intros r s' [Hf HP]. split.
  - etrans; [exact Hq |]. by eapply quiet_update.
  - intros Hr. destruct (quiet_sessions _ _ Hq _ _ Hs) as (s0 & Hs0 & Hf0). exists s0.
    split_and!; [done | | by apply HP]. destruct Hplan as (t & ? & ?), Hf0 as [Hp _ _ _].
    exists t. split; [done | congruence].
Qed.

Lemma working_any {A} plan (m : Act GuardianRotationSessionV3 A) e s :
  quiet e s.1 → respects fixed m →
  wp (in_session plan m) (working plan (λ _, True) e) s.
Proof.
  intros Hq Hm. apply working_session; [done |]. intros session.
  apply (wp_rest fixed); [exact Hm |]. by intros r s' Hf.
Qed.

End rotations.

Ltac wp_step :=
  wp_step_with ltac:(fun m => fail).

Section operations.
Context `{Prims : Primitives} `{Sharing : SharingPrimitives} `{Frost : FrostPrimitives}.
Context `{Protocol : ProtocolPrimitives} `{Runtime : RuntimePrimitives}.

Abbreviation key_of plan := (hex_encode (ctx_rotation_id (plan_context plan))).

Ltac works :=
  repeat wp_step;
  first [ by apply working_stops | apply working_any; [done | fixed_code] ].

Lemma repair_round2_works seed plan incoming id s :
  wp (repair_round2 seed plan incoming id) (working plan (λ _, True) s.1) s.
Proof. unfold repair_round2. works. Qed.

Lemma repair_finalize_works seed plan incoming package s :
  wp (repair_finalize seed plan incoming package) (working plan (λ _, True) s.1) s.
Proof. unfold repair_finalize. works. Qed.

Lemma refresh_round2_works seed plan incoming s :
  wp (refresh_round2 seed plan incoming) (working plan (λ _, True) s.1) s.
Proof. unfold refresh_round2. works. Qed.

Lemma refresh_finalize_works seed plan incoming package s :
  wp (refresh_finalize seed plan incoming package) (working plan (λ _, True) s.1) s.
Proof. unfold refresh_finalize. works. Qed.

Lemma stage_material_works seed plan grant index fragment proof policy slot s :
  wp (stage_material seed plan grant index fragment proof policy slot)
    (working plan (λ _, True) s.1) s.
Proof. unfold stage_material. works. Qed.

Lemma handoff_works plan commitment s :
  wp (handoff_complete plan commitment) (working plan (λ _, True) s.1) s.
Proof. unfold handoff_complete. works. Qed.

(** The certificates of a request that deals shares of the old secret. *)
Definition released (request : GuardianRotationRequestV3) (capsule : ConfigCapsuleV3)
    (wall : u64) : Prop :=
  match request with
  | GrRepairRound1 plan begin release _ _ _
  | GrRefreshRound1 plan (Some begin) (Some release) (Some _) =>
      ∃ h, validate_rotation_release_certificate_v3 release begin plan capsule wall = Ok h
  | GrRefreshRound1 _ _ _ (Some _) => False
  | _ => True
  end.

(** Shares are dealt when the delay of Begin has passed, under its boot. *)
Record dealt (request : GuardianRotationRequestV3) (capsule : ConfigCapsuleV3)
    (wall monotonic : u64) (boot : string) (s : GuardianRotationSessionV3) : Prop := mkDealt {
  dealt_boot : grs_boot_id s = boot;
  dealt_elapsed : (grs_not_before_monotonic s ≤ monotonic)%N;
  dealt_released : released request capsule wall;
  dealt_begin plan begin release grant helpers id :
    request = GrRepairRound1 plan begin release grant helpers id →
    ∃ t, begin_rotation_certificate begin = Ok t ∧ grs_begin_certificate_hash s = sha256 t
}.

Lemma dealt_fixed request capsule wall monotonic boot s0 s :
  fixed s0 s → dealt request capsule wall monotonic boot s →
  dealt request capsule wall monotonic boot s0.
Proof.
  intros [_ Hh Hn Hb] [? ? ? Hr]. split; [congruence | congruence | done |].
  intros plan begin release grant helpers id E. destruct (Hr _ _ _ _ _ _ E) as (t & ? & ?).
  exists t. split; [done | congruence].
Qed.

Ltac to_session :=
  repeat lazymatch goal with |- wp (in_session _ _) _ _ => fail | _ => wp_step end;
  try by apply working_stops.

Lemma repair_round1_works seed plan begin release grant helpers id wall monotonic boot s :
  wp (repair_round1 seed plan begin release grant helpers id wall monotonic boot)
    (working plan (dealt (GrRepairRound1 plan begin release grant helpers id)
      (predecessor_capsule s.1) wall monotonic boot) s.1) s.
Proof.
  unfold repair_round1. to_session. apply working_session; [done |]. intros session.
  wp_step. wp_step; [by intros ? |]. wp_step; [by intros ? |]. checks.
  apply (wp_rest fixed); [fixed_code |].
  intros r s' Hf. split; [done |]. intros _ s0 Hf0. apply (dealt_fixed _ _ _ _ _ _ session Hf0).
  split; [done | done | by eexists |]. intros ? ? ? ? ? ? [= <- <- <- <- <- <-].
  eexists. split; [by apply wire_Ok | done].
Qed.

Lemma refresh_round1_works seed plan begin release grant wall monotonic boot s :
  wp (refresh_round1 seed plan begin release grant wall monotonic boot)
    (working plan (dealt (GrRefreshRound1 plan begin release grant) (predecessor_capsule s.1)
      wall monotonic boot) s.1) s.
Proof.
  unfold refresh_round1. do 2 wp_step; [by apply working_stops |].
  destruct grant as [grant |]; [to_session | apply (wp_respects quiet)].
  2: apply quiet_in_session; fixed_code.
  2: intros s' Hq; by apply working_stops.
  2: intros share s' Hq.
  all: apply working_session; [done |]; intros session; wp_step; wp_step; [by intros ? |]; checks;
    apply (wp_rest fixed); [fixed_code |]; intros r s1 Hf; split; [done |]; intros _ s0 Hf0;
    apply (dealt_fixed _ _ _ _ _ _ session Hf0); split; try done.
  { subst. by eexists. }
  by destruct begin, release.
Qed.

(** Calls of the store that end nothing. *)
Lemma wp_store_call {A B} (f : GuardianEpochStore → Result StorageError A * GuardianEpochStore)
    (g : A → Act GuardianRotationEntryV3 B) Q s :
  (∀ e, (f (epoch_store s.1)).1 = Err e →
     stops Q (with_epoch_store s.1 (f (epoch_store s.1)).2, s.2)) →
  (∀ a, (f (epoch_store s.1)).1 = Ok a →
     wp (g a) Q (with_epoch_store s.1 (f (epoch_store s.1)).2, s.2)) →
  wp (store_call f ≫= g) Q s.
Proof.
  intros He Ha. unfold wp, mbind, SR_bind, store_call, stored.
  destruct (f (epoch_store s.1)) as [[a | e] store]; simpl in *; [by apply Ha | by eapply He].
Qed.

Lemma quiet_store e e' store :
  quiet e e' → ges_rotation_tombstones store = closed e' → quiet e (with_epoch_store e' store).
Proof. intros [Hc Hs] Ht. split; [cbn; congruence | exact Hs]. Qed.

Lemma quiet_alter e e' k f :
  quiet e e' → (∀ s, fixed s (f s)) →
  quiet e (with_sessions e' (alter f k (gre_sessions e'))).
Proof.
  intros [Hc Hs] Hf. split; [exact Hc |]. cbn.
  intros k' s' [[<- (s1 & H1 & ->)] | [? H1]]%lookup_alter_Some; [| by apply Hs].
  destruct (Hs _ _ H1) as (s & H0 & F). exists s. split; [done | by etrans].
Qed.

Lemma prepare_commit_works seed plan root proof commitment s :
  wp (prepare_commit seed plan root proof commitment) (working plan (λ _, True) s.1) s.
Proof.
  unfold prepare_commit.
  repeat lazymatch goal with |- wp (mbind _ (store_call _)) _ _ => fail | _ => wp_step end;
    try by apply working_stops.
  match goal with
  | H : session_mut _ _ = Ok ?session |- _ =>
      apply session_mut_Ok in H as (Hs & Hp);
      pose proof (ex_intro _ session (conj Hs (conj Hp I)) : uses s.1 plan (λ _, True)) as Huses
  end.
  apply wp_store_call; [intros err _ | intros generation _].
  - by apply working_stops, quiet_store, quiet_prepare.
  - repeat lazymatch goal with |- wp (mbind _ (change _)) _ _ => fail | _ => wp_step end;
      try by apply working_stops, quiet_store, quiet_prepare.
    apply (wp_rest quiet).
    + apply respects_bind; [exact _ | | intros ?; apply respects_ret, _].
      apply respects_read. intros e1 ?. by apply quiet_alter.
    + intros r s' Hq. split; [| by intros _].
      etrans; [| exact Hq]. by apply quiet_store, quiet_prepare.
Qed.

Lemma retire_quiet notice monotonic : respects quiet (retire notice monotonic).
Proof.
  unfold retire.
  repeat respects_step_with ltac:(apply quiet_store_call; intros ?; apply quiet_retire).
Qed.

(** *** Rotations that end *)

(** The rotation of [key] has ended, aborted or not, and its session is gone. *)
Lemma moved_ended e e0 key t b e' :
  quiet e e0 →
  closed e' = <[key := t]> (closed e0) → bool_decide (rt_terminal_state t = RotAborted) = b →
  gre_sessions e' = delete key (gre_sessions e0) →
  (separate e → ended_aborted e key = None ∨ ended_aborted e key = Some b) →
  moved e e' ∧ ended_aborted e' key = Some b.
Proof.
  intros [Hc Hq] Hc' Hb Hs' He. rewrite Hc in Hc'.
  assert (E : ended_aborted e' key = Some b).
  { unfold ended_aborted. by rewrite Hc', lookup_insert_eq, <- Hb. }
  split; [split | done].
  - intros k s'. rewrite Hs'. intros [? Hk]%lookup_delete_Some. by apply Hq.
  - intros Hsep. split.
    + intros k Hk. rewrite Hs'. destruct (decide (key = k)) as [<- | Hne].
      { apply lookup_delete_eq. }
      rewrite lookup_delete_ne by done. rewrite Hc', lookup_insert_ne in Hk by done.
      apply eq_None_not_Some. intros [s' (s & Hs & _)%Hq]. rewrite (Hsep k Hk) in Hs. discriminate.
    + intros k b' Hk. destruct (decide (key = k)) as [<- | Hne].
      * rewrite E. destruct (He Hsep) as [Hn | Hn]; rewrite Hn in Hk; [discriminate | congruence].
      * unfold ended_aborted in *. by rewrite Hc', lookup_insert_ne by done.
Qed.

Lemma uses_open {P} e plan : uses e plan P → separate e → ended_aborted e (key_of plan) = None.
Proof.
  intros (s & Hs & _) Hsep. unfold ended_aborted.
  destruct (closed e !! key_of plan) eqn:E; [| done]. rewrite (Hsep (key_of plan)) in Hs by eauto.
  discriminate.
Qed.

Lemma wp_change {B} (g : GuardianRotationEntryV3 → GuardianRotationEntryV3)
    (f : () → Act GuardianRotationEntryV3 B) Q s :
  wp (f ()) Q (g s.1, s.2) → wp (change g ≫= f) Q s.
Proof. done. Qed.

(** [abort_prepared] and the removal of the session. *)
Lemma wp_aborted {B} plan plan_hash (f : () → Act GuardianRotationEntryV3 B) Q e s :
  quiet e s.1 →
  (separate e → ended_aborted e (key_of plan) = None
    ∨ ended_aborted e (key_of plan) = Some true) →
  (∀ s', moved e s'.1 → stops Q s') →
  (∀ s', moved e s'.1 → ended_aborted s'.1 (key_of plan) = Some true → wp (f ()) Q s') →
  wp (store_call (λ store, abort_prepared hex_encode store
        (ctx_rotation_id (plan_context plan)) plan_hash)
      ≫= λ _, remove_session plan ≫= f) Q s.
Proof.
  intros Hq He Hstop Hf. apply wp_store_call.
  - intros err Herr. apply Hstop, quiet_moved. apply quiet_store; [done |].
    destruct (abort_prepared _ _ _ _) as [r st] eqn:E in *.
    apply abort_prepared_cases in E as [(? & -> & ->) | (-> & _)]; [done | discriminate].
  - intros [] Hok. apply wp_change.
    destruct (abort_prepared _ _ _ _) as [r st] eqn:E in *.
    apply abort_prepared_cases in E as [(? & -> & ->) | (-> & _ & _ & Est)]; [discriminate |].
    apply (f_equal ges_rotation_tombstones) in Est. cbn in Est.
    epose proof (moved_ended e s.1 (key_of plan) _ true
      (with_sessions (with_epoch_store s.1 st) (delete (key_of plan) (gre_sessions s.1)))
      Hq Est eq_refl eq_refl He) as [Hm Hend].
    by apply Hf.
Qed.

(** An activation ends the rotation or leaves the tombstones as they are. *)
Lemma activation_cases successor store id h qc qh d pending r store' :
  (if successor : bool then activate_successor hex_encode store id h qc qh d pending
   else observe_replacement_activation hex_encode store id h qc qh d pending) = (r, store') →
  match r with
  | Err _ => ges_rotation_tombstones store' = ges_rotation_tombstones store
  | Ok _ => ∃ t, ges_rotation_tombstones store'
      = <[hex_encode id := t]> (ges_rotation_tombstones store)
      ∧ bool_decide (rt_terminal_state t = RotAborted) = false
  end.
Proof.
  destruct successor; [unfold activate_successor | unfold observe_replacement_activation];
    repeat case_match; intros [= <- <-]; try done; by eexists.
Qed.

Lemma applied_ids m event m' : applied m event = Ok m' → machine_ids m' = machine_ids m.
Proof.
  unfold applied. pose proof (apply_ids m event) as Hids.
  by destruct (Rotation.apply m event) as [[] ?]; intros [= <-].
Qed.

(** What [cancel_session] finds or leaves. *)
Lemma wp_cancel_session {B} plan plan_hash (f : () → Act GuardianRotationEntryV3 B) Q s :
  stops Q s →
  (∀ s', quiet s.1 s'.1 →
     ended_aborted s.1 (key_of plan) = None ∨ ended_aborted s.1 (key_of plan) = Some true →
     wp (f ()) Q s') →
  wp (cancel_session plan plan_hash ≫= f) Q s.
Proof.
  intros Hstop Hf. unfold cancel_session, ended_aborted in *. wp_step. wp_step.
  destruct (closed s.1 !! key_of plan) as [t |] eqn:Et.
  - wp_step; [done |]. checks. apply Hf; [done |]. right. cbn.
    by rewrite bool_decide_true.
  - destruct (gre_sessions s.1 !! key_of plan) as [session |] eqn:Es.
    + repeat lazymatch goal with |- wp (mbind _ (change _)) _ _ => fail | _ => wp_step end;
        [done |].
      apply wp_change, Hf; [| by left]. apply (quiet_update s.1 _ session); [done | split; try done].
      match goal with H : (if _ then _ else _) = Ok _ |- _ => revert H end.
      destruct (grs_cancelled session); [by intros [= <-] | apply applied_ids].
    + repeat wp_step; try done. apply Hf; [done | by left].
Qed.

(** A request at the mailbox of rotations: what it did when it is answered. *)
Definition ends (plan : RotationPlan) (aborted : bool) (e : GuardianRotationEntryV3) : Prop :=
  ended_aborted e (key_of plan) = Some aborted.

Lemma handle_cancel_moves plan certificate wall s :
  wp (handle_cancel plan certificate wall) (λ r s', moved s.1 s'.1 ∧
    (separate s.1 → is_ok r = true → ends plan true s'.1
      ∧ ended_aborted s.1 (key_of plan) ≠ Some false)) s.
Proof.
  assert (Hstop : stops (λ r s', moved s.1 s'.1 ∧
    (separate s.1 → is_ok (A := GuardianRotationResponseV3) r = true → ends plan true s'.1
      ∧ ended_aborted s.1 (key_of plan) ≠ Some false)) s)
    by (intros e; split; [by apply quiet_moved | done]).
  unfold handle_cancel.
  repeat lazymatch goal with
  | |- wp (mbind _ (cancel_session _ _)) _ _ => fail | _ => wp_step end; try done.
  apply wp_cancel_session; [done |]. intros s1 Hq Hopen.
  apply (wp_aborted plan _ _ _ s.1 _ Hq (λ _, Hopen)); [by intros s' Hm e |].
  intros s' Hm Hend. repeat wp_step; try by intros e.
  split; [done |]. intros _ _. split; [done |]. by destruct Hopen as [-> | ->].
Qed.

(** An operation on a live session that ends the rotation. *)
Definition finishes (plan : RotationPlan) (aborted : bool) (e : GuardianRotationEntryV3)
    (r : Result Error GuardianRotationResponseV3) (s' : GuardianRotationEntryV3 * Rng) : Prop :=
  moved e s'.1
  ∧ (is_ok r = true → uses e plan (λ _, True) ∧ (separate e → ends plan aborted s'.1)).

Lemma finishes_stops plan b e s' : moved e s'.1 → stops (finishes plan b e) s'.
Proof. by intros Hm err. Qed.

Lemma wp_session_first {B} plan (m : Act GuardianRotationSessionV3 ()) b e s
    (f : () → Act GuardianRotationEntryV3 B) Q :
  quiet e s.1 → respects fixed m →
  (∀ s', quiet e s'.1 → stops Q s') →
  (∀ s', quiet e s'.1 → uses e plan (λ _, True) → wp (f b) Q s') →
  wp (in_session plan m ≫= f) Q s.
Proof.
  intros Hq Hm Hstop Hf. apply wp_bind.
  eapply wp_mono; [by apply (working_any plan m e) |]. intros [[] | err] s' [Hq' Hu].
  - destruct b. by apply Hf, Hu.
  - by apply Hstop.
Qed.

Lemma handle_abort_finishes plan certificate wall s :
  wp (handle_abort plan certificate wall) (finishes plan true s.1) s.
Proof.
  unfold handle_abort.
  repeat lazymatch goal with
  | |- wp (mbind _ (in_session _ _)) _ _ => fail | _ => wp_step end;
    try by apply finishes_stops, quiet_moved.
  apply (wp_session_first plan _ () s.1); [done | fixed_code | |].
  { intros s' Hq. by apply finishes_stops, quiet_moved. }
  intros s1 Hq Hu.
  apply (wp_aborted plan _ _ _ s.1 _ Hq).
  { intros Hsep. left. by eapply uses_open. }
  { intros s' Hm. by apply finishes_stops. }
  intros s' Hm Hend. wp_step. split; [done |]. intros _. by split.
Qed.

Lemma activate_finishes plan capsule deadline s :
  wp (activate plan capsule deadline) (finishes plan false s.1) s.
Proof.
  unfold activate.
  repeat lazymatch goal with
  | |- wp (mbind _ (activate_session _ _)) _ _ => fail | _ => wp_step end;
    try by apply finishes_stops, quiet_moved.
  all: apply (wp_session_first plan _ () s.1); [done | fixed_code | |];
    [intros s' Hq; by apply finishes_stops, quiet_moved |].
  all: intros s1 Hq Hu; apply wp_store_call;
    [intros err Herr; apply finishes_stops, quiet_moved, quiet_store; [done |] | intros [] Hok].
  all: match goal with
  | |- context [activate_successor ?h ?st ?i ?p ?qc ?qh ?d ?pr] =>
      destruct (activate_successor h st i p qc qh d pr) as [r st'] eqn:E;
        apply (activation_cases true) in E
  | |- context [observe_replacement_activation ?h ?st ?i ?p ?qc ?qh ?d ?pr] =>
      destruct (observe_replacement_activation h st i p qc qh d pr) as [r st'] eqn:E;
        apply (activation_cases false) in E
  end; cbn in * |-; subst r; [exact E || idtac..].
  all: destruct E as (t & Et & Hb); repeat apply wp_change; wp_step.
  all: epose proof (moved_ended s.1 s1.1 (key_of plan) t false
      (with_sessions (with_provision (with_epoch_store s1.1 st') st' capsule)
        (delete (key_of plan) (gre_sessions s1.1))) Hq Et Hb eq_refl
      (λ Hsep, or_introl (uses_open _ _ Hu Hsep))) as [Hm Hend].
  all: split; [exact Hm | by intros _].
Qed.

(** The Begin that made the session of [key]. *)
Definition started (c : Call) (r : Result Error GuardianRotationResponseV3)
    (e : GuardianRotationEntryV3) (key : string) (s : GuardianRotationSessionV3) : Prop :=
  ∃ plan certificate,
    cl_request c = inl (GrBegin plan certificate)
  ∧ r = Ok (GrBeginAccepted (grs_not_before_monotonic s))
  ∧ key = key_of plan ∧ closed e !! key = None
  ∧ validate_begin_rotation_certificate_v3 certificate plan (predecessor_capsule e) (cl_wall c)
    = Ok (grs_begin_certificate_hash s)
  ∧ (∃ t, rotation_plan plan = Ok t ∧ grs_plan_hash s = sha256 t)
  ∧ grs_boot_id s = cl_boot c
  ∧ grs_not_before_monotonic s = sat_add (cl_monotonic c)
      (local_delay (cl_demo c) (plan_minimum_delay_secs plan))
  ∧ machine_ids (grs_rotation_machine s) = (ctx_rotation_id (plan_context plan), grs_plan_hash s).

Definition plan_of (request : GuardianRotationRequestV3) : option RotationPlan :=
  match request with
  | GrBegin plan _ | GrCancel plan _ | GrRepairRound1 plan _ _ _ _ _
  | GrRepairRound2 plan _ _ | GrRepairFinalize plan _ _ | GrRefreshRound1 plan _ _ _
  | GrRefreshRound2 plan _ | GrRefreshFinalize plan _ _ | GrStageMaterial plan _ _ _ _ _ _
  | GrPrepareCommit plan _ _ _ | GrHandoffComplete plan _ | GrActivate plan _ _
  | GrAbort plan _ => Some plan
  | GrRetire _ _ => None
  end.

(** How an accepted request ends its rotation, aborted or activated. *)
Definition ending (request : GuardianRotationRequestV3) : option bool :=
  match request with
  | GrCancel _ _ | GrAbort _ _ => Some true
  | GrActivate _ _ _ => Some false
  | _ => None
  end.

(** A request that has the guardian deal shares. *)
Definition deals (request : GuardianRotationRequestV3) : bool :=
  match request with
  | GrRepairRound1 _ _ _ _ _ _ | GrRefreshRound1 _ _ _ _ => true
  | _ => false
  end.

(** What a request that was accepted met and left. *)
Record accepted (c : Call) (request : GuardianRotationRequestV3)
    (e e' : GuardianRotationEntryV3) : Prop := mkAccepted {
  accepted_open plan b : plan_of request = Some plan → ended_aborted e (key_of plan) = Some b →
    (∃ certificate, request = GrCancel plan certificate) ∧ b = true;
  accepted_ends plan b : plan_of request = Some plan → ending request = Some b → ends plan b e';
  accepted_dealt plan : plan_of request = Some plan → deals request = true →
    uses e plan (dealt request (predecessor_capsule e) (cl_wall c) (cl_monotonic c) (cl_boot c))
}.

Record rotated (c : Call) (request : GuardianRotationRequestV3) (e : GuardianRotationEntryV3)
    (r : Result Error GuardianRotationResponseV3) (s' : GuardianRotationEntryV3 * Rng) : Prop :=
  mkRotated {
  rotated_sessions k session' : gre_sessions s'.1 !! k = Some session' →
    (∃ session, gre_sessions e !! k = Some session ∧ fixed session session')
    ∨ started c r e k session';
  rotated_separate : separate e → separate s'.1
    ∧ ∀ k b, ended_aborted e k = Some b → ended_aborted s'.1 k = Some b;
  rotated_accepted : separate e → is_ok r = true → accepted c request e s'.1
}.

Lemma moved_rotated c request e r s' :
  moved e s'.1 → (separate e → is_ok r = true → accepted c request e s'.1) →
  rotated c request e r s'.
Proof. intros [Hs Hm] Ha. split; [| done..]. intros k session' Hk. left. by apply Hs. Qed.

(** An operation on a live session that ends nothing. *)
Lemma working_rotated c request plan P e r s' :
  plan_of request = Some plan → ending request = None →
  (deals request = true → ∀ s, P s →
     dealt request (predecessor_capsule e) (cl_wall c) (cl_monotonic c) (cl_boot c) s) →
  working plan P e r s' → rotated c request e r s'.
Proof.
  intros Hp He Hd [Hq Hu]. apply moved_rotated; [by apply quiet_moved |].
  intros Hsep Hr. specialize (Hu Hr). split; intros plan'; rewrite Hp.
  - intros b [= <-] Hb. by rewrite (uses_open _ _ Hu Hsep) in Hb.
  - congruence.
  - intros [= <-] Hd'. destruct Hu as (s & ? & ? & ?). exists s. split_and!; auto.
Qed.

Lemma finishes_rotated c request plan b e r s' :
  plan_of request = Some plan → ending request = Some b → deals request = false →
  finishes plan b e r s' → rotated c request e r s'.
Proof.
  intros Hp He Hd [Hm Hf]. apply moved_rotated; [done |]. intros Hsep Hr.
  destruct (Hf Hr) as [Hu Hends]. split; intros plan'; rewrite Hp.
  - intros b' [= <-] Hb. by rewrite (uses_open _ _ Hu Hsep) in Hb.
  - intros b' [= <-] Hb. rewrite He in Hb. injection Hb as <-. by apply Hends.
  - congruence.
Qed.

Lemma rotated_stops c request s : stops (rotated c request s.1) s.
Proof. intros err. apply moved_rotated; [by apply quiet_moved | done]. Qed.

(** A machine that Begin was applied to waits for its delay. *)
Lemma begin_machine plan h machine machine' now delay not_before :
  new_machine plan h = Ok machine → applied machine (EvBeginAccepted now delay true) = Ok machine' →
  Rotation.rot_not_before machine' = Some not_before →
  not_before = sat_add now delay
  ∧ machine_ids machine' = (ctx_rotation_id (plan_context plan), h).
Proof.
  unfold new_machine, Rotation.new. case_match; [done |]. intros [= <-].
  unfold applied, Rotation.apply. cbn. intros [= <-]. cbn. by intros [= <-].
Qed.

Lemma begin_accepted c plan certificate e e' :
  closed e !! key_of plan = None → accepted c (GrBegin plan certificate) e e'.
Proof.
  intros Hn. split; [| done..]. intros plan' b [= <-]. unfold ended_aborted. by rewrite Hn.
Qed.

Lemma handle_begin_rotated c plan certificate s :
  cl_request c = inl (GrBegin plan certificate) →
  wp (handle_begin (cl_seed c) plan certificate (cl_wall c) (cl_monotonic c) (cl_boot c)
    (cl_demo c)) (rotated c (GrBegin plan certificate) s.1) s.
Proof.
  intros Hc. unfold handle_begin.
  repeat lazymatch goal with
  | |- wp (mbind _ (change _)) _ _ => fail | _ => wp_step end;
    try apply rotated_stops; checks.
  all: match goal with H : bool_decide (is_Some _) = false |- _ => apply not_Some in H as Hn end.
  - apply moved_rotated; [by apply quiet_moved |]. intros _ _. by apply begin_accepted.
  - apply wp_change. wp_step. split; cbn.
    + intros k session' [[<- <-] | [? Hk]]%lookup_insert_Some; [right | left; by eexists].
      exists plan, certificate. split_and!; try done; [by eexists; split; [apply wire_Ok |] | |].
      all: by eapply begin_machine.
    + intros Hsep. split; [| done]. intros k Hk. cbn. rewrite lookup_insert_ne; [by apply Hsep |].
      intros <-. exact (proj1 (eq_None_not_Some _) Hn Hk).
    + intros _ _. by apply begin_accepted.
Qed.

Lemma handler_rotated c request s :
  cl_request c = inl request →
  wp (handle_guardian_rotation_v3 (cl_seed c) request (cl_wall c) (cl_monotonic c) (cl_boot c)
    (cl_demo c)) (rotated c request s.1) s.
Proof.
  intros Hc. unfold handle_guardian_rotation_v3. do 2 wp_step; [apply rotated_stops |].
  destruct request; [by apply handle_begin_rotated | ..].
  1: eapply wp_mono; [apply handle_cancel_moves |]; intros r s' [Hm Ha]; apply moved_rotated;
     [done |]; intros Hsep Hr; destruct (Ha Hsep Hr) as [Hends Hopen]; split; [| | done];
     [intros ? [] [= <-] Hb; [by split; [eexists |] | congruence] | by intros ? ? [= <-] [= <-]].
  1-9: eapply wp_mono;
    [ lazymatch goal with
      | |- wp (repair_round1 _ _ _ _ _ _ _ _ _ _) _ _ => apply repair_round1_works
      | |- wp (repair_round2 _ _ _ _) _ _ => apply repair_round2_works
      | |- wp (repair_finalize _ _ _ _) _ _ => apply repair_finalize_works
      | |- wp (refresh_round1 _ _ _ _ _ _ _ _) _ _ => apply refresh_round1_works
      | |- wp (refresh_round2 _ _ _) _ _ => apply refresh_round2_works
      | |- wp (refresh_finalize _ _ _ _) _ _ => apply refresh_finalize_works
      | |- wp (stage_material _ _ _ _ _ _ _ _) _ _ => apply stage_material_works
      | |- wp (prepare_commit _ _ _ _ _) _ _ => apply prepare_commit_works
      | |- wp (handoff_complete _ _) _ _ => apply handoff_works
      end
    | intros ? ?; apply working_rotated; [reflexivity | reflexivity | done || by intros ? ? ?] ].
  - eapply wp_mono; [apply activate_finishes |]. intros r s'. by apply finishes_rotated.
  - eapply wp_mono; [apply handle_abort_finishes |]. intros r s'. by apply finishes_rotated.
  - apply (wp_rest quiet); [apply retire_quiet |]. intros r s' Hq.
    apply moved_rotated; [by apply quiet_moved | done].
Qed.

(** A request about a recovery. *)
Definition same_rotations (e e' : GuardianRotationEntryV3) : Prop :=
  gre_sessions e' = gre_sessions e ∧ closed e' = closed e.

#[export] Instance same_rotations_preorder : PreOrder same_rotations.
Proof. split; [by intros e | intros e1 e2 e3 [] []; split; congruence]. Qed.

Lemma finish_draining_closed s g id :
  ges_rotation_tombstones (finish_draining_request s g id).2 = ges_rotation_tombstones s.
Proof. unfold finish_draining_request. by repeat case_match. Qed.

Lemma recovery_keeps_rotations request wall monotonic boot demo s :
  wp (handle_guardian_recovery_v3 request wall monotonic boot demo)
    (λ _ s', same_rotations s.1 s'.1) s.
Proof.
  unfold handle_guardian_recovery_v3, GuardianRecovery.handle_begin,
    GuardianRecovery.handle_cancel, GuardianRecovery.handle_release.
  repeat wp_step_with ltac:(fun m =>
    lazymatch m with stored _ => apply wp_stored; [intros ? ? | intros ? ?] end).
  all: unfold stops; intros; try done.
  all: match goal with
  | |- context [finish_draining_request ?st ?g ?i] =>
      pose proof (finish_draining_closed st g i) as H';
        by destruct (finish_draining_request st g i)
  end.
Qed.


End operations.

End GuardianRotationSpec.
