(* ===== verification/GuardianRotationHistory.v ===== *)
(** Histories of a protocol-v3 guardian, seen from its rotations. *)

From S2P Require Export GuardianRotationSpec.

Module GuardianRotationHistory.
Import GuardianRuntime GuardianSpec GuardianRotationSpec.

Section histories.
Context `{Prims : Primitives} `{Sharing : SharingPrimitives} `{Frost : FrostPrimitives}.
Context `{Protocol : ProtocolPrimitives} `{Runtime : RuntimePrimitives}.

Abbreviation key_of plan := (hex_encode (ctx_rotation_id (plan_context plan))).

(** A request at either mailbox. *)
Record turned (c : Call)
    (r : Result Error (GuardianRotationResponseV3 + GuardianRecoveryResponseV3))
    (e e' : GuardianRotationEntryV3) : Prop := mkTurned {
  turned_sessions k s' : gre_sessions e' !! k = Some s' →
    (∃ s, gre_sessions e !! k = Some s ∧ fixed s s')
    ∨ ∃ nb, r = Ok (inl (GrBeginAccepted nb)) ∧ started c (Ok (GrBeginAccepted nb)) e k s';
  turned_separate : separate e → separate e'
    ∧ ∀ k b, ended_aborted e k = Some b → ended_aborted e' k = Some b;
  turned_accepted request a : cl_request c = inl request → separate e → r = Ok a →
    accepted c request e e'
}.

Lemma call_turns c s : wp (call c) (λ r s', turned c r s.1 s'.1) s.
Proof.
  unfold call. destruct (cl_request c) as [request | request] eqn:Hc; apply wp_bind.
  - eapply wp_mono; [by apply handler_rotated |].
    intros [a | e] s' [Hs Hm Ha]; split; try done.
    + intros k s1 Hk. destruct (Hs k s1 Hk) as [? | Hst]; [by left | right].
      pose proof Hst as (? & ? & _ & [= ->] & _). by eexists.
    + intros request' a' E Hsep _. rewrite Hc in E. injection E as <-. by apply Ha.
    + intros k s1 Hk. destruct (Hs k s1 Hk) as [? | (? & ? & _ & ? & _)]; [by left | done].
  - eapply wp_mono; [apply recovery_keeps_rotations |].
    intros [a | e] s' [Hs Ht]; split; unfold separate, ended_aborted; cbn; rewrite ?Hs, ?Ht;
      try done; try (intros k s1 Hk; left; by exists s1); intros ? ?; rewrite Hc; done.
Qed.

Lemma history_turns e0 h1 c r h2 e :
  did call e0 (h1 ++ (c, r) :: h2) e →
  ∃ e1 e2, did call e0 h1 e1 ∧ turned c r e1 e2 ∧ did call e2 h2 e.
Proof.
  intros (e1 & H1 & H)%did_split. apply (did_split call e1 [_]) in H as (e2 & H & H2).
  apply did_one in H as (rng & rng' & H). exists e1, e2. split_and!; [done | | done].
  apply (wp_run _ _ _ _ _ (call_turns c (e1, rng)) H).
Qed.

Lemma history_separate e0 h e :
  did call e0 h e → separate e0 →
  separate e ∧ ∀ k b, ended_aborted e0 k = Some b → ended_aborted e k = Some b.
Proof.
  intros H Hsep. induction H as [| h e c rng r e' rng' H IH Hs]; [done |].
  destruct IH as [Hse He].
  pose proof (wp_run _ _ _ _ _ (call_turns c (e, rng)) Hs) as [_ Hm _].
  destruct (Hm Hse) as [? He']. split; [done |]. intros k b Hk. by apply He', He.
Qed.

(** Every session comes from a Begin of the history. *)
Lemma history_started e0 h e k s :
  did call e0 h e → gre_sessions e0 = ∅ → gre_sessions e !! k = Some s →
  ∃ h1 c nb h2 e1 s0, h = h1 ++ (c, Ok (inl (GrBeginAccepted nb))) :: h2 ∧ did call e0 h1 e1
    ∧ started c (Ok (GrBeginAccepted nb)) e1 k s0 ∧ fixed s0 s.
Proof.
  intros H H0. revert s. induction H as [| h e c rng r e' rng' H IH Hs]; intros s Hk.
  { rewrite H0, lookup_empty in Hk. discriminate. }
  pose proof (wp_run _ _ _ _ _ (call_turns c (e, rng)) Hs) as [Ho _ _].
  destruct (Ho k s Hk) as [(s1 & Hk1 & Hf) | (nb & -> & Hst)].
  - destruct (IH s1 Hk1) as (h1 & c0 & nb & h2 & e1 & s0 & -> & H1 & Hst & Hf').
    exists h1, c0, nb, (h2 ++ [(c, r)]), e1, s0.
    split_and!; [by rewrite <- app_assoc | done | done | by etrans].
  - by exists h, c, nb, [], e, s.
Qed.

End histories.

End GuardianRotationHistory.
