(* ===== verification/GuardianEntry.v ===== *)
(** The entry of a protocol-v3 guardian is well formed after any history. *)

From S2P Require Export GuardianHistory GuardianRotationHistory.

Module GuardianEntry.
Import Epochs GuardianRecovery GuardianRuntime GuardianSpec GuardianHistory.
Import GuardianRotationSpec GuardianRotationHistory.

Section entries.
Context `{Prims : Primitives} `{Sharing : SharingPrimitives} `{Frost : FrostPrimitives}.
Context `{Protocol : ProtocolPrimitives} `{Runtime : RuntimePrimitives}.

(** A request is cancelled where its id is, and then it is not released. *)
Definition consistent (e : GuardianRotationEntryV3) : Prop :=
  ∀ k p, gre_recoveries e !! k = Some p →
    (pn3_cancelled p = true ↔ is_Some (tombstones e !! k))
    ∧ (pn3_released p = true → pn3_cancelled p = false).

Record entry_wf (e : GuardianRotationEntryV3) : Prop := mkEntryWf {
  wf_sessions k s : gre_sessions e !! k = Some s →
    closed e !! k = None
    ∧ k = hex_encode (Rotation.rot_rotation_id (grs_rotation_machine s))
    ∧ Rotation.rot_plan_hash (grs_rotation_machine s) = grs_plan_hash s;
  wf_recoveries k p : gre_recoveries e !! k = Some p →
    k = hex_encode (rr3_request_id (pn3_request p))
    ∧ RotationProtocol.recovery_request_digest_v3 (pn3_request p) = Ok (pn3_request_digest p);
  wf_nonces k1 k2 p1 p2 :
    gre_recoveries e !! k1 = Some p1 → gre_recoveries e !! k2 = Some p2 →
    rr3_nonce (pn3_request p1) = rr3_nonce (pn3_request p2) → k1 = k2;
  wf_consistent : consistent e
}.

Lemma same_consistent e e' : same_recoveries e e' → consistent e → consistent e'.
Proof. unfold consistent. by intros [-> ->]. Qed.

Lemma begin_consistent e key p :
  tombstones e !! key = None → pn3_cancelled p = false → consistent e →
  consistent (with_recoveries e (<[key := p]> (gre_recoveries e))).
Proof.
  intros Hn Hc He k p'. cbn. intros [[<- <-] | [? Hk]]%lookup_insert_Some.
  - rewrite Hc. split; [| done]. split; [done |]. intros [x Hx].
    change (tombstones e !! key = Some x) in Hx. congruence.
  - by apply He.
Qed.

Lemma cancel_consistent e key digest :
  (∀ p, gre_recoveries e !! key = Some p → pn3_released p = false) → consistent e →
  consistent (cancelled_entry e key digest).
Proof.
  intros Hr He k p'. cbn. intros [[<- (p & Hp & ->)] | [? Hk]]%lookup_alter_Some; cbn.
  - rewrite lookup_insert_eq, (Hr p Hp). split; [| done]. split; [by eexists | done].
  - rewrite lookup_insert_ne by done. by apply He.
Qed.

Lemma release_consistent e key p :
  gre_recoveries e !! key = Some p → pn3_cancelled p = false → consistent e →
  consistent (with_recoveries e (<[key := mark_pending p (pn3_cancelled p) true]>
    (gre_recoveries e))).
Proof.
  intros Hp Hc He k p'. cbn. intros [[<- <-] | [? Hk]]%lookup_insert_Some; [| by apply He].
  cbn. split; [| done]. by apply He.
Qed.

Lemma recovery_consistent request wall monotonic boot demo s :
  wp (handle_guardian_recovery_v3 request wall monotonic boot demo)
    (λ _ s', consistent s.1 → consistent s'.1) s.
Proof.
  unfold handle_guardian_recovery_v3, GuardianRecovery.handle_begin,
    GuardianRecovery.handle_cancel, GuardianRecovery.handle_release.
  repeat wp_step_with ltac:(fun m =>
    lazymatch m with stored _ => apply wp_stored; [intros ? ? | intros ? ?] end).
  all: unfold stops; intros; try done; checks.
  all: lazymatch goal with
  | |- context [alter _ _ _] => apply cancel_consistent; [intros; congruence | done]
  | |- context [finish_draining_request _ _ _] =>
      eapply same_consistent; [apply finish_draining_epoch | by apply release_consistent]
  | |- context [mark_pending _ _ _] => by apply release_consistent
  | |- _ => apply begin_consistent; [by eapply not_Some | done | done]
  end.
Qed.

Lemma history_consistent e0 h e :
  did call e0 h e → gre_recoveries e0 = ∅ → consistent e.
Proof.
  intros H H0. induction H as [| h e c rng r e' rng' H IH Hs].
  { intros k p. by rewrite H0, lookup_empty. }
  revert IH. refine (wp_run (call c) (λ _ s', consistent e → consistent s'.1) (e, rng) _ _ _ Hs).
  unfold call. destruct (cl_request c) as [request | request]; apply wp_bind.
  - eapply (wp_rest same_recoveries); [apply rotation_keeps_recoveries |].
    intros [a | x] s' Hr; exact (same_consistent _ _ Hr).
  - eapply wp_mono; [apply recovery_consistent |]. by intros [a | x] s'.
Qed.

(** What a pending request is after the Begin that made it, and the Begins of
    its history. *)
Lemma begun_digest c r e k p :
  begun c r e k p → k = hex_encode (rr3_request_id (pn3_request p))
    ∧ RotationProtocol.recovery_request_digest_v3 (pn3_request p) = Ok (pn3_request_digest p).
Proof.
  intros (certificate & record & _ & _ & Hp & -> & _ & _ & Hv & _). split; [done |].
  unfold validate_begin_recovery_certificate_v3, validate_recovery_request_v3,
    validate_recovery_request_for_ref_v3 in Hv.
  apply bind_Ok in Hv as (digest & Hd & Hv). rewrite guard_Ok in Hd. destruct Hd as [_ Hd].
  apply bind_Ok in Hv as (t & _ & Hv). rewrite guard_Ok in Hv. destruct Hv as [_ Hv].
  apply bind_Ok in Hv as (ids & _ & Hv). rewrite guard_Ok in Hv. destruct Hv as [_ [= <-]].
  by rewrite Hp.
Qed.

Lemma history_nonces e0 h e :
  did call e0 h e → gre_recoveries e0 = ∅ →
  ∀ k1 k2 p1 p2, gre_recoveries e !! k1 = Some p1 → gre_recoveries e !! k2 = Some p2 →
    rr3_nonce (pn3_request p1) = rr3_nonce (pn3_request p2) → k1 = k2.
Proof.
  intros H H0. induction H as [| h e c rng r e' rng' H IH Hs].
  { intros k1 k2 p1 p2 H1. by rewrite H0, lookup_empty in H1. }
  pose proof (wp_run _ _ _ _ _ (guardian_call_spec c (e, rng)) Hs) as [_ Ho _]. cbn in Ho.
  assert (Hb : ∀ k p k' p0, begun c r e k p → gre_recoveries e !! k' = Some p0 →
    rr3_nonce (pn3_request p0) ≠ rr3_nonce (pn3_request p)).
  { intros k p k' p0 (? & ? & Hbeg). by apply Hbeg. }
  intros k1 k2 p1 p2 H1 H2 E.
  destruct (Ho k1 p1 H1) as [(q1 & Hq1 & [R1 _ _ _ _ _]) | B1],
    (Ho k2 p2 H2) as [(q2 & Hq2 & [R2 _ _ _ _ _]) | B2].
  - apply (IH k1 k2 q1 q2 Hq1 Hq2). congruence.
  - destruct (Hb _ _ _ _ B2 Hq1). congruence.
  - destruct (Hb _ _ _ _ B1 Hq2). congruence.
  - destruct B1 as (c1 & ? & Hc1 & _ & Hr1 & -> & _), B2 as (c2 & ? & Hc2 & _ & Hr2 & -> & _).
    rewrite Hc1 in Hc2. injection Hc2 as ->. congruence.
Qed.

Lemma history_wf e0 h e :
  gre_sessions e0 = ∅ → gre_recoveries e0 = ∅ → did call e0 h e → entry_wf e.
Proof.
  intros Hs0 Hr0 H. destruct (history_separate _ _ _ H) as [Hsep _].
  { intros k _. by rewrite Hs0, lookup_empty. }
  split.
  - intros k s Hk. split.
    + apply eq_None_not_Some. intros Hc. rewrite (Hsep k Hc) in Hk. discriminate.
    + destruct (history_started _ _ _ _ _ H Hs0 Hk)
        as (h1 & c & nb & h2 & e1 & s0 & _ & _ & Hst & [Fp _ _ _ Fm]).
      destruct Hst as (plan & certificate & _ & _ & -> & _ & _ & _ & _ & _ & Hids).
      rewrite Hids in Fm. injection Fm as -> ->. by rewrite Fp.
  - intros k p Hk.
    destruct (history_origin _ _ _ _ _ H Hr0 Hk)
      as (h1 & c & r & h2 & e1 & p0 & _ & _ & Hb & [R D _ _ _ _]).
    apply begun_digest in Hb. by rewrite R, D.
  - by apply (history_nonces e0 h).
  - by apply (history_consistent e0 h).
Qed.

End entries.

End GuardianEntry.
