(* ===== verification/GuardianScenario.v ===== *)
(** A guardian of the small configuration takes part in its rotations and
    recoveries.

    Every recipient key is [x07], and sealing to it hides nothing; dealing a
    refresh broadcasts the identifier.  Nothing here models code. *)

From S2P Require Export GuardianEntry RecoveryScenario.

Module GuardianScenario.
Export RecoveryScenario.
Import Epochs GuardianRecovery GuardianSession GuardianRuntime GuardianSpec.

(** ** The libraries *)

#[export] Instance plain_sharing : SharingPrimitives := {|
  Hkdf_expand := @Hkdf_expand toy_sharing;
  XChaCha20Poly1305_encrypt := @XChaCha20Poly1305_encrypt toy_sharing;
  XChaCha20Poly1305_decrypt := @XChaCha20Poly1305_decrypt toy_sharing;
  Share := list byte;
  Share_to_vec := λ share, share;
  Share_try_from := Some;
  Sharks_dealer_rng := λ _ _ _, [];
  Sharks_recover := λ _ _, None;
  ReedSolomon := ();
  ReedSolomon_new := λ _ _, None;
  ReedSolomon_encode := λ _ _, None;
  ReedSolomon_reconstruct := λ _ _, None;
  DecapsulationKey := Id32;
  DecapsulationKey_from := λ seed, seed;
  encapsulation_key := λ _, [x07];
  EncapsulationKey := list byte;
  EncapsulationKey_try_from := Some;
  XWingCiphertext := list byte;
  XWingCiphertext_try_from := Some;
  XWingCiphertext_to_vec := λ ciphertext, ciphertext;
  encapsulate_with_rng := λ _ seed, (bytes_of seed, digest seed);
  decapsulate := λ _ ciphertext, digest ciphertext
|}.

#[export] Instance plain_frost : FrostPrimitives := {|
  Identifier := u16;
  Identifier_try_from := Some;
  Identifier_serialize := be;
  FrostVerifyingKey := ();
  VerifyingShare := ();
  SigningShare := ();
  VerifyingShare_from := λ _, ();
  KeyPackage := u16;
  KeyPackage_deserialize := λ _, None;
  KeyPackage_serialize := λ _, None;
  kp_identifier := λ p, p;
  kp_signing_share := λ _, ();
  kp_verifying_share := λ _, ();
  kp_verifying_key := λ _, ();
  kp_min_signers := λ p, p;
  PublicKeyPackage := ();
  PublicKeyPackage_new := λ _ _ _, ();
  PublicKeyPackage_deserialize := λ _, None;
  PublicKeyPackage_serialize := λ _, None;
  pkp_verifying_shares := λ _, ∅;
  pkp_verifying_key := λ _, ();
  pkp_min_signers := λ _, None;
  SecretShare := ();
  generate_with_dealer := λ _ _ _, None;
  KeyPackage_try_from := λ _, None;
  reconstruct := λ _, None;
  Delta := ();
  Delta_serialize := λ _, [];
  Delta_deserialize := λ _, None;
  Sigma := ();
  Sigma_serialize := λ _, [];
  Sigma_deserialize := λ _, None;
  repair_share_part1 := λ _ _ _ _, None;
  repair_share_part2 := λ _, ();
  repair_share_part3 := λ _ _ _, None;
  Round1Secret := u16;
  Round1Secret_serialize := λ s, Some (be s);
  Round1Secret_deserialize := λ _, None;
  r1s_identifier := λ s, s;
  Round1Package := u16;
  Round1Package_serialize := λ s, Some (be s);
  Round1Package_deserialize := λ _, None;
  refresh_dkg_part1 := λ i _ _ _, Some (i, i);
  Round2Secret := u16;
  Round2Secret_serialize := λ _, None;
  Round2Secret_deserialize := λ _, None;
  r2s_identifier := λ s, s;
  Round2Package := ();
  Round2Package_serialize := λ _, None;
  Round2Package_deserialize := λ _, None;
  refresh_dkg_part2 := λ _ _, None;
  refresh_dkg_shares := λ _ _ _ _ _, None
|}.

(** Only the payloads of local states and messages are kept. *)
#[export] Instance plain_runtime : RuntimePrimitives := {|
  local_state_to_vec := λ state,
    match state with StRefreshRound1 share secret => Some (share ++ secret) | _ => None end;
  local_state_from_slice := λ _, None;
  dpss_message_to_vec := λ message, Some (dpm_provider_payload message);
  dpss_message_from_slice := λ _, None
|}.

(** ** Guardians *)

Definition sealed_with (key plaintext : list byte) (context : Result WireError (list byte)) :
    AeadCiphertext := {|
  aead_nonce := brep 24 x00;
  aead_ciphertext := match XChaCha20Poly1305_encrypt (digest key) (brep 24 x00) plaintext
      (ok_bytes context) with Some c => c | None => [] end
|}.
Definition share_key : Id32 := digest (bytes_of (id 31)).
Definition fragment_key : Id32 := digest (bytes_of (id 32)).

Definition guardian_record (n : N) : GuardianRecordV3 := {|
  grec3_opaque_slot_id := id (90 + n);
  grec3_guardian_index := U16 n;
  grec3_fragment_index := U16 n;
  grec3_encrypted_ciphertext_fragment := sealed_with (bytes_of (id 32)) [x0f]
    (guardian_fragment_context_v3 (config 1 1) (U16 n) (U16 n));
  grec3_encrypted_dek_share := sealed_with (bytes_of (id 31)) [x0d]
    (guardian_share_context_v3 (config 1 1) (U16 n));
  grec3_merkle_path_proof := [];
  grec3_custody_root := id 33;
  grec3_policy := {|
    gpol3_config_ref := config 1 1;
    gpol3_epoch_state := EpochActive;
    gpol3_signer_set_commitment := signer_root;
    gpol3_signer_count := U16 2;
    gpol3_signer_threshold := U16 2;
    gpol3_owner_cancel_public_key := owner_key;
    gpol3_minimum_recovery_delay := U64 10;
    gpol3_guardian_material_root := id 4;
    gpol3_dpss_suite := ZfFrostRistretto255RtsRefreshV1;
    gpol3_dpss_public_commitment := id 2;
    gpol3_predecessor_capsule_hash := brep 32 x00;
    gpol3_activation_qc_hash := None;
    gpol3_drain_deadline := None
  |}
|}.

(** Guardian [n] of the old roster. *)
Definition guardian_of (n : N) : GuardianRotationEntryV3 := {|
  gre_provision := {|
    grp_mailbox := mailbox_name (90 + n);
    grp_signing_seed := id (40 + n);
    grp_signing_public_key := id (40 + n);
    grp_recovery_card := card;
    grp_predecessor_capsule := genesis;
    grp_signer_public_keys := ∅;
    grp_epoch_store := {|
      ges_config_id := id 1;
      ges_expected_predecessor := config 1 1;
      ges_expected_predecessor_capsule_hash := genesis_hash;
      ges_active := Some (guardian_record n);
      ges_active_capsule_hash := Some genesis_hash;
      ges_prepared := None;
      ges_draining := ∅;
      ges_dpss_journal := None;
      ges_rotation_tombstones := ∅;
      ges_recovery_cancellation_tombstones := ∅;
      ges_activation_qc := None;
      ges_next_write_generation := U64 1
    |}
  |};
  gre_sessions := ∅;
  gre_recoveries := ∅
|}.

Definition guardian : GuardianRotationEntryV3 := guardian_of 1.

(** A request when the guardian's clocks are at [now]. *)
Definition at_clock (now : N) (request : GuardianRotationRequestV3 + GuardianRecoveryRequestV3) :
    Call := {|
  cl_seed := id 45;
  cl_wall := U64 now;
  cl_monotonic := U64 now;
  cl_boot := "boot";
  cl_demo := false;
  cl_request := request
|}.

Definition answers_of (n : N) (calls : list Call) := (play call 1%N (guardian_of n) calls).1.
Definition answers (calls : list Call) := (play call 1%N guardian calls).1.

(** What kind of answer each request of a run has. *)
Inductive Kind : Set := Refused | Begins | Cancels | Deals | Aborts | Waits | Contributes
| Activates | Retires | Other.
Definition kind (r : Result Error (GuardianRotationResponseV3 + GuardianRecoveryResponseV3)) :
    Kind :=
  match r with
  | Err _ => Refused
  | Ok (inl (GrBeginAccepted _)) => Begins
  | Ok (inl (GrCancelled _)) | Ok (inr (GvCancelled _)) => Cancels
  | Ok (inl (GrDpssDeliveries _ _)) => Deals
  | Ok (inl GrAborted) => Aborts
  | Ok (inl (GrActivated _)) => Activates
  | Ok (inl (GrRetired _)) => Retires
  | Ok (inr (GvBeginAccepted _)) => Waits
  | Ok (inr (GvContribution _)) => Contributes
  | Ok _ => Other
  end.
Definition kinds (calls : list Call) : list Kind := kind ∘ snd <$> answers calls.
Definition kinds_of (n : N) (calls : list Call) : list Kind := kind ∘ snd <$> answers_of n calls.

(** ** Rotations *)

Definition ask_begin (now : N) : Call := at_clock now (inl (GrBegin (plan 1) (begin 1))).

Definition release_hash : Id32 := Eval vm_compute in
  digest (ok_bytes (rotation_release_certificate (release 1))).
Definition sealed_key (key : Id32) (context : Result WireError (list byte)) : SealedMessage := {|
  sealed_kem_ciphertext := bytes_of (id 43);
  sealed_payload := sealed_with (bytes_of (id 43)) (bytes_of key) context
|}.
Definition grant_with (share fragment : SealedMessage) : OldShareUnlockGrant := {|
  osug_context := rotation_context 1;
  osug_plan_hash := plan_hash 1;
  osug_release_certificate_hash := release_hash;
  osug_old_guardian_index := U16 1;
  osug_encrypted_unwrap_key := share;
  osug_encrypted_fragment_key := fragment
|}.
Definition grant : OldShareUnlockGrant :=
  let blank := sealed_key (id 0) (Ok []) in
  let context := old_share_unlock_grant_payload_context (grant_with blank blank) in
  grant_with (sealed_key share_key (context false)) (sealed_key fragment_key (context true)).
Definition ask_refresh (now : N) : Call :=
  at_clock now (inl (GrRefreshRound1 (plan 1) (Some (begin 1)) (Some (release 1)) (Some grant))).

Definition owner_cancel_with (signature : list byte) : OwnerRotationCancelCertificate := {|
  orcc_context := rotation_context 1;
  orcc_plan_hash := plan_hash 1;
  orcc_reason_code := U16 1;
  orcc_cancel_response_recipient_key := replicate 1216 x09;
  orcc_owner_cancel_public_key := owner_key;
  orcc_owner_signature := signature
|}.
Definition owner_cancel : OwnerRotationCancelCertificate :=
  owner_cancel_with (signature_of owner_key
    (ok_bytes (owner_rotation_cancel_certificate (owner_cancel_with [])))).
Definition ask_cancel (now : N) : Call := at_clock now (inl (GrCancel (plan 1) owner_cancel)).

(** Begun at 120, dealt from 130 on, cancelled, and nothing more. *)
Definition rotated : list Call :=
  [ask_begin 120; ask_refresh 129; ask_refresh 130; ask_cancel 131; ask_begin 132;
   ask_refresh 133; ask_cancel 134].

Example rotated_guardian :
  kinds rotated = [Begins; Refused; Deals; Cancels; Refused; Refused; Cancels].
Proof. vm_compute. reflexivity. Qed.

(** ** Recoveries *)

Definition recovery (n : N) : RecoveryRequestV3 := {|
  rr3_protocol_version := PROTOCOL_VERSION_V3;
  rr3_config_ref := config 1 1;
  rr3_request_id := id (140 + n);
  rr3_recovery_recipient_key := replicate 1216 x09;
  rr3_requested_at := U64 100;
  rr3_nonce := id (150 + n);
  rr3_expiry := U64 200
|}.
Definition recovery_digest_of (n : N) : Id32 :=
  digest (ok_bytes (WireV3.recovery_request_digest_v3 (recovery n))).
Definition recovery_digest_1 : Id32 := Eval vm_compute in recovery_digest_of 1.
Definition recovery_digest_2 : Id32 := Eval vm_compute in recovery_digest_of 2.
Definition recovery_digest : N → Id32 :=
  tabled recovery_digest_of recovery_digest_1 recovery_digest_2.

Definition approval (n : N) (signature : list byte) (s : N) : SignerRecoveryContributionV3 := {|
  src3_request := recovery n;
  src3_signer_id := U16 s;
  src3_signer_public_key := signer_key s;
  src3_signer_membership_proof := signer_proof;
  src3_encrypted_authorization_share := sealed_key (id 0) (Ok []);
  src3_signer_signature := signature
|}.
Definition recovery_begin (n : N) : BeginRecoveryCertificateV3 := {|
  brc3_request := recovery n;
  brc3_request_digest := recovery_digest n;
  brc3_signer_contributions := (λ s, approval n (signature_of (signer_key s)
    (ok_bytes (signer_recovery_contribution_v3 (approval n [] s)))) s) <$> signer_ids
|}.
Definition recovery_vote (n : N) (signature : list byte) (s : N) :
    SignerRecoveryReleaseVoteV3 := {|
  srrv3_request := recovery n;
  srrv3_request_digest := recovery_digest n;
  srrv3_signer_id := U16 s;
  srrv3_signer_public_key := signer_key s;
  srrv3_signer_membership_proof := signer_proof;
  srrv3_signer_signature := signature
|}.
Definition recovery_release (n : N) : RecoveryReleaseCertificateV3 := {|
  rrc3_request := recovery n;
  rrc3_request_digest := recovery_digest n;
  rrc3_votes := (λ s, recovery_vote n (signature_of (signer_key s)
    (ok_bytes (signer_recovery_release_vote_v3 (recovery_vote n [] s)))) s) <$> signer_ids
|}.
Definition recovery_cancel_with (n : N) (signature : list byte) :
    OwnerRecoveryCancelCertificateV3 := {|
  orcc3_request := recovery n;
  orcc3_request_digest := recovery_digest n;
  orcc3_reason_code := U16 1;
  orcc3_cancel_response_recipient_key := replicate 1216 x09;
  orcc3_owner_cancel_public_key := owner_key;
  orcc3_owner_signature := signature
|}.
Definition recovery_cancel (n : N) : OwnerRecoveryCancelCertificateV3 :=
  recovery_cancel_with n (signature_of owner_key
    (ok_bytes (owner_recovery_cancel_certificate_v3 (recovery_cancel_with n [])))).

Definition ask_recovery (now n : N) : Call := at_clock now (inr (GvBegin (recovery_begin n))).
Definition ask_release (now n : N) : Call :=
  at_clock now (inr (GvRelease (recovery n) (recovery_release n))).
Definition ask_recovery_cancel (now n : N) : Call :=
  at_clock now (inr (GvCancel (recovery n) (recovery_cancel n))).

(** Two recoveries begun at 120: the one cancelled, the other released when its
    delay has passed, in spite of a rotation. *)
Definition recovered : list Call :=
  [ask_recovery 120 1; ask_recovery 120 2; ask_recovery_cancel 121 1; ask_begin 122;
   ask_release 129 2; ask_release 130 2; ask_release 131 1; ask_release 131 2;
   ask_recovery 132 1; ask_recovery_cancel 133 2].

Example recovered_guardian : kinds recovered =
  [Waits; Waits; Cancels; Begins; Refused; Contributes; Refused; Refused; Refused; Refused].
Proof. vm_compute. reflexivity. Qed.

(** ** Draining

    Guardian 3 leaves the roster: when it observes the activation, its epoch
    drains. *)

Definition ask_activate (now deadline : N) : Call :=
  at_clock now (inl (GrActivate (plan 1) (successor 1 [1; 2; 3]%N) (U64 deadline))).

Definition notice (deadline : N) : RetirementNotice := {|
  rn_context := rotation_context 1;
  rn_plan_hash := plan_hash 1;
  rn_activation_qc_hash := digest (ok_bytes (epoch_activation_qc (qc 1 [1; 2; 3]%N)));
  rn_retired_epoch := U64 1;
  rn_drain_deadline := U64 deadline
|}.
(** [claimed] is the monotonic time in the request. *)
Definition ask_retire (now claimed : N) : Call :=
  at_clock now (inl (GrRetire (notice 0) (U64 claimed))).

(** The guardian goes by the time in the request, not by its own clock. *)
Lemma retires_by_claimed_time :
  kinds_of 3 [ask_begin 120; ask_activate 131 150; ask_retire 132 132]
    = [Begins; Activates; Refused]
  ∧ kinds_of 3 [ask_begin 120; ask_activate 131 150; ask_retire 132 150]
    = [Begins; Activates; Retires].
Proof. split; vm_compute; reflexivity. Qed.

(** A request that drains and is cancelled keeps the epoch from retiring. *)
Lemma cancelled_recovery_blocks_retirement :
  kinds_of 3 [ask_begin 120; ask_recovery 125 1; ask_activate 131 150;
    ask_recovery_cancel 132 1; ask_retire 151 151; ask_retire 195 1000000]
  = [Begins; Waits; Activates; Cancels; Refused; Refused].
Proof. vm_compute. reflexivity. Qed.

End GuardianScenario.
