(* ===== verification/GuardianV3Props.v ===== *)
(** What a protocol-v3 guardian promises over any history of requests to its two
    mailboxes: when it contributes to a recovery, that a cancellation is final,
    that a rotation ends once, and when it deals shares. *)

From S2P Require Import RotationProps GuardianScenario.

Module GuardianV3Props.
Import Epochs GuardianRecovery GuardianSession GuardianRuntime GuardianSpec GuardianHistory.
Import GuardianRotationSpec GuardianRotationHistory GuardianEntry.

Section props.
Context `{Prims : Primitives} `{Sharing : SharingPrimitives} `{Frost : FrostPrimitives}.
Context `{Protocol : ProtocolPrimitives} `{Runtime : RuntimePrimitives}.

(** The last call of a history. *)
Lemma did_called e c r e' : did call e [(c, r)] e' → called c r e e'.
Proof.
  intros (rng & rng' & H)%did_one. apply (wp_run _ _ _ _ _ (guardian_call_spec c (e, rng)) H).
Qed.

Lemma did_turned e c r e' : did call e [(c, r)] e' → turned c r e e'.
Proof.
  intros (rng & rng' & H)%did_one. apply (wp_run _ _ _ _ _ (call_turns c (e, rng)) H).
Qed.



Lemma plan_of_context request plan :
  plan_of request = Some plan → guardian_context request = plan_context plan.
Proof. by destruct request; intros [= ->]. Qed.

(** C2 (safety): a guardian that has contributed to a recovery accepted its Begin
    certificate before, under the same boot and no less than its delay ago by
    its monotonic clock, with the votes of a threshold of the signers of the
    capsule it held then; received, before the request expires, a release
    certificate with the votes of a threshold of the signers of the capsule it
    holds now, for a request of the same digest; and has neither contributed to
    it nor acknowledged its cancellation earlier, whatever rotations took place
    meanwhile. *)
Theorem guardian_v3_release_authorised e0 h c contribution e :
  gre_recoveries e0 = ∅ →
  did call e0 (h ++ [(c, Ok (inr (GvContribution contribution)))]) e →
  ∃ request certificate digest e1,
    did call e0 h e1 ∧ did call e1 [(c, Ok (inr (GvContribution contribution)))] e
  ∧ cl_request c = inr (GvRelease request certificate)
  ∧ grc3_request_id contribution = rr3_request_id request
  ∧ release_recovery_ok certificate (predecessor_capsule e1) (rr3_config_ref request)
      (cl_wall c) digest
  ∧ (cl_wall c < rr3_expiry request)%N
  ∧ (∃ h1 c0 begin record h2 e2,
       h = h1 ++ (c0, Ok (inr (GvBeginAccepted (sat_add (cl_monotonic c0)
          (local_delay (cl_demo c0) (gpol3_minimum_recovery_delay (grec3_policy record)))))))
          :: h2
     ∧ did call e0 h1 e2
     ∧ cl_request c0 = inr (GvBegin begin) ∧ brc3_request begin = request
     ∧ begin_recovery_ok begin (predecessor_capsule e2) (cl_wall c0) digest
     ∧ ges_active (epoch_store e2) = Some record
     ∧ record_config record = rr3_config_ref request
     ∧ cl_boot c0 = cl_boot c
     ∧ (sat_add (cl_monotonic c0) (local_delay (cl_demo c0)
          (gpol3_minimum_recovery_delay (grec3_policy record))) ≤ cl_monotonic c)%N)
  ∧ (∀ c1 contribution1, (c1, Ok (inr (GvContribution contribution1))) ∈ h →
       grc3_request_id contribution1 ≠ rr3_request_id request)
  ∧ (∀ c1 ack request1 certificate1, (c1, Ok (inr (GvCancelled ack))) ∈ h →
       cl_request c1 = inr (GvCancel request1 certificate1) →
       rr3_request_id request1 ≠ rr3_request_id request).
Proof.
  intros H0 Hd. pose proof Hd as (e1 & H & H1)%did_split.
  pose proof (did_called _ _ _ _ H1) as Hc.
  apply contributed in Hc as (request & certificate & p & p' & Hq & Hid & Hp & _ & Hreq & Hv
    & Hnc & Hnr & _ & Hb & Hm & Hw).
  destruct (history_origin _ _ _ _ _ H H0 Hp)
    as (h1 & c0 & r & h2 & e3 & p0 & Eh & H3 & Hbegun & [K1 K2 K3 K4 _ _]).
  exists request, certificate, (pn3_request_digest p), e1.
  split_and!; [done | done | done | done | by apply release_recovery_Ok | done | | |].
  - destruct Hbegun as (begin & record & Hc0 & -> & Hr0 & _ & _ & _ & Hv0 & Ha & Hrec & Hb0 & Hnb
      & _).
    exists h1, c0, begin, record, h2, e3.
    split_and!; [by rewrite <- Hnb | done | done | congruence | | done | congruence | congruence
      | rewrite <- Hnb; congruence].
    apply begin_recovery_Ok. congruence.
  - intros c1 contribution1 Hin E.
    destruct (history_released _ _ _ request _ _ H Hin E) as (p1 & Hp1 & Hr1). congruence.
  - intros c1 ack request1 certificate1 (h3 & h4 & ->)%list_elem_of_split Hc1 E.
    apply guardian_history_at in H as (e4 & e5 & _ & [_ _ (q & Hq' & Ha)] & H).
    rewrite Hc1 in Hq'. injection Hq' as <-. destruct Ha as [Hbar _].
    apply (history_barred _ _ _ _ H) in Hbar as [_ Hbar].
    unfold at_request in Hp, Hbar. rewrite E in Hbar. specialize (Hbar p Hp). congruence.
Qed.

(** C10 (safety): once a guardian has acknowledged the owner's cancellation of a
    recovery it has not contributed to it and never will, even when the request
    is begun and released again, and whatever rotations take place. *)
Theorem guardian_v3_cancel_permanent e0 h1 c ack h2 e request certificate :
  did call e0 (h1 ++ (c, Ok (inr (GvCancelled ack))) :: h2) e →
  cl_request c = inr (GvCancel request certificate) →
  ∀ c' contribution, (c', Ok (inr (GvContribution contribution))) ∈ h1 ++ h2 →
    grc3_request_id contribution ≠ rr3_request_id request.
Proof.
  intros (e1 & e2 & H1 & Hc & H2)%guardian_history_at Hq c' contribution Hin E.
  destruct Hc as [_ _ (q & Hq' & Ha)]. rewrite Hq in Hq'. injection Hq' as <-.
  destruct Ha as [Hbar Hnr].
  apply elem_of_app in Hin as [Hin | Hin].
  - destruct (history_released _ _ _ request _ _ H1 Hin E) as (p & Hp & Hr).
    rewrite (Hnr p Hp) in Hr. discriminate.
  - apply list_elem_of_split in Hin as (h3 & h4 & ->).
    apply guardian_history_at in H2 as (e3 & e4 & H3 & Hc & _).
    apply contributed in Hc as (request' & ? & p & _ & _ & Hid & Hp & _ & _ & _ & Hnc & _).
    apply (history_barred _ _ _ _ H3) in Hbar as [_ Hbar].
    unfold at_request in Hp, Hbar. rewrite <- Hid, E in Hp.
    specialize (Hbar p Hp). congruence.
Qed.

(** The retirement of the epoch that the activation the guardian observed last
    drains, when its notice is due. *)
Record retirement_due (e : GuardianRotationEntryV3) (notice : RetirementNotice) (now : u64) :
    Prop := mkRetirementDue {
  due_qc : ∃ qc t, ges_activation_qc (epoch_store e) = Some qc ∧ epoch_activation_qc qc = Ok t
    ∧ rn_activation_qc_hash notice = sha256 t ∧ rn_retired_epoch notice = qc_predecessor_epoch qc;
  due_deadline : (rn_drain_deadline notice ≤ now)%N;
  due_draining : is_Some (ges_draining (epoch_store e) !! rn_retired_epoch notice)
}.

Lemma retire_due notice now s :
  wp (retire notice now) (λ r _, is_ok r = true → retirement_due s.1 notice now) s.
Proof.
  unfold retire.
  repeat wp_step_with ltac:(fun m =>
    lazymatch m with
    | store_call _ => apply (wp_rest (λ _ _, True)); [by intros ? |]
    end); try by intros ? ?.
  checks. intros r s' _ _.
  match goal with H : wire _ = Ok _ |- _ => apply wire_Ok in H end.
  by split; [do 2 eexists | |].
Qed.

Lemma call_retires c s notice now :
  cl_request c = inl (GrRetire notice now) →
  wp (call c) (λ r _, is_ok r = true → retirement_due s.1 notice now) s.
Proof.
  intros Hc. unfold call. rewrite Hc. apply wp_bind. unfold handle_guardian_rotation_v3.
  repeat wp_step_with fail; try by intros ? ?.
  eapply wp_mono; [apply retire_due |]. intros [a | err] s' Hr; [by intros _; apply Hr | done].
Qed.

(** C8 (safety): a rotation ends once at a guardian.  After it has acknowledged the
    owner's cancellation or an abort, or has activated the successor, it accepts
    no request of that rotation any more, neither to begin it again nor to deal,
    stage, prepare, hand off, activate or abort, except the owner's cancellation
    of a rotation that was aborted or cancelled, and notices to retire an epoch:
    the one that the activation it observed last drains, whose hash the notice
    names, when the deadline of the notice has passed. *)
Theorem guardian_v3_rotation_ends_once e0 h1 c a h2 c' a' h3 e request plan aborted request' :
  gre_sessions e0 = ∅ →
  did call e0 (h1 ++ (c, Ok a) :: h2 ++ (c', Ok a') :: h3) e →
  cl_request c = inl request → plan_of request = Some plan → ending request = Some aborted →
  cl_request c' = inl request' →
  ctx_rotation_id (guardian_context request') = ctx_rotation_id (plan_context plan) →
  (aborted = true ∧ ∃ plan' certificate, request' = GrCancel plan' certificate)
  ∨ (∃ notice now e', request' = GrRetire notice now
     ∧ did call e0 (h1 ++ (c, Ok a) :: h2) e' ∧ retirement_due e' notice now).
Proof.
  intros H0 H Hq Hp Hend Hq' E. rewrite app_comm_cons, app_assoc in H.
  apply did_split in H as (e3 & H & H'). apply (did_split call e3 [_]) in H' as (e4 & H' & _).
  destruct (plan_of request') as [plan' |] eqn:Hp'.
  - left. pose proof (did_turned _ _ _ _ H') as Hc'.
    apply history_turns in H as (e1 & e2 & H1 & Hc & H2).
    destruct (history_separate _ _ _ H1) as [Hs1 _].
    { intros k _. by rewrite H0, lookup_empty. }
    pose proof (accepted_ends _ _ _ _ (turned_accepted _ _ _ _ Hc request a Hq Hs1 eq_refl) _ _
      Hp Hend) as Hended. unfold ends in Hended.
    destruct (turned_separate _ _ _ _ Hc Hs1) as [Hs2 _].
    destruct (history_separate _ _ _ H2 Hs2) as [Hs3 Hkeep].
    apply Hkeep in Hended. rewrite <- E, (plan_of_context _ _ Hp') in Hended.
    destruct (accepted_open _ _ _ _ (turned_accepted _ _ _ _ Hc' request' a' Hq' Hs3 eq_refl)
      _ _ Hp' Hended) as [(certificate & ->) ->]. split; [done |]. by exists plan', certificate.
  - right. destruct request'; try discriminate. eexists _, _, e3. split; [done |].
    split; [done |]. apply did_one in H' as (rng & rng' & H').
    by apply (wp_run _ _ _ _ _ (call_retires c' (e3, rng) _ _ Hq') H').
Qed.


(** (type): whatever a guardian is asked, its entry stays well formed.  A session
    belongs to the rotation and plan of its machine and to no rotation that has
    ended; a pending recovery is kept under the id of its request with that
    request's digest; no two have the same nonce; one is marked cancelled exactly
    when its tombstone is there, and none is both cancelled and released. *)
Theorem guardian_v3_entry_wf e0 h e :
  gre_sessions e0 = ∅ → gre_recoveries e0 = ∅ → did call e0 h e → entry_wf e.
Proof. apply history_wf. Qed.

End props.

(** ** Witnesses *)

Import GuardianScenario.

(** The contribution of the small run, made at 130 to a request begun at 120. *)
Lemma guardian_v3_release_authorised_witness :
  ∃ h1 c0 begin not_before h2 e2 digest,
    take 5 (answers recovered) = h1 ++ (c0, Ok (inr (GvBeginAccepted not_before))) :: h2
  ∧ did call guardian h1 e2
  ∧ cl_request c0 = inr (GvBegin begin) ∧ brc3_request begin = recovery 2
  ∧ begin_recovery_ok begin (predecessor_capsule e2) (cl_wall c0) digest
  ∧ (not_before ≤ 130)%N.
Proof.
  assert (H : ∃ contribution, answers recovered !! 5
      = Some (ask_release 130 2, Ok (inr (GvContribution contribution)))).
  { eexists. vm_compute. reflexivity. }
  destruct H as (contribution & H).
  destruct (play_upto call _ guardian recovered _ _ _ H) as (e & Hd).
  destruct (guardian_v3_release_authorised guardian _ _ _ e eq_refl Hd)
    as (request & certificate & digest & e1 & _ & _ & Hq & _ & _ & _ & Hb & _).
  injection Hq as <- <-.
  destruct Hb as (h1 & c0 & begin & record & h2 & e2 & Eh & H2 & Hc0 & Hr & Hok & _ & _ & _ & Hle).
  exists h1, c0, begin. eexists. exists h2, e2, digest.
  split; [exact Eh |]. split; [exact H2 |]. split; [exact Hc0 |]. split; [exact Hr |].
  split; [exact Hok | exact Hle].
Defined.

(** The recovery cancelled at 121 is not contributed to, the other one is. *)
Lemma guardian_v3_cancel_permanent_witness :
  kinds recovered = [Waits; Waits; Cancels; Begins; Refused; Contributes; Refused; Refused;
    Refused; Refused]
  ∧ ∀ c contribution, (c, Ok (inr (GvContribution contribution)))
      ∈ take 2 (answers recovered) ++ drop 3 (answers recovered) →
    grc3_request_id contribution ≠ id 141.
Proof.
  split; [exact recovered_guardian |].
  assert (H : ∃ ack, answers recovered !! 2
      = Some (ask_recovery_cancel 121 1, Ok (inr (GvCancelled ack)))).
  { eexists. vm_compute. reflexivity. }
  destruct H as (ack & H). pose proof (play_split call _ guardian recovered _ _ _ H) as Hd.
  exact (guardian_v3_cancel_permanent guardian _ _ ack _ _ (recovery 1) (recovery_cancel 1) Hd
    eq_refl).
Defined.

(** After the cancellation at 131 only cancellations and retirements are accepted. *)
Lemma guardian_v3_rotation_ends_once_witness :
  kinds rotated = [Begins; Refused; Deals; Cancels; Refused; Refused; Cancels]
  ∧ ∀ c a h2 h3, drop 4 (answers rotated) = h2 ++ (c, Ok a) :: h3 →
    cl_request c ≠ inl (GrBegin (plan 1) (begin 1)).
Proof.
  split; [exact rotated_guardian |].
  assert (H : ∃ a, answers rotated !! 3 = Some (ask_cancel 131, Ok a)).
  { eexists. vm_compute. reflexivity. }
  destruct H as (a & H). intros c a' h2 h3 Hh Hc.
  assert (Hd : did call guardian (take 3 (answers rotated) ++ (ask_cancel 131, Ok a)
    :: drop 4 (answers rotated)) (play call 1%N guardian rotated).2)
    by exact (play_split call _ guardian rotated _ _ _ H).
  rewrite Hh in Hd.
  destruct (guardian_v3_rotation_ends_once guardian _ _ a _ c a' _ _ _ _ true _ eq_refl Hd eq_refl
    eq_refl eq_refl Hc eq_refl) as [(_ & plan' & certificate & E) | (notice & now & e' & E & _)];
    discriminate E.
Defined.


(** After the small run, with a rotation begun, one recovery cancelled and one
    released. *)
Lemma guardian_v3_entry_wf_witness :
  let e := (play call 1%N guardian recovered).2 in
  entry_wf e ∧ size (gre_sessions e) = 1
  ∧ (λ p, (pn3_cancelled p, pn3_released p)) <$> gre_recoveries e
    = {[hex (id 141) := (true, false); hex (id 142) := (false, true)]}.
Proof.
  intros e. split_and!; [| vm_compute; reflexivity | vm_compute; reflexivity].
  exact (guardian_v3_entry_wf guardian _ e eq_refl eq_refl (play_did call _ guardian recovered)).
Defined.

End GuardianV3Props.
