(* ===== verification/NodesV3.v ===== *)
(** The protocol-v3 side of signer and guardian nodes: provisioning, mailboxes
    and aliases, in crates/gp-network/src/server.rs.

    A handler is code over the node's persisted data and the generator.  The
    entry of a mailbox is changed in place: what an actor changed before an
    error stays in memory, and reaches the file with the next save. *)

From S2P Require Export Mailbox SignerRuntime GuardianRuntime.

(** The version-3 parts of [SignerDisk] and [GuardianDisk]. *)
Abbreviation SignerDiskV3 := (gmap string SignerRotationEntryV3).

Record GuardianDiskV3 : Set := mkGuardianDiskV3 {
  gd3_rotation_entries : gmap string GuardianRotationEntryV3;
  gd3_rotation_aliases : gmap string string
}.

Record GuardianRouteAliasV3 : Set := mkGuardianRouteAliasV3 {
  alias_mailbox : string;
  alias_existing_mailbox : string
}.

(** serde_json::from_slice and serde_json::to_vec. *)
Class NodePrimitives : Type := {
  signer_provision_from_slice : list byte → option SignerRotationProvisionV3;
  signer_rotation_from_slice : list byte → option SignerRotationRequestV3;
  signer_rotation_to_vec : SignerRotationResponseV3 → option (list byte);
  signer_recovery_from_slice : list byte → option SignerRecoveryRequestV3;
  signer_recovery_to_vec : SignerRecoveryResponseV3 → option (list byte);
  guardian_provision_from_slice : list byte → option GuardianRotationProvisionV3;
  guardian_rotation_from_slice : list byte → option GuardianRotationRequestV3;
  guardian_rotation_to_vec : GuardianRotationResponseV3 → option (list byte);
  guardian_recovery_from_slice : list byte → option GuardianRecoveryRequestV3;
  guardian_recovery_to_vec : GuardianRecoveryResponseV3 → option (list byte)
}.

Module NodesV3.

Section nodes.
Context `{Prims : Primitives} `{Sharing : SharingPrimitives} `{Frost : FrostPrimitives}.
Context `{Protocol : ProtocolPrimitives} `{Runtime : RuntimePrimitives}.
Context `{Nodes : NodePrimitives}.

(** ** Steps *)

Abbreviation Node D A := (SR (Persisted D * Rng) ApiError A).

(** A step on the persisted data alone. *)
Definition on_disk {D A} (m : SR (Persisted D) ApiError A) : Node D A := λ s,
  let '(r, p) := m s.1 in (r, (p, s.2)).

(** A draw from the generator. *)
Definition on_rng {D A} (m : SR Rng Error A) : Node D A := λ s,
  let '(r, rng) := m s.2 in (map_err (λ e, bad_request (OfError e)) r, (s.1, rng)).

(** An actor on an entry of the data: [set] puts the entry back. *)
Definition on_entry {D E A} (entry : E) (set : E → D → D) (m : Act E A) : Node D A := λ s,
  let '(r, (entry, rng)) := m (entry, s.2) in
  (map_err (λ e, bad_request (OfError e)) r,
   (mkPersisted (set entry (data s.1)) (file s.1), rng)).

Definition serde_ok {S A} (o : option A) : SR S ApiError A :=
  lift (ok_or o (bad_request (OfError ESerde))).

Definition admitted (admin_token : string) (bearer : option string) {S} : SR S ApiError () :=
  lift (fail_if (unauthorised admin_token bearer) (forbidden "invalid node provisioning token")).

(** The plaintext of a body sealed to the node. *)
Definition unseal {S} (identity : IdentityDisk) (context : Result WireError (list byte))
    (body : SealedMailboxBody) : SR S ApiError (list byte) :=
  context ← wire_ok context;
  crypto_ok (open (RecipientKeyPair_from_seed (idd_kem_seed identity)) (smb_sealed body)
    context).

(** Sealing an answer: the rotation mailboxes encode it before the draws, the
    recovery mailboxes after them. *)
Definition seal_answer {D} (recipient_key : list byte) (mailbox direction : string)
    (encoded : option (list byte)) (encode_first : bool) : Node D SealedMailboxBody :=
  _ ← (if encode_first then _ ← serde_ok encoded; mret () else mret ());
  kem_seed ← on_rng random_id;
  nonce ← on_rng random_nonce;
  bytes ← serde_ok encoded;
  context ← wire_ok (mailbox_transport_context mailbox direction);
  sealed ← crypto_ok (seal_to_recipient recipient_key kem_seed nonce bytes context);
  mret {| smb_sealed := sealed |}.

(** ** Signers *)

Definition signer_leaf_of (provision : SignerRotationProvisionV3) :
    Result WireError (list byte) :=
  signer_leaf (srp_signer_id provision) (srp_signing_public_key provision).

Definition signer_rotation_provision (identity : IdentityDisk) (admin_token : string)
    (bearer : option string) (saved : SaveOutcome) (body : SealedMailboxBody) :
    Node SignerDiskV3 ProvisionAck :=
  _ ← admitted admin_token bearer;
  plaintext ← unseal identity (node_provision_context (idd_node_id identity) "signer-v3") body;
  provision ← serde_ok (signer_provision_from_slice plaintext);
  let active := srp_active_capsule provision in
  _ ← error_ok (validate_activated_capsule_v3 (srp_recovery_card provision) active);
  _ ← refuse_if ((uval (srp_signer_id provision) =? 0)%N
      || (cap3_signer_count active <? srp_signer_id provision)%mr
      || (srp_signing_public_key provision
          !=? verifying_key_bytes (signing_key (srp_signing_seed provision)))%mr)
    "invalid protocol-v3 signer identity";
  leaf ← wire_ok (signer_leaf_of provision);
  _ ← crypto_ok (merkle_verify (cap3_signer_set_commitment active) (sha256 leaf)
    (srp_signer_id provision - 1) (cap3_signer_count active)
    (srp_membership_proof provision));
  mailbox ← error_ok (mailbox_id (srp_mailbox provision));
  entries ← on_disk get_data;
  _ ← refuse_if (bool_decide (is_Some ((entries : SignerDiskV3) !! mailbox)))
    "protocol-v3 signer mailbox is already provisioned";
  _ ← on_disk (put_data (<[mailbox := {|
        sre_provision := provision;
        sre_security_state := Votes.new;
        sre_recovery_requests := ∅;
        sre_recovery_nonces := ∅ |}]> entries));
  _ ← on_disk (save_store saved);
  mret {| pack_mailbox := mailbox; pack_stored := true |}.

(** [get_mut(&mailbox)]. *)
Definition on_signer {A} (mailbox : string) (m : Act SignerRotationEntryV3 A) :
    Node SignerDiskV3 A :=
  entries ← on_disk get_data;
  entry ← lift (ok_or ((entries : SignerDiskV3) !! mailbox)
    (not_found "protocol-v3 signer mailbox is not provisioned"));
  on_entry entry (λ entry, insert mailbox entry) m.

Definition automatic {S} (auto_approve : bool) : SR S ApiError () :=
  lift (fail_if (negb auto_approve)
    (forbidden "automatic social approval is disabled on this signer")).

Definition signer_response_key (request : SignerRotationRequestV3) : list byte :=
  match request with
  | SrAbort _ _ _ response_recipient_key
  | SrFinalizeAbort _ _ response_recipient_key
  | SrFinalizeOwnerCancel _ _ _ response_recipient_key => response_recipient_key
  | _ => ctx_recipient_key (signer_context request)
  end.

Definition signer_rotation_mailbox (identity : IdentityDisk) (auto_approve : bool)
    (wall : option u64) (saved : SaveOutcome) (mailbox : string) (body : SealedMailboxBody) :
    Node SignerDiskV3 SealedMailboxBody :=
  _ ← automatic auto_approve;
  plaintext ← unseal identity (mailbox_transport_context mailbox "rotation-request") body;
  request ← serde_ok (signer_rotation_from_slice plaintext);
  now ← wall_now wall;
  response ← on_signer mailbox (SignerRuntime.handle_signer_rotation_v3 request now);
  _ ← on_disk (save_store saved);
  seal_answer (signer_response_key request) mailbox "rotation-response"
    (signer_rotation_to_vec response) true.

Definition signer_recovery_key (request : SignerRecoveryRequestV3) : list byte :=
  match request with
  | RecApprove request _ _ | RecRelease request => rr3_recovery_recipient_key request
  end.

Definition signer_recovery_mailbox_v3 (identity : IdentityDisk) (auto_approve : bool)
    (wall : option u64) (saved : SaveOutcome) (mailbox : string) (body : SealedMailboxBody) :
    Node SignerDiskV3 SealedMailboxBody :=
  _ ← automatic auto_approve;
  plaintext ← unseal identity (mailbox_transport_context mailbox "recovery-request-v3") body;
  request ← serde_ok (signer_recovery_from_slice plaintext);
  now ← wall_now wall;
  response ← on_signer mailbox (SignerRuntime.handle_signer_recovery_v3 request now);
  _ ← on_disk (save_store saved);
  seal_answer (signer_recovery_key request) mailbox "recovery-response-v3"
    (signer_recovery_to_vec response) false.

(** ** Guardians *)

Definition with_entry (mailbox : string) (entry : GuardianRotationEntryV3)
    (disk : GuardianDiskV3) : GuardianDiskV3 := {|
  gd3_rotation_entries := <[mailbox := entry]> (gd3_rotation_entries disk);
  gd3_rotation_aliases := gd3_rotation_aliases disk
|}.

(** The loop over the pinned signer keys, in the order of the map here. *)
Fixpoint check_signer_pins (signer_count : u16) (pins : list (u16 * barr 32)) :
    Result ApiError () :=
  match pins with
  | [] => Ok ()
  | (id, key) :: pins =>
      _ ← fail_if ((uval id =? 0)%N || (signer_count <? id)%mr)
        (bad_request (Text "guardian signer pin is out of range"));
      _ ← map_err (λ e, bad_request (OfWire e)) (signer_leaf id key);
      check_signer_pins signer_count pins
  end.

Definition guardian_rotation_provision (identity : IdentityDisk) (admin_token : string)
    (bearer : option string) (allow_insecure_demo_delay : bool) (saved : SaveOutcome)
    (body : SealedMailboxBody) : Node GuardianDiskV3 ProvisionAck :=
  _ ← admitted admin_token bearer;
  plaintext ← unseal identity (node_provision_context (idd_node_id identity) "guardian-v3")
    body;
  provision ← serde_ok (guardian_provision_from_slice plaintext);
  let predecessor := grp_predecessor_capsule provision in
  let store := grp_epoch_store provision in
  _ ← error_ok (validate_activated_capsule_v3 (grp_recovery_card provision) predecessor);
  _ ← refuse_if ((grp_signing_public_key provision
          !=? verifying_key_bytes (signing_key (grp_signing_seed provision)))
      || (Epochs.ges_config_id store !=? cr_config_id (cap3_config_ref predecessor))
      || (Epochs.ges_expected_predecessor store !=? cap3_config_ref predecessor)
      || (Epochs.ges_expected_predecessor_capsule_hash store
          !=? cap3_capsule_hash predecessor))%mr
    "guardian provision does not bind the exact predecessor and identity";
  _ ← lift (check_signer_pins (cap3_signer_count predecessor)
    (map_to_list (grp_signer_public_keys provision)));
  _ ← lift (fail_if ((cap3_minimum_recovery_delay predecessor
                        <? PRODUCTION_MIN_DELAY_SECS)%mr && negb allow_insecure_demo_delay)
    (forbidden "guardian refuses a v3 delay below 24 hours outside explicit demo mode"));
  mailbox ← error_ok (mailbox_id (grp_mailbox provision));
  disk ← on_disk get_data;
  _ ← refuse_if (bool_decide (is_Some (gd3_rotation_entries disk !! mailbox)))
    "protocol-v3 guardian mailbox is already provisioned";
  _ ← on_disk (put_data (with_entry mailbox {|
        gre_provision := provision;
        gre_sessions := ∅;
        gre_recoveries := ∅ |} disk));
  _ ← on_disk (save_store saved);
  mret {| pack_mailbox := mailbox; pack_stored := true |}.

(** [rotation_aliases.get(&mailbox).cloned().unwrap_or(mailbox)]. *)
Definition primary_mailbox (disk : GuardianDiskV3) (mailbox : string) : string :=
  default mailbox (gd3_rotation_aliases disk !! mailbox).

Definition guardian_rotation_alias (admin_token : string) (bearer : option string)
    (saved : SaveOutcome) (alias : GuardianRouteAliasV3) : Node GuardianDiskV3 ProvisionAck :=
  _ ← admitted admin_token bearer;
  _ ← refuse_if ((String.length (alias_mailbox alias) <? 32)
      || (String.length (alias_existing_mailbox alias) <? 32))%nat
    "invalid opaque guardian mailbox alias";
  disk ← on_disk get_data;
  let existing_primary := primary_mailbox disk (alias_existing_mailbox alias) in
  _ ← refuse_if (bool_decide (gd3_rotation_entries disk !! existing_primary = None)
      || bool_decide (is_Some (gd3_rotation_entries disk !! alias_mailbox alias))
      || bool_decide (is_Some (gd3_rotation_aliases disk !! alias_mailbox alias))
      || bool_decide (alias_mailbox alias = existing_primary))
    "alias target is missing or alias already exists";
  _ ← on_disk (put_data {|
        gd3_rotation_entries := gd3_rotation_entries disk;
        gd3_rotation_aliases :=
          <[alias_mailbox alias := existing_primary]> (gd3_rotation_aliases disk) |});
  _ ← on_disk (save_store saved);
  mret {| pack_mailbox := alias_mailbox alias; pack_stored := true |}.

(** [get_mut(&primary_mailbox)]. *)
Definition on_guardian {A} (mailbox : string) (m : Act GuardianRotationEntryV3 A) :
    Node GuardianDiskV3 A :=
  disk ← on_disk get_data;
  let primary := primary_mailbox disk mailbox in
  entry ← lift (ok_or (gd3_rotation_entries disk !! primary)
    (not_found "protocol-v3 guardian mailbox is not provisioned"));
  on_entry entry (with_entry primary) m.

Definition guardian_response_key (request : GuardianRotationRequestV3) : list byte :=
  match request with
  | GrCancel _ certificate => orcc_cancel_response_recipient_key certificate
  | _ => ctx_recipient_key (guardian_context request)
  end.

Definition guardian_rotation_mailbox (identity : IdentityDisk)
    (allow_insecure_demo_delay : bool) (wall monotonic : option u64) (boot : string)
    (saved : SaveOutcome) (mailbox : string) (body : SealedMailboxBody) :
    Node GuardianDiskV3 SealedMailboxBody :=
  plaintext ← unseal identity (mailbox_transport_context mailbox "rotation-request") body;
  request ← serde_ok (guardian_rotation_from_slice plaintext);
  wall ← wall_now wall;
  monotonic ← wall_now monotonic;
  response ← on_guardian mailbox (GuardianRuntime.handle_guardian_rotation_v3
    (idd_kem_seed identity) request wall monotonic boot allow_insecure_demo_delay);
  _ ← on_disk (save_store saved);
  seal_answer (guardian_response_key request) mailbox "rotation-response"
    (guardian_rotation_to_vec response) true.

Definition guardian_recovery_key (request : GuardianRecoveryRequestV3) : list byte :=
  match request with
  | GvCancel _ certificate => orcc3_cancel_response_recipient_key certificate
  | _ => rr3_recovery_recipient_key (guardian_request request)
  end.

Definition guardian_recovery_mailbox_v3 (identity : IdentityDisk)
    (allow_insecure_demo_delay : bool) (wall monotonic : option u64) (boot : string)
    (saved : SaveOutcome) (mailbox : string) (body : SealedMailboxBody) :
    Node GuardianDiskV3 SealedMailboxBody :=
  plaintext ← unseal identity (mailbox_transport_context mailbox "recovery-request-v3") body;
  request ← serde_ok (guardian_recovery_from_slice plaintext);
  wall ← wall_now wall;
  monotonic ← wall_now monotonic;
  response ← on_guardian mailbox (GuardianRecovery.handle_guardian_recovery_v3 request wall
    monotonic boot allow_insecure_demo_delay);
  _ ← on_disk (save_store saved);
  seal_answer (guardian_recovery_key request) mailbox "recovery-response-v3"
    (guardian_recovery_to_vec response) false.

End nodes.

End NodesV3.
