(* ===== verification/ClientNet.v ===== *)
(** What a client does to reach the nodes: crates/gp-network/src/client.rs.

    reqwest, the clock and the file system are the class [Network]: an
    operation may change the world outside the process and answers [None] when
    the connection, the status or the JSON of the answer is not as it should
    be.  A client is code over that world and the random generator; an error
    keeps what was sent before it. *)

From Stdlib Require Import Ascii.
From S2P Require Export WitnessServer NodesV3.

(** ** Data of clients (crates/gp-network/src/types.rs) *)

Record NodeInfo : Set := mkNodeInfo {
  ni_protocol_version : u16;
  ni_node_id : string;
  ni_role : string;
  ni_transport_public_key : list byte;
  ni_signing_public_key : option (barr 32)
}.

Record OwnerControlFile : Set := mkOwnerControlFile {
  ocf_protocol_version : u16;
  ocf_config_id : Id32;
  ocf_config_version : u64;
  ocf_owner_cancel_signing_seed : Id32;
  ocf_owner_cancel_public_key : barr 32;
  ocf_guardian_count : u16;
  ocf_guardian_threshold : u16;
  ocf_guardian_routes : list GuardianRoute;
  ocf_relay_bases : list string
}.

Record OwnerControlFileV3 : Set := mkOwnerControlFileV3 {
  ocf3_protocol_version : u16;
  ocf3_config_ref : ConfigRef;
  ocf3_owner_cancel_signing_seed : Id32;
  ocf3_owner_cancel_public_key : barr 32;
  ocf3_guardian_targets : gmap u16 string;
  ocf3_relay_bases : list string
}.

Record NetworkDemoResult : Set := mkNetworkDemoResult {
  ndr_config_id : string;
  ndr_request_id : string;
  ndr_recovered_secret : option string;
  ndr_signer_contributions : N;
  ndr_guardian_contributions : N;
  ndr_rejected_guardians : list u16;
  ndr_cancelled : bool
}.

(** What a client writes to a file. *)
Inductive Document : Set :=
| DocRequest (request : RecoveryRequest)
| DocRequestV3 (request : RecoveryRequestV3)
| DocCard (card : RecoveryCard)
| DocCardV3 (card : RecoveryCardV3)
| DocOwner (control : OwnerControlFile)
| DocOwnerV3 (control : OwnerControlFileV3)
| DocPlaintext (plaintext : list byte).

(** ** The world outside *)

Class Network : Type := {
  Net : Type;
  (* std::time, tokio::time::sleep *)
  system_time : Net → option u64 * Net;
  sleep_secs : u64 → Net → Net;
  (* std::fs, with serde_json *)
  write_file : string → Document → Net → bool * Net;
  read_card : string → Net → option RecoveryCard * Net;
  read_card_v3 : string → Net → option RecoveryCardV3 * Net;
  read_request : string → Net → option RecoveryRequest * Net;
  read_owner_control : string → Net → option OwnerControlFile * Net;
  (* reqwest: GET *)
  get_key : string → Net → option (list byte) * Net;
  get_node_info : string → Net → option NodeInfo * Net;
  get_capsule : string → Net → option ConfigCapsule * Net;
  (* reqwest: POST and PUT, with the bearer token where there is one *)
  post_read : string → EpochReadChallenge → Net → option WitnessReadEnvelope * Net;
  post_sealed : string → SealedMailboxBody → Net → option SealedMailboxBody * Net;
  post_provision : string → string → SealedMailboxBody → Net → bool * Net;
  post_register : string → string → RouteRegistration → Net → bool * Net;
  post_alias : string → string → GuardianRouteAliasV3 → Net → bool * Net;
  post_witness_config : string → string → WitnessServer.WitnessConfigProvision → Net → bool * Net;
  put_capsule : string → string → ConfigCapsule → Net → bool * Net
}.

(** serde_json. *)
Class ClientPrimitives : Type := {
  mailbox_request_to_vec : MailboxRequest → option (list byte);
  mailbox_response_from_slice : list byte → option MailboxResponse;
  signer_recovery_request_to_vec : SignerRecoveryRequestV3 → option (list byte);
  signer_recovery_response_from_slice : list byte → option SignerRecoveryResponseV3;
  guardian_recovery_request_to_vec : GuardianRecoveryRequestV3 → option (list byte);
  guardian_recovery_response_from_slice : list byte → option GuardianRecoveryResponseV3;
  provision_to_vec : ProvisionPayload → option (list byte);
  signer_provision_to_vec : SignerRotationProvisionV3 → option (list byte);
  guardian_provision_to_vec : GuardianRotationProvisionV3 → option (list byte);
  descriptor_v3_to_vec : RecoveryDescriptorV3 → option (list byte);
  descriptor_v3_from_slice : list byte → option RecoveryDescriptorV3
}.

(** serde_json gives back the descriptor it encoded. *)
Class DescriptorJson `{ClientPrimitives} : Prop := {
  descriptor_v3_round_trip descriptor encoded :
    descriptor_v3_to_vec descriptor = Some encoded →
    descriptor_v3_from_slice encoded = Some descriptor
}.

(** ** Strings *)

(** [value.starts_with(prefix)] is [String.prefix]; [value.contains(pattern)]. *)
Fixpoint contains (pattern value : string) : bool :=
  String.prefix pattern value
  || match value with EmptyString => false | String _ rest => contains pattern rest end.

(** [value.replace(pattern, replacement)] for a pattern that is not empty;
    [skip] characters belong to the last match. *)
Fixpoint replace_from (skip : nat) (pattern replacement value : string) : string :=
  match value with
  | EmptyString => EmptyString
  | String c rest =>
      match skip with
      | S skip => replace_from skip pattern replacement rest
      | O =>
          if String.prefix pattern value
          then replacement +:+ replace_from (String.length pattern - 1) pattern replacement rest
          else String c (replace_from 0 pattern replacement rest)
      end
  end.
Definition replace : string → string → string → string := replace_from 0.

Definition ends_with (suffix value : string) : bool :=
  bool_decide (String.substring (String.length value - String.length suffix) (String.length suffix) value
    = suffix).

(** *** [String::from_utf8_lossy] *)

(** The continuation bytes that a first byte asks for, with the bounds of the
    next one. *)
Definition utf8_lead (b : N) : option (nat * N * N) :=
  if (b <? 0x80)%N then Some (0%nat, 0x80, 0xBF)%N
  else if (b <? 0xC2)%N then None
  else if (b <? 0xE0)%N then Some (1%nat, 0x80, 0xBF)%N
  else if (b =? 0xE0)%N then Some (2%nat, 0xA0, 0xBF)%N
  else if (b =? 0xED)%N then Some (2%nat, 0x80, 0x9F)%N
  else if (b <? 0xF0)%N then Some (2%nat, 0x80, 0xBF)%N
  else if (b =? 0xF0)%N then Some (3%nat, 0x90, 0xBF)%N
  else if (b <? 0xF4)%N then Some (3%nat, 0x80, 0xBF)%N
  else if (b =? 0xF4)%N then Some (3%nat, 0x80, 0x8F)%N
  else None.

Definition text (bytes : list byte) : string := String.string_of_list_byte bytes.
(** U+FFFD. *)
Definition REPLACEMENT_CHARACTER : string := text [xef; xbf; xbd].

(** [pending] holds the bytes of a character that lacks [need] more, the next
    one between [lo] and [hi]. *)
Fixpoint utf8_lossy_from (pending : list byte) (need : nat) (lo hi : N) (bytes : list byte) :
    string :=
  match bytes with
  | [] => match need with O => EmptyString | S _ => REPLACEMENT_CHARACTER end
  | b :: bytes =>
      let n := Byte.to_N b in
      let start :=
        match utf8_lead n with
        | None => REPLACEMENT_CHARACTER +:+ utf8_lossy_from [] 0 0 0 bytes
        | Some (O, _, _) => text [b] +:+ utf8_lossy_from [] 0 0 0 bytes
        | Some (need, lo, hi) => utf8_lossy_from [b] need lo hi bytes
        end in
      match need with
      | O => start
      | S need =>
          if (lo <=? n)%N && (n <=? hi)%N then
            match need with
            | O => text (pending ++ [b]) +:+ utf8_lossy_from [] 0 0 0 bytes
            | S _ => utf8_lossy_from (pending ++ [b]) need 0x80 0xBF bytes
            end
          else REPLACEMENT_CHARACTER +:+ start
      end
  end.
Definition from_utf8_lossy : list byte → string := utf8_lossy_from [] 0 0 0.

(** *** Mailbox addresses

    [value.trim_end_matches('/')] is [trim_end_slashes]. *)

Definition mailbox_id (mailbox_url : string) : Result Error string :=
  let value := after_last_slash (trim_end_slashes mailbox_url) in
  if 32 <=? String.length value then Ok value else Err (Msg "invalid mailbox URL").

(** The text itself only goes into messages; cutting it at byte 10 panics
    inside a character. *)
Definition short_mailbox (mailbox : string) : Result Error () :=
  match mailbox_id mailbox with
  | Ok value => fail_if (negb (prefix_sliceable value)) EPanic
  | Err _ => Ok ()
  end.

Definition mailbox_replicas (mailbox : string) (relay_bases : list string) : list string :=
  match mailbox_id mailbox with
  | Err _ => [mailbox]
  | Ok id =>
      foldl (λ replicas base,
        let candidate := trim_end_slashes base +:+ "/v1/mailboxes/" +:+ id in
        if bool_decide (candidate ∈ replicas) then replicas else replicas ++ [candidate])
        [mailbox] relay_bases
  end.

(** The candidates of [send_recovery_mailbox_v3]. *)
Definition recovery_candidates (mailbox mailbox_id : string) (relays : list string) :
    list string :=
  foldl (λ candidates relay,
    let candidate := trim_end_slashes relay +:+ "/v3/recovery-mailboxes/" +:+ mailbox_id in
    if bool_decide (candidate ∈ candidates) then candidates else candidates ++ [candidate])
    (if contains "/v3/recovery-mailboxes/" mailbox then [mailbox] else []) relays.

(** The URL of the transport key behind a recovery mailbox. *)
Definition key_url (mailbox : string) : string :=
  replace "/v3/recovery-mailboxes/" "/v3/mailboxes/" (trim_end_slashes mailbox) +:+ "/key".

Definition required_cancel_acks (total_guardians recovery_threshold : N) : Result Error N :=
  if ((recovery_threshold =? 0) || (total_guardians <? recovery_threshold))%N
  then Err (Msg "invalid guardian threshold in owner control state")
  else Ok (total_guardians - recovery_threshold + 1)%N.

(** ** Steps *)

Section steps.
Context `{Protocol : ProtocolPrimitives} `{Network}.

Definition Client (A : Type) : Type := Act Net A.

(** An exchange with the world, [e] when it fails. *)
Definition exchange {A} (e : Error) (f : Net → option A * Net) : Client A := λ s,
  let '(o, net) := f s.1 in (ok_or o e, (net, s.2)).
Definition exchange_ok (e : Error) (f : Net → bool * Net) : Client () := λ s,
  let '(b, net) := f s.1 in (fail_if (negb b) e, (net, s.2)).

Definition wall_now : Client u64 :=
  exchange (Msg "system clock is before the Unix epoch") system_time.
Definition sleep (secs : u64) : Client () := λ s, (Ok (), (sleep_secs secs s.1, s.2)).

(** [match m { Ok(value) => .., Err(error) => .. }]: a panic is not caught. *)
Definition attempt {A} (m : Client A) : Client (Result Error A) := λ s,
  match m s with
  | (Err EPanic, s) => (Err EPanic, s)
  | (r, s) => (Ok r, s)
  end.

(** [if let Some(path) = &path { write(path, document)? }]. *)
Definition write_if_asked (path : option string) (document : Document) : Client () :=
  match path with
  | Some path => exchange_ok EIo (write_file path document)
  | None => mret ()
  end.

(** [for x in l { f(x)?; }]. *)
Fixpoint each {A} (f : A → Client ()) (l : list A) : Client () :=
  match l with
  | [] => mret ()
  | x :: l => _ ← f x; each f l
  end.

(** The loops that ask one target after the other and break once [threshold]
    answers are kept; [keep] is what the loop does with an answer. *)
Fixpoint collect_until {T R V} (threshold : N) (ask : T → Client R)
    (keep : T → Result Error R → list V → list V) (targets : list T) (kept : list V) :
    Client (list V) :=
  match targets with
  | [] => mret kept
  | target :: targets =>
      answer ← attempt (ask target);
      let kept := keep target answer kept in
      if (threshold <=? len kept)%N then mret kept
      else collect_until threshold ask keep targets kept
  end.

(** The first candidate that answers; the last error, or [none]. *)
Fixpoint first_answer {R} (last_error : Error) (ask : string → Client R)
    (candidates : list string) : Client R :=
  match candidates with
  | [] => try (Err last_error)
  | candidate :: candidates =>
      answer ← attempt (ask candidate);
      match answer with
      | Ok response => mret response
      | Err error => first_answer error ask candidates
      end
  end.

End steps.

(** ** Mailboxes *)

Section mailboxes.
Context `{Prims : Primitives} `{Sharing : SharingPrimitives} `{Protocol : ProtocolPrimitives}.
Context `{Network} `{ClientPrimitives}.

(** [seal_to_recipient] with fresh draws, and the exchange of sealed bodies;
    the arguments of a call are evaluated from left to right. *)
Definition send_sealed {T R} (to_vec : T → option (list byte))
    (from_slice : list byte → option R) (key_url mailbox request_direction response_direction
    : string) (action : T) (recipient : RecipientKeyPair) (encode_first : bool) : Client R :=
  transport_key ← exchange EHttp (get_key key_url);
  mailbox_id ← try (mailbox_id mailbox);
  _ ← (if encode_first then _ ← try (ok_or (to_vec action) ESerde); mret () else mret ());
  kem_seed ← draw random_id;
  nonce ← draw random_nonce;
  plaintext ← try (ok_or (to_vec action) ESerde);
  context ← try (wire (mailbox_transport_context mailbox_id request_direction));
  sealed ← try (crypto (seal_to_recipient transport_key kem_seed nonce plaintext context));
  response ← exchange EHttp (post_sealed mailbox {| smb_sealed := sealed |});
  context ← try (wire (mailbox_transport_context mailbox_id response_direction));
  plaintext ← try (crypto (open recipient (smb_sealed response) context));
  try (ok_or (from_slice plaintext) ESerde).

Definition send_recovery_mailbox_once_v3 {T R} (to_vec : T → option (list byte))
    (from_slice : list byte → option R) (mailbox : string) (action : T)
    (recipient : RecipientKeyPair) : Client R :=
  send_sealed to_vec from_slice (key_url mailbox) mailbox
    "recovery-request-v3" "recovery-response-v3" action recipient false.

Definition send_recovery_mailbox_v3 {T R} (to_vec : T → option (list byte))
    (from_slice : list byte → option R) (mailbox : string) (relays : list string) (action : T)
    (recipient : RecipientKeyPair) : Client R :=
  mailbox_id ← try (mailbox_id mailbox);
  answer ← attempt (first_answer (Msg "no protocol-v3 relay replicas configured")
    (λ candidate, send_recovery_mailbox_once_v3 to_vec from_slice candidate action recipient)
    (recovery_candidates mailbox mailbox_id relays));
  match answer with
  | Ok response => mret response
  | Err error => _ ← try (short_mailbox mailbox); try (Err error)
  end.

Definition send_mailbox (mailbox : string) (action : MailboxRequest)
    (recipient : RecipientKeyPair) : Client MailboxResponse :=
  send_sealed mailbox_request_to_vec mailbox_response_from_slice
    (trim_end_slashes mailbox +:+ "/key") mailbox "request" "response" action recipient true.

Definition send_mailbox_mirrored (mailbox : string) (relays : list string)
    (action : MailboxRequest) (recipient : RecipientKeyPair) : Client MailboxResponse :=
  answer ← attempt (first_answer (Msg "no relay replicas configured")
    (λ candidate, send_mailbox candidate action recipient) (mailbox_replicas mailbox relays));
  match answer with
  | Ok response => mret response
  | Err error => _ ← try (short_mailbox mailbox); try (Err error)
  end.

Definition send_to_signer (mailbox : string) (relays : list string)
    (action : SignerRecoveryRequestV3) (recipient : RecipientKeyPair) :
    Client SignerRecoveryResponseV3 :=
  send_recovery_mailbox_v3 signer_recovery_request_to_vec signer_recovery_response_from_slice
    mailbox relays action recipient.

Definition send_to_guardian (mailbox : string) (relays : list string)
    (action : GuardianRecoveryRequestV3) (recipient : RecipientKeyPair) :
    Client GuardianRecoveryResponseV3 :=
  send_recovery_mailbox_v3 guardian_recovery_request_to_vec
    guardian_recovery_response_from_slice mailbox relays action recipient.

(** [format!("{}/v1/mailboxes/{}", .., hex::encode(random_id()))]. *)
Definition mailbox_url (relay : string) : SR Rng Error string :=
  id ← random_id; mret (trim_end_slashes relay +:+ "/v1/mailboxes/" +:+ hex_encode id).
Definition mailbox_url_v3 (relay : string) : SR Rng Error string :=
  id ← random_id; mret (trim_end_slashes relay +:+ "/v3/mailboxes/" +:+ hex_encode id).

End mailboxes.
