(* ===== verification/ClientV2.v ===== *)
(** The version-2 clients: setup, recovery and the owner's cancel, in
    crates/gp-network/src/client.rs.  Progress messages are left out. *)

From S2P Require Export ClientNet.

(** ** Options and results *)

Record SetupOptions : Set := mkSetupOptions {
  so_secret : list byte;
  so_config_stores : list string;
  so_relays : list string;
  so_relay_token : string;
  so_admin_token : string;
  so_signers : list string;
  so_guardians : list string;
  so_signer_threshold : u16;
  so_guardian_threshold : u16;
  so_delay_secs : u64;
  so_card_path : string;
  so_owner_control_path : string
}.

Record RecoverOptions : Set := mkRecoverOptions {
  ro_card_path : string;
  ro_output_path : option string;
  ro_request_out_path : option string;
  ro_cancel_before_release : bool;
  ro_owner_control_path : string
}.

Record CancelOptions : Set := mkCancelOptions {
  co_request_path : string;
  co_owner_control_path : string
}.

Record OwnerCancelResult : Set := mkOwnerCancelResult {
  ocr_config_id : string;
  ocr_request_id : string;
  ocr_guardian_acknowledgements : N;
  ocr_permanently_cancelled : bool
}.

Module ClientV2.

Section client.
Context `{Prims : Primitives} `{Sharing : SharingPrimitives}.
Context `{Protocol : ProtocolPrimitives} `{World : Network} `{Json : ClientPrimitives}.

(** ** Setup *)

Definition provision_actor (target expected_role : string) (payload : ProvisionPayload)
    (admin_token : string) : Client () :=
  info ← exchange EHttp (get_node_info (trim_end_slashes target +:+ "/v1/node-info"));
  _ ← bail_if ((ni_protocol_version info !=? PROTOCOL_VERSION)
      || (ni_role info !=? expected_role))%mr "node has another role than expected";
  bytes ← try (ok_or (provision_to_vec payload) ESerde);
  kem_seed ← draw random_id;
  nonce ← draw random_nonce;
  context ← try (wire (node_provision_context (ni_node_id info) expected_role));
  sealed ← try (crypto (seal_to_recipient (ni_transport_public_key info) kem_seed nonce bytes
    context));
  exchange_ok EHttp (post_provision (trim_end_slashes target +:+ "/v1/provision") admin_token
    {| smb_sealed := sealed |}).

Definition register_route (relay token mailbox_url target : string) : Client () :=
  info ← exchange EHttp (get_node_info (trim_end_slashes target +:+ "/v1/node-info"));
  mailbox ← try (mailbox_id mailbox_url);
  exchange_ok EHttp (post_register (trim_end_slashes relay +:+ "/v1/register") token
    {| rreg_mailbox := mailbox;
       rreg_target_url := trim_end_slashes target;
       rreg_transport_public_key := ni_transport_public_key info |}).

(** [count] fresh mailboxes at a relay. *)
Fixpoint fresh_mailboxes (url : string → SR Rng Error string) (relay : string) (count : nat) :
    Client (list string) :=
  match count with
  | O => mret []
  | S count =>
      mailbox ← draw (url relay);
      mailboxes ← fresh_mailboxes url relay count;
      mret (mailbox :: mailboxes)
  end.

(** [u16::try_from(l.len())]. *)
Definition count_u16 {A} (l : list A) : Client u16 :=
  try (ok_or (try_u16 (len l)) ETryFromInt).

(** The loop body of provisioning: the actor, then its route on every relay. *)
Definition install (options : SetupOptions) (relay_bases : list string) (role : string)
    (target mailbox : string) (payload : ProvisionPayload) : Client () :=
  _ ← provision_actor target role payload (so_admin_token options);
  _ ← each (λ relay, register_route relay (so_relay_token options) mailbox target) relay_bases;
  try (short_mailbox mailbox).

Definition publish (options : SetupOptions) (bundle : SetupBundle) (store : string) : Client () :=
  exchange_ok EHttp (put_capsule
    (trim_end_slashes store +:+ "/v1/configs/" +:+ hex_encode (cap_config_id (sb_capsule bundle)))
    (so_admin_token options) (sb_capsule bundle)).

Definition setup (options : SetupOptions) : Client RecoveryCard :=
  _ ← bail_if (bool_decide (so_signers options = []) || bool_decide (so_guardians options = [])
      || bool_decide (so_relays options = []) || bool_decide (so_config_stores options = []))
    "at least one signer, guardian, relay, and config store is required";
  let relay_bases := trim_end_slashes <$> so_relays options in
  signer_count ← count_u16 (so_signers options);
  guardian_count ← count_u16 (so_guardians options);
  first_relay ← try (index_or_panic relay_bases 0);
  signer_mailboxes ← fresh_mailboxes mailbox_url first_relay (length (so_signers options));
  guardian_mailboxes ← fresh_mailboxes mailbox_url first_relay (length (so_guardians options));
  let policy := {|
    setup_signer_count := signer_count;
    setup_signer_threshold := so_signer_threshold options;
    setup_guardian_count := guardian_count;
    setup_guardian_threshold := so_guardian_threshold options;
    setup_minimum_recovery_delay := so_delay_secs options
  |} in
  bundle ← draw (create_setup (so_secret options) policy signer_mailboxes guardian_mailboxes
    (so_config_stores options) relay_bases);
  seed ← present (try_barr 32 (sb_owner_cancel_signing_seed bundle))
    "invalid owner cancellation signing seed";
  let capsule := sb_capsule bundle in
  let owner_control := {|
    ocf_protocol_version := cap_protocol_version capsule;
    ocf_config_id := cap_config_id capsule;
    ocf_config_version := cap_config_version capsule;
    ocf_owner_cancel_signing_seed := seed;
    ocf_owner_cancel_public_key := cap_owner_cancel_public_key capsule;
    ocf_guardian_count := cap_guardian_count capsule;
    ocf_guardian_threshold := cap_guardian_threshold capsule;
    ocf_guardian_routes := sb_owner_guardian_routes bundle;
    ocf_relay_bases := relay_bases
  |} in
  _ ← each (λ '(target, signer, mailbox),
        install options relay_bases "signer" target mailbox (ProvisionSigner signer))
    (zip (zip (so_signers options) (sb_signers bundle)) (card_signer_mailboxes (sb_card bundle)));
  _ ← each (λ '(target, guardian),
        install options relay_bases "guardian" target (gprov_mailbox guardian)
          (ProvisionGuardian guardian))
    (zip (so_guardians options) (sb_guardians bundle));
  _ ← each (publish options bundle) (so_config_stores options);
  _ ← exchange_ok EIo (write_file (so_card_path options) (DocCard (sb_card bundle)));
  _ ← exchange_ok EIo (write_file (so_owner_control_path options) (DocOwner owner_control));
  mret (sb_card bundle).

(** ** The owner's cancel *)

(** The loop over the guardians: the indexes of those whose acknowledgement
    is valid. *)
Fixpoint gather_cancel_acks (relays : list string) (recipient : RecipientKeyPair)
    (request : RecoveryRequest) (certificate : OwnerCancelCertificate)
    (routes : list GuardianRoute) (acknowledgements : gset u16) : Client (gset u16) :=
  match routes with
  | [] => mret acknowledgements
  | route :: routes =>
      answer ← attempt (send_mailbox_mirrored (gr_mailbox route) relays
        (MGuardianCancel request certificate) recipient);
      gather_cancel_acks relays recipient request certificate routes
        (match answer with
         | Ok (MCancellationAccepted ack) =>
             match validate_owner_cancel_ack ack certificate request route with
             | Ok _ => {[oca_guardian_index ack]} ∪ acknowledgements
             | Err _ => acknowledgements
             end
         | _ => acknowledgements
         end)
  end.

(** What the owner's file and a request must satisfy. *)
Definition cancel_mismatch (owner_control : OwnerControlFile) (request : RecoveryRequest)
    (now : u64) : bool :=
  ((ocf_protocol_version owner_control !=? PROTOCOL_VERSION)
   || (rr_protocol_version request !=? PROTOCOL_VERSION)
   || (ocf_config_id owner_control !=? rr_config_id request)
   || (ocf_config_version owner_control !=? rr_config_version request)
   || (now <? rr_requested_at request)
   || (rr_expiry request <=? now)
   || (uval (ocf_guardian_count owner_control) !=? len (ocf_guardian_routes owner_control))
   || (uval (ocf_guardian_threshold owner_control) =? 0)%N
   || (ocf_guardian_count owner_control <? ocf_guardian_threshold owner_control))%mr.

Definition cancel (options : CancelOptions) : Client OwnerCancelResult :=
  request ← exchange EIo (read_request (co_request_path options));
  owner_control ← exchange EIo (read_owner_control (co_owner_control_path options));
  now ← wall_now;
  _ ← bail_if (cancel_mismatch owner_control request now)
    "owner control file and recovery request do not form a valid active configuration";
  let seed := ocf_owner_cancel_signing_seed owner_control in
  _ ← bail_if (verifying_key_bytes (signing_key seed)
        !=? ocf_owner_cancel_public_key owner_control)%mr
    "owner control private key does not match its pinned public key";
  recipient_seed ← draw random_id;
  let cancel_recipient := RecipientKeyPair_from_seed recipient_seed in
  certificate ← try (make_owner_cancel_certificate request seed (rkp_public cancel_recipient)
    (U16 1) now);
  acknowledgements ← gather_cancel_acks (ocf_relay_bases owner_control) cancel_recipient request
    certificate (ocf_guardian_routes owner_control) ∅;
  required_acks ← try (required_cancel_acks (ocf_guardian_count owner_control)
    (ocf_guardian_threshold owner_control));
  _ ← bail_if (N.of_nat (size acknowledgements) <? required_acks)%N
    "owner hard-cancel reached fewer guardians than required";
  mret {|
    ocr_config_id := hex_encode (rr_config_id request);
    ocr_request_id := hex_encode (rr_request_id request);
    ocr_guardian_acknowledgements := N.of_nat (size acknowledgements);
    ocr_permanently_cancelled := true
  |}.

(** ** Recovery *)

(** The first config store that answers with a capsule that fits the card. *)
Fixpoint fetch_capsule (card : RecoveryCard) (locators : list string) : Client ConfigCapsule :=
  match locators with
  | [] => try (Err (Msg "no config store responded"))
  | locator :: locators =>
      answer ← attempt (exchange EHttp (get_capsule locator));
      match answer with
      | Ok value =>
          match validate_capsule card value with
          | Ok _ => mret value
          | Err _ => fetch_capsule card locators
          end
      | Err _ => fetch_capsule card locators
      end
  end.

Definition recovery_request (capsule : ConfigCapsule) (recipient : RecipientKeyPair)
    (request_id nonce : Id32) (now : u64) : RecoveryRequest := {|
  rr_protocol_version := PROTOCOL_VERSION;
  rr_crypto_suite := cap_crypto_suite capsule;
  rr_config_id := cap_config_id capsule;
  rr_config_version := cap_config_version capsule;
  rr_request_id := request_id;
  rr_recovery_recipient_key := rkp_public recipient;
  rr_requested_at := now;
  rr_nonce := nonce;
  rr_expiry := sat_add now (cap_max_request_lifetime capsule)
|}.

(** The answers kept by the loops over the signers; messages panic where a
    mailbox cannot be cut. *)
Definition keep_contribution (_ : string) (answer : Result Error MailboxResponse)
    (kept : list SignerContribution) : list SignerContribution :=
  match answer with
  | Ok (MSignerContribution contribution) => kept ++ [contribution]
  | _ => kept
  end.
Definition keep_release_vote (_ : string) (answer : Result Error MailboxResponse)
    (kept : list ReleaseVote) : list ReleaseVote :=
  match answer with Ok (MReleaseVote vote) => kept ++ [vote] | _ => kept end.

(** A signer's answer to an approval, with the message about it. *)
Definition ask_approval (card : RecoveryCard) (recipient : RecipientKeyPair)
    (request : RecoveryRequest) (mailbox : string) : Client MailboxResponse :=
  answer ← attempt (send_mailbox_mirrored mailbox (card_relay_bases card)
    (MSignerApprove request) recipient);
  _ ← try (short_mailbox mailbox);
  try answer.

Definition gather_approvals (card : RecoveryCard) (capsule : ConfigCapsule)
    (recipient : RecipientKeyPair) (request : RecoveryRequest) :
    Client (list SignerContribution) :=
  contributions ← collect_until (cap_signer_threshold capsule)
    (ask_approval card recipient request) keep_contribution (card_signer_mailboxes card) [];
  _ ← bail_if (len contributions <? cap_signer_threshold capsule)%mr
    "signer approval threshold was not reached";
  mret contributions.

Definition gather_release_votes (card : RecoveryCard) (capsule : ConfigCapsule)
    (recipient : RecipientKeyPair) (request : RecoveryRequest) (message : string) :
    Client (list ReleaseVote) :=
  votes ← collect_until (cap_signer_threshold capsule)
    (λ mailbox, send_mailbox_mirrored mailbox (card_relay_bases card) (MSignerRelease request)
       recipient) keep_release_vote (card_signer_mailboxes card) [];
  _ ← bail_if (len votes <? cap_signer_threshold capsule)%mr message;
  mret votes.

Fixpoint count_begins (card : RecoveryCard) (recipient : RecipientKeyPair)
    (begin : BeginRecoveryCertificate) (routes : list GuardianRoute) (begin_count : N) :
    Client N :=
  match routes with
  | [] => mret begin_count
  | route :: routes =>
      answer ← attempt (send_mailbox_mirrored (gr_mailbox route) (card_relay_bases card)
        (MGuardianBegin begin) recipient);
      count_begins card recipient begin routes
        (match answer with Ok (MBeginAccepted _) => begin_count + 1 | _ => begin_count end)%N
  end.

(** The loop that offers the raced certificate to cancelled guardians, until
    one refuses as it should. *)
Fixpoint observe_refusal (card : RecoveryCard) (recipient : RecipientKeyPair)
    (request : RecoveryRequest) (raced_release : ReleaseCertificate)
    (routes : list GuardianRoute) : Client bool :=
  match routes with
  | [] => mret false
  | route :: routes =>
      answer ← attempt (send_mailbox_mirrored (gr_mailbox route) (card_relay_bases card)
        (MGuardianRelease request raced_release) recipient);
      match answer with
      | Ok (MGuardianContribution _) => try (Err (Msg "cancelled guardian released material"))
      | Ok (MReleaseRefused reason) =>
          if bool_decide (reason = "cancelled") then mret true
          else observe_refusal card recipient request raced_release routes
      | _ => observe_refusal card recipient request raced_release routes
      end
  end.

Definition cancelled_result (capsule : ConfigCapsule) (request : RecoveryRequest) :
    NetworkDemoResult := {|
  ndr_config_id := hex_encode (cap_config_id capsule);
  ndr_request_id := hex_encode (rr_request_id request);
  ndr_recovered_secret := None;
  ndr_signer_contributions := cap_signer_threshold capsule;
  ndr_guardian_contributions := 0;
  ndr_rejected_guardians := [];
  ndr_cancelled := true
|}.

(** [options.cancel_before_release]: the owner cancels while a Release
    certificate is already out. *)
Definition race_cancel (options : RecoverOptions) (card : RecoveryCard)
    (capsule : ConfigCapsule) (descriptor : RecoveryDescriptor) (recipient : RecipientKeyPair)
    (request : RecoveryRequest) : Client NetworkDemoResult :=
  votes ← gather_release_votes card capsule recipient request
    "could not construct the cancellation-race release certificate";
  let raced_release := {| rc_votes := votes |} in
  owner_control ← exchange EIo (read_owner_control (ro_owner_control_path options));
  _ ← bail_if ((ocf_protocol_version owner_control !=? PROTOCOL_VERSION)
      || (ocf_config_id owner_control !=? rr_config_id request)
      || (ocf_config_version owner_control !=? rr_config_version request)
      || (ocf_owner_cancel_public_key owner_control !=? cap_owner_cancel_public_key capsule)
      || (ocf_guardian_count owner_control !=? cap_guardian_count capsule)
      || (ocf_guardian_threshold owner_control !=? cap_guardian_threshold capsule)
      || (ocf_guardian_routes owner_control !=? rd_guardians descriptor)
      || (ocf_relay_bases owner_control !=? card_relay_bases card))%mr
    "owner control file does not match this recovery configuration";
  recipient_seed ← draw random_id;
  let cancel_recipient := RecipientKeyPair_from_seed recipient_seed in
  now ← wall_now;
  certificate ← try (make_owner_cancel_certificate request
    (ocf_owner_cancel_signing_seed owner_control) (rkp_public cancel_recipient) (U16 1) now);
  cancelled_guardians ← gather_cancel_acks (card_relay_bases card) cancel_recipient request
    certificate (rd_guardians descriptor) ∅;
  required_acks ← try (required_cancel_acks (cap_guardian_count capsule)
    (cap_guardian_threshold capsule));
  _ ← bail_if (N.of_nat (size cancelled_guardians) <? required_acks)%N
    "cancellation did not reach enough guardians";
  _ ← sleep (sat_add (cap_minimum_recovery_delay capsule) (U64 1));
  observed_refusal ← observe_refusal card recipient request raced_release
    (rd_guardians descriptor);
  _ ← bail_if (negb observed_refusal)
    "no guardian produced an authenticated cancellation refusal";
  mret (cancelled_result capsule request).

(** What the last loop has: fragments and shares in step. *)
Record Material : Set := mkMaterial {
  mat_fragments : list (u16 * list byte);
  mat_dek_shares : list (list byte);
  mat_rejected : list u16
}.
Definition no_material : Material := mkMaterial [] [] [].

Definition accept_material (descriptor : RecoveryDescriptor) (request : RecoveryRequest)
    (authorization_key : list byte) (route : GuardianRoute)
    (answer : Result Error MailboxResponse) (material : Material) : Material :=
  let rejected := mkMaterial (mat_fragments material) (mat_dek_shares material)
    (mat_rejected material ++ [gr_guardian_index route]) in
  match answer with
  | Ok (MGuardianContribution contribution) =>
      match validate_guardian_contribution contribution route descriptor request
              authorization_key with
      | Ok share => mkMaterial
          (mat_fragments material
            ++ [(gc_guardian_index contribution, gc_ciphertext_fragment contribution)])
          (mat_dek_shares material ++ [share]) (mat_rejected material)
      | Err _ => rejected
      end
  | _ => rejected
  end.

Fixpoint gather_material (card : RecoveryCard) (capsule : ConfigCapsule)
    (descriptor : RecoveryDescriptor) (request : RecoveryRequest)
    (authorization_key : list byte) (release : ReleaseCertificate)
    (recipient : RecipientKeyPair) (routes : list GuardianRoute) (material : Material) :
    Client Material :=
  match routes with
  | [] => mret material
  | route :: routes =>
      answer ← attempt (send_mailbox_mirrored (gr_mailbox route) (card_relay_bases card)
        (MGuardianRelease request release) recipient);
      let material := accept_material descriptor request authorization_key route answer
        material in
      if (cap_guardian_threshold capsule <=? len (mat_fragments material))%N then mret material
      else gather_material card capsule descriptor request authorization_key release recipient
        routes material
  end.

Definition recover (options : RecoverOptions) : Client NetworkDemoResult :=
  card ← exchange EIo (read_card (ro_card_path options));
  let locators := all_capsule_locators card in
  _ ← bail_if (bool_decide (locators = [])) "Recovery Card contains no config store locators";
  capsule ← fetch_capsule card locators;
  seed ← draw random_id;
  let recipient := RecipientKeyPair_from_seed seed in
  now ← wall_now;
  request_id ← draw random_id;
  nonce ← draw random_id;
  let request := recovery_request capsule recipient request_id nonce now in
  _ ← write_if_asked (ro_request_out_path options) (DocRequest request);
  signer_contributions ← gather_approvals card capsule recipient request;
  let begin := {| brc_request := request;
                  brc_signer_contributions := signer_contributions |} in
  now ← wall_now;
  authorization_key ← try (reconstruct_a begin capsule recipient now);
  descriptor ← try (open_descriptor capsule authorization_key);
  begin_count ← count_begins card recipient begin (rd_guardians descriptor) 0;
  _ ← bail_if (begin_count <? cap_guardian_threshold capsule)%N
    "not enough guardians accepted Begin";
  if ro_cancel_before_release options
  then race_cancel options card capsule descriptor recipient request
  else
  _ ← sleep (sat_add (cap_minimum_recovery_delay capsule) (U64 1));
  release_votes ← gather_release_votes card capsule recipient request
    "release vote threshold was not reached";
  let release := {| rc_votes := release_votes |} in
  material ← gather_material card capsule descriptor request authorization_key release recipient
    (rd_guardians descriptor) no_material;
  _ ← bail_if (len (mat_fragments material) <? cap_guardian_threshold capsule)%N
    "guardian threshold was not reached";
  plaintext ← try (reconstruct_payload capsule descriptor (mat_fragments material)
    (mat_dek_shares material));
  _ ← write_if_asked (ro_output_path options) (DocPlaintext plaintext);
  mret {|
    ndr_config_id := hex_encode (cap_config_id capsule);
    ndr_request_id := hex_encode (rr_request_id request);
    ndr_recovered_secret := Some (from_utf8_lossy plaintext);
    ndr_signer_contributions := cap_signer_threshold capsule;
    ndr_guardian_contributions := len (mat_fragments material);
    ndr_rejected_guardians := mat_rejected material;
    ndr_cancelled := false
  |}.

End client.
End ClientV2.
