(* ===== verification/ClientV3.v ===== *)
(** The version-3 recovery client: crates/gp-network/src/client.rs, the
    functions of protocol version 3 that read the epoch and recover.

    Progress messages are left out.  The text of the recovered secret is its
    lossy UTF-8 decoding, as in the source; [output_path] gets the bytes. *)

From S2P Require Export ClientNet.

(** ** Options *)

Record RecoverV3Options : Set := mkRecoverV3Options {
  rv3_card_path : string;
  rv3_output_path : option string;
  rv3_request_out_path : option string
}.

Module ClientV3.
Export RotationProtocol.

Section client.
Context `{Prims : Primitives} `{Sharing : SharingPrimitives} `{Frost : FrostPrimitives}.
Context `{Protocol : ProtocolPrimitives} `{World : Network} `{Json : ClientPrimitives}.

(** ** The latest epoch *)

Definition read_challenge (card : RecoveryCardV3) (recipient : RecipientKeyPair)
    (client_nonce : Id32) (now : u64) : EpochReadChallenge := {|
  erc_protocol_version := PROTOCOL_VERSION_V3;
  erc_config_id := card3_config_id card;
  erc_client_nonce := client_nonce;
  erc_response_recipient_key := rkp_public recipient;
  erc_issued_at := now;
  erc_expiry := sat_add now (U64 60)
|}.

Definition read_url (card : RecoveryCardV3) (witness : WitnessPin) : string :=
  if ends_with "/read" (pin_mailbox witness) then pin_mailbox witness
  else trim_end_slashes (pin_mailbox witness) +:+ "/v3/witness/configs/"
    +:+ hex_encode (card3_config_id card) +:+ "/read".

(** The witnesses that answer are kept, the others skipped. *)
Fixpoint read_witnesses (card : RecoveryCardV3) (challenge : EpochReadChallenge)
    (witnesses : list WitnessPin) (envelopes : list WitnessReadEnvelope) :
    Client (list WitnessReadEnvelope) :=
  match witnesses with
  | [] => mret envelopes
  | witness :: witnesses =>
      answer ← attempt (exchange EHttp (post_read (read_url card witness) challenge));
      read_witnesses card challenge witnesses
        (match answer with Ok envelope => envelopes ++ [envelope] | Err _ => envelopes end)
  end.

Definition read_latest_epoch_v3 (card : RecoveryCardV3) (recipient : RecipientKeyPair) :
    Client (ConfigCapsuleV3 * EpochReadChallenge * list WitnessReadEnvelope) :=
  _ ← try (validate_recovery_card_v3 card);
  now ← wall_now;
  client_nonce ← draw random_id;
  let challenge := read_challenge card recipient client_nonce now in
  envelopes ← read_witnesses card challenge (card3_witnesses card) [];
  capsule ← try (select_latest_epoch_v3 card challenge envelopes);
  mret (capsule, challenge, envelopes).

Definition discover_latest_epoch_v3 (card : RecoveryCardV3) : Client ConfigCapsuleV3 :=
  _ ← try (validate_recovery_card_v3 card);
  seed ← draw random_id;
  '(capsule, _, _) ← read_latest_epoch_v3 card (RecipientKeyPair_from_seed seed);
  mret capsule.

(** ** Checks *)

Definition validate_recovery_descriptor_v3 (descriptor : RecoveryDescriptorV3)
    (capsule : ConfigCapsuleV3) : Result Error () :=
  let mismatch := Msg "Recovery Descriptor does not match the authenticated v3 capsule" in
  let route_ids : gset u16 := list_to_set (gr3_guardian_index <$> rd3_guardians descriptor) in
  if ((rd3_config_ref descriptor !=? cap3_config_ref capsule)
      || (rd3_guardian_material_root descriptor !=? cap3_guardian_material_root capsule)
      || (rd3_data_shards descriptor !=? cap3_guardian_threshold capsule)
      || (rd3_total_shards descriptor !=? cap3_guardian_count capsule)
      || (len (rd3_guardians descriptor) !=? uval (cap3_guardian_count capsule))
      || (size route_ids !=? length (rd3_guardians descriptor))
      || (rd3_dpss_suite descriptor !=? cap3_dpss_suite capsule)
      || (rd3_dpss_public_commitment descriptor !=? cap3_dpss_public_commitment capsule))%mr
  then Err mismatch else
  digest ← crypto (frost_public_package_digest (rd3_dpss_public_package descriptor));
  fail_if (digest !=? cap3_dpss_public_commitment capsule)%mr mismatch.

(** The policy a guardian of the capsule's epoch committed to. *)
Definition policy_of_capsule (capsule : ConfigCapsuleV3) : GuardianPolicyV3 := {|
  gpol3_config_ref := cap3_config_ref capsule;
  gpol3_epoch_state := EpochActive;
  gpol3_signer_set_commitment := cap3_signer_set_commitment capsule;
  gpol3_signer_count := cap3_signer_count capsule;
  gpol3_signer_threshold := cap3_signer_threshold capsule;
  gpol3_owner_cancel_public_key := cap3_owner_cancel_public_key capsule;
  gpol3_minimum_recovery_delay := cap3_minimum_recovery_delay capsule;
  gpol3_guardian_material_root := cap3_guardian_material_root capsule;
  gpol3_dpss_suite := cap3_dpss_suite capsule;
  gpol3_dpss_public_commitment := cap3_dpss_public_commitment capsule;
  gpol3_predecessor_capsule_hash := cap3_predecessor_capsule_hash capsule;
  gpol3_activation_qc_hash :=
    (λ qc, sha256 (match epoch_activation_qc qc with Ok t => t | Err _ => [] end))
      <$> cap3_activation_qc capsule;
  gpol3_drain_deadline := None
|}.

(** The record leaf that a contribution shows. *)
Definition contribution_leaf (contribution : GuardianRecoveryContributionV3)
    (route : GuardianRouteV3) (policy_hash : Id32) : PreparedRecordLeaf := {|
  prl_guardian_index := grc3_guardian_index contribution;
  prl_fragment_index := grc3_fragment_index contribution;
  prl_opaque_slot_id := gr3_opaque_slot_id route;
  prl_encrypted_share_hash := hash_aead (grc3_encrypted_dek_share contribution);
  prl_fragment_hash := hash_aead (grc3_encrypted_ciphertext_fragment contribution);
  prl_policy_hash := policy_hash
|}.

Definition open_guardian_contribution_v3 (contribution : GuardianRecoveryContributionV3)
    (route : GuardianRouteV3) (descriptor : RecoveryDescriptorV3) (capsule : ConfigCapsuleV3)
    (request : RecoveryRequestV3) (authorization_key : barr 32) :
    Result Error (list byte * list byte) :=
  let unbound := Msg "guardian contribution is not bound to the exact recovery transcript" in
  let config_ref := rr3_config_ref request in
  let index := grc3_guardian_index contribution in
  if ((grc3_config_ref contribution !=? config_ref)
      || (grc3_request_id contribution !=? rr3_request_id request))%mr
  then Err unbound else
  digest ← recovery_request_digest_v3 request;
  if ((grc3_request_digest contribution !=? digest)
      || (grc3_recovery_recipient_key contribution !=? rr3_recovery_recipient_key request)
      || (grc3_nonce contribution !=? rr3_nonce request)
      || (index !=? gr3_guardian_index route))%mr
  then Err unbound else
  t ← wire (guardian_recovery_contribution_v3 contribution);
  _ ← crypto (verify (gr3_guardian_public_key route) t (grc3_guardian_signature contribution));
  policy ← wire (guardian_policy_body_v3 (policy_of_capsule capsule));
  let leaf := contribution_leaf contribution route (sha256 policy) in
  '(position, _) ← ok_or
    (list_find (λ candidate, gr3_guardian_index candidate = index) (rd3_guardians descriptor))
    (Msg "guardian contribution is outside the descriptor roster");
  leaf ← wire (prepared_record_leaf_v3 leaf);
  _ ← crypto (merkle_verify (rd3_guardian_material_root descriptor) (sha256 leaf)
    (N.of_nat position) (len (rd3_guardians descriptor)) (grc3_merkle_path_proof contribution));
  key ← crypto (guardian_share_key_v3 authorization_key config_ref index);
  context ← wire (guardian_share_context_v3 config_ref index);
  share ← crypto (aead_decrypt key (grc3_encrypted_dek_share contribution) context);
  participant ← crypto (frost_verify_share share (rd3_dpss_public_package descriptor));
  if (participant !=? index)%mr
  then Err (Msg "guardian returned a FROST share for another participant") else
  key ← crypto (guardian_fragment_key_v3 authorization_key config_ref index);
  context ← wire (guardian_fragment_context_v3 config_ref index
    (grc3_fragment_index contribution));
  fragment ← crypto (aead_decrypt key (grc3_encrypted_ciphertext_fragment contribution) context);
  Ok (share, fragment).

(** ** Recovery *)

Definition recovery_request_v3 (capsule : ConfigCapsuleV3) (recipient : RecipientKeyPair)
    (request_id nonce : Id32) (now : u64) : RecoveryRequestV3 := {|
  rr3_protocol_version := PROTOCOL_VERSION_V3;
  rr3_config_ref := cap3_config_ref capsule;
  rr3_request_id := request_id;
  rr3_recovery_recipient_key := rkp_public recipient;
  rr3_requested_at := now;
  rr3_nonce := nonce;
  rr3_expiry := sat_add now (cap3_max_request_lifetime capsule)
|}.

(** The answers kept by the loops over the signers; none is checked here. *)
Definition keep_contribution (_ : string) (answer : Result Error SignerRecoveryResponseV3)
    (kept : list SignerRecoveryContributionV3) : list SignerRecoveryContributionV3 :=
  match answer with Ok (RecContribution contribution) => kept ++ [contribution] | _ => kept end.
Definition keep_release_vote (_ : string) (answer : Result Error SignerRecoveryResponseV3)
    (kept : list SignerRecoveryReleaseVoteV3) : list SignerRecoveryReleaseVoteV3 :=
  match answer with Ok (RecReleaseVote vote) => kept ++ [vote] | _ => kept end.

(** The first loop: the contributions of a signer threshold. *)
Definition gather_approvals (card : RecoveryCardV3) (capsule : ConfigCapsuleV3)
    (recipient : RecipientKeyPair) (action : SignerRecoveryRequestV3) :
    Client (list SignerRecoveryContributionV3) :=
  contributions ← collect_until (cap3_signer_threshold capsule)
    (λ mailbox, send_to_signer mailbox (card3_relay_bases card) action recipient)
    keep_contribution (card3_signer_mailboxes card) [];
  _ ← bail_if (len contributions <? cap3_signer_threshold capsule)%mr
    "protocol-v3 signer approval threshold was not reached";
  mret contributions.

Definition open_authorization_share (recipient : RecipientKeyPair) (request : RecoveryRequestV3)
    (contribution : SignerRecoveryContributionV3) : Result Error (list byte) :=
  context ← wire (recovery_authorization_share_context_v3 request
    (src3_signer_id contribution));
  crypto (open recipient (src3_encrypted_authorization_share contribution) context).

(** From the Begin certificate to the private descriptor. *)
Definition open_descriptor_v3 (begin : BeginRecoveryCertificateV3) (capsule : ConfigCapsuleV3)
    (recipient : RecipientKeyPair) : Result Error (list byte * RecoveryDescriptorV3) :=
  shares ← collect (open_authorization_share recipient (brc3_request begin))
    (brc3_signer_contributions begin);
  authorization_key ← crypto (recover_secret shares (cap3_signer_threshold capsule));
  key ← ok_or (try_barr 32 authorization_key) (Msg "reconstructed A has the wrong length");
  key ← crypto (descriptor_key_v3 key (cap3_config_ref capsule));
  context ← wire (descriptor_context_v3 (cap3_config_ref capsule));
  plaintext ← crypto (aead_decrypt key (cap3_encrypted_recovery_descriptor capsule) context);
  descriptor ← ok_or (descriptor_v3_from_slice plaintext) ESerde;
  _ ← validate_recovery_descriptor_v3 descriptor capsule;
  Ok (authorization_key, descriptor).

(** The second loop: how many guardians accept Begin. *)
Fixpoint count_begins (card : RecoveryCardV3) (recipient : RecipientKeyPair)
    (begin : BeginRecoveryCertificateV3) (routes : list GuardianRouteV3) (begin_count : N) :
    Client N :=
  match routes with
  | [] => mret begin_count
  | route :: routes =>
      answer ← attempt (send_to_guardian (gr3_mailbox route) (card3_relay_bases card)
        (GvBegin begin) recipient);
      count_begins card recipient begin routes
        (match answer with Ok (GvBeginAccepted _) => begin_count + 1 | _ => begin_count end)%N
  end.

(** The third loop: the Release votes of a signer threshold. *)
Definition gather_release_votes (card : RecoveryCardV3) (capsule : ConfigCapsuleV3)
    (recipient : RecipientKeyPair) (request : RecoveryRequestV3) :
    Client (list SignerRecoveryReleaseVoteV3) :=
  votes ← collect_until (cap3_signer_threshold capsule)
    (λ mailbox, send_to_signer mailbox (card3_relay_bases card) (RecRelease request) recipient)
    keep_release_vote (card3_signer_mailboxes card) [];
  _ ← bail_if (len votes <? cap3_signer_threshold capsule)%mr
    "protocol-v3 signer Release threshold was not reached";
  mret votes.

(** What the fourth loop has. *)
Record Material : Set := mkMaterial {
  mat_shares : list EpochFrostShare;
  mat_fragments : list (u16 * list byte);
  mat_rejected : list u16
}.
Definition no_material : Material := mkMaterial [] [] [].

(** One guardian's answer: opened and kept, or its guardian rejected. *)
Definition accept_material (descriptor : RecoveryDescriptorV3) (capsule : ConfigCapsuleV3)
    (request : RecoveryRequestV3) (authorization_key : list byte) (route : GuardianRouteV3)
    (answer : Result Error GuardianRecoveryResponseV3) (material : Material) :
    Result Error Material :=
  let rejected := mkMaterial (mat_shares material) (mat_fragments material)
    (mat_rejected material ++ [gr3_guardian_index route]) in
  match answer with
  | Ok (GvContribution contribution) =>
      key ← ok_or (try_barr 32 authorization_key) ETryFromSlice;
      match open_guardian_contribution_v3 contribution route descriptor capsule request key with
      | Ok (share, fragment) =>
          Ok (mkMaterial
            (mat_shares material ++ [{| efs_config_ref := cap3_config_ref capsule;
                                        efs_encoded_share := share |}])
            (mat_fragments material ++ [(grc3_fragment_index contribution, fragment)])
            (mat_rejected material))
      | Err _ => Ok rejected
      end
  | _ => Ok rejected
  end.

(** The fourth loop, until there are enough shares. *)
Fixpoint gather_material (card : RecoveryCardV3) (descriptor : RecoveryDescriptorV3)
    (capsule : ConfigCapsuleV3) (request : RecoveryRequestV3) (authorization_key : list byte)
    (release : RecoveryReleaseCertificateV3) (recipient : RecipientKeyPair)
    (routes : list GuardianRouteV3) (material : Material) : Client Material :=
  match routes with
  | [] => mret material
  | route :: routes =>
      answer ← attempt (send_to_guardian (gr3_mailbox route) (card3_relay_bases card)
        (GvRelease request release) recipient);
      material ← try (accept_material descriptor capsule request authorization_key route answer
        material);
      if (cap3_guardian_threshold capsule <=? len (mat_shares material))%N then mret material
      else gather_material card descriptor capsule request authorization_key release recipient
        routes material
  end.

(** From the guardians' material to the plaintext. *)
Definition reassemble (capsule : ConfigCapsuleV3) (descriptor : RecoveryDescriptorV3)
    (material : Material) : Result Error (list byte) :=
  dek ← crypto (frost_recover_dek_for_epoch (mat_shares material) (cap3_config_ref capsule)
    (cap3_guardian_threshold capsule));
  ciphertext ← crypto (erasure_reconstruct (mat_fragments material)
    (rd3_data_shards descriptor) (rd3_total_shards descriptor) (rd3_ciphertext_len descriptor));
  key ← ok_or (try_barr 32 dek) ETryFromSlice;
  context ← wire (payload_context_v3 (cr_config_id (cap3_config_ref capsule))
    (cr_payload_generation (cap3_config_ref capsule)));
  crypto (aead_decrypt key
    {| aead_nonce := rd3_payload_nonce descriptor; aead_ciphertext := ciphertext |} context).

Definition recover_v3 (options : RecoverV3Options) : Client NetworkDemoResult :=
  card ← exchange EIo (read_card_v3 (rv3_card_path options));
  seed ← draw random_id;
  let recipient := RecipientKeyPair_from_seed seed in
  '(capsule, witness_challenge, witness_reads) ← read_latest_epoch_v3 card recipient;
  now ← wall_now;
  request_id ← draw random_id;
  nonce ← draw random_id;
  let request := recovery_request_v3 capsule recipient request_id nonce now in
  _ ← write_if_asked (rv3_request_out_path options) (DocRequestV3 request);
  signer_contributions ← gather_approvals card capsule recipient
    (RecApprove request witness_challenge witness_reads);
  request_digest ← try (recovery_request_digest_v3 request);
  let begin := {| brc3_request := request; brc3_request_digest := request_digest;
                  brc3_signer_contributions := signer_contributions |} in
  now ← wall_now;
  _ ← try (validate_begin_recovery_certificate_v3 begin capsule now);
  '(authorization_key, descriptor) ← try (open_descriptor_v3 begin capsule recipient);
  begin_count ← count_begins card recipient begin (rd3_guardians descriptor) 0;
  _ ← bail_if (begin_count <? cap3_guardian_threshold capsule)%N
    "not enough protocol-v3 guardians accepted Begin";
  _ ← sleep (sat_add (cap3_minimum_recovery_delay capsule) (U64 1));
  release_votes ← gather_release_votes card capsule recipient request;
  let release := {| rrc3_request := request; rrc3_request_digest := request_digest;
                    rrc3_votes := release_votes |} in
  now ← wall_now;
  _ ← try (validate_recovery_release_certificate_for_ref_v3 release capsule
    (cap3_config_ref capsule) now);
  material ← gather_material card descriptor capsule request authorization_key release recipient
    (rd3_guardians descriptor) no_material;
  _ ← bail_if (len (mat_shares material) <? cap3_guardian_threshold capsule)%N
    "protocol-v3 guardian threshold was not reached";
  plaintext ← try (reassemble capsule descriptor material);
  _ ← write_if_asked (rv3_output_path options) (DocPlaintext plaintext);
  mret {|
    ndr_config_id := hex_encode (cr_config_id (cap3_config_ref capsule));
    ndr_request_id := hex_encode (rr3_request_id request);
    ndr_recovered_secret := Some (from_utf8_lossy plaintext);
    ndr_signer_contributions := cap3_signer_threshold capsule;
    ndr_guardian_contributions := len (mat_shares material);
    ndr_rejected_guardians := mat_rejected material;
    ndr_cancelled := false
  |}.

End client.
End ClientV3.
