(* ===== verification/SetupV3.v ===== *)
(** The owner's version-3 setup: crates/gp-network/src/client.rs.

    The nodes are asked who they are, then everything is made from random
    draws ([create_setup_v3]), then the nodes are provisioned. *)

From S2P Require Export ClientV2.

Record SetupV3Options : Set := mkSetupV3Options {
  s3_secret : list byte;
  s3_relays : list string;
  s3_relay_token : string;
  s3_admin_token : string;
  s3_signers : list string;
  s3_guardians : list string;
  s3_witnesses : list string;
  s3_signer_threshold : u16;
  s3_guardian_threshold : u16;
  s3_witness_fault_bound : u16;
  s3_delay_secs : u64;
  s3_card_path : string;
  s3_owner_control_path : string
}.

Module SetupV3.
Export RotationProtocol ClientV2.

Section setup.
Context `{Prims : Primitives} `{Sharing : SharingPrimitives} `{Frost : FrostPrimitives}.
Context `{Protocol : ProtocolPrimitives} `{World : Network} `{Json : ClientPrimitives}.

(** ** The nodes *)

(** What [fetch_node_infos_v3] has seen. *)
Record Seen : Set := mkSeen {
  seen_targets : gset string;
  seen_node_ids : gset string;
  seen_transport_keys : gset (list byte);
  seen_signing_keys : gset (barr 32)
}.
Definition nothing_seen : Seen := mkSeen ∅ ∅ ∅ ∅.

Fixpoint fetch_infos_from (expected_role : string) (seen : Seen) (targets : list string) :
    Client (list NodeInfo) :=
  match targets with
  | [] => mret []
  | target :: targets =>
      let normalized := trim_end_slashes target in
      _ ← bail_if (bool_decide (normalized = "") || bool_decide (normalized ∈ seen_targets seen))
        "duplicate or empty target";
      info ← exchange EHttp (get_node_info (normalized +:+ "/v3/node-info"));
      let malformed := "node is malformed, duplicated, or has another role than expected" in
      _ ← bail_if ((ni_protocol_version info !=? PROTOCOL_VERSION_V3)
          || (ni_role info !=? expected_role)
          || (ni_node_id info ==? "")
          || (len (ni_transport_public_key info) !=? XWING_PUBLIC_KEY_LEN))%mr malformed;
      signing_key ← present (ni_signing_public_key info) malformed;
      _ ← bail_if (bool_decide (ni_node_id info ∈ seen_node_ids seen)
          || bool_decide (ni_transport_public_key info ∈ seen_transport_keys seen)
          || bool_decide (signing_key ∈ seen_signing_keys seen)) malformed;
      infos ← fetch_infos_from expected_role (mkSeen ({[normalized]} ∪ seen_targets seen)
        ({[ni_node_id info]} ∪ seen_node_ids seen)
        ({[ni_transport_public_key info]} ∪ seen_transport_keys seen)
        ({[signing_key]} ∪ seen_signing_keys seen)) targets;
      mret (info :: infos)
  end.
Definition fetch_node_infos_v3 (targets : list string) (expected_role : string) :
    Client (list NodeInfo) :=
  fetch_infos_from expected_role nothing_seen targets.

(** [role] is [provision_role] without its suffix "-v3". *)
Definition provision_actor_v3 {T} (to_vec : T → option (list byte))
    (target role provision_role : string) (provision : T) (admin_token : string) : Client () :=
  info ← exchange EHttp (get_node_info (trim_end_slashes target +:+ "/v3/node-info"));
  _ ← bail_if ((ni_role info !=? role) || (ni_protocol_version info !=? PROTOCOL_VERSION_V3))%mr
    "v3 provisioning target has the wrong role";
  kem_seed ← draw random_id;
  nonce ← draw random_nonce;
  plaintext ← try (ok_or (to_vec provision) ESerde);
  context ← try (wire (node_provision_context (ni_node_id info) provision_role));
  sealed ← try (crypto (seal_to_recipient (ni_transport_public_key info) kem_seed nonce plaintext
    context));
  exchange_ok EHttp (post_provision (trim_end_slashes target +:+ "/v3/provision") admin_token
    {| smb_sealed := sealed |}).

(** ** Making a configuration *)

(** [(0..count).map(|_| draw)]. *)
Fixpoint draws {A} (m : SR Rng Error A) (count : nat) : SR Rng Error (list A) :=
  match count with
  | O => mret []
  | S count => x ← m; l ← draws m count; mret (x :: l)
  end.

(** The members of a list with their numbers, from 1. *)
Definition numbered {A} (l : list A) : Result Error (list (u16 * A)) :=
  collect (λ '(offset, x), id ← ok_or (try_u16 (N.of_nat offset + 1)) EPanic; Ok (id, x))
    (imap pair l).

Definition signer_leaf_hash (signer : u16 * barr 32) : Result Error Id32 :=
  leaf ← map_err (λ _, EPanic) (signer_leaf signer.1 signer.2);
  Ok (sha256 leaf).

(** The routes of the guardians, in the order of their targets. *)
Fixpoint guardian_routes (relay : string) (guardians : list (u16 * (NodeInfo * Id32))) :
    SR Rng Error (list GuardianRouteV3) :=
  match guardians with
  | [] => mret []
  | (index, (info, seed)) :: guardians =>
      opaque_slot_id ← random_id;
      mailbox ← mailbox_url_v3 relay;
      routes ← guardian_routes relay guardians;
      mret ({| gr3_guardian_index := index;
               gr3_opaque_slot_id := opaque_slot_id;
               gr3_mailbox := mailbox;
               gr3_guardian_public_key := verifying_key_bytes (signing_key seed);
               gr3_session_recipient_key := ni_transport_public_key info;
               gr3_operator_domain_commitment := sha256 (as_bytes (ni_node_id info)) |} :: routes)
  end.

(** The policy of the first epoch, before the root of its records is known. *)
Definition initial_policy (options : SetupV3Options) (config_ref : ConfigRef)
    (signer_root : Id32) (signer_count : u16) (owner_cancel_public_key : barr 32)
    (dpss_public_commitment : Id32) : GuardianPolicyV3 := {|
  gpol3_config_ref := config_ref;
  gpol3_epoch_state := EpochActive;
  gpol3_signer_set_commitment := signer_root;
  gpol3_signer_count := signer_count;
  gpol3_signer_threshold := s3_signer_threshold options;
  gpol3_owner_cancel_public_key := owner_cancel_public_key;
  gpol3_minimum_recovery_delay := s3_delay_secs options;
  gpol3_guardian_material_root := brep 32 x00;
  gpol3_dpss_suite := ZfFrostRistretto255RtsRefreshV1;
  gpol3_dpss_public_commitment := dpss_public_commitment;
  gpol3_predecessor_capsule_hash := brep 32 x00;
  gpol3_activation_qc_hash := None;
  gpol3_drain_deadline := None
|}.

(** The record of one guardian and its leaf: its FROST share and its ciphertext
    fragment are those at [offset]. *)
Definition make_record (policy : GuardianPolicyV3) (authorization_key : list byte)
    (shares fragments : list (list byte)) (offset : nat) (route : GuardianRouteV3) :
    SR Rng Error (GuardianRecordV3 * PreparedRecordLeaf) :=
  let config_ref := gpol3_config_ref policy in
  let index := gr3_guardian_index route in
  authorization ← lift (ok_or (try_barr 32 authorization_key) ETryFromSlice);
  key ← lift (crypto (guardian_share_key_v3 authorization config_ref index));
  nonce ← random_nonce;
  share ← lift (index_or_panic shares offset);
  context ← lift (wire (guardian_share_context_v3 config_ref index));
  encrypted_dek_share ← lift (crypto (aead_encrypt key nonce share context));
  fragment_index ← lift (ok_or (try_u16 (N.of_nat offset + 1)) ETryFromInt);
  key ← lift (crypto (guardian_fragment_key_v3 authorization config_ref index));
  nonce ← random_nonce;
  fragment ← lift (index_or_panic fragments offset);
  context ← lift (wire (guardian_fragment_context_v3 config_ref index fragment_index));
  encrypted_fragment ← lift (crypto (aead_encrypt key nonce fragment context));
  custody ← lift (crypto (custody_commit (bytes_of (aead_nonce encrypted_dek_share)
    ++ aead_ciphertext encrypted_dek_share
    ++ bytes_of (aead_nonce encrypted_fragment) ++ aead_ciphertext encrypted_fragment)));
  policy_body ← lift (wire (guardian_policy_body_v3 policy));
  mret ({| grec3_opaque_slot_id := gr3_opaque_slot_id route;
           grec3_guardian_index := index;
           grec3_fragment_index := fragment_index;
           grec3_encrypted_ciphertext_fragment := encrypted_fragment;
           grec3_encrypted_dek_share := encrypted_dek_share;
           grec3_merkle_path_proof := [];
           grec3_custody_root := cust_root custody;
           grec3_policy := policy |},
        {| prl_guardian_index := index;
           prl_fragment_index := fragment_index;
           prl_opaque_slot_id := gr3_opaque_slot_id route;
           prl_encrypted_share_hash := hash_aead encrypted_dek_share;
           prl_fragment_hash := hash_aead encrypted_fragment;
           prl_policy_hash := sha256 policy_body |}).

(** The loop over the routes. *)
Fixpoint make_records (policy : GuardianPolicyV3) (authorization_key : list byte)
    (shares fragments : list (list byte)) (offset : nat) (routes : list GuardianRouteV3) :
    SR Rng Error (list (GuardianRecordV3 * PreparedRecordLeaf)) :=
  match routes with
  | [] => mret []
  | route :: routes =>
      record ← make_record policy authorization_key shares fragments offset route;
      records ← make_records policy authorization_key shares fragments (S offset) routes;
      mret (record :: records)
  end.

Definition prepared_leaf_hash (leaf : PreparedRecordLeaf) : Result Error Id32 :=
  sha256 <$> wire (prepared_record_leaf_v3 leaf).

(** The capsule of the first epoch; its hash covers its body. *)
Definition first_capsule (policy : GuardianPolicyV3) (guardian_count guardian_threshold : u16)
    (fragment_root material_root : Id32) (descriptor : AeadCiphertext) (capsule_hash : Id32) :
    ConfigCapsuleV3 := {|
  cap3_protocol_version := PROTOCOL_VERSION_V3;
  cap3_config_ref := gpol3_config_ref policy;
  cap3_capsule_hash := capsule_hash;
  cap3_predecessor_capsule_hash := brep 32 x00;
  cap3_signer_count := gpol3_signer_count policy;
  cap3_signer_threshold := gpol3_signer_threshold policy;
  cap3_guardian_count := guardian_count;
  cap3_guardian_threshold := guardian_threshold;
  cap3_minimum_recovery_delay := gpol3_minimum_recovery_delay policy;
  cap3_max_request_lifetime := U64 (7 * 24 * 60 * 60);
  cap3_signer_set_commitment := gpol3_signer_set_commitment policy;
  cap3_owner_cancel_public_key := gpol3_owner_cancel_public_key policy;
  cap3_dpss_suite := gpol3_dpss_suite policy;
  cap3_dpss_public_commitment := gpol3_dpss_public_commitment policy;
  cap3_ciphertext_fragment_root := fragment_root;
  cap3_guardian_material_root := material_root;
  cap3_encrypted_recovery_descriptor := descriptor;
  cap3_activation_certificate := None;
  cap3_activation_qc := None
|}.

(** What setup makes before it provisions the nodes. *)
Record SetupV3Bundle : Set := mkSetupV3Bundle {
  s3b_capsule : ConfigCapsuleV3;
  s3b_card : RecoveryCardV3;
  s3b_authorization_shares : list (list byte);
  s3b_signer_seeds : list Id32;
  s3b_signer_public_keys : list (u16 * barr 32);
  s3b_signer_proofs : list (list byte);
  s3b_guardian_routes : list GuardianRouteV3;
  s3b_guardian_seeds : list Id32;
  s3b_records : list GuardianRecordV3;
  s3b_owner_cancel_signing_seed : Id32
}.

Definition witness_pin (targets : list string) (witness : nat * NodeInfo) :
    Result Error WitnessPin :=
  let '(offset, info) := witness in
  id ← ok_or (try_u16 (N.of_nat offset + 1)) ETryFromInt;
  target ← index_or_panic targets offset;
  key ← ok_or (ni_signing_public_key info) (Msg "v3 witness did not expose a signing public key");
  Ok {| pin_witness_id := id; pin_mailbox := trim_end_slashes target; pin_public_key := key |}.

(** The signers' keys, their shares of A and the tree over the keys. *)
Definition create_signers_v3 (options : SetupV3Options) (signer_count : u16)
    (authorization_key : list byte) :
    SR Rng Error (list (list byte) * list Id32 * list (u16 * barr 32) * Id32 * list (list byte)) :=
  share_seed ← random_id;
  shares ← lift (crypto (split_secret authorization_key (s3_signer_threshold options)
    signer_count share_seed));
  seeds ← draws random_id (N.to_nat signer_count);
  keys ← lift (numbered ((λ seed, verifying_key_bytes (signing_key seed)) <$> seeds));
  leaves ← lift (collect signer_leaf_hash keys);
  '(root, proofs) ← lift (crypto (merkle_commit leaves));
  mret (shares, seeds, keys, root, proofs).

(** The guardians' material: FROST shares of a fresh key, the payload under
    that key cut into fragments, the records and their tree, and the private
    descriptor. *)
Record GuardianMaterial : Set := mkGuardianMaterial {
  gm_fragment_root : Id32;
  gm_dpss_public_commitment : Id32;
  gm_material_root : Id32;
  gm_records : list GuardianRecordV3;
  gm_descriptor : RecoveryDescriptorV3
}.

Definition create_material_v3 (options : SetupV3Options) (guardian_count : u16)
    (policy_for : Id32 → GuardianPolicyV3) (config_ref : ConfigRef)
    (authorization_key : list byte) (routes : list GuardianRouteV3) :
    SR Rng Error GuardianMaterial :=
  let threshold := s3_guardian_threshold options in
  let config_id := cr_config_id config_ref in
  let generation := cr_payload_generation config_ref in
  frost_seed ← random_id;
  frost ← lift (crypto (frost_dealer_split threshold guardian_count frost_seed));
  dek ← lift (ok_or (try_barr 32 (fdo_dek frost)) ETryFromSlice);
  payload_nonce ← random_nonce;
  context ← lift (wire (payload_context_v3 config_id generation));
  payload ← lift (crypto (aead_encrypt dek payload_nonce (s3_secret options) context));
  fragments ← lift (crypto (erasure_encode (aead_ciphertext payload) threshold guardian_count));
  fragment_commitment ← lift (crypto (commit_ciphertext_fragments config_id generation
    fragments));
  dpss_public_commitment ← lift (crypto (frost_public_package_digest (fdo_public_package frost)));
  records ← make_records (policy_for dpss_public_commitment) authorization_key (fdo_shares frost)
    fragments 0 routes;
  leaf_hashes ← lift (collect prepared_leaf_hash records.*2);
  '(material_root, proofs) ← lift (crypto (merkle_commit leaf_hashes));
  ciphertext_len ← lift (ok_or (try_u64 (len (aead_ciphertext payload))) ETryFromInt);
  mret {|
    gm_fragment_root := cfcm_root fragment_commitment;
    gm_dpss_public_commitment := dpss_public_commitment;
    gm_material_root := material_root;
    gm_records := zip_with (λ record proof,
      GuardianRuntime.committed_record record material_root proof) records.*1 proofs;
    gm_descriptor := {|
      rd3_config_ref := config_ref;
      rd3_guardians := routes;
      rd3_guardian_material_root := material_root;
      rd3_data_shards := threshold;
      rd3_total_shards := guardian_count;
      rd3_ciphertext_len := ciphertext_len;
      rd3_payload_nonce := payload_nonce;
      rd3_dpss_suite := ZfFrostRistretto255RtsRefreshV1;
      rd3_dpss_public_package := fdo_public_package frost;
      rd3_dpss_public_commitment := dpss_public_commitment
    |}
  |}.

Definition seal_descriptor_v3 (authorization_key : list byte) (descriptor : RecoveryDescriptorV3) :
    SR Rng Error AeadCiphertext :=
  authorization ← lift (ok_or (try_barr 32 authorization_key) ETryFromSlice);
  key ← lift (crypto (descriptor_key_v3 authorization (rd3_config_ref descriptor)));
  nonce ← random_nonce;
  plaintext ← lift (ok_or (descriptor_v3_to_vec descriptor) ESerde);
  context ← lift (wire (descriptor_context_v3 (rd3_config_ref descriptor)));
  lift (crypto (aead_encrypt key nonce plaintext context)).

Definition create_setup_v3 (options : SetupV3Options) (signer_count guardian_count : u16)
    (relay_bases : list string) (guardian_infos witness_infos : list NodeInfo) :
    SR Rng Error SetupV3Bundle :=
  a ← random_id;
  let authorization_key := bytes_of a in
  '(authorization_shares, signer_seeds, signer_public_keys, signer_root, signer_proofs) ←
    create_signers_v3 options signer_count authorization_key;
  owner_seed ← random_id;
  let owner_cancel_public_key := verifying_key_bytes (signing_key owner_seed) in
  config_id ← random_id;
  epoch_binding ← random_id;
  let config_ref := {|
    cr_config_id := config_id;
    cr_payload_generation := U64 1;
    cr_authorization_epoch := U64 1;
    cr_guardian_epoch := U64 1;
    cr_epoch_binding := epoch_binding
  |} in
  relay ← lift (index_or_panic relay_bases 0);
  signer_mailboxes ← draws (mailbox_url_v3 relay) (N.to_nat signer_count);
  guardian_seeds ← draws random_id (N.to_nat guardian_count);
  guardians ← lift (numbered (zip guardian_infos guardian_seeds));
  routes ← guardian_routes relay guardians;
  let policy_for := initial_policy options config_ref signer_root signer_count
    owner_cancel_public_key in
  material ← create_material_v3 options guardian_count policy_for config_ref authorization_key
    routes;
  encrypted_recovery_descriptor ← seal_descriptor_v3 authorization_key (gm_descriptor material);
  let capsule := first_capsule (policy_for (gm_dpss_public_commitment material)) guardian_count
    (s3_guardian_threshold options) (gm_fragment_root material) (gm_material_root material)
    encrypted_recovery_descriptor in
  body ← lift (wire (config_capsule_body_v3 (capsule (brep 32 x00))));
  witnesses ← lift (collect (witness_pin (s3_witnesses options)) (imap pair witness_infos));
  let card := {|
    card3_protocol_version := PROTOCOL_VERSION_V3;
    card3_config_id := config_id;
    card3_signer_mailboxes := signer_mailboxes;
    card3_signer_set_commitment := signer_root;
    card3_owner_cancel_public_key := owner_cancel_public_key;
    card3_witness_fault_bound := s3_witness_fault_bound options;
    card3_witnesses := witnesses;
    card3_relay_bases := relay_bases
  |} in
  _ ← lift (validate_activated_capsule_v3 card (capsule (sha256 body)));
  mret {|
    s3b_capsule := capsule (sha256 body);
    s3b_card := card;
    s3b_authorization_shares := authorization_shares;
    s3b_signer_seeds := signer_seeds;
    s3b_signer_public_keys := signer_public_keys;
    s3b_signer_proofs := signer_proofs;
    s3b_guardian_routes := routes;
    s3b_guardian_seeds := guardian_seeds;
    s3b_records := gm_records material;
    s3b_owner_cancel_signing_seed := owner_seed
  |}.

(** ** Provisioning *)

Definition signer_provision (bundle : SetupV3Bundle) (offset : nat) :
    Result Error SignerRotationProvisionV3 :=
  mailbox_url ← index_or_panic (card3_signer_mailboxes (s3b_card bundle)) offset;
  mailbox ← mailbox_id mailbox_url;
  signer_id ← ok_or (try_u16 (N.of_nat offset + 1)) ETryFromInt;
  share ← index_or_panic (s3b_authorization_shares bundle) offset;
  seed ← index_or_panic (s3b_signer_seeds bundle) offset;
  '(_, key) ← index_or_panic (s3b_signer_public_keys bundle) offset;
  proof ← index_or_panic (s3b_signer_proofs bundle) offset;
  Ok {| srp_mailbox := mailbox;
        srp_signer_id := signer_id;
        srp_authorization_share := share;
        srp_signing_seed := seed;
        srp_signing_public_key := key;
        srp_membership_proof := proof;
        srp_recovery_card := s3b_card bundle;
        srp_active_capsule := s3b_capsule bundle |}.

Definition guardian_provision_v3 (bundle : SetupV3Bundle) (offset : nat) :
    Result Error GuardianRotationProvisionV3 :=
  route ← index_or_panic (s3b_guardian_routes bundle) offset;
  mailbox ← mailbox_id (gr3_mailbox route);
  seed ← index_or_panic (s3b_guardian_seeds bundle) offset;
  record ← index_or_panic (s3b_records bundle) offset;
  Ok {| grp_mailbox := mailbox;
        grp_signing_seed := seed;
        grp_signing_public_key := gr3_guardian_public_key route;
        grp_recovery_card := s3b_card bundle;
        grp_predecessor_capsule := s3b_capsule bundle;
        grp_signer_public_keys := btree_collect (s3b_signer_public_keys bundle);
        grp_epoch_store := Epochs.new record (cap3_capsule_hash (s3b_capsule bundle)) |}.

Definition witness_provision (bundle : SetupV3Bundle) (offset : nat) :
    Result Error WitnessServer.WitnessConfigProvision :=
  witness_id ← ok_or (try_u16 (N.of_nat offset + 1)) ETryFromInt;
  Ok {| WitnessServer.wcp_witness_id := witness_id;
        WitnessServer.wcp_capsule := s3b_capsule bundle;
        WitnessServer.wcp_signer_public_keys := btree_collect (s3b_signer_public_keys bundle);
        WitnessServer.wcp_witness_public_keys := btree_collect
          ((λ pin, (pin_witness_id pin, pin_public_key pin))
            <$> card3_witnesses (s3b_card bundle));
        WitnessServer.wcp_witness_fault_bound :=
          card3_witness_fault_bound (s3b_card bundle) |}.

Definition install_signer (options : SetupV3Options) (bundle : SetupV3Bundle)
    (signer : nat * string) : Client () :=
  let '(offset, target) := signer in
  provision ← try (signer_provision bundle offset);
  _ ← provision_actor_v3 signer_provision_to_vec target "signer" "signer-v3" provision
    (s3_admin_token options);
  mailbox ← try (index_or_panic (card3_signer_mailboxes (s3b_card bundle)) offset);
  each (λ relay, register_route relay (s3_relay_token options) mailbox target)
    (card3_relay_bases (s3b_card bundle)).

Definition install_guardian (options : SetupV3Options) (bundle : SetupV3Bundle)
    (guardian : nat * string) : Client () :=
  let '(offset, target) := guardian in
  provision ← try (guardian_provision_v3 bundle offset);
  _ ← provision_actor_v3 guardian_provision_to_vec target "guardian" "guardian-v3" provision
    (s3_admin_token options);
  route ← try (index_or_panic (s3b_guardian_routes bundle) offset);
  each (λ relay, register_route relay (s3_relay_token options) (gr3_mailbox route) target)
    (card3_relay_bases (s3b_card bundle)).

Definition install_witness (options : SetupV3Options) (bundle : SetupV3Bundle)
    (witness : nat * string) : Client () :=
  let '(offset, target) := witness in
  provision ← try (witness_provision bundle offset);
  exchange_ok EHttp (post_witness_config (trim_end_slashes target +:+ "/v3/witness/configs")
    (s3_admin_token options) provision).

(** [3 * witness_fault_bound + 1]. *)
Definition required_witnesses (witness_fault_bound : u16) : option N :=
  value ← checked_mul witness_fault_bound 3; checked_add value 1.

Definition setup_v3 (options : SetupV3Options) : Client RecoveryCardV3 :=
  signer_count ← count_u16 (s3_signers options);
  guardian_count ← count_u16 (s3_guardians options);
  required ← present (required_witnesses (s3_witness_fault_bound options))
    "witness roster size overflow";
  _ ← bail_if (bool_decide (s3_relays options = [])
      || (signer_count <? s3_signer_threshold options)%mr
      || (uval (s3_signer_threshold options) =? 0)%N
      || (guardian_count <? s3_guardian_threshold options)%mr
      || (s3_guardian_threshold options <? 2)%mr
      || (uval (s3_witness_fault_bound options) =? 0)%N
      || (len (s3_witnesses options) <? required)%N)
    "invalid protocol-v3 setup actor counts or thresholds";
  let relay_bases := trim_end_slashes <$> s3_relays options in
  _ ← fetch_node_infos_v3 (s3_signers options) "signer";
  guardian_infos ← fetch_node_infos_v3 (s3_guardians options) "guardian";
  witness_infos ← fetch_node_infos_v3 (s3_witnesses options) "witness";
  bundle ← draw (create_setup_v3 options signer_count guardian_count relay_bases guardian_infos
    witness_infos);
  _ ← each (install_signer options bundle) (imap pair (s3_signers options));
  _ ← each (install_guardian options bundle) (imap pair (s3_guardians options));
  _ ← each (install_witness options bundle) (imap pair (s3_witnesses options));
  targets ← try (numbered (trim_end_slashes <$> s3_guardians options));
  let owner_control := {|
    ocf3_protocol_version := PROTOCOL_VERSION_V3;
    ocf3_config_ref := cap3_config_ref (s3b_capsule bundle);
    ocf3_owner_cancel_signing_seed := s3b_owner_cancel_signing_seed bundle;
    ocf3_owner_cancel_public_key := cap3_owner_cancel_public_key (s3b_capsule bundle);
    ocf3_guardian_targets := btree_collect targets;
    ocf3_relay_bases := relay_bases
  |} in
  _ ← exchange_ok EIo (write_file (s3_card_path options) (DocCardV3 (s3b_card bundle)));
  _ ← exchange_ok EIo (write_file (s3_owner_control_path options) (DocOwnerV3 owner_control));
  mret (s3b_card bundle).

End setup.
End SetupV3.
