(* ===== verification/Coordinator.v ===== *)
(** Parts of the rotation coordinator:
    crates/gp-network/src/rotation_coordinator.rs, its files and options, the
    checks of what actors answer, the loops that collect votes, the grants it
    seals, and how it reaches rotation mailboxes.

    The operations of the world that only a rotation uses are the class
    [RotationNetwork], the JSON of its messages the class [RotationJson]. *)

From S2P Require Export ClientV3 ClientV2.

(** ** Data *)

Record RotateV3Options : Set := mkRotateV3Options {
  rot3_card_path : string;
  rot3_owner_control_path : string;
  rot3_remove_guardian : u16;
  rot3_replacement_target : string;
  rot3_relay_token : string;
  rot3_admin_token : string;
  rot3_rotation_control_path : string
}.

Record RotationControlFileV3 : Set := mkRotationControlFileV3 {
  rcf_protocol_version : u16;
  rcf_recovery_card : RecoveryCardV3;
  rcf_predecessor_capsule : ConfigCapsuleV3;
  rcf_plan : RotationPlan;
  rcf_owner_cancel_public_key : barr 32
}.

Record CancelRotationV3Options : Set := mkCancelRotationV3Options {
  crt_rotation_control_path : string;
  crt_owner_control_path : string
}.

Record CancelRotationV3Result : Set := mkCancelRotationV3Result {
  crr_rotation_id : string;
  crr_witness_acknowledgements : N;
  crr_required_witness_acknowledgements : N;
  crr_old_guardian_acknowledgements : N;
  crr_required_old_guardian_acknowledgements : N;
  crr_signer_cancel_finalizations : N;
  crr_permanently_cancelled : bool
}.

Record RotateV3Result : Set := mkRotateV3Result {
  rvr_config_id : string;
  rvr_predecessor_epoch : u64;
  rvr_successor_epoch : u64;
  rvr_removed_guardian : u16;
  rvr_added_guardian : u16;
  rvr_prepared_guardians : N;
  rvr_witness_acknowledgements : N;
  rvr_plaintext_decryptions : u64
}.

(** crates/gp-network/src/types.rs: what a witness is sent. *)
Record WitnessActivationRequest : Set := mkWitnessActivationRequest {
  war_capsule : ConfigCapsuleV3;
  war_activation_certificate : RotationActivateCertificate
}.

(** ** The world of a rotation *)

Class RotationNetwork `{World : Network} : Type := {
  read_owner_control_v3 : string → Net → option OwnerControlFileV3 * Net;
  read_rotation_control : string → Net → option RotationControlFileV3 * Net;
  write_rotation_control : string → RotationControlFileV3 → Net → bool * Net;
  post_activate : string → WitnessActivationRequest → Net → option WitnessActivationAck * Net;
  post_finalize : string → EpochActivationQc → Net → bool * Net;
  post_cancel_rotation : string → OwnerRotationCancelCertificate → Net →
    option WitnessRotationCancelAck * Net
}.

Class RotationJson : Type := {
  signer_rotation_request_to_vec : SignerRotationRequestV3 → option (list byte);
  signer_rotation_response_from_slice : list byte → option SignerRotationResponseV3;
  guardian_rotation_request_to_vec : GuardianRotationRequestV3 → option (list byte);
  guardian_rotation_response_from_slice : list byte → option GuardianRotationResponseV3
}.

Module Coordinator.
Export ClientV2 ClientV3 RotationProtocol.

(** The messages waiting for each guardian. *)
Abbreviation Mail := (gmap u16 (list SealedMessage)).

Section coordinator.
Context `{Prims : Primitives} `{Sharing : SharingPrimitives} `{Frost : FrostPrimitives}.
Context `{Protocol : ProtocolPrimitives} `{World : Network} `{Json : ClientPrimitives}.
Context `{RWorld : !RotationNetwork} `{RJson : RotationJson}.

(** ** Checks of what actors answer *)

Definition validate_descriptor (descriptor : RecoveryDescriptorV3) (capsule : ConfigCapsuleV3) :
    Result Error () :=
  let mismatch := Msg "active descriptor does not match the witness-authenticated capsule" in
  if ((rd3_config_ref descriptor !=? cap3_config_ref capsule)
      || (rd3_guardian_material_root descriptor !=? cap3_guardian_material_root capsule)
      || (rd3_data_shards descriptor !=? cap3_guardian_threshold capsule)
      || (rd3_total_shards descriptor !=? cap3_guardian_count capsule)
      || (len (rd3_guardians descriptor) !=? uval (cap3_guardian_count capsule))
      || (rd3_dpss_public_commitment descriptor !=? cap3_dpss_public_commitment capsule))%mr
  then Err mismatch else
  digest ← crypto (frost_public_package_digest (rd3_dpss_public_package descriptor));
  fail_if (digest !=? cap3_dpss_public_commitment capsule)%mr mismatch.

(** Unlike [validate_signer_membership] this does not compare the id with the
    number of signers; the Merkle check does. *)
Definition validate_intent_contribution (contribution : SignerRotationIntentContribution)
    (intent : RotationIntent) (intent_hash : Id32) (capsule : ConfigCapsuleV3) :
    Result Error () :=
  if ((sric_context contribution !=? ri_context intent)
      || (sric_intent_hash contribution !=? intent_hash))%mr
  then Err (Msg "signer intent contribution is transcript-mismatched") else
  leaf ← wire (signer_leaf (sric_signer_id contribution) (sric_signer_public_key contribution));
  _ ← fail_if (uval (sric_signer_id contribution) =? 0)%N (Msg "zero signer id");
  _ ← crypto (merkle_verify (cap3_signer_set_commitment capsule) (sha256 leaf)
    (sric_signer_id contribution - 1) (cap3_signer_count capsule)
    (sric_signer_membership_proof contribution));
  t ← wire (signer_rotation_intent_contribution contribution);
  crypto (verify (sric_signer_public_key contribution) t (sric_signer_signature contribution)).

Definition validate_signer_membership (signer_id : u16) (public_key : barr 32)
    (proof : list byte) (capsule : ConfigCapsuleV3) : Result Error () :=
  _ ← fail_if (uval signer_id =? 0)%N (Msg "zero signer id");
  if (cap3_signer_count capsule <? signer_id)%mr
  then Err (Msg "signer id is outside the committed signer set") else
  leaf ← wire (signer_leaf signer_id public_key);
  crypto (merkle_verify (cap3_signer_set_commitment capsule) (sha256 leaf)
    (signer_id - 1) (cap3_signer_count capsule) proof).

Definition validate_signer_begin_vote (vote : SignerRotationBeginVote) (plan : RotationPlan)
    (predecessor : ConfigCapsuleV3) : Result Error () :=
  plan_hash ← sha256 <$> wire (rotation_plan plan);
  if ((srbv_context vote !=? plan_context plan)
      || (srbv_intent_hash vote !=? plan_intent_hash plan)
      || (srbv_plan_hash vote !=? plan_hash)
      || (srbv_old_roster_commitment vote !=? plan_old_roster_commitment plan)
      || (srbv_new_roster_commitment vote !=? plan_new_roster_commitment plan))%mr
  then Err (Msg "signer Begin vote does not bind the exact plan") else
  _ ← validate_signer_membership (srbv_signer_id vote) (srbv_signer_public_key vote)
    (srbv_signer_membership_proof vote) predecessor;
  t ← wire (signer_rotation_begin_vote vote);
  crypto (verify (srbv_signer_public_key vote) t (srbv_signer_signature vote)).

Definition validate_signer_release_vote (vote : SignerRotationReleaseVote) (plan : RotationPlan)
    (begin_hash : Id32) (predecessor : ConfigCapsuleV3) : Result Error () :=
  plan_hash ← sha256 <$> wire (rotation_plan plan);
  if ((srrv_context vote !=? plan_context plan)
      || (srrv_plan_hash vote !=? plan_hash)
      || (srrv_begin_certificate_hash vote !=? begin_hash))%mr
  then Err (Msg "signer Release vote does not bind the exact Begin") else
  _ ← validate_signer_membership (srrv_signer_id vote) (srrv_signer_public_key vote)
    (srrv_signer_membership_proof vote) predecessor;
  t ← wire (signer_rotation_release_vote vote);
  crypto (verify (srrv_signer_public_key vote) t (srrv_signer_signature vote)).

Definition validate_signer_activate_vote (vote : SignerRotationActivateVote)
    (plan : RotationPlan) (ready_hash : Id32) (successor : ConfigCapsuleV3) : Result Error () :=
  plan_hash ← sha256 <$> wire (rotation_plan plan);
  if ((srav_context vote !=? plan_context plan)
      || (srav_plan_hash vote !=? plan_hash)
      || (srav_ready_certificate_hash vote !=? ready_hash)
      || (srav_successor_capsule_hash vote !=? cap3_capsule_hash successor))%mr
  then Err (Msg "signer Activate vote does not bind the exact successor") else
  _ ← validate_signer_membership (srav_signer_id vote) (srav_signer_public_key vote)
    (srav_signer_membership_proof vote) successor;
  t ← wire (signer_rotation_activate_vote vote);
  crypto (verify (srav_signer_public_key vote) t (srav_signer_signature vote)).

Definition validate_signer_abort_vote (vote : SignerRotationAbortVote) (plan : RotationPlan)
    (predecessor : ConfigCapsuleV3) (state_at_abort : RotationState) (reason_code : u16) :
    Result Error () :=
  plan_hash ← sha256 <$> wire (rotation_plan plan);
  if ((srabv_context vote !=? plan_context plan)
      || (srabv_plan_hash vote !=? plan_hash)
      || (srabv_state_at_abort vote !=? state_at_abort)
      || (srabv_reason_code vote !=? reason_code))%mr
  then Err (Msg "signer Abort vote does not bind the exact plan and reason") else
  _ ← validate_signer_membership (srabv_signer_id vote) (srabv_signer_public_key vote)
    (srabv_signer_membership_proof vote) predecessor;
  t ← wire (signer_rotation_abort_vote vote);
  crypto (verify (srabv_signer_public_key vote) t (srabv_signer_signature vote)).

Definition validate_owner_rotation_cancel_ack (ack : OwnerRotationCancelAck)
    (route : GuardianRouteV3) (plan : RotationPlan) (cancel_hash : Id32) : Result Error () :=
  let mismatch := Msg "owner rotation-cancel ack is plan- or guardian-mismatched" in
  if (orca_context ack !=? plan_context plan)%mr then Err mismatch else
  plan_hash ← sha256 <$> wire (rotation_plan plan);
  if ((orca_plan_hash ack !=? plan_hash)
      || (orca_cancel_certificate_hash ack !=? cancel_hash)
      || (orca_guardian_index ack !=? gr3_guardian_index route))%mr
  then Err mismatch else
  t ← wire (owner_rotation_cancel_ack ack);
  crypto (verify (gr3_guardian_public_key route) t (orca_guardian_signature ack)).

Definition validate_witness_activation_ack (ack : WitnessActivationAck) (witness : WitnessPin)
    (context : RotationContext) (plan_hash activation_hash : Id32)
    (predecessor successor : ConfigCapsuleV3) : Result Error () :=
  if ((waa_context ack !=? context)
      || (waa_plan_hash ack !=? plan_hash)
      || (waa_activation_certificate_hash ack !=? activation_hash)
      || (waa_witness_id ack !=? pin_witness_id witness)
      || (waa_predecessor_epoch ack !=? cr_guardian_epoch (cap3_config_ref predecessor))
      || (waa_predecessor_capsule_hash ack !=? cap3_capsule_hash predecessor)
      || (waa_successor_epoch ack !=? cr_guardian_epoch (cap3_config_ref successor))
      || (waa_successor_capsule_hash ack !=? cap3_capsule_hash successor)
      || (waa_witness_public_key ack !=? pin_public_key witness))%mr
  then Err (Msg "witness activation ack does not bind the exact successor") else
  t ← wire (witness_activation_ack ack);
  crypto (verify (pin_public_key witness) t (waa_witness_signature ack)).

Definition validate_witness_rotation_cancel_ack (ack : WitnessRotationCancelAck)
    (witness : WitnessPin) (plan : RotationPlan) (cancel_hash : Id32) : Result Error () :=
  let mismatch := Msg "witness rotation-cancel ack is transcript-mismatched" in
  if ((wrca_protocol_version ack !=? PROTOCOL_VERSION_V3)
      || (wrca_config_id ack !=? cr_config_id (ctx_config_ref (plan_context plan)))
      || (wrca_rotation_id ack !=? ctx_rotation_id (plan_context plan)))%mr
  then Err mismatch else
  plan_hash ← sha256 <$> wire (rotation_plan plan);
  if ((wrca_plan_hash ack !=? plan_hash)
      || (wrca_cancel_certificate_hash ack !=? cancel_hash)
      || (wrca_witness_id ack !=? pin_witness_id witness)
      || (wrca_witness_public_key ack !=? pin_public_key witness))%mr
  then Err mismatch else
  t ← wire (witness_rotation_cancel_ack ack);
  crypto (verify (pin_public_key witness) t (wrca_witness_signature ack)).

Definition validate_fragment_contribution (contribution : CiphertextFragmentContribution)
    (route : GuardianRouteV3) (descriptor : RecoveryDescriptorV3) (plan : RotationPlan)
    (release_hash : Id32) : Result Error () :=
  let unbound :=
    Msg "ciphertext fragment contribution is not bound to the old committed record" in
  let leaf := cfc_prepared_record_leaf contribution in
  if (cfc_context contribution !=? plan_context plan)%mr then Err unbound else
  plan_hash ← sha256 <$> wire (rotation_plan plan);
  if ((cfc_plan_hash contribution !=? plan_hash)
      || (cfc_release_certificate_hash contribution !=? release_hash)
      || (cfc_old_guardian_index contribution !=? gr3_guardian_index route)
      || (cfc_fragment_index contribution !=? prl_fragment_index leaf)
      || (cfc_fragment_commitment contribution !=? sha256 (cfc_ciphertext_fragment contribution))
      || (prl_guardian_index leaf !=? gr3_guardian_index route)
      || (prl_opaque_slot_id leaf !=? gr3_opaque_slot_id route))%mr
  then Err unbound else
  t ← wire (ciphertext_fragment_contribution contribution);
  _ ← crypto (verify (gr3_guardian_public_key route) t (cfc_guardian_signature contribution));
  '(position, _) ← ok_or
    (list_find (λ candidate, gr3_guardian_index candidate = gr3_guardian_index route)
      (rd3_guardians descriptor))
    (Msg "old guardian is absent from the descriptor");
  leaf ← wire (prepared_record_leaf_v3 leaf);
  crypto (merkle_verify (rd3_guardian_material_root descriptor) (sha256 leaf)
    (N.of_nat position) (len (rd3_guardians descriptor)) (cfc_merkle_path_proof contribution)).

(** ** Reaching rotation mailboxes *)

Definition rotation_candidates (mailbox id : string) (relays : list string) : list string :=
  foldl (λ candidates relay,
    let candidate := trim_end_slashes relay +:+ "/v3/mailboxes/" +:+ id in
    if bool_decide (candidate ∈ candidates) then candidates else candidates ++ [candidate])
    (if contains "/v3/mailboxes/" mailbox then [mailbox] else []) relays.

Definition send_rotation_once {T R} (to_vec : T → option (list byte))
    (from_slice : list byte → option R) (mailbox : string) (action : T)
    (recipient : RecipientKeyPair) : Client R :=
  send_sealed to_vec from_slice (trim_end_slashes mailbox +:+ "/key") mailbox
    "rotation-request" "rotation-response" action recipient false.

Definition send_rotation_mailbox {T R} (to_vec : T → option (list byte))
    (from_slice : list byte → option R) (mailbox : string) (relays : list string) (action : T)
    (recipient : RecipientKeyPair) : Client R :=
  id ← try (mailbox_id mailbox);
  first_answer (Msg "no v3 relay replica is configured")
    (λ candidate, send_rotation_once to_vec from_slice candidate action recipient)
    (rotation_candidates mailbox id relays).

Definition ask_signer (relays : list string) (recipient : RecipientKeyPair)
    (action : SignerRotationRequestV3) (mailbox : string) : Client SignerRotationResponseV3 :=
  send_rotation_mailbox signer_rotation_request_to_vec signer_rotation_response_from_slice
    mailbox relays action recipient.

Definition ask_guardian (relays : list string) (recipient : RecipientKeyPair)
    (action : GuardianRotationRequestV3) (mailbox : string) :
    Client GuardianRotationResponseV3 :=
  send_rotation_mailbox guardian_rotation_request_to_vec guardian_rotation_response_from_slice
    mailbox relays action recipient.

(** ** Collecting votes *)

(** One turn of the loops over the signers: a vote that is valid and of a
    signer not seen before is kept. *)
Definition keep_vote {V} (vote_of : SignerRotationResponseV3 → option V) (signer_id : V → u16)
    (valid : V → Result Error ()) (answer : Result Error SignerRotationResponseV3)
    (kept : gset u16 * list V) : gset u16 * list V :=
  match answer with
  | Ok response =>
      match vote_of response with
      | Some vote =>
          if is_ok (valid vote) && bool_decide (signer_id vote ∉ kept.1)
          then ({[signer_id vote]} ∪ kept.1, kept.2 ++ [vote]) else kept
      | None => kept
      end
  | Err _ => kept
  end.

Fixpoint collect_votes {V} (threshold : u16) (ask : string → Client SignerRotationResponseV3)
    (vote_of : SignerRotationResponseV3 → option V) (signer_id : V → u16)
    (valid : V → Result Error ()) (mailboxes : list string) (kept : gset u16 * list V) :
    Client (list V) :=
  match mailboxes with
  | [] => mret kept.2
  | mailbox :: mailboxes =>
      answer ← attempt (ask mailbox);
      let kept := keep_vote vote_of signer_id valid answer kept in
      if (threshold <=? len kept.2)%mr then mret kept.2
      else collect_votes threshold ask vote_of signer_id valid mailboxes kept
  end.

Definition begin_vote_of (response : SignerRotationResponseV3) : option SignerRotationBeginVote :=
  match response with SrBeginVote vote => Some vote | _ => None end.
Definition release_vote_of (response : SignerRotationResponseV3) :
    option SignerRotationReleaseVote :=
  match response with SrReleaseVote vote => Some vote | _ => None end.
Definition activate_vote_of (response : SignerRotationResponseV3) :
    option SignerRotationActivateVote :=
  match response with SrActivateVote vote => Some vote | _ => None end.
Definition abort_vote_of (response : SignerRotationResponseV3) : option SignerRotationAbortVote :=
  match response with SrAbortVote vote => Some vote | _ => None end.

Definition collect_signer_begin_votes (card : RecoveryCardV3) (coordinator : RecipientKeyPair)
    (plan : RotationPlan) (predecessor : ConfigCapsuleV3) :
    Client (list SignerRotationBeginVote) :=
  votes ← collect_votes (cap3_signer_threshold predecessor)
    (ask_signer (card3_relay_bases card) coordinator (SrBegin (plan_intent_hash plan) plan))
    begin_vote_of srbv_signer_id (λ vote, validate_signer_begin_vote vote plan predecessor)
    (card3_signer_mailboxes card) (∅, []);
  _ ← bail_if (len votes <? cap3_signer_threshold predecessor)%mr
    "signer Begin threshold was not reached";
  mret votes.

Definition collect_signer_release_votes (card : RecoveryCardV3) (coordinator : RecipientKeyPair)
    (plan : RotationPlan) (begin : BeginRotationCertificate) (predecessor : ConfigCapsuleV3) :
    Client (list SignerRotationReleaseVote) :=
  begin_hash ← try (sha256 <$> wire (begin_rotation_certificate begin));
  votes ← collect_votes (cap3_signer_threshold predecessor)
    (ask_signer (card3_relay_bases card) coordinator (SrRelease plan begin))
    release_vote_of srrv_signer_id
    (λ vote, validate_signer_release_vote vote plan begin_hash predecessor)
    (card3_signer_mailboxes card) (∅, []);
  _ ← bail_if (len votes <? cap3_signer_threshold predecessor)%mr
    "signer Release threshold was not reached";
  mret votes.

Definition collect_signer_activate_votes (card : RecoveryCardV3) (coordinator : RecipientKeyPair)
    (plan : RotationPlan) (ready : RotationReadyCertificate) (successor : ConfigCapsuleV3) :
    Client (list SignerRotationActivateVote) :=
  ready_hash ← try (sha256 <$> wire (rotation_ready_certificate ready));
  votes ← collect_votes (cap3_signer_threshold successor)
    (ask_signer (card3_relay_bases card) coordinator (SrActivate plan ready successor))
    activate_vote_of srav_signer_id
    (λ vote, validate_signer_activate_vote vote plan ready_hash successor)
    (card3_signer_mailboxes card) (∅, []);
  _ ← bail_if (len votes <? cap3_signer_threshold successor)%mr
    "signer Activate threshold was not reached";
  mret votes.

(** Too few abort votes are no error. *)
Definition collect_signer_abort_votes (card : RecoveryCardV3) (coordinator : RecipientKeyPair)
    (plan : RotationPlan) (predecessor : ConfigCapsuleV3) (state_at_abort : RotationState)
    (reason_code : u16) : Client (list SignerRotationAbortVote) :=
  collect_votes (cap3_signer_threshold predecessor)
    (ask_signer (card3_relay_bases card) coordinator
      (SrAbort plan state_at_abort reason_code (rkp_public coordinator)))
    abort_vote_of srabv_signer_id
    (λ vote, validate_signer_abort_vote vote plan predecessor state_at_abort reason_code)
    (card3_signer_mailboxes card) (∅, []).

(** ** Grants and deliveries *)

Definition route_by_id (routes : list GuardianRouteV3) (id : u16) :
    Result Error GuardianRouteV3 :=
  snd <$> ok_or (list_find (λ route, gr3_guardian_index route = id) routes)
    (Msg "guardian route is missing").

Definition empty_sealed : SealedMessage := {|
  sealed_kem_ciphertext := [];
  sealed_payload := {| aead_nonce := brep 24 x00; aead_ciphertext := [] |}
|}.

(** A key sealed to a guardian, with fresh draws. *)
Definition seal_key (route : GuardianRouteV3) (key : Result Error Id32)
    (payload_context : Result WireError (list byte)) : SR Rng Error SealedMessage :=
  kem_seed ← random_id;
  nonce ← random_nonce;
  key ← lift key;
  context ← lift (wire payload_context);
  lift (crypto (seal_to_recipient (gr3_session_recipient_key route) kem_seed nonce
    (bytes_of key) context)).

Definition old_grant (plan : RotationPlan) (release_hash : Id32) (route : GuardianRouteV3)
    (authorization_key : barr 32) : SR Rng Error OldShareUnlockGrant :=
  let index := gr3_guardian_index route in
  plan_transcript ← lift (wire (rotation_plan plan));
  let with_keys unwrap_key fragment_key := {|
    osug_context := plan_context plan;
    osug_plan_hash := sha256 plan_transcript;
    osug_release_certificate_hash := release_hash;
    osug_old_guardian_index := index;
    osug_encrypted_unwrap_key := unwrap_key;
    osug_encrypted_fragment_key := fragment_key
  |} in
  unwrap_key ← seal_key route
    (crypto (guardian_share_key_v3 authorization_key (plan_predecessor plan) index))
    (old_share_unlock_grant_payload_context (with_keys empty_sealed empty_sealed) false);
  fragment_key ← seal_key route
    (crypto (guardian_fragment_key_v3 authorization_key (plan_predecessor plan) index))
    (old_share_unlock_grant_payload_context (with_keys unwrap_key empty_sealed) true);
  mret (with_keys unwrap_key fragment_key).

Definition new_grant (plan : RotationPlan) (release_hash : Id32) (route : GuardianRouteV3)
    (authorization_key : barr 32) : SR Rng Error NewShareWrapGrant :=
  let index := gr3_guardian_index route in
  plan_transcript ← lift (wire (rotation_plan plan));
  let with_keys wrap_key fragment_key := {|
    nswg_context := plan_context plan;
    nswg_plan_hash := sha256 plan_transcript;
    nswg_release_certificate_hash := release_hash;
    nswg_new_guardian_index := index;
    nswg_encrypted_wrap_key := wrap_key;
    nswg_encrypted_fragment_key := fragment_key
  |} in
  wrap_key ← seal_key route
    (crypto (guardian_share_key_v3 authorization_key (plan_successor plan) index))
    (new_share_wrap_grant_payload_context (with_keys empty_sealed empty_sealed) false);
  fragment_key ← seal_key route
    (crypto (guardian_fragment_key_v3 authorization_key (plan_successor plan) index))
    (new_share_wrap_grant_payload_context (with_keys wrap_key empty_sealed) true);
  mret (with_keys wrap_key fragment_key).

Fixpoint distribute (by_recipient : Mail) (deliveries : list DpssDeliveryV3)
    (routes : list GuardianRouteV3) : Result Error Mail :=
  match deliveries with
  | [] => Ok by_recipient
  | delivery :: deliveries =>
      '(_, recipient) ← ok_or
        (list_find (λ route, gr3_mailbox route = dd3_target_mailbox delivery) routes)
        (Msg "DPSS delivery target is outside the expected roster");
      let index := gr3_guardian_index recipient in
      distribute (<[index := default [] (by_recipient !! index) ++ [dd3_sealed_message delivery]]>
        by_recipient) deliveries routes
  end.

Definition rotation_actor_mailboxes (successors : list GuardianRouteV3) : list string :=
  gr3_mailbox <$> successors.

(** ** Provisioning *)

Definition provision_aliases (fresh : GuardianRouteV3) (existing_mailbox target : string)
    (relays : list string) (relay_token admin_token : string) : Client () :=
  mailbox ← try (mailbox_id (gr3_mailbox fresh));
  existing ← try (mailbox_id existing_mailbox);
  _ ← exchange_ok EHttp (post_alias (trim_end_slashes target +:+ "/v3/aliases") admin_token
    {| alias_mailbox := mailbox; alias_existing_mailbox := existing |});
  each (λ relay, register_route relay relay_token (gr3_mailbox fresh) target) relays.

Definition provision_candidate (target : string) (info : NodeInfo)
    (provision : GuardianRotationProvisionV3) (admin_token : string) : Client () :=
  kem_seed ← draw random_id;
  nonce ← draw random_nonce;
  plaintext ← try (ok_or (guardian_provision_to_vec provision) ESerde);
  context ← try (wire (node_provision_context (ni_node_id info) "guardian-v3"));
  sealed ← try (crypto (seal_to_recipient (ni_transport_public_key info) kem_seed nonce plaintext
    context));
  exchange_ok EHttp (post_provision (trim_end_slashes target +:+ "/v3/provision") admin_token
    {| smb_sealed := sealed |}).

Definition node_info_v3 (target role : string) : Client NodeInfo :=
  info ← exchange EHttp (get_node_info (trim_end_slashes target +:+ "/v3/node-info"));
  _ ← bail_if ((ni_protocol_version info !=? PROTOCOL_VERSION_V3) || (ni_role info !=? role))%mr
    "replacement node has the wrong protocol version or role";
  mret info.

Definition new_mailbox (relay : string) : SR Rng Error string := mailbox_url_v3 relay.

End coordinator.

End Coordinator.
