(* ===== verification/Rotate.v ===== *)
(** The replacement of one guardian:
    crates/gp-network/src/rotation_coordinator.rs, [rotate_v3].

    The function is cut where it has reached a result that the rest uses: the
    opened predecessor, the plan, the begun and released rotation, the agreed
    refresh, the prepared successor, the activated capsule. *)

From stdpp Require Import sorting.
From S2P Require Export Coordinator SetupV3.

Module Rotate.
Export Coordinator.

Section rotate.
Context `{Prims : Primitives} `{Sharing : SharingPrimitives} `{Frost : FrostPrimitives}.
Context `{Protocol : ProtocolPrimitives} `{World : Network} `{Json : ClientPrimitives}.
Context `{RWorld : !RotationNetwork} `{RJson : RotationJson}.

(** ** Opening the predecessor *)

Definition owner_mismatch (owner : OwnerControlFileV3) (card : RecoveryCardV3) : bool :=
  ((ocf3_protocol_version owner !=? PROTOCOL_VERSION_V3)
   || (cr_config_id (ocf3_config_ref owner) !=? card3_config_id card)
   || (ocf3_owner_cancel_public_key owner !=? card3_owner_cancel_public_key card)
   || (verifying_key_bytes (signing_key (ocf3_owner_cancel_signing_seed owner))
       !=? ocf3_owner_cancel_public_key owner)
   || (ocf3_relay_bases owner !=? card3_relay_bases card))%mr.

Definition rotation_context (predecessor : ConfigCapsuleV3) (coordinator : RecipientKeyPair)
    (rotation_id nonce : Id32) (issued_at : u64) : RotationContext := {|
  ctx_protocol_version := PROTOCOL_VERSION_V3;
  ctx_config_ref := cap3_config_ref predecessor;
  ctx_rotation_id := rotation_id;
  ctx_predecessor_capsule_hash := cap3_capsule_hash predecessor;
  ctx_recipient_key := rkp_public coordinator;
  ctx_nonce := nonce;
  ctx_issued_at := issued_at;
  ctx_expiry := sat_add (sat_add issued_at (cap3_minimum_recovery_delay predecessor)) (U64 7200)
|}.

Definition exit_intent (context : RotationContext) (predecessor : ConfigCapsuleV3)
    (remove_guardian : u16) (witness_read_qc_hash : Id32) : RotationIntent := {|
  ri_context := context;
  ri_reason := ReasonPlannedExit;
  ri_old_guardian_count := cap3_guardian_count predecessor;
  ri_old_guardian_threshold := cap3_guardian_threshold predecessor;
  ri_allowed_new_guardian_count := [cap3_guardian_count predecessor];
  ri_allowed_new_guardian_threshold := [cap3_guardian_threshold predecessor];
  ri_allowed_dpss_suites := [ZfFrostRistretto255RtsRefreshV1];
  ri_selection_constraints_commitment := sha256 (be remove_guardian);
  ri_witness_read_qc_hash := witness_read_qc_hash
|}.

(** The loop over the signers: an intent contribution that is not valid ends
    the rotation, and two of one signer are both kept. *)
Fixpoint gather_intents (card : RecoveryCardV3) (coordinator : RecipientKeyPair)
    (predecessor : ConfigCapsuleV3) (intent : RotationIntent) (intent_hash : Id32)
    (action : SignerRotationRequestV3) (mailboxes : list string)
    (contributions : list SignerRotationIntentContribution) :
    Client (list SignerRotationIntentContribution) :=
  match mailboxes with
  | [] => mret contributions
  | mailbox :: mailboxes =>
      answer ← attempt (ask_signer (card3_relay_bases card) coordinator action mailbox);
      contributions ←
        match answer with
        | Ok (SrIntentContribution value) =>
            _ ← try (validate_intent_contribution value intent intent_hash predecessor);
            mret (contributions ++ [value])
        | _ => mret contributions
        end;
      if (cap3_signer_threshold predecessor <=? len contributions)%mr then mret contributions
      else gather_intents card coordinator predecessor intent intent_hash action mailboxes
        contributions
  end.

Definition open_intent_share (coordinator : RecipientKeyPair) (context : RotationContext)
    (intent_hash : Id32) (contribution : SignerRotationIntentContribution) :
    Result Error (list byte) :=
  ctx ← wire (rotation_intent_share_context_v3 context intent_hash
    (sric_signer_id contribution));
  crypto (open coordinator (sric_encrypted_authorization_share contribution) ctx).

(** From the signers' shares to A, as the key it is, and the private
    descriptor. *)
Definition open_active_descriptor (coordinator : RecipientKeyPair) (context : RotationContext)
    (intent_hash : Id32) (predecessor : ConfigCapsuleV3)
    (contributions : list SignerRotationIntentContribution) :
    Result Error (barr 32 * RecoveryDescriptorV3) :=
  shares ← collect (open_intent_share coordinator context intent_hash) contributions;
  authorization_key ← crypto (recover_secret shares (cap3_signer_threshold predecessor));
  authorization_key ← ok_or (try_barr 32 authorization_key) ETryFromSlice;
  key ← crypto (descriptor_key_v3 authorization_key (cap3_config_ref predecessor));
  ctx ← wire (descriptor_context_v3 (cap3_config_ref predecessor));
  plaintext ← crypto (aead_decrypt key (cap3_encrypted_recovery_descriptor predecessor) ctx);
  descriptor ← ok_or (descriptor_v3_from_slice plaintext) ESerde;
  _ ← validate_descriptor descriptor predecessor;
  Ok (authorization_key, descriptor).

Record Opened : Set := mkOpened {
  op_card : RecoveryCardV3;
  op_owner : OwnerControlFileV3;
  op_coordinator : RecipientKeyPair;
  op_predecessor : ConfigCapsuleV3;
  op_context : RotationContext;
  op_intent_hash : Id32;
  op_authorization_key : barr 32;
  op_descriptor : RecoveryDescriptorV3
}.

Definition open_predecessor (options : RotateV3Options) : Client Opened :=
  card ← exchange EIo (read_card_v3 (rot3_card_path options));
  owner ← exchange EIo (read_owner_control_v3 (rot3_owner_control_path options));
  _ ← bail_if (owner_mismatch owner card)
    "v3 owner-control file does not match the Recovery Card";
  seed ← draw random_id;
  let coordinator := RecipientKeyPair_from_seed seed in
  '(predecessor, witness_challenge, witness_reads) ← read_latest_epoch_v3 card coordinator;
  _ ← bail_if (ocf3_config_ref owner !=? cap3_config_ref predecessor)%mr
    "owner-control epoch is stale; refusing rotation";
  issued_at ← wall_now;
  rotation_id ← draw random_id;
  nonce ← draw random_id;
  let context := rotation_context predecessor coordinator rotation_id nonce issued_at in
  witness_read_qc_hash ← try (witness_read_quorum_hash_v3 witness_challenge witness_reads);
  let intent := exit_intent context predecessor (rot3_remove_guardian options)
    witness_read_qc_hash in
  intent_hash ← try (sha256 <$> wire (rotation_intent intent));
  contributions ← gather_intents card coordinator predecessor intent intent_hash
    (SrIntent intent witness_challenge witness_reads) (card3_signer_mailboxes card) [];
  _ ← bail_if (len contributions <? cap3_signer_threshold predecessor)%mr
    "rotation intent did not reach the signer threshold";
  '(authorization_key, descriptor) ← try (open_active_descriptor coordinator context intent_hash
    predecessor contributions);
  mret {| op_card := card; op_owner := owner; op_coordinator := coordinator;
          op_predecessor := predecessor; op_context := context; op_intent_hash := intent_hash;
          op_authorization_key := authorization_key; op_descriptor := descriptor |}.

(** ** The plan *)

(** [max().unwrap_or(0)]. *)
Definition max_index (routes : list GuardianRouteV3) : N :=
  foldl (λ m route, N.max m (gr3_guardian_index route)) 0%N routes.

(** The candidate is no operator or endpoint of the roster. *)
Definition replacement_taken (descriptor : RecoveryDescriptorV3) (owner : OwnerControlFileV3)
    (info : NodeInfo) (domain : Id32) (target : string) : bool :=
  existsb (λ route,
    (gr3_operator_domain_commitment route ==? domain)
    || (gr3_session_recipient_key route ==? ni_transport_public_key info))%mr
    (rd3_guardians descriptor)
  || existsb (λ '(_, known), trim_end_slashes known ==? trim_end_slashes target)%mr
    (map_to_list (ocf3_guardian_targets owner)).

(** Each guardian that stays gets a fresh slot and mailbox. *)
Fixpoint carry_over (options : RotateV3Options) (opened : Opened)
    (routes : list GuardianRouteV3) : Client (list GuardianRouteV3) :=
  match routes with
  | [] => mret []
  | route :: routes =>
      let relays := card3_relay_bases (op_card opened) in
      target ← present (ocf3_guardian_targets (op_owner opened) !! gr3_guardian_index route)
        "owner control lacks an unchanged guardian target";
      opaque_slot_id ← draw random_id;
      relay ← try (index_or_panic relays 0);
      mailbox ← draw (new_mailbox relay);
      let fresh := {|
        gr3_guardian_index := gr3_guardian_index route;
        gr3_opaque_slot_id := opaque_slot_id;
        gr3_mailbox := mailbox;
        gr3_guardian_public_key := gr3_guardian_public_key route;
        gr3_session_recipient_key := gr3_session_recipient_key route;
        gr3_operator_domain_commitment := gr3_operator_domain_commitment route
      |} in
      _ ← provision_aliases fresh (gr3_mailbox route) target relays (rot3_relay_token options)
        (rot3_admin_token options);
      rest ← carry_over options opened routes;
      mret (fresh :: rest)
  end.

(** [sort_by_key(|route| route.guardian_index)], which is stable. *)
Definition by_guardian_index (a b : GuardianRouteV3) : Prop :=
  (gr3_guardian_index a ≤ gr3_guardian_index b)%N.
#[export] Instance by_guardian_index_dec : RelDecision by_guardian_index.
Proof. intros a b. unfold by_guardian_index. apply _. Defined.

Definition make_plan (opened : Opened) (successor : ConfigRef)
    (new_roster : list GuardianRouteV3) (dpss_session_id : Id32) (successor_count : u16)
    (old_commitment new_commitment : Id32) : RotationPlan :=
  let predecessor := op_predecessor opened in
  let context := op_context opened in {|
  plan_context := context;
  plan_intent_hash := op_intent_hash opened;
  plan_predecessor := cap3_config_ref predecessor;
  plan_successor := successor;
  plan_old_roster := rd3_guardians (op_descriptor opened);
  plan_new_roster := new_roster;
  plan_old_roster_commitment := old_commitment;
  plan_new_roster_commitment := new_commitment;
  plan_old_guardian_threshold := cap3_guardian_threshold predecessor;
  plan_new_guardian_threshold := cap3_guardian_threshold predecessor;
  plan_data_shards := rd3_data_shards (op_descriptor opened);
  plan_total_shards := successor_count;
  plan_dpss_suite := cap3_dpss_suite predecessor;
  plan_dpss_session_id := dpss_session_id;
  plan_dpss_qualified_set_commitment := new_commitment;
  plan_minimum_delay_secs := cap3_minimum_recovery_delay predecessor;
  plan_preparation_deadline := U64 (ctx_expiry context - 600);
  plan_drain_deadline := ctx_expiry context
|}.

Record Planned : Set := mkPlanned {
  pl_plan : RotationPlan;
  pl_plan_hash : Id32;
  pl_removed : GuardianRouteV3;
  pl_added : GuardianRouteV3
}.

Definition plan_rotation (options : RotateV3Options) (opened : Opened) : Client Planned :=
  let card := op_card opened in
  let descriptor := op_descriptor opened in
  let predecessor := op_predecessor opened in
  let remove_guardian := rot3_remove_guardian options in
  let target := rot3_replacement_target options in
  '(_, removed) ← present
    (list_find (λ route, gr3_guardian_index route = remove_guardian) (rd3_guardians descriptor))
    "removed guardian is absent from the active private roster";
  _ ← present (ocf3_guardian_targets (op_owner opened) !! remove_guardian)
    "owner control lacks the removed guardian target";
  info ← node_info_v3 target "guardian";
  let domain := sha256 (as_bytes (ni_node_id info)) in
  _ ← bail_if (replacement_taken descriptor (op_owner opened) info domain target)
    "replacement guardian must be a new operator and transport endpoint";
  added_guardian ← present (try_u16 (max_index (rd3_guardians descriptor) + 1))
    "guardian index overflow";
  epoch_binding ← draw random_id;
  let predecessor_ref := cap3_config_ref predecessor in
  let successor := {|
    cr_config_id := cr_config_id predecessor_ref;
    cr_payload_generation := cr_payload_generation predecessor_ref;
    cr_authorization_epoch := cr_authorization_epoch predecessor_ref;
    cr_guardian_epoch := sat_add (cr_guardian_epoch predecessor_ref) (U64 1);
    cr_epoch_binding := epoch_binding
  |} in
  signing_seed ← draw random_id;
  opaque_slot_id ← draw random_id;
  relay ← try (index_or_panic (card3_relay_bases card) 0);
  mailbox ← draw (new_mailbox relay);
  let added := {|
    gr3_guardian_index := added_guardian;
    gr3_opaque_slot_id := opaque_slot_id;
    gr3_mailbox := mailbox;
    gr3_guardian_public_key := verifying_key_bytes (signing_key signing_seed);
    gr3_session_recipient_key := ni_transport_public_key info;
    gr3_operator_domain_commitment := domain
  |} in
  kept ← carry_over options opened
    (filter (λ route, gr3_guardian_index route ≠ remove_guardian) (rd3_guardians descriptor));
  let new_roster := merge_sort by_guardian_index (kept ++ [added]) in
  successor_count ← try (ok_or (try_u16 (len new_roster)) ETryFromInt);
  old_commitment ← try (sha256 <$> wire (guardian_roster_v3 (rd3_guardians descriptor)));
  new_commitment ← try (sha256 <$> wire (guardian_roster_v3 new_roster));
  dpss_session_id ← draw random_id;
  let plan := make_plan opened successor new_roster dpss_session_id successor_count
    old_commitment new_commitment in
  plan_hash ← try (sha256 <$> wire (rotation_plan plan));
  mailbox ← try (mailbox_id (gr3_mailbox added));
  _ ← provision_candidate target info {|
    grp_mailbox := mailbox;
    grp_signing_seed := signing_seed;
    grp_signing_public_key := gr3_guardian_public_key added;
    grp_recovery_card := card;
    grp_predecessor_capsule := predecessor;
    grp_signer_public_keys := ∅;
    grp_epoch_store := Epochs.new_candidate predecessor_ref (cap3_capsule_hash predecessor)
  |} (rot3_admin_token options);
  _ ← each (λ relay, register_route relay (rot3_relay_token options) (gr3_mailbox added) target)
    (card3_relay_bases card);
  mret {| pl_plan := plan; pl_plan_hash := plan_hash; pl_removed := removed;
          pl_added := added |}.

(** ** Begin and Release *)

Definition begin_at (mailboxes : list string) (relays : list string)
    (coordinator : RecipientKeyPair) (plan : RotationPlan) (begin : BeginRotationCertificate) :
    Client () :=
  each (λ mailbox,
    response ← ask_guardian relays coordinator (GrBegin plan begin) mailbox;
    bail_if (match response with GrBeginAccepted _ => false | _ => true end)
      "guardian returned the wrong Begin response") mailboxes.

Definition begin_rotation (options : RotateV3Options) (opened : Opened) (planned : Planned) :
    Client BeginRotationCertificate :=
  let card := op_card opened in
  let coordinator := op_coordinator opened in
  let predecessor := op_predecessor opened in
  let plan := pl_plan planned in
  votes ← collect_signer_begin_votes card coordinator plan predecessor;
  let begin := {|
    brot_context := op_context opened;
    brot_intent_hash := op_intent_hash opened;
    brot_plan_hash := pl_plan_hash planned;
    brot_old_roster_commitment := plan_old_roster_commitment plan;
    brot_new_roster_commitment := plan_new_roster_commitment plan;
    brot_not_before_wall := sat_add (ctx_issued_at (op_context opened))
      (plan_minimum_delay_secs plan);
    brot_votes := votes
  |} in
  now ← wall_now;
  _ ← try (validate_begin_rotation_certificate_v3 begin plan predecessor now);
  _ ← begin_at (rotation_actor_mailboxes (plan_new_roster plan)) (card3_relay_bases card)
    coordinator plan begin;
  _ ← attempt (ask_guardian (card3_relay_bases card) coordinator (GrBegin plan begin)
    (gr3_mailbox (pl_removed planned)));
  _ ← exchange_ok EIo (write_rotation_control (rot3_rotation_control_path options) {|
    rcf_protocol_version := PROTOCOL_VERSION_V3;
    rcf_recovery_card := card;
    rcf_predecessor_capsule := predecessor;
    rcf_plan := plan;
    rcf_owner_cancel_public_key := ocf3_owner_cancel_public_key (op_owner opened)
  |});
  mret begin.

Definition release_rotation (opened : Opened) (planned : Planned)
    (begin : BeginRotationCertificate) : Client (RotationReleaseCertificate * Id32) :=
  let plan := pl_plan planned in
  _ ← sleep (sat_add (plan_minimum_delay_secs plan) (U64 1));
  votes ← collect_signer_release_votes (op_card opened) (op_coordinator opened) plan begin
    (op_predecessor opened);
  begin_hash ← try (sha256 <$> wire (begin_rotation_certificate begin));
  let release := {|
    rrc_context := op_context opened;
    rrc_plan_hash := pl_plan_hash planned;
    rrc_begin_certificate_hash := begin_hash;
    rrc_votes := votes
  |} in
  now ← wall_now;
  _ ← try (validate_rotation_release_certificate_v3 release begin plan (op_predecessor opened)
    now);
  release_hash ← try (sha256 <$> wire (rotation_release_certificate release));
  mret (release, release_hash).

End rotate.

End Rotate.
