(* ===== verification/Handover.v ===== *)
(** The rest of the replacement of a guardian:
    crates/gp-network/src/rotation_coordinator.rs, [rotate_v3] from the
    distributed repair to the activated successor epoch. *)

From S2P Require Export Rotate.

Module Handover.
Export Rotate.

Section handover.
Context `{Prims : Primitives} `{Sharing : SharingPrimitives} `{Frost : FrostPrimitives}.
Context `{Protocol : ProtocolPrimitives} `{World : Network} `{Json : ClientPrimitives}.
Context `{RWorld : !RotationNetwork} `{RJson : RotationJson}.

(** What the coordinator has after Release. *)
Record Released : Set := mkReleased {
  rl_opened : Opened;
  rl_planned : Planned;
  rl_begin : BeginRotationCertificate;
  rl_release : RotationReleaseCertificate;
  rl_release_hash : Id32
}.
Definition rl_plan (r : Released) : RotationPlan := pl_plan (rl_planned r).
Definition rl_descriptor (r : Released) : RecoveryDescriptorV3 := op_descriptor (rl_opened r).
Definition rl_predecessor (r : Released) : ConfigCapsuleV3 := op_predecessor (rl_opened r).
Definition rl_key (r : Released) : barr 32 := op_authorization_key (rl_opened r).

Definition ask (r : Released) (action : GuardianRotationRequestV3) (mailbox : string) :
    Client GuardianRotationResponseV3 :=
  ask_guardian (card3_relay_bases (op_card (rl_opened r))) (op_coordinator (rl_opened r)) action
    mailbox.

(** ** Repair *)

(** The first guardians that stay, as many as the old threshold. *)
Definition helper_ids (r : Released) (remove_guardian : u16) : list u16 :=
  take (N.to_nat (cap3_guardian_threshold (rl_predecessor r)))
    (filter (λ id, id ≠ remove_guardian) (gr3_guardian_index <$> rd3_guardians (rl_descriptor r))).

Fixpoint repair_round1 (r : Released) (helpers : list u16) (ids : list u16) (mail : Mail)
    (fragments : list CiphertextFragmentContribution) :
    Client (Mail * list CiphertextFragmentContribution) :=
  match ids with
  | [] => mret (mail, fragments)
  | helper_id :: ids =>
      let plan := rl_plan r in
      route ← try (route_by_id (rd3_guardians (rl_descriptor r)) helper_id);
      grant ← draw (old_grant plan (rl_release_hash r) route (rl_key r));
      response ← ask r (GrRepairRound1 plan (rl_begin r) (rl_release r) grant helpers
        (gr3_guardian_index (pl_added (rl_planned r)))) (gr3_mailbox route);
      '(deliveries, fragment) ← present
        (match response with
         | GrDpssDeliveries deliveries fragment => Some (deliveries, fragment)
         | _ => None
         end) "guardian returned the wrong RTS round-1 response";
      fragment ← present fragment "RTS helper omitted its ciphertext fragment";
      _ ← try (validate_fragment_contribution fragment route (rl_descriptor r) plan
        (rl_release_hash r));
      mail ← try (distribute mail deliveries (rd3_guardians (rl_descriptor r)));
      repair_round1 r helpers ids mail (fragments ++ [fragment])
  end.

Definition deliveries_of (response : GuardianRotationResponseV3) : option (list DpssDeliveryV3) :=
  match response with GrDpssDeliveries deliveries _ => Some deliveries | _ => None end.

(** [mail.remove(id).unwrap_or_default()]. *)
Definition mail_for (mail : Mail) (id : u16) : list SealedMessage := default [] (mail !! id).

Fixpoint repair_round2 (r : Released) (ids : list u16) (mail : Mail)
    (sigmas : list SealedMessage) : Client (list SealedMessage) :=
  match ids with
  | [] => mret sigmas
  | helper_id :: ids =>
      route ← try (route_by_id (rd3_guardians (rl_descriptor r)) helper_id);
      response ← ask r (GrRepairRound2 (rl_plan r) (mail_for mail helper_id)
        (gr3_guardian_index (pl_added (rl_planned r)))) (gr3_mailbox route);
      deliveries ← present (deliveries_of response)
        "guardian returned the wrong RTS round-2 response";
      repair_round2 r ids (delete helper_id mail) (sigmas ++ (dd3_sealed_message <$> deliveries))
  end.

Definition repair_finalize (r : Released) (sigmas : list SealedMessage) : Client (list byte) :=
  response ← ask r (GrRepairFinalize (rl_plan r) sigmas
    (rd3_dpss_public_package (rl_descriptor r))) (gr3_mailbox (pl_added (rl_planned r)));
  present (match response with
           | GrRepairStored _ expanded_public_package => Some expanded_public_package
           | _ => None
           end) "replacement guardian did not finalize RTS repair".

(** ** Refresh *)

(** Guardians of the old roster get the certificates and a grant for their old
    share. *)
Fixpoint refresh_round1 (r : Released) (routes : list GuardianRouteV3) (mail : Mail) :
    Client Mail :=
  match routes with
  | [] => mret mail
  | route :: routes =>
      let plan := rl_plan r in
      action ←
        match list_find (λ old, gr3_guardian_index old = gr3_guardian_index route)
          (rd3_guardians (rl_descriptor r)) with
        | Some (_, old) =>
            grant ← draw (old_grant plan (rl_release_hash r) old (rl_key r));
            mret (GrRefreshRound1 plan (Some (rl_begin r)) (Some (rl_release r)) (Some grant))
        | None => mret (GrRefreshRound1 plan None None None)
        end;
      response ← ask r action (gr3_mailbox route);
      deliveries ← present (deliveries_of response)
        "guardian returned the wrong refresh round-1 response";
      mail ← try (distribute mail deliveries (plan_new_roster plan));
      refresh_round1 r routes mail
  end.

Fixpoint refresh_round2 (r : Released) (routes : list GuardianRouteV3) (incoming mail : Mail) :
    Client Mail :=
  match routes with
  | [] => mret mail
  | route :: routes =>
      let index := gr3_guardian_index route in
      response ← ask r (GrRefreshRound2 (rl_plan r) (mail_for incoming index)) (gr3_mailbox route);
      deliveries ← present (deliveries_of response)
        "guardian returned the wrong refresh round-2 response";
      mail ← try (distribute mail deliveries (plan_new_roster (rl_plan r)));
      refresh_round2 r routes (delete index incoming) mail
  end.

(** All successors must name the same result. *)
Fixpoint refresh_finalize (r : Released) (expanded_public_package : list byte)
    (routes : list GuardianRouteV3) (incoming : Mail) (agreed : option (list byte * Id32)) :
    Client (option (list byte * Id32)) :=
  match routes with
  | [] => mret agreed
  | route :: routes =>
      let index := gr3_guardian_index route in
      response ← ask r (GrRefreshFinalize (rl_plan r) (mail_for incoming index)
        expanded_public_package) (gr3_mailbox route);
      result ← present
        (match response with
         | GrRefreshFinalized _ public commitment => Some (public, commitment)
         | _ => None
         end) "guardian did not finalize refresh";
      _ ← bail_if (match agreed with Some value => bool_decide (value ≠ result) | None => false end)
        "successor guardians disagreed on the FROST refresh result";
      refresh_finalize r expanded_public_package routes (delete index incoming) (Some result)
  end.

(** ** The successor's material *)

(** The ciphertext from the helpers' fragments, cut again for the successors;
    the cut must have the root the predecessor committed to. *)
Definition reencode (r : Released) (fragments : list CiphertextFragmentContribution) :
    Result Error (list (list byte) * list (list byte)) :=
  let descriptor := rl_descriptor r in
  let plan := rl_plan r in
  ciphertext ← crypto (erasure_reconstruct
    ((λ fragment, (cfc_fragment_index fragment, cfc_ciphertext_fragment fragment)) <$> fragments)
    (rd3_data_shards descriptor) (rd3_total_shards descriptor) (rd3_ciphertext_len descriptor));
  successor_fragments ← crypto (erasure_encode ciphertext (plan_new_guardian_threshold plan)
    (plan_total_shards plan));
  commitment ← crypto (commit_ciphertext_fragments (cr_config_id (plan_successor plan))
    (cr_payload_generation (plan_successor plan)) successor_fragments);
  if (cfcm_root commitment !=? cap3_ciphertext_fragment_root (rl_predecessor r))%mr
  then Err (Msg "reconstructed ciphertext does not match the predecessor fragment commitment") else
  Ok (successor_fragments, cfcm_proofs commitment).

Definition prepared_policy (r : Released) (dpss_result_commitment : Id32) : GuardianPolicyV3 :=
  let predecessor := rl_predecessor r in {|
  gpol3_config_ref := plan_successor (rl_plan r);
  gpol3_epoch_state := EpochPrepared;
  gpol3_signer_set_commitment := cap3_signer_set_commitment predecessor;
  gpol3_signer_count := cap3_signer_count predecessor;
  gpol3_signer_threshold := cap3_signer_threshold predecessor;
  gpol3_owner_cancel_public_key := cap3_owner_cancel_public_key predecessor;
  gpol3_minimum_recovery_delay := cap3_minimum_recovery_delay predecessor;
  gpol3_guardian_material_root := brep 32 x00;
  gpol3_dpss_suite := cap3_dpss_suite predecessor;
  gpol3_dpss_public_commitment := dpss_result_commitment;
  gpol3_predecessor_capsule_hash := cap3_capsule_hash predecessor;
  gpol3_activation_qc_hash := None;
  gpol3_drain_deadline := None
|}.

Fixpoint stage_material (r : Released) (fragments proofs : list (list byte))
    (result : list byte * Id32) (offset : nat) (routes : list GuardianRouteV3) :
    Client (list PreparedRecordLeaf) :=
  match routes with
  | [] => mret []
  | route :: routes =>
      grant ← draw (new_grant (rl_plan r) (rl_release_hash r) route (rl_key r));
      fragment_index ← try (ok_or (try_u16 (N.of_nat offset + 1)) ETryFromInt);
      fragment ← try (index_or_panic fragments offset);
      proof ← try (index_or_panic proofs offset);
      response ← ask r (GrStageMaterial (rl_plan r) grant fragment_index fragment proof
        (prepared_policy r result.2) (gr3_opaque_slot_id route)) (gr3_mailbox route);
      '(leaf, candidate) ← present
        (match response with
         | GrRefreshMaterialStaged leaf public commitment => Some (leaf, (public, commitment))
         | _ => None
         end) "guardian did not stage refreshed material";
      _ ← bail_if (candidate !=? result)%mr
        "staged guardian material changed the agreed refresh result";
      leaves ← stage_material r fragments proofs result (S offset) routes;
      mret (leaf :: leaves)
  end.

Fixpoint prepare_commit (r : Released) (material_root : Id32) (proofs : list (list byte))
    (dpss_result_commitment : Id32) (offset : nat) (routes : list GuardianRouteV3) :
    Client (list NewGuardianPreparedAck) :=
  match routes with
  | [] => mret []
  | route :: routes =>
      proof ← try (index_or_panic proofs offset);
      response ← ask r (GrPrepareCommit (rl_plan r) material_root proof dpss_result_commitment)
        (gr3_mailbox route);
      ack ← present (match response with GrPrepared ack => Some ack | _ => None end)
        "guardian did not durably prepare its successor record";
      acks ← prepare_commit r material_root proofs dpss_result_commitment (S offset) routes;
      mret (ack :: acks)
  end.

Fixpoint hand_off (r : Released) (dpss_result_commitment : Id32) (ids : list u16) :
    Client (list OldGuardianHandoffAck) :=
  match ids with
  | [] => mret []
  | helper_id :: ids =>
      route ← try (route_by_id (rd3_guardians (rl_descriptor r)) helper_id);
      response ← ask r (GrHandoffComplete (rl_plan r) dpss_result_commitment)
        (gr3_mailbox route);
      ack ← present (match response with GrHandoff ack => Some ack | _ => None end)
        "old guardian did not acknowledge handoff";
      acks ← hand_off r dpss_result_commitment ids;
      mret (ack :: acks)
  end.

(** Repair, refresh and staging, to the prepared successors. *)
Record Prepared : Set := mkPrepared {
  pr_public_package : list byte;
  pr_dpss_result_commitment : Id32;
  pr_material_root : Id32;
  pr_prepared_acks : list NewGuardianPreparedAck;
  pr_handoff_acks : list OldGuardianHandoffAck
}.

Definition prepare_successors (r : Released) (remove_guardian : u16) : Client Prepared :=
  let new_roster := plan_new_roster (rl_plan r) in
  let helpers := helper_ids r remove_guardian in
  _ ← bail_if (len helpers <? cap3_guardian_threshold (rl_predecessor r))%mr
    "not enough old guardians remain for FROST RTS";
  '(mail, fragments) ← repair_round1 r helpers helpers ∅ [];
  sigmas ← repair_round2 r helpers mail [];
  expanded_public_package ← repair_finalize r sigmas;
  refresh1 ← refresh_round1 r new_roster ∅;
  refresh2 ← refresh_round2 r new_roster refresh1 ∅;
  agreed ← refresh_finalize r expanded_public_package new_roster refresh2 None;
  result ← present agreed "refresh produced no public package";
  '(successor_fragments, fragment_proofs) ← try (reencode r fragments);
  leaves ← stage_material r successor_fragments fragment_proofs result 0 new_roster;
  leaf_hashes ← try (collect SetupV3.prepared_leaf_hash leaves);
  '(material_root, proofs) ← try (crypto (merkle_commit leaf_hashes));
  prepared_acks ← prepare_commit r material_root proofs result.2 0 new_roster;
  handoff_acks ← hand_off r result.2 helpers;
  mret {| pr_public_package := result.1; pr_dpss_result_commitment := result.2;
          pr_material_root := material_root; pr_prepared_acks := prepared_acks;
          pr_handoff_acks := handoff_acks |}.

(** ** The successor capsule *)

Definition successor_descriptor (r : Released) (p : Prepared) : RecoveryDescriptorV3 :=
  let plan := rl_plan r in {|
  rd3_config_ref := plan_successor plan;
  rd3_guardians := plan_new_roster plan;
  rd3_guardian_material_root := pr_material_root p;
  rd3_data_shards := plan_new_guardian_threshold plan;
  rd3_total_shards := plan_total_shards plan;
  rd3_ciphertext_len := rd3_ciphertext_len (rl_descriptor r);
  rd3_payload_nonce := rd3_payload_nonce (rl_descriptor r);
  rd3_dpss_suite := plan_dpss_suite plan;
  rd3_dpss_public_package := pr_public_package p;
  rd3_dpss_public_commitment := pr_dpss_result_commitment p
|}.

Definition seal_successor_descriptor (r : Released) (p : Prepared) : SR Rng Error AeadCiphertext :=
  let successor := plan_successor (rl_plan r) in
  key ← lift (crypto (descriptor_key_v3 (rl_key r) successor));
  nonce ← random_nonce;
  encoded ← lift (ok_or (descriptor_v3_to_vec (successor_descriptor r p)) ESerde);
  ctx ← lift (wire (descriptor_context_v3 successor));
  lift (crypto (aead_encrypt key nonce encoded ctx)).

Definition ready_certificate (r : Released) (p : Prepared)
    (encrypted_descriptor : AeadCiphertext) : RotationReadyCertificate := {|
  ready_context := op_context (rl_opened r);
  ready_plan_hash := pl_plan_hash (rl_planned r);
  ready_successor := plan_successor (rl_plan r);
  ready_dpss_result_commitment := pr_dpss_result_commitment p;
  ready_guardian_material_root := pr_material_root p;
  ready_encrypted_descriptor_hash := hash_aead encrypted_descriptor;
  ready_prepared_acks := pr_prepared_acks p;
  ready_old_handoff_acks := pr_handoff_acks p
|}.

(** With its hash, and the evidence of its activation if there is some. *)
Definition successor_capsule (r : Released) (p : Prepared) (encrypted_descriptor : AeadCiphertext)
    (capsule_hash : Id32) (evidence : option (RotationActivateCertificate * EpochActivationQc)) :
    ConfigCapsuleV3 :=
  let predecessor := rl_predecessor r in
  let plan := rl_plan r in {|
  cap3_protocol_version := PROTOCOL_VERSION_V3;
  cap3_config_ref := plan_successor plan;
  cap3_capsule_hash := capsule_hash;
  cap3_predecessor_capsule_hash := cap3_capsule_hash predecessor;
  cap3_signer_count := cap3_signer_count predecessor;
  cap3_signer_threshold := cap3_signer_threshold predecessor;
  cap3_guardian_count := plan_total_shards plan;
  cap3_guardian_threshold := plan_new_guardian_threshold plan;
  cap3_minimum_recovery_delay := cap3_minimum_recovery_delay predecessor;
  cap3_max_request_lifetime := cap3_max_request_lifetime predecessor;
  cap3_signer_set_commitment := cap3_signer_set_commitment predecessor;
  cap3_owner_cancel_public_key := cap3_owner_cancel_public_key predecessor;
  cap3_dpss_suite := cap3_dpss_suite predecessor;
  cap3_dpss_public_commitment := pr_dpss_result_commitment p;
  cap3_ciphertext_fragment_root := cap3_ciphertext_fragment_root predecessor;
  cap3_guardian_material_root := pr_material_root p;
  cap3_encrypted_recovery_descriptor := encrypted_descriptor;
  cap3_activation_certificate := fst <$> evidence;
  cap3_activation_qc := snd <$> evidence
|}.

(** ** Activation *)

Definition witness_url (card : RecoveryCardV3) (witness : WitnessPin) (operation : string) :
    string :=
  trim_end_slashes (pin_mailbox witness) +:+ "/v3/witness/configs/"
    +:+ hex_encode (card3_config_id card) +:+ "/" +:+ operation.

(** Acknowledgements that are valid, until there are [required]. *)
Fixpoint gather_activation_acks (r : Released) (successor : ConfigCapsuleV3)
    (activation : RotationActivateCertificate) (activation_hash : Id32) (required : N)
    (witnesses : list WitnessPin) (acks : list WitnessActivationAck) :
    Client (list WitnessActivationAck) :=
  match witnesses with
  | [] => mret acks
  | witness :: witnesses =>
      answer ← attempt (exchange EHttp (post_activate
        (witness_url (op_card (rl_opened r)) witness "activate")
        {| war_capsule := successor; war_activation_certificate := activation |}));
      let acks :=
        match answer with
        | Ok ack =>
            if is_ok (validate_witness_activation_ack ack witness (op_context (rl_opened r))
              (pl_plan_hash (rl_planned r)) activation_hash (rl_predecessor r) successor)
            then acks ++ [ack] else acks
        | Err _ => acks
        end in
      if (required <=? len acks)%N then mret acks
      else gather_activation_acks r successor activation activation_hash required witnesses acks
  end.

Definition activation_qc (r : Released) (successor : ConfigCapsuleV3) (activation_hash : Id32)
    (acks : list WitnessActivationAck) : EpochActivationQc :=
  let card := op_card (rl_opened r) in {|
  qc_protocol_version := PROTOCOL_VERSION_V3;
  qc_config_id := card3_config_id card;
  qc_rotation_id := ctx_rotation_id (op_context (rl_opened r));
  qc_predecessor_epoch := cr_guardian_epoch (cap3_config_ref (rl_predecessor r));
  qc_predecessor_capsule_hash := cap3_capsule_hash (rl_predecessor r);
  qc_successor_epoch := cr_guardian_epoch (cap3_config_ref successor);
  qc_successor_capsule_hash := cap3_capsule_hash successor;
  qc_activation_certificate_hash := activation_hash;
  qc_witness_fault_bound := card3_witness_fault_bound card;
  qc_witness_acks := acks
|}.

(** From the prepared successors to the capsule with its evidence. *)
Definition certify_successor (r : Released) (p : Prepared) :
    Client (ConfigCapsuleV3 * EpochActivationQc) :=
  let card := op_card (rl_opened r) in
  encrypted_descriptor ← draw (seal_successor_descriptor r p);
  let ready := ready_certificate r p encrypted_descriptor in
  now ← wall_now;
  _ ← try (validate_rotation_ready_certificate_v3 ready (rl_plan r) (rl_predecessor r) now);
  capsule_hash ← try (sha256 <$> wire (config_capsule_body_v3
    (successor_capsule r p encrypted_descriptor (brep 32 x00) None)));
  let successor := successor_capsule r p encrypted_descriptor capsule_hash None in
  votes ← collect_signer_activate_votes card (op_coordinator (rl_opened r)) (rl_plan r) ready
    successor;
  ready_hash ← try (sha256 <$> wire (rotation_ready_certificate ready));
  let activation := {|
    rac_context := op_context (rl_opened r);
    rac_plan_hash := pl_plan_hash (rl_planned r);
    rac_ready_certificate_hash := ready_hash;
    rac_successor := plan_successor (rl_plan r);
    rac_successor_capsule_hash := capsule_hash;
    rac_votes := votes
  |} in
  activation_hash ← try (sha256 <$> wire (rotation_activate_certificate activation));
  let required := (card3_witness_fault_bound card * 2 + 1)%N in
  acks ← gather_activation_acks r successor activation activation_hash required
    (card3_witnesses card) [];
  _ ← bail_if (len acks <? required)%N "witness activation quorum was not reached";
  let qc := activation_qc r successor activation_hash acks in
  _ ← try (wire (epoch_activation_qc qc));
  let activated := successor_capsule r p encrypted_descriptor capsule_hash
    (Some (activation, qc)) in
  _ ← try (validate_activated_capsule_v3 card activated);
  mret (activated, qc).

(** The witnesses that acknowledged, then the guardians, and the guardian that
    leaves if it can be reached. *)
Definition announce (r : Released) (successor : ConfigCapsuleV3) (qc : EpochActivationQc) :
    Client () :=
  let card := op_card (rl_opened r) in
  _ ← each (λ witness, exchange_ok EHttp (post_finalize (witness_url card witness "finalize") qc))
    (filter (λ witness, pin_witness_id witness ∈ waa_witness_id <$> qc_witness_acks qc)
      (card3_witnesses card));
  now ← wall_now;
  let activate := GrActivate (rl_plan r) successor
    (sat_add now (cap3_max_request_lifetime (rl_predecessor r))) in
  _ ← each (λ mailbox,
      response ← ask r activate mailbox;
      bail_if (match response with GrActivated _ => false | _ => true end)
        "guardian did not atomically activate the witness-certified epoch")
    (rotation_actor_mailboxes (plan_new_roster (rl_plan r)));
  _ ← attempt (ask r activate (gr3_mailbox (pl_removed (rl_planned r))));
  mret ().

(** The owner's file after the rotation. *)
Definition rotated_owner (options : RotateV3Options) (r : Released) : OwnerControlFileV3 :=
  let owner := op_owner (rl_opened r) in {|
  ocf3_protocol_version := ocf3_protocol_version owner;
  ocf3_config_ref := plan_successor (rl_plan r);
  ocf3_owner_cancel_signing_seed := ocf3_owner_cancel_signing_seed owner;
  ocf3_owner_cancel_public_key := ocf3_owner_cancel_public_key owner;
  ocf3_guardian_targets :=
    <[gr3_guardian_index (pl_added (rl_planned r)) :=
        trim_end_slashes (rot3_replacement_target options)]>
      (delete (rot3_remove_guardian options) (ocf3_guardian_targets owner));
  ocf3_relay_bases := ocf3_relay_bases owner
|}.

Definition rotate_v3 (options : RotateV3Options) : Client RotateV3Result :=
  opened ← open_predecessor options;
  planned ← plan_rotation options opened;
  begin ← begin_rotation options opened planned;
  '(release, release_hash) ← release_rotation opened planned begin;
  let r := {| rl_opened := opened; rl_planned := planned; rl_begin := begin;
              rl_release := release; rl_release_hash := release_hash |} in
  prepared ← prepare_successors r (rot3_remove_guardian options);
  '(successor, qc) ← certify_successor r prepared;
  _ ← announce r successor qc;
  _ ← exchange_ok EIo (write_file (rot3_owner_control_path options)
    (DocOwnerV3 (rotated_owner options r)));
  mret {|
    rvr_config_id := hex_encode (card3_config_id (op_card opened));
    rvr_predecessor_epoch := cr_guardian_epoch (cap3_config_ref (op_predecessor opened));
    rvr_successor_epoch := cr_guardian_epoch (plan_successor (pl_plan planned));
    rvr_removed_guardian := gr3_guardian_index (pl_removed planned);
    rvr_added_guardian := gr3_guardian_index (pl_added planned);
    rvr_prepared_guardians := len (plan_new_roster (pl_plan planned));
    rvr_witness_acknowledgements := len (qc_witness_acks qc);
    rvr_plaintext_decryptions := U64 0
  |}.

End handover.

End Handover.
