(* ===== verification/CancelRotation.v ===== *)
(** The owner's cancel of a rotation:
    crates/gp-network/src/rotation_coordinator.rs, [cancel_rotation_v3]. *)

From stdpp Require Import sorting.
From S2P Require Export Coordinator.

Module CancelRotation.
Export Coordinator.

Section cancel.
Context `{Prims : Primitives} `{Sharing : SharingPrimitives} `{Frost : FrostPrimitives}.
Context `{Protocol : ProtocolPrimitives} `{World : Network} `{Json : ClientPrimitives}.
Context `{RWorld : !RotationNetwork} `{RJson : RotationJson}.

(** [collect::<BTreeSet<_>>()] of strings, in the order of its iteration. *)
Definition string_le (a b : string) : Prop := String.leb a b = true.
#[export] Instance string_le_dec : RelDecision string_le.
Proof. intros a b. unfold string_le. apply _. Defined.
Definition ordered_set (l : list string) : list string :=
  merge_sort string_le (elements (list_to_set l : gset string)).

Definition control_mismatch (control : RotationControlFileV3) (owner : OwnerControlFileV3) :
    bool :=
  let plan := rcf_plan control in
  let card := rcf_recovery_card control in
  ((rcf_protocol_version control !=? PROTOCOL_VERSION_V3)
   || (ocf3_protocol_version owner !=? PROTOCOL_VERSION_V3)
   || (cap3_config_ref (rcf_predecessor_capsule control) !=? ocf3_config_ref owner)
   || (plan_predecessor plan !=? ocf3_config_ref owner)
   || (ctx_config_ref (plan_context plan) !=? ocf3_config_ref owner)
   || (rcf_owner_cancel_public_key control !=? ocf3_owner_cancel_public_key owner)
   || (card3_config_id card !=? cr_config_id (ocf3_config_ref owner))
   || (card3_relay_bases card !=? ocf3_relay_bases owner)
   || (verifying_key_bytes (signing_key (ocf3_owner_cancel_signing_seed owner))
       !=? ocf3_owner_cancel_public_key owner))%mr.

Definition cancel_certificate (control : RotationControlFileV3) (owner : OwnerControlFileV3)
    (plan_hash : Id32) (recipient : RecipientKeyPair) (owner_signature : list byte) :
    OwnerRotationCancelCertificate := {|
  orcc_context := plan_context (rcf_plan control);
  orcc_plan_hash := plan_hash;
  orcc_reason_code := U16 1;
  orcc_cancel_response_recipient_key := rkp_public recipient;
  orcc_owner_cancel_public_key := ocf3_owner_cancel_public_key owner;
  orcc_owner_signature := owner_signature
|}.

(** [2 * witness_fault_bound + 1]. *)
Definition required_vetoes (witness_fault_bound : u16) : option N :=
  value ← checked_mul witness_fault_bound 2; checked_add value 1.

(** The loop over the witnesses: distinct valid vetoes, until there are
    [required]. *)
Fixpoint gather_vetoes (card : RecoveryCardV3) (plan : RotationPlan)
    (certificate : OwnerRotationCancelCertificate) (cancel_hash : Id32) (required : N)
    (witnesses : list WitnessPin) (ids : gset u16) (acks : list WitnessRotationCancelAck) :
    Client (gset u16 * list WitnessRotationCancelAck) :=
  match witnesses with
  | [] => mret (ids, acks)
  | witness :: witnesses =>
      answer ← attempt (exchange EHttp (post_cancel_rotation
        (trim_end_slashes (pin_mailbox witness) +:+ "/v3/witness/configs/"
          +:+ hex_encode (card3_config_id card) +:+ "/cancel-rotation") certificate));
      let '(ids, acks) :=
        match answer with
        | Ok ack =>
            if is_ok (validate_witness_rotation_cancel_ack ack witness plan cancel_hash)
               && bool_decide (wrca_witness_id ack ∉ ids)
            then ({[wrca_witness_id ack]} ∪ ids, acks ++ [ack]) else (ids, acks)
        | Err _ => (ids, acks)
        end in
      if (required <=? N.of_nat (size ids))%N then mret (ids, acks)
      else gather_vetoes card plan certificate cancel_hash required witnesses ids acks
  end.

(** The loop over the old guardians, all of them. *)
Fixpoint gather_old_acks (card : RecoveryCardV3) (recipient : RecipientKeyPair)
    (plan : RotationPlan) (certificate : OwnerRotationCancelCertificate) (cancel_hash : Id32)
    (routes : list GuardianRouteV3) (ids : gset u16) : Client (gset u16) :=
  match routes with
  | [] => mret ids
  | route :: routes =>
      answer ← attempt (ask_guardian (card3_relay_bases card) recipient
        (GrCancel plan certificate) (gr3_mailbox route));
      gather_old_acks card recipient plan certificate cancel_hash routes
        (match answer with
         | Ok (GrCancelled ack) =>
             if is_ok (validate_owner_rotation_cancel_ack ack route plan cancel_hash)
             then {[orca_guardian_index ack]} ∪ ids else ids
         | _ => ids
         end)
  end.

(** [old - threshold + 1]. *)
Definition required_old_acks (plan : RotationPlan) : option N :=
  let old := len (plan_old_roster plan) in
  value ← if (old <? plan_old_guardian_threshold plan)%mr then None
          else Some (old - plan_old_guardian_threshold plan)%N;
  checked_add value 1.

(** Telling actors, whatever they answer. *)
Definition tell (card : RecoveryCardV3) (recipient : RecipientKeyPair)
    (action : GuardianRotationRequestV3) (mailboxes : list string) : Client () :=
  each (λ mailbox,
    _ ← attempt (ask_guardian (card3_relay_bases card) recipient action mailbox); mret ())
    mailboxes.

(** The signers' abort, where there is one, is passed on to every guardian. *)
Definition pass_on_abort (control : RotationControlFileV3) (recipient : RecipientKeyPair)
    (plan_hash : Id32) : Client () :=
  let card := rcf_recovery_card control in
  let plan := rcf_plan control in
  let predecessor := rcf_predecessor_capsule control in
  votes ← collect_signer_abort_votes card recipient plan predecessor RotDelayPending (U16 1);
  if (len votes <? cap3_signer_threshold predecessor)%mr then mret () else
  let abort := {|
    arc_context := plan_context plan;
    arc_plan_hash := plan_hash;
    arc_state_at_abort := RotDelayPending;
    arc_reason_code := U16 1;
    arc_votes := votes
  |} in
  now ← wall_now;
  if is_ok (validate_abort_rotation_certificate_v3 abort plan predecessor now)
  then tell card recipient (GrAbort plan abort)
    (ordered_set (gr3_mailbox <$> plan_old_roster plan ++ plan_new_roster plan))
  else mret ().

(** The signers that confirm the cancel. *)
Fixpoint finalize_signers (card : RecoveryCardV3) (recipient : RecipientKeyPair)
    (action : SignerRotationRequestV3) (mailboxes : list string) (confirmed : gset string) :
    Client (gset string) :=
  match mailboxes with
  | [] => mret confirmed
  | mailbox :: mailboxes =>
      answer ← attempt (ask_signer (card3_relay_bases card) recipient action mailbox);
      finalize_signers card recipient action mailboxes
        (match answer with
         | Ok SrOwnerCancelFinalized => {[mailbox]} ∪ confirmed
         | _ => confirmed
         end)
  end.

Definition cancel_rotation_v3 (options : CancelRotationV3Options) :
    Client CancelRotationV3Result :=
  control ← exchange EIo (read_rotation_control (crt_rotation_control_path options));
  owner ← exchange EIo (read_owner_control_v3 (crt_owner_control_path options));
  let plan := rcf_plan control in
  let card := rcf_recovery_card control in
  let predecessor := rcf_predecessor_capsule control in
  _ ← bail_if (control_mismatch control owner)
    "rotation-control and owner-control files do not describe the same active epoch";
  _ ← try (validate_activated_capsule_v3 card predecessor);
  now ← wall_now;
  plan_hash ← try (validate_rotation_plan_v3 plan predecessor now);
  seed ← draw random_id;
  let recipient := RecipientKeyPair_from_seed seed in
  unsigned ← try (wire (owner_rotation_cancel_certificate
    (cancel_certificate control owner plan_hash recipient [])));
  let certificate := cancel_certificate control owner plan_hash recipient
    (sign (signing_key (ocf3_owner_cancel_signing_seed owner)) unsigned) in
  cancel_hash ← try (sha256 <$> wire (owner_rotation_cancel_certificate certificate));
  required ← present (required_vetoes (card3_witness_fault_bound card))
    "witness cancellation threshold overflow";
  '(witness_ids, witness_acks) ← gather_vetoes card plan certificate cancel_hash required
    (card3_witnesses card) ∅ [];
  _ ← bail_if (N.of_nat (size witness_ids) <? required)%N
    "owner cancellation did not reach the 2f+1 witness veto quorum";
  now ← wall_now;
  _ ← try (validate_owner_rotation_cancel_witness_quorum_v3 certificate witness_acks card plan
    predecessor now);
  old_ids ← gather_old_acks card recipient plan certificate cancel_hash (plan_old_roster plan) ∅;
  required_old ← present (required_old_acks plan) "old cancellation threshold overflow";
  _ ← bail_if (N.of_nat (size old_ids) <? required_old)%N
    "owner cancellation did not leave fewer than the old handoff threshold";
  _ ← tell card recipient (GrCancel plan certificate)
    (gr3_mailbox <$> filter
      (λ route, gr3_guardian_index route ∉ gr3_guardian_index <$> plan_old_roster plan)
      (plan_new_roster plan));
  _ ← pass_on_abort control recipient plan_hash;
  confirmed ← finalize_signers card recipient
    (SrFinalizeOwnerCancel plan certificate witness_acks (rkp_public recipient))
    (card3_signer_mailboxes card) ∅;
  mret {|
    crr_rotation_id := hex_encode (ctx_rotation_id (plan_context plan));
    crr_witness_acknowledgements := N.of_nat (size witness_ids);
    crr_required_witness_acknowledgements := required;
    crr_old_guardian_acknowledgements := N.of_nat (size old_ids);
    crr_required_old_guardian_acknowledgements := required_old;
    crr_signer_cancel_finalizations := N.of_nat (size confirmed);
    crr_permanently_cancelled := true
  |}.

End cancel.

End CancelRotation.
