(* ===== verification/ClientScenario.v ===== *)
(** A small version-3 configuration on which setup, the runtimes of signers and
    guardians and the recovery client are run: three signers of which two are
    needed, two guardians that are both needed, four witnesses.

    The dealer gives every participant the same key byte, random draws count
    up, and the JSON of a message is a number under which it is listed.
    Nothing here models code. *)

From S2P Require Export ClientV3 SetupV3 FrostProps RecoveryScenario.

Module ClientScenario.
Export RecoveryScenario.
Export SetupV3 ClientV3.

(** ** A dealer *)

Definition dealt_package (key : byte) (threshold : u16) (i : nat) : u16 * byte * byte * u16 :=
  (U16 (N.of_nat i + 1), byte_of_N (N.of_nat i + 17), key, threshold).
Definition dealt_public (key : byte) (threshold : u16) (total : nat) : toy_public :=
  (list_to_map ((λ i, (U16 (N.of_nat i + 1), byte_of_N (N.of_nat i + 17))) <$> seq 0 total),
   key, Some threshold).

Definition package_from (l : list byte) : option (u16 * byte * byte * u16) :=
  match l with
  | [a; b; share; key; c; d] => Some (U16 (be_value [a; b]), share, key, U16 (be_value [c; d]))
  | _ => None
  end.
Definition public_from (l : list byte) : option toy_public :=
  match l with
  | key :: t :: l => shares ← byte_pairs l; Some (shares, key, Some (U16 (Byte.to_N t)))
  | _ => None
  end.
(** An encoding that is only given when it can be read back. *)
Definition checked {A} `{EqDecision A} (encode : A → list byte) (decode : list byte → option A)
    (a : A) : option (list byte) :=
  if decide (decode (encode a) = Some a) then Some (encode a) else None.

#[export] Instance toy_public_eq_dec : EqDecision toy_public.
Proof. unfold toy_public. apply _. Defined.

#[export] Instance dealer_frost : FrostPrimitives := {|
  Identifier := u16;
  Identifier_try_from := λ v, if (uval v =? 0)%N then None else Some v;
  Identifier_serialize := be;
  FrostVerifyingKey := byte;
  VerifyingShare := byte;
  SigningShare := byte;
  VerifyingShare_from := λ s, s;
  KeyPackage := u16 * byte * byte * u16;
  KeyPackage_deserialize := package_from;
  KeyPackage_serialize := checked (λ p, be p.1.1.1 ++ [p.1.1.2; p.1.2] ++ be p.2) package_from;
  kp_identifier := λ p, p.1.1.1;
  kp_signing_share := λ p, p.1.1.2;
  kp_verifying_share := λ p, p.1.1.2;
  kp_verifying_key := λ p, p.1.2;
  kp_min_signers := λ p, p.2;
  PublicKeyPackage := toy_public;
  PublicKeyPackage_new := λ shares key t, (shares, key, t);
  PublicKeyPackage_deserialize := public_from;
  PublicKeyPackage_serialize := checked toy_public_bytes public_from;
  pkp_verifying_shares := λ p, p.1.1;
  pkp_verifying_key := λ p, p.1.2;
  pkp_min_signers := λ p, p.2;
  SecretShare := u16 * byte * byte * u16;
  generate_with_dealer := λ total threshold seed,
    if (uval threshold =? 0)%N || (255 <? total)%N then None else
    let key := default x00 (head (bytes_of seed)) in
    Some (dealt_package key threshold <$> seq 0 (N.to_nat total),
          dealt_public key threshold (N.to_nat total));
  KeyPackage_try_from := Some;
  reconstruct := λ packages, p ← head packages; Some (replicate 32 p.1.2);
  Delta := ();
  Delta_serialize := λ _, [];
  Delta_deserialize := λ _, None;
  Sigma := ();
  Sigma_serialize := λ _, [];
  Sigma_deserialize := λ _, None;
  repair_share_part1 := λ _ _ _ _, None;
  repair_share_part2 := λ _, ();
  repair_share_part3 := λ _ _ _, None;
  Round1Secret := u16;
  Round1Secret_serialize := λ _, None;
  Round1Secret_deserialize := λ _, None;
  r1s_identifier := λ s, s;
  Round1Package := ();
  Round1Package_serialize := λ _, None;
  Round1Package_deserialize := λ _, None;
  refresh_dkg_part1 := λ _ _ _ _, None;
  Round2Secret := u16;
  Round2Secret_serialize := λ _, None;
  Round2Secret_deserialize := λ _, None;
  r2s_identifier := λ s, s;
  Round2Package := ();
  Round2Package_serialize := λ _, None;
  Round2Package_deserialize := λ _, None;
  refresh_dkg_part2 := λ _ _, None;
  refresh_dkg_shares := λ _ _ _ _ _, None
|}.

#[export] Instance dealer_identifiers : IdentifierLaws.
Proof.
  split; simpl.
  - intros v Hv. destruct (N.eqb_spec v 0); [lia | by eexists].
  - intros v w i. destruct (uval v =? 0)%N, (uval w =? 0)%N; congruence.
Qed.

Lemma checked_decodes {A} `{EqDecision A} (encode : A → list byte) decode (a : A) l :
  checked encode decode a = Some l → decode l = Some a.
Proof. unfold checked. destruct (decide _); congruence. Qed.

Lemma small_numbers i j :
  i < 255 → j < 255 → U16 (N.of_nat i + 1) = U16 (N.of_nat j + 1) → i = j.
Proof.
  intros Hi Hj E%(f_equal uval). unfold U16 in E.
  rewrite !uval_to_uint in E by (change (2 ^ 16)%N with 65536%N; lia). lia.
Qed.

Lemma dealer_inv total threshold seed shares public :
  generate_with_dealer total threshold seed = Some (shares, public) →
  ∃ key, (0 < threshold)%N ∧ (total <= 255)%N
    ∧ shares = dealt_package key threshold <$> seq 0 (N.to_nat total)
    ∧ public = dealt_public key threshold (N.to_nat total).
Proof.
  cbn [generate_with_dealer dealer_frost].
  destruct (N.eqb_spec threshold 0); [done |]. destruct (N.ltb_spec 255 total); [done |].
  intros [= <- <-]. eexists. split_and!; try done. lia.
Qed.

#[export] Instance dealer_laws : DealerLaws.
Proof.
  split; cbn [KeyPackage_serialize KeyPackage_deserialize PublicKeyPackage_serialize
    PublicKeyPackage_deserialize Identifier_serialize KeyPackage_try_from reconstruct
    dealer_frost kp_identifier kp_min_signers kp_verifying_key kp_signing_share kp_verifying_share
    Identifier_try_from pkp_verifying_key pkp_verifying_shares pkp_min_signers VerifyingShare_from].
  - intros p l. apply checked_decodes.
  - intros p l. apply checked_decodes.
  - intros i j. by apply be_inj.
  - by intros total threshold seed shares public (key & _ & _ & _ & ->)%dealer_inv.
  - intros total threshold seed shares public i share package
      (key & Ht & Hn & -> & ->)%dealer_inv Hi [= <-].
    apply list_lookup_fmap_Some in Hi as (j & -> & [-> Hj]%lookup_seq).
    change (0 + i) with i in *. cbn [dealt_package dealt_public fst snd].
    destruct (N.eqb_spec (uval (U16 (N.of_nat i + 1))) 0) as [E | _].
    { unfold U16 in E. rewrite uval_to_uint in E by (change (2 ^ 16)%N with 65536%N; lia). lia. }
    split_and!; try done. apply elem_of_list_to_map_1.
    + rewrite <- list_fmap_compose. apply NoDup_fmap_2_strong; [| apply NoDup_seq].
      intros x y Hx%elem_of_seq Hy%elem_of_seq. simpl. apply small_numbers; lia.
    + apply (list_elem_of_fmap_2 (λ i, (U16 (N.of_nat i + 1), byte_of_N (N.of_nat i + 17)))).
      apply elem_of_seq. lia.
  - intros total threshold seed shares public (key & Ht & Hn & -> & ->)%dealer_inv.
    exists (replicate 32 key). intros packages _ Hin Hlen.
    destruct packages as [|p packages]; [unfold len in Hlen; simpl in Hlen; lia |].
    destruct (Hin p ltac:(by left)) as (s & (i & -> & _)%list_elem_of_fmap & [= <-]). done.
Qed.

(** ** The configuration *)

Definition options : SetupV3Options := {|
  s3_secret := as_bytes "correct horse";
  s3_relays := ["https://relay/"%string];
  s3_relay_token := "relay";
  s3_admin_token := "admin";
  s3_signers := ["s1"; "s2"; "s3"]%string;
  s3_guardians := ["g1"; "g2"]%string;
  s3_witnesses := ["w1"; "w2"; "w3"; "w4"]%string;
  s3_signer_threshold := U16 2;
  s3_guardian_threshold := U16 2;
  s3_witness_fault_bound := U16 1;
  s3_delay_secs := U64 5;
  s3_card_path := "card";
  s3_owner_control_path := "owner"
|}.

Definition node_info (role name : string) (n : N) : NodeInfo := {|
  ni_protocol_version := PROTOCOL_VERSION_V3;
  ni_node_id := name;
  ni_role := role;
  ni_transport_public_key := encapsulation_key (id n);
  ni_signing_public_key := Some (id n)
|}.
Definition guardian_infos : list NodeInfo :=
  [node_info "guardian" "g1" 1; node_info "guardian" "g2" 2].
Definition witness_infos : list NodeInfo :=
  (λ n, node_info "witness" "w" n) <$> [11; 12; 13; 14]%N.

(** ** Messages

    The answers of signers and guardians, each listed under its number, and
    the JSON of the one descriptor. *)

Record Messages : Set := mkMessages {
  msg_descriptor : option RecoveryDescriptorV3;
  msg_signers : list SignerRecoveryResponseV3;
  msg_guardians : list GuardianRecoveryResponseV3
}.
Definition numbered_message {A} (l : list A) (bytes : list byte) : option A :=
  match bytes with [b] => l !! N.to_nat (Byte.to_N b) | _ => None end.

Definition json_of (m : Messages) : ClientPrimitives := {|
  mailbox_request_to_vec := λ _, Some [];
  mailbox_response_from_slice := λ _, None;
  signer_recovery_request_to_vec := λ _, Some [];
  signer_recovery_response_from_slice := numbered_message (msg_signers m);
  guardian_recovery_request_to_vec := λ _, Some [];
  guardian_recovery_response_from_slice := numbered_message (msg_guardians m);
  provision_to_vec := λ _, Some [];
  signer_provision_to_vec := λ _, Some [];
  guardian_provision_to_vec := λ _, Some [];
  descriptor_v3_to_vec := λ descriptor,
    if decide (msg_descriptor m = None ∨ msg_descriptor m = Some descriptor)
    then Some [x00] else None;
  descriptor_v3_from_slice := λ bytes,
    if bool_decide (bytes = [x00]) then msg_descriptor m else None
|}.

(** ** Setup *)

Definition setup_with_json (m : Messages) : Result Error SetupV3Bundle * N :=
  create_setup_v3 (Json := json_of m) options (U16 3) (U16 2) ["https://relay"%string]
    guardian_infos witness_infos 192%N.


Definition capsule_0 : option ConfigCapsuleV3 := Eval vm_compute in
  match (setup_with_json (mkMessages None [] [])).1 with
  | Ok bundle => Some (s3b_capsule bundle)
  | Err _ => None
  end.
Definition routes_0 : list GuardianRouteV3 := Eval vm_compute in
  match (setup_with_json (mkMessages None [] [])).1 with
  | Ok bundle => s3b_guardian_routes bundle
  | Err _ => []
  end.
Definition the_capsule : ConfigCapsuleV3 := Eval vm_compute in default genesis capsule_0.

(** The descriptor that setup makes. *)
Definition the_descriptor : RecoveryDescriptorV3 := Eval vm_compute in {|
  rd3_config_ref := cap3_config_ref the_capsule;
  rd3_guardians := routes_0;
  rd3_guardian_material_root := cap3_guardian_material_root the_capsule;
  rd3_data_shards := U16 2;
  rd3_total_shards := U16 2;
  rd3_ciphertext_len := U64 (32 + len (s3_secret options));
  rd3_payload_nonce := draw 24 210;
  rd3_dpss_suite := ZfFrostRistretto255RtsRefreshV1;
  rd3_dpss_public_package := toy_public_bytes (dealt_public (byte_of_N 209) (U16 2) 2);
  rd3_dpss_public_commitment := cap3_dpss_public_commitment the_capsule
|}.

Definition the_setup : option SetupV3Bundle := Eval vm_compute in
  match setup_with_json (mkMessages (Some the_descriptor) [] []) with
  | (Ok bundle, 216%N) => Some bundle
  | _ => None
  end.
(** [bundle] is the one that setup makes, as [setup_made] says. *)
Definition bundle : SetupV3Bundle := Eval vm_compute in
  default (mkSetupV3Bundle genesis card [] [] [] [] [] [] [] (id 0)) the_setup.

Lemma setup_made m :
  msg_descriptor m = Some the_descriptor → setup_with_json m = (Ok bundle, 216%N).
Proof. destruct m as [d signers guardians]. intros [= ->]. vm_compute. reflexivity. Qed.

(** ** The actors *)

Definition signer_entry (i : nat) : option SignerRotationEntryV3 :=
  match signer_provision bundle i with
  | Ok provision => Some {|
      sre_provision := provision;
      sre_security_state := Votes.new;
      sre_recovery_requests := ∅;
      sre_recovery_nonces := ∅ |}
  | Err _ => None
  end.
Definition guardian_entry (i : nat) : option GuardianRotationEntryV3 :=
  match guardian_provision_v3 bundle i with
  | Ok provision => Some {|
      gre_provision := provision; gre_sessions := ∅; gre_recoveries := ∅ |}
  | Err _ => None
  end.

(** The client's draws follow those of setup. *)
Definition client_seed : Id32 := draw 32 216.
Definition recipient : RecipientKeyPair := RecipientKeyPair_from_seed client_seed.
Definition the_challenge : EpochReadChallenge :=
  read_challenge (s3b_card bundle) recipient (draw 32 217) (U64 1000).
Definition request : RecoveryRequestV3 :=
  recovery_request_v3 the_capsule recipient (draw 32 218) (draw 32 219) (U64 1000).

(** A witness answers a challenge with the capsule of the setup. *)
Definition read_answer (challenge : EpochReadChallenge) (pin : WitnessPin)
    (signature : list byte) : WitnessReadEnvelope := {|
  wre_response := {|
    werr_protocol_version := PROTOCOL_VERSION_V3;
    werr_config_id := erc_config_id challenge;
    werr_client_nonce := erc_client_nonce challenge;
    werr_witness_id := pin_witness_id pin;
    werr_highest_guardian_epoch := epoch_of the_capsule;
    werr_capsule_hash := cap3_capsule_hash the_capsule;
    werr_witness_public_key := pin_public_key pin;
    werr_witness_signature := signature
  |};
  wre_capsule := the_capsule
|}.
Definition witness_answer (challenge : EpochReadChallenge) (pin : WitnessPin) :
    WitnessReadEnvelope :=
  read_answer challenge pin (sign (pin_public_key pin)
    (ok_bytes (witness_epoch_read_response (wre_response (read_answer challenge pin []))))).
Definition the_reads : list WitnessReadEnvelope := Eval vm_compute in
  witness_answer the_challenge <$> card3_witnesses (s3b_card bundle).

(** The signers and guardians run their runtimes: an approval and a release
    vote of each signer, the start and the contribution of each guardian. *)
Definition signer_answers (i : nat) : list SignerRecoveryResponseV3 :=
  match signer_entry i with
  | None => []
  | Some entry =>
      match SignerRuntime.handle_signer_recovery_v3 (RecApprove request the_challenge the_reads)
              (U64 1000) (entry, 60%N) with
      | (Ok approval, s) =>
          match SignerRuntime.handle_signer_recovery_v3 (RecRelease request) (U64 1000) s with
          | (Ok vote, _) => [approval; vote]
          | _ => []
          end
      | _ => []
      end
  end.
Definition answers_1 : list SignerRecoveryResponseV3 := Eval vm_compute in signer_answers 0.
Definition answers_2 : list SignerRecoveryResponseV3 := Eval vm_compute in signer_answers 1.

Definition approvals : list SignerRecoveryContributionV3 :=
  omap (λ r, match r with RecContribution c => Some c | _ => None end) (answers_1 ++ answers_2).
Definition votes : list SignerRecoveryReleaseVoteV3 :=
  omap (λ r, match r with RecReleaseVote v => Some v | _ => None end) (answers_1 ++ answers_2).
Definition request_digest_3 : Id32 := Eval vm_compute in
  match recovery_request_digest_v3 request with Ok digest => digest | Err _ => id 0 end.
Definition begin : BeginRecoveryCertificateV3 := {|
  brc3_request := request;
  brc3_request_digest := request_digest_3;
  brc3_signer_contributions := approvals
|}.
Definition release : RecoveryReleaseCertificateV3 := {|
  rrc3_request := request;
  rrc3_request_digest := request_digest_3;
  rrc3_votes := votes
|}.

Definition guardian_answers (i : nat) : list GuardianRecoveryResponseV3 :=
  match guardian_entry i with
  | None => []
  | Some entry =>
      match GuardianRecovery.handle_guardian_recovery_v3 (GvBegin begin) (U64 1000) (U64 70) "boot"
              false (entry, 80%N) with
      | (Ok begun, s) =>
          match GuardianRecovery.handle_guardian_recovery_v3 (GvRelease request release)
                  (U64 1010) (U64 75) "boot" false s with
          | (Ok released, _) => [begun; released]
          | _ => []
          end
      | _ => []
      end
  end.
Definition guardian_1 : list GuardianRecoveryResponseV3 := Eval vm_compute in guardian_answers 0.
Definition guardian_2 : list GuardianRecoveryResponseV3 := Eval vm_compute in guardian_answers 1.

(** ** The network

    It holds the answers still to come, each a number of a message; an empty
    one is a node that does not answer.  Numbers 0 and 1 are the approval and
    the vote of the first signer, 2 and 3 those of the second, 4 an approval
    with a broken signature; of the guardians, 0 and 1 are the start and the
    contribution of the first, 2 and 3 those of the second, 4 a refusal. *)

Definition broken_approval : list SignerRecoveryResponseV3 :=
  match approvals with
  | c :: _ => [RecContribution {|
      src3_request := src3_request c;
      src3_signer_id := U16 3;
      src3_signer_public_key := src3_signer_public_key c;
      src3_signer_membership_proof := src3_signer_membership_proof c;
      src3_encrypted_authorization_share := src3_encrypted_authorization_share c;
      src3_signer_signature := [] |}]
  | [] => []
  end.
Definition messages : Messages := Eval vm_compute in {|
  msg_descriptor := Some the_descriptor;
  msg_signers := answers_1 ++ answers_2 ++ broken_approval;
  msg_guardians := guardian_1 ++ guardian_2 ++ [GvRefused "cancelled"]
|}.
#[export] Instance toy_json : ClientPrimitives := json_of messages.

#[export] Instance toy_descriptor_json : DescriptorJson.
Proof.
  split. intros d l. cbn [descriptor_v3_to_vec descriptor_v3_from_slice toy_json json_of].
  destruct (decide _) as [[E | E] |]; [discriminate E | | done]. intros [= <-]. by rewrite E.
Qed.

Definition seal_answer (url : string) (answer : byte) : option SealedMailboxBody :=
  match mailbox_id url with
  | Err _ => None
  | Ok mailbox =>
      match seal_to_recipient (rkp_public recipient) (id 5) (brep 24 x00) [answer]
              (ok_bytes (mailbox_transport_context mailbox "recovery-response-v3")) with
      | Ok sealed => Some {| smb_sealed := sealed |}
      | Err _ => None
      end
  end.

#[export] Instance toy_network : Network := {|
  Net := list (option byte);
  system_time := λ net, (Some (U64 1000), net);
  sleep_secs := λ _ net, net;
  write_file := λ _ _ net, (true, net);
  read_card := λ _ net, (None, net);
  read_card_v3 := λ _ net, (Some (s3b_card bundle), net);
  read_request := λ _ net, (None, net);
  read_owner_control := λ _ net, (None, net);
  get_key := λ _ net, (Some (encapsulation_key (id 9)), net);
  get_node_info := λ _ net, (None, net);
  get_capsule := λ _ net, (None, net);
  post_read := λ url challenge net,
    (list_find (λ pa : WitnessPin * WitnessReadEnvelope, read_url (s3b_card bundle) pa.1 = url)
       ((λ pin, (pin, witness_answer challenge pin)) <$> card3_witnesses (s3b_card bundle))
     ≫= λ found, Some found.2.2, net);
  post_sealed := λ url _ net,
    match net with
    | Some answer :: net => (seal_answer url answer, net)
    | None :: net => (None, net)
    | [] => (None, [])
    end;
  post_provision := λ _ _ _ net, (false, net);
  post_register := λ _ _ _ net, (false, net);
  post_alias := λ _ _ _ net, (false, net);
  post_witness_config := λ _ _ _ net, (false, net);
  put_capsule := λ _ _ _ net, (false, net)
|}.

Definition recovery_options : RecoverV3Options := {|
  rv3_card_path := "card";
  rv3_output_path := Some "secret"%string;
  rv3_request_out_path := None
|}.
Definition recovery (answers : list (option byte)) : Result Error NetworkDemoResult :=
  (recover_v3 recovery_options (answers, 216%N)).1.

(** Both signers approve, the guardians start, both signers vote, and the
    guardians contribute. *)
Definition honest : list (option byte) :=
  Some <$> [x00; x02] ++ [x00; x02] ++ [x01; x03] ++ [x01; x03].

Example honest_recovery :
  ∃ result, recovery honest = Ok result
    ∧ ndr_recovered_secret result = Some "correct horse"%string.
Proof. eexists. split; [vm_compute; reflexivity | reflexivity]. Qed.

(** A signer that does not answer is replaced by the next one; one that answers
    first with a worthless approval ends the recovery, although two signers
    would have approved. *)
Lemma unchecked_approval_stops_recovery :
  (∃ result, recovery (None :: honest) = Ok result)
  ∧ recovery (Some x04 :: honest) = Err (ECrypto CrInvalidMerkleProof).
Proof. split; [eexists |]; vm_compute; reflexivity. Qed.

End ClientScenario.
