(* ===== verification/RotationScenario.v ===== *)
(** A version-3 configuration that is rotated: three signers of which two are
    needed, three guardians of which two are needed, four witnesses.  Guardian
    3 is replaced by guardian 4, in stages whose messages are made here: the
    signers run their runtime, the guardians' and witnesses' answers are
    signed as honest ones would be.

    The erasure code of two data shards and one parity shard is their
    exclusive or; the FROST messages between guardians are left out.  Nothing
    here models code. *)

From S2P Require Export Handover CancelRotation ClientScenario.

Module RotationScenario.
Export ClientScenario.
Export Rotate Handover CancelRotation.

(** ** The configuration *)

Definition rotation_options : SetupV3Options := {|
  s3_secret := as_bytes "correct horse";
  s3_relays := ["https://relay/"%string];
  s3_relay_token := "relay";
  s3_admin_token := "admin";
  s3_signers := ["s1"; "s2"; "s3"]%string;
  s3_guardians := ["g1"; "g2"; "g3"]%string;
  s3_witnesses := ["w1"; "w2"; "w3"; "w4"]%string;
  s3_signer_threshold := U16 2;
  s3_guardian_threshold := U16 2;
  s3_witness_fault_bound := U16 1;
  s3_delay_secs := U64 5;
  s3_card_path := "card";
  s3_owner_control_path := "owner"
|}.

Fixpoint xor_bytes (a b : list byte) : list byte :=
  match a, b with
  | x :: a, y :: b => byte_of_N (N.lxor (Byte.to_N x) (Byte.to_N y)) :: xor_bytes a b
  | _, _ => []
  end.

#[export] Instance parity_sharing : SharingPrimitives := {|
  Hkdf_expand := @Hkdf_expand toy_sharing;
  XChaCha20Poly1305_encrypt := @XChaCha20Poly1305_encrypt toy_sharing;
  XChaCha20Poly1305_decrypt := @XChaCha20Poly1305_decrypt toy_sharing;
  Share := @Share toy_sharing;
  Share_to_vec := @Share_to_vec toy_sharing;
  Share_try_from := @Share_try_from toy_sharing;
  Sharks_dealer_rng := @Sharks_dealer_rng toy_sharing;
  Sharks_recover := @Sharks_recover toy_sharing;
  ReedSolomon := ();
  ReedSolomon_new := λ data parity, if (data =? 2)%N && (parity =? 1)%N then Some () else None;
  ReedSolomon_encode := λ _ shards,
    match shards with [a; b; _] => Some [a; b; xor_bytes a b] | _ => None end;
  ReedSolomon_reconstruct := λ _ received,
    match received with
    | [(a, true); (b, true); _] => Some [(a, true); (b, true); (xor_bytes a b, true)]
    | [(a, true); _; (c, true)] => Some [(a, true); (xor_bytes a c, true); (c, true)]
    | [_; (b, true); (c, true)] => Some [(xor_bytes b c, true); (b, true); (c, true)]
    | _ => None
    end;
  DecapsulationKey := @DecapsulationKey toy_sharing;
  DecapsulationKey_from := @DecapsulationKey_from toy_sharing;
  encapsulation_key := @encapsulation_key toy_sharing;
  EncapsulationKey := @EncapsulationKey toy_sharing;
  EncapsulationKey_try_from := @EncapsulationKey_try_from toy_sharing;
  XWingCiphertext := @XWingCiphertext toy_sharing;
  XWingCiphertext_try_from := @XWingCiphertext_try_from toy_sharing;
  XWingCiphertext_to_vec := @XWingCiphertext_to_vec toy_sharing;
  encapsulate_with_rng := @encapsulate_with_rng toy_sharing;
  decapsulate := @decapsulate toy_sharing
|}.

Definition guardian_infos : list NodeInfo :=
  [node_info "guardian" "g1" 1; node_info "guardian" "g2" 2; node_info "guardian" "g3" 3].

(** The JSON of a descriptor is its epoch. *)
Definition json_of (descriptor : option RecoveryDescriptorV3) : ClientPrimitives := {|
  mailbox_request_to_vec := λ _, None;
  mailbox_response_from_slice := λ _, None;
  signer_recovery_request_to_vec := λ _, None;
  signer_recovery_response_from_slice := λ _, None;
  guardian_recovery_request_to_vec := λ _, None;
  guardian_recovery_response_from_slice := λ _, None;
  provision_to_vec := λ _, None;
  signer_provision_to_vec := λ _, None;
  guardian_provision_to_vec := λ _, Some [];
  descriptor_v3_to_vec := λ descriptor,
    Some [byte_of_N (uval (cr_guardian_epoch (rd3_config_ref descriptor)))];
  descriptor_v3_from_slice := λ _, descriptor
|}.

(** The configuration that setup makes. *)
Definition bundle : SetupV3Bundle := Eval vm_compute in
  match create_setup_v3 (Json := json_of None) rotation_options (U16 3) (U16 3) ["https://relay"%string]
          guardian_infos witness_infos 192%N with
  | (Ok bundle, _) => bundle
  | (Err _, _) => mkSetupV3Bundle genesis Scenario.card [] [] [] [] [] [] [] (id 0)
  end.
Definition capsule : ConfigCapsuleV3 := Eval vm_compute in s3b_capsule bundle.
Definition card : RecoveryCardV3 := Eval vm_compute in s3b_card bundle.
Definition routes : list GuardianRouteV3 := Eval vm_compute in s3b_guardian_routes bundle.

Definition descriptor : RecoveryDescriptorV3 := Eval vm_compute in {|
  rd3_config_ref := cap3_config_ref capsule;
  rd3_guardians := routes;
  rd3_guardian_material_root := cap3_guardian_material_root capsule;
  rd3_data_shards := U16 2;
  rd3_total_shards := U16 3;
  rd3_ciphertext_len := U64 (32 + len (s3_secret rotation_options));
  rd3_payload_nonce := draw 24 213;
  rd3_dpss_suite := ZfFrostRistretto255RtsRefreshV1;
  rd3_dpss_public_package := toy_public_bytes (dealt_public (byte_of_N 212) (U16 2) 3);
  rd3_dpss_public_commitment := cap3_dpss_public_commitment capsule
|}.
#[export] Instance rotation_descriptor_json : ClientPrimitives := json_of (Some descriptor).

Definition owner : OwnerControlFileV3 := {|
  ocf3_protocol_version := PROTOCOL_VERSION_V3;
  ocf3_config_ref := cap3_config_ref capsule;
  ocf3_owner_cancel_signing_seed := s3b_owner_cancel_signing_seed bundle;
  ocf3_owner_cancel_public_key := card3_owner_cancel_public_key card;
  ocf3_guardian_targets := list_to_map [(U16 1, "g1"); (U16 2, "g2"); (U16 3, "g3")]%string;
  ocf3_relay_bases := card3_relay_bases card
|}.

(** ** The network *)

Definition coordinator : RecipientKeyPair := RecipientKeyPair_from_seed (draw 32 100).

Definition signed_with {A} (transcript : A → Result WireError (list byte))
    (make : list byte → A) (key : barr 32) : A :=
  make (sign key (ok_bytes (transcript (make [])))).

(** What an honest witness answers to a read, an activation and a cancel. *)
Definition read_answer (challenge : EpochReadChallenge) (pin : WitnessPin) :
    WitnessReadEnvelope := {|
  wre_response := signed_with witness_epoch_read_response (λ signature, {|
      werr_protocol_version := PROTOCOL_VERSION_V3;
      werr_config_id := erc_config_id challenge;
      werr_client_nonce := erc_client_nonce challenge;
      werr_witness_id := pin_witness_id pin;
      werr_highest_guardian_epoch := epoch_of capsule;
      werr_capsule_hash := cap3_capsule_hash capsule;
      werr_witness_public_key := pin_public_key pin;
      werr_witness_signature := signature
    |}) (pin_public_key pin);
  wre_capsule := capsule
|}.
Definition activation_answer (request : WitnessActivationRequest) (pin : WitnessPin) :
    WitnessActivationAck :=
  let certificate := war_activation_certificate request in
  signed_with witness_activation_ack (λ signature, {|
      waa_context := rac_context certificate;
      waa_plan_hash := rac_plan_hash certificate;
      waa_activation_certificate_hash :=
        sha256 (ok_bytes (rotation_activate_certificate certificate));
      waa_witness_id := pin_witness_id pin;
      waa_predecessor_epoch := epoch_of capsule;
      waa_predecessor_capsule_hash := cap3_capsule_hash capsule;
      waa_successor_epoch := epoch_of (war_capsule request);
      waa_successor_capsule_hash := cap3_capsule_hash (war_capsule request);
      waa_witness_public_key := pin_public_key pin;
      waa_witness_signature := signature
    |}) (pin_public_key pin).
Definition veto_answer (certificate : OwnerRotationCancelCertificate) (pin : WitnessPin) :
    WitnessRotationCancelAck :=
  signed_with witness_rotation_cancel_ack (λ signature, {|
      wrca_protocol_version := PROTOCOL_VERSION_V3;
      wrca_config_id := cr_config_id (ctx_config_ref (orcc_context certificate));
      wrca_rotation_id := ctx_rotation_id (orcc_context certificate);
      wrca_plan_hash := orcc_plan_hash certificate;
      wrca_cancel_certificate_hash :=
        sha256 (ok_bytes (owner_rotation_cancel_certificate certificate));
      wrca_witness_id := pin_witness_id pin;
      wrca_witness_public_key := pin_public_key pin;
      wrca_witness_signature := signature
    |}) (pin_public_key pin).

Definition answer_of {A} (url_of : WitnessPin → string) (answer : WitnessPin → A)
    (url : string) : option A :=
  answer ∘ snd <$> list_find (λ pin, url_of pin = url) (card3_witnesses card).

Definition seal_rotation_answer (url : string) (answer : byte) : option SealedMailboxBody :=
  match mailbox_id url with
  | Err _ => None
  | Ok mailbox =>
      match seal_to_recipient (rkp_public coordinator) (id 5) (brep 24 x00) [answer]
              (ok_bytes (mailbox_transport_context mailbox "rotation-response")) with
      | Ok sealed => Some {| smb_sealed := sealed |}
      | Err _ => None
      end
  end.

(** The clock, and the answers of the mailboxes still to come, each a number of
    a message. *)
#[export] Instance rotation_network : Network := {|
  Net := u64 * list (option byte);
  system_time := λ net, (Some net.1, net);
  sleep_secs := λ secs net, (sat_add net.1 secs, net.2);
  write_file := λ _ _ net, (true, net);
  read_card := λ _ net, (None, net);
  read_card_v3 := λ _ net, (Some card, net);
  read_request := λ _ net, (None, net);
  read_owner_control := λ _ net, (None, net);
  get_key := λ _ net, (Some (encapsulation_key (id 9)), net);
  get_node_info := λ _ net, (Some (node_info "guardian" "g4" 4), net);
  get_capsule := λ _ net, (None, net);
  post_read := λ url challenge net,
    (answer_of (read_url card) (read_answer challenge) url, net);
  post_sealed := λ url _ net,
    match net.2 with
    | Some answer :: rest => (seal_rotation_answer url answer, (net.1, rest))
    | _ => (None, (net.1, tail net.2))
    end;
  post_provision := λ _ _ _ net, (true, net);
  post_register := λ _ _ _ net, (true, net);
  post_alias := λ _ _ _ net, (true, net);
  post_witness_config := λ _ _ _ net, (true, net);
  put_capsule := λ _ _ _ net, (true, net)
|}.

Definition control (plan : RotationPlan) : RotationControlFileV3 := {|
  rcf_protocol_version := PROTOCOL_VERSION_V3;
  rcf_recovery_card := card;
  rcf_predecessor_capsule := capsule;
  rcf_plan := plan;
  rcf_owner_cancel_public_key := card3_owner_cancel_public_key card
|}.
(** The rotation-control file is that of [plan]. *)
Definition rotation_world (plan : option RotationPlan) : RotationNetwork := {|
  read_owner_control_v3 := λ _ net, (Some owner, net);
  read_rotation_control := λ _ net, (control <$> plan, net);
  write_rotation_control := λ _ _ net, (true, net);
  post_activate := λ url request net,
    (answer_of (λ pin, witness_url card pin "activate") (activation_answer request) url, net);
  post_finalize := λ _ _ net, (true, net);
  post_cancel_rotation := λ url certificate net,
    (answer_of (λ pin, witness_url card pin "cancel-rotation") (veto_answer certificate) url, net)
|}.

Record RotationMessages : Set := mkRotationMessages {
  rm_signers : list SignerRotationResponseV3;
  rm_guardians : list GuardianRotationResponseV3
}.
Definition rotation_json_of (m : RotationMessages) : RotationJson := {|
  signer_rotation_request_to_vec := λ _, Some [];
  signer_rotation_response_from_slice := numbered_message (rm_signers m);
  guardian_rotation_request_to_vec := λ _, Some [];
  guardian_rotation_response_from_slice := numbered_message (rm_guardians m)
|}.

(** ** The rotation, stage by stage *)

Definition rotate_options : RotateV3Options := {|
  rot3_card_path := "card";
  rot3_owner_control_path := "owner";
  rot3_remove_guardian := U16 3;
  rot3_replacement_target := "g4";
  rot3_relay_token := "relay";
  rot3_admin_token := "admin";
  rot3_rotation_control_path := "control"
|}.

(** Signer [i] answers [request], after the [earlier] ones. *)
Definition signer_entry (i : nat) : option SignerRotationEntryV3 :=
  match signer_provision bundle i with
  | Ok provision => Some {|
      sre_provision := provision;
      sre_security_state := Votes.new;
      sre_recovery_requests := ∅;
      sre_recovery_nonces := ∅ |}
  | Err _ => None
  end.
Fixpoint signer_play (requests : list (N * SignerRotationRequestV3))
    (s : SignerRotationEntryV3 * N) : list (Result Error SignerRotationResponseV3) :=
  match requests with
  | [] => []
  | (now, request) :: requests =>
      let '(answer, s) := SignerRuntime.handle_signer_rotation_v3 request (U64 now) s in
      answer :: signer_play requests s
  end.
Definition signers_play (requests : list (N * SignerRotationRequestV3)) :
    list SignerRotationResponseV3 :=
  omap (λ i, entry ← signer_entry i;
    match head (reverse (signer_play requests (entry, 60%N))) with
    | Some (Ok answer) => Some answer
    | _ => None
    end) [0; 1].

Definition challenge : EpochReadChallenge :=
  read_challenge card coordinator (draw 32 101) (U64 1000).
Definition reads : list WitnessReadEnvelope := Eval vm_compute in
  read_answer challenge <$> card3_witnesses card.
Definition rotation_context : RotationContext := Eval vm_compute in
  Rotate.rotation_context capsule coordinator (draw 32 102) (draw 32 103) (U64 1000).
Definition intent : RotationIntent := Eval vm_compute in
  exit_intent rotation_context capsule (U16 3)
    match witness_read_quorum_hash_v3 challenge reads with Ok hash => hash | Err _ => id 0 end.
Definition step_intent : N * SignerRotationRequestV3 := (1000%N, SrIntent intent challenge reads).
Definition intents : list SignerRotationResponseV3 := Eval vm_compute in
  signers_play [step_intent].

(** What the coordinator knows after the intents, after [open_predecessor]. *)
Definition intent_hash : Id32 := Eval vm_compute in sha256 (ok_bytes (rotation_intent intent)).
Definition opened : Opened := {|
  op_card := card; op_owner := owner; op_coordinator := coordinator;
  op_predecessor := capsule; op_context := rotation_context; op_intent_hash := intent_hash;
  op_authorization_key := draw 32 192; op_descriptor := descriptor
|}.
(** The random draws that stages start at. *)
Definition planned : Planned := Eval vm_compute in
  match plan_rotation rotate_options opened
          ((U64 1000, []), 108%N) with
  | (Ok planned, _) => planned
  | (Err _, _) => mkPlanned (Scenario.plan 1) (id 0) (Scenario.route 1 1) (Scenario.route 1 1)
  end.
Definition plan : RotationPlan := Eval vm_compute in pl_plan planned.
Definition plan_hash : Id32 := Eval vm_compute in pl_plan_hash planned.

(** Begin and Release, with the signers' votes. *)
Definition step_begin : N * SignerRotationRequestV3 := (1000%N, SrBegin intent_hash plan).
Definition begin_votes : list SignerRotationResponseV3 := Eval vm_compute in
  signers_play [step_intent; step_begin].
Definition begin : BeginRotationCertificate := Eval vm_compute in {|
  brot_context := rotation_context;
  brot_intent_hash := intent_hash;
  brot_plan_hash := plan_hash;
  brot_old_roster_commitment := plan_old_roster_commitment plan;
  brot_new_roster_commitment := plan_new_roster_commitment plan;
  brot_not_before_wall := U64 1005;
  brot_votes := omap begin_vote_of begin_votes
|}.
Definition step_release : N * SignerRotationRequestV3 := (1006%N, SrRelease plan begin).
Definition release_votes : list SignerRotationResponseV3 := Eval vm_compute in
  signers_play [step_intent; step_begin; step_release].
Definition release : RotationReleaseCertificate := Eval vm_compute in {|
  rrc_context := rotation_context;
  rrc_plan_hash := plan_hash;
  rrc_begin_certificate_hash := sha256 (ok_bytes (begin_rotation_certificate begin));
  rrc_votes := omap release_vote_of release_votes
|}.
Definition release_hash : Id32 := Eval vm_compute in
  sha256 (ok_bytes (rotation_release_certificate release)).

(** *** The guardians' answers

    The helpers, guardians 1 and 2, hand out their ciphertext fragments; the
    messages of the refresh are left out, its result is the package as it was. *)

Definition fragments : list (list byte) := Eval vm_compute in
  match (payload ← aead_encrypt (draw 32 212) (draw 24 213) (s3_secret rotation_options)
           (ok_bytes (payload_context_v3 (card3_config_id card) (U64 1)));
         erasure_encode (aead_ciphertext payload) (U16 2) (U16 3)) with
  | Ok fragments => fragments
  | Err _ => []
  end.
Definition guardian_key (index : N) : barr 32 :=
  match list_find (λ route, gr3_guardian_index route = U16 index)
          (routes ++ plan_new_roster plan) with
  | Some (_, route) => gr3_guardian_public_key route
  | None => id 0
  end.
Definition fragment_of (offset : nat) : option GuardianRotationResponseV3 :=
  record ← s3b_records bundle !! offset;
  fragment ← fragments !! offset;
  match GuardianRuntime.record_leaf record with
  | Ok leaf => Some (GrDpssDeliveries [] (Some (signed_with ciphertext_fragment_contribution
      (λ signature, {|
        cfc_context := rotation_context;
        cfc_plan_hash := plan_hash;
        cfc_release_certificate_hash := release_hash;
        cfc_old_guardian_index := grec3_guardian_index record;
        cfc_fragment_index := grec3_fragment_index record;
        cfc_ciphertext_fragment := fragment;
        cfc_fragment_commitment := sha256 fragment;
        cfc_prepared_record_leaf := leaf;
        cfc_merkle_path_proof := grec3_merkle_path_proof record;
        cfc_guardian_signature := signature
      |}) (guardian_key (grec3_guardian_index record)))))
  | Err _ => None
  end.

Definition refreshed : list byte * Id32 :=
  (rd3_dpss_public_package descriptor, rd3_dpss_public_commitment descriptor).
Definition leaf_of (index offset : N) : PreparedRecordLeaf := {|
  prl_guardian_index := U16 index;
  prl_fragment_index := U16 offset;
  prl_opaque_slot_id := match list_find (λ route, gr3_guardian_index route = U16 index)
      (plan_new_roster plan) with
    | Some (_, route) => gr3_opaque_slot_id route
    | None => id 0
    end;
  prl_encrypted_share_hash := id 14;
  prl_fragment_hash := id 15;
  prl_policy_hash := id 16
|}.
Definition successors : list (N * N) := [(1, 1); (2, 2); (4, 3)]%N.
Definition material_root : Id32 := Eval vm_compute in
  match (hashes ← collect SetupV3.prepared_leaf_hash
           ((λ '(index, offset), leaf_of index offset) <$> successors);
         crypto (merkle_commit hashes)) with
  | Ok (root, _) => root
  | Err _ => id 0
  end.
Definition prepared_ack (index offset : N) : GuardianRotationResponseV3 :=
  GrPrepared (signed_with new_guardian_prepared_ack (λ signature, {|
      ngpa_context := rotation_context;
      ngpa_plan_hash := plan_hash;
      ngpa_dpss_result_commitment := refreshed.2;
      ngpa_guardian_material_root := material_root;
      ngpa_new_guardian_index := U16 index;
      ngpa_prepared_record_leaf := leaf_of index offset;
      ngpa_durable_write_generation := U64 1;
      ngpa_guardian_signature := signature
    |}) (guardian_key index)).
Definition handoff_ack (index : N) : GuardianRotationResponseV3 :=
  GrHandoff (signed_with old_guardian_handoff_ack (λ signature, {|
      ogha_context := rotation_context;
      ogha_plan_hash := plan_hash;
      ogha_dpss_result_commitment := refreshed.2;
      ogha_qualified_set_commitment := plan_dpss_qualified_set_commitment plan;
      ogha_old_guardian_index := U16 index;
      ogha_guardian_signature := signature
    |}) (guardian_key index)).

Definition guardian_messages : list GuardianRotationResponseV3 := Eval vm_compute in
  [GrBeginAccepted (U64 75); GrDpssDeliveries [] None; GrRepairStored (U16 4) refreshed.1;
   GrRefreshFinalized (U16 1) refreshed.1 refreshed.2; GrActivated (U64 2)]
  ++ omap fragment_of [0; 1]
  ++ ((λ '(index, offset),
        GrRefreshMaterialStaged (leaf_of index offset) refreshed.1 refreshed.2) <$> successors)
  ++ ((λ '(index, offset), prepared_ack index offset) <$> successors)
  ++ (handoff_ack <$> [1; 2]%N).

(** What the guardians answer, from the repair to the handoff. *)
Definition to_prepare : list (option byte) :=
  Some <$> [x05; x06] ++ [x01; x01] ++ [x02] ++ [x01; x01; x01] ++ [x01; x01; x01]
    ++ [x03; x03; x03] ++ [x07; x08; x09] ++ [x0a; x0b; x0c] ++ [x0d; x0e].

Definition released : Released := {|
  rl_opened := opened; rl_planned := planned; rl_begin := begin; rl_release := release;
  rl_release_hash := release_hash
|}.
Definition prepared : Prepared := {|
  pr_public_package := refreshed.1;
  pr_dpss_result_commitment := refreshed.2;
  pr_material_root := material_root;
  pr_prepared_acks := omap (λ r, match r with GrPrepared ack => Some ack | _ => None end)
    guardian_messages;
  pr_handoff_acks := omap (λ r, match r with GrHandoff ack => Some ack | _ => None end)
    guardian_messages
|}.

(** Activation; the descriptor is sealed at draw 207. *)
Definition encrypted_descriptor : AeadCiphertext := Eval vm_compute in
  match seal_successor_descriptor released prepared 207%N with
  | (Ok sealed, _) => sealed
  | (Err _, _) => cap3_encrypted_recovery_descriptor capsule
  end.
Definition ready : RotationReadyCertificate := Eval vm_compute in
  ready_certificate released prepared encrypted_descriptor.
Definition successor_hash : Id32 := Eval vm_compute in
  sha256 (ok_bytes (config_capsule_body_v3
    (successor_capsule released prepared encrypted_descriptor (brep 32 x00) None))).
Definition successor : ConfigCapsuleV3 := Eval vm_compute in
  successor_capsule released prepared encrypted_descriptor successor_hash None.
Definition activate_votes : list SignerRotationResponseV3 := Eval vm_compute in
  signers_play [step_intent; step_begin; step_release;
                (1006%N, SrActivate plan ready successor)].

(** ** The run

    Numbers 0 and 1 are the signers' intents, 2 and 3 their Begin votes, 4 and
    5 their Release votes, 6 and 7 their Activate votes, 8 an intent that is
    not signed; of the guardians, 15 to 17 are acknowledgements of a cancel. *)
Definition broken_intent : list SignerRotationResponseV3 :=
  match omap (λ r, match r with SrIntentContribution c => Some c | _ => None end) intents with
  | c :: _ => [SrIntentContribution {|
      sric_context := sric_context c;
      sric_intent_hash := sric_intent_hash c;
      sric_signer_id := U16 3;
      sric_signer_public_key := sric_signer_public_key c;
      sric_signer_membership_proof := sric_signer_membership_proof c;
      sric_encrypted_authorization_share := sric_encrypted_authorization_share c;
      sric_signer_signature := [] |}]
  | [] => []
  end.

Definition owner_cancel : OwnerRotationCancelCertificate := Eval vm_compute in
  signed_with owner_rotation_cancel_certificate
    (CancelRotation.cancel_certificate (control plan) owner plan_hash coordinator)
    (signing_key (ocf3_owner_cancel_signing_seed owner)).
Definition cancelled_ack (route : GuardianRouteV3) : GuardianRotationResponseV3 :=
  GrCancelled (signed_with owner_rotation_cancel_ack (λ signature, {|
      orca_context := rotation_context;
      orca_plan_hash := plan_hash;
      orca_cancel_certificate_hash :=
        sha256 (ok_bytes (owner_rotation_cancel_certificate owner_cancel));
      orca_guardian_index := gr3_guardian_index route;
      orca_guardian_signature := signature
    |}) (gr3_guardian_public_key route)).

Definition rotation_messages : RotationMessages := Eval vm_compute in {|
  rm_signers := intents ++ begin_votes ++ release_votes ++ activate_votes ++ broken_intent;
  rm_guardians := guardian_messages ++ (cancelled_ack <$> routes)
|}.
#[export] Instance rotation_answers : RotationJson := rotation_json_of rotation_messages.
#[export] Instance rotation_of_plan : RotationNetwork := rotation_world (Some plan).

Definition honest_rotation : list (option byte) :=
  (Some <$> [x00; x01] ++ [x02; x03] ++ [x00; x00; x00]) ++ [None]
  ++ (Some <$> [x04; x05]) ++ to_prepare ++ (Some <$> [x06; x07])
  ++ (Some <$> [x04; x04; x04]) ++ [None].
Definition rotation (answers : list (option byte)) :
    Result Error RotateV3Result * ((u64 * list (option byte)) * N) :=
  rotate_v3 rotate_options ((U64 1000, answers), 100%N).

(** The owner's cancel: two guardians acknowledge it, nobody else answers. *)
Definition cancel_options : CancelRotationV3Options := {|
  crt_rotation_control_path := "control";
  crt_owner_control_path := "owner"
|}.
Definition cancellation (answers : list (option byte)) :
    Result Error CancelRotationV3Result * ((u64 * list (option byte)) * N) :=
  cancel_rotation_v3 cancel_options ((U64 1003, answers), 100%N).

Example rotation_runs : is_ok (rotation honest_rotation).1 = true.
Proof. vm_compute. reflexivity. Qed.

Example cancellation_runs :
  is_ok (cancellation [Some x0f; Some x10; None]).1 = true
  ∧ is_ok (cancellation [Some x0f; None; None]).1 = false.
Proof. split; vm_compute; reflexivity. Qed.

Definition opening (answers : list (option byte)) : Result Error () :=
  match (open_predecessor rotate_options ((U64 1000, answers), 100%N)).1 with
  | Ok _ => Ok ()
  | Err e => Err e
  end.
(** A signer that does not answer the intent is replaced by the next one; one
    that answers first with a worthless contribution ends the rotation,
    although two signers would have contributed. *)
Lemma one_bad_intent_stops_rotation :
  opening [None; Some x00; Some x01] = Ok ()
  ∧ opening [Some x08; Some x00; Some x01] = Err (ECrypto CrInvalidMerkleProof).
Proof. split; vm_compute; reflexivity. Qed.

End RotationScenario.
