(* ===== verification/SetupRecovery.v ===== *)
(** From setup to recovery: what [create_setup_v3] deals to the signers and
    guardians is what the recovery client opens, checks and puts together. *)

From S2P Require Export ClientV3 SetupV3 DealerProps SharingProps.
From S2P Require Import ClientScenario.

(** [draws_to H x Hx]: the next step of the run [H] answers [x], as [Hx] says. *)
Ltac draws_to H x Hx :=
  apply SR_bind_Ok in H as (x & ? & Hx & H);
  try (apply lift_Ok in Hx as [Hx ->]).

Module SetupRecovery.
Export SetupV3 ClientV3.

Section setup.
Context `{Prims : Primitives} `{Sharing : SharingPrimitives} `{Frost : FrostPrimitives}.
Context `{Protocol : ProtocolPrimitives} `{World : Network} `{Json : ClientPrimitives}.

(** The loop [gather_material] over answers that have come. *)
Fixpoint accept_all (descriptor : RecoveryDescriptorV3) (capsule : ConfigCapsuleV3)
    (request : RecoveryRequestV3) (authorization_key : list byte)
    (answers : list (GuardianRouteV3 * Result Error GuardianRecoveryResponseV3))
    (material : Material) : Result Error Material :=
  match answers with
  | [] => Ok material
  | (route, answer) :: answers =>
      material ← accept_material descriptor capsule request authorization_key route answer
        material;
      accept_all descriptor capsule request authorization_key answers material
  end.

(** Guardian [i] of the setup contributes its record to a request, as
    [handle_release] does. *)
Definition contributes (bundle : SetupV3Bundle) (request : RecoveryRequestV3) (i : nat)
    (answer : GuardianRouteV3 * Result Error GuardianRecoveryResponseV3) : Prop :=
  ∃ record seed digest t,
    s3b_guardian_routes bundle !! i = Some answer.1 ∧ s3b_records bundle !! i = Some record
    ∧ s3b_guardian_seeds bundle !! i = Some seed
    ∧ recovery_request_digest_v3 request = Ok digest
    ∧ guardian_recovery_contribution_v3 (GuardianRecovery.contribution request digest record [])
      = Ok t
    ∧ answer.2 = Ok (GvContribution (GuardianRecovery.contribution request digest record
        (sign (signing_key seed) t))).

(** ** Records *)

(** The record and leaf of a guardian whose share and fragment are [share] and
    [fragment]: both open with the keys derived from A. *)
Definition holds (authorization : barr 32) (policy : GuardianPolicyV3) (i : nat)
    (route : GuardianRouteV3) (share fragment : list byte)
    (entry : GuardianRecordV3 * PreparedRecordLeaf) : Prop :=
  let '(record, leaf) := entry in
  let config_ref := gpol3_config_ref policy in
  let index := gr3_guardian_index route in
  ∃ fragment_index body key context key' context',
    try_u16 (N.of_nat i + 1) = Some fragment_index
    ∧ guardian_policy_body_v3 policy = Ok body
    ∧ guardian_share_key_v3 authorization config_ref index = Ok key
    ∧ guardian_share_context_v3 config_ref index = Ok context
    ∧ aead_decrypt key (grec3_encrypted_dek_share record) context = Ok share
    ∧ guardian_fragment_key_v3 authorization config_ref index = Ok key'
    ∧ guardian_fragment_context_v3 config_ref index fragment_index = Ok context'
    ∧ aead_decrypt key' (grec3_encrypted_ciphertext_fragment record) context' = Ok fragment
    ∧ grec3_guardian_index record = index ∧ grec3_fragment_index record = fragment_index
    ∧ leaf = {| prl_guardian_index := index;
                prl_fragment_index := fragment_index;
                prl_opaque_slot_id := gr3_opaque_slot_id route;
                prl_encrypted_share_hash := hash_aead (grec3_encrypted_dek_share record);
                prl_fragment_hash := hash_aead (grec3_encrypted_ciphertext_fragment record);
                prl_policy_hash := sha256 body |}.

Context `{SL : !SealingLaws}.

Lemma aead_opens key nonce msg aad sealed :
  aead_encrypt key nonce msg aad = Ok sealed →
  aead_nonce sealed = nonce ∧ aead_decrypt key sealed aad = Ok msg.
Proof.
  intros (c & Hc%ok_or_Ok & [= <-])%bind_Ok. split; [done |]. unfold aead_decrypt. simpl.
  by rewrite (aead_correct _ _ _ _ _ Hc).
Qed.

Lemma make_record_holds policy authorization_key shares fragments i route rng entry rng' :
  make_record policy authorization_key shares fragments i route rng = (Ok entry, rng') →
  ∃ authorization share fragment, try_barr 32 authorization_key = Some authorization
    ∧ shares !! i = Some share ∧ fragments !! i = Some fragment
    ∧ holds authorization policy i route share fragment entry.
Proof.
  unfold make_record. intros H.
  draws_to H authorization Ha. apply ok_or_Ok in Ha.
  draws_to H key Hk. draws_to H nonce Hn. draws_to H share Hs. draws_to H ctx Hc.
  draws_to H sealed He. draws_to H index Hi. draws_to H key' Hk'. draws_to H nonce' Hn'.
  draws_to H fragment Hf. draws_to H ctx' Hc'. draws_to H sealed' He'.
  draws_to H custody Hcu. draws_to H body Hb. injection H as <- <-.
  apply ok_or_Ok in Hs, Hf, Hi. apply crypto_Ok in Hk, Hk', He, He'.
  apply wire_Ok in Hc, Hc', Hb.
  apply aead_opens in He as [_ He]. apply aead_opens in He' as [_ He'].
  exists authorization, share, fragment. split_and!; [done.. |].
  exists index, body, key, ctx, key', ctx'. split_and!; done.
Qed.

Lemma make_records_hold policy authorization_key shares fragments offset routes rng entries rng' :
  make_records policy authorization_key shares fragments offset routes rng = (Ok entries, rng') →
  length entries = length routes
  ∧ ∀ i route, routes !! i = Some route →
    ∃ entry authorization share fragment, entries !! i = Some entry
      ∧ try_barr 32 authorization_key = Some authorization
      ∧ shares !! (offset + i) = Some share ∧ fragments !! (offset + i) = Some fragment
      ∧ holds authorization policy (offset + i) route share fragment entry.
Proof.
  revert offset rng entries rng'. induction routes as [|r routes IH]; intros offset rng entries rng' H.
  - injection H as <- <-. split; [done |]. by intros i route.
  - cbn [make_records] in H. draws_to H entry He. draws_to H rest Hr. injection H as <- <-.
    apply make_record_holds in He as (a & s & f & Ha & Hs & Hf & Hh).
    apply IH in Hr as [Hl Hr]. split; [by simpl; rewrite Hl |].
    intros [|i] route Hi.
    + injection Hi as <-. rewrite Nat.add_0_r. by exists entry, a, s, f.
    + destruct (Hr i route Hi) as (e' & a' & s' & f' & ?). exists e', a', s', f'.
      by rewrite Nat.add_succ_r, <- Nat.add_succ_l.
Qed.

(** ** Numbers, routes and draws *)

Lemma numbered_Ok {A} (l : list A) r :
  numbered l = Ok r →
  length r = length l
  ∧ ∀ i x, l !! i = Some x → ∃ id, try_u16 (N.of_nat i + 1) = Some id ∧ r !! i = Some (id, x).
Proof.
  intros HF%collect_Ok. split.
  - by rewrite <- (Forall2_length HF), length_imap.
  - intros i x Hi. assert (Hp : imap pair l !! i = Some (i, x)) by by rewrite list_lookup_imap, Hi.
    destruct (Forall2_lookup_l _ _ _ _ _ HF Hp) as (y & Hy & (id & Hid & [= <-])%bind_Ok).
    exists id. split; [by apply ok_or_Ok in Hid | done].
Qed.

Lemma draws_length {A} (m : SR Rng Error A) n rng l rng' :
  draws m n rng = (Ok l, rng') → length l = n.
Proof.
  revert rng l rng'. induction n as [|n IH]; intros rng l rng' H.
  - by injection H as <- <-.
  - cbn [draws] in H. draws_to H x Hx. draws_to H rest Hr. injection H as <- <-.
    simpl. by rewrite (IH _ _ _ Hr).
Qed.

Lemma guardian_routes_Ok relay guardians rng routes rng' :
  guardian_routes relay guardians rng = (Ok routes, rng') →
  Forall2 (λ g route, gr3_guardian_index route = g.1
    ∧ gr3_guardian_public_key route = verifying_key_bytes (signing_key g.2.2)) guardians routes.
Proof.
  revert rng routes rng'. induction guardians as [|[index [info seed]] guardians IH];
    intros rng routes rng' H.
  - injection H as <- <-. constructor.
  - cbn [guardian_routes] in H. draws_to H slot Hs. draws_to H mailbox Hm. draws_to H rest Hr.
    injection H as <- <-. constructor; [done | by eapply IH].
Qed.

Lemma try_u16_Some n id : try_u16 n = Some id → uval id = n.
Proof.
  unfold try_u16. destruct (N.ltb_spec n (2 ^ 16)) as [Hn |]; [| done].
  intros [= <-]. by apply uval_to_uint.
Qed.

(** What a setup's routes are: one per guardian, numbered from 1, with the key
    of the seed that goes to the guardian. *)
Definition routes_of (seeds : list Id32) (routes : list GuardianRouteV3) : Prop :=
  length routes = length seeds
  ∧ ∀ i route, routes !! i = Some route →
    ∃ seed, seeds !! i = Some seed
      ∧ uval (gr3_guardian_index route) = (N.of_nat i + 1)%N
      ∧ gr3_guardian_public_key route = verifying_key_bytes (signing_key seed).

Lemma routes_number (infos : list NodeInfo) (seeds : list Id32) guardians relay rng routes rng' :
  length infos = length seeds → numbered (zip infos seeds) = Ok guardians →
  guardian_routes relay guardians rng = (Ok routes, rng') → routes_of seeds routes.
Proof.
  intros Hl [Hn Hg]%numbered_Ok HF%guardian_routes_Ok.
  assert (Hz : length (zip infos seeds) = length seeds) by (rewrite length_zip_with; lia).
  split; [by rewrite <- (Forall2_length HF), Hn |].
  intros i route Hi. destruct (Forall2_lookup_r _ _ _ _ _ HF Hi) as ([id [info seed]] & Hgi & Hid & Hk).
  destruct (lookup_lt_is_Some_2 (zip infos seeds) i) as [[info' seed'] Hzi];
    [rewrite <- Hn; by apply lookup_lt_Some in Hgi |].
  destruct (Hg i _ Hzi) as (id' & Hid' & Hgi'). rewrite Hgi in Hgi'. injection Hgi' as <- <- <-.
  exists seed. apply lookup_zip_with_Some in Hzi as (? & ? & [= <- <-] & _ & Hs).
  split_and!; [done | rewrite Hid; by apply try_u16_Some | done].
Qed.

Lemma routes_distinct seeds routes i j route route' :
  routes_of seeds routes → routes !! i = Some route → routes !! j = Some route' →
  gr3_guardian_index route = gr3_guardian_index route' → i = j.
Proof.
  intros [_ H] Hi Hj E. destruct (H i _ Hi) as (_ & _ & Hx & _).
  destruct (H j _ Hj) as (_ & _ & Hy & _). rewrite E in Hx. lia.
Qed.

Lemma routes_NoDup seeds routes :
  routes_of seeds routes → NoDup (gr3_guardian_index <$> routes).
Proof.
  intros H. apply NoDup_alt. intros i j x (r & -> & Hi)%list_lookup_fmap_Some
    (r' & E & Hj)%list_lookup_fmap_Some. by eapply routes_distinct.
Qed.

Lemma routes_find seeds routes i route :
  routes_of seeds routes → routes !! i = Some route →
  list_find (λ candidate, gr3_guardian_index candidate = gr3_guardian_index route) routes
    = Some (i, route).
Proof.
  intros H Hi. apply list_find_Some. split_and!; [done | done |].
  intros j r Hj Hlt E. pose proof (routes_distinct _ _ _ _ _ _ H Hj Hi E). lia.
Qed.

(** ** The guardians' material *)

(** What [create_material_v3] has made for the guardians on [routes]: the
    dealing [frost], the encrypted [payload] and its [fragments]. *)
Definition material_of (secret : list byte) (threshold guardian_count : u16)
    (policy : GuardianPolicyV3) (authorization_key : list byte) (routes : list GuardianRouteV3)
    (frost : FrostDealerOutput) (payload : AeadCiphertext) (fragments : list (list byte))
    (material : GuardianMaterial) : Prop :=
  ∃ seed dek context entries hashes proofs,
    frost_dealer_split threshold guardian_count seed = Ok frost
    ∧ try_barr 32 (fdo_dek frost) = Some dek
    ∧ payload_context_v3 (cr_config_id (gpol3_config_ref policy))
        (cr_payload_generation (gpol3_config_ref policy)) = Ok context
    ∧ aead_decrypt dek payload context = Ok secret
    ∧ erasure_encode (aead_ciphertext payload) threshold guardian_count = Ok fragments
    ∧ frost_public_package_digest (fdo_public_package frost)
      = Ok (gm_dpss_public_commitment material)
    ∧ length entries = length routes
    ∧ (∀ i route, routes !! i = Some route →
        ∃ entry authorization share fragment, entries !! i = Some entry
          ∧ try_barr 32 authorization_key = Some authorization
          ∧ fdo_shares frost !! i = Some share ∧ fragments !! i = Some fragment
          ∧ holds authorization policy i route share fragment entry)
    ∧ collect prepared_leaf_hash entries.*2 = Ok hashes
    ∧ merkle_commit hashes = Ok (gm_material_root material, proofs)
    ∧ gm_records material = zip_with (λ record proof,
        GuardianRuntime.committed_record record (gm_material_root material) proof)
        entries.*1 proofs
    ∧ gm_descriptor material = {|
        rd3_config_ref := gpol3_config_ref policy;
        rd3_guardians := routes;
        rd3_guardian_material_root := gm_material_root material;
        rd3_data_shards := threshold;
        rd3_total_shards := guardian_count;
        rd3_ciphertext_len := U64 (len (aead_ciphertext payload));
        rd3_payload_nonce := aead_nonce payload;
        rd3_dpss_suite := ZfFrostRistretto255RtsRefreshV1;
        rd3_dpss_public_package := fdo_public_package frost;
        rd3_dpss_public_commitment := gm_dpss_public_commitment material
      |}
    ∧ uval (U64 (len (aead_ciphertext payload))) = len (aead_ciphertext payload).

Lemma create_material_Ok options guardian_count policy_for config_ref authorization_key routes
    rng material rng' :
  (∀ commitment, gpol3_config_ref (policy_for commitment) = config_ref) →
  create_material_v3 options guardian_count policy_for config_ref authorization_key routes rng
    = (Ok material, rng') →
  ∃ frost payload fragments,
    material_of (s3_secret options) (s3_guardian_threshold options) guardian_count
      (policy_for (gm_dpss_public_commitment material)) authorization_key routes frost payload
      fragments material.
Proof.
  intros Href H. unfold create_material_v3 in H. cbv zeta in H.
  draws_to H seed Hseed. draws_to H frost Hfrost. draws_to H dek Hdek. draws_to H nonce Hnonce.
  draws_to H ctx Hctx. draws_to H payload Hpay. draws_to H fragments Hfr.
  draws_to H commitment Hcom. draws_to H dpss Hdpss. draws_to H entries Hent.
  draws_to H hashes Hhash. apply SR_bind_Ok in H as ([root proofs] & ? & Htree & H).
  apply lift_Ok in Htree as [Htree ->]. draws_to H n Hn. injection H as <- <-.
  apply crypto_Ok in Hfrost, Hpay, Hfr, Hcom, Hdpss, Htree. apply ok_or_Ok in Hdek, Hn.
  apply wire_Ok in Hctx. apply aead_opens in Hpay as [<- Hpay].
  apply make_records_hold in Hent as [Hlen Hent].
  assert (Hu : n = U64 (len (aead_ciphertext payload))
    ∧ uval (U64 (len (aead_ciphertext payload))) = len (aead_ciphertext payload)).
  { unfold try_u64 in Hn. destruct (N.ltb_spec (len (aead_ciphertext payload)) (2 ^ 64)); [| done].
    injection Hn as <-. split; [done | by apply uval_to_uint]. }
  destruct Hu as [-> Hu].
  exists frost, payload, fragments, seed, dek, ctx, entries, hashes, proofs.
  cbn [gm_dpss_public_commitment gm_material_root gm_records gm_descriptor]. rewrite !Href.
  split_and!; done.
Qed.

(** ** The whole setup *)

(** How the parts of a bundle come from the key [a] and the guardians' material. *)
Definition setup_of (options : SetupV3Options) (signer_count guardian_count : u16)
    (bundle : SetupV3Bundle) (a : Id32) (policy : GuardianPolicyV3) (frost : FrostDealerOutput)
    (payload : AeadCiphertext) (fragments : list (list byte)) (material : GuardianMaterial) :
    Prop :=
  (∃ seed, split_secret (bytes_of a) (s3_signer_threshold options) signer_count seed
    = Ok (s3b_authorization_shares bundle))
  ∧ routes_of (s3b_guardian_seeds bundle) (s3b_guardian_routes bundle)
  ∧ length (s3b_guardian_seeds bundle) = N.to_nat guardian_count
  ∧ material_of (s3_secret options) (s3_guardian_threshold options) guardian_count policy
      (bytes_of a) (s3b_guardian_routes bundle) frost payload fragments material
  ∧ s3b_records bundle = gm_records material
  ∧ gpol3_signer_threshold policy = s3_signer_threshold options
  ∧ gpol3_dpss_suite policy = ZfFrostRistretto255RtsRefreshV1
  ∧ gpol3_dpss_public_commitment policy = gm_dpss_public_commitment material
  ∧ gpol3_predecessor_capsule_hash policy = brep 32 x00
  ∧ (∃ descriptor hash, s3b_capsule bundle = first_capsule policy guardian_count
        (s3_guardian_threshold options) (gm_fragment_root material) (gm_material_root material)
        descriptor hash
      ∧ ∃ key context plaintext, descriptor_key_v3 a (gpol3_config_ref policy) = Ok key
        ∧ descriptor_context_v3 (gpol3_config_ref policy) = Ok context
        ∧ descriptor_v3_to_vec (gm_descriptor material) = Some plaintext
        ∧ aead_decrypt key descriptor context = Ok plaintext).

Lemma create_setup_Ok options (signer_count guardian_count : u16) relay_bases guardian_infos
    witness_infos rng bundle rng' :
  length guardian_infos = N.to_nat guardian_count →
  create_setup_v3 options signer_count guardian_count relay_bases guardian_infos witness_infos rng
    = (Ok bundle, rng') →
  ∃ a policy frost payload fragments material,
    setup_of options signer_count guardian_count bundle a policy frost payload fragments material.
Proof.
  intros Hinfos H. unfold create_setup_v3 in H. cbv zeta in H.
  draws_to H a Ha. apply SR_bind_Ok in H as ([[[[shares seeds] keys] root] proofs] & ? & Hsig & H).
  draws_to H owner Howner. draws_to H config_id Hcid. draws_to H binding Hbind.
  draws_to H relay Hrelay. draws_to H mailboxes Hmail. draws_to H gseeds Hgs.
  draws_to H guardians Hg. draws_to H routes Hroutes. draws_to H material Hmat.
  draws_to H sealed Hseal. draws_to H body Hbody. draws_to H witnesses Hwit.
  draws_to H u Hval. injection H as <- <-.
  apply draws_length in Hgs.
  pose proof (routes_number _ _ _ _ _ _ _ (eq_trans Hinfos (eq_sym Hgs)) Hg Hroutes) as Hr.
  apply create_material_Ok in Hmat as (frost & payload & fragments & Hmat); [| done].
  exists a. eexists. exists frost, payload, fragments, material. split_and!.
  - unfold create_signers_v3 in Hsig. draws_to Hsig seed Hseed. draws_to Hsig dealt Hdealt.
    apply crypto_Ok in Hdealt. exists seed. rewrite Hdealt. f_equal.
    draws_to Hsig sseeds Hss. draws_to Hsig skeys Hsk. draws_to Hsig leaves Hlv.
    apply SR_bind_Ok in Hsig as ([? ?] & ? & _ & Hsig). by injection Hsig.
  - exact Hr.
  - exact Hgs.
  - exact Hmat.
  - done.
  - done.
  - done.
  - done.
  - done.
  - exists sealed, (sha256 body). split; [done |].
    unfold seal_descriptor_v3 in Hseal. draws_to Hseal authorization Hauth.
    apply ok_or_Ok in Hauth. rewrite try_barr_bytes_of in Hauth. injection Hauth as <-.
    draws_to Hseal key Hkey. draws_to Hseal nonce Hnonce. draws_to Hseal plaintext Hplain.
    draws_to Hseal ctx Hctx. apply lift_Ok in Hseal as [Hseal _].
    apply crypto_Ok in Hkey, Hseal. apply ok_or_Ok in Hplain. apply wire_Ok in Hctx.
    apply aead_opens in Hseal as [_ Hseal].
    destruct Hmat as (? & ? & ? & ? & ? & ? & _ & _ & _ & _ & _ & _ & _ & _ & _ & _ & _ & Hd & _).
    rewrite Hd in Hkey, Hctx. exists key, ctx, plaintext. by rewrite Hd, <- Hd.
Qed.

(** ** Opening *)

Context `{SH : !ShamirLaws} `{RS : !ReedSolomonLaws} `{SG : !SigningLaws}.
Context `{DL : !DealerLaws} `{IL : !IdentifierLaws} `{DJ : !DescriptorJson}.

Section opened.
Context (options : SetupV3Options) (signer_count guardian_count : u16) (bundle : SetupV3Bundle).
Context (a : Id32) (policy : GuardianPolicyV3) (frost : FrostDealerOutput).
Context (payload : AeadCiphertext) (fragments : list (list byte)) (material : GuardianMaterial).
Hypothesis Hsetup :
  setup_of options signer_count guardian_count bundle a policy frost payload fragments material.

Let capsule : ConfigCapsuleV3 := s3b_capsule bundle.
Let descriptor : RecoveryDescriptorV3 := gm_descriptor material.

Lemma capsule_policy_body :
  guardian_policy_body_v3 (policy_of_capsule capsule) = guardian_policy_body_v3 policy.
Proof.
  destruct Hsetup as (_ & _ & _ & _ & _ & _ & _ & _ & Hp & (d & h & Hc & _)).
  unfold capsule. rewrite Hc. unfold guardian_policy_body_v3. simpl. by rewrite Hp.
Qed.

Lemma capsule_ref : cap3_config_ref capsule = gpol3_config_ref policy.
Proof.
  destruct Hsetup as (_ & _ & _ & _ & _ & _ & _ & _ & _ & (d & h & Hc & _)).
  unfold capsule. by rewrite Hc.
Qed.

Lemma descriptor_validates : validate_recovery_descriptor_v3 descriptor capsule = Ok ().
Proof.
  destruct Hsetup as (_ & Hr & Hl & Hm & _ & _ & Hs & Hd & _ & (d & h & Hc & _)).
  destruct Hm as (? & ? & ? & ? & ? & ? & _ & _ & _ & _ & _ & Hdig & _ & _ & _ & _ & _ & He & _).
  pose proof (routes_NoDup _ _ Hr) as Hnd. destruct Hr as [Hlen _].
  unfold validate_recovery_descriptor_v3, capsule, descriptor. rewrite Hc, He. simpl.
  rewrite Hs, Hd. rewrite !(proj2 (neb_false _ _)); try done.
  - simpl. rewrite Hdig. simpl. by rewrite (proj2 (neb_false _ _)).
  - rewrite size_list_to_set by done. by rewrite length_fmap.
  - unfold len. rewrite Hlen, Hl. lia.
Qed.

(** The contribution of guardian [i], as the client sees it. *)
Lemma contribution_opens request i answer :
  rr3_config_ref request = cap3_config_ref capsule → contributes bundle request i answer →
  ∃ c share fragment, answer.2 = Ok (GvContribution c)
    ∧ fdo_shares frost !! i = Some share ∧ fragments !! i = Some fragment
    ∧ uval (grc3_fragment_index c) = (N.of_nat i + 1)%N
    ∧ open_guardian_contribution_v3 c answer.1 descriptor capsule request a
      = Ok (share, fragment).
Proof.
  destruct answer as [route answer]. intros Href (record & seed & digest & t & Hri & Hrec & Hseed
    & Hdig & Ht & ->). simpl in Hri. cbn [fst snd].
  pose proof capsule_policy_body as Hbody. rewrite capsule_ref in Href.
  destruct Hsetup as (_ & Hr & _ & Hm & Hrecs & _ & _ & _ & _ & _).
  destruct Hm as (fseed & dek & ctx & entries & hashes & proofs & Hfrost & _ & _ & _ & _ & _ & Hel & Hent
    & Hhash & Htree & Hgm & He & _).
  destruct (Hent i route Hri) as ([rec leaf] & authorization & share & fragment & Hei & Ha & Hs & Hf & Hh).
  rewrite try_barr_bytes_of in Ha. injection Ha as <-.
  destruct Hh as (fi & body & k & c & k' & c' & Hfi & Hb & Hk & Hc & Hopen & Hk' & Hc' & Hopen'
    & Hgi & Hgf & Hleaf).
  rewrite Hrecs, Hgm in Hrec. apply lookup_zip_with_Some in Hrec as (rec' & proof & -> & Hrec' & Hproof).
  apply list_lookup_fmap_Some in Hrec' as ([r l] & -> & Hri'). rewrite Hei in Hri'.
  injection Hri' as <- <-. cbn [fst] in Ht |- *.
  set (record := GuardianRuntime.committed_record rec (gm_material_root material) proof) in *.
  exists (GuardianRecovery.contribution request digest record (sign (signing_key seed) t)), share, fragment.
  split_and!; [done | done | done | simpl; rewrite Hgf; by apply try_u16_Some |].
  assert (Hseed' : gr3_guardian_public_key route = verifying_key_bytes (signing_key seed)).
  { destruct (proj2 Hr i route Hri) as (seed' & Hs' & _ & ->). congruence. }
  destruct (proj2 Hr i route Hri) as (_ & _ & Hidx & _).
  assert (Hle : ∃ hash, prepared_leaf_hash leaf = Ok hash ∧ hashes !! i = Some hash).
  { apply collect_Ok in Hhash.
    destruct (Forall2_lookup_l _ _ _ i leaf Hhash) as (hash & Hi & Hp);
      [by rewrite list_lookup_fmap, Hei |]. by exists hash. }
  destruct Hle as (hash & (lt & Hlt%wire_Ok & <-)%fmap_Ok & Hhi).
  assert (Hlen : length hashes = length (s3b_guardian_routes bundle)).
  { apply collect_Ok in Hhash. by rewrite <- (Forall2_length Hhash), length_fmap. }
  pose proof (merkle_correct _ _ _ _ _ _ Htree Hhi Hproof) as Hmv.
  unfold open_guardian_contribution_v3, descriptor. rewrite He.
  cbn [rd3_guardians rd3_guardian_material_root rd3_dpss_public_package].
  cbn [GuardianRecovery.contribution grc3_config_ref grc3_request_id grc3_request_digest
    grc3_recovery_recipient_key grc3_nonce grc3_guardian_index grc3_fragment_index
    grc3_encrypted_ciphertext_fragment grc3_encrypted_dek_share grc3_merkle_path_proof
    grc3_guardian_signature].
  change (grec3_guardian_index record) with (grec3_guardian_index rec).
  change (grec3_fragment_index record) with (grec3_fragment_index rec).
  rewrite !(proj2 (neb_false _ _)) by done. cbn [orb]. rewrite Hdig. cbn [mbind Result_bind].
  rewrite !(proj2 (neb_false _ _)) by done. cbn [orb].
  change (guardian_recovery_contribution_v3 (GuardianRecovery.contribution request digest record
    (sign (signing_key seed) t)))
    with (guardian_recovery_contribution_v3 (GuardianRecovery.contribution request digest record [])).
  rewrite Ht. cbn [wire map_err mbind Result_bind].
  rewrite Hseed', sign_correct. cbn [crypto map_err mbind Result_bind].
  rewrite Hbody, Hb. cbn [wire crypto map_err mbind Result_bind].
  rewrite Hgi, (routes_find _ _ _ _ Hr Hri). cbn [ok_or mbind Result_bind].
  unfold contribution_leaf. cbn [grc3_guardian_index grc3_fragment_index grc3_encrypted_dek_share
    grc3_encrypted_ciphertext_fragment GuardianRecovery.contribution].
  change (grec3_guardian_index record) with (grec3_guardian_index rec).
  change (grec3_fragment_index record) with (grec3_fragment_index rec).
  rewrite Hgi, Hgf. rewrite Hleaf in Hlt.
  change (grec3_encrypted_dek_share record) with (grec3_encrypted_dek_share rec).
  change (grec3_encrypted_ciphertext_fragment record) with (grec3_encrypted_ciphertext_fragment rec).
  rewrite Hlt. cbn [wire map_err mbind Result_bind].
  change (grec3_merkle_path_proof record) with proof.
  assert (Hn : len (s3b_guardian_routes bundle) = len hashes) by (unfold len; lia).
  rewrite Hn, Hmv. cbn [crypto map_err mbind Result_bind].
  rewrite Href, Hk, Hc. cbn [wire crypto map_err mbind Result_bind].
  rewrite Hopen. cbn [wire crypto map_err mbind Result_bind].
  rewrite (dealt_share_verifies _ _ _ _ _ _ Hfrost Hs). cbn [crypto map_err mbind Result_bind].
  rewrite (proj2 (neb_false _ _)); [| apply uint_eq; rewrite Hidx].
  - rewrite Hk', Hc'. cbn [wire crypto map_err mbind Result_bind]. by rewrite Hopen'.
  - apply number_below. apply dealer_split_Ok in Hfrost as (? & ? & dealt & _ & Hn32 & _ & Hdl & _ & HE & _).
    apply Forall2_length in HE. apply lookup_lt_Some in Hs. lia.
Qed.

(** The signers' shares open the descriptor. *)
Lemma descriptor_opens begin recipient shares :
  collect (open_authorization_share recipient (brc3_request begin))
    (brc3_signer_contributions begin) = Ok shares →
  NoDup shares → shares ⊆ s3b_authorization_shares bundle →
  (s3_signer_threshold options <= len shares)%N →
  open_descriptor_v3 begin capsule recipient = Ok (bytes_of a, descriptor).
Proof.
  intros Hc Hnd Hsub Hlen. pose proof descriptor_validates as Hval.
  pose proof Hsetup as ((seed & (Hs & Ht & Hn & Hd)%split_secret_Ok) & _ & _ & Hm & _ & Hth & _ & _ & _
    & (d & h & Hcap & key & ctx & plain & Hkey & Hctx & Hvec & Hopen)).
  unfold open_descriptor_v3. rewrite Hc. cbn [mbind Result_bind].
  rewrite Hd in Hsub.
  assert (Hct : cap3_signer_threshold capsule = s3_signer_threshold options)
    by (unfold capsule; by rewrite Hcap).
  rewrite Hct, (recover_chosen _ _ _ _ _ Hs Ht Hn Hnd Hsub), (proj2 (N.ltb_ge _ _)) by done.
  cbn [crypto map_err mbind Result_bind]. rewrite try_barr_bytes_of, capsule_ref.
  cbn [ok_or mbind Result_bind]. rewrite Hkey. cbn [crypto map_err mbind Result_bind].
  rewrite Hctx. cbn [wire map_err mbind Result_bind].
  assert (Hce : cap3_encrypted_recovery_descriptor capsule = d) by (unfold capsule; by rewrite Hcap).
  rewrite Hce, Hopen. cbn [crypto map_err mbind Result_bind].
  rewrite (descriptor_v3_round_trip _ _ Hvec). cbn [ok_or mbind Result_bind].
  fold descriptor. by rewrite Hval.
Qed.

Definition labelled (share : list byte) : EpochFrostShare :=
  {| efs_config_ref := cap3_config_ref capsule; efs_encoded_share := share |}.

(** Contributions are all accepted, in order. *)
Lemma contributions_accepted request positions answers m :
  rr3_config_ref request = cap3_config_ref capsule →
  Forall2 (contributes bundle request) positions answers →
  ∃ shares labels,
    Forall2 (λ i share, fdo_shares frost !! i = Some share) positions shares
    ∧ Forall2 (λ i label, uval label.1 = (N.of_nat i + 1)%N ∧ fragments !! i = Some label.2)
        positions labels
    ∧ accept_all descriptor capsule request (bytes_of a) answers m
      = Ok (mkMaterial (mat_shares m ++ (labelled <$> shares)) (mat_fragments m ++ labels)
              (mat_rejected m)).
Proof.
  intros Href HF. revert m. induction HF as [|i answer positions answers Hi HF IH]; intros m.
  - exists [], []. split_and!; [constructor | constructor |]. cbn [accept_all fmap list_fmap].
    rewrite !app_nil_r. by destruct m.
  - destruct (contribution_opens request i answer Href Hi) as (c & share & fragment & Hc & Hs & Hf & Hl & Hopen).
    destruct answer as [route answer]. cbn [fst snd] in *. subst answer.
    destruct (IH (mkMaterial (mat_shares m ++ [labelled share])
      (mat_fragments m ++ [(grc3_fragment_index c, fragment)]) (mat_rejected m)))
      as (shares & labels & HS & HL & Hacc).
    exists (share :: shares), ((grc3_fragment_index c, fragment) :: labels).
    split_and!; [by constructor | by constructor |]. cbn [accept_all accept_material].
    rewrite try_barr_bytes_of. cbn [ok_or mbind Result_bind]. rewrite Hopen.
    cbn [mbind Result_bind]. etrans; [exact Hacc |]. cbn [mat_shares mat_fragments mat_rejected].
    rewrite fmap_cons, <- !app_assoc. done.
Qed.

Lemma material_reassembles positions shares labels rejected :
  NoDup positions → (s3_guardian_threshold options <= len positions)%N →
  Forall2 (λ i share, fdo_shares frost !! i = Some share) positions shares →
  Forall2 (λ i label, uval label.1 = (N.of_nat i + 1)%N ∧ fragments !! i = Some label.2)
    positions labels →
  reassemble capsule descriptor (mkMaterial (labelled <$> shares) labels rejected)
    = Ok (s3_secret options).
Proof.
  intros Hnd Hlen HS HL. pose proof capsule_ref as Href.
  destruct Hsetup as (_ & _ & _ & Hm & _ & _ & _ & _ & _ & (d & h & Hcap & _)).
  assert (Hth : cap3_guardian_threshold capsule = s3_guardian_threshold options)
    by (unfold capsule; by rewrite Hcap).
  destruct Hm as (fseed & dek & ctx & entries & hashes & proofs & Hfrost & Hdek & Hctx & Hopen & Henc
    & _ & _ & _ & _ & _ & _ & He & Hu).
  unfold reassemble. cbn [mat_shares mat_fragments]. rewrite Hth.
  assert (Hshares : NoDup shares ∧ shares ⊆ fdo_shares frost).
  { split.
    - apply NoDup_alt. intros i j share Hi Hj.
      destruct (Forall2_lookup_r _ _ _ _ _ HS Hi) as (p & Hp & Hsp).
      destruct (Forall2_lookup_r _ _ _ _ _ HS Hj) as (q & Hq & Hsq).
      eapply NoDup_lookup; [exact Hnd | exact Hp |]. rewrite Hq. f_equal.
      by eapply (dealt_share_distinct _ _ _ _ q p).
    - intros share [i Hi]%list_elem_of_lookup.
      destruct (Forall2_lookup_r _ _ _ _ _ HS Hi) as (p & _ & Hsp). by eapply list_elem_of_lookup_2. }
  destruct Hshares as [Hsn Hss]. unfold frost_recover_dek_for_epoch.
  rewrite (proj2 (existsb_false _ _)).
  2: { intros share (s & -> & _)%list_elem_of_fmap. by apply neb_false. }
  rewrite <- list_fmap_compose. change (efs_encoded_share ∘ labelled) with (λ s : list byte, s).
  rewrite list_fmap_id, (frost_split_recover _ _ _ _ _ Hfrost Hsn Hss).
  assert (Hls : len shares = len positions) by (unfold len; by rewrite (Forall2_length HS)).
  rewrite Hls, (proj2 (N.ltb_ge _ _)) by done. cbn [crypto map_err mbind Result_bind].
  assert (Hfrom : fragments_from fragments labels).
  { split.
    - apply NoDup_alt. intros i j x (l & -> & Hi)%list_lookup_fmap_Some
        (l' & E & Hj)%list_lookup_fmap_Some.
      destruct (Forall2_lookup_r _ _ _ _ _ HL Hi) as (p & Hp & Hlp & _).
      destruct (Forall2_lookup_r _ _ _ _ _ HL Hj) as (q & Hq & Hlq & _).
      eapply NoDup_lookup; [exact Hnd | exact Hp |]. rewrite Hq. f_equal.
      rewrite E in Hlp. lia.
    - intros index fragment [i Hi]%list_elem_of_lookup.
      destruct (Forall2_lookup_r _ _ _ _ _ HL Hi) as (p & _ & Hlp & Hfp). simpl in *.
      split; [lia |]. by replace (N.to_nat (index - 1)) with p by lia. }
  unfold descriptor. rewrite He. cbn [rd3_data_shards rd3_total_shards rd3_ciphertext_len rd3_payload_nonce].
  rewrite Hu, (reconstruct_data _ _ _ _ _ Henc Hfrom).
  assert (Hll : len labels = len positions) by (unfold len; by rewrite (Forall2_length HL)).
  rewrite Hll, (proj2 (N.ltb_ge _ _)) by done. cbn [crypto map_err mbind Result_bind].
  rewrite Hdek, Href. cbn [ok_or mbind Result_bind]. rewrite Hctx.
  cbn [wire map_err mbind Result_bind]. destruct payload as [nonce ciphertext]. simpl.
  simpl in Hopen. by rewrite Hopen.
Qed.

End opened.

(** C4 (roundtrip): from what [create_setup_v3] has dealt, any signer threshold of
    distinct authorization shares opens the private descriptor on the client,
    and the contributions of any guardian threshold of distinct guardians, as
    the guardian runtime signs them, are all accepted and put together to
    exactly the owner's secret. *)
Theorem setup_v3_recovers options (signer_count guardian_count : u16) relay_bases guardian_infos
    witness_infos rng bundle rng' begin recipient shares positions answers :
  length guardian_infos = N.to_nat guardian_count →
  create_setup_v3 options signer_count guardian_count relay_bases guardian_infos witness_infos rng
    = (Ok bundle, rng') →
  rr3_config_ref (brc3_request begin) = cap3_config_ref (s3b_capsule bundle) →
  collect (open_authorization_share recipient (brc3_request begin))
    (brc3_signer_contributions begin) = Ok shares →
  NoDup shares → shares ⊆ s3b_authorization_shares bundle →
  (s3_signer_threshold options <= len shares)%N →
  Forall2 (contributes bundle (brc3_request begin)) positions answers → NoDup positions →
  (s3_guardian_threshold options <= len positions)%N →
  ∃ authorization_key descriptor material,
    open_descriptor_v3 begin (s3b_capsule bundle) recipient = Ok (authorization_key, descriptor)
    ∧ accept_all descriptor (s3b_capsule bundle) (brc3_request begin) authorization_key answers
        no_material = Ok material
    ∧ len (mat_shares material) = len positions ∧ mat_rejected material = []
    ∧ reassemble (s3b_capsule bundle) descriptor material = Ok (s3_secret options).
Proof.
  intros Hi H Href Hc Hnd Hsub Hlen HF Hpos Hthr.
  apply create_setup_Ok in H as (a & policy & frost & payload & fragments & material & Hs); [| done].
  destruct (contributions_accepted _ _ _ _ _ _ _ _ _ _ Hs _ _ _ no_material Href HF)
    as (dealt & labels & HS & HL & Hacc).
  exists (bytes_of a), (gm_descriptor material). eexists. split_and!.
  - by apply (descriptor_opens _ _ _ _ _ _ _ _ _ _ Hs _ _ shares).
  - exact Hacc.
  - simpl. unfold len. by rewrite length_fmap, (Forall2_length HS).
  - done.
  - by apply (material_reassembles _ _ _ _ _ _ _ _ _ _ Hs positions).
Qed.

End setup.

(** ** Witnesses *)

Section example.
Import ClientScenario.

Lemma ex_contributes :
  Forall2 (contributes bundle request) [1; 0]
    (zip (reverse (s3b_guardian_routes bundle))
       [Ok (default (GvRefused "") (guardian_2 !! 1)); Ok (default (GvRefused "") (guardian_1 !! 1))]).
Proof.
  repeat constructor; eexists _, _, _, _; (split; [vm_compute; reflexivity |]);
    (split; [vm_compute; reflexivity |]); (split; [vm_compute; reflexivity |]);
    (split; [vm_compute; reflexivity |]); (split; [vm_compute; reflexivity |]);
    vm_compute; reflexivity.
Qed.

Lemma setup_v3_recovers_witness :
  ∃ authorization_key descriptor material,
    open_descriptor_v3 begin (s3b_capsule bundle) recipient = Ok (authorization_key, descriptor)
    ∧ accept_all descriptor (s3b_capsule bundle) (brc3_request begin) authorization_key
        (zip (reverse (s3b_guardian_routes bundle))
           [Ok (default (GvRefused "") (guardian_2 !! 1));
            Ok (default (GvRefused "") (guardian_1 !! 1))])
        no_material = Ok material
    ∧ len (mat_shares material) = 2%N ∧ mat_rejected material = []
    ∧ reassemble (s3b_capsule bundle) descriptor material = Ok (as_bytes "correct horse").
Proof.
  refine (setup_v3_recovers options (U16 3) (U16 2) _ guardian_infos witness_infos _ bundle _ begin
    recipient (take 2 (s3b_authorization_shares bundle)) [1; 0] _ eq_refl
    (setup_made messages eq_refl) eq_refl _ _ _ _ ex_contributes _ _).
  - vm_compute. reflexivity.
  - apply (bool_decide_unpack _). vm_compute. reflexivity.
  - intros x Hx. by eapply elem_of_take in Hx as (i & Hi & _); eapply list_elem_of_lookup_2.
  - by vm_compute.
  - apply (bool_decide_unpack _). vm_compute. reflexivity.
  - by vm_compute.
Defined.

End example.
End SetupRecovery.
