(* ===== verification/ClientProps.v ===== *)
(** What the clients' loops gather and what their results rest on. *)

From S2P Require Export SetupRecovery RotationProps EpochReads.
From S2P Require Import ClientScenario.

(** ** Sets of listed values *)

Lemma size_list_to_set_le (l : list u16) : size (list_to_set l : gset u16) ≤ length l.
Proof.
  induction l as [|x l IH]; [done |]. rewrite list_to_set_cons. cbn [length].
  pose proof (size_union_alt {[x]} (list_to_set l : gset u16)) as E.
  assert (list_to_set l ∖ {[x]} ⊆ (list_to_set l : gset u16)) as Hs%subseteq_size by set_solver.
  rewrite size_singleton in E. lia.
Qed.

Lemma size_NoDup (l : list u16) :
  size (list_to_set l : gset u16) = length l → NoDup l.
Proof.
  induction l as [|x l IH]; [constructor |]. rewrite list_to_set_cons. cbn [length]. intros H.
  pose proof (size_list_to_set_le l) as Hle. constructor.
  - intros Hx. assert (({[x]} ∪ list_to_set l : gset u16) = list_to_set l) as E by set_solver.
    rewrite E in H. lia.
  - apply IH. pose proof (size_union_alt {[x]} (list_to_set l : gset u16)) as E.
    assert (list_to_set l ∖ {[x]} ⊆ (list_to_set l : gset u16)) as Hs%subseteq_size by set_solver.
    rewrite size_singleton in E. lia.
Qed.

(** ** Successful steps of a client *)

Section steps.
Context `{Protocol : ProtocolPrimitives} `{World : Network}.

Lemma try_Ok {E A} (r : Result Error A) (s : E * Rng) a s' :
  try r s = (Ok a, s') ↔ r = Ok a ∧ s' = s.
Proof. apply lift_Ok. Qed.

Lemma bail_if_Ok {E} c message (s : E * Rng) u s' :
  bail_if c message s = (Ok u, s') ↔ c = false ∧ s' = s.
Proof. unfold bail_if. by rewrite try_Ok, fail_if_Ok. Qed.

Lemma present_Ok {E A} (o : option A) message (s : E * Rng) a s' :
  RuntimeTypes.present o message s = (Ok a, s') ↔ o = Some a ∧ s' = s.
Proof. unfold RuntimeTypes.present. by rewrite try_Ok, ok_or_Ok. Qed.

(** An attempt goes on unless the code panicked. *)
Lemma attempt_Ok {A} (m : Client A) s r s' :
  attempt m s = (Ok r, s') ↔ m s = (r, s') ∧ r ≠ Err EPanic.
Proof.
  unfold attempt. destruct (m s) as [[a | e] s1]; [| destruct e]; split;
    try (intros [= <- <-]; split; [done | congruence]);
    try (by intros [[= <- <-] ?]); try done.
Qed.

(** The answers that a loop over targets has had before it stopped. *)
Lemma collect_until_Ok {T R V} threshold (ask : T → Client R)
    (keep : T → Result Error R → list V → list V) targets kept s kept' s' :
  collect_until threshold ask keep targets kept s = (Ok kept', s') →
  ∃ asked rest answers, targets = asked ++ rest ∧ length answers = length asked
    ∧ kept' = foldl (λ kept ta, keep ta.1 ta.2 kept) kept (zip asked answers)
    ∧ (rest = [] ∨ (threshold <= len kept')%N).
Proof.
  revert kept s. induction targets as [|t targets IH]; intros kept s H; cbn [collect_until] in H.
  - injection H as <- <-. exists [], [], []. split_and!; [done.. | by left].
  - apply SR_bind_Ok in H as (answer & s1 & _ & H). cbv zeta in H.
    destruct (N.leb_spec threshold (len (keep t answer kept))) as [Hle | _].
    + injection H as <- <-. exists [t], targets, [answer]. split_and!; [done.. | by right].
    + apply IH in H as (asked & rest & answers & -> & Hl & Hk & Hr).
      exists (t :: asked), rest, (answer :: answers). split_and!; [done | simpl; lia | done | done].
Qed.

End steps.

(** [runs m s a s']: started in the state [s] of the world and the generator, [m]
    answers [a] and ends in [s']. *)
Definition runs {S E A} (m : SR S E A) (s : S) (a : A) (s' : S) : Prop := m s = (Ok a, s').

(** [runs_to H x s Hx]: the next step of the run [H] answers [x] and ends in [s]. *)
Ltac runs_to H x s Hx := apply SR_bind_Ok in H as (x & s & Hx & H).

(** [steps_to H x Hx]: the next step of the run [H] answers [x], as [Hx] says. *)
Ltac steps_to H x Hx :=
  apply SR_bind_Ok in H as (x & ? & Hx & H);
  lazymatch type of Hx with
  | try _ _ = _ => apply try_Ok in Hx as [Hx ->]
  | bail_if _ _ _ = _ => apply bail_if_Ok in Hx as [Hx ->]
  | RuntimeTypes.present _ _ _ = _ => apply present_Ok in Hx as [Hx ->]
  | _ => idtac
  end.

Module ClientProps.
Export SetupRecovery.

Section client.
Context `{Prims : Primitives} `{Sharing : SharingPrimitives} `{Frost : FrostPrimitives}.
Context `{Protocol : ProtocolPrimitives} `{World : Network} `{Json : ClientPrimitives}.

(** ** Guardian contributions *)

(** A contribution of the guardian on [route]: it repeats the request, is
    signed by the guardian, shows a record of the committed tree, and opens to
    a FROST share of that guardian and a fragment. *)
Definition contribution_ok (contribution : GuardianRecoveryContributionV3)
    (route : GuardianRouteV3) (descriptor : RecoveryDescriptorV3) (capsule : ConfigCapsuleV3)
    (request : RecoveryRequestV3) (authorization_key : barr 32) (share fragment : list byte) :
    Prop :=
  let index := gr3_guardian_index route in
  recovery_request_digest_v3 request = Ok (grc3_request_digest contribution)
  ∧ grc3_config_ref contribution = rr3_config_ref request
  ∧ grc3_request_id contribution = rr3_request_id request
  ∧ grc3_recovery_recipient_key contribution = rr3_recovery_recipient_key request
  ∧ grc3_nonce contribution = rr3_nonce request
  ∧ grc3_guardian_index contribution = index
  ∧ signed (gr3_guardian_public_key route) (guardian_recovery_contribution_v3 contribution)
      (grc3_guardian_signature contribution)
  ∧ (∃ body leaf position candidate, guardian_policy_body_v3 (policy_of_capsule capsule) = Ok body
      ∧ prepared_record_leaf_v3 (contribution_leaf contribution route (sha256 body)) = Ok leaf
      ∧ list_find (λ candidate, gr3_guardian_index candidate = index) (rd3_guardians descriptor)
        = Some (position, candidate)
      ∧ merkle_verify (rd3_guardian_material_root descriptor) (sha256 leaf) (N.of_nat position)
          (len (rd3_guardians descriptor)) (grc3_merkle_path_proof contribution) = Ok ())
  ∧ (∃ key context, guardian_share_key_v3 authorization_key (rr3_config_ref request) index = Ok key
      ∧ guardian_share_context_v3 (rr3_config_ref request) index = Ok context
      ∧ aead_decrypt key (grc3_encrypted_dek_share contribution) context = Ok share)
  ∧ frost_verify_share share (rd3_dpss_public_package descriptor) = Ok index
  ∧ (∃ key context, guardian_fragment_key_v3 authorization_key (rr3_config_ref request) index
        = Ok key
      ∧ guardian_fragment_context_v3 (rr3_config_ref request) index
          (grc3_fragment_index contribution) = Ok context
      ∧ aead_decrypt key (grc3_encrypted_ciphertext_fragment contribution) context
        = Ok fragment).

Lemma open_contribution_Ok contribution route descriptor capsule request authorization_key share
    fragment :
  open_guardian_contribution_v3 contribution route descriptor capsule request authorization_key
    = Ok (share, fragment) ↔
  contribution_ok contribution route descriptor capsule request authorization_key share fragment.
Proof.
  unfold open_guardian_contribution_v3, contribution_ok. cbv zeta.
  rewrite guard_Ok, orb_false_iff, !neb_false, bind_Ok. split.
  - intros ((Er & Ei) & digest & Hd & H).
    rewrite guard_Ok, !orb_false_iff, !neb_false in H. destruct H as ((((Eg & Ek) & En) & Ex) & H).
    rewrite Ex in H.
    apply bind_Ok in H as (t & Ht%wire_Ok & H). apply bind_Ok in H as ([] & Hv%crypto_Ok & H).
    apply bind_Ok in H as (body & Hb%wire_Ok & H).
    apply bind_Ok in H as ([position candidate] & Hf%ok_or_Ok & H).
    apply bind_Ok in H as (leaf & Hl%wire_Ok & H). apply bind_Ok in H as ([] & Hm%crypto_Ok & H).
    apply bind_Ok in H as (key & Hk%crypto_Ok & H). apply bind_Ok in H as (ctx & Hc%wire_Ok & H).
    apply bind_Ok in H as (s & Hs%crypto_Ok & H). apply bind_Ok in H as (p & Hp%crypto_Ok & H).
    rewrite guard_Ok, neb_false in H. destruct H as (Epi & H).
    apply bind_Ok in H as (key' & Hk'%crypto_Ok & H).
    apply bind_Ok in H as (ctx' & Hc'%wire_Ok & H).
    apply bind_Ok in H as (f & Hf'%crypto_Ok & [= <- <-]). subst p.
    split_and!; try done; [by rewrite Hd, Eg | by exists t | by exists body, leaf, position, candidate
      | by exists key, ctx | by exists key', ctx'].
  - intros (Hd & Er & Ei & Ek & En & Ex & (t & Ht & Hv) & (body & leaf & position & candidate & Hb & Hl
      & Hf & Hm) & (key & ctx & Hk & Hc & Hs) & Hp & (key' & ctx' & Hk' & Hc' & Hf')).
    split; [done |]. exists (grc3_request_digest contribution). split; [done |].
    rewrite guard_Ok, !orb_false_iff, !neb_false. split; [done |].
    rewrite Ht. cbn [wire map_err mbind Result_bind]. rewrite Hv.
    cbn [crypto map_err mbind Result_bind]. rewrite Hb. cbn [wire map_err mbind Result_bind].
    rewrite Ex, Hf. cbn [ok_or mbind Result_bind]. rewrite Hl. cbn [wire map_err mbind Result_bind].
    rewrite Hm. cbn [crypto map_err mbind Result_bind]. rewrite Hk, Hc.
    cbn [crypto wire map_err mbind Result_bind]. rewrite Hs. cbn [crypto map_err mbind Result_bind].
    rewrite Hp. cbn [crypto map_err mbind Result_bind].
    rewrite (proj2 (neb_false _ _)) by done. rewrite Hk', Hc'.
    cbn [crypto wire map_err mbind Result_bind]. by rewrite Hf'.
Qed.

(** ** The guardians' loop *)

(** An accepted answer: who gave it, the contribution, and what it opened to. *)
Record Accepted : Set := mkAccepted {
  acc_route : GuardianRouteV3;
  acc_contribution : GuardianRecoveryContributionV3;
  acc_share : list byte;
  acc_fragment : list byte
}.
Definition accepted_share (capsule : ConfigCapsuleV3) (x : Accepted) : EpochFrostShare :=
  {| efs_config_ref := cap3_config_ref capsule; efs_encoded_share := acc_share x |}.
Definition accepted_fragment (x : Accepted) : u16 * list byte :=
  (grc3_fragment_index (acc_contribution x), acc_fragment x).

Lemma accept_all_Ok descriptor capsule request authorization_key key answers m m' :
  try_barr 32 authorization_key = Some key →
  accept_all descriptor capsule request authorization_key answers m = Ok m' →
  ∃ accepted rejected, mat_shares m' = mat_shares m ++ (accepted_share capsule <$> accepted)
    ∧ mat_fragments m' = mat_fragments m ++ (accepted_fragment <$> accepted)
    ∧ mat_rejected m' = mat_rejected m ++ rejected
    ∧ length accepted + length rejected = length answers
    ∧ (acc_route <$> accepted) `sublist_of` answers.*1
    ∧ (∀ x, x ∈ accepted → contribution_ok (acc_contribution x) (acc_route x) descriptor capsule
        request key (acc_share x) (acc_fragment x)).
Proof.
  intros Hkey. revert m. induction answers as [|[route answer] answers IH]; intros m H.
  - injection H as <-. exists [], []. rewrite !app_nil_r. split_and!; [done.. | constructor |].
    by intros x ?%elem_of_nil.
  - cbn [accept_all] in H. apply bind_Ok in H as (m1 & H1 & H).
    assert (Hcase : (∃ x, acc_route x = route
        ∧ contribution_ok (acc_contribution x) route descriptor capsule request key (acc_share x)
            (acc_fragment x)
        ∧ m1 = mkMaterial (mat_shares m ++ [accepted_share capsule x])
            (mat_fragments m ++ [accepted_fragment x]) (mat_rejected m))
      ∨ m1 = mkMaterial (mat_shares m) (mat_fragments m)
          (mat_rejected m ++ [gr3_guardian_index route])).
    { unfold accept_material in H1. destruct answer as [[| |c|] |]; try (right; congruence).
      rewrite Hkey in H1. cbn [ok_or mbind Result_bind] in H1.
      destruct (open_guardian_contribution_v3 _ _ _ _ _ _) as [[share fragment] | e] eqn:Eo;
        [| right; congruence].
      left. exists (mkAccepted route c share fragment). injection H1 as <-.
      apply open_contribution_Ok in Eo. done. }
    destruct (IH m1 H) as (accepted & rejected & Hs & Hf & Hr & Hn & Hsub & Hall).
    destruct Hcase as [(x & Hx & Hok & ->) | ->]; cbn [mat_shares mat_fragments mat_rejected] in *.
    + exists (x :: accepted), rejected. rewrite Hs, Hf, Hr, <- !app_assoc. split_and!; [done.. | |
        rewrite !fmap_cons, Hx; by constructor |]; [simpl; lia |].
      intros y [-> | Hy]%elem_of_cons; [by rewrite Hx | by apply Hall].
    + exists accepted, (gr3_guardian_index route :: rejected).
      rewrite Hs, Hf, Hr, <- app_assoc. split_and!; [done.. | simpl; lia | by constructor | done].
Qed.

(** The loop over the guardians takes answers until it has enough shares or
    has asked everyone. *)
Lemma gather_material_answers card descriptor capsule request authorization_key release recipient
    routes m s m' s' :
  gather_material card descriptor capsule request authorization_key release recipient routes m s
    = (Ok m', s') →
  ∃ answers rest, routes = answers.*1 ++ rest
    ∧ accept_all descriptor capsule request authorization_key answers m = Ok m'
    ∧ (rest = [] ∨ (cap3_guardian_threshold capsule <= len (mat_shares m'))%N).
Proof.
  revert m s. induction routes as [|route routes IH]; intros m s H; cbn [gather_material] in H.
  - injection H as <- <-. exists [], []. split_and!; [done.. | by left].
  - steps_to H answer Ha. steps_to H m1 Hm.
    destruct (N.leb_spec (cap3_guardian_threshold capsule) (len (mat_shares m1))) as [Hle | _].
    + injection H as <- <-. exists [(route, answer)], routes. cbn [accept_all]. rewrite Hm.
      split_and!; [done.. | by right].
    + apply IH in H as (answers & rest & -> & Hacc & Hr).
      exists ((route, answer) :: answers), rest. cbn [accept_all]. rewrite Hm.
      split_and!; [done.. | exact Hr].
Qed.

(** ** The whole recovery *)

Lemma open_descriptor_Ok begin capsule recipient authorization_key descriptor :
  open_descriptor_v3 begin capsule recipient = Ok (authorization_key, descriptor) →
  (∃ key, try_barr 32 authorization_key = Some key)
  ∧ validate_recovery_descriptor_v3 descriptor capsule = Ok ().
Proof.
  intros H. apply bind_Ok in H as (shares & _ & H).
  apply bind_Ok in H as (ak & _ & H). apply bind_Ok in H as (key & Hk%ok_or_Ok & H).
  apply bind_Ok in H as (dk & _ & H). apply bind_Ok in H as (ctx & _ & H).
  apply bind_Ok in H as (plain & _ & H). apply bind_Ok in H as (d & _ & H).
  apply bind_Ok in H as ([] & Hv & [= <- <-]). split; [by exists key | done].
Qed.

(** The descriptor lists distinct guardians, as many as the capsule says. *)
Lemma descriptor_guardians descriptor capsule :
  validate_recovery_descriptor_v3 descriptor capsule = Ok () →
  NoDup (gr3_guardian_index <$> rd3_guardians descriptor)
  ∧ len (rd3_guardians descriptor) = cap3_guardian_count capsule
  ∧ rd3_guardian_material_root descriptor = cap3_guardian_material_root capsule
  ∧ frost_public_package_digest (rd3_dpss_public_package descriptor)
    = Ok (cap3_dpss_public_commitment capsule).
Proof.
  unfold validate_recovery_descriptor_v3. rewrite guard_Ok, !orb_false_iff, !neb_false, bind_Ok.
  intros (((((((( _ & Hroot) & _) & _) & Hn) & Hsz) & _) & _) & digest & Hd%crypto_Ok & Hf%fail_if_Ok).
  rewrite neb_false in Hf. subst digest. split_and!; [| done..].
  apply size_NoDup. by rewrite length_fmap.
Qed.

Lemma read_latest_Ok card recipient s capsule challenge reads s' :
  read_latest_epoch_v3 card recipient s = (Ok (capsule, challenge, reads), s') →
  select_latest_epoch_v3 card challenge reads = Ok capsule
  ∧ erc_config_id challenge = card3_config_id card
  ∧ erc_response_recipient_key challenge = rkp_public recipient.
Proof.
  intros H. unfold read_latest_epoch_v3 in H. steps_to H u Hu. steps_to H now Hnow.
  steps_to H nonce Hnonce. cbv zeta in H. steps_to H envelopes He. steps_to H selected Hs.
  injection H as <- <- <- <-. done.
Qed.

(** C3 (functional): a recovery that reports a secret has checked all it rests on.
    It read the card at the path of its options, drew its own recipient key,
    asked the card's witnesses under a challenge of its own for that key, and
    drew the id and the nonce of its request; each certificate was checked at
    the time its clock showed after the votes came in.  Whatever the network
    answered: the capsule is activated under that card and the freshest of a
    witness quorum for that challenge; that one request was begun and released
    by signer quorums of that capsule; a guardian threshold of distinct
    guardians of the descriptor, which its key opened and which was validated,
    answered in this run with contributions to this request that they signed,
    with records of the committed tree that open to their shares and fragments;
    and the secret is what these give.  The other guardians asked are reported as rejected. *)
Theorem recover_v3_sound options s result s' :
  recover_v3 options s = (Ok result, s') →
  ∃ card s1 seed s2 capsule challenge reads s3 now0 s4 request_id s5 nonce s6 s7,
  let recipient := RecipientKeyPair_from_seed seed in
  let request := recovery_request_v3 capsule recipient request_id nonce now0 in
    runs (exchange EIo (read_card_v3 (rv3_card_path options))) s card s1
    ∧ runs (draw random_id) s1 seed s2
    ∧ runs (read_latest_epoch_v3 card recipient) s2 (capsule, challenge, reads) s3
    ∧ runs ClientNet.wall_now s3 now0 s4
    ∧ runs (draw random_id) s4 request_id s5 ∧ runs (draw random_id) s5 nonce s6
    ∧ runs (write_if_asked (rv3_request_out_path options) (DocRequestV3 request)) s6 () s7
    ∧ erc_config_id challenge = card3_config_id card
    ∧ erc_response_recipient_key challenge = rkp_public recipient
    ∧ activated card capsule
    ∧ (∃ answers, answers `sublist_of` reads ∧ answer_quorum card challenge answers
        ∧ capsule ∈ wre_capsule <$> answers
        ∧ ∀ a, a ∈ answers → (epoch_of (wre_capsule a) ≤ epoch_of capsule)%N)
    ∧ ∃ begin s8 now s9 count s10 release s11 now' s12 digest key authorization_key
        descriptor accepted rejected s13 plaintext,
      runs (gather_approvals card capsule recipient (RecApprove request challenge reads)) s7
        (brc3_signer_contributions begin) s8
      ∧ runs ClientNet.wall_now s8 now s9
      ∧ brc3_request begin = request
      ∧ begin_recovery_ok begin capsule now digest
      ∧ runs (count_begins card recipient begin (rd3_guardians descriptor) 0) s9 count s10
      ∧ (cap3_guardian_threshold capsule <= count)%N
      ∧ runs (_ ← sleep (sat_add (cap3_minimum_recovery_delay capsule) (U64 1));
              gather_release_votes card capsule recipient request) s10 (rrc3_votes release) s11
      ∧ runs ClientNet.wall_now s11 now' s12
      ∧ rrc3_request release = request
      ∧ release_recovery_ok release capsule (cap3_config_ref capsule) now' digest
      ∧ open_descriptor_v3 begin capsule recipient = Ok (authorization_key, descriptor)
      ∧ validate_recovery_descriptor_v3 descriptor capsule = Ok ()
      ∧ try_barr 32 authorization_key = Some key
      ∧ runs (gather_material card descriptor capsule request authorization_key release recipient
          (rd3_guardians descriptor) no_material) s12
          (mkMaterial (accepted_share capsule <$> accepted) (accepted_fragment <$> accepted)
            rejected) s13
      ∧ NoDup (gr3_guardian_index ∘ acc_route <$> accepted)
      ∧ (cap3_guardian_threshold capsule <= len accepted)%N
      ∧ (∀ x, x ∈ accepted → acc_route x ∈ rd3_guardians descriptor
          ∧ contribution_ok (acc_contribution x) (acc_route x) descriptor capsule
              request key (acc_share x) (acc_fragment x))
      ∧ reassemble capsule descriptor (mkMaterial (accepted_share capsule <$> accepted)
          (accepted_fragment <$> accepted) rejected) = Ok plaintext
      ∧ runs (write_if_asked (rv3_output_path options) (DocPlaintext plaintext)) s13 () s'
      ∧ ndr_recovered_secret result = Some (from_utf8_lossy plaintext)
      ∧ ndr_guardian_contributions result = len accepted
      ∧ ndr_rejected_guardians result = rejected ∧ ndr_cancelled result = false.
Proof.
  intros H. unfold recover_v3 in H. cbv zeta in H.
  runs_to H card s1 Hcard. runs_to H seed s2 Hseed.
  set (recipient := RecipientKeyPair_from_seed seed) in *.
  apply SR_bind_Ok in H as ([[capsule challenge] reads] & s3 & Hread & H).
  pose proof Hread as (Hsel & Hcid & Hrk)%read_latest_Ok.
  runs_to H now0 s4 Hnow0. runs_to H rid s5 Hrid. runs_to H nonce s6 Hnonce.
  set (request := recovery_request_v3 capsule recipient rid nonce now0) in *.
  apply SR_bind_Ok in H as ([] & s7 & Hw & H). runs_to H approvals s8 Happ.
  steps_to H digest Hdig. runs_to H now s9 Hnow.
  steps_to H d1 Hbegin. set (begin := mkBeginRecoveryCertificateV3 request digest approvals) in *.
  apply SR_bind_Ok in H as ([ak descriptor] & ? & Hopen & H). apply try_Ok in Hopen as [Hopen ->].
  runs_to H count s10 Hcount. steps_to H u1 Hcount'. runs_to H u2 t Hsleep. runs_to H votes s11 Hvotes.
  runs_to H now' s12 Hnow'. steps_to H d2 Hrelease.
  set (release := mkRecoveryReleaseCertificateV3 request digest votes) in *.
  runs_to H material s13 Hmat. steps_to H u3 Hthr. steps_to H plaintext Hplain.
  runs_to H u4 s14 Hw'. destruct u4.
  injection H as <- <-.
  destruct (open_descriptor_Ok _ _ _ _ _ Hopen) as [(key & Hkey) Hval].
  destruct (descriptor_guardians _ _ Hval) as (Hnd & _).
  pose proof Hmat as (answers & rest & Hroutes & Hacc & _)%gather_material_answers.
  destruct (accept_all_Ok _ _ _ _ _ _ _ _ Hkey Hacc)
    as (accepted & rejected & Hs & Hf & Hr & _ & Hsub & Hall). simpl in Hs, Hf, Hr.
  pose proof (select_activated _ _ _ _ Hsel) as Hact.
  apply select_inv in Hsel as (_ & _ & ans & Hans & Hq & Hin & Hmax).
  apply begin_recovery_Ok in Hbegin. apply release_recovery_Ok in Hrelease.
  assert (Hd1 : d1 = digest) by (symmetry; apply Hbegin).
  assert (Hd2 : d2 = digest) by (symmetry; apply Hrelease). subst d1 d2.
  assert (Hsub' : (acc_route <$> accepted) `sublist_of` rd3_guardians descriptor).
  { rewrite Hroutes. by apply sublist_inserts_r. }
  assert (Hlen : len (mat_shares material) = len accepted)
    by (unfold len; by rewrite Hs, length_fmap).
  exists card, s1, seed, s2, capsule, challenge, reads, s3, now0, s4, rid, s5, nonce, s6, s7.
  cbv zeta. fold recipient. fold request. split_and!; try done.
  { exists ans. split_and!; [done.. |]. intros a Ha. by apply Hmax. }
  assert (Hm : material = mkMaterial (accepted_share capsule <$> accepted)
      (accepted_fragment <$> accepted) rejected) by (destruct material; simpl in *; by subst).
  exists begin, s8, now, s9, count, s10, release, s11, now', s12, digest, key, ak, descriptor,
    accepted, rejected, s13, plaintext.
  split_and!; try done.
  - by apply N.ltb_ge in Hcount'.
  - unfold runs. apply SR_bind_Ok. by exists u2, t.
  - by rewrite <- Hm.
  - rewrite list_fmap_compose. eapply sublist_NoDup; [exact Hnd |]. by apply fmap_sublist.
  - rewrite <- Hlen. by apply N.ltb_ge in Hthr.
  - intros y Hy. split; [| by apply Hall].
    eapply elem_of_sublist; [| exact Hsub']. by apply list_elem_of_fmap_2.
  - by rewrite <- Hm.
Qed.

End client.

(** ** Witness *)

Section example.
Import ClientScenario.

Lemma recover_v3_sound_witness :
  ∃ card s1 capsule descriptor accepted rejected plaintext,
    runs (exchange EIo (read_card_v3 (rv3_card_path recovery_options))) (honest, 216%N) card s1
    ∧ activated card capsule
    ∧ reassemble capsule descriptor (mkMaterial (accepted_share capsule <$> accepted)
      (accepted_fragment <$> accepted) rejected) = Ok plaintext
    ∧ from_utf8_lossy plaintext = "correct horse"%string.
Proof.
  assert (H : ∃ result s', recover_v3 recovery_options (honest, 216%N) = (Ok result, s')
    ∧ ndr_recovered_secret result = Some "correct horse"%string)
    by (eexists _, _; split; [vm_compute; reflexivity | reflexivity]).
  destruct H as (result & s' & H & Hsecret).
  destruct (recover_v3_sound _ _ _ _ H)
    as (card & s1 & _ & _ & capsule & _ & _ & _ & _ & _ & _ & _ & _ & _ & _ & Hc & _ & _ & _ & _
        & _ & _ & _ & _ & Hact & _ & _ & _ & _ & _ & _ & _ & _ & _ & _ & _ & _ & _ & _ & descriptor
        & accepted & rejected & s13 & plaintext & _ & _ & _ & _ & _ & _ & _ & _ & _ & _ & _ & _ & _
        & _ & _ & _ & _ & Hr & _ & Hs & _).
  exists card, s1, capsule, descriptor, accepted, rejected, plaintext.
  split; [exact Hc | split; [exact Hact | split; [exact Hr |]]].
  rewrite Hs in Hsecret. by injection Hsecret.
Defined.

End example.
End ClientProps.
