(* ===== verification/CancelProps.v ===== *)
(** What a successful owner cancel of the version-2 client means: too many
    guardians hold the tombstone for a recovery threshold to be left. *)

From S2P Require Export ClientV2 ClientProps.
From S2P Require Import RecoveryScenario.

Module CancelProps.
Export ClientV2.

Section cancel.
Context `{Prims : Primitives} `{Sharing : SharingPrimitives}.
Context `{Protocol : ProtocolPrimitives} `{World : Network} `{Json : ClientPrimitives}.

(** The guardian on [route] acknowledged exactly this cancel of this request. *)
Definition cancel_ack_ok (ack : OwnerCancelAck) (certificate : OwnerCancelCertificate)
    (request : RecoveryRequest) (route : GuardianRoute) : Prop :=
  oca_protocol_version ack = PROTOCOL_VERSION
  ∧ oca_config_id ack = rr_config_id request
  ∧ oca_config_version ack = rr_config_version request
  ∧ oca_request_id ack = rr_request_id request
  ∧ request_digest request = Ok (oca_request_digest ack)
  ∧ (∃ t, owner_cancel certificate = Ok t ∧ oca_owner_cancel_transcript_digest ack = sha256 t)
  ∧ oca_guardian_index ack = gr_guardian_index route
  ∧ signed (gr_guardian_public_key route) (owner_cancel_ack ack) (oca_guardian_signature ack).

Lemma cancel_ack_Ok ack certificate request route u :
  validate_owner_cancel_ack ack certificate request route = Ok u ↔
  cancel_ack_ok ack certificate request route.
Proof.
  unfold validate_owner_cancel_ack, cancel_ack_ok.
  rewrite guard_Ok, !orb_false_iff, !neb_false, bind_Ok. split.
  - intros ((((E1 & E2) & E3) & E4) & digest & Hd & H). rewrite guard_Ok, neb_false in H.
    destruct H as [E5 H]. apply bind_Ok in H as (t & Ht%wire_Ok & H).
    rewrite guard_Ok, orb_false_iff, !neb_false in H. destruct H as ((E6 & E7) & H).
    apply bind_Ok in H as (b & Hb%wire_Ok & Hv%crypto_Ok). destruct u.
    split_and!; try done; [by rewrite Hd, E5 | by exists t | by exists b].
  - intros (E1 & E2 & E3 & E4 & Hd & (t & Ht & E6) & E7 & (b & Hb & Hv)). split; [done |].
    exists (oca_request_digest ack). split; [done |]. rewrite guard_Ok, neb_false. split; [done |].
    rewrite Ht. cbn [wire map_err mbind Result_bind].
    rewrite guard_Ok, orb_false_iff, !neb_false. split; [done |].
    rewrite Hb. cbn [wire map_err mbind Result_bind]. rewrite Hv. by destruct u.
Qed.

Lemma gather_cancel_acks_Ok relays recipient request certificate routes acks s acks' s' :
  gather_cancel_acks relays recipient request certificate routes acks s = (Ok acks', s') →
  ∀ i, i ∈ acks' → i ∈ acks ∨ ∃ route ack, route ∈ routes ∧ gr_guardian_index route = i
    ∧ cancel_ack_ok ack certificate request route.
Proof.
  revert acks s. induction routes as [|route routes IH]; intros acks s H i Hi;
    cbn [gather_cancel_acks] in H.
  - injection H as <- <-. by left.
  - steps_to H answer Ha. destruct (IH _ _ H i Hi) as [Hin | (r & a & Hr & ? & ?)];
      [| right; exists r, a; split; [by right | done]].
    destruct answer as [[| | | ack | |] |]; try by left.
    destruct (validate_owner_cancel_ack ack certificate request route) as [u |] eqn:Hv; [| by left].
    apply elem_of_union in Hin as [Hx%elem_of_singleton | Hin]; [| by left].
    apply cancel_ack_Ok in Hv. right. exists route, ack. split; [by left |]. split; [| done].
    rewrite Hx. symmetry. apply Hv.
Qed.

(** The threshold of acknowledgements leaves no recovery threshold out. *)
Lemma required_acks_Ok (total threshold : N) required :
  required_cancel_acks total threshold = Ok required ↔
  (0 < threshold <= total)%N ∧ required = (total - threshold + 1)%N.
Proof.
  unfold required_cancel_acks. rewrite guard_Ok, orb_false_iff, N.eqb_neq, N.ltb_ge. split.
  - intros ([? ?] & [= <-]). split; [lia | done].
  - intros ([? ?] & ->). split; [lia | done].
Qed.

Lemma quorums_meet (all acked quorum : gset u16) (threshold : nat) :
  acked ⊆ all → quorum ⊆ all → threshold ≤ size quorum →
  size all + 1 ≤ size acked + threshold → ∃ i, i ∈ quorum ∧ i ∈ acked.
Proof.
  intros Ha Hq Ht Hs. destruct (decide (quorum ∩ acked = ∅)) as [E | [i Hi]%set_choose_L].
  - assert (quorum ∪ acked ⊆ all) as Hsub%subseteq_size by set_solver.
    rewrite size_union in Hsub by set_solver. lia.
  - exists i. set_solver.
Qed.

(** C17 (safety): when the owner's cancel reports success, for the request and the
    owner's file that it read at the paths of its options, enough of the
    guardians that this file lists acknowledged it to it, each with a signature
    over the digest of this request and of the cancel that it signed with the
    key of the file, that every set of these guardians of the file's
    recovery-threshold size holds one of them. *)
Theorem cancel_leaves_no_quorum options s result s' :
  cancel options s = (Ok result, s') →
  ∃ request s1 owner_control s2 now s3 seed s4 certificate (acks : gset u16),
    let recipient := RecipientKeyPair_from_seed seed in
    runs (exchange EIo (read_request (co_request_path options))) s request s1
    ∧ runs (exchange EIo (read_owner_control (co_owner_control_path options))) s1
        owner_control s2
    ∧ runs ClientNet.wall_now s2 now s3 ∧ runs (draw random_id) s3 seed s4
    ∧ make_owner_cancel_certificate request (ocf_owner_cancel_signing_seed owner_control)
        (rkp_public recipient) (U16 1) now = Ok certificate
    ∧ runs (gather_cancel_acks (ocf_relay_bases owner_control) recipient request certificate
        (ocf_guardian_routes owner_control) ∅) s4 acks s'
    ∧ verifying_key_bytes (signing_key (ocf_owner_cancel_signing_seed owner_control))
      = ocf_owner_cancel_public_key owner_control
    ∧ ocf_config_id owner_control = rr_config_id request
    ∧ ocf_config_version owner_control = rr_config_version request
    ∧ (rr_requested_at request <= now < rr_expiry request)%N
    ∧ ocr_permanently_cancelled result = true
    ∧ ocr_request_id result = hex_encode (rr_request_id request)
    ∧ ocr_guardian_acknowledgements result = N.of_nat (size acks)
    ∧ (∀ i, i ∈ acks → ∃ route ack, route ∈ ocf_guardian_routes owner_control
        ∧ gr_guardian_index route = i ∧ cancel_ack_ok ack certificate request route)
    ∧ ∀ quorum : gset u16,
        quorum ⊆ list_to_set (gr_guardian_index <$> ocf_guardian_routes owner_control) →
        (ocf_guardian_threshold owner_control <= N.of_nat (size quorum))%N →
        ∃ i, i ∈ quorum ∧ i ∈ acks.
Proof.
  intros H. unfold cancel in H. cbv zeta in H.
  runs_to H request s1 Hreq. runs_to H control s2 Hctl. runs_to H now s3 Hnow. steps_to H u Hm.
  steps_to H u1 Hkey. runs_to H seed s4 Hseed. steps_to H certificate Hcert.
  runs_to H acks s5 Hacks. steps_to H required Hrequired. steps_to H u2 Hthr. injection H as <- <-.
  unfold cancel_mismatch in Hm. rewrite !orb_false_iff, !neb_false in Hm.
  destruct Hm as ((((((((_ & _) & Hid) & Hver) & Hlow) & Hexp) & Hcount) & _) & _).
  rewrite neb_false in Hkey.
  apply N.ltb_ge in Hlow. apply N.leb_gt in Hexp.
  pose proof (gather_cancel_acks_Ok _ _ _ _ _ _ _ _ _ Hacks) as Hall.
  apply required_acks_Ok in Hrequired as (Ht & ->). apply N.ltb_ge in Hthr.
  assert (Hacked : ∀ i, i ∈ acks → ∃ route ack, route ∈ ocf_guardian_routes control
    ∧ gr_guardian_index route = i ∧ cancel_ack_ok ack certificate request route).
  { intros i [Hi%elem_of_empty | Hx]%Hall; [done | exact Hx]. }
  exists request, s1, control, s2, now, s3, seed, s4, certificate, acks. split_and!; try done.
  intros quorum Hq Hqt.
  apply (quorums_meet (list_to_set (gr_guardian_index <$> ocf_guardian_routes control)) acks quorum
    (N.to_nat (ocf_guardian_threshold control))); [| done | lia |].
  - intros i (route & ack & Hr & <- & _)%Hacked. apply elem_of_list_to_set.
    by apply list_elem_of_fmap_2.
  - assert (size (list_to_set (gr_guardian_index <$> ocf_guardian_routes control) : gset u16)
      ≤ length (ocf_guardian_routes control)) as Hs.
    { rewrite <- (length_fmap gr_guardian_index). apply size_list_to_set_le. }
    unfold len in Hcount. lia.
Qed.

End cancel.

(** ** Witness

    The owner of the small version-2 configuration cancels; its first guardian
    acknowledges, which suffices, and the second does not answer. *)

Module OwnerScenario.
Export RecoveryScenario.

Definition owner_seed : Id32 := Eval vm_compute in
  default (id 0) (try_barr 32 (sb_owner_cancel_signing_seed bundle)).
Definition owner_control : OwnerControlFile := {|
  ocf_protocol_version := PROTOCOL_VERSION;
  ocf_config_id := cap_config_id capsule;
  ocf_config_version := cap_config_version capsule;
  ocf_owner_cancel_signing_seed := owner_seed;
  ocf_owner_cancel_public_key := cap_owner_cancel_public_key capsule;
  ocf_guardian_count := U16 2;
  ocf_guardian_threshold := U16 2;
  ocf_guardian_routes := sb_owner_guardian_routes bundle;
  ocf_relay_bases := relays
|}.
Definition recipient : RecipientKeyPair := RecipientKeyPair_from_seed (draw 32 200).
Definition certificate : OwnerCancelCertificate := Eval vm_compute in
  match make_owner_cancel_certificate request owner_seed (rkp_public recipient) (U16 1)
          (U64 500) with
  | Ok certificate => certificate
  | Err _ => cancel_certificate
  end.

(** What guardian 1 answers. *)
Definition answer : option MailboxResponse := Eval vm_compute in
  match sb_guardians bundle with
  | provision :: _ =>
      match (GuardianNode.cancel_action request certificate the_digest
               (hex_encode (rr_request_id request)) (U64 500) (GuardianNode.mkGuardianEntry provision ∅ ∅ ∅ ∅)).1
      with
      | Ok response => Some response
      | Err _ => None
      end
  | [] => None
  end.

#[export] Instance owner_json : ClientPrimitives := {|
  mailbox_request_to_vec := λ _, Some [];
  mailbox_response_from_slice := λ _, answer;
  signer_recovery_request_to_vec := λ _, None;
  signer_recovery_response_from_slice := λ _, None;
  guardian_recovery_request_to_vec := λ _, None;
  guardian_recovery_response_from_slice := λ _, None;
  provision_to_vec := λ _, None;
  signer_provision_to_vec := λ _, None;
  guardian_provision_to_vec := λ _, None;
  descriptor_v3_to_vec := λ _, None;
  descriptor_v3_from_slice := λ _, None
|}.

Definition seal_answer (url : string) : option SealedMailboxBody :=
  match mailbox_id url with
  | Err _ => None
  | Ok mailbox =>
      match seal_to_recipient (rkp_public recipient) (id 5) (brep 24 x00) []
              (ok_bytes (mailbox_transport_context mailbox "response")) with
      | Ok sealed => Some {| smb_sealed := sealed |}
      | Err _ => None
      end
  end.

(** The network: whether the next mailbox answers. *)
#[export] Instance owner_network : Network := {|
  Net := list bool;
  system_time := λ net, (Some (U64 500), net);
  sleep_secs := λ _ net, net;
  write_file := λ _ _ net, (true, net);
  read_card := λ _ net, (None, net);
  read_card_v3 := λ _ net, (None, net);
  read_request := λ _ net, (Some request, net);
  read_owner_control := λ _ net, (Some owner_control, net);
  get_key := λ _ net, (Some (encapsulation_key (id 9)), net);
  get_node_info := λ _ net, (None, net);
  get_capsule := λ _ net, (None, net);
  post_read := λ _ _ net, (None, net);
  post_sealed := λ url _ net,
    match net with true :: net => (seal_answer url, net) | _ => (None, tail net) end;
  post_provision := λ _ _ _ net, (false, net);
  post_register := λ _ _ _ net, (false, net);
  post_alias := λ _ _ _ net, (false, net);
  post_witness_config := λ _ _ _ net, (false, net);
  put_capsule := λ _ _ _ net, (false, net)
|}.

Definition owner_options : CancelOptions :=
  {| co_request_path := "request"; co_owner_control_path := "owner" |}.
Definition cancelled (answering : list bool) : Result Error OwnerCancelResult :=
  (cancel owner_options (answering, 200%N)).1.

Example cancel_runs :
  is_ok (cancelled [true]) = true ∧ is_ok (cancelled []) = false
  (* the acknowledgement of guardian 1 from the mailbox of guardian 2 *)
  ∧ is_ok (cancelled [false; true]) = false.
Proof. split_and!; vm_compute; reflexivity. Qed.

End OwnerScenario.

Section example.
Import OwnerScenario.

Lemma cancel_leaves_no_quorum_witness :
  ∃ (result : OwnerCancelResult) s1 s2 (acks : gset u16),
    runs (exchange EIo (read_owner_control "owner")) s1 owner_control s2
    ∧ N.of_nat (size acks) = 1%N
    ∧ ∀ quorum : gset u16,
        quorum ⊆ list_to_set (gr_guardian_index <$> ocf_guardian_routes owner_control) →
        (2 <= N.of_nat (size quorum))%N → ∃ i, i ∈ quorum ∧ i ∈ acks.
Proof.
  assert (H : ∃ result s', cancel owner_options ([true], 200%N) = (Ok result, s')
    ∧ ocr_guardian_acknowledgements result = 1%N)
    by (eexists _, _; split; [vm_compute; reflexivity | reflexivity]).
  destruct H as (result & s' & H & Hn).
  destruct (cancel_leaves_no_quorum _ _ _ _ H)
    as (_ & s1 & control & s2 & _ & _ & _ & _ & _ & acks & _ & Hc & _ & _ & _ & _ & _ & _ & _ & _
        & _ & _ & Hs & _ & Hq).
  assert (E : control = owner_control).
  { unfold runs, exchange in Hc. cbn in Hc. injection Hc as <-. reflexivity. }
  rewrite E in Hc, Hq. exists result, s1, s2, acks.
  split; [exact Hc | split; [rewrite <- Hs; exact Hn | exact Hq]].
Defined.

End example.
End CancelProps.
