(* ===== verification/CoordinatorProps.v ===== *)
(** What the coordinator's collections and the end of a rotation rest on. *)

From S2P Require Export Handover CancelRotation ClientProps RosterProps CancelProps.
From S2P Require Import RotationScenario.
From stdpp Require Import sorting.

Module CoordinatorProps.
Export Handover.

(** ** Votes *)

Section votes.
Context `{Prims : Primitives} `{Protocol : ProtocolPrimitives} `{World : Network}.

(** The votes kept so far: of distinct signers, the ones in the set, and each
    found valid. *)
Definition kept_ok {V} (signer_id : V → u16) (valid : V → Result Error ())
    (kept : gset u16 * list V) : Prop :=
  NoDup (signer_id <$> kept.2) ∧ kept.1 = list_to_set (signer_id <$> kept.2)
  ∧ ∀ v, v ∈ kept.2 → valid v = Ok ().

Lemma keep_vote_ok {V} vote_of (signer_id : V → u16) valid answer kept :
  kept_ok signer_id valid kept → kept_ok signer_id valid (keep_vote vote_of signer_id valid answer kept).
Proof.
  intros (Hnd & Hs & Hv). unfold keep_vote. destruct answer as [response |]; [| done].
  destruct (vote_of response) as [vote |]; [| done].
  destruct (valid vote) as [[] |] eqn:E; [| done]. simpl.
  destruct (bool_decide_reflect (signer_id vote ∉ kept.1)) as [Hni |]; [| done].
  rewrite Hs, elem_of_list_to_set in Hni. unfold kept_ok. cbn [fst snd].
  rewrite fmap_app. cbn. split_and!.
  - apply NoDup_app. split_and!; [done | | apply NoDup_singleton].
    intros x Hx ->%list_elem_of_singleton. done.
  - rewrite Hs, list_to_set_app_L. cbn. set_solver.
  - intros v [Hin | ->%list_elem_of_singleton]%elem_of_app; [by apply Hv | done].
Qed.

Lemma collect_votes_ok {V} threshold ask vote_of (signer_id : V → u16) valid mailboxes kept s votes s' :
  kept_ok signer_id valid kept →
  collect_votes threshold ask vote_of signer_id valid mailboxes kept s = (Ok votes, s') →
  NoDup (signer_id <$> votes) ∧ ∀ v, v ∈ votes → valid v = Ok ().
Proof.
  revert kept s. induction mailboxes as [|mailbox mailboxes IH]; intros kept s Hk H;
    cbn [collect_votes] in H.
  - injection H as <- <-. split; apply Hk.
  - apply SR_bind_Ok in H as (answer & s1 & _ & H). cbv zeta in H.
    pose proof (keep_vote_ok vote_of signer_id valid answer kept Hk) as Hk'.
    destruct (N.leb_spec threshold (len (keep_vote vote_of signer_id valid answer kept).2)).
    + injection H as <- <-. split; apply Hk'.
    + by eapply IH.
Qed.

Lemma nothing_kept {V} (signer_id : V → u16) valid : kept_ok signer_id valid (∅, []).
Proof. split_and!; [constructor | done | by intros ? ?%elem_of_nil]. Qed.

End votes.

(** ** Relays *)

Section relays.
Context `{Prims : Primitives} `{Sharing : SharingPrimitives} `{Protocol : ProtocolPrimitives}.
Context `{World : Network} `{Json : ClientPrimitives}.

(** Every candidate was asked, in order, and each failed with its error. *)
Inductive refused {R} (ask : string → Client R) :
    list string → Net * Rng → list Error → Net * Rng → Prop :=
| refused_nil s : refused ask [] s [] s
| refused_cons candidate candidates e es s s1 s2 :
    ask candidate s = (Err e, s1) → e ≠ EPanic → refused ask candidates s1 es s2 →
    refused ask (candidate :: candidates) s (e :: es) s2.

Definition last_error (none : Error) (errors : list Error) : Error :=
  foldl (λ _ error, error) none errors.

Lemma first_answer_Err {R} none (ask : string → Client R) candidates s e s' :
  none ≠ EPanic →
  first_answer none ask candidates s = (Err e, s') ∧ e ≠ EPanic ↔
  ∃ errors, refused ask candidates s errors s' ∧ e = last_error none errors.
Proof.
  revert none s. induction candidates as [|candidate candidates IH]; intros none s Hnone;
    cbn [first_answer].
  - split.
    + intros [[= <- <-] _]. exists []. split; [constructor | done].
    + intros (es & H & ->). by inversion H; subst.
  - split.
    + intros [H He]. unfold attempt, mbind, SR_bind in H.
      destruct (ask candidate s) as [[a | e1] s1] eqn:Ha; [discriminate H |].
      destruct (decide (e1 = EPanic)) as [-> | Hne]; [injection H as <- <-; done |].
      assert (first_answer e1 ask candidates s1 = (Err e, s')) as H1 by (destruct e1; done).
      destruct (proj1 (IH e1 s1 Hne) (conj H1 He)) as (es & Hes & ->).
      exists (e1 :: es). split; [by econstructor | done].
    + intros (es & H & ->). inversion H as [|? ? e1 es1 ? s1 ? Ha Hne Hr]; subst.
      destruct (proj2 (IH e1 s1 Hne) (ex_intro _ es1 (conj Hr eq_refl))) as [H1 Hl].
      split; [| exact Hl]. unfold attempt, mbind, SR_bind. rewrite Ha.
      destruct e1; done.
Qed.

(** The candidates are distinct and every relay is among them. *)
Lemma rotation_candidates_cover mailbox id relays :
  NoDup (rotation_candidates mailbox id relays)
  ∧ Forall (λ relay, trim_end_slashes relay +:+ "/v3/mailboxes/" +:+ id
      ∈ rotation_candidates mailbox id relays) relays.
Proof.
  unfold rotation_candidates.
  set (start := if contains _ _ then _ else _).
  assert (Hs : NoDup start).
  { unfold start. destruct (contains _ _); [apply NoDup_singleton | constructor]. }
  clearbody start. revert start Hs. induction relays as [|relay relays IH]; intros start Hs;
    [split; [exact Hs | constructor] |].
  cbn [foldl]. cbv zeta. set (url := trim_end_slashes relay +:+ _).
  set (next := if bool_decide _ then _ else _).
  assert (Hn : NoDup next ∧ url ∈ next).
  { unfold next. destruct (bool_decide_reflect (url ∈ start)) as [| Hni]; [done |]. split.
    - apply NoDup_app. split_and!; [done | | apply NoDup_singleton].
      intros x Hx ->%list_elem_of_singleton. done.
    - apply elem_of_app. right. by left. }
  destruct Hn as [Hn Hu]. destruct (IH next Hn) as [Hnd Hall]. split; [done |].
  constructor; [| done]. fold url. clear -Hu. clearbody next url. revert next Hu.
  induction relays as [|r relays IH]; intros next Hu; [exact Hu |]. cbn [foldl]. apply IH.
  cbv zeta. case_bool_decide; [done |]. apply elem_of_app. by left.
Qed.

(** C38 (error): asking a rotation mailbox fails, unless it panics, exactly when the
    mailbox has no id or every candidate URL, each relay's among them and none
    twice, was asked in order and failed; the error is the last one. *)
Theorem rotation_mailbox_error {T R} (to_vec : T → option (list byte))
    (from_slice : list byte → option R) mailbox relays action recipient s e s' :
  (send_rotation_mailbox to_vec from_slice mailbox relays action recipient s = (Err e, s')
     ∧ e ≠ EPanic
   ↔ (ClientNet.mailbox_id mailbox = Err e ∧ e ≠ EPanic ∧ s' = s)
     ∨ ∃ id errors, ClientNet.mailbox_id mailbox = Ok id
       ∧ refused (λ candidate, send_rotation_once to_vec from_slice candidate action recipient)
           (rotation_candidates mailbox id relays) s errors s'
       ∧ e = last_error (Msg "no v3 relay replica is configured") errors)
  ∧ ∀ id, NoDup (rotation_candidates mailbox id relays)
    ∧ Forall (λ relay, trim_end_slashes relay +:+ "/v3/mailboxes/" +:+ id
        ∈ rotation_candidates mailbox id relays) relays.
Proof.
  split; [| intros id; apply rotation_candidates_cover].
  unfold send_rotation_mailbox, mbind, SR_bind, try, lift. cbn beta iota.
  destruct (ClientNet.mailbox_id mailbox) as [id | e1].
  - rewrite (first_answer_Err (Msg "no v3 relay replica is configured")
      (λ candidate, send_rotation_once to_vec from_slice candidate action recipient)) by done.
    split.
    + intros (es & H & He). right. by exists id, es.
    + intros [[? _] | (id' & es & [= <-] & H & He)]; [done | by exists es].
  - split.
    + intros [[= <- <-] He]. by left.
    + intros [([= ->] & He & ->) | (id' & es & ? & _)]; done.
Qed.

End relays.

(** ** Rotations *)

Section rotation.
Context `{Prims : Primitives} `{Sharing : SharingPrimitives} `{Frost : FrostPrimitives}.
Context `{Protocol : ProtocolPrimitives} `{World : Network} `{Json : ClientPrimitives}.
Context `{RWorld : !RotationNetwork} `{RJson : RotationJson}.

(** Everyone on the list was asked, in order, and gave a [good] answer. *)
Inductive in_turn {A R} (ask : A → Client R) (good : R → Prop) :
    list A → Net * Rng → Net * Rng → Prop :=
| in_turn_nil s : in_turn ask good [] s s
| in_turn_cons x l answer s s1 s2 :
    runs (ask x) s answer s1 → good answer → in_turn ask good l s1 s2 →
    in_turn ask good (x :: l) s s2.

Lemma each_in_turn {A R} (ask : A → Client R) bad message l s u s' :
  each (λ x, answer ← ask x; bail_if (bad answer) message) l s = (Ok u, s') →
  in_turn ask (λ answer, bad answer = false) l s s'.
Proof.
  revert s. induction l as [|x l IH]; intros s H; cbn [each] in H.
  - injection H as <- <-. constructor.
  - apply SR_bind_Ok in H as ([] & s1 & Hx & H). runs_to Hx answer t Ha.
    apply bail_if_Ok in Hx as [Hb ->]. by econstructor; [exact Ha | | apply IH].
Qed.

Lemma in_turn_weaken {A R} (ask : A → Client R) (good good' : R → Prop) l s s' :
  (∀ answer, good answer → good' answer) → in_turn ask good l s s' → in_turn ask good' l s s'.
Proof. intros Hg. induction 1; econstructor; eauto. Qed.

(** ** The predecessor *)

(** The owner's file is of this card, and holds the key that the card pins. *)
Definition owner_of (card : RecoveryCardV3) (owner : OwnerControlFileV3) : Prop :=
  ocf3_protocol_version owner = PROTOCOL_VERSION_V3
  ∧ cr_config_id (ocf3_config_ref owner) = card3_config_id card
  ∧ ocf3_owner_cancel_public_key owner = card3_owner_cancel_public_key card
  ∧ verifying_key_bytes (signing_key (ocf3_owner_cancel_signing_seed owner))
    = ocf3_owner_cancel_public_key owner
  ∧ ocf3_relay_bases owner = card3_relay_bases card.

Lemma owner_mismatch_false owner card : owner_mismatch owner card = false ↔ owner_of card owner.
Proof. unfold owner_mismatch, owner_of. rewrite !orb_false_iff, !neb_false. tauto. Qed.

(** The private descriptor is the one that the capsule commits to. *)
Definition described_by (descriptor : RecoveryDescriptorV3) (capsule : ConfigCapsuleV3) : Prop :=
  rd3_config_ref descriptor = cap3_config_ref capsule
  ∧ rd3_guardian_material_root descriptor = cap3_guardian_material_root capsule
  ∧ rd3_data_shards descriptor = cap3_guardian_threshold capsule
  ∧ rd3_total_shards descriptor = cap3_guardian_count capsule
  ∧ len (rd3_guardians descriptor) = uval (cap3_guardian_count capsule)
  ∧ rd3_dpss_public_commitment descriptor = cap3_dpss_public_commitment capsule
  ∧ frost_public_package_digest (rd3_dpss_public_package descriptor)
    = Ok (cap3_dpss_public_commitment capsule).

Lemma validate_descriptor_Ok descriptor capsule u :
  validate_descriptor descriptor capsule = Ok u ↔ described_by descriptor capsule.
Proof.
  destruct u. unfold validate_descriptor, described_by. cbv zeta.
  rewrite guard_Ok, !orb_false_iff, !neb_false, bind_Ok. split.
  - intros ((((((? & ?) & ?) & ?) & ?) & ?) & digest & Hd%crypto_Ok & Hf%fail_if_Ok).
    rewrite neb_false in Hf. subst digest. done.
  - intros (? & ? & ? & ? & ? & ? & Hd). split; [done |].
    exists (cap3_dpss_public_commitment capsule). by rewrite Hd, fail_if_Ok, neb_false.
Qed.

(** A signer's contribution to this very intent, signed, with its place among
    the signers of the capsule. *)
Definition intent_contribution_ok (contribution : SignerRotationIntentContribution)
    (context : RotationContext) (intent_hash : Id32) (capsule : ConfigCapsuleV3) : Prop :=
  sric_context contribution = context ∧ sric_intent_hash contribution = intent_hash
  ∧ uval (sric_signer_id contribution) ≠ 0%N
  ∧ (∃ leaf,
       signer_leaf (sric_signer_id contribution) (sric_signer_public_key contribution) = Ok leaf
       ∧ merkle_verify (cap3_signer_set_commitment capsule) (sha256 leaf)
           (sric_signer_id contribution - 1) (cap3_signer_count capsule)
           (sric_signer_membership_proof contribution) = Ok ())
  ∧ signed (sric_signer_public_key contribution) (signer_rotation_intent_contribution contribution)
      (sric_signer_signature contribution).

Lemma validate_intent_contribution_Ok contribution intent intent_hash capsule u :
  validate_intent_contribution contribution intent intent_hash capsule = Ok u →
  intent_contribution_ok contribution (ri_context intent) intent_hash capsule.
Proof.
  unfold validate_intent_contribution. rewrite guard_Ok, orb_false_iff, !neb_false.
  intros ((Ec & Eh) & H). apply bind_Ok in H as (leaf & Hl%wire_Ok & H).
  apply bind_Ok in H as ([] & Hz%fail_if_Ok & H). apply bind_Ok in H as ([] & Hm%crypto_Ok & H).
  apply bind_Ok in H as (t & Ht%wire_Ok & Hv%crypto_Ok). destruct u. apply N.eqb_neq in Hz.
  split_and!; [done | done | done | by exists leaf | by exists t].
Qed.

Lemma gather_intents_Ok card coordinator predecessor intent intent_hash action mailboxes kept s
    contributions s' :
  gather_intents card coordinator predecessor intent intent_hash action mailboxes kept s
    = (Ok contributions, s') →
  (∀ c, c ∈ kept → intent_contribution_ok c (ri_context intent) intent_hash predecessor) →
  ∀ c, c ∈ contributions → intent_contribution_ok c (ri_context intent) intent_hash predecessor.
Proof.
  revert kept s. induction mailboxes as [|mailbox mailboxes IH]; intros kept s H Hk;
    cbn [gather_intents] in H; [by injection H as <- <- |].
  steps_to H answer Ha. steps_to H kept' Hk'.
  assert (∀ c, c ∈ kept' → intent_contribution_ok c (ri_context intent) intent_hash predecessor).
  { destruct answer as [[] |]; try by injection Hk' as <- <-.
    steps_to Hk' u Hu. injection Hk' as <- <-. apply validate_intent_contribution_Ok in Hu.
    intros c [Hc | ->%list_elem_of_singleton]%elem_of_app; [by apply Hk | done]. }
  destruct (_ <=? _)%N; [by injection H as <- <- | by eapply IH].
Qed.

(** From [s] to [s'] the coordinator read the card and the owner's file, which is
    of that card; drew its key, and read the predecessor from the card's
    witnesses with it, the epoch of the owner's file; drew the context of this
    rotation; had enough contributions to the intent; and opened the private
    descriptor with what they hold. *)
Definition opened_by (options : RotateV3Options) (s : Net * Rng) (opened : Opened)
    (challenge : EpochReadChallenge) (reads : list WitnessReadEnvelope) (s' : Net * Rng) : Prop :=
  let card := op_card opened in
  let predecessor := op_predecessor opened in
  let coordinator := op_coordinator opened in
  let context := op_context opened in
  ∃ s1 s2 seed s3 s4 issued_at s5 rotation_id s6 nonce s7 qc_hash intent contributions,
    runs (exchange EIo (read_card_v3 (rot3_card_path options))) s card s1
    ∧ runs (exchange EIo (read_owner_control_v3 (rot3_owner_control_path options))) s1
        (op_owner opened) s2
    ∧ owner_of card (op_owner opened)
    ∧ runs (draw random_id) s2 seed s3 ∧ coordinator = RecipientKeyPair_from_seed seed
    ∧ runs (read_latest_epoch_v3 card coordinator) s3 (predecessor, challenge, reads) s4
    ∧ ocf3_config_ref (op_owner opened) = cap3_config_ref predecessor
    ∧ runs ClientNet.wall_now s4 issued_at s5
    ∧ runs (draw random_id) s5 rotation_id s6 ∧ runs (draw random_id) s6 nonce s7
    ∧ context = rotation_context predecessor coordinator rotation_id nonce issued_at
    ∧ witness_read_quorum_hash_v3 challenge reads = Ok qc_hash
    ∧ intent = exit_intent context predecessor (rot3_remove_guardian options) qc_hash
    ∧ (∃ t, rotation_intent intent = Ok t ∧ op_intent_hash opened = sha256 t)
    ∧ runs (gather_intents card coordinator predecessor intent (op_intent_hash opened)
        (SrIntent intent challenge reads) (card3_signer_mailboxes card) []) s7 contributions s'
    ∧ (∀ c, c ∈ contributions →
         intent_contribution_ok c context (op_intent_hash opened) predecessor)
    ∧ (cap3_signer_threshold predecessor ≤ len contributions)%N
    ∧ open_active_descriptor coordinator context (op_intent_hash opened) predecessor contributions
      = Ok (op_authorization_key opened, op_descriptor opened)
    ∧ described_by (op_descriptor opened) predecessor.

Lemma open_active_descriptor_Ok coordinator context intent_hash predecessor contributions key
    descriptor :
  open_active_descriptor coordinator context intent_hash predecessor contributions
    = Ok (key, descriptor) → described_by descriptor predecessor.
Proof.
  intros H. unfold open_active_descriptor in H.
  apply bind_Ok in H as (shares & _ & H). apply bind_Ok in H as (ak & _ & H).
  apply bind_Ok in H as (k & _ & H). apply bind_Ok in H as (dk & _ & H).
  apply bind_Ok in H as (c & _ & H). apply bind_Ok in H as (pt & _ & H).
  apply bind_Ok in H as (d & _ & H). apply bind_Ok in H as ([] & Hv & [= <- <-]).
  by apply validate_descriptor_Ok in Hv.
Qed.

Lemma open_predecessor_Ok options s opened s' :
  open_predecessor options s = (Ok opened, s') →
  ∃ challenge reads, opened_by options s opened challenge reads s'.
Proof.
  intros H. unfold open_predecessor in H. cbv zeta in H.
  runs_to H card s1 Hcard. runs_to H owner s2 Howner. steps_to H u0 Hmatch. runs_to H seed s3 Hseed.
  apply SR_bind_Ok in H as ([[predecessor challenge] reads] & s4 & Hread & H).
  steps_to H u1 Href. runs_to H now s5 Hnow. runs_to H rid s6 Hrid. runs_to H nonce s7 Hnonce.
  steps_to H qh Hqh. set (intent := exit_intent _ _ _ _) in *. steps_to H ih Hih.
  runs_to H contributions s8 Hcs. steps_to H u2 Hthr.
  apply SR_bind_Ok in H as ([key descriptor] & ? & Hopen & H). apply try_Ok in Hopen as [Hopen ->].
  injection H as <- <-. exists challenge, reads.
  apply owner_mismatch_false in Hmatch. rewrite neb_false in Href. apply N.ltb_ge in Hthr.
  apply fmap_Ok in Hih as (t & Ht%wire_Ok & <-).
  exists s1, s2, seed, s3, s4, now, s5, rid, s6, nonce, s7, qh, intent, contributions.
  cbn [op_card op_owner op_coordinator op_predecessor op_context op_descriptor op_intent_hash
    op_authorization_key]. split_and!; try done.
  - by exists t.
  - intros c Hc. eapply (gather_intents_Ok _ _ _ _ _ _ _ _ _ _ _ Hcs); [| exact Hc].
    by intros ? ?%elem_of_nil.
  - by eapply open_active_descriptor_Ok.
Qed.

(** ** The plan *)

(** [fresh] is the route of the guardian of [route] in the new roster. *)
Definition stays (route fresh : GuardianRouteV3) : Prop :=
  gr3_guardian_index fresh = gr3_guardian_index route
  ∧ gr3_guardian_public_key fresh = gr3_guardian_public_key route
  ∧ gr3_session_recipient_key fresh = gr3_session_recipient_key route
  ∧ gr3_operator_domain_commitment fresh = gr3_operator_domain_commitment route.

Lemma carry_over_Ok options opened routes s kept s' :
  carry_over options opened routes s = (Ok kept, s') → Forall2 stays routes kept.
Proof.
  revert s kept. induction routes as [|route routes IH]; intros s kept H; cbn [carry_over] in H.
  - injection H as <- <-. constructor.
  - cbv zeta in H. steps_to H target Ht. steps_to H slot Hs. steps_to H relay Hr.
    steps_to H mailbox Hm. steps_to H u Hp. steps_to H rest Hrest. injection H as <- <-.
    constructor; [done | by eapply IH].
Qed.

Lemma foldl_max m routes :
  (m ≤ foldl (λ m route, N.max m (gr3_guardian_index route)) m routes)%N
  ∧ ∀ route, route ∈ routes →
      (gr3_guardian_index route
       ≤ foldl (λ m route, N.max m (gr3_guardian_index route)) m routes)%N.
Proof.
  revert m. induction routes as [|route routes IH]; intros m; cbn [foldl].
  - split; [done | by intros ? ?%elem_of_nil].
  - destruct (IH (N.max m (gr3_guardian_index route))) as [Hm Hall]. split; [lia |].
    intros x [-> | Hx]%elem_of_cons; [lia | by apply Hall].
Qed.

(** The plan takes one guardian of the descriptor out and a new one in. *)
Definition replacement (options : RotateV3Options) (opened : Opened) (planned : Planned)
    (kept : list GuardianRouteV3) : Prop :=
  let old := rd3_guardians (op_descriptor opened) in
  pl_removed planned ∈ old
  ∧ gr3_guardian_index (pl_removed planned) = rot3_remove_guardian options
  ∧ Forall2 stays (filter (λ route, gr3_guardian_index route ≠ rot3_remove_guardian options) old)
      kept
  ∧ plan_new_roster (pl_plan planned) ≡ₚ pl_added planned :: kept
  ∧ (∀ route, route ∈ old → (gr3_guardian_index route < gr3_guardian_index (pl_added planned))%N)
  ∧ (∀ route, route ∈ old →
       gr3_operator_domain_commitment route ≠ gr3_operator_domain_commitment (pl_added planned)
       ∧ gr3_session_recipient_key route ≠ gr3_session_recipient_key (pl_added planned)).

Lemma replacement_not_taken descriptor owner info domain target :
  replacement_taken descriptor owner info domain target = false →
  ∀ route, route ∈ rd3_guardians descriptor →
    gr3_operator_domain_commitment route ≠ domain
    ∧ gr3_session_recipient_key route ≠ ni_transport_public_key info.
Proof.
  unfold replacement_taken. rewrite orb_false_iff, existsb_false. intros [H _] route Hr.
  specialize (H route Hr). by rewrite orb_false_iff, !bool_decide_eq_false in H.
Qed.

Lemma plan_rotation_Ok options opened s planned s' :
  plan_rotation options opened s = (Ok planned, s') →
  ∃ kept successor dpss_session_id count old_commitment new_commitment,
    replacement options opened planned kept
    ∧ pl_plan planned = make_plan opened successor (plan_new_roster (pl_plan planned))
        dpss_session_id count old_commitment new_commitment
    ∧ cr_guardian_epoch successor
      = sat_add (cr_guardian_epoch (cap3_config_ref (op_predecessor opened))) (U64 1)
    ∧ uval count = len (plan_new_roster (pl_plan planned))
    ∧ ∃ t, rotation_plan (pl_plan planned) = Ok t ∧ pl_plan_hash planned = sha256 t.
Proof.
  intros H. unfold plan_rotation in H. cbv zeta in H.
  apply SR_bind_Ok in H as ([i removed] & ? & Hrem & H). apply present_Ok in Hrem as [Hrem ->].
  steps_to H old_target Hold. steps_to H info Hinfo. steps_to H u Htaken.
  steps_to H index Hindex. steps_to H binding Hb. steps_to H seed Hseed. steps_to H slot Hslot.
  steps_to H relay Hrelay. steps_to H mailbox Hmailbox.
  set (added := mkGuardianRouteV3 index slot mailbox _ _ _) in *.
  steps_to H kept Hkept. steps_to H count Hcount. steps_to H oc Hoc. steps_to H nc Hnc.
  steps_to H dpss Hdpss.
  set (successor := mkConfigRef _ _ _ _ binding) in *.
  set (plan := make_plan _ _ _ _ _ _ _) in *.
  steps_to H hash Hhash. steps_to H mid Hmid. steps_to H u1 Hprov. steps_to H u2 Hreg.
  injection H as <- <-. cbn [pl_plan pl_plan_hash pl_removed pl_added].
  exists kept, successor, dpss, count, oc, nc.
  apply ok_or_Ok in Hcount. apply SetupRecovery.try_u16_Some in Hcount.
  apply fmap_Ok in Hhash as (t & Ht%wire_Ok & <-).
  apply list_find_Some in Hrem as (Hi & Ei & _). apply carry_over_Ok in Hkept.
  pose proof (replacement_not_taken _ _ _ _ _ Htaken) as Hnew.
  apply SetupRecovery.try_u16_Some in Hindex.
  split_and!; [| done | done | done | by exists t]. unfold replacement. cbv zeta.
  cbn [pl_plan pl_removed pl_added]. split_and!; try done.
  - by eapply list_elem_of_lookup_2.
  - unfold plan. cbn [plan_new_roster make_plan]. rewrite merge_sort_Permutation.
    by rewrite (Permutation_app_comm kept).
  - intros route Hr. unfold added. cbn [gr3_guardian_index]. rewrite Hindex.
    destruct (foldl_max 0 (rd3_guardians (op_descriptor opened))) as [_ Hmax].
    specialize (Hmax route Hr). unfold max_index. lia.
Qed.

(** ** Certificates *)

(** From [s] to [s'] a signer quorum voted to begin the plan, which was checked at
    the time the clock showed then; every successor accepted it. *)
Definition begun_by (options : RotateV3Options) (opened : Opened) (planned : Planned)
    (s : Net * Rng) (begin : BeginRotationCertificate) (s' : Net * Rng) : Prop :=
  let plan := pl_plan planned in
  ∃ s1 now s2 hash s3,
    runs (collect_signer_begin_votes (op_card opened) (op_coordinator opened) plan
      (op_predecessor opened)) s (brot_votes begin) s1
    ∧ runs ClientNet.wall_now s1 now s2
    ∧ begin_ok begin plan (op_predecessor opened) now hash
    ∧ brot_not_before_wall begin
      = sat_add (ctx_issued_at (op_context opened)) (plan_minimum_delay_secs plan)
    ∧ in_turn (ask_guardian (card3_relay_bases (op_card opened)) (op_coordinator opened)
        (GrBegin plan begin)) (λ answer, ∃ notice, answer = GrBeginAccepted notice)
        (gr3_mailbox <$> plan_new_roster plan) s2 s3
    ∧ runs (_ ← attempt (ask_guardian (card3_relay_bases (op_card opened))
              (op_coordinator opened) (GrBegin plan begin) (gr3_mailbox (pl_removed planned)));
            exchange_ok EIo (write_rotation_control (rot3_rotation_control_path options)
              (mkRotationControlFileV3 PROTOCOL_VERSION_V3 (op_card opened)
                (op_predecessor opened) plan
                (ocf3_owner_cancel_public_key (op_owner opened))))) s3 () s'.

Lemma begin_rotation_Ok options opened planned s begin s' :
  begin_rotation options opened planned s = (Ok begin, s') →
  begun_by options opened planned s begin s'.
Proof.
  intros H. unfold begin_rotation in H. cbv zeta in H. runs_to H votes s1 Hvotes.
  runs_to H now s2 Hnow. steps_to H hash Hhash. apply validate_begin_rotation_Ok in Hhash.
  runs_to H u s3 Hu. runs_to H a s4 Ha. runs_to H u1 s5 Hw. injection H as <- <-.
  apply each_in_turn in Hu. unfold begun_by. cbv zeta.
  exists s1, now, s2, hash, s3. split_and!; try done.
  - eapply in_turn_weaken; [| exact Hu]. intros []; try done. by eexists.
  - unfold runs. apply SR_bind_Ok. exists a, s4. by destruct u1.
Qed.

(** From [s] to [s'], after the delay, a signer quorum voted to release it, checked at
    the time the clock showed then. *)
Definition released_by (opened : Opened) (planned : Planned) (begin : BeginRotationCertificate)
    (s : Net * Rng) (release : RotationReleaseCertificate) (release_hash : Id32)
    (s' : Net * Rng) : Prop :=
  let plan := pl_plan planned in
  ∃ s1 s2 now,
    runs (sleep (sat_add (plan_minimum_delay_secs plan) (U64 1))) s () s1
    ∧ runs (collect_signer_release_votes (op_card opened) (op_coordinator opened) plan begin
        (op_predecessor opened)) s1 (rrc_votes release) s2
    ∧ runs ClientNet.wall_now s2 now s'
    ∧ release_ok release begin plan (op_predecessor opened) now release_hash
    ∧ (brot_not_before_wall begin ≤ now)%N.

Lemma release_rotation_Ok opened planned begin s release release_hash s' :
  release_rotation opened planned begin s = (Ok (release, release_hash), s') →
  released_by opened planned begin s release release_hash s'.
Proof.
  intros H. unfold release_rotation in H. cbv zeta in H. runs_to H u s1 Hu.
  runs_to H votes s2 Hvotes. steps_to H bh Hbh. runs_to H now s3 Hnow. steps_to H hash Hhash.
  apply validate_rotation_release_Ok in Hhash. steps_to H rh Hrh. injection H as <- <- <-.
  destruct u. apply fmap_Ok in Hrh as (t & Ht%wire_Ok & <-).
  destruct Hhash as (Hb & (t' & Ht' & ->) & Hc & Hp & Hle & Hq).
  rewrite Ht in Ht'. injection Ht' as ->.
  exists s1, s2, now. split_and!; try done. split; [done |]. split; [by exists t' | done].
Qed.

(** The successor's capsule is the predecessor's but for its guardians. *)
Definition succeeds (plan : RotationPlan) (predecessor successor : ConfigCapsuleV3) : Prop :=
  cap3_config_ref successor = plan_successor plan
  ∧ cap3_predecessor_capsule_hash successor = cap3_capsule_hash predecessor
  ∧ cap3_signer_set_commitment successor = cap3_signer_set_commitment predecessor
  ∧ cap3_signer_threshold successor = cap3_signer_threshold predecessor
  ∧ cap3_owner_cancel_public_key successor = cap3_owner_cancel_public_key predecessor
  ∧ cap3_minimum_recovery_delay successor = cap3_minimum_recovery_delay predecessor
  ∧ cap3_guardian_count successor = plan_total_shards plan
  ∧ cap3_guardian_threshold successor = plan_new_guardian_threshold plan
  ∧ cap3_ciphertext_fragment_root successor = cap3_ciphertext_fragment_root predecessor.

(** From [s] to [s'] the descriptor of the successors was sealed; the certificate
    that they are prepared, checked at the time the clock showed then, holds an
    acknowledgement of each, signed; the signers voted to activate the capsule,
    and the witnesses acknowledged it. *)
Definition certified_by (r : Released) (p : Prepared) (s : Net * Rng)
    (successor : ConfigCapsuleV3) (qc : EpochActivationQc) (s' : Net * Rng) : Prop :=
  let card := op_card (rl_opened r) in
  let plan := rl_plan r in
  ∃ sealed s1 now s2 ready_hash votes s3 activation activation_hash,
    let ready := ready_certificate r p sealed in
    let unactivated := successor_capsule r p sealed (cap3_capsule_hash successor) None in
    runs (draw (seal_successor_descriptor r p)) s sealed s1
    ∧ runs ClientNet.wall_now s1 now s2
    ∧ validate_rotation_ready_certificate_v3 ready plan (rl_predecessor r) now = Ok ready_hash
    ∧ (∀ route, route ∈ plan_new_roster plan → ∃ ack, ack ∈ pr_prepared_acks p
         ∧ ngpa_new_guardian_index ack = gr3_guardian_index route
         ∧ signed (gr3_guardian_public_key route) (new_guardian_prepared_ack ack)
             (ngpa_guardian_signature ack)
         ∧ ngpa_guardian_material_root ack = cap3_guardian_material_root successor)
    ∧ runs (collect_signer_activate_votes card (op_coordinator (rl_opened r)) plan ready
        unactivated) s2 votes s3
    ∧ (∃ t, rotation_ready_certificate ready = Ok t
         ∧ activation = {|
             rac_context := op_context (rl_opened r);
             rac_plan_hash := pl_plan_hash (rl_planned r);
             rac_ready_certificate_hash := sha256 t;
             rac_successor := plan_successor plan;
             rac_successor_capsule_hash := cap3_capsule_hash successor;
             rac_votes := votes
           |})
    ∧ runs (gather_activation_acks r unactivated activation activation_hash
        (card3_witness_fault_bound card * 2 + 1) (card3_witnesses card) []) s3
        (qc_witness_acks qc) s'
    ∧ (card3_witness_fault_bound card * 2 + 1 ≤ len (qc_witness_acks qc))%N
    ∧ qc = activation_qc r unactivated activation_hash (qc_witness_acks qc)
    ∧ successor
      = successor_capsule r p sealed (cap3_capsule_hash successor) (Some (activation, qc))
    ∧ activated card successor ∧ succeeds plan (rl_predecessor r) successor.

Lemma certify_successor_Ok r p s successor qc s' :
  certify_successor r p s = (Ok (successor, qc), s') → certified_by r p s successor qc s'.
Proof.
  intros H. unfold certify_successor in H. cbv zeta in H.
  runs_to H sealed s1 Hsealed. runs_to H now s2 Hnow. steps_to H hash Hready. steps_to H ch Hch.
  runs_to H votes s3 Hvotes. steps_to H rh Hrh. steps_to H ah Hah. runs_to H acks s4 Hacks.
  steps_to H u Hthr. steps_to H t Ht. steps_to H u1 Hact. injection H as <- <- <-.
  apply validate_activated_capsule_Ok in Hact. apply N.ltb_ge in Hthr.
  apply fmap_Ok in Hrh as (rt & Hrt%wire_Ok & <-).
  pose proof (ready_is_complete _ _ _ _ _ Hready) as (_ & _ & Hall & _).
  unfold certified_by. cbv zeta. do 9 eexists.
  split_and!; [exact Hsealed | exact Hnow | exact Hready | | exact Hvotes
    | by exists rt; split | exact Hacks | exact Hthr | done | done | exact Hact | done].
  intros route (ack & Hin & Hi & Hs & _ & _ & Hroot)%Hall. by exists ack.
Qed.

(** From [s] to [s'] the witnesses that acknowledged were given the certificate, and
    every successor answered that it activated its epoch. *)
Definition announced_by (r : Released) (successor : ConfigCapsuleV3) (qc : EpochActivationQc)
    (s s' : Net * Rng) : Prop :=
  let card := op_card (rl_opened r) in
  ∃ s1 now s2 s3 answer,
    let activate := GrActivate (rl_plan r) successor
      (sat_add now (cap3_max_request_lifetime (rl_predecessor r))) in
    runs (each (λ witness, exchange_ok EHttp (post_finalize (witness_url card witness "finalize") qc))
      (filter (λ witness, pin_witness_id witness ∈ waa_witness_id <$> qc_witness_acks qc)
        (card3_witnesses card))) s () s1
    ∧ runs ClientNet.wall_now s1 now s2
    ∧ in_turn (ask r activate) (λ answer, ∃ epoch, answer = GrActivated epoch)
        (gr3_mailbox <$> plan_new_roster (rl_plan r)) s2 s3
    ∧ runs (attempt (ask r activate (gr3_mailbox (pl_removed (rl_planned r))))) s3 answer s'.

Lemma announce_Ok r successor qc s u s' :
  announce r successor qc s = (Ok u, s') → announced_by r successor qc s s'.
Proof.
  intros H. unfold announce in H. cbv zeta in H. runs_to H u0 s1 Hu0. runs_to H now s2 Hnow.
  runs_to H u1 s3 Hu1. runs_to H answer s4 Ha. injection H as <- <-. destruct u0.
  apply each_in_turn in Hu1. exists s1, now, s2, s3, answer. cbv zeta. split_and!; try done.
  eapply in_turn_weaken; [| exact Hu1]. intros []; try done. by eexists.
Qed.

(** What is reported of a rotation. *)
Definition reported (r : Released) (qc : EpochActivationQc) : RotateV3Result := {|
  rvr_config_id := hex_encode (card3_config_id (op_card (rl_opened r)));
  rvr_predecessor_epoch := epoch_of (rl_predecessor r);
  rvr_successor_epoch := cr_guardian_epoch (plan_successor (rl_plan r));
  rvr_removed_guardian := gr3_guardian_index (pl_removed (rl_planned r));
  rvr_added_guardian := gr3_guardian_index (pl_added (rl_planned r));
  rvr_prepared_guardians := len (plan_new_roster (rl_plan r));
  rvr_witness_acknowledgements := len (qc_witness_acks qc);
  rvr_plaintext_decryptions := U64 0
|}.

Lemma rotate_v3_Ok options s result s' :
  rotate_v3 options s = (Ok result, s') →
  ∃ r s1 s2 s3 s4 p s5 successor qc s6 s7,
    runs (open_predecessor options) s (rl_opened r) s1
    ∧ runs (plan_rotation options (rl_opened r)) s1 (rl_planned r) s2
    ∧ runs (begin_rotation options (rl_opened r) (rl_planned r)) s2 (rl_begin r) s3
    ∧ runs (release_rotation (rl_opened r) (rl_planned r) (rl_begin r)) s3
        (rl_release r, rl_release_hash r) s4
    ∧ runs (prepare_successors r (rot3_remove_guardian options)) s4 p s5
    ∧ runs (certify_successor r p) s5 (successor, qc) s6
    ∧ runs (announce r successor qc) s6 () s7
    ∧ runs (exchange_ok EIo (write_file (rot3_owner_control_path options)
        (DocOwnerV3 (rotated_owner options r)))) s7 () s'
    ∧ result = reported r qc.
Proof.
  intros H. unfold rotate_v3 in H. runs_to H opened s1 Ho. runs_to H planned s2 Hp.
  runs_to H begin s3 Hb. apply SR_bind_Ok in H as ([release release_hash] & s4 & Hr & H).
  cbv zeta in H. runs_to H p s5 Hprep.
  apply SR_bind_Ok in H as ([successor qc] & s6 & Hc & H). runs_to H u1 s7 Ha.
  runs_to H u2 s8 Hw. injection H as <- <-. destruct u1, u2.
  exists (mkReleased opened planned begin release release_hash), s1, s2, s3, s4, p, s5, successor,
    qc, s6, s7. by split_and!.
Qed.

(** C5 (functional): a rotation that reports success has replaced one guardian by
    the rules.  It read the card and the owner's file at the paths of its
    options, the file belongs to the card, and it drew the key it asked the
    card's witnesses with, under a challenge of its own: its predecessor is an
    activated capsule that a witness quorum answered to that challenge, none of
    them a later epoch, and it is the epoch of the owner's file.  A signer
    threshold of valid contributions opened the descriptor, which is the one
    the predecessor commits to.  The plan takes exactly the named guardian out,
    keeps the identity of all others and adds one with a new index, operator
    and transport key; signer quorums began and, after the predecessor's delay,
    released it, each checked at the time the run's clock showed once the votes
    were in, and every successor accepted the begin; every successor signed
    that it is prepared with the material of the successor capsule; that
    capsule is activated by the signers' and the witnesses' answers to this
    run, of the next epoch, and the predecessor's but for its guardians; then
    every guardian of the new roster, asked in turn, reported its activation,
    and the owner's file was written with the new roster.  The result repeats
    these. *)
Theorem rotate_v3_sound options s result s' :
  rotate_v3 options s = (Ok result, s') →
  ∃ r challenge reads s1 kept s2 s3 s4 p s5 successor qc s6 s7,
    let card := op_card (rl_opened r) in
    let predecessor := rl_predecessor r in
    let plan := rl_plan r in
    opened_by options s (rl_opened r) challenge reads s1
    ∧ erc_config_id challenge = card3_config_id card
    ∧ erc_response_recipient_key challenge = rkp_public (op_coordinator (rl_opened r))
    ∧ activated card predecessor
    ∧ (∃ answers, answers `sublist_of` reads ∧ answer_quorum card challenge answers
        ∧ predecessor ∈ wre_capsule <$> answers
        ∧ ∀ a, a ∈ answers → (epoch_of (wre_capsule a) ≤ epoch_of predecessor)%N)
    ∧ runs (plan_rotation options (rl_opened r)) s1 (rl_planned r) s2
    ∧ replacement options (rl_opened r) (rl_planned r) kept
    ∧ begun_by options (rl_opened r) (rl_planned r) s2 (rl_begin r) s3
    ∧ plan_minimum_delay_secs plan = cap3_minimum_recovery_delay predecessor
    ∧ brot_not_before_wall (rl_begin r)
      = sat_add (ctx_issued_at (plan_context plan)) (cap3_minimum_recovery_delay predecessor)
    ∧ released_by (rl_opened r) (rl_planned r) (rl_begin r) s3 (rl_release r)
        (rl_release_hash r) s4
    ∧ runs (prepare_successors r (rot3_remove_guardian options)) s4 p s5
    ∧ certified_by r p s5 successor qc s6
    ∧ epoch_of successor = sat_add (epoch_of predecessor) (U64 1)
    ∧ announced_by r successor qc s6 s7
    ∧ runs (exchange_ok EIo (write_file (rot3_owner_control_path options)
        (DocOwnerV3 (rotated_owner options r)))) s7 () s'
    ∧ result = reported r qc ∧ rvr_removed_guardian result = rot3_remove_guardian options
    ∧ rvr_successor_epoch result = epoch_of successor.
Proof.
  intros (r & s1 & s2 & s3 & s4 & p & s5 & successor & qc & s6 & s7 & Ho & Hp & Hb & Hr & Hprep
    & Hc & Ha & Hw & ->)%rotate_v3_Ok.
  apply open_predecessor_Ok in Ho as (challenge & reads & Ho).
  pose proof Ho as (? & ? & ? & ? & ? & ? & ? & ? & ? & ? & ? & ? & ? & ? & _ & _ & _ & _ & _
    & (Hsel & Hcid & Hk)%ClientProps.read_latest_Ok & _).
  pose proof (select_activated _ _ _ _ Hsel) as Hact.
  apply select_inv in Hsel as (_ & _ & answers & Hsub & Hq & Hin & Hmax).
  pose proof Hp as (kept & succ & sid & count & oc & nc & Hrep & Hplan & He & _)%plan_rotation_Ok.
  apply begin_rotation_Ok in Hb. apply release_rotation_Ok in Hr.
  apply certify_successor_Ok in Hc. apply announce_Ok in Ha.
  pose proof Hc as (? & ? & ? & ? & ? & ? & ? & ? & ? & _ & _ & _ & _ & _ & _ & _ & _ & _ & _ & _
    & Hsucc & _).
  assert (Hnext : epoch_of successor = sat_add (epoch_of (rl_predecessor r)) (U64 1)).
  { unfold epoch_of. rewrite Hsucc. unfold rl_plan. rewrite Hplan. exact He. }
  exists r, challenge, reads, s1, kept, s2, s3, s4, p, s5, successor, qc, s6, s7.
  cbv zeta. split_and!; try done.
  - exists answers. split_and!; [done.. |]. intros a Hx. by apply Hmax.
  - unfold rl_plan. by rewrite Hplan.
  - pose proof Hb as (? & ? & ? & ? & ? & _ & _ & _ & -> & _). unfold rl_plan. by rewrite Hplan.
  - apply Hrep.
  - cbn. unfold epoch_of. by rewrite Hsucc.
Qed.

End rotation.

Section example.
Import RotationScenario.

Lemma rotate_v3_sound_witness :
  ∃ result r s1 successor qc,
    runs (exchange EIo (read_card_v3 (rot3_card_path rotate_options)))
      ((U64 1000, honest_rotation), 100%N) (op_card (rl_opened r)) s1
    ∧ result = reported r qc
    ∧ rvr_removed_guardian result = U16 3 ∧ rvr_added_guardian result = U16 4
    ∧ owner_of (op_card (rl_opened r)) (op_owner (rl_opened r))
    ∧ described_by (op_descriptor (rl_opened r)) (rl_predecessor r)
    ∧ activated (op_card (rl_opened r)) successor ∧ uval (epoch_of successor) = 2%N.
Proof.
  assert (H : ∃ result s', rotate_v3 rotate_options ((U64 1000, honest_rotation), 100%N)
      = (Ok result, s')
    ∧ rvr_removed_guardian result = U16 3 ∧ rvr_added_guardian result = U16 4
    ∧ uval (rvr_successor_epoch result) = 2%N)
    by (eexists _, _; split; [vm_compute; reflexivity | split_and!; reflexivity]).
  destruct H as (result & s' & H & Hr & Ha & He).
  destruct (rotate_v3_sound _ _ _ _ H) as (r & challenge & reads & s1 & kept & s2 & s3 & s4 & p
    & s5 & successor & qc & s6 & s7 & E). cbv zeta in E.
  destruct E as (Ho & _ & _ & _ & _ & _ & _ & _ & _ & _ & _ & _ & Hc & _ & _ & _ & Hres & _ & Hn).
  destruct Ho as (c1 & ? & ? & ? & ? & ? & ? & ? & ? & ? & ? & ? & ? & ? & Hcard & _ & Hown & _ & _
    & _ & _ & _ & _ & _ & _ & _ & _ & _ & _ & _ & _ & _ & Hdesc).
  destruct Hc as (? & ? & ? & ? & ? & ? & ? & ? & ? & _ & _ & _ & _ & _ & _ & _ & _ & _ & _ & Hact
    & _).
  exists result, r, c1, successor, qc.
  split_and!; [exact Hcard | exact Hres | exact Hr | exact Ha | exact Hown | exact Hdesc | exact Hact
    | rewrite <- Hn; exact He].
Defined.

End example.

End CoordinatorProps.
