(* ===== verification/RotationCancelProps.v ===== *)
(** What a successful owner cancel of a rotation means: too few witnesses are
    left to activate it and too few old guardians to hand off to it. *)

From S2P Require Export CancelRotation ClientProps CancelProps.
From S2P Require Import RotationScenario.

Module RotationCancelProps.
Export CancelRotation.

Section cancel.
Context `{Prims : Primitives} `{Sharing : SharingPrimitives} `{Frost : FrostPrimitives}.
Context `{Protocol : ProtocolPrimitives} `{World : Network} `{Json : ClientPrimitives}.
Context `{RWorld : !RotationNetwork} `{RJson : RotationJson}.

(** The guardian on [route] acknowledged this cancel of the plan. *)
Definition rotation_cancel_ack_ok (ack : OwnerRotationCancelAck) (route : GuardianRouteV3)
    (plan : RotationPlan) (cancel_hash : Id32) : Prop :=
  orca_context ack = plan_context plan
  ∧ (∃ t, rotation_plan plan = Ok t ∧ orca_plan_hash ack = sha256 t)
  ∧ orca_cancel_certificate_hash ack = cancel_hash
  ∧ orca_guardian_index ack = gr3_guardian_index route
  ∧ signed (gr3_guardian_public_key route) (owner_rotation_cancel_ack ack)
      (orca_guardian_signature ack).

Lemma rotation_cancel_ack_Ok ack route plan cancel_hash u :
  validate_owner_rotation_cancel_ack ack route plan cancel_hash = Ok u ↔
  rotation_cancel_ack_ok ack route plan cancel_hash.
Proof.
  unfold validate_owner_rotation_cancel_ack, rotation_cancel_ack_ok. cbv zeta.
  rewrite guard_Ok, neb_false, bind_Ok. split.
  - intros (E & h & (t & Ht%wire_Ok & <-)%fmap_Ok & H).
    rewrite guard_Ok, !orb_false_iff, !neb_false, signed_Ok in H. destruct H as (((E1 & E2) & E3) & H).
    split_and!; try done. by exists t.
  - intros (E & (t & Ht & E1) & E2 & E3 & H). split; [done |]. exists (orca_plan_hash ack).
    split; [| by rewrite guard_Ok, !orb_false_iff, !neb_false, signed_Ok].
    rewrite E1. apply fmap_Ok. exists t. split; [by apply wire_Ok | done].
Qed.

Lemma gather_vetoes_ids card plan certificate cancel_hash required witnesses ids acks s ids' acks' s' :
  gather_vetoes card plan certificate cancel_hash required witnesses ids acks s
    = (Ok (ids', acks'), s') →
  ids = list_to_set (wrca_witness_id <$> acks) → ids' = list_to_set (wrca_witness_id <$> acks').
Proof.
  revert ids acks s. induction witnesses as [|witness witnesses IH]; intros ids acks s H Hids;
    cbn [gather_vetoes] in H.
  - by injection H as <- <- <-.
  - apply SR_bind_Ok in H as (answer & s1 & _ & H).
    set (kept := match answer with Ok _ => _ | Err _ => _ end) in H.
    assert (kept.1 = list_to_set (wrca_witness_id <$> kept.2)) as Hk.
    { unfold kept. destruct answer as [ack |]; [| done].
      destruct (_ && _); [| done]. cbn [fst snd]. rewrite fmap_app, list_to_set_app_L, <- Hids.
      cbn. set_solver. }
    destruct kept as [ids1 acks1]. simpl in Hk.
    destruct (required <=? N.of_nat (size ids1))%N; [by injection H as <- <- <- | by eapply IH].
Qed.

Lemma gather_old_acks_Ok card recipient plan certificate cancel_hash routes ids s ids' s' :
  gather_old_acks card recipient plan certificate cancel_hash routes ids s = (Ok ids', s') →
  ∀ i, i ∈ ids' → i ∈ ids ∨ ∃ route ack, route ∈ routes ∧ gr3_guardian_index route = i
    ∧ rotation_cancel_ack_ok ack route plan cancel_hash.
Proof.
  revert ids s. induction routes as [|route routes IH]; intros ids s H i Hi;
    cbn [gather_old_acks] in H.
  - injection H as <- <-. by left.
  - steps_to H answer Ha. destruct (IH _ _ H i Hi) as [Hin | (r & a & Hr & ? & ?)];
      [| right; exists r, a; split; [by right | done]].
    destruct answer as [[] |]; try by left.
    destruct (validate_owner_rotation_cancel_ack ack route plan cancel_hash) as [u |] eqn:Hv;
      cbn [is_ok] in Hin; [| by left].
    apply elem_of_union in Hin as [Hx%elem_of_singleton | Hin]; [| by left].
    apply rotation_cancel_ack_Ok in Hv. right. exists route, ack. split; [by left |].
    split; [| done]. rewrite Hx. symmetry. apply Hv.
Qed.

Lemma required_old_acks_Ok plan required :
  required_old_acks plan = Some required →
  (plan_old_guardian_threshold plan <= len (plan_old_roster plan))%N
  ∧ (required = len (plan_old_roster plan) - plan_old_guardian_threshold plan + 1)%N.
Proof.
  unfold required_old_acks. cbv zeta. destruct (N.ltb_spec (len (plan_old_roster plan))
    (plan_old_guardian_threshold plan)) as [| Hle]; [done |].
  cbn. unfold checked_add, checked_usize. destruct (_ <? _)%N; [| done]. by intros [= <-].
Qed.

(** C18 (safety): when the owner's cancel of a rotation reports success, for the
    rotation-control and owner files that it read at the paths of its options,
    which name one rotation of one activated predecessor: at least 2f+1 pinned
    witnesses signed the veto of the certificate that it signed with the
    owner's key, and enough old guardians signed the cancel.  If the card's
    roster has at most 3f+1 witnesses, f+1 of those that signed the veto are in
    every activation quorum; nothing of the kind is claimed for the larger
    rosters that the code accepts too.  Whatever the roster, every set of old
    guardians of handoff-threshold size holds one that signed the cancel. *)
Theorem rotation_cancel_blocks options s result s' :
  cancel_rotation_v3 options s = (Ok result, s') →
  ∃ control s1 owner s2 now0 s3 plan_hash seed s4 unsigned cancel_hash acks s5 now s6
    (vetoing cancelled : gset u16) s7,
    let card := rcf_recovery_card control in
    let plan := rcf_plan control in
    let f := uval (card3_witness_fault_bound card) in
    let certificate := cancel_certificate control owner plan_hash
      (RecipientKeyPair_from_seed seed)
      (sign (signing_key (ocf3_owner_cancel_signing_seed owner)) unsigned) in
    runs (exchange EIo (read_rotation_control (crt_rotation_control_path options))) s control s1
    ∧ runs (exchange EIo (read_owner_control_v3 (crt_owner_control_path options))) s1 owner s2
    ∧ runs ClientNet.wall_now s2 now0 s3 ∧ runs (draw random_id) s3 seed s4
    ∧ control_mismatch control owner = false
    ∧ activated card (rcf_predecessor_capsule control)
    ∧ plan_ok plan (rcf_predecessor_capsule control) now0 plan_hash
    ∧ owner_rotation_cancel_certificate (cancel_certificate control owner plan_hash
        (RecipientKeyPair_from_seed seed) []) = Ok unsigned
    ∧ crr_rotation_id result = hex_encode (ctx_rotation_id (plan_context plan))
    ∧ runs (gather_vetoes card plan certificate cancel_hash (2 * f + 1)%N (card3_witnesses card)
        ∅ []) s4 (vetoing, acks) s5
    ∧ runs ClientNet.wall_now s5 now s6
    ∧ owner_cancel_ok certificate acks card plan (rcf_predecessor_capsule control) now cancel_hash
    ∧ vetoing = list_to_set (wrca_witness_id <$> acks)
    ∧ (2 * f + 1 <= N.of_nat (size vetoing))%N
    ∧ runs (gather_old_acks card (RecipientKeyPair_from_seed seed) plan certificate cancel_hash
        (plan_old_roster plan) ∅) s6 cancelled s7
    ∧ crr_witness_acknowledgements result = N.of_nat (size vetoing)
    ∧ crr_old_guardian_acknowledgements result = N.of_nat (size cancelled)
    ∧ crr_permanently_cancelled result = true
    ∧ (∀ quorum : gset u16,
        quorum ⊆ roster card → (2 * f + 1 <= N.of_nat (size quorum))%N →
        (N.of_nat (size (roster card)) <= 3 * f + 1)%N →
        (f + 1 <= N.of_nat (size (quorum ∩ vetoing)))%N)
    ∧ (∀ i, i ∈ cancelled → ∃ route ack, route ∈ plan_old_roster plan
        ∧ gr3_guardian_index route = i ∧ rotation_cancel_ack_ok ack route plan cancel_hash)
    ∧ ∀ handoff : gset u16,
        handoff ⊆ list_to_set (gr3_guardian_index <$> plan_old_roster plan) →
        (plan_old_guardian_threshold plan <= N.of_nat (size handoff))%N →
        ∃ i, i ∈ handoff ∧ i ∈ cancelled.
Proof.
  intros H. unfold cancel_rotation_v3 in H. cbv zeta in H.
  runs_to H control s1 Hcontrol. runs_to H owner s2 Howner. steps_to H u0 Hmatch.
  steps_to H u1 Hact. runs_to H now0 s3 Hnow0. steps_to H plan_hash Hplan.
  runs_to H seed s4 Hseed. steps_to H unsigned Hunsigned.
  set (certificate := cancel_certificate _ _ _ _ (sign _ _)) in *.
  steps_to H cancel_hash Hch. steps_to H required Hreq.
  apply SR_bind_Ok in H as ([vetoing acks] & s5 & Hv & H). steps_to H u2 Hthr.
  runs_to H now s6 Hnow. steps_to H hash Hquorum. runs_to H cancelled s7 Hold.
  steps_to H required_old Hro. steps_to H u3 Hthr'. steps_to H u4 Htell. steps_to H u5 Habort.
  steps_to H confirmed Hconf.
  injection H as <- <-. destruct u1. apply validate_activated_capsule_Ok in Hact.
  apply validate_owner_cancel_Ok in Hquorum. apply validate_rotation_plan_Ok in Hplan.
  unfold required_vetoes in Hreq. rewrite usize_exact in Hreq by done. injection Hreq as <-.
  pose proof Hv as Hrun. rewrite wire_Ok in Hunsigned.
  assert (hash = cancel_hash) as ->.
  { apply fmap_Ok in Hch as (t & Ht%wire_Ok & <-).
    destruct Hquorum as (_&_&_&_&_&_&_& (t' & Ht' & -> & _) & _). congruence. }
  apply gather_vetoes_ids in Hv; [| done]. apply N.ltb_ge in Hthr, Hthr'.
  assert (Hacked : ∀ i, i ∈ cancelled → ∃ route ack, route ∈ plan_old_roster (rcf_plan control)
    ∧ gr3_guardian_index route = i
    ∧ rotation_cancel_ack_ok ack route (rcf_plan control) cancel_hash).
  { intros i Hi. by destruct (gather_old_acks_Ok _ _ _ _ _ _ _ _ _ _ Hold i Hi) as [?%elem_of_empty |]. }
  exists control, s1, owner, s2, now0, s3, plan_hash, seed, s4, unsigned, cancel_hash, acks, s5,
    now, s6, vetoing, cancelled, s7. cbv zeta. fold certificate.
  split_and!; try done.
  - intros quorum Hsub Hsize Hroster.
    assert (vetoing ⊆ roster (rcf_recovery_card control)) as Hvs.
    { rewrite Hv. intros i (ack & -> & Hin)%elem_of_list_to_set%list_elem_of_fmap.
      destruct Hquorum as (Hcard&_&_&_&_&_&_&_&_& Hall & _).
      destruct (Hall ack Hin) as (_&_&_&_&_& pin & Hpin & _).
      apply elem_of_list_to_set. apply btree_collect_elem in Hpin.
      apply list_elem_of_fmap in Hpin as (pin' & [= E ->] & Hp). rewrite E. by apply list_elem_of_fmap_2. }
    pose proof (size_overlap (roster (rcf_recovery_card control)) quorum vetoing Hsub Hvs). lia.
  - intros handoff Hsub Hsize.
    apply (CancelProps.quorums_meet
      (list_to_set (gr3_guardian_index <$> plan_old_roster (rcf_plan control))) cancelled handoff
      (N.to_nat (plan_old_guardian_threshold (rcf_plan control)))); [| done | lia |].
    + intros i (route & ack & Hr & <- & _)%Hacked. apply elem_of_list_to_set.
      by apply list_elem_of_fmap_2.
    + apply required_old_acks_Ok in Hro as [Hle ->].
      pose proof (size_list_to_set_le (gr3_guardian_index <$> plan_old_roster (rcf_plan control))) as Hs.
      rewrite length_fmap in Hs. unfold len in *. lia.
Qed.

End cancel.

Section example.
Import RotationScenario.

Lemma rotation_cancel_blocks_witness :
  ∃ (result : CancelRotationV3Result) control s1 (vetoing cancelled : gset u16),
    runs (exchange EIo (read_rotation_control (crt_rotation_control_path cancel_options)))
      ((U64 1003, [Some x0f; Some x10; None]), 100%N) control s1
    ∧ crr_permanently_cancelled result = true
    ∧ crr_rotation_id result = hex_encode (ctx_rotation_id (plan_context (rcf_plan control)))
    ∧ N.of_nat (size vetoing) = 3%N ∧ N.of_nat (size cancelled) = 2%N.
Proof.
  assert (H : ∃ result s',
    cancel_rotation_v3 cancel_options ((U64 1003, [Some x0f; Some x10; None]), 100%N)
      = (Ok result, s')
    ∧ crr_witness_acknowledgements result = 3%N
    ∧ crr_old_guardian_acknowledgements result = 2%N)
    by (eexists _, _; split; [vm_compute; reflexivity | split; reflexivity]).
  destruct H as (result & s' & H & Hw & Hg).
  destruct (rotation_cancel_blocks _ _ _ _ H)
    as (control & s1 & owner & s2 & now0 & s3 & plan_hash & seed & s4 & unsigned & cancel_hash
      & acks & s5 & now & s6 & vetoing & cancelled & s7 & E). cbv zeta in E.
  destruct E as (Hc & _ & _ & _ & _ & _ & _ & _ & Hid & _ & _ & _ & _ & _ & _ & Ev & Eg & Hp & _).
  exists result, control, s1, vetoing, cancelled.
  split; [exact Hc | split; [exact Hp | split; [exact Hid | split]]];
    [rewrite <- Ev; exact Hw | rewrite <- Eg; exact Hg].
Defined.

End example.

End RotationCancelProps.
