(* ===== verification/Transport.v ===== *)
(** The simulated transport of crates/gp-transport/src/lib.rs: what a global
    observer sees of real and cover messages, and that in strong mode it does
    not depend on which are which.

    The generator is a parameter.  Arithmetic is that of a build with overflow
    checks: where it would panic, the simulation has no result. *)

From Stdlib Require Import HexadecimalString.
From stdpp Require Import sorting pretty.
From S2P Require Export Sharing.

(** rand: [StdRng], [random_range(0..100)] at [u8], [random_range(a..=b)] at
    [u64] for a range that is not empty, [random] at [u16]. *)
Class TransportRng : Type := {
  StdRng : Type;
  seed_from_u64 : u64 → StdRng;
  random_percent : StdRng → u8 * StdRng;
  random_range : u64 → u64 → StdRng → u64 * StdRng;
  random_u16 : StdRng → u16 * StdRng
}.

(** ** Data *)

Record TransportConfig : Set := mkTransportConfig {
  tc_mode : MetadataMode;
  tc_base_latency_ms : u64;
  tc_epoch_ms : u64;
  tc_cover_rate : u16;
  tc_hops : u8;
  tc_cell_size : N;
  tc_loss_percent : u8;
  tc_duplicate_percent : u8;
  tc_mix_drop_percent : u8
}.

Definition for_mode (mode : MetadataMode) : TransportConfig :=
  let make base_latency_ms epoch_ms cover_rate hops cell_size := {|
    tc_mode := mode;
    tc_base_latency_ms := U64 base_latency_ms;
    tc_epoch_ms := U64 epoch_ms;
    tc_cover_rate := U16 cover_rate;
    tc_hops := U8 hops;
    tc_cell_size := cell_size;
    tc_loss_percent := U8 0;
    tc_duplicate_percent := U8 0;
    tc_mix_drop_percent := U8 0
  |} in
  match mode with
  | MetadataOff => make 10%N 0%N 0%N 1%N 0%N
  | MetadataBasic => make 80%N 0%N 0%N 3%N 0%N
  | MetadataStrong => make 120%N 250%N 3%N 3%N 2048%N
  end.

Record ObserverPacket : Set := mkObserverPacket {
  op_timestamp_ms : u64;
  op_size_bucket : N;
  op_previous_hop : string;
  op_next_hop : string;
  op_outer_format : string;
  op_epoch : u64;
  op_mailbox_tag : string
}.

Record ObserverSummary : Set := mkObserverSummary {
  os_mode : MetadataMode;
  os_real_packets_kernel_only : N;
  os_total_observed_packets : N;
  os_attempted_packets : N;
  os_dropped_packets : N;
  os_duplicated_packets : N;
  os_cover_packets : N;
  os_fixed_outer_format : bool;
  os_trivially_isolatable : bool;
  os_remaining_leakage : string;
  os_packets : list ObserverPacket
}.

Record KernelPacket : Set := mkKernelPacket {
  kp_visible : ObserverPacket;
  kp_is_real : bool
}.

Module Transport.

(** Where a build with overflow checks stops. *)
Inductive Panic : Set := Overflow | DivisionByZero.
Abbreviation Sim A := (SR StdRng Panic A).

Section transport.
Context `{Prims : Primitives} `{Sharing : SharingPrimitives} `{Generator : TransportRng}.

Definition protect_payload (recipient : list byte) (kem_seed : Id32) (nonce : barr 24)
    (plaintext ctx : list byte) : Result CryptoError SealedMessage :=
  seal_to_recipient recipient kem_seed nonce plaintext ctx.

(** ** Drawing and counting *)

Definition roll {A} (draw : StdRng → A * StdRng) : Sim A := λ rng,
  let '(a, rng) := draw rng in (Ok a, rng).
Definition as_u64 (n : N) : Sim u64 := lift (ok_or (try_u64 n) Overflow).
Definition as_usize (n : N) : Sim N := lift (ok_or (checked_usize n) Overflow).

(** [a.div_ceil(b)]. *)
Definition quotient_up (a b : N) : N := ((a + b - 1) / b)%N.

(** [{:04x}] and [{:02x}]. *)
Definition hex_padded (width : nat) (n : N) : string :=
  let digits := NilZero.string_of_uint (N.to_hex_uint n) in
  String.concat "" (replicate (width - String.length digits) "0"%string) +:+ digits.

(** [starts_with("mix-")]. *)
Definition is_mix (hop : string) : bool := String.prefix "mix-" hop.

(** ** Routes *)

(** [payload_size.next_power_of_two()]. *)
Definition next_power_of_two (n : N) : Sim N := as_usize (2 ^ N.log2_up n).

Definition size_bucket_of (config : TransportConfig) (payload_size : N) : Sim N :=
  if decide (tc_mode config = MetadataStrong) then mret (tc_cell_size config)
  else if (payload_size <=? 1024)%N then mret 1024%N
  else next_power_of_two payload_size.

Definition jitter_of (config : TransportConfig) : Sim u64 :=
  if decide (tc_mode config = MetadataOff) then mret (U64 0)
  else roll (random_range (U64 5) (U64 (N.max (tc_base_latency_ms config) 5))).

(** One turn of the loop over the hops. *)
Definition append_hop (config : TransportConfig) (hops : N) (base epoch epoch_start : u64)
    (is_real : bool) (payload_size : N) (hop : N) : Sim KernelPacket :=
  suffix ← roll random_u16;
  let mailbox_tag := "mbx-" +:+ hex_padded 4 (uval epoch) +:+ "-" +:+ hex_padded 2 hop +:+ "-"
    +:+ hex_padded 4 (uval suffix) in
  jitter ← jitter_of config;
  timestamp_ms ← as_u64 (if decide (tc_mode config = MetadataStrong)
    then epoch_start + uval jitter + hop * 7
    else base + uval jitter + hop * tc_base_latency_ms config)%N;
  size_bucket ← size_bucket_of config payload_size;
  mret {|
    kp_visible := {|
      op_timestamp_ms := timestamp_ms;
      op_size_bucket := size_bucket;
      op_previous_hop := if (hop =? 0)%N then "opaque-client" else "mix-" +:+ pretty hop;
      op_next_hop := if (hop + 1 =? hops)%N then "opaque-mailbox" else "mix-" +:+ pretty (hop + 1)%N;
      op_outer_format := if decide (tc_mode config = MetadataStrong) then "gp-cell/v1"
                         else "encrypted-envelope";
      op_epoch := epoch;
      op_mailbox_tag := mailbox_tag
    |};
    kp_is_real := is_real
  |}.

Fixpoint append_hops (append : N → Sim KernelPacket) (from : N) (count : nat) :
    Sim (list KernelPacket) :=
  match count with
  | O => mret []
  | S count =>
      packet ← append from;
      packets ← append_hops append (from + 1) count;
      mret (packet :: packets)
  end.

Definition append_route (config : TransportConfig) (sequence : N) (is_real : bool)
    (payload_size : N) : Sim (list KernelPacket) :=
  let hops := N.max (tc_hops config) 1 in
  base ← as_u64 (sequence * tc_base_latency_ms config);
  epoch ← as_u64 (if (uval (tc_epoch_ms config) =? 0)%N then 0
                  else quotient_up base (tc_epoch_ms config));
  epoch_start ← as_u64 (epoch * tc_epoch_ms config);
  append_hops (append_hop config hops base epoch epoch_start is_real payload_size) 0
    (N.to_nat hops).

(** [for message in 0..count], of messages numbered from [start]. *)
Fixpoint append_routes (config : TransportConfig) (start : N) (count : nat) (is_real : bool)
    (payload_size : N) : Sim (list KernelPacket) :=
  match count with
  | O => mret []
  | S count =>
      sequence ← as_usize start;
      route ← append_route config sequence is_real payload_size;
      routes ← append_routes config (start + 1) count is_real payload_size;
      mret (route ++ routes)
  end.

(** ** Faults *)

(** Whether the packet is kept: the second draw is only made for packets that
    touch a mix and are not lost before. *)
Definition survives (config : TransportConfig) (packet : KernelPacket) : Sim bool :=
  loss ← roll random_percent;
  let network_drop := (uval loss <? N.min (tc_loss_percent config) 100)%N in
  let touches_mix := is_mix (op_previous_hop (kp_visible packet))
    || is_mix (op_next_hop (kp_visible packet)) in
  mix_drop ← if touches_mix then
      drop ← roll random_percent; mret (uval drop <? N.min (tc_mix_drop_percent config) 100)%N
    else mret false;
  mret (negb network_drop && negb mix_drop).

Definition duplicates (config : TransportConfig) (packet : KernelPacket) : Sim bool :=
  draw ← roll random_percent;
  mret (uval draw <? N.min (tc_duplicate_percent config) 100)%N.

(** [retain] and [filter]. *)
Fixpoint retain (keep : KernelPacket → Sim bool) (packets : list KernelPacket) :
    Sim (list KernelPacket) :=
  match packets with
  | [] => mret []
  | packet :: packets =>
      kept ← keep packet;
      rest ← retain keep packets;
      mret (if kept : bool then packet :: rest else rest)
  end.

Definition delayed (packet : KernelPacket) : KernelPacket :=
  let visible := kp_visible packet in {|
  kp_visible := {|
    op_timestamp_ms := sat_add (op_timestamp_ms visible) (U64 1);
    op_size_bucket := op_size_bucket visible;
    op_previous_hop := op_previous_hop visible;
    op_next_hop := op_next_hop visible;
    op_outer_format := op_outer_format visible;
    op_epoch := op_epoch visible;
    op_mailbox_tag := op_mailbox_tag visible
  |};
  kp_is_real := kp_is_real packet
|}.

(** [sort_by_key(|packet| packet.visible.timestamp_ms)]. *)
Definition before (a b : KernelPacket) : Prop :=
  (op_timestamp_ms (kp_visible a) ≤ op_timestamp_ms (kp_visible b))%N.
#[export] Instance before_dec : RelDecision before.
Proof. intros a b. unfold before. apply _. Defined.
Definition sort_packets (packets : list KernelPacket) : list KernelPacket :=
  merge_sort before packets.

(** ** The observer *)

(** The cells that real messages fill. *)
Definition real_cells (config : TransportConfig) (real_messages payload_size : N) : Sim N :=
  if decide (tc_mode config = MetadataStrong) then
    if (tc_cell_size config =? 0)%N then lift (Err DivisionByZero)
    else as_usize (N.max (quotient_up payload_size (tc_cell_size config)) 1 * real_messages)
  else mret real_messages.

Definition cover_messages (config : TransportConfig) : N :=
  if decide (tc_mode config = MetadataStrong) then tc_cover_rate config * 12 else 0.

Definition remaining_leakage (mode : MetadataMode) : string :=
  match mode with
  | MetadataOff => "Endpoints, timing, volume, and approximate payload size are visible."
  | MetadataBasic => "A global observer still sees timing, volume, and variable packet sizes."
  | MetadataStrong =>
      "Timing, total volume, adjacent hops, size bucket, and endpoint participation remain visible."
  end.

Definition observe (config : TransportConfig) (real_messages payload_size : N) :
    Sim ObserverSummary :=
  cells ← real_cells config real_messages payload_size;
  real ← append_routes config 0 (N.to_nat cells) true payload_size;
  cover ← append_routes config cells (N.to_nat (cover_messages config)) false
    (tc_cell_size config);
  let attempted := real ++ cover in
  packets ← retain (survives config) attempted;
  duplicated ← retain (duplicates config) packets;
  let observed := sort_packets (packets ++ (delayed <$> duplicated)) in
  let real_count := len (filter (λ packet, kp_is_real packet = true) observed) in
  mret {|
    os_mode := tc_mode config;
    os_real_packets_kernel_only := real_count;
    os_total_observed_packets := len observed;
    os_attempted_packets := len attempted;
    os_dropped_packets := len attempted - len packets;
    os_duplicated_packets := len duplicated;
    os_cover_packets := len observed - real_count;
    os_fixed_outer_format := bool_decide (tc_mode config = MetadataStrong);
    os_trivially_isolatable := bool_decide (tc_mode config = MetadataOff);
    os_remaining_leakage := remaining_leakage (tc_mode config);
    os_packets := kp_visible <$> observed
  |}.

Definition simulate_observer (config : TransportConfig) (seed : u64)
    (real_messages payload_size : N) : Result Panic ObserverSummary :=
  (observe config real_messages payload_size (seed_from_u64 seed)).1.

End transport.

End Transport.
