(* ===== verification/TransportProps.v ===== *)
(** In strong mode what the observer sees depends on the number of cells only:
    not on which of them are real, nor on the sizes of the payloads. *)

From stdpp Require Import sorting.
From S2P Require Export Transport.

Module TransportProps.
Export Transport.

(** ** Runs that cannot be told apart *)

Section alike.
Context `{Generator : TransportRng}.

(** From the same generator the two panic alike, or leave the same generator
    and related values. *)
Definition alike {A B} (R : A → B → Prop) (m : Sim A) (m' : Sim B) : Prop :=
  ∀ rng, match m rng, m' rng with
         | (Ok a, s), (Ok b, s') => s = s' ∧ R a b
         | (Err e, s), (Err e', s') => e = e' ∧ s = s'
         | _, _ => False
         end.

Lemma alike_refl {A} (m : Sim A) : alike eq m m.
Proof. intros rng. by destruct (m rng) as [[a | e] s]. Qed.

Lemma alike_ret {A B} (R : A → B → Prop) a b : R a b → alike R (mret a) (mret b).
Proof. intros H rng. done. Qed.

Lemma alike_bind {A B C D} (R : A → B → Prop) (Q : C → D → Prop) m m' f g :
  alike R m m' → (∀ a b, R a b → alike Q (f a) (g b)) → alike Q (m ≫= f) (m' ≫= g).
Proof.
  intros Hm Hf rng. specialize (Hm rng). unfold mbind, SR_bind.
  destruct (m rng) as [[a | e] s], (m' rng) as [[b | e'] s']; try done.
  destruct Hm as [<- HR]. apply (Hf a b HR s).
Qed.

Lemma alike_bind_same {A C D} (Q : C → D → Prop) (m : Sim A) f g :
  (∀ a, alike Q (f a) (g a)) → alike Q (m ≫= f) (m ≫= g).
Proof. intros Hf. apply (alike_bind eq); [apply alike_refl | by intros a b ->]. Qed.

Lemma alike_ext {A B} (R : A → B → Prop) m m1 m' :
  (∀ rng, m1 rng = m rng) → alike R m m' → alike R m1 m'.
Proof. intros E H rng. rewrite E. apply H. Qed.

Lemma alike_assoc {A B C D} (R : C → D → Prop) (m : Sim A) (f : A → Sim B) (g : B → Sim C) m' :
  alike R (m ≫= λ a, f a ≫= g) m' → alike R ((m ≫= f) ≫= g) m'.
Proof.
  apply alike_ext. intros rng. unfold mbind, SR_bind. by destruct (m rng) as [[] s].
Qed.

Lemma alike_join {A B} (R : A → B → Prop) (Q : A → A → Prop) n m m' :
  alike R m n → alike R m' n → (∀ a b c, R a c → R b c → Q a b) → alike Q m m'.
Proof.
  intros H H' HQ rng. specialize (H rng). specialize (H' rng).
  destruct (m rng) as [[a | e] s], (m' rng) as [[b | e'] s'], (n rng) as [[c | e''] s''];
    try done; destruct H as [? ?], H' as [? ?]; split; try congruence; by eapply HQ.
Qed.

Lemma alike_Ok {A B} (R : A → B → Prop) m m' rng a b s s' :
  alike R m m' → m rng = (Ok a, s) → m' rng = (Ok b, s') → R a b.
Proof. intros H E E'. specialize (H rng). rewrite E, E' in H. apply H. Qed.

(** ** Packets that look the same *)

Definition same (p q : KernelPacket) : Prop := kp_visible p = kp_visible q.

Lemma alike_hops append append' from n :
  (∀ hop, alike same (append hop) (append' hop)) →
  alike (Forall2 same) (append_hops append from n) (append_hops append' from n).
Proof.
  intros H. revert from. induction n as [|n IH]; intros from; [by apply alike_ret |].
  cbn [append_hops]. apply (alike_bind same); [apply H | intros p q Hp].
  apply (alike_bind (Forall2 same)); [apply IH | intros ps qs Hps].
  apply alike_ret. by constructor.
Qed.

Section strong.
Context (config : TransportConfig) (Hstrong : tc_mode config = MetadataStrong).

Lemma alike_route sequence real size real' size' :
  alike (Forall2 same) (append_route config sequence real size)
    (append_route config sequence real' size').
Proof.
  unfold append_route. cbv zeta. do 3 (apply alike_bind_same; intros ?).
  apply alike_hops. intros hop. unfold append_hop. do 3 (apply alike_bind_same; intros ?).
  unfold size_bucket_of. rewrite Hstrong. cbn [decide].
  apply alike_bind_same. intros bucket. by apply alike_ret.
Qed.

Lemma alike_routes start n real size real' size' :
  alike (Forall2 same) (append_routes config start n real size)
    (append_routes config start n real' size').
Proof.
  revert start. induction n as [|n IH]; intros start; [by apply alike_ret |].
  cbn [append_routes]. apply alike_bind_same. intros sequence.
  apply (alike_bind (Forall2 same)); [apply alike_route | intros l k Hl].
  apply (alike_bind (Forall2 same)); [apply IH | intros l' k' Hl'].
  apply alike_ret. by apply Forall2_app.
Qed.

(** Real messages and then cover are like one row of messages. *)
Lemma alike_row start a b real size real' size' real'' size'' :
  alike (Forall2 same)
    (l ← append_routes config start a real size;
     k ← append_routes config (start + N.of_nat a) b real' size'; mret (l ++ k))
    (append_routes config start (a + b) real'' size'').
Proof.
  revert start. induction a as [|a IH]; intros start.
  - apply (alike_ext _ (append_routes config start b real' size')); [| apply alike_routes].
    intros rng. cbn [append_routes]. unfold mbind, SR_bind, mret, SR_ret.
    change (N.of_nat 0) with 0%N. rewrite N.add_0_r.
    by destruct (append_routes config start b real' size' rng) as [[l |] s].
  - cbn [append_routes plus].
    replace (start + N.of_nat (S a))%N with (start + 1 + N.of_nat a)%N by lia.
    apply alike_assoc, alike_bind_same. intros sequence.
    apply alike_assoc, (alike_bind (Forall2 same)); [apply alike_route | intros l k Hl].
    apply (alike_ext _
      (x ← (l1 ← append_routes config (start + 1) a real size;
            l2 ← append_routes config (start + 1 + N.of_nat a) b real' size'; mret (l1 ++ l2));
       mret (l ++ x))).
    + intros rng. unfold mbind, SR_bind, mret, SR_ret.
      destruct (append_routes config (start + 1) a real size rng) as [[l1 |] s1]; [| done].
      destruct (append_routes _ _ b real' size' s1) as [[l2 |] s2]; [| done].
      by rewrite (assoc_L (++)).
    + apply (alike_bind (Forall2 same)); [apply IH | intros l1 k1 Hl1].
      apply alike_ret. by apply Forall2_app.
Qed.

End strong.

(** ** Faults and sorting do not look *)

Lemma alike_retain keep packets packets' :
  (∀ p q, same p q → alike eq (keep p) (keep q)) → Forall2 same packets packets' →
  alike (Forall2 same) (retain keep packets) (retain keep packets').
Proof.
  intros Hk. induction 1 as [|p q packets packets' Hp _ IH]; [by apply alike_ret |].
  cbn [retain]. apply (alike_bind eq); [by apply Hk | intros kept ? <-].
  apply (alike_bind (Forall2 same)); [exact IH | intros l k Hl].
  apply alike_ret. destruct kept; [by constructor | done].
Qed.

Lemma alike_survives config p q : same p q → alike eq (survives config p) (survives config q).
Proof. unfold same, survives. intros ->. apply alike_refl. Qed.

Lemma same_before p q p' q' : same p p' → same q q' → before p q ↔ before p' q'.
Proof. unfold same, before. by intros -> ->. Qed.

Lemma list_merge_same l1 k1 l2 k2 :
  Forall2 same l1 k1 → Forall2 same l2 k2 →
  Forall2 same (list_merge before l1 l2) (list_merge before k1 k2).
Proof.
  intros H1. revert l2 k2. induction H1 as [|x x' l1 k1 Hx H1 IH1]; intros l2 k2 H2.
  - by rewrite !list_merge_nil_l.
  - induction H2 as [|y y' l2 k2 Hy H2 IH2].
    + rewrite !list_merge_nil_r. by constructor.
    + rewrite !list_merge_cons.
      rewrite (decide_ext (before x y) (before x' y')) by by apply same_before.
      destruct (decide (before x' y')); constructor; try done.
      apply IH1. by constructor.
Qed.

Lemma sort_same packets packets' :
  Forall2 same packets packets' → Forall2 same (sort_packets packets) (sort_packets packets').
Proof.
  intros H. unfold sort_packets, merge_sort.
  cut (∀ st st' : list (option (list KernelPacket)), Forall2 (option_Forall2 (Forall2 same)) st st' →
    Forall2 same (merge_sort_aux before st packets) (merge_sort_aux before st' packets')).
  { intros Hc. by apply Hc. }
  assert (Hpush : ∀ st st' l k, Forall2 (option_Forall2 (Forall2 same)) st st' →
    Forall2 same l k → Forall2 (option_Forall2 (Forall2 same))
      (merge_list_to_stack before st l) (merge_list_to_stack before st' k)).
  { intros st st' l k Hst. revert l k. induction Hst as [|o o' st st' Ho Hst IH]; intros l k Hl.
    - cbn. constructor; [by constructor | constructor].
    - destruct Ho as [l1 k1 Hl1 |]; cbn; constructor; try constructor; try done.
      apply IH. by apply list_merge_same. }
  induction H as [|p q packets packets' Hp H IH]; intros st st' Hst; cbn [merge_sort_aux].
  - induction Hst as [|o o' st st' Ho Hst IH]; [constructor |].
    destruct Ho as [l k Hl |]; cbn [merge_stack]; [by apply list_merge_same | done].
  - apply IH, Hpush; [done |]. by constructor.
Qed.

Lemma same_visible packets packets' :
  Forall2 same packets packets' ↔ kp_visible <$> packets = kp_visible <$> packets'.
Proof.
  split.
  - induction 1 as [|p q l k Hp _ IH]; [done |]. cbn. by rewrite Hp, IH.
  - revert packets'. induction packets as [|p l IH]; intros [|q k]; try done.
    intros [= Hp Hl]. constructor; [done | by apply IH].
Qed.

Lemma same_join l k k' : Forall2 same l k' → Forall2 same k k' → Forall2 same l k.
Proof. rewrite !same_visible. congruence. Qed.

(** ** The observer *)

Definition with_cover (config : TransportConfig) (cover_rate : u16) : TransportConfig := {|
  tc_mode := tc_mode config;
  tc_base_latency_ms := tc_base_latency_ms config;
  tc_epoch_ms := tc_epoch_ms config;
  tc_cover_rate := cover_rate;
  tc_hops := tc_hops config;
  tc_cell_size := tc_cell_size config;
  tc_loss_percent := tc_loss_percent config;
  tc_duplicate_percent := tc_duplicate_percent config;
  tc_mix_drop_percent := tc_mix_drop_percent config
|}.

Lemma append_routes_cover config c start n real size :
  append_routes (with_cover config c) start n real size = append_routes config start n real size.
Proof.
  revert start. induction n as [|n IH]; intros start; [done |].
  cbn [append_routes]. change (append_route (with_cover config c)) with (append_route config).
  by rewrite IH.
Qed.

(** What [observe] does with the packets it attempts. *)
Definition spread (config : TransportConfig) (attempted : list KernelPacket) :
    Sim (list KernelPacket * list KernelPacket * list KernelPacket) :=
  packets ← retain (survives config) attempted;
  duplicated ← retain (duplicates config) packets;
  mret (attempted, packets, duplicated).

Definition alike_spreads
    (x y : list KernelPacket * list KernelPacket * list KernelPacket) : Prop :=
  Forall2 same x.1.1 y.1.1 ∧ Forall2 same x.1.2 y.1.2 ∧ Forall2 same x.2 y.2.

Lemma alike_spread config attempted attempted' :
  Forall2 same attempted attempted' →
  alike alike_spreads (spread config attempted) (spread config attempted').
Proof.
  intros H. unfold spread.
  apply (alike_bind (Forall2 same)); [by apply alike_retain; [apply alike_survives |] |].
  intros l k Hl. apply (alike_bind (Forall2 same)).
  - apply alike_retain; [| exact Hl]. intros p q _. apply alike_refl.
  - intros l' k' Hl'. by apply alike_ret.
Qed.

Definition cells (config : TransportConfig) (real_messages payload_size : N) : N :=
  N.max (quotient_up payload_size (tc_cell_size config)) 1 * real_messages.

(** The packets of a strong observation come from one row of messages. *)
Definition row (config : TransportConfig) (a b : nat) (size : N) : Sim (list KernelPacket) :=
  l ← append_routes config 0 a true size;
  k ← append_routes config (0 + N.of_nat a) b false (tc_cell_size config);
  mret (l ++ k).

Definition observed (summary : ObserverSummary)
    (x : list KernelPacket * list KernelPacket * list KernelPacket) : Prop :=
  let shown := sort_packets (x.1.2 ++ (delayed <$> x.2)) in
  os_packets summary = kp_visible <$> shown
  ∧ os_total_observed_packets summary = len shown
  ∧ os_attempted_packets summary = len x.1.1
  ∧ os_dropped_packets summary = (len x.1.1 - len x.1.2)%N
  ∧ os_duplicated_packets summary = len x.2
  ∧ (os_mode summary = MetadataStrong ∧ os_fixed_outer_format summary = true
     ∧ os_trivially_isolatable summary = false
     ∧ os_remaining_leakage summary = remaining_leakage MetadataStrong)
  ∧ (os_real_packets_kernel_only summary + os_cover_packets summary
     = os_total_observed_packets summary)%N.

Lemma strong_observe_Ok config real_messages payload_size rng summary rng' :
  tc_mode config = MetadataStrong →
  observe config real_messages payload_size rng = (Ok summary, rng') →
  ∃ x, (row config (N.to_nat (cells config real_messages payload_size))
          (N.to_nat (tc_cover_rate config * 12)) payload_size ≫= spread config) rng = (Ok x, rng')
    ∧ observed summary x.
Proof.
  intros Hs H. unfold observe, real_cells, cover_messages in H. rewrite !Hs in H.
  cbn [decide] in H. apply SR_bind_Ok in H as (count & s1 & Hc & H).
  destruct (_ =? 0)%N; [done |]. apply lift_Ok in Hc as [Hc%ok_or_Ok ->].
  unfold checked_usize in Hc. destruct (_ <? _)%N; [| done]. injection Hc as <-.
  apply SR_bind_Ok in H as (l & s1 & Hl & H). apply SR_bind_Ok in H as (k & s2 & Hk & H).
  cbv zeta in H. apply SR_bind_Ok in H as (packets & s3 & Hp & H).
  apply SR_bind_Ok in H as (duplicated & s4 & Hd & H). injection H as <- <-.
  exists (l ++ k, packets, duplicated). split; cycle 1.
  { unfold observed. cbn. split_and!; try done.
    unfold len. pose proof (length_filter (λ packet, kp_is_real packet = true)
      (sort_packets (packets ++ (delayed <$> duplicated)))). lia. }
  apply SR_bind_Ok. exists (l ++ k), s2. split.
  - unfold row. apply SR_bind_Ok. exists l, s1. split; [exact Hl |].
    apply SR_bind_Ok. exists k, s2. split; [| done]. by rewrite N.add_0_l, N2Nat.id.
  - unfold spread. apply SR_bind_Ok. exists packets, s3. split; [exact Hp |].
    apply SR_bind_Ok. by exists duplicated, s4.
Qed.

Lemma delayed_same l k : Forall2 same l k → Forall2 same (delayed <$> l) (delayed <$> k).
Proof.
  induction 1 as [|p q l k Hp _ IH]; cbn; constructor; [| exact IH].
  unfold same, delayed in *. cbn. by rewrite Hp.
Qed.

Lemma observed_same summary summary' x y :
  alike_spreads x y → observed summary x → observed summary' y →
  os_packets summary = os_packets summary'
  ∧ os_total_observed_packets summary = os_total_observed_packets summary'
  ∧ os_attempted_packets summary = os_attempted_packets summary'
  ∧ os_dropped_packets summary = os_dropped_packets summary'
  ∧ os_duplicated_packets summary = os_duplicated_packets summary'
  ∧ (os_mode summary = os_mode summary'
     ∧ os_fixed_outer_format summary = os_fixed_outer_format summary'
     ∧ os_trivially_isolatable summary = os_trivially_isolatable summary'
     ∧ os_remaining_leakage summary = os_remaining_leakage summary')
  ∧ (os_real_packets_kernel_only summary + os_cover_packets summary
     = os_real_packets_kernel_only summary' + os_cover_packets summary')%N.
Proof.
  intros (Ha & Hp & Hd) (-> & Ht & -> & -> & -> & (-> & -> & -> & ->) & ->)
    (-> & Ht' & -> & -> & -> & (-> & -> & -> & ->) & ->). rewrite Ht, Ht'.
  assert (Hs : Forall2 same (sort_packets (x.1.2 ++ (delayed <$> x.2)))
    (sort_packets (y.1.2 ++ (delayed <$> y.2)))).
  { apply sort_same, Forall2_app; [done | by apply delayed_same]. }
  unfold len. rewrite (Forall2_length Ha), (Forall2_length Hp),
    (Forall2_length Hd), (Forall2_length Hs).
  apply same_visible in Hs. by split_and!.
Qed.

(** C30 (equivalence): in strong mode two observations of the same generator seed,
    whose configurations differ at most in their cover rate, are equal, packet by
    packet, in every count and in every description but one split, as soon as
    real and cover cells together are equally many: whichever messages are real,
    whatever the payloads' sizes within their cells, under any loss, mix drops
    and duplication.  The split that can differ is that of the observed packets
    into real ones and cover ones ([cover_packets], which the summary reports):
    the two always add up to the same total. *)
Theorem strong_mode_hides config cover_rate seed m p m' p' summary summary' :
  tc_mode config = MetadataStrong →
  simulate_observer config seed m p = Ok summary →
  simulate_observer (with_cover config cover_rate) seed m' p' = Ok summary' →
  (cells config m p + tc_cover_rate config * 12
   = cells config m' p' + cover_rate * 12)%N →
  os_packets summary = os_packets summary'
  ∧ os_total_observed_packets summary = os_total_observed_packets summary'
  ∧ os_attempted_packets summary = os_attempted_packets summary'
  ∧ os_dropped_packets summary = os_dropped_packets summary'
  ∧ os_duplicated_packets summary = os_duplicated_packets summary'
  ∧ (os_mode summary = os_mode summary'
     ∧ os_fixed_outer_format summary = os_fixed_outer_format summary'
     ∧ os_trivially_isolatable summary = os_trivially_isolatable summary'
     ∧ os_remaining_leakage summary = os_remaining_leakage summary')
  ∧ (os_real_packets_kernel_only summary + os_cover_packets summary
     = os_real_packets_kernel_only summary' + os_cover_packets summary')%N.
Proof.
  intros Hs H H' Hcells. unfold simulate_observer in H, H'.
  destruct (observe config m p (seed_from_u64 seed)) as [r s1] eqn:Ho.
  destruct (observe (with_cover config cover_rate) m' p' (seed_from_u64 seed)) as [r' s2] eqn:Ho'.
  cbn [fst] in H, H'. subst r r'.
  apply strong_observe_Ok in Ho as (x & Hx & Hxs); [| exact Hs].
  apply strong_observe_Ok in Ho' as (y & Hy & Hys); [| exact Hs].
  change (spread (with_cover config cover_rate)) with (spread config) in Hy.
  refine (observed_same _ _ _ _ (alike_Ok alike_spreads _ _ _ _ _ _ _ _ Hx Hy) Hxs Hys).
  apply (alike_bind (Forall2 same)); [| intros l k; apply alike_spread].
  unfold row. change (tc_cover_rate (with_cover config cover_rate)) with cover_rate.
  apply (alike_join (Forall2 same) _ (append_routes config 0
    (N.to_nat (cells config m p) + N.to_nat (tc_cover_rate config * 12)) true 0));
    [by apply alike_row | | apply same_join].
  replace (N.to_nat (cells config m p) + N.to_nat (tc_cover_rate config * 12))
    with (N.to_nat (cells config m' p') + N.to_nat (cover_rate * 12)) by lia.
  apply (alike_ext _ (l ← append_routes config 0 (N.to_nat (cells config m' p')) true p';
    k ← append_routes config (0 + N.of_nat (N.to_nat (cells config m' p')))
      (N.to_nat (cover_rate * 12)) false (tc_cell_size config); mret (l ++ k)));
    [| by apply alike_row].
  intros rng. unfold mbind, SR_bind. rewrite append_routes_cover.
  change (cells (with_cover config cover_rate)) with (cells config).
  change (tc_cell_size (with_cover config cover_rate)) with (tc_cell_size config).
  destruct (append_routes config 0 _ true p' rng) as [[l |] s]; [| done].
  by rewrite append_routes_cover.
Qed.

End alike.

(** ** Witness

    A generator that counts; some packets are lost and some doubled. *)

Section example.

#[local] Instance counter : TransportRng := {|
  StdRng := N;
  seed_from_u64 := uval;
  random_percent := λ n, (U8 (n * 37 `mod` 100), (n + 1)%N);
  random_range := λ low high n, (U64 (low + n `mod` (high - low + 1)), (n + 1)%N);
  random_u16 := λ n, (U16 n, (n + 1)%N)
|}.

Definition lossy : TransportConfig := {|
  tc_mode := MetadataStrong;
  tc_base_latency_ms := U64 120;
  tc_epoch_ms := U64 250;
  tc_cover_rate := U16 3;
  tc_hops := U8 3;
  tc_cell_size := 2048;
  tc_loss_percent := U8 10;
  tc_duplicate_percent := U8 20;
  tc_mix_drop_percent := U8 5
|}.

(** One short message among 36 cover cells, and 13 cells of a longer one among
    24; in basic mode the sizes of packets tell messages apart. *)
Lemma strong_mode_hides_witness :
  ∃ summary summary',
    os_packets summary = os_packets summary'
    ∧ (os_real_packets_kernel_only summary < os_real_packets_kernel_only summary')%N.
Proof.
  assert (H : ∃ s s', simulate_observer lossy (U64 7) 1 100 = Ok s
    ∧ simulate_observer (with_cover lossy (U16 2)) (U64 7) 1 25000 = Ok s'
    ∧ (os_real_packets_kernel_only s < os_real_packets_kernel_only s')%N)
    by (eexists _, _; split; [vm_compute; reflexivity | split; [vm_compute; reflexivity | done]]).
  destruct H as (s & s' & H & H' & Hr).
  destruct (strong_mode_hides lossy (U16 2) (U64 7) 1 100 1 25000 s s' eq_refl H H' eq_refl)
    as [E _].
  exists s, s'. split; [exact E | exact Hr].
Defined.

Definition basic_buckets (size : N) : list N :=
  match simulate_observer (for_mode MetadataBasic) (U64 7) 1 size with
  | Ok summary => op_size_bucket <$> os_packets summary
  | Err _ => []
  end.
Lemma basic_mode_shows_sizes :
  basic_buckets 100 = [1024; 1024; 1024]%N ∧ basic_buckets 5000 = [8192; 8192; 8192]%N.
Proof. split; vm_compute; reflexivity. Qed.

(** A cell size of zero stops the simulation. *)
Lemma zero_cell_size_panics :
  simulate_observer {|
    tc_mode := MetadataStrong; tc_base_latency_ms := U64 120; tc_epoch_ms := U64 250;
    tc_cover_rate := U16 3; tc_hops := U8 3; tc_cell_size := 0; tc_loss_percent := U8 0;
    tc_duplicate_percent := U8 0; tc_mix_drop_percent := U8 0 |} (U64 7) 1 100
  = Err DivisionByZero.
Proof. reflexivity. Qed.

End example.

End TransportProps.
