(* ===== verification/Simulator.v ===== *)
(** Parts of the in-process simulator, crates/gp-sim/src/lib.rs: its options,
    its own checks of requests, certificates and contributions, and how its
    actors make them. *)

From stdpp Require Import pretty.
From S2P Require Export Protocol CoreRecovery CoreRotation Transport ClientNet.

(** ** Data *)

Inductive SimError : Set :=
| SimCrypto (error : CryptoError)
| SimCore (error : CoreError)
| SimRotation (error : RotationError)
| SimStorage (error : StorageError)
| SimWire (error : WireError)
| SimJson
| SimThreshold
| SimInvalidCertificate
| SimRequestBinding
| SimRecoveryMismatch
| SimInvalidOptions (message : string)
(* where the code panics *)
| SimPanic.
#[export] Instance SimError_eq_dec : EqDecision SimError.
Proof. solve_decision. Defined.

Record DemoOptions : Set := mkDemoOptions {
  do_seed : u64;
  do_mode : MetadataMode;
  do_secret : string;
  do_offline_signer : option u16;
  do_offline_guardian : option u16;
  do_corrupt_guardian : option u16;
  do_cancel_before_release : bool;
  do_simulated_delay_secs : u64;
  do_signer_count : u16;
  do_signer_threshold : u16;
  do_guardian_count : u16;
  do_guardian_threshold : u16;
  do_network_latency_ms : u64;
  do_packet_loss_percent : u8;
  do_packet_duplication_percent : u8;
  do_mix_drop_percent : u8;
  do_cover_rate : u16
}.

Record SimEvent : Set := mkSimEvent {
  se_at : u64;
  se_phase : string;
  se_actor : string;
  se_message : string;
  se_state : option RecoveryState
}.

(** rand_chacha: [ChaCha20Rng::seed_from_u64], the same generator as that of
    [ProtocolPrimitives]; serde_json for a contribution. *)
Class SimPrimitives `{Protocol : ProtocolPrimitives} : Type := {
  chacha_from_u64 : u64 → Rng;
  contribution_to_vec : GuardianContribution → option (list byte);
  contribution_from_slice : list byte → option GuardianContribution
}.

Module Simulator.

Definition DemoOptions_default : DemoOptions := {|
  do_seed := U64 424242;
  do_mode := MetadataStrong;
  do_secret := "correct horse battery staple";
  do_offline_signer := Some (U16 3);
  do_offline_guardian := None;
  do_corrupt_guardian := Some (U16 1);
  do_cancel_before_release := false;
  do_simulated_delay_secs := U64 5;
  do_signer_count := U16 3;
  do_signer_threshold := U16 2;
  do_guardian_count := U16 8;
  do_guardian_threshold := U16 5;
  do_network_latency_ms := U64 120;
  do_packet_loss_percent := U8 0;
  do_packet_duplication_percent := U8 0;
  do_mix_drop_percent := U8 0;
  do_cover_rate := U16 3
|}.

(** ** Options *)

(** [index.is_some_and(|index| index == 0 || index > count)]. *)
Definition names_nobody (index : option u16) (count : u16) : bool :=
  match index with
  | Some index => (uval index =? 0)%N || (count <? index)%mr
  | None => false
  end.

Definition unavailable_guardians (offline corrupt : option u16) : N :=
  match offline, corrupt with
  | Some first, Some second => if decide (first ≠ second) then 2 else 1
  | Some _, None | None, Some _ => 1
  | None, None => 0
  end.

Definition validate (self : DemoOptions) : Result SimError () :=
  let secret_len := N.of_nat (String.length (do_secret self)) in
  let invalid message := Err (SimInvalidOptions message) in
  if (secret_len =? 0)%N then invalid "enter a secret or choose a small file" else
  if (1024 * 1024 <? secret_len)%N then invalid "the demo accepts files up to 1 MiB" else
  if (uval (do_signer_count self) =? 0)%N || (20 <? uval (do_signer_count self))%N
  then invalid "signer count must be between 1 and 20 in the simulator" else
  if (uval (do_signer_threshold self) =? 0)%N
     || (do_signer_count self <? do_signer_threshold self)%mr
  then invalid "signer threshold must be between 1 and the signer count" else
  if (uval (do_guardian_count self) =? 0)%N || (32 <? uval (do_guardian_count self))%N
  then invalid "guardian count must be between 1 and 32 in the simulator" else
  if (uval (do_guardian_threshold self) =? 0)%N
     || (do_guardian_count self <? do_guardian_threshold self)%mr
  then invalid "guardian threshold must be between 1 and the guardian count" else
  if names_nobody (do_offline_signer self) (do_signer_count self)
  then invalid "offline signer index must identify an existing signer" else
  if names_nobody (do_offline_guardian self) (do_guardian_count self)
     || names_nobody (do_corrupt_guardian self) (do_guardian_count self)
  then invalid "guardian failure index must identify an existing guardian" else
  let available_signers :=
    (do_signer_count self - match do_offline_signer self with Some _ => 1 | None => 0 end)%N in
  if (available_signers <? do_signer_threshold self)%N
  then invalid "not enough online signers to reach the approval threshold" else
  if (do_guardian_count self
        - unavailable_guardians (do_offline_guardian self) (do_corrupt_guardian self)
      <? do_guardian_threshold self)%N
  then invalid "not enough valid guardians remain to reach the recovery threshold" else
  if (100 <? uval (do_packet_loss_percent self))%N
     || (100 <? uval (do_packet_duplication_percent self))%N
     || (100 <? uval (do_mix_drop_percent self))%N
  then invalid "network percentages must be between 0 and 100" else
  if (300 <? uval (do_simulated_delay_secs self))%N
  then invalid "compressed simulator delay must be 300 seconds or less" else
  if (100 <? uval (do_cover_rate self))%N
  then invalid "cover rate must be 100 cells per epoch or less" else
  if (uval (do_network_latency_ms self) =? 0)%N || (10000 <? uval (do_network_latency_ms self))%N
  then invalid "network latency must be between 1 and 10000 milliseconds" else
  Ok ().

Section simulator.
Context `{Prims : Primitives} `{Sharing : SharingPrimitives} `{Protocol : ProtocolPrimitives}.
Context `{Simulation : !SimPrimitives}.

Definition wire {A} (r : Result WireError A) : Result SimError A := map_err SimWire r.
Definition crypto {A} (r : Result CryptoError A) : Result SimError A := map_err SimCrypto r.
Definition storage {A} (r : Result StorageError A) : Result SimError A := map_err SimStorage r.

Definition simulator_signer_seed (simulation_seed config_version : u64) (signer_index : u16) :
    Id32 :=
  sha256 (as_bytes "guardian-protocol/simulator/signer-ed25519/v1" ++ be simulation_seed
    ++ be config_version ++ be signer_index).

(** [1..=count]. *)
Definition indices (count : u16) : list u16 :=
  (λ offset, U16 (N.of_nat offset + 1)) <$> seq 0 (N.to_nat count).

Definition simulator_signer_public_keys (simulation_seed : u64) (signer_count : u16)
    (config_version : u64) : Result SimError (list string) :=
  if (uval signer_count =? 0)%N || (20 <? uval signer_count)%N
  then Err (SimInvalidOptions "signer count must be between 1 and 20 in the simulator") else
  Ok ((λ index, hex_encode (verifying_key_bytes (signing_key
    (simulator_signer_seed simulation_seed config_version index)))) <$> indices signer_count).

(** ** Checks *)

Definition validate_capsule_against_card (capsule : ConfigCapsule) (card : RecoveryCard) :
    Result SimError () :=
  let invalid_thresholds :=
    (uval (cap_signer_count capsule) =? 0)%N
    || (uval (cap_signer_threshold capsule) =? 0)%N
    || (cap_signer_count capsule <? cap_signer_threshold capsule)%mr
    || (uval (cap_guardian_count capsule) =? 0)%N
    || (uval (cap_guardian_threshold capsule) =? 0)%N
    || (cap_guardian_count capsule <? cap_guardian_threshold capsule)%mr in
  fail_if ((cap_protocol_version capsule !=? PROTOCOL_VERSION)
    || (cap_crypto_suite capsule !=? CryptoSuite_default)
    || (cap_config_id capsule !=? card_config_id card)
    || (cap_signer_set_commitment capsule !=? card_signer_set_commitment card)
    || (cap_owner_cancel_public_key capsule !=? card_owner_cancel_public_key card)
    || invalid_thresholds
    || (cap_minimum_recovery_delay capsule <? PRODUCTION_MIN_DELAY_SECS)
    || (uval (cap_max_request_lifetime capsule) =? 0)%N)%mr SimInvalidCertificate.

Definition validate_recovery_request (request : RecoveryRequest) (capsule : ConfigCapsule)
    (now : u64) : Result SimError () :=
  lifetime ← ok_or (if (rr_expiry request <? rr_requested_at request)%mr then None
                    else Some (rr_expiry request - rr_requested_at request)%N)
    SimInvalidCertificate;
  fail_if ((rr_protocol_version request !=? PROTOCOL_VERSION)
    || (rr_protocol_version request !=? cap_protocol_version capsule)
    || (rr_crypto_suite request !=? cap_crypto_suite capsule)
    || (rr_config_id request !=? cap_config_id capsule)
    || (rr_config_version request !=? cap_config_version capsule)
    || (len (rr_recovery_recipient_key request) !=? XWING_PUBLIC_KEY_LEN)
    || (now <? rr_requested_at request)
    || (rr_expiry request <=? now)
    || (lifetime =? 0)%N
    || (uval (cap_max_request_lifetime capsule) <? lifetime)%N)%mr SimInvalidCertificate.

Definition validate_signer_membership (signer_id : u16) (signer_public_key : barr 32)
    (membership_proof : list byte) (capsule : ConfigCapsule) : Result SimError () :=
  if (uval signer_id =? 0)%N || (cap_signer_count capsule <? signer_id)%mr
  then Err SimInvalidCertificate else
  leaf ← wire (signer_leaf signer_id signer_public_key);
  crypto (merkle_verify (cap_signer_set_commitment capsule) (sha256 leaf) (signer_id - 1)
    (cap_signer_count capsule) membership_proof).

(** The loop over the routes. *)
Fixpoint check_routes (guardian_count : u16) (seen : gset u16) (slots : gset Id32)
    (mailboxes : gset string) (routes : list GuardianRoute) : Result SimError () :=
  match routes with
  | [] => Ok ()
  | route :: routes =>
      let index := gr_guardian_index route in
      let slot := gr_opaque_slot_id route in
      let mailbox := gr_mailbox route in
      if (uval index =? 0)%N || (guardian_count <? index)%mr
         || bool_decide (index ∈ seen) || bool_decide (slot ∈ slots)
         || bool_decide (mailbox = EmptyString) || bool_decide (mailbox ∈ mailboxes)
      then Err SimInvalidCertificate
      else check_routes guardian_count ({[index]} ∪ seen) ({[slot]} ∪ slots)
             ({[mailbox]} ∪ mailboxes) routes
  end.

Definition validate_descriptor (descriptor : RecoveryDescriptor) (capsule : ConfigCapsule) :
    Result SimError () :=
  if ((rd_guardian_material_root descriptor !=? cap_guardian_material_commitment capsule)
      || (rd_data_shards descriptor !=? cap_guardian_threshold capsule)
      || (rd_total_shards descriptor !=? cap_guardian_count capsule)
      || (len (rd_guardians descriptor) !=? uval (cap_guardian_count capsule))
      || (uval (rd_ciphertext_len descriptor) <? 16)%N)%mr
  then Err SimInvalidCertificate else
  check_routes (cap_guardian_count capsule) ∅ ∅ ∅ (rd_guardians descriptor).

Definition validate_guardian_policy (policy : GuardianPolicy) (capsule : ConfigCapsule) :
    Result SimError () :=
  fail_if ((gpol_config_id policy !=? cap_config_id capsule)
    || (gpol_config_version policy !=? cap_config_version capsule)
    || (gpol_signer_set_commitment policy !=? cap_signer_set_commitment capsule)
    || (gpol_signer_count policy !=? cap_signer_count capsule)
    || (gpol_signer_threshold policy !=? cap_signer_threshold capsule)
    || (gpol_owner_cancel_public_key policy !=? cap_owner_cancel_public_key capsule)
    || (gpol_minimum_recovery_delay policy !=? cap_minimum_recovery_delay capsule)
    || (gpol_guardian_material_root policy !=? cap_guardian_material_commitment capsule))%mr
    SimInvalidCertificate.

(** The checks of one contribution. *)
Definition check_contribution (request : RecoveryRequest) (capsule : ConfigCapsule)
    (contribution : SignerContribution) : Result SimError () :=
  _ ← validate_signer_membership (sc_signer_id contribution) (sc_signer_public_key contribution)
    (sc_signer_membership_proof contribution) capsule;
  t ← wire (signer_approval request (sc_signer_id contribution)
    (sc_encrypted_a_share contribution));
  crypto (verify (sc_signer_public_key contribution) t (sc_signer_signature contribution)).

(** The loop of [validate_approvals_and_reconstruct]. *)
Fixpoint open_shares (request : RecoveryRequest) (capsule : ConfigCapsule)
    (recipient : RecipientKeyPair) (ids : gset u16) (contributions : list SignerContribution) :
    Result SimError (list (list byte)) :=
  match contributions with
  | [] => Ok []
  | contribution :: contributions =>
      let signer_id := sc_signer_id contribution in
      if bool_decide (sc_request contribution ≠ request) || bool_decide (signer_id ∈ ids)
      then Err SimInvalidCertificate else
      _ ← check_contribution (sc_request contribution) capsule contribution;
      context ← wire (recipient_share_context (sc_request contribution) signer_id);
      share ← crypto (open recipient (sc_encrypted_a_share contribution) context);
      shares ← open_shares request capsule recipient ({[signer_id]} ∪ ids) contributions;
      Ok (share :: shares)
  end.

Definition validate_approvals_and_reconstruct (certificate : BeginRecoveryCertificate)
    (capsule : ConfigCapsule) (recipient : RecipientKeyPair) (now : u64) :
    Result SimError (list byte) :=
  _ ← validate_recovery_request (brc_request certificate) capsule now;
  shares ← open_shares (brc_request certificate) capsule recipient ∅
    (brc_signer_contributions certificate);
  crypto (recover_secret shares (cap_signer_threshold capsule)).

Definition validate_begin_certificate (certificate : BeginRecoveryCertificate)
    (capsule : ConfigCapsule) (now : u64) : Result SimError () :=
  let request := brc_request certificate in
  _ ← validate_recovery_request request capsule now;
  ids ← for_each_distinct sc_signer_id (λ _, Ok ())
    (λ contribution _, sc_request contribution !=? request)%mr SimInvalidCertificate
    (λ contribution _, check_contribution request capsule contribution)
    ∅ (brc_signer_contributions certificate);
  fail_if (N.of_nat (size ids) <? cap_signer_threshold capsule)%mr SimThreshold.

Definition open_descriptor (capsule : ConfigCapsule) (authorization_key : list byte) :
    Result SimError RecoveryDescriptor :=
  a ← ok_or (try_barr 32 authorization_key) SimRecoveryMismatch;
  key ← crypto (descriptor_key a (cap_config_id capsule) (cap_config_version capsule));
  context ← wire (descriptor_context (cap_config_id capsule) (cap_config_version capsule));
  plaintext ← crypto (aead_decrypt key (cap_encrypted_recovery_descriptor capsule) context);
  descriptor ← ok_or (descriptor_from_slice plaintext) SimJson;
  _ ← validate_descriptor descriptor capsule;
  Ok descriptor.

Definition request_digest (request : RecoveryRequest) : Result SimError Id32 :=
  sha256 <$> wire (request_digest_preimage request).

Definition validate_release_certificate (certificate : ReleaseCertificate)
    (capsule : ConfigCapsule) (request : RecoveryRequest) (now : u64) : Result SimError () :=
  _ ← validate_recovery_request request capsule now;
  digest ← request_digest request;
  ids ← for_each_distinct rv_signer_id (λ _, Ok ())
    (λ vote _, (rv_protocol_version vote !=? PROTOCOL_VERSION)
       || (rv_config_id vote !=? rr_config_id request)
       || (rv_config_version vote !=? rr_config_version request)
       || (rv_request_id vote !=? rr_request_id request)
       || (rv_request_digest vote !=? digest)
       || (rv_recovery_recipient_key vote !=? rr_recovery_recipient_key request)
       || (rv_nonce vote !=? rr_nonce request))%mr SimInvalidCertificate
    (λ vote _,
       _ ← validate_signer_membership (rv_signer_id vote) (rv_signer_public_key vote)
         (rv_signer_membership_proof vote) capsule;
       t ← wire (release_vote vote);
       crypto (verify (rv_signer_public_key vote) t (rv_signer_signature vote)))
    ∅ (rc_votes certificate);
  fail_if (N.of_nat (size ids) <? cap_signer_threshold capsule)%mr SimThreshold.

Definition validate_owner_cancel_certificate (certificate : OwnerCancelCertificate)
    (capsule : ConfigCapsule) (request : RecoveryRequest) (now : u64) : Result SimError () :=
  _ ← validate_recovery_request request capsule now;
  digest ← request_digest request;
  if ((occ_protocol_version certificate !=? PROTOCOL_VERSION)
      || (occ_config_id certificate !=? rr_config_id request)
      || (occ_config_version certificate !=? rr_config_version request)
      || (occ_request_id certificate !=? rr_request_id request)
      || (occ_request_digest certificate !=? digest)
      || (occ_recovery_recipient_key certificate !=? rr_recovery_recipient_key request)
      || (len (occ_cancel_response_recipient_key certificate) !=? XWING_PUBLIC_KEY_LEN)
      || (occ_nonce certificate !=? rr_nonce request)
      || (occ_issued_at certificate <? rr_requested_at request)
      || (now <? occ_issued_at certificate)
      || (rr_expiry request <=? occ_issued_at certificate)
      || (occ_owner_cancel_public_key certificate !=? cap_owner_cancel_public_key capsule))%mr
  then Err SimInvalidCertificate else
  t ← wire (owner_cancel certificate);
  crypto (verify (cap_owner_cancel_public_key capsule) t (occ_owner_signature certificate)).

Definition validate_guardian_contribution (contribution : GuardianContribution)
    (route : GuardianRoute) (descriptor : RecoveryDescriptor) (request : RecoveryRequest)
    (authorization_key : list byte) : Result SimError (list byte) :=
  digest ← request_digest request;
  if ((gc_config_id contribution !=? rr_config_id request)
      || (gc_protocol_version contribution !=? PROTOCOL_VERSION)
      || (gc_config_version contribution !=? rr_config_version request)
      || (gc_request_id contribution !=? rr_request_id request)
      || (gc_request_digest contribution !=? digest)
      || (gc_guardian_index contribution !=? gr_guardian_index route))%mr
  then Err SimRequestBinding else
  t ← wire (guardian_contribution contribution);
  _ ← crypto (verify (gr_guardian_public_key route) t (gc_guardian_signature contribution));
  leaf ← wire (guardian_leaf (gc_config_id contribution) (gc_config_version contribution)
    (gc_guardian_index contribution) (sha256 (gc_ciphertext_fragment contribution))
    (hash_aead (gc_encrypted_dek_share contribution)));
  _ ← crypto (merkle_verify (rd_guardian_material_root descriptor) (sha256 leaf)
    (wrapping_pred (gc_guardian_index contribution)) (rd_total_shards descriptor)
    (gc_merkle_path_proof contribution));
  a ← ok_or (try_barr 32 authorization_key) SimRecoveryMismatch;
  key ← crypto (guardian_share_key a (gc_config_id contribution)
    (gc_config_version contribution) (gc_guardian_index contribution));
  context ← wire (guardian_share_context (gc_config_id contribution)
    (gc_config_version contribution) (gc_guardian_index contribution));
  crypto (aead_decrypt key (gc_encrypted_dek_share contribution) context).

End simulator.

End Simulator.
