(* ===== verification/SimulatorRun.v ===== *)
(** A run of the in-process simulator, crates/gp-sim/src/lib.rs: setup, one
    recovery or its cancel, and the setup of the next version.

    The counts of a validated run are far from any overflow, so the additions
    on its clock are plain. *)

From stdpp Require Import pretty.
From S2P Require Export Simulator.

(** ** Data *)

Record DemoResult : Set := mkDemoResult {
  dr_seed : u64;
  dr_mode : MetadataMode;
  dr_success : bool;
  dr_cancelled : bool;
  dr_final_state : RecoveryState;
  dr_recovered_secret : option string;
  dr_recovery_card : RecoveryCard;
  dr_config_id_hex : string;
  dr_request_id_hex : string;
  dr_signer_threshold : u16;
  dr_guardian_threshold : u16;
  dr_valid_guardians : N;
  dr_rejected_guardians : list u16;
  dr_rotated_config_version : option u64;
  dr_observer : ObserverSummary;
  dr_events : list SimEvent;
  dr_security_notice : string
}.

Record DemoWorld : Set := mkDemoWorld {
  dw_card : RecoveryCard;
  dw_signers : list Signer.SignerState;
  dw_guardians : list Records.GuardianState;
  dw_config_store : Records.ConfigStore;
  dw_authorization_key : list byte;
  dw_owner_cancel_signing_seed : list byte
}.

Record DemoOutcome : Set := mkDemoOutcome {
  out_state : RecoveryState;
  out_recovered_secret : option string;
  out_valid_guardians : N;
  out_rejected_guardians : list u16;
  out_rotated_config_version : option u64;
  out_events : list SimEvent
}.

Module SimulatorRun.
Export Simulator.

Section run.
Context `{Prims : Primitives} `{Sharing : SharingPrimitives} `{Protocol : ProtocolPrimitives}.
Context `{Simulation : !SimPrimitives} `{Generator : TransportRng}.

(** Code that draws from the generator. *)
Abbreviation Demo A := (SR Rng SimError A).

Definition random_id : Demo Id32 := λ rng, let '(v, rng) := rng_fill 32 rng in (Ok v, rng).
Definition random_nonce : Demo (barr 24) := λ rng,
  let '(v, rng) := rng_fill 24 rng in (Ok v, rng).
Definition opaque_mailbox : Demo string := id ← random_id; mret ("mbx-" +:+ hex_encode id).

(** [vec[offset]], and [values[usize::from(index - 1)]]. *)
Definition at_offset {A} (l : list A) (offset : nat) : Result SimError A :=
  ok_or (l !! offset) SimPanic.
Definition at_index {A} (l : list A) (index : u16) : Result SimError A :=
  at_offset l (N.to_nat (wrapping_pred index)).

(** ** Setup *)

Fixpoint setup_signers (policy : SetupPolicy) (simulation_seed : u64) (config_id : Id32)
    (config_version : u64) (a_shares : list (list byte)) (signer_indices : list u16) :
    Demo (list (Signer.SignerState * Id32)) :=
  match signer_indices with
  | [] => mret []
  | index :: signer_indices =>
      let seed := simulator_signer_seed simulation_seed config_version index in
      let public := verifying_key_bytes (signing_key seed) in
      leaf ← lift (wire (signer_leaf index public));
      mailbox ← opaque_mailbox;
      share ← lift (at_index a_shares index);
      rest ← setup_signers policy simulation_seed config_id config_version a_shares signer_indices;
      mret (({| Signer.ss_signer_id := index;
                Signer.ss_mailbox := mailbox;
                Signer.ss_authorization_share := share;
                Signer.ss_signing_seed := seed;
                Signer.ss_signing_public_key := public;
                Signer.ss_membership_proof := [];
                Signer.ss_policy := {|
                  sp_config_id := config_id;
                  sp_config_version := config_version;
                  sp_signer_set_commitment := brep 32 x00;
                  sp_signer_threshold := setup_signer_threshold policy
                |};
                Signer.ss_seen_requests := ∅;
                Signer.ss_seen_nonces := ∅ |}, sha256 leaf) :: rest)
  end.

Fixpoint setup_guardians (config_id : Id32) (config_version : u64) (authorization_key : list byte)
    (fragments dek_shares : list (list byte)) (guardian_indices : list u16) :
    Demo (list RawGuardian) :=
  match guardian_indices with
  | [] => mret []
  | index :: guardian_indices =>
      share_context ← lift (wire (guardian_share_context config_id config_version index));
      a ← lift (ok_or (try_barr 32 authorization_key) SimRecoveryMismatch);
      key ← lift (crypto (guardian_share_key a config_id config_version index));
      nonce ← random_nonce;
      dek_share ← lift (at_index dek_shares index);
      encrypted_dek_share ← lift (crypto (aead_encrypt key nonce dek_share share_context));
      fragment ← lift (at_index fragments index);
      leaf ← lift (wire (guardian_leaf config_id config_version index (sha256 fragment)
        (hash_aead encrypted_dek_share)));
      signing_seed ← random_id;
      slot ← random_id;
      mailbox ← opaque_mailbox;
      rest ← setup_guardians config_id config_version authorization_key fragments dek_shares
        guardian_indices;
      mret ({| raw_index := index;
               raw_signing_seed := signing_seed;
               raw_fragment := fragment;
               raw_encrypted_share := encrypted_dek_share;
               raw_route := {|
                 gr_mailbox := mailbox;
                 gr_opaque_slot_id := slot;
                 gr_guardian_index := index;
                 gr_guardian_public_key := verifying_key_bytes (signing_key signing_seed)
               |};
               raw_leaf := sha256 leaf |} :: rest)
  end.

(** A guardian with its one record. *)
Definition guardian_state (policy : GuardianPolicy) (raw : RawGuardian) (proof : list byte) :
    Records.GuardianState :=
  Records.insert_record
    (Records.new (raw_index raw) (gr_mailbox (raw_route raw)) (raw_signing_seed raw))
    {| grec_opaque_slot_id := gr_opaque_slot_id (raw_route raw);
       grec_guardian_index := raw_index raw;
       grec_ciphertext_fragment := raw_fragment raw;
       grec_encrypted_dek_share := raw_encrypted_share raw;
       grec_merkle_path_proof := proof;
       grec_policy := policy |}.

Definition setup_world (secret : list byte) (policy : SetupPolicy) (simulation_seed : u64)
    (rotation : option (Id32 * u64)) : Demo DemoWorld :=
  '(config_id, config_version) ←
    match rotation with
    | Some rotated => mret rotated
    | None => id ← random_id; mret (id, U64 1)
    end;
  owner_seed ← random_id;
  owner_key ← lift (ok_or (try_barr 32 (bytes_of owner_seed)) SimRecoveryMismatch);
  let owner_cancel_public_key := verifying_key_bytes (signing_key owner_key) in
  a ← random_id;
  let authorization_key := bytes_of a in
  d ← random_id;
  let dek := bytes_of d in
  a_seed ← random_id;
  a_shares ← lift (crypto (split_secret authorization_key (setup_signer_threshold policy)
    (setup_signer_count policy) a_seed));
  signers ← setup_signers policy simulation_seed config_id config_version a_shares
    (indices (setup_signer_count policy));
  '(signer_root, signer_proofs) ← lift (crypto (merkle_commit signers.*2));
  let signers := assign_memberships signer_root signers.*1 signer_proofs in
  payload_nonce ← random_nonce;
  context ← lift (wire (payload_context config_id config_version));
  dek_key ← lift (ok_or (try_barr 32 dek) SimRecoveryMismatch);
  payload ← lift (crypto (aead_encrypt dek_key payload_nonce secret context));
  fragments ← lift (crypto (erasure_encode (aead_ciphertext payload)
    (setup_guardian_threshold policy) (setup_guardian_count policy)));
  dek_seed ← random_id;
  dek_shares ← lift (crypto (split_secret dek (setup_guardian_threshold policy)
    (setup_guardian_count policy) dek_seed));
  raw ← setup_guardians config_id config_version authorization_key fragments dek_shares
    (indices (setup_guardian_count policy));
  '(guardian_root, guardian_proofs) ← lift (crypto (merkle_commit (raw_leaf <$> raw)));
  let guardian_policy := {|
    gpol_config_id := config_id;
    gpol_config_version := config_version;
    gpol_signer_set_commitment := signer_root;
    gpol_signer_count := setup_signer_count policy;
    gpol_signer_threshold := setup_signer_threshold policy;
    gpol_owner_cancel_public_key := owner_cancel_public_key;
    gpol_minimum_recovery_delay := setup_minimum_recovery_delay policy;
    gpol_guardian_material_root := guardian_root
  |} in
  let guardians := zip_with (guardian_state guardian_policy) raw guardian_proofs in
  let descriptor := {|
    rd_guardians := raw_route <$> raw;
    rd_guardian_material_root := guardian_root;
    rd_data_shards := setup_guardian_threshold policy;
    rd_total_shards := setup_guardian_count policy;
    rd_ciphertext_len := U64 (len (aead_ciphertext payload));
    rd_payload_nonce := payload_nonce
  |} in
  descriptor_plaintext ← lift (ok_or (descriptor_to_vec descriptor) SimJson);
  key ← lift (ok_or (try_barr 32 authorization_key) SimRecoveryMismatch);
  key ← lift (crypto (descriptor_key key config_id config_version));
  context ← lift (wire (descriptor_context config_id config_version));
  nonce ← random_nonce;
  encrypted_recovery_descriptor ←
    lift (crypto (aead_encrypt key nonce descriptor_plaintext context));
  let capsule := {|
    cap_protocol_version := PROTOCOL_VERSION;
    cap_crypto_suite := CryptoSuite_default;
    cap_config_id := config_id;
    cap_config_version := config_version;
    cap_signer_count := setup_signer_count policy;
    cap_signer_threshold := setup_signer_threshold policy;
    cap_guardian_count := setup_guardian_count policy;
    cap_guardian_threshold := setup_guardian_threshold policy;
    cap_minimum_recovery_delay := setup_minimum_recovery_delay policy;
    cap_signer_set_commitment := signer_root;
    cap_owner_cancel_public_key := owner_cancel_public_key;
    cap_guardian_material_commitment := guardian_root;
    cap_encrypted_recovery_descriptor := encrypted_recovery_descriptor;
    cap_max_request_lifetime := U64 (86400 * 7)
  |} in
  let card := {|
    card_config_id := config_id;
    card_capsule_locators := ["config://" +:+ hex_encode config_id];
    card_capsule_locator := None;
    card_signer_mailboxes := Signer.ss_mailbox <$> signers;
    card_relay_bases := [];
    card_signer_set_commitment := signer_root;
    card_owner_cancel_public_key := owner_cancel_public_key
  |} in
  let '(stored, config_store) := Records.put Records.ConfigStore_default capsule in
  _ ← lift (storage stored);
  mret {|
    dw_card := card;
    dw_signers := signers;
    dw_guardians := guardians;
    dw_config_store := config_store;
    dw_authorization_key := authorization_key;
    dw_owner_cancel_signing_seed := bytes_of owner_seed
  |}.

(** ** Certificates *)

(** The loop over the signers; those after the threshold are left as they
    are. *)
Fixpoint approve_all (request : RecoveryRequest) (digest : Id32) (offline : option u16)
    (threshold : u16) (signers : list Signer.SignerState) (output : list SignerContribution) :
    Demo (list SignerContribution * list Signer.SignerState) :=
  match signers with
  | [] => mret (output, [])
  | signer :: rest =>
      let signer_id := Signer.ss_signer_id signer in
      if bool_decide (offline = Some signer_id) then
        '(output, rest) ← approve_all request digest offline threshold rest output;
        mret (output, signer :: rest)
      else
      let '(observed, signer) := Signer.observe_request hex_encode signer (rr_config_id request)
        (rr_config_version request) (rr_request_id request) (rr_nonce request) digest in
      _ ← lift (storage observed);
      context ← lift (wire (recipient_share_context request signer_id));
      kem_seed ← random_id;
      nonce ← random_nonce;
      share ← lift (crypto (Transport.protect_payload (rr_recovery_recipient_key request)
        kem_seed nonce (Signer.ss_authorization_share signer) context));
      transcript ← lift (wire (signer_approval request signer_id share));
      let output := output ++ [{|
        sc_request := request;
        sc_signer_id := signer_id;
        sc_signer_public_key := Signer.ss_signing_public_key signer;
        sc_signer_signature := sign (signing_key (Signer.ss_signing_seed signer)) transcript;
        sc_signer_membership_proof := Signer.ss_membership_proof signer;
        sc_encrypted_a_share := share |}] in
      if (len output =? uval threshold)%N then mret (output, signer :: rest) else
      '(output, rest) ← approve_all request digest offline threshold rest output;
      mret (output, signer :: rest)
  end.

Definition collect_signer_approvals (signers : list Signer.SignerState)
    (request : RecoveryRequest) (offline : option u16) (threshold : u16) :
    Demo (list SignerContribution * list Signer.SignerState) :=
  digest ← lift (request_digest request);
  '(output, signers) ← approve_all request digest offline threshold signers [];
  _ ← lift (fail_if (len output <? threshold)%N SimThreshold);
  mret (output, signers).

Definition release_vote_of (request : RecoveryRequest) (digest : Id32)
    (signer : Signer.SignerState) (signature : list byte) : ReleaseVote := {|
  rv_protocol_version := PROTOCOL_VERSION;
  rv_config_id := rr_config_id request;
  rv_config_version := rr_config_version request;
  rv_request_id := rr_request_id request;
  rv_request_digest := digest;
  rv_recovery_recipient_key := rr_recovery_recipient_key request;
  rv_nonce := rr_nonce request;
  rv_signer_id := Signer.ss_signer_id signer;
  rv_signer_public_key := Signer.ss_signing_public_key signer;
  rv_signer_membership_proof := Signer.ss_membership_proof signer;
  rv_signer_signature := signature
|}.

Fixpoint vote_all (request : RecoveryRequest) (digest : Id32) (offline : option u16)
    (threshold : u16) (signers : list Signer.SignerState) (votes : list ReleaseVote) :
    Result SimError (list ReleaseVote) :=
  match signers with
  | [] => Ok votes
  | signer :: signers =>
      if bool_decide (offline = Some (Signer.ss_signer_id signer))
      then vote_all request digest offline threshold signers votes else
      let vote := release_vote_of request digest signer in
      t ← wire (release_vote (vote []));
      let votes := votes ++ [vote (sign (signing_key (Signer.ss_signing_seed signer)) t)] in
      if (len votes =? uval threshold)%N then Ok votes
      else vote_all request digest offline threshold signers votes
  end.

Definition make_release_certificate (signers : list Signer.SignerState)
    (request : RecoveryRequest) (digest : Id32) (offline : option u16) (threshold : u16) :
    Result SimError ReleaseCertificate :=
  votes ← vote_all request digest offline threshold signers [];
  if (len votes <? threshold)%N then Err SimThreshold else Ok {| rc_votes := votes |}.

Definition make_owner_cancel_certificate (owner_cancel_signing_seed : list byte)
    (request : RecoveryRequest) (digest : Id32) (cancel_response_recipient_key : list byte)
    (issued_at : u64) : Result SimError OwnerCancelCertificate :=
  seed ← ok_or (try_barr 32 owner_cancel_signing_seed) SimInvalidCertificate;
  let key := signing_key seed in
  let certificate := owner_cancel_certificate request digest key cancel_response_recipient_key
    (U16 1) issued_at in
  t ← wire (owner_cancel (certificate []));
  Ok (certificate (sign key t)).

(** ** A run *)

Definition apply_event (machine : Recovery.RecoveryMachine) (event : RecoveryEvent)
    (now delay : u64) : Result SimError Recovery.RecoveryMachine :=
  match Recovery.apply machine event now delay with
  | (Ok _, machine) => Ok machine
  | (Err error, _) => Err (SimCore error)
  end.

Definition log (events : list SimEvent) (at_ : u64) (phase actor message : string)
    (state : option RecoveryState) : list SimEvent :=
  events ++ [{| se_at := at_; se_phase := phase; se_actor := actor; se_message := message;
                se_state := state |}].
Definition later (at_ secs : u64) : u64 := U64 (at_ + secs).

Definition policy_of (options : DemoOptions) : SetupPolicy := {|
  setup_signer_count := do_signer_count options;
  setup_signer_threshold := do_signer_threshold options;
  setup_guardian_count := do_guardian_count options;
  setup_guardian_threshold := do_guardian_threshold options;
  setup_minimum_recovery_delay := PRODUCTION_MIN_DELAY_SECS
|}.

Definition demo_request (capsule : ConfigCapsule) (recipient : RecipientKeyPair)
    (request_id nonce : Id32) (at_ : u64) : RecoveryRequest := {|
  rr_protocol_version := PROTOCOL_VERSION;
  rr_crypto_suite := CryptoSuite_default;
  rr_config_id := cap_config_id capsule;
  rr_config_version := cap_config_version capsule;
  rr_request_id := request_id;
  rr_recovery_recipient_key := rkp_public recipient;
  rr_requested_at := at_;
  rr_nonce := nonce;
  rr_expiry := sat_add at_ (cap_max_request_lifetime capsule)
|}.

(** [world.guardians.get(index - 1)], its record and its machine. *)
Definition guardian_machine (world : DemoWorld) (capsule : ConfigCapsule)
    (route : GuardianRoute) : Result SimError Guardian.GuardianMachine :=
  guardian ← ok_or (dw_guardians world !! N.to_nat (wrapping_pred (gr_guardian_index route)))
    SimInvalidCertificate;
  record ← storage (Records.get_record guardian (gr_opaque_slot_id route));
  _ ← validate_guardian_policy (grec_policy record) capsule;
  Ok (Guardian.new (gpol_config_id (grec_policy record)) (gpol_config_version (grec_policy record))).

Definition begin_machine (request : RecoveryRequest) (digest : Id32) (at_ delay : u64)
    (machine : Guardian.GuardianMachine) : Result SimError Guardian.GuardianMachine :=
  match Guardian.begin machine request digest at_ delay true with
  | (Ok _, machine) => Ok machine
  | (Err error, _) => Err (SimCore error)
  end.
Definition cancel_machine (request : RecoveryRequest) (digest : Id32)
    (machine : Guardian.GuardianMachine) : Result SimError Guardian.GuardianMachine :=
  match Guardian.cancel machine (rr_request_id request) digest true with
  | (Ok _, machine) => Ok machine
  | (Err error, _) => Err (SimCore error)
  end.

(** A recovery whose begin the guardians have accepted. *)
Record Begun : Type := mkBegun {
  bg_world : DemoWorld;
  bg_capsule : ConfigCapsule;
  bg_recipient : RecipientKeyPair;
  bg_request : RecoveryRequest;
  bg_digest : Id32;
  bg_machine : Recovery.RecoveryMachine;
  bg_at : u64;
  bg_a : list byte;
  bg_descriptor : RecoveryDescriptor;
  bg_guardian_machines : list Guardian.GuardianMachine;
  bg_events : list SimEvent
}.

Definition setup_events : list SimEvent :=
  let at_ := U64 0 in
  let events := log [] at_ "SETUP" "owner"
    "Generated independent authorization key A and payload DEK." (Some RecCreated) in
  let events := log events at_ "SETUP" "guardians"
    "Stored ciphertext fragments and A-wrapped DEK shares; no plaintext secret or DEK share was stored."
    None in
  log events at_ "SETUP" "config-store"
    "Published a pseudonymous Config Capsule; the guardian roster remains sealed under A." None.

Definition begin_demo (options : DemoOptions) : Demo Begun :=
  let delay := do_simulated_delay_secs options in
  let at_ := U64 0 in
  world ← setup_world (as_bytes (do_secret options)) (policy_of options) (do_seed options) None;
  capsule ← lift (storage (Records.get_capsule (dw_config_store world)
    (card_config_id (dw_card world))));
  _ ← lift (validate_capsule_against_card capsule (dw_card world));
  seed ← random_id;
  let recipient := RecipientKeyPair_from_seed seed in
  request_id ← random_id;
  nonce ← random_id;
  let request := demo_request capsule recipient request_id nonce at_ in
  digest ← lift (request_digest request);
  machine ← lift (apply_event Recovery.RecoveryMachine_default RequestCreated at_ delay);
  let at_ := U64 1 in
  _ ← lift (validate_recovery_request request capsule at_);
  let events := log setup_events at_ "RECOVERY" "fresh-client"
    "Scanned Recovery Card, fetched capsule, and generated a fresh one-time X-Wing recipient keypair."
    (Some (Recovery.rm_state machine)) in
  '(contributions, signers) ← collect_signer_approvals (dw_signers world) request
    (do_offline_signer options) (cap_signer_threshold capsule);
  let world := {|
    dw_card := dw_card world; dw_signers := signers; dw_guardians := dw_guardians world;
    dw_config_store := dw_config_store world;
    dw_authorization_key := dw_authorization_key world;
    dw_owner_cancel_signing_seed := dw_owner_cancel_signing_seed world |} in
  let begin := {| brc_request := request; brc_signer_contributions := contributions |} in
  a ← lift (validate_approvals_and_reconstruct begin capsule recipient at_);
  machine ← lift (apply_event machine ApprovalThresholdReached at_ delay);
  let events := log events at_ "RECOVERY" "fresh-client"
    (pretty (uval (cap_signer_threshold capsule))
      +:+ " valid signer contributions reconstructed A locally.")
    (Some (Recovery.rm_state machine)) in
  _ ← lift (fail_if (bool_decide (a ≠ dw_authorization_key world)) SimRecoveryMismatch);
  descriptor ← lift (open_descriptor capsule a);
  let events := log events at_ "RECOVERY" "fresh-client"
    "Decrypted the private Recovery Descriptor and learned opaque guardian routes locally." None in
  _ ← lift (validate_begin_certificate begin capsule at_);
  machines ← lift (collect (guardian_machine world capsule) (rd_guardians descriptor));
  machines ← lift (collect (begin_machine request digest at_ delay) machines);
  machine ← lift (apply_event machine BeginAccepted at_ delay);
  let events := log events at_ "DELAY" "guardians"
    ("Begin certificate accepted. Production policy is 24 hours; simulator delay is "
      +:+ pretty (uval delay) +:+ " seconds.")
    (Some (Recovery.rm_state machine)) in
  mret {| bg_world := world; bg_capsule := capsule; bg_recipient := recipient;
          bg_request := request; bg_digest := digest; bg_machine := machine; bg_at := at_;
          bg_a := a; bg_descriptor := descriptor; bg_guardian_machines := machines;
          bg_events := events |}.

(** The owner cancels one second before the delay is over. *)
Definition cancel_demo (options : DemoOptions) (b : Begun) : Demo DemoOutcome :=
  let delay := do_simulated_delay_secs options in
  let request := bg_request b in
  let at_ := later (bg_at b) (U64 (delay - 1)) in
  seed ← random_id;
  let cancel_recipient := RecipientKeyPair_from_seed seed in
  certificate ← lift (make_owner_cancel_certificate (dw_owner_cancel_signing_seed (bg_world b))
    request (bg_digest b) (rkp_public cancel_recipient) at_);
  _ ← lift (validate_owner_cancel_certificate certificate (bg_capsule b) request at_);
  machines ← lift (collect (cancel_machine request (bg_digest b)) (bg_guardian_machines b));
  machine ← lift (apply_event (bg_machine b) OwnerCancelObserved at_ delay);
  let events := log (bg_events b) at_ "CANCEL" "owner"
    "The setup-time owner key permanently cancelled the exact request; the raced release was refused."
    (Some (Recovery.rm_state machine)) in
  first ← lift (at_offset machines 0);
  let refused := (Guardian.authorize_release first (rr_request_id request) (bg_digest b)
    (later at_ delay) true true).1 in
  _ ← lift (fail_if (bool_decide (refused ≠ Err CErr_Cancelled)) SimInvalidCertificate);
  mret {| out_state := Recovery.rm_state machine; out_recovered_secret := None;
          out_valid_guardians := 0; out_rejected_guardians := [];
          out_rotated_config_version := None; out_events := events |}.

(** *** Contributions *)

(** [*byte ^= 1] of the first byte. *)
Definition flip_first (fragment : list byte) : list byte :=
  match fragment with
  | [] => []
  | b :: fragment => byte_of_N (N.lxor (Byte.to_N b) 1) :: fragment
  end.

Definition unsigned_contribution (options : DemoOptions) (request : RecoveryRequest)
    (digest : Id32) (route : GuardianRoute) (record : GuardianRecord) : GuardianContribution := {|
  gc_protocol_version := PROTOCOL_VERSION;
  gc_config_id := rr_config_id request;
  gc_config_version := rr_config_version request;
  gc_request_id := rr_request_id request;
  gc_request_digest := digest;
  gc_guardian_index := gr_guardian_index route;
  gc_ciphertext_fragment :=
    if bool_decide (do_corrupt_guardian options = Some (gr_guardian_index route))
    then flip_first (grec_ciphertext_fragment record) else grec_ciphertext_fragment record;
  gc_encrypted_dek_share := grec_encrypted_dek_share record;
  gc_merkle_path_proof := grec_merkle_path_proof record;
  gc_guardian_signature := []
|}.

(** What the loop over the guardians has: valid fragments and shares, the
    rejected, the machines and the events. *)
Record Gathered : Type := mkGathered {
  ga_fragments : list (u16 * list byte);
  ga_dek_shares : list (list byte);
  ga_rejected : list u16;
  ga_machines : list Guardian.GuardianMachine;
  ga_events : list SimEvent
}.
Definition actor_name (route : GuardianRoute) : string :=
  "guardian-" +:+ pretty (uval (gr_guardian_index route)).
Definition reject (at_ : u64) (route : GuardianRoute) (message : string) (g : Gathered) :
    Gathered := {|
  ga_fragments := ga_fragments g;
  ga_dek_shares := ga_dek_shares g;
  ga_rejected := ga_rejected g ++ [gr_guardian_index route];
  ga_machines := ga_machines g;
  ga_events := log (ga_events g) at_ "RELEASE" (actor_name route) message None
|}.
Definition accept (at_ : u64) (route : GuardianRoute) (received : GuardianContribution)
    (dek_share : list byte) (g : Gathered) : Gathered := {|
  ga_fragments := ga_fragments g ++ [(gc_guardian_index received, gc_ciphertext_fragment received)];
  ga_dek_shares := ga_dek_shares g ++ [dek_share];
  ga_rejected := ga_rejected g;
  ga_machines := ga_machines g;
  ga_events := log (ga_events g) at_ "RELEASE" (actor_name route)
    "Signature, request binding, Merkle proof, and wrapped-share AEAD verified." None
|}.

(** One guardian is asked: its machine, its signed contribution, sealed to the
    client and opened there. *)
Definition ask_guardian (options : DemoOptions) (b : Begun) (at_ : u64) (route : GuardianRoute)
    (g : Gathered) : Demo (GuardianContribution * Gathered) :=
  let request := bg_request b in
  let index := gr_guardian_index route in
  machine ← lift (at_index (ga_machines g) index);
  let '(authorized, machine) := Guardian.authorize_release machine (rr_request_id request)
    (bg_digest b) at_ true true in
  _ ← lift (map_err SimCore authorized);
  let machines := <[N.to_nat (wrapping_pred index) := machine]> (ga_machines g) in
  guardian ← lift (at_index (dw_guardians (bg_world b)) index);
  record ← lift (storage (Records.get_record guardian (gr_opaque_slot_id route)));
  let contribution := unsigned_contribution options request (bg_digest b) route record in
  t ← lift (wire (guardian_contribution contribution));
  let contribution := with_guardian_signature contribution
    (sign (signing_key (Records.gs_signing_seed guardian)) t) in
  context ← lift (wire (guardian_release_context request index));
  serialized ← lift (ok_or (contribution_to_vec contribution) SimJson);
  kem_seed ← random_id;
  nonce ← random_nonce;
  sealed ← lift (crypto (Transport.protect_payload (rkp_public (bg_recipient b)) kem_seed nonce
    serialized context));
  opened ← lift (crypto (open (bg_recipient b) sealed context));
  received ← lift (ok_or (contribution_from_slice opened) SimJson);
  mret (received, {| ga_fragments := ga_fragments g; ga_dek_shares := ga_dek_shares g;
                     ga_rejected := ga_rejected g; ga_machines := machines;
                     ga_events := ga_events g |}).

Fixpoint gather_contributions (options : DemoOptions) (b : Begun) (at_ : u64)
    (routes : list GuardianRoute) (g : Gathered) : Demo Gathered :=
  match routes with
  | [] => mret g
  | route :: routes =>
      if bool_decide (do_offline_guardian options = Some (gr_guardian_index route)) then
        gather_contributions options b at_ routes
          (reject at_ route "Offline; client requested a replacement guardian." g)
      else
      '(received, g) ← ask_guardian options b at_ route g;
      let g :=
        match validate_guardian_contribution received route (bg_descriptor b) (bg_request b)
                (bg_a b) with
        | Ok dek_share => accept at_ route received dek_share g
        | Err _ => reject at_ route
            "Contribution failed integrity validation and was treated as an erasure; replacement requested."
            g
        end in
      if (cap_guardian_threshold (bg_capsule b) <=? len (ga_fragments g))%N then mret g
      else gather_contributions options b at_ routes g
  end.

(** From the gathered material to the plaintext. *)
Definition reconstruct (b : Begun) (g : Gathered) : Result SimError (list byte) :=
  let capsule := bg_capsule b in
  let descriptor := bg_descriptor b in
  dek ← crypto (recover_secret (ga_dek_shares g) (cap_guardian_threshold capsule));
  ciphertext ← crypto (erasure_reconstruct (ga_fragments g) (rd_data_shards descriptor)
    (rd_total_shards descriptor) (rd_ciphertext_len descriptor));
  key ← ok_or (try_barr 32 dek) SimRecoveryMismatch;
  context ← wire (payload_context (cap_config_id capsule) (cap_config_version capsule));
  crypto (aead_decrypt key
    {| aead_nonce := rd_payload_nonce descriptor; aead_ciphertext := ciphertext |} context).

Definition release_demo (options : DemoOptions) (b : Begun) : Demo DemoOutcome :=
  let delay := do_simulated_delay_secs options in
  let capsule := bg_capsule b in
  let at_ := later (bg_at b) delay in
  release ← lift (make_release_certificate (dw_signers (bg_world b)) (bg_request b) (bg_digest b)
    (do_offline_signer options) (cap_signer_threshold capsule));
  _ ← lift (validate_release_certificate release capsule (bg_request b) at_);
  machine ← lift (apply_event (bg_machine b) ReleaseCertificateReady at_ delay);
  let events := log (bg_events b) at_ "RELEASE" "signers"
    "Fresh threshold ReleaseCertificate validated for the unchanged recipient and request digest."
    (Some (Recovery.rm_state machine)) in
  g ← gather_contributions options b at_ (rd_guardians (bg_descriptor b))
    {| ga_fragments := []; ga_dek_shares := []; ga_rejected := [];
       ga_machines := bg_guardian_machines b; ga_events := events |};
  _ ← lift (fail_if (len (ga_fragments g) <? cap_guardian_threshold capsule)%N SimThreshold);
  plaintext ← lift (reconstruct b g);
  _ ← lift (fail_if (bool_decide (plaintext ≠ as_bytes (do_secret options))) SimRecoveryMismatch);
  machine ← lift (apply_event machine GuardianThresholdReached at_ delay);
  let events := log (ga_events g) at_ "COMPLETE" "fresh-client"
    "Reconstructed DEK and encrypted payload from threshold-valid material; decrypted plaintext locally and zeroized intermediates."
    (Some (Recovery.rm_state machine)) in
  rotated ← setup_world plaintext (policy_of options) (do_seed options)
    (Some (cap_config_id capsule, U64 (cap_config_version capsule + 1)));
  capsule' ← lift (storage (Records.get_capsule (dw_config_store rotated) (cap_config_id capsule)));
  let events := log events at_ "ROTATE" "owner"
    "Generated fresh A, DEK, shares, fragments, commitments, and opaque slots; invalidated version-1 request state."
    None in
  mret {| out_state := Recovery.rm_state machine;
          out_recovered_secret := Some (from_utf8_lossy plaintext);
          out_valid_guardians := len (ga_fragments g);
          out_rejected_guardians := ga_rejected g;
          out_rotated_config_version := Some (cap_config_version capsule');
          out_events := events |}.

(** *** The result *)

Definition transport_of (options : DemoOptions) : TransportConfig :=
  let transport := for_mode (do_mode options) in {|
  tc_mode := tc_mode transport;
  tc_base_latency_ms := do_network_latency_ms options;
  tc_epoch_ms := tc_epoch_ms transport;
  tc_cover_rate := do_cover_rate options;
  tc_hops := tc_hops transport;
  tc_cell_size := tc_cell_size transport;
  tc_loss_percent := do_packet_loss_percent options;
  tc_duplicate_percent := do_packet_duplication_percent options;
  tc_mix_drop_percent := do_mix_drop_percent options
|}.

Definition security_notice : string :=
  "Working hackathon prototype: real threshold sharing, encryption, integrity, exact-recipient binding, cancellation, and local reconstruction. Metadata transport is simulated; Ed25519 is classical/non-PQ; no perfect-anonymity claim.".

Definition finish_result (options : DemoOptions) (capsule : ConfigCapsule)
    (recovery_card : RecoveryCard) (request : RecoveryRequest) (outcome : DemoOutcome) :
    Result SimError DemoResult :=
  observer ← map_err (λ _, SimPanic) (Transport.simulate_observer (transport_of options)
    (do_seed options) (N.max (len (out_events outcome)) 1) 1800);
  Ok {|
    dr_seed := do_seed options;
    dr_mode := do_mode options;
    dr_success := bool_decide (out_state outcome = RecCompleted);
    dr_cancelled := bool_decide (out_state outcome = RecCancelled);
    dr_final_state := out_state outcome;
    dr_recovered_secret := out_recovered_secret outcome;
    dr_recovery_card := recovery_card;
    dr_config_id_hex := hex_encode (cap_config_id capsule);
    dr_request_id_hex := hex_encode (rr_request_id request);
    dr_signer_threshold := cap_signer_threshold capsule;
    dr_guardian_threshold := cap_guardian_threshold capsule;
    dr_valid_guardians := out_valid_guardians outcome;
    dr_rejected_guardians := out_rejected_guardians outcome;
    dr_rotated_config_version := out_rotated_config_version outcome;
    dr_observer := observer;
    dr_events := out_events outcome;
    dr_security_notice := security_notice
  |}.

(** After the options are accepted. *)
Definition demo_body (options : DemoOptions) : Demo DemoResult :=
  b ← begin_demo options;
  outcome ← (if do_cancel_before_release options then cancel_demo options b
             else release_demo options b);
  lift (finish_result options (bg_capsule b) (dw_card (bg_world b)) (bg_request b) outcome).

Definition run_demo (options : DemoOptions) : Result SimError DemoResult :=
  _ ← validate options;
  (demo_body options (chacha_from_u64 (do_seed options))).1.

End run.

End SimulatorRun.
