(* ===== verification/RotationSim.v ===== *)
(** The simulator of guardian rotations, crates/gp-sim/src/rotation.rs: its
    options and world, records and capsules, the signers' votes, and the
    exchange of FROST messages.  [RotationSimRun] has one rotation and the
    whole run.

    The generator, which the code keeps in its world, is the state of the code
    here.  Sums on times are those of release builds, which wrap around. *)

From Stdlib Require Import String.
From stdpp Require Import pretty.
From S2P Require Export Simulator GuardianRuntime.

(** ** Ordered maps

    [BTreeMap<u16, _>] where the code iterates over it: the entries in the
    order of their keys. *)

Module BTree.

Section btree.
Context {A : Type}.

Fixpoint get (key : u16) (m : list (u16 * A)) : option A :=
  match m with
  | [] => None
  | (k, a) :: m => if bool_decide (k = key) then Some a else get key m
  end.

Fixpoint insert (key : u16) (a : A) (m : list (u16 * A)) : list (u16 * A) :=
  match m with
  | [] => [(key, a)]
  | (k, b) :: m' =>
      if bool_decide (k = key) then (key, a) :: m'
      else if (key <? k)%mr then (key, a) :: m
      else (k, b) :: insert key a m'
  end.

Definition remove (key : u16) (m : list (u16 * A)) : list (u16 * A) :=
  filter (λ e, e.1 ≠ key) m.

(** [collect] from pairs in any order. *)
Definition of_list (l : list (u16 * A)) : list (u16 * A) :=
  foldl (λ m e, insert e.1 e.2 m) [] l.

(** Keys in strictly increasing order. *)
Inductive ordered : list (u16 * A) → Prop :=
| ordered_nil : ordered []
| ordered_cons (k : u16) a m :
    (∀ e, e ∈ m → (uval k < uval e.1)%N) → ordered m → ordered ((k, a) :: m).

Lemma elem_of_insert e key a m :
  e ∈ insert key a m → e = (key, a) ∨ e ∈ m.
Proof.
  induction m as [|[k b] m IH]; simpl; [set_solver |].
  destruct (bool_decide (k = key)); [set_solver |].
  destruct (key <? k)%N; [set_solver |]. intros [-> | H%IH]%elem_of_cons; set_solver.
Qed.

Lemma insert_ordered key a m : ordered m → ordered (insert key a m).
Proof.
  induction 1 as [| k b m Hk Hm IH]; simpl; [constructor; [set_solver | constructor] |].
  case_bool_decide as Hkk; [subst; by constructor |].
  destruct (N.ltb_spec key k).
  - constructor; [| by constructor]. intros e [-> | He]%elem_of_cons; [done |].
    specialize (Hk e He). simpl in *. lia.
  - constructor; [| done]. intros e [-> | He]%elem_of_insert; [| by apply Hk]. simpl.
    assert (uval k ≠ uval key) by (by intros E%uint_eq). lia.
Qed.

Lemma get_insert key a m key' :
  get key' (insert key a m) = if bool_decide (key = key') then Some a else get key' m.
Proof.
  induction m as [|[k b] m IH]; simpl; [done |].
  destruct (decide (k = key)) as [-> | Hk].
  - rewrite bool_decide_eq_true_2 by done. simpl. by destruct (bool_decide _).
  - rewrite (bool_decide_eq_false_2 (k = key)) by done. destruct (key <? k)%N; simpl; [done |].
    rewrite IH. repeat case_bool_decide; congruence.
Qed.

Lemma get_remove key m key' :
  get key' (remove key m) = if bool_decide (key = key') then None else get key' m.
Proof.
  unfold remove. induction m as [|[k a] m IH]; simpl; [by case_bool_decide |].
  destruct (decide (k = key)) as [-> | Hk].
  - rewrite filter_cons_False by (simpl; tauto). rewrite IH. repeat case_bool_decide; congruence.
  - rewrite filter_cons_True by done. simpl. rewrite IH.
    repeat case_bool_decide; congruence.
Qed.

Lemma elem_of_get key a m : get key m = Some a → (key, a) ∈ m.
Proof.
  induction m as [|[k b] m IH]; simpl; [done |].
  case_bool_decide; [intros [= ->]; subst; by left | intros Hg; right; by apply IH].
Qed.

Lemma get_is_Some key m : is_Some (get key m) ↔ key ∈ m.*1.
Proof.
  induction m as [|[k b] m IH]; simpl; [split; [by intros [] | set_solver] |].
  case_bool_decide as E; [subst; split; [set_solver | by eexists] |].
  rewrite IH. set_solver.
Qed.

Lemma keys_insert key a m key' : key' ∈ (insert key a m).*1 ↔ key' = key ∨ key' ∈ m.*1.
Proof.
  rewrite <- !get_is_Some, get_insert. case_bool_decide as E.
  - split; [by left | by eexists].
  - split; [by right | by intros [->|]].
Qed.

Lemma of_list_ordered l : ordered (of_list l).
Proof.
  unfold of_list. assert (H : ∀ m, ordered m → ordered (foldl (λ m e, insert e.1 e.2 m) m l)).
  { induction l as [|e l IH]; simpl; [done |]. intros m Hm. by apply IH, insert_ordered. }
  apply H. constructor.
Qed.

End btree.

End BTree.

(** ** Data *)

Record RotationDemoOptions : Set := mkRotationDemoOptions {
  rdo_seed : u64;
  rdo_secret : string;
  rdo_simulated_delay_secs : u64;
  rdo_replacements : list (u16 * u16);
  rdo_cancel_rotation_at : option N;
  rdo_fail_preparation_at : option N
}.

Record RotationSimEvent : Set := mkRotationSimEvent {
  rse_guardian_epoch : u64;
  rse_phase : string;
  rse_message : string
}.

Record SimSigner : Set := mkSimSigner {
  sims_id : u16;
  sims_signing_seed : Id32;
  sims_public_key : barr 32;
  sims_authorization_share : list byte
}.

Record RotationWorld : Set := mkRotationWorld {
  rw_authorization_key : Id32;
  rw_signers : list SimSigner;
  rw_witness_seeds : list Id32;
  rw_witnesses : list Witness.EpochWitnessMachine;
  rw_stores : gmap u16 Epochs.GuardianEpochStore;
  rw_routes : list GuardianRouteV3;
  rw_current_ref : ConfigRef;
  rw_current_capsule_hash : Id32;
  rw_current_capsule : ConfigCapsuleV3;
  rw_public_package : list byte;
  rw_active_ids : list u16;
  rw_payload_ciphertext : AeadCiphertext;
  rw_ciphertext_len : N;
  rw_dek_commitment : Id32;
  rw_plaintext_decryptions_during_rotation : u64;
  rw_final_recovery_plaintext_decryptions : u64
}.

Record BuiltRecords : Set := mkBuiltRecords {
  br_records : list (u16 * GuardianRecordV3);
  br_leaves : list (u16 * PreparedRecordLeaf);
  br_material_root : Id32
}.

Record OldMaterial : Set := mkOldMaterial {
  om_shares : list (u16 * list byte);
  om_fragments : list (u16 * list byte)
}.

Record DpssOutput : Set := mkDpssOutput {
  dpo_shares : list (u16 * list byte);
  dpo_public_package : list byte;
  dpo_result_commitment : Id32
}.

Module RotationSim.
Export Simulator.

Definition SIGNER_COUNT : u16 := U16 3.
Definition SIGNER_THRESHOLD : u16 := U16 2.
Definition WITNESS_FAULT_BOUND : u16 := U16 1.
Definition WITNESS_COUNT : u16 := U16 4.
Definition GUARDIAN_COUNT : u16 := U16 8.
Definition GUARDIAN_THRESHOLD : u16 := U16 5.

Definition RotationDemoOptions_default : RotationDemoOptions := {|
  rdo_seed := U64 424242;
  rdo_secret := "correct horse battery staple";
  rdo_simulated_delay_secs := U64 5;
  rdo_replacements := [(U16 4, U16 9); (U16 2, U16 10); (U16 7, U16 11); (U16 5, U16 12)];
  rdo_cancel_rotation_at := None;
  rdo_fail_preparation_at := None
|}.

Definition rotating {A} (r : Result RotationError A) : Result SimError A := map_err SimRotation r.
Definition array32 (value : list byte) : Result SimError Id32 :=
  ok_or (try_barr 32 value) SimInvalidCertificate.
(** [vec[offset]] and [map[&key]]. *)
Definition present {A} (o : option A) : Result SimError A := ok_or o SimPanic.
Definition enough {A} (o : option A) : Result SimError A := ok_or o SimThreshold.

(** The loop over the replacements. *)
Fixpoint check_replacements (current : gset u16) (replacements : list (u16 * u16)) :
    Result SimError () :=
  match replacements with
  | [] => Ok ()
  | (removed, added) :: replacements =>
      let rest := current ∖ {[removed]} in
      if negb (bool_decide (removed ∈ current)) || (uval added =? 0)%N
         || (FROST_MAX_PARTICIPANTS <? added)%mr || bool_decide (added ∈ rest)
      then Err (SimInvalidOptions ("invalid sequential replacement G" +:+ pretty (uval removed)
             +:+ " -> G" +:+ pretty (uval added)))
      else check_replacements ({[added]} ∪ rest) replacements
  end.

Definition validate (self : RotationDemoOptions) : Result SimError () :=
  if bool_decide (rdo_secret self = EmptyString) || (uval (rdo_simulated_delay_secs self) =? 0)%N
  then Err (SimInvalidOptions "rotation secret and delay must be non-empty/non-zero") else
  check_replacements (list_to_set (indices GUARDIAN_COUNT)) (rdo_replacements self).

Section rotation_sim.
Context `{Prims : Primitives} `{Sharing : SharingPrimitives} `{Frost : FrostPrimitives}.
Context `{Protocol : ProtocolPrimitives} `{Json : ClientPrimitives}.

Definition random_id : SR Rng SimError Id32 := λ rng,
  let '(v, rng) := rng_fill 32 rng in (Ok v, rng).
Definition random_nonce : SR Rng SimError (barr 24) := λ rng,
  let '(v, rng) := rng_fill 24 rng in (Ok v, rng).

Definition signer_seed (seed : u64) (id : u16) : Id32 :=
  sha256 (as_bytes "gp/rotation-sim/signer/v3" ++ be seed ++ be id).
Definition guardian_seed (id : u16) : Id32 :=
  sha256 (as_bytes "gp/rotation-sim/guardian/v3" ++ be id).
Definition witness_seed (seed : u64) (id : u16) : Id32 :=
  sha256 (as_bytes "gp/rotation-sim/witness/v3" ++ be seed ++ be id).

(** ** Routes and records *)

(** [hex::encode(&id[..8])]: the first 16 characters of the whole. *)
Definition hex_encode_prefix (id : Id32) : string := String.substring 0 16 (hex_encode id).

Fixpoint make_routes (ids : list u16) (epoch : u64) : SR Rng SimError (list GuardianRouteV3) :=
  match ids with
  | [] => mret []
  | id :: ids =>
      session_seed ← random_id;
      opaque_slot_id ← random_id;
      mailbox ← random_id;
      routes ← make_routes ids epoch;
      mret ({| gr3_guardian_index := id;
               gr3_opaque_slot_id := opaque_slot_id;
               gr3_mailbox := "opaque-e" +:+ pretty (uval epoch) +:+ "-"
                 +:+ hex_encode_prefix mailbox;
               gr3_guardian_public_key := verifying_key_bytes (signing_key (guardian_seed id));
               gr3_session_recipient_key := rkp_public (RecipientKeyPair_from_seed session_seed);
               gr3_operator_domain_commitment := sha256 (be id) |} :: routes)
  end.

Definition prepared_leaf (record : GuardianRecordV3) : Result SimError PreparedRecordLeaf :=
  policy ← wire (guardian_policy_body_v3 (grec3_policy record));
  Ok {| prl_guardian_index := grec3_guardian_index record;
        prl_fragment_index := grec3_fragment_index record;
        prl_opaque_slot_id := grec3_opaque_slot_id record;
        prl_encrypted_share_hash := hash_aead (grec3_encrypted_dek_share record);
        prl_fragment_hash := hash_aead (grec3_encrypted_ciphertext_fragment record);
        prl_policy_hash := sha256 policy |}.

Definition signer_set : Id32 := brep 32 x15.
Definition owner_key : barr 32 := brep 32 x16.
Definition one_day : u64 := U64 (24 * 60 * 60).

(** The policy of a record before the root of the records is known. *)
Definition prepared_policy (config_ref : ConfigRef) (predecessor_capsule_hash : Id32)
    (public_commitment : Id32) : GuardianPolicyV3 := {|
  gpol3_config_ref := config_ref;
  gpol3_epoch_state := EpochPrepared;
  gpol3_signer_set_commitment := signer_set;
  gpol3_signer_count := SIGNER_COUNT;
  gpol3_signer_threshold := SIGNER_THRESHOLD;
  gpol3_owner_cancel_public_key := owner_key;
  gpol3_minimum_recovery_delay := one_day;
  gpol3_guardian_material_root := brep 32 x00;
  gpol3_dpss_suite := ZfFrostRistretto255RtsRefreshV1;
  gpol3_dpss_public_commitment := public_commitment;
  gpol3_predecessor_capsule_hash := predecessor_capsule_hash;
  gpol3_activation_qc_hash := None;
  gpol3_drain_deadline := None
|}.

(** The record of the route at [offset]. *)
Definition build_record (authorization_key : Id32) (policy : GuardianPolicyV3)
    (shares : list (u16 * list byte)) (fragments : list (list byte)) (public_package : list byte)
    (offset : nat) (route : GuardianRouteV3) : SR Rng SimError GuardianRecordV3 :=
  let config_ref := gpol3_config_ref policy in
  let index := gr3_guardian_index route in
  share ← lift (enough (BTree.get index shares));
  _ ← lift (crypto (frost_verify_share share public_package));
  fragment_index ← lift (enough (try_u16 (N.of_nat offset + 1)));
  share_context ← lift (wire (guardian_share_context_v3 config_ref index));
  fragment_context ← lift (wire (guardian_fragment_context_v3 config_ref index fragment_index));
  key ← lift (crypto (guardian_share_key_v3 authorization_key config_ref index));
  nonce ← random_nonce;
  encrypted_dek_share ← lift (crypto (aead_encrypt key nonce share share_context));
  key ← lift (crypto (guardian_fragment_key_v3 authorization_key config_ref index));
  nonce ← random_nonce;
  fragment ← lift (present (fragments !! offset));
  encrypted_fragment ← lift (crypto (aead_encrypt key nonce fragment fragment_context));
  custody ← lift (crypto (custody_commit (GuardianRuntime.custody_bytes encrypted_dek_share encrypted_fragment)));
  mret {| grec3_opaque_slot_id := gr3_opaque_slot_id route;
          grec3_guardian_index := index;
          grec3_fragment_index := fragment_index;
          grec3_encrypted_ciphertext_fragment := encrypted_fragment;
          grec3_encrypted_dek_share := encrypted_dek_share;
          grec3_merkle_path_proof := [];
          grec3_custody_root := cust_root custody;
          grec3_policy := policy |}.

Fixpoint build_each (authorization_key : Id32) (policy : GuardianPolicyV3)
    (shares : list (u16 * list byte)) (fragments : list (list byte)) (public_package : list byte)
    (offset : nat) (routes : list GuardianRouteV3) (records : list (u16 * GuardianRecordV3)) :
    SR Rng SimError (list (u16 * GuardianRecordV3)) :=
  match routes with
  | [] => mret records
  | route :: routes =>
      record ← build_record authorization_key policy shares fragments public_package offset route;
      build_each authorization_key policy shares fragments public_package (S offset) routes
        (BTree.insert (gr3_guardian_index route) record records)
  end.

(** [records.values_mut().zip(leaves).zip(proofs)]: each gets the root and its
    proof, and its leaf is listed under its index. *)
Fixpoint commit_records (root : Id32) (records : list (u16 * GuardianRecordV3))
    (leaves : list PreparedRecordLeaf) (proofs : list (list byte))
    (leaf_map : list (u16 * PreparedRecordLeaf)) :
    list (u16 * GuardianRecordV3) * list (u16 * PreparedRecordLeaf) :=
  match records, leaves, proofs with
  | (key, record) :: records, leaf :: leaves, proof :: proofs =>
      let '(records, leaf_map) := commit_records root records leaves proofs
        (BTree.insert (grec3_guardian_index record) leaf leaf_map) in
      ((key, GuardianRuntime.committed_record record root proof) :: records, leaf_map)
  | _, _, _ => (records, leaf_map)
  end.

Definition build_records (authorization_key : Id32) (config_ref : ConfigRef)
    (predecessor_capsule_hash : Id32) (routes : list GuardianRouteV3)
    (shares : list (u16 * list byte)) (fragments : list (list byte))
    (public_package : list byte) : SR Rng SimError BuiltRecords :=
  _ ← lift (fail_if ((len routes !=? len fragments) || (len routes !=? len shares))%mr
    SimThreshold);
  public_commitment ← lift (crypto (frost_public_package_digest public_package));
  records ← build_each authorization_key
    (prepared_policy config_ref predecessor_capsule_hash public_commitment) shares fragments
    public_package 0 routes [];
  leaves ← lift (collect prepared_leaf records.*2);
  leaf_hashes ← lift (collect (λ leaf, sha256 <$> wire (prepared_record_leaf_v3 leaf)) leaves);
  '(root, proofs) ← lift (crypto (merkle_commit leaf_hashes));
  let '(records, leaf_map) := commit_records root records leaves proofs [] in
  mret {| br_records := records; br_leaves := leaf_map; br_material_root := root |}.

(** ** Capsules *)

(** The capsule with its hash and, once it is active, the evidence. *)
Definition capsule_with (config_ref : ConfigRef) (predecessor_capsule_hash : Id32)
    (public_commitment ciphertext_fragment_root guardian_material_root : Id32)
    (descriptor : AeadCiphertext) (capsule_hash : Id32) : ConfigCapsuleV3 := {|
  cap3_protocol_version := PROTOCOL_VERSION_V3;
  cap3_config_ref := config_ref;
  cap3_capsule_hash := capsule_hash;
  cap3_predecessor_capsule_hash := predecessor_capsule_hash;
  cap3_signer_count := SIGNER_COUNT;
  cap3_signer_threshold := SIGNER_THRESHOLD;
  cap3_guardian_count := GUARDIAN_COUNT;
  cap3_guardian_threshold := GUARDIAN_THRESHOLD;
  cap3_minimum_recovery_delay := one_day;
  cap3_max_request_lifetime := U64 (7 * 24 * 60 * 60);
  cap3_signer_set_commitment := signer_set;
  cap3_owner_cancel_public_key := owner_key;
  cap3_dpss_suite := ZfFrostRistretto255RtsRefreshV1;
  cap3_dpss_public_commitment := public_commitment;
  cap3_ciphertext_fragment_root := ciphertext_fragment_root;
  cap3_guardian_material_root := guardian_material_root;
  cap3_encrypted_recovery_descriptor := descriptor;
  cap3_activation_certificate := None;
  cap3_activation_qc := None
|}.

Definition build_capsule (authorization_key : Id32) (config_ref : ConfigRef)
    (predecessor_capsule_hash : Id32) (routes : list GuardianRouteV3)
    (ciphertext_fragment_root guardian_material_root : Id32) (ciphertext_len : N)
    (payload_nonce : barr 24) (public_package : list byte) : SR Rng SimError ConfigCapsuleV3 :=
  public_commitment ← lift (crypto (frost_public_package_digest public_package));
  let descriptor := {|
    rd3_config_ref := config_ref;
    rd3_guardians := routes;
    rd3_guardian_material_root := guardian_material_root;
    rd3_data_shards := GUARDIAN_THRESHOLD;
    rd3_total_shards := GUARDIAN_COUNT;
    rd3_ciphertext_len := U64 ciphertext_len;
    rd3_payload_nonce := payload_nonce;
    rd3_dpss_suite := ZfFrostRistretto255RtsRefreshV1;
    rd3_dpss_public_package := public_package;
    rd3_dpss_public_commitment := public_commitment
  |} in
  descriptor_plaintext ← lift (ok_or (descriptor_v3_to_vec descriptor) SimJson);
  context ← lift (wire (descriptor_context_v3 config_ref));
  key ← lift (crypto (descriptor_key_v3 authorization_key config_ref));
  nonce ← random_nonce;
  sealed ← lift (crypto (aead_encrypt key nonce descriptor_plaintext context));
  let capsule := capsule_with config_ref predecessor_capsule_hash public_commitment
    ciphertext_fragment_root guardian_material_root sealed in
  body ← lift (wire (config_capsule_body_v3 (capsule (brep 32 x00))));
  mret (capsule (sha256 body)).

(** ** Setup *)

Definition sim_signer (seed : u64) (entry : nat * list byte) : Result SimError SimSigner :=
  let '(offset, share) := entry in
  id ← present (try_u16 (N.of_nat offset + 1));
  let signing_seed := signer_seed seed id in
  Ok {| sims_id := id;
        sims_signing_seed := signing_seed;
        sims_public_key := verifying_key_bytes (signing_key signing_seed);
        sims_authorization_share := share |}.

Definition setup_world (options : RotationDemoOptions) : SR Rng SimError RotationWorld :=
  authorization_key ← random_id;
  share_seed ← random_id;
  authorization_shares ← lift (crypto (split_secret authorization_key SIGNER_THRESHOLD
    SIGNER_COUNT share_seed));
  signers ← lift (collect (sim_signer (rdo_seed options)) (imap pair authorization_shares));
  dealer_seed ← random_id;
  dealer ← lift (crypto (frost_dealer_split GUARDIAN_THRESHOLD GUARDIAN_COUNT dealer_seed));
  dek ← lift (array32 (fdo_dek dealer));
  config_id ← random_id;
  epoch_binding ← random_id;
  let config_ref := {|
    cr_config_id := config_id;
    cr_payload_generation := U64 1;
    cr_authorization_epoch := U64 1;
    cr_guardian_epoch := U64 1;
    cr_epoch_binding := epoch_binding
  |} in
  context ← lift (wire (payload_context_v3 config_id (U64 1)));
  nonce ← random_nonce;
  payload_ciphertext ← lift (crypto (aead_encrypt dek nonce (as_bytes (rdo_secret options)) context));
  let ciphertext_len := len (aead_ciphertext payload_ciphertext) in
  fragments ← lift (crypto (erasure_encode (aead_ciphertext payload_ciphertext)
    GUARDIAN_THRESHOLD GUARDIAN_COUNT));
  commitment ← lift (crypto (commit_ciphertext_fragments config_id (U64 1) fragments));
  let active_ids := indices GUARDIAN_COUNT in
  routes ← make_routes active_ids (U64 1);
  let shares := BTree.of_list (zip active_ids (fdo_shares dealer)) in
  built ← build_records authorization_key config_ref (brep 32 x00) routes shares fragments
    (fdo_public_package dealer);
  capsule ← build_capsule authorization_key config_ref (brep 32 x00) routes (cfcm_root commitment)
    (br_material_root built) ciphertext_len (aead_nonce payload_ciphertext)
    (fdo_public_package dealer);
  let capsule_hash := cap3_capsule_hash capsule in
  mret {|
    rw_authorization_key := authorization_key;
    rw_signers := signers;
    rw_witness_seeds := witness_seed (rdo_seed options) <$> indices WITNESS_COUNT;
    rw_witnesses := (λ _, Witness.new config_id (U64 1) capsule_hash) <$> indices WITNESS_COUNT;
    rw_stores := list_to_map ((λ '(id, record), (id, Epochs.new record capsule_hash))
      <$> br_records built);
    rw_routes := routes;
    rw_current_ref := config_ref;
    rw_current_capsule_hash := capsule_hash;
    rw_current_capsule := capsule;
    rw_public_package := fdo_public_package dealer;
    rw_active_ids := active_ids;
    rw_payload_ciphertext := payload_ciphertext;
    rw_ciphertext_len := ciphertext_len;
    rw_dek_commitment := sha256 (bytes_of dek);
    rw_plaintext_decryptions_during_rotation := U64 0;
    rw_final_recovery_plaintext_decryptions := U64 0
  |}.

(** ** Signers *)

Definition rotation_context (world : RotationWorld) (rotation_id : Id32)
    (recipient_key : list byte) (nonce : Id32) : RotationContext := {|
  ctx_protocol_version := PROTOCOL_VERSION_V3;
  ctx_config_ref := rw_current_ref world;
  ctx_rotation_id := rotation_id;
  ctx_predecessor_capsule_hash := rw_current_capsule_hash world;
  ctx_recipient_key := recipient_key;
  ctx_nonce := nonce;
  ctx_issued_at := U64 10;
  ctx_expiry := U64 10000
|}.
Definition context (world : RotationWorld) (rotation_id : Id32) (recipient_key : list byte) :
    SR Rng SimError RotationContext :=
  nonce ← random_id; mret (rotation_context world rotation_id recipient_key nonce).

(** The signers that are asked. *)
Definition asked_signers (world : RotationWorld) : list SimSigner :=
  take (N.to_nat SIGNER_THRESHOLD) (rw_signers world).

(** [verify(public, transcript, sign(key, transcript))?]: the signature. *)
Definition sign_and_verify (seed : Id32) (public : barr 32) (transcript : list byte) :
    Result SimError (list byte) :=
  let signature := sign (signing_key seed) transcript in
  _ ← crypto (verify public transcript signature);
  Ok signature.

Definition intent_of (rotation : RotationContext) (removed : u16) : RotationIntent := {|
  ri_context := rotation;
  ri_reason := ReasonPlannedExit;
  ri_old_guardian_count := GUARDIAN_COUNT;
  ri_old_guardian_threshold := GUARDIAN_THRESHOLD;
  ri_allowed_new_guardian_count := [GUARDIAN_COUNT];
  ri_allowed_new_guardian_threshold := [GUARDIAN_THRESHOLD];
  ri_allowed_dpss_suites := [ZfFrostRistretto255RtsRefreshV1];
  ri_selection_constraints_commitment := sha256 (be removed);
  ri_witness_read_qc_hash := sha256 (as_bytes "fresh-witness-read-qc")
|}.

(** One signer seals its share of A to the coordinator, who opens it. *)
Definition contribute_share (rotation : RotationContext) (intent_hash : Id32)
    (recipient : RecipientKeyPair) (signer : SimSigner) : SR Rng SimError (list byte) :=
  share_context ← lift (wire (rotation_intent_share_context_v3 rotation intent_hash
    (sims_id signer)));
  kem_seed ← random_id;
  nonce ← random_nonce;
  sealed ← lift (crypto (seal_to_recipient (rkp_public recipient) kem_seed nonce
    (sims_authorization_share signer) share_context));
  transcript ← lift (wire (signer_rotation_intent_contribution {|
    sric_context := rotation;
    sric_intent_hash := intent_hash;
    sric_signer_id := sims_id signer;
    sric_signer_public_key := sims_public_key signer;
    sric_signer_membership_proof := [];
    sric_encrypted_authorization_share := sealed;
    sric_signer_signature := []
  |}));
  _ ← lift (sign_and_verify (sims_signing_seed signer) (sims_public_key signer) transcript);
  lift (crypto (open recipient sealed share_context)).

Fixpoint contribute_all (rotation : RotationContext) (intent_hash : Id32)
    (recipient : RecipientKeyPair) (signers : list SimSigner) :
    SR Rng SimError (list (list byte)) :=
  match signers with
  | [] => mret []
  | signer :: signers =>
      share ← contribute_share rotation intent_hash recipient signer;
      shares ← contribute_all rotation intent_hash recipient signers;
      mret (share :: shares)
  end.

Definition authorize_intent (world : RotationWorld) (rotation : RotationContext) (removed : u16) :
    SR Rng SimError (Id32 * Id32) :=
  intent ← lift (wire (rotation_intent (intent_of rotation removed)));
  let intent_hash := sha256 intent in
  seed ← random_id;
  opened ← contribute_all rotation intent_hash (RecipientKeyPair_from_seed seed)
    (asked_signers world);
  secret ← lift (crypto (recover_secret opened SIGNER_THRESHOLD));
  reconstructed ← lift (array32 secret);
  _ ← lift (fail_if (reconstructed !=? rw_authorization_key world)%mr SimRecoveryMismatch);
  mret (intent_hash, reconstructed).

Definition begin_vote (rotation : RotationContext) (intent_hash plan_hash : Id32)
    (old_roster_commitment new_roster_commitment : Id32) (signer : SimSigner)
    (signature : list byte) : SignerRotationBeginVote := {|
  srbv_context := rotation;
  srbv_intent_hash := intent_hash;
  srbv_plan_hash := plan_hash;
  srbv_old_roster_commitment := old_roster_commitment;
  srbv_new_roster_commitment := new_roster_commitment;
  srbv_signer_id := sims_id signer;
  srbv_signer_public_key := sims_public_key signer;
  srbv_signer_membership_proof := [];
  srbv_signer_signature := signature
|}.

(** A vote is signed as it is without its signature. *)
Definition sign_votes {V} (vote : SimSigner → list byte → V)
    (transcript : V → Result WireError (list byte)) (world : RotationWorld) :
    Result SimError (list V) :=
  collect (λ signer,
    t ← wire (transcript (vote signer []));
    signature ← sign_and_verify (sims_signing_seed signer) (sims_public_key signer) t;
    Ok (vote signer signature)) (asked_signers world).

Definition sign_begin_votes (world : RotationWorld) (rotation : RotationContext)
    (intent_hash plan_hash old_roster_commitment new_roster_commitment : Id32) :
    Result SimError (list SignerRotationBeginVote) :=
  sign_votes (begin_vote rotation intent_hash plan_hash old_roster_commitment
    new_roster_commitment) signer_rotation_begin_vote world.

Definition release_vote (rotation : RotationContext) (plan_hash begin_hash : Id32)
    (signer : SimSigner) (signature : list byte) : SignerRotationReleaseVote := {|
  srrv_context := rotation;
  srrv_plan_hash := plan_hash;
  srrv_begin_certificate_hash := begin_hash;
  srrv_signer_id := sims_id signer;
  srrv_signer_public_key := sims_public_key signer;
  srrv_signer_membership_proof := [];
  srrv_signer_signature := signature
|}.
Definition sign_release_votes (world : RotationWorld) (rotation : RotationContext)
    (plan_hash begin_hash : Id32) : Result SimError (list SignerRotationReleaseVote) :=
  sign_votes (release_vote rotation plan_hash begin_hash) signer_rotation_release_vote world.

Definition activate_vote (rotation : RotationContext)
    (plan_hash ready_hash successor_capsule_hash : Id32) (signer : SimSigner)
    (signature : list byte) : SignerRotationActivateVote := {|
  srav_context := rotation;
  srav_plan_hash := plan_hash;
  srav_ready_certificate_hash := ready_hash;
  srav_successor_capsule_hash := successor_capsule_hash;
  srav_signer_id := sims_id signer;
  srav_signer_public_key := sims_public_key signer;
  srav_signer_membership_proof := [];
  srav_signer_signature := signature
|}.

(** ** The exchange of FROST messages *)

(** What one guardian's record holds, opened with A. *)
Definition open_record (world : RotationWorld) (id : u16) :
    Result SimError (list byte * (u16 * list byte)) :=
  record ← enough (rw_stores world !! id ≫= Epochs.ges_active);
  let config_ref := rw_current_ref world in
  key ← crypto (guardian_share_key_v3 (rw_authorization_key world) config_ref id);
  share_context ← wire (guardian_share_context_v3 config_ref id);
  share ← crypto (aead_decrypt key (grec3_encrypted_dek_share record) share_context);
  _ ← crypto (frost_verify_share share (rw_public_package world));
  key ← crypto (guardian_fragment_key_v3 (rw_authorization_key world) config_ref id);
  fragment_context ← wire (guardian_fragment_context_v3 config_ref id
    (grec3_fragment_index record));
  fragment ← crypto (aead_decrypt key (grec3_encrypted_ciphertext_fragment record)
    fragment_context);
  Ok (share, (grec3_fragment_index record, fragment)).

Definition decrypt_old_material (world : RotationWorld) : Result SimError OldMaterial :=
  opened ← collect (λ id, m ← open_record world id; Ok (id, m)) (rw_active_ids world);
  Ok {| om_shares := BTree.of_list ((λ '(id, (share, _)), (id, share)) <$> opened);
        om_fragments := (λ '(_, (_, fragment)), fragment) <$> opened |}.

(** [iter().find(|(target, _)| target == id)] *)
Definition message_for (id : u16) (messages : list (u16 * list byte)) :
    Result SimError (list byte) :=
  enough (snd <$> (snd <$> list_find (λ m : u16 * list byte, m.1 = id) messages)).

Fixpoint deal_deltas (shares : list (u16 * list byte)) (helper_ids : list u16) (added : u16)
    (helpers : list u16) : SR Rng SimError (list (list (u16 * list byte))) :=
  match helpers with
  | [] => mret []
  | helper :: helpers =>
      share ← lift (enough (BTree.get helper shares));
      seed ← random_id;
      deltas ← lift (crypto (begin_old_share share helper_ids added seed));
      rest ← deal_deltas shares helper_ids added helpers;
      mret (deltas :: rest)
  end.

(** The malicious helper's first message is emptied. *)
Definition clear_first (dealer_deltas : list (list (u16 * list byte))) :
    list (list (u16 * list byte)) :=
  match dealer_deltas with
  | ((target, _) :: messages) :: rest => ((target, []) :: messages) :: rest
  | _ => dealer_deltas
  end.

Definition sigma_of (dealer_deltas : list (list (u16 * list byte))) (recipient : u16) :
    Result SimError (list byte) :=
  incoming ← collect (message_for recipient) dealer_deltas;
  crypto (frost_repair_part2 incoming).

Fixpoint refresh_round1 (successor_ids : list u16) (round1 : list (u16 * FrostRefreshRound1)) :
    SR Rng SimError (list (u16 * FrostRefreshRound1)) :=
  match successor_ids with
  | [] => mret round1
  | id :: successor_ids =>
      seed ← random_id;
      message ← lift (crypto (frost_refresh_part1 id GUARDIAN_THRESHOLD GUARDIAN_COUNT seed));
      refresh_round1 successor_ids (BTree.insert id message round1)
  end.

(** The broadcasts of the others. *)
Definition broadcasts (round1 : list (u16 * FrostRefreshRound1)) (id : u16) :
    list (u16 * list byte) :=
  (λ e, (e.1, frr1_broadcast e.2)) <$> filter (λ e, e.1 ≠ id) round1.

Definition refresh_round2 (round1 : list (u16 * FrostRefreshRound1)) (successor_ids : list u16) :
    Result SimError (list (u16 * FrostRefreshRound2)) :=
  round2 ← collect (λ id,
    own ← present (BTree.get id round1);
    message ← crypto (frost_refresh_part2 (frr1_secret_state own) (broadcasts round1 id));
    Ok (id, message)) successor_ids;
  Ok (BTree.of_list round2).

(** What the others sent to [id] in the second round. *)
Definition direct_messages (round2 : list (u16 * FrostRefreshRound2)) (id : u16) :
    Result SimError (list (u16 * list byte)) :=
  collect (λ e, payload ← message_for id (frr2_direct_messages e.2); Ok (e.1, payload))
    (filter (λ e, e.1 ≠ id) round2).

Definition refresh_share (round1 : list (u16 * FrostRefreshRound1))
    (round2 : list (u16 * FrostRefreshRound2)) (expanded_public : list byte)
    (old_shares : list (u16 * list byte)) (id : u16) : Result SimError FrostRefreshOutput :=
  incoming_round2 ← direct_messages round2 id;
  own ← present (BTree.get id round2);
  old_share ← enough (BTree.get id old_shares);
  crypto (frost_refresh_part3 (frr2_secret_state own) (broadcasts round1 id) incoming_round2
    expanded_public old_share).

Definition dpss_replace_and_refresh (world : RotationWorld) (old_shares : list (u16 * list byte))
    (removed added : u16) (successor_ids : list u16) (malicious_helper : bool) :
    SR Rng SimError DpssOutput :=
  let helper_ids := take (N.to_nat GUARDIAN_THRESHOLD)
    (filter (λ id, id ≠ removed) (rw_active_ids world)) in
  dealer_deltas ← deal_deltas old_shares helper_ids added helper_ids;
  let dealer_deltas := if malicious_helper then clear_first dealer_deltas else dealer_deltas in
  sigmas ← lift (collect (sigma_of dealer_deltas) helper_ids);
  repaired ← lift (crypto (finalize_new_share sigmas added (rw_public_package world)));
  _ ← lift (enough (BTree.get removed old_shares));
  let old_shares := BTree.insert added repaired (BTree.remove removed old_shares) in
  expanded_public ← lift (crypto (frost_public_add_repaired_share (rw_public_package world)
    repaired));
  round1 ← refresh_round1 successor_ids [];
  round2 ← lift (refresh_round2 round1 successor_ids);
  outputs ← lift (collect (λ id,
    output ← refresh_share round1 round2 expanded_public old_shares id; Ok (id, output))
    successor_ids);
  let public_packages := fro_public_package <$> outputs.*2 in
  let refreshed := BTree.of_list ((λ '(id, output), (id, fro_share output)) <$> outputs) in
  public_package ← lift (enough (head public_packages));
  result_commitment ← lift (crypto (verify_dpss_result (rw_public_package world) public_packages
    refreshed.*2 successor_ids));
  mret {| dpo_shares := refreshed;
          dpo_public_package := public_package;
          dpo_result_commitment := result_commitment |}.

End rotation_sim.

End RotationSim.
