(* ===== verification/RotationSimRun.v ===== *)
(** One rotation of the simulator, the recovery after the last one, and the
    whole run: crates/gp-sim/src/rotation.rs. *)

From stdpp Require Import pretty.
From S2P Require Export RotationSim CoreEpochRecovery.

Record RotationDemoResult : Set := mkRotationDemoResult {
  rdr_seed : u64;
  rdr_success : bool;
  rdr_cancelled_safely : bool;
  rdr_preparation_failed_safely : bool;
  rdr_rotations_requested : N;
  rdr_rotations_completed : N;
  rdr_initial_guardian_epoch : u64;
  rdr_final_guardian_epoch : u64;
  rdr_active_guardians : list u16;
  rdr_retired_guardians : list u16;
  rdr_dek_commitment_before : string;
  rdr_dek_commitment_after : string;
  rdr_dek_preserved : bool;
  rdr_plaintext_decryptions_during_rotation : u64;
  rdr_final_recovery_plaintext_decryptions : u64;
  rdr_early_release_rejected : bool;
  rdr_owner_cancel_enforced : bool;
  rdr_final_recovered_secret : option string;
  rdr_events : list RotationSimEvent;
  rdr_security_notice : string
}.

Module RotationSimRun.
Export RotationSim.

Section run.
Context `{Prims : Primitives} `{Sharing : SharingPrimitives} `{Frost : FrostPrimitives}.
Context `{Protocol : ProtocolPrimitives} `{Json : ClientPrimitives}.

(** ** One rotation *)

(** [machine.apply(event)?], with the actions. *)
Definition apply_event (machine : Rotation.RotationMachine) (event : RotationEvent) :
    Result SimError (list RotationAction * Rotation.RotationMachine) :=
  match Rotation.apply machine event with
  | (Ok actions, machine) => Ok (actions, machine)
  | (Err error, _) => Err (SimRotation error)
  end.

Definition rotation_event (epoch : u64) (phase message : string) : RotationSimEvent :=
  {| rse_guardian_epoch := epoch; rse_phase := phase; rse_message := message |}.

(** The rotation that has been planned: the variables of [rotate_once] that
    its later parts use. *)
Record Planned : Set := mkPlanned {
  pl_context : RotationContext;
  pl_intent_hash : Id32;
  pl_successor_ids : list u16;
  pl_plan : RotationPlan;
  pl_plan_hash : Id32
}.

Fixpoint insert_sorted (id : u16) (ids : list u16) : list u16 :=
  match ids with
  | [] => [id]
  | x :: ids' => if (id <=? x)%mr then id :: ids else x :: insert_sorted id ids'
  end.
(** Without the removed guardian, with the added one pushed and
    [sort_unstable]. *)
Definition successor_ids_of (active_ids : list u16) (removed added : u16) : list u16 :=
  foldr insert_sorted [] (filter (λ id, id ≠ removed) active_ids ++ [added]).

Definition plan_rotation (world : RotationWorld) (options : RotationDemoOptions)
    (removed added : u16) : SR Rng SimError Planned :=
  rotation_id ← random_id;
  recipient_seed ← random_id;
  rotation ← context world rotation_id (rkp_public (RecipientKeyPair_from_seed recipient_seed));
  '(intent_hash, reconstructed_a) ← authorize_intent world rotation removed;
  _ ← lift (fail_if (reconstructed_a !=? rw_authorization_key world)%mr SimRecoveryMismatch);
  let successor_ids := successor_ids_of (rw_active_ids world) removed added in
  epoch_binding ← random_id;
  let current := rw_current_ref world in
  let successor_ref := {|
    cr_config_id := cr_config_id current;
    cr_payload_generation := cr_payload_generation current;
    cr_authorization_epoch := cr_authorization_epoch current;
    cr_guardian_epoch := U64 (cr_guardian_epoch current + 1);
    cr_epoch_binding := epoch_binding
  |} in
  successor_routes ← make_routes successor_ids (cr_guardian_epoch successor_ref);
  old_roster ← lift (wire (guardian_roster_v3 (rw_routes world)));
  new_roster ← lift (wire (guardian_roster_v3 successor_routes));
  dpss_session_id ← random_id;
  let plan := {|
    plan_context := rotation;
    plan_intent_hash := intent_hash;
    plan_predecessor := current;
    plan_successor := successor_ref;
    plan_old_roster := rw_routes world;
    plan_new_roster := successor_routes;
    plan_old_roster_commitment := sha256 old_roster;
    plan_new_roster_commitment := sha256 new_roster;
    plan_old_guardian_threshold := GUARDIAN_THRESHOLD;
    plan_new_guardian_threshold := GUARDIAN_THRESHOLD;
    plan_data_shards := GUARDIAN_THRESHOLD;
    plan_total_shards := GUARDIAN_COUNT;
    plan_dpss_suite := ZfFrostRistretto255RtsRefreshV1;
    plan_dpss_session_id := dpss_session_id;
    plan_dpss_qualified_set_commitment := sha256 (as_bytes "qualified-successor-set");
    plan_minimum_delay_secs := rdo_simulated_delay_secs options;
    plan_preparation_deadline := U64 20000;
    plan_drain_deadline := U64 30000
  |} in
  transcript ← lift (wire (rotation_plan plan));
  mret {| pl_context := rotation;
          pl_intent_hash := intent_hash;
          pl_successor_ids := successor_ids;
          pl_plan := plan;
          pl_plan_hash := sha256 transcript |}.

(** The machine of the plan, begun, and the hash of the certificate. *)
Definition begin_rotation (world : RotationWorld) (options : RotationDemoOptions) (p : Planned) :
    Result SimError (Rotation.RotationMachine * Id32) :=
  let plan := pl_plan p in
  machine ← rotating (Rotation.new (ctx_rotation_id (pl_context p)) (pl_plan_hash p)
    (rw_current_ref world) (plan_successor plan));
  votes ← sign_begin_votes world (pl_context p) (pl_intent_hash p) (pl_plan_hash p)
    (plan_old_roster_commitment plan) (plan_new_roster_commitment plan);
  certificate ← wire (begin_rotation_certificate {|
    brot_context := pl_context p;
    brot_intent_hash := pl_intent_hash p;
    brot_plan_hash := pl_plan_hash p;
    brot_old_roster_commitment := plan_old_roster_commitment plan;
    brot_new_roster_commitment := plan_new_roster_commitment plan;
    brot_not_before_wall := U64 (100 + rdo_simulated_delay_secs options);
    brot_votes := votes
  |});
  '(_, machine) ← apply_event machine
    (EvBeginAccepted (U64 100) (rdo_simulated_delay_secs options) true);
  Ok (machine, sha256 certificate).

Definition release_rotation (world : RotationWorld) (options : RotationDemoOptions) (p : Planned)
    (machine : Rotation.RotationMachine) (begin_hash : Id32) :
    Result SimError Rotation.RotationMachine :=
  votes ← sign_release_votes world (pl_context p) (pl_plan_hash p) begin_hash;
  _ ← wire (rotation_release_certificate {|
    rrc_context := pl_context p;
    rrc_plan_hash := pl_plan_hash p;
    rrc_begin_certificate_hash := begin_hash;
    rrc_votes := votes
  |});
  '(_, machine) ← apply_event machine
    (EvReleaseAccepted (U64 (100 + rdo_simulated_delay_secs options)) true true);
  Ok machine.

(** The shares of the old epoch and its fragments, cut anew. *)
Definition repair_fragments (world : RotationWorld) (p : Planned) :
    Result SimError (OldMaterial * list (list byte) * Id32) :=
  old ← decrypt_old_material world;
  _ ← fail_if (len (om_fragments old) <? uval GUARDIAN_THRESHOLD)%mr SimPanic;
  fragments ← crypto (rotate_ciphertext_fragments
    (take (N.to_nat GUARDIAN_THRESHOLD) (om_fragments old)) GUARDIAN_THRESHOLD GUARDIAN_COUNT
    (rw_ciphertext_len world) GUARDIAN_THRESHOLD GUARDIAN_COUNT);
  let successor := plan_successor (pl_plan p) in
  commitment ← crypto (commit_ciphertext_fragments (cr_config_id successor)
    (cr_payload_generation successor) fragments);
  _ ← fail_if (cfcm_root commitment !=? cap3_ciphertext_fragment_root (rw_current_capsule world))%mr
    SimRecoveryMismatch;
  Ok (old, fragments, cfcm_root commitment).

(** *** Preparation *)

(** [verify] under the key of the route with this index. *)
Definition verify_route (routes : list GuardianRouteV3) (id : u16)
    (transcript signature : list byte) : Result SimError () :=
  route ← enough (snd <$> list_find (λ route, gr3_guardian_index route = id) routes);
  crypto (verify (gr3_guardian_public_key route) transcript signature).

Definition store_transaction {T} (stores : gmap u16 Epochs.GuardianEpochStore) (id : u16)
    (mutate : Epochs.GuardianEpochStore → Result StorageError T * Epochs.GuardianEpochStore) :
    Result SimError (T * gmap u16 Epochs.GuardianEpochStore) :=
  store ← enough (stores !! id);
  let '(result, store) := Epochs.transaction store false mutate in
  result ← storage result;
  Ok (result, <[id := store]> stores).

Definition journal_of (p : Planned) (dpss : DpssOutput) : Epochs.DpssSessionJournal := {|
  Epochs.dj_rotation_id := ctx_rotation_id (pl_context p);
  Epochs.dj_plan_hash := pl_plan_hash p;
  Epochs.dj_session_id := plan_dpss_session_id (pl_plan p);
  Epochs.dj_qualified_set_digest := plan_dpss_qualified_set_commitment (pl_plan p);
  Epochs.dj_phase := U16 6;
  Epochs.dj_next_sequence := U64 1;
  Epochs.dj_provider_public_journal := bytes_of (dpo_result_commitment dpss);
  Epochs.dj_encrypted_provider_secret_journal :=
    {| aead_nonce := brep 24 x00; aead_ciphertext := replicate 48 x00 |}
|}.

Definition prepared_ack (p : Planned) (dpss : DpssOutput) (built : BuiltRecords) (id : u16)
    (leaf : PreparedRecordLeaf) (generation : u64) (signature : list byte) :
    NewGuardianPreparedAck := {|
  ngpa_context := pl_context p;
  ngpa_plan_hash := pl_plan_hash p;
  ngpa_dpss_result_commitment := dpo_result_commitment dpss;
  ngpa_guardian_material_root := br_material_root built;
  ngpa_new_guardian_index := id;
  ngpa_prepared_record_leaf := leaf;
  ngpa_durable_write_generation := generation;
  ngpa_guardian_signature := signature
|}.

(** One successor stages its record and acknowledges it; a new guardian gets
    its store first. *)
Definition prepare_guardian (world : RotationWorld) (p : Planned) (dpss : DpssOutput)
    (built : BuiltRecords) (id : u16) (records : list (u16 * GuardianRecordV3))
    (stores : gmap u16 Epochs.GuardianEpochStore) :
    Result SimError (NewGuardianPreparedAck * list (u16 * GuardianRecordV3)
      * gmap u16 Epochs.GuardianEpochStore) :=
  let stores :=
    match stores !! id with
    | Some _ => stores
    | None => <[id := Epochs.new_candidate (rw_current_ref world)
                 (rw_current_capsule_hash world)]> stores
    end in
  record ← enough (BTree.get id records);
  let records := BTree.remove id records in
  '(generation, stores) ← store_transaction stores id (λ store,
    Epochs.prepare_successor hex_encode store (ctx_rotation_id (pl_context p)) (pl_plan_hash p)
      record (journal_of p dpss));
  leaf ← present (BTree.get id (br_leaves built));
  let ack := prepared_ack p dpss built id leaf generation in
  transcript ← wire (new_guardian_prepared_ack (ack []));
  let signature := sign (signing_key (guardian_seed id)) transcript in
  _ ← verify_route (plan_new_roster (pl_plan p)) id transcript signature;
  Ok (ack signature, records, stores).

Fixpoint prepare_guardians (world : RotationWorld) (p : Planned) (dpss : DpssOutput)
    (built : BuiltRecords) (ids : list u16) (records : list (u16 * GuardianRecordV3))
    (stores : gmap u16 Epochs.GuardianEpochStore) :
    Result SimError (list NewGuardianPreparedAck * list (u16 * GuardianRecordV3)
      * gmap u16 Epochs.GuardianEpochStore) :=
  match ids with
  | [] => Ok ([], records, stores)
  | id :: ids =>
      '(ack, records, stores) ← prepare_guardian world p dpss built id records stores;
      '(acks, records, stores) ← prepare_guardians world p dpss built ids records stores;
      Ok (ack :: acks, records, stores)
  end.

Definition handoff_ack (p : Planned) (dpss : DpssOutput) (id : u16) (signature : list byte) :
    OldGuardianHandoffAck := {|
  ogha_context := pl_context p;
  ogha_plan_hash := pl_plan_hash p;
  ogha_dpss_result_commitment := dpo_result_commitment dpss;
  ogha_qualified_set_commitment := plan_dpss_qualified_set_commitment (pl_plan p);
  ogha_old_guardian_index := id;
  ogha_guardian_signature := signature
|}.
Definition hand_off (world : RotationWorld) (p : Planned) (dpss : DpssOutput) (id : u16) :
    Result SimError OldGuardianHandoffAck :=
  transcript ← wire (old_guardian_handoff_ack (handoff_ack p dpss id []));
  let signature := sign (signing_key (guardian_seed id)) transcript in
  _ ← verify_route (rw_routes world) id transcript signature;
  Ok (handoff_ack p dpss id signature).

(** *** Activation *)

(** The capsule with the evidence of its activation. *)
Definition with_evidence (capsule : ConfigCapsuleV3) (certificate : RotationActivateCertificate)
    (qc : EpochActivationQc) : ConfigCapsuleV3 := {|
  cap3_protocol_version := cap3_protocol_version capsule;
  cap3_config_ref := cap3_config_ref capsule;
  cap3_capsule_hash := cap3_capsule_hash capsule;
  cap3_predecessor_capsule_hash := cap3_predecessor_capsule_hash capsule;
  cap3_signer_count := cap3_signer_count capsule;
  cap3_signer_threshold := cap3_signer_threshold capsule;
  cap3_guardian_count := cap3_guardian_count capsule;
  cap3_guardian_threshold := cap3_guardian_threshold capsule;
  cap3_minimum_recovery_delay := cap3_minimum_recovery_delay capsule;
  cap3_max_request_lifetime := cap3_max_request_lifetime capsule;
  cap3_signer_set_commitment := cap3_signer_set_commitment capsule;
  cap3_owner_cancel_public_key := cap3_owner_cancel_public_key capsule;
  cap3_dpss_suite := cap3_dpss_suite capsule;
  cap3_dpss_public_commitment := cap3_dpss_public_commitment capsule;
  cap3_ciphertext_fragment_root := cap3_ciphertext_fragment_root capsule;
  cap3_guardian_material_root := cap3_guardian_material_root capsule;
  cap3_encrypted_recovery_descriptor := cap3_encrypted_recovery_descriptor capsule;
  cap3_activation_certificate := Some certificate;
  cap3_activation_qc := Some qc
|}.

(** The signers' certificate and its hash. *)
Definition authorize_activation (world : RotationWorld) (p : Planned) (dpss : DpssOutput)
    (built : BuiltRecords) (capsule : ConfigCapsuleV3) (prepared : list NewGuardianPreparedAck)
    (handoffs : list OldGuardianHandoffAck) :
    Result SimError (RotationActivateCertificate * Id32) :=
  ready ← wire (rotation_ready_certificate {|
    ready_context := pl_context p;
    ready_plan_hash := pl_plan_hash p;
    ready_successor := plan_successor (pl_plan p);
    ready_dpss_result_commitment := dpo_result_commitment dpss;
    ready_guardian_material_root := br_material_root built;
    ready_encrypted_descriptor_hash := hash_aead (cap3_encrypted_recovery_descriptor capsule);
    ready_prepared_acks := prepared;
    ready_old_handoff_acks := handoffs
  |});
  let ready_hash := sha256 ready in
  votes ← sign_votes (activate_vote (pl_context p) (pl_plan_hash p) ready_hash
    (cap3_capsule_hash capsule)) signer_rotation_activate_vote world;
  let certificate := {|
    rac_context := pl_context p;
    rac_plan_hash := pl_plan_hash p;
    rac_ready_certificate_hash := ready_hash;
    rac_successor := plan_successor (pl_plan p);
    rac_successor_capsule_hash := cap3_capsule_hash capsule;
    rac_votes := votes
  |} in
  transcript ← wire (rotation_activate_certificate certificate);
  Ok (certificate, sha256 transcript).

Definition activation_ack (world : RotationWorld) (p : Planned) (capsule : ConfigCapsuleV3)
    (activation_hash : Id32) (witness_id : u16) (public : barr 32) (signature : list byte) :
    WitnessActivationAck := {|
  waa_context := pl_context p;
  waa_plan_hash := pl_plan_hash p;
  waa_activation_certificate_hash := activation_hash;
  waa_witness_id := witness_id;
  waa_predecessor_epoch := cr_guardian_epoch (rw_current_ref world);
  waa_predecessor_capsule_hash := rw_current_capsule_hash world;
  waa_successor_epoch := cr_guardian_epoch (plan_successor (pl_plan p));
  waa_successor_capsule_hash := cap3_capsule_hash capsule;
  waa_witness_public_key := public;
  waa_witness_signature := signature
|}.

(** One witness takes the successor and acknowledges it. *)
Definition witness_accepts (world : RotationWorld) (p : Planned) (capsule : ConfigCapsuleV3)
    (activation_hash : Id32) (entry : nat * Witness.EpochWitnessMachine) :
    Result SimError (WitnessActivationAck * Witness.EpochWitnessMachine) :=
  let '(offset, witness) := entry in
  let '(accepted, witness) := Witness.accept_successor witness (rw_current_ref world)
    (rw_current_capsule_hash world) (plan_successor (pl_plan p)) (cap3_capsule_hash capsule)
    true in
  _ ← rotating accepted;
  witness_id ← present (try_u16 (N.of_nat offset + 1));
  seed ← present (rw_witness_seeds world !! offset);
  let public := verifying_key_bytes (signing_key seed) in
  let ack := activation_ack world p capsule activation_hash witness_id public in
  transcript ← wire (witness_activation_ack (ack []));
  signature ← sign_and_verify seed public transcript;
  Ok (ack signature, witness).

Definition quorum_of (world : RotationWorld) (p : Planned) (capsule : ConfigCapsuleV3)
    (activation_hash : Id32) (acks : list WitnessActivationAck) : EpochActivationQc := {|
  qc_protocol_version := PROTOCOL_VERSION_V3;
  qc_config_id := cr_config_id (rw_current_ref world);
  qc_rotation_id := ctx_rotation_id (pl_context p);
  qc_predecessor_epoch := cr_guardian_epoch (rw_current_ref world);
  qc_predecessor_capsule_hash := rw_current_capsule_hash world;
  qc_successor_epoch := cr_guardian_epoch (plan_successor (pl_plan p));
  qc_successor_capsule_hash := cap3_capsule_hash capsule;
  qc_activation_certificate_hash := activation_hash;
  qc_witness_fault_bound := WITNESS_FAULT_BOUND;
  qc_witness_acks := take (N.to_nat (WITNESS_FAULT_BOUND * 2 + 1)) acks
|}.

(** [mutate] on the stores of [ids] in turn. *)
Fixpoint store_transactions {T} (ids : list u16)
    (mutate : Epochs.GuardianEpochStore → Result StorageError T * Epochs.GuardianEpochStore)
    (stores : gmap u16 Epochs.GuardianEpochStore) :
    Result SimError (gmap u16 Epochs.GuardianEpochStore) :=
  match ids with
  | [] => Ok stores
  | id :: ids =>
      '(_, stores) ← store_transaction stores id mutate;
      store_transactions ids mutate stores
  end.

(** The successors activate their records, the removed guardian observes it,
    the old records drain and retire. *)
Definition switch_stores (world : RotationWorld) (p : Planned) (removed : u16)
    (qc : EpochActivationQc) (qc_hash : Id32) (drain_deadline : u64)
    (machine : Rotation.RotationMachine) (stores : gmap u16 Epochs.GuardianEpochStore) :
    Result SimError (gmap u16 Epochs.GuardianEpochStore * Rotation.RotationMachine) :=
  let rotation_id := ctx_rotation_id (pl_context p) in
  stores ← store_transactions (pl_successor_ids p) (λ store,
    Epochs.activate_successor hex_encode store rotation_id (pl_plan_hash p) qc qc_hash
      drain_deadline ∅) stores;
  '(_, stores) ← store_transaction stores removed (λ store,
    Epochs.observe_replacement_activation hex_encode store rotation_id (pl_plan_hash p) qc qc_hash
      drain_deadline ∅);
  '(_, machine) ← apply_event machine EvDrainStarted;
  stores ← store_transactions (rw_active_ids world) (λ store,
    Epochs.retire_epoch store (cr_guardian_epoch (rw_current_ref world)) drain_deadline) stores;
  '(_, machine) ← apply_event machine (EvDrainDeadlineReached drain_deadline);
  Ok (stores, machine).

(** The world after the rotation. *)
Definition rotated_world (world : RotationWorld) (p : Planned) (dpss : DpssOutput)
    (capsule : ConfigCapsuleV3) (witnesses : list Witness.EpochWitnessMachine)
    (stores : gmap u16 Epochs.GuardianEpochStore) : RotationWorld := {|
  rw_authorization_key := rw_authorization_key world;
  rw_signers := rw_signers world;
  rw_witness_seeds := rw_witness_seeds world;
  rw_witnesses := witnesses;
  rw_stores := stores;
  rw_routes := plan_new_roster (pl_plan p);
  rw_current_ref := plan_successor (pl_plan p);
  rw_current_capsule_hash := cap3_capsule_hash capsule;
  rw_current_capsule := capsule;
  rw_public_package := dpo_public_package dpss;
  rw_active_ids := pl_successor_ids p;
  rw_payload_ciphertext := rw_payload_ciphertext world;
  rw_ciphertext_len := rw_ciphertext_len world;
  rw_dek_commitment := rw_dek_commitment world;
  rw_plaintext_decryptions_during_rotation := rw_plaintext_decryptions_during_rotation world;
  rw_final_recovery_plaintext_decryptions := rw_final_recovery_plaintext_decryptions world
|}.

(** From the prepared records to the end of the drain. *)
Definition activate_rotation (world : RotationWorld) (ordinal : N) (removed : u16) (p : Planned)
    (machine : Rotation.RotationMachine) (dpss : DpssOutput) (built : BuiltRecords)
    (capsule : ConfigCapsuleV3) : Result SimError RotationWorld :=
  '(prepared, records, stores) ← prepare_guardians world p dpss built (pl_successor_ids p)
    (br_records built) (rw_stores world);
  _ ← fail_if (negb (bool_decide (records = [])) || (len prepared !=? uval GUARDIAN_COUNT)%mr)
    SimThreshold;
  '(_, machine) ← apply_event machine
    (EvPreparationComplete GUARDIAN_COUNT GUARDIAN_COUNT true true);
  handoffs ← collect (hand_off world p dpss) (rw_active_ids world);
  '(certificate, activation_hash) ← authorize_activation world p dpss built capsule prepared
    handoffs;
  '(_, machine) ← apply_event machine (EvActivationAuthorized true true);
  accepted ← collect (witness_accepts world p capsule activation_hash)
    (imap pair (rw_witnesses world));
  let qc := quorum_of world p capsule activation_hash accepted.*1 in
  qc_transcript ← wire (epoch_activation_qc qc);
  let drain_deadline := U64 (40000 + ordinal) in
  '(_, machine) ← apply_event machine (EvWitnessQcObserved true true drain_deadline);
  let capsule := with_evidence capsule certificate qc in
  body ← wire (config_capsule_body_v3 capsule);
  _ ← fail_if (cap3_capsule_hash capsule !=? sha256 body)%mr SimInvalidCertificate;
  '(stores, _) ← switch_stores world p removed qc (sha256 qc_transcript) drain_deadline machine
    stores;
  Ok (rotated_world world p dpss capsule accepted.*2 stores).

(** *** The whole *)

(** How a rotation ended, [(true, false)], [(false, true)] or [(false, false)],
    and the world it left. *)
Inductive Rotated : Type :=
| RotationCancelled (world : RotationWorld)
| RotationFailed (world : RotationWorld)
| RotationDone (world : RotationWorld).

Definition intent_message (removed added : u16) : string :=
  pretty (uval SIGNER_THRESHOLD) +:+ " of " +:+ pretty (uval SIGNER_COUNT)
  +:+ " signers opened the private predecessor descriptor for G" +:+ pretty (uval removed)
  +:+ " -> G" +:+ pretty (uval added) +:+ "; coordinator obtained A but no DEK share.".
Definition done_message (removed added : u16) : string :=
  "G" +:+ pretty (uval removed) +:+ " retired; G" +:+ pretty (uval added)
  +:+ " active after 8/8 durable records and a 3-of-4 witness QC.".

(** [match dpss { Ok(output) => .., Err(_) if malicious => .., Err(e) => .. }]:
    the failure of a malicious helper is an outcome, not an error. *)
Definition caught {A} (m : SR Rng SimError A) (malicious : bool) :
    SR Rng SimError (option A) := λ rng,
  match m rng with
  | (Ok a, rng) => (Ok (Some a), rng)
  | (Err e, rng) => (if malicious then Ok None else Err e, rng)
  end.

Definition rotate_once (world : RotationWorld) (options : RotationDemoOptions) (ordinal : N)
    (removed added : u16) : SR Rng SimError (Rotated * list RotationSimEvent) :=
  p ← plan_rotation world options removed added;
  let epoch := cr_guardian_epoch (rw_current_ref world) in
  let intent := rotation_event epoch "INTENT" (intent_message removed added) in
  '(machine, begin_hash) ← lift (begin_rotation world options p);
  if bool_decide (rdo_cancel_rotation_at options = Some ordinal) then
    '(actions, _) ← lift (apply_event machine (EvOwnerCancelObserved true));
    _ ← lift (fail_if (bool_decide (actions ≠ [AbortAndErasePreparedState]))
      SimInvalidCertificate);
    mret (RotationCancelled world, [intent; rotation_event epoch "ABORTED"
      "Owner hard-cancel tombstone persisted; predecessor remains ACTIVE."])
  else
  machine ← lift (release_rotation world options p machine begin_hash);
  let release := rotation_event epoch "RELEASE" ("Begin -> "
    +:+ pretty (uval (rdo_simulated_delay_secs options))
    +:+ "s delay -> Release completed; old epoch remains ACTIVE.") in
  '(old, fragments, fragment_root) ← lift (repair_fragments world p);
  dpss ← caught (dpss_replace_and_refresh world (om_shares old) removed added (pl_successor_ids p)
      (bool_decide (rdo_fail_preparation_at options = Some ordinal)))
    (bool_decide (rdo_fail_preparation_at options = Some ordinal));
  match dpss with
  | None =>
      _ ← lift (apply_event machine (EvAbortObserved true));
      mret (RotationFailed world, [intent; release; rotation_event epoch "ABORTED"
        "Invalid FROST provider message rejected; no successor record activated."])
  | Some dpss =>
      let successor := plan_successor (pl_plan p) in
      let routes := plan_new_roster (pl_plan p) in
      built ← build_records (rw_authorization_key world) successor (rw_current_capsule_hash world)
        routes (dpo_shares dpss) fragments (dpo_public_package dpss);
      capsule ← build_capsule (rw_authorization_key world) successor
        (rw_current_capsule_hash world) routes fragment_root (br_material_root built)
        (rw_ciphertext_len world) (aead_nonce (rw_payload_ciphertext world))
        (dpo_public_package dpss);
      world ← lift (activate_rotation world ordinal removed p machine dpss built capsule);
      mret (RotationDone world, [intent; release; rotation_event
        (cr_guardian_epoch successor) "ACTIVE" (done_message removed added)])
  end.

(** ** The recovery at the end *)

Definition recovery_request_at (world : RotationWorld) (requested_at expiry : u64) :
    SR Rng SimError RecoveryRequestV3 :=
  request_id ← random_id;
  seed ← random_id;
  nonce ← random_id;
  mret {| rr3_protocol_version := PROTOCOL_VERSION_V3;
          rr3_config_ref := rw_current_ref world;
          rr3_request_id := request_id;
          rr3_recovery_recipient_key := rkp_public (RecipientKeyPair_from_seed seed);
          rr3_requested_at := requested_at;
          rr3_nonce := nonce;
          rr3_expiry := expiry |}.

Definition release_at (world : RotationWorld) (request : RecoveryRequestV3) (digest : Id32)
    (wall_now monotonic_now : u64) : EpochRecovery.EpochReleaseAuthorization := {|
  EpochRecovery.era_request_id := rr3_request_id request;
  EpochRecovery.era_request_digest := digest;
  EpochRecovery.era_config_ref := rw_current_ref world;
  EpochRecovery.era_wall_now := wall_now;
  EpochRecovery.era_monotonic_now := monotonic_now;
  EpochRecovery.era_certificate_valid := true;
  EpochRecovery.era_state_unambiguous := true
|}.

(** A call of the recovery machine that must succeed. *)
Definition step {T} (call : Result RotationError T * EpochRecovery.EpochRecoveryMachine) :
    Result SimError (T * EpochRecovery.EpochRecoveryMachine) :=
  let '(result, machine) := call in
  result ← rotating result; Ok (result, machine).

(** A request that the owner cancels: is its release refused? *)
Definition check_cancel (world : RotationWorld) (delay : u64) (request : RecoveryRequestV3) :
    Result SimError (bool * EpochRecovery.EpochRecoveryMachine) :=
  transcript ← wire (recovery_request_v3 request);
  let digest := sha256 transcript in
  '(_, recovery) ← step (EpochRecovery.begin (EpochRecovery.new (rw_current_ref world)) request
    digest (U64 100) (U64 100) delay true);
  '(_, recovery) ← step (EpochRecovery.cancel recovery (rr3_request_id request) digest true);
  let '(refused, recovery) := EpochRecovery.authorize_release recovery
    (release_at world request digest (U64 200) (U64 200)) in
  Ok (negb (is_ok refused), recovery).

(** A second request: is its release refused before its time?  Then it is
    released. *)
Definition check_delay (world : RotationWorld) (delay : u64) (request : RecoveryRequestV3)
    (recovery : EpochRecovery.EpochRecoveryMachine) : Result SimError bool :=
  transcript ← wire (recovery_request_v3 request);
  let digest := sha256 transcript in
  '(not_before, recovery) ← step (EpochRecovery.begin recovery request digest (U64 300)
    (U64 300) delay true);
  let '(early, recovery) := EpochRecovery.authorize_release recovery
    (release_at world request digest (U64 301) (U64 (uval not_before - 1))) in
  _ ← step (EpochRecovery.authorize_release recovery
    (release_at world request digest (U64 400) not_before));
  Ok (negb (is_ok early)).

(** The share and the fragment of one active guardian. *)
Definition recovery_material (world : RotationWorld) (id : u16) :
    Result SimError (list byte * (u16 * list byte)) :=
  record ← enough (rw_stores world !! id ≫= Epochs.ges_active);
  let config_ref := rw_current_ref world in
  key ← crypto (guardian_share_key_v3 (rw_authorization_key world) config_ref id);
  share_context ← wire (guardian_share_context_v3 config_ref id);
  share ← crypto (aead_decrypt key (grec3_encrypted_dek_share record) share_context);
  key ← crypto (guardian_fragment_key_v3 (rw_authorization_key world) config_ref id);
  fragment_context ← wire (guardian_fragment_context_v3 config_ref id
    (grec3_fragment_index record));
  fragment ← crypto (aead_decrypt key (grec3_encrypted_ciphertext_fragment record)
    fragment_context);
  Ok (share, (grec3_fragment_index record, fragment)).

(** [String::from_utf8]: a text is what its bytes are read as when nothing in
    them has to be replaced. *)
Definition from_utf8 (bytes : list byte) : option string :=
  if bool_decide (from_utf8_lossy bytes = text bytes) then Some (text bytes) else None.

(** The secret and the digest of the key it was under. *)
Definition recover_payload (world : RotationWorld) : Result SimError (string * Id32) :=
  material ← collect (recovery_material world)
    (take (N.to_nat GUARDIAN_THRESHOLD) (rw_active_ids world));
  let config_ref := rw_current_ref world in
  dek ← crypto (frost_recover_dek_for_epoch
    ((λ share, {| efs_config_ref := config_ref; efs_encoded_share := share |}) <$> material.*1)
    config_ref GUARDIAN_THRESHOLD);
  ciphertext ← crypto (erasure_reconstruct material.*2 GUARDIAN_THRESHOLD GUARDIAN_COUNT
    (rw_ciphertext_len world));
  _ ← fail_if (bool_decide (ciphertext ≠ aead_ciphertext (rw_payload_ciphertext world)))
    SimRecoveryMismatch;
  key ← array32 dek;
  context ← wire (payload_context_v3 (cr_config_id config_ref) (cr_payload_generation config_ref));
  payload ← crypto (aead_decrypt key (rw_payload_ciphertext world) context);
  recovered ← ok_or (from_utf8 payload) SimRecoveryMismatch;
  Ok (recovered, sha256 dek).

Definition final_recovery (world : RotationWorld) (options : RotationDemoOptions) :
    SR Rng SimError (string * bool * bool * Id32) :=
  let delay := rdo_simulated_delay_secs options in
  cancelled_request ← recovery_request_at world (U64 100) (U64 1000);
  '(owner_cancel_enforced, recovery) ← lift (check_cancel world delay cancelled_request);
  request ← recovery_request_at world (U64 300) (U64 2000);
  early_release_rejected ← lift (check_delay world delay request recovery);
  '(recovered, dek_commitment) ← lift (recover_payload world);
  mret (recovered, early_release_rejected, owner_cancel_enforced, dek_commitment).

(** ** The run *)

(** What the loop over the replacements has. *)
Record Progress : Type := mkProgress {
  pr_world : RotationWorld;
  pr_completed : N;
  pr_retired : list u16;
  pr_cancelled : bool;
  pr_failed : bool;
  pr_events : list RotationSimEvent
}.

(** What a cancelled or failed rotation must have left. *)
Definition predecessor_moved (before after : RotationWorld) : bool :=
  bool_decide (rw_current_ref after ≠ rw_current_ref before)
  || bool_decide (rw_current_capsule_hash after ≠ rw_current_capsule_hash before).

Fixpoint rotate_all (options : RotationDemoOptions) (ordinal : N)
    (replacements : list (u16 * u16)) (progress : Progress) : SR Rng SimError Progress :=
  match replacements with
  | [] => mret progress
  | (removed, added) :: replacements =>
      '(outcome, events) ← rotate_once (pr_world progress) options ordinal removed added;
      let events := pr_events progress ++ events in
      let stopped world cancelled failed :=
        _ ← lift (fail_if (predecessor_moved (pr_world progress) world) SimRecoveryMismatch);
        mret {|
          pr_world := world; pr_completed := pr_completed progress;
          pr_retired := pr_retired progress;
          pr_cancelled := pr_cancelled progress || cancelled;
          pr_failed := pr_failed progress || failed; pr_events := events |} in
      match outcome with
      | RotationCancelled world => stopped world true false
      | RotationFailed world => stopped world false true
      | RotationDone world =>
          rotate_all options (ordinal + 1) replacements {|
            pr_world := world;
            pr_completed := pr_completed progress + 1;
            pr_retired := pr_retired progress ++ [removed];
            pr_cancelled := pr_cancelled progress;
            pr_failed := pr_failed progress;
            pr_events := events |}
      end
  end.

Definition rotation_notice : string :=
  "ZF FROST Ristretto255 RTS + full successor refresh is classical; its refresh integration requires an external audit. Rotation assumes secure erasure and no complete threshold compromise within any epoch.".

Definition rotation_body (options : RotationDemoOptions) : SR Rng SimError RotationDemoResult :=
  world ← setup_world options;
  let initial_epoch := cr_guardian_epoch (rw_current_ref world) in
  progress ← rotate_all options 0 (rdo_replacements options) {|
    pr_world := world; pr_completed := 0; pr_retired := []; pr_cancelled := false;
    pr_failed := false;
    pr_events := [rotation_event initial_epoch "SETUP"
      "Protocol-v3 5-of-8 FROST sharing and encrypted fragment epoch is ACTIVE."] |};
  let world' := pr_world progress in
  '(recovered, early_release_rejected, owner_cancel_enforced, final_dek_commitment) ←
    final_recovery world' options;
  let dek_preserved := (rw_dek_commitment world ==? final_dek_commitment)%mr in
  let decryptions := rw_plaintext_decryptions_during_rotation world' in
  mret {|
    rdr_seed := rdo_seed options;
    rdr_success := bool_decide (recovered = rdo_secret options) && dek_preserved
      && (uval decryptions =? 0)%N && early_release_rejected && owner_cancel_enforced;
    rdr_cancelled_safely := pr_cancelled progress;
    rdr_preparation_failed_safely := pr_failed progress;
    rdr_rotations_requested := len (rdo_replacements options);
    rdr_rotations_completed := pr_completed progress;
    rdr_initial_guardian_epoch := initial_epoch;
    rdr_final_guardian_epoch := cr_guardian_epoch (rw_current_ref world');
    rdr_active_guardians := rw_active_ids world';
    rdr_retired_guardians := pr_retired progress;
    rdr_dek_commitment_before := hex_encode (rw_dek_commitment world);
    rdr_dek_commitment_after := hex_encode final_dek_commitment;
    rdr_dek_preserved := dek_preserved;
    rdr_plaintext_decryptions_during_rotation := decryptions;
    rdr_final_recovery_plaintext_decryptions :=
      U64 (rw_final_recovery_plaintext_decryptions world' + 1);
    rdr_early_release_rejected := early_release_rejected;
    rdr_owner_cancel_enforced := owner_cancel_enforced;
    rdr_final_recovered_secret := Some recovered;
    rdr_events := pr_events progress;
    rdr_security_notice := rotation_notice
  |}.

Definition run_rotation_demo `{!SimPrimitives} (options : RotationDemoOptions) :
    Result SimError RotationDemoResult :=
  _ ← validate options;
  (rotation_body options (chacha_from_u64 (rdo_seed options))).1.

End run.

End RotationSimRun.
