(* ===== verification/SimulatorScenario.v ===== *)
(** Runs of the two simulators on toy libraries.  Nothing here models code.

    Module [SimulatorScenario]: a run of the recovery simulator on those of
    [SharingScenario]: three signers of which two are needed, the first
    offline; three guardians of which one is needed, the first offline and the
    second corrupt.  The generator counts, and the JSON of the descriptor and
    of a contribution is known for those of the run.

    Module [RotationSimScenario]: runs of the rotation simulator: a dealer
    that gives every participant the same key byte, shares that are counted up
    by a refresh, and an erasure code of five data shards whose parity is left
    zero. *)

From S2P Require Export SimulatorRun RecoveryScenario RotationSimRun ClientScenario.

Module SimulatorScenario.
Export RecoveryScenario SimulatorRun.

Definition demo_options (cancel : bool) : DemoOptions := {|
  do_seed := U64 7;
  do_mode := MetadataStrong;
  do_secret := "correct horse";
  do_offline_signer := Some (U16 1);
  do_offline_guardian := Some (U16 1);
  do_corrupt_guardian := Some (U16 2);
  do_cancel_before_release := cancel;
  do_simulated_delay_secs := U64 5;
  do_signer_count := U16 3;
  do_signer_threshold := U16 2;
  do_guardian_count := U16 3;
  do_guardian_threshold := U16 1;
  do_network_latency_ms := U64 120;
  do_packet_loss_percent := U8 10;
  do_packet_duplication_percent := U8 20;
  do_mix_drop_percent := U8 5;
  do_cover_rate := U16 1
|}.

#[export] Instance counting : TransportRng := {|
  StdRng := N;
  seed_from_u64 := uval;
  random_percent := λ n, (U8 (n * 37 `mod` 100), (n + 1)%N);
  random_range := λ low high n, (U64 (low + n `mod` (high - low + 1)), (n + 1)%N);
  random_u16 := λ n, (U16 n, (n + 1)%N)
|}.

(** The JSON of the descriptor [d], whatever is encoded. *)
Definition demo_protocol (d : option RecoveryDescriptor) : ProtocolPrimitives := {|
  Rng := N;
  rng_fill := λ n counter, (draw n counter, (counter + 1)%N);
  descriptor_to_vec := λ _, Some [x00];
  descriptor_from_slice := λ _, d;
  hex_encode := hex
|}.
(** The JSON of a contribution is the index of its guardian. *)
Definition demo_simulation (d : option RecoveryDescriptor) (l : list GuardianContribution) :
    SimPrimitives (Protocol := demo_protocol d) :=
  @Build_SimPrimitives (demo_protocol d) uval
    (λ c, Some [byte_of_N (uval (gc_guardian_index c))])
    (λ bytes, match bytes with
              | [b] => list_find (λ c, uval (gc_guardian_index c) = Byte.to_N b) l ≫= λ p, Some p.2
              | _ => None
              end).

Definition demo_world : option DemoWorld :=
  match setup_world (Protocol := demo_protocol None) secret (policy_of (demo_options false)) (U64 7)
          None 7%N with
  | (Ok world, _) => Some world
  | (Err _, _) => None
  end.
Definition demo_route (guardian : Records.GuardianState) : list GuardianRoute :=
  (λ record, {|
     gr_mailbox := Records.gs_mailbox guardian;
     gr_opaque_slot_id := grec_opaque_slot_id record;
     gr_guardian_index := Records.gs_guardian_id guardian;
     gr_guardian_public_key := verifying_key_bytes (signing_key (Records.gs_signing_seed guardian))
   |}) <$> (map_to_list (Records.gs_records guardian)).*2.

(** The descriptor of the run; the payload's nonce is its ninth draw. *)
Definition demo_descriptor : option RecoveryDescriptor := Eval vm_compute in
  world ← demo_world;
  Some {|
    rd_guardians := dw_guardians world ≫= demo_route;
    rd_guardian_material_root :=
      match Records.get_capsule (dw_config_store world) (card_config_id (dw_card world)) with
      | Ok capsule => cap_guardian_material_commitment capsule
      | Err _ => id 0
      end;
    rd_data_shards := U16 1;
    rd_total_shards := U16 3;
    rd_ciphertext_len := U64 (32 + len secret);
    rd_payload_nonce := draw 24 15
  |}.
#[export] Instance demo_json : ProtocolPrimitives := demo_protocol demo_descriptor.

(** The contributions of the second and third guardian, signed as asked. *)
Definition demo_contributions : list GuardianContribution := Eval vm_compute in
  match begin_demo (demo_options false) 7%N with
  | (Ok b, _) =>
      omap (λ route,
        guardian ← dw_guardians (bg_world b) !! N.to_nat (wrapping_pred (gr_guardian_index route));
        record ← (map_to_list (Records.gs_records guardian)).*2 !! 0;
        let c := unsigned_contribution (demo_options false) (bg_request b) (bg_digest b) route
          record in
        match guardian_contribution c with
        | Ok t => Some (with_guardian_signature c
            (sign (signing_key (Records.gs_signing_seed guardian)) t))
        | Err _ => None
        end) (rd_guardians (bg_descriptor b))
  | (Err _, _) => []
  end.
#[export] Instance simulation_json : SimPrimitives := demo_simulation demo_descriptor demo_contributions.

(** ** Of the begun recovery *)

Definition demo_begun {A} (f : Begun → A) : option A :=
  match begin_demo (demo_options false) 7%N with
  | (Ok b, _) => Some (f b)
  | (Err _, _) => None
  end.

Definition demo_capsule : ConfigCapsule := Eval vm_compute in
  default RecoveryScenario.capsule (demo_begun bg_capsule).
Definition demo_card : RecoveryCard := Eval vm_compute in
  default (sb_card bundle) (demo_begun (λ b, dw_card (bg_world b))).
Definition demo_policy : option GuardianPolicy := Eval vm_compute in
  guardians ← demo_begun (λ b, dw_guardians (bg_world b));
  guardian ← head guardians;
  record ← head (map_to_list (Records.gs_records guardian)).*2;
  Some (grec_policy record).
Definition asked : RecoveryRequest := Eval vm_compute in
  default RecoveryScenario.request (demo_begun bg_request).
Definition demo_release : option ReleaseCertificate := Eval vm_compute in
  r ← demo_begun (λ b, make_release_certificate (dw_signers (bg_world b)) (bg_request b)
    (bg_digest b) (Some (U16 1)) (U16 2));
  match r with Ok certificate => Some certificate | Err _ => None end.
End SimulatorScenario.

Module RotationSimScenario.
Export ClientScenario RotationSimRun.

(** ** The libraries *)

#[export] Instance five_of_eight : SharingPrimitives := {|
  Hkdf_expand := @Hkdf_expand toy_sharing;
  XChaCha20Poly1305_encrypt := @XChaCha20Poly1305_encrypt toy_sharing;
  XChaCha20Poly1305_decrypt := @XChaCha20Poly1305_decrypt toy_sharing;
  Share := @Share toy_sharing;
  Share_to_vec := @Share_to_vec toy_sharing;
  Share_try_from := @Share_try_from toy_sharing;
  Sharks_dealer_rng := @Sharks_dealer_rng toy_sharing;
  Sharks_recover := @Sharks_recover toy_sharing;
  ReedSolomon := N;
  ReedSolomon_new := λ data parity, Some data;
  ReedSolomon_encode := λ _ shards, Some shards;
  ReedSolomon_reconstruct := λ data received,
    if forallb snd (take (N.to_nat data) received)
    then Some ((λ p : list byte * bool, if p.2 then p else
      (replicate (length (default [] (fst <$> head received))) x00, true)) <$> received)
    else None;
  DecapsulationKey := @DecapsulationKey toy_sharing;
  DecapsulationKey_from := @DecapsulationKey_from toy_sharing;
  encapsulation_key := @encapsulation_key toy_sharing;
  EncapsulationKey := @EncapsulationKey toy_sharing;
  EncapsulationKey_try_from := @EncapsulationKey_try_from toy_sharing;
  XWingCiphertext := @XWingCiphertext toy_sharing;
  XWingCiphertext_try_from := @XWingCiphertext_try_from toy_sharing;
  XWingCiphertext_to_vec := @XWingCiphertext_to_vec toy_sharing;
  encapsulate_with_rng := @encapsulate_with_rng toy_sharing;
  decapsulate := @decapsulate toy_sharing
|}.

Definition next_share (b : byte) : byte := byte_of_N (Byte.to_N b + 1).
Definition two_bytes (l : list byte) : option u16 :=
  match l with [a; b] => Some (U16 (be_value [a; b])) | _ => None end.
Definition one_byte (l : list byte) : option byte :=
  match l with [b] => Some b | _ => None end.

#[export] Instance moving_frost : FrostPrimitives := {|
  Identifier := u16;
  Identifier_try_from := @Identifier_try_from dealer_frost;
  Identifier_serialize := be;
  FrostVerifyingKey := byte;
  VerifyingShare := byte;
  SigningShare := byte;
  VerifyingShare_from := λ s, s;
  KeyPackage := u16 * byte * byte * u16;
  KeyPackage_deserialize := @KeyPackage_deserialize dealer_frost;
  KeyPackage_serialize := @KeyPackage_serialize dealer_frost;
  kp_identifier := λ p, p.1.1.1;
  kp_signing_share := λ p, p.1.1.2;
  kp_verifying_share := λ p, p.1.1.2;
  kp_verifying_key := λ p, p.1.2;
  kp_min_signers := λ p, p.2;
  PublicKeyPackage := toy_public;
  PublicKeyPackage_new := λ shares key t, (shares, key, t);
  PublicKeyPackage_deserialize := @PublicKeyPackage_deserialize dealer_frost;
  PublicKeyPackage_serialize := @PublicKeyPackage_serialize dealer_frost;
  pkp_verifying_shares := λ p, p.1.1;
  pkp_verifying_key := λ p, p.1.2;
  pkp_min_signers := λ p, p.2;
  SecretShare := u16 * byte * byte * u16;
  generate_with_dealer := @generate_with_dealer dealer_frost;
  KeyPackage_try_from := Some;
  reconstruct := @reconstruct dealer_frost;
  Delta := byte;
  Delta_serialize := λ b, [b];
  Delta_deserialize := one_byte;
  Sigma := byte;
  Sigma_serialize := λ b, [b];
  Sigma_deserialize := one_byte;
  repair_share_part1 := λ ids package _ _,
    Some (list_to_map ((λ id, (id, package.1.2)) <$> ids));
  repair_share_part2 := λ deltas, default x00 (head deltas);
  repair_share_part3 := λ sigmas id public,
    key ← head sigmas; t ← public.2;
    Some (id, byte_of_N (uval id + 16), key, t);
  Round1Secret := u16;
  Round1Secret_serialize := λ id, Some (be id);
  Round1Secret_deserialize := two_bytes;
  r1s_identifier := λ id, id;
  Round1Package := byte;
  Round1Package_serialize := λ b, Some [b];
  Round1Package_deserialize := one_byte;
  refresh_dkg_part1 := λ id _ _ _, Some (id, x01);
  Round2Secret := u16;
  Round2Secret_serialize := λ id, Some (be id);
  Round2Secret_deserialize := two_bytes;
  r2s_identifier := λ id, id;
  Round2Package := byte;
  Round2Package_serialize := λ b, Some [b];
  Round2Package_deserialize := one_byte;
  refresh_dkg_part2 := λ id messages, Some (id, map_to_list messages);
  refresh_dkg_shares := λ id round1 _ public package,
    let ids : gset u16 := {[id]} ∪ dom round1 in
    Some ((package.1.1.1, next_share package.1.1.2, package.1.2, package.2),
          (next_share <$> filter (λ e, e.1 ∈ ids) public.1.1, public.1.2, public.2))
|}.

(** The JSON of the descriptors is not read back. *)
#[export] Instance descriptors_only : ClientPrimitives := {|
  mailbox_request_to_vec := λ _, None;
  mailbox_response_from_slice := λ _, None;
  signer_recovery_request_to_vec := λ _, None;
  signer_recovery_response_from_slice := λ _, None;
  guardian_recovery_request_to_vec := λ _, None;
  guardian_recovery_response_from_slice := λ _, None;
  provision_to_vec := λ _, None;
  signer_provision_to_vec := λ _, None;
  guardian_provision_to_vec := λ _, None;
  descriptor_v3_to_vec := λ _, Some [x00];
  descriptor_v3_from_slice := λ _, None
|}.

#[export] Instance rotation_simulation : SimPrimitives :=
  @Build_SimPrimitives toy_protocol uval (λ _, None) (λ _, None).

Definition rotation_demo (replacements : list (u16 * u16)) (cancel fail : option N) :
    RotationDemoOptions := {|
  rdo_seed := U64 7;
  rdo_secret := "correct horse";
  rdo_simulated_delay_secs := U64 5;
  rdo_replacements := replacements;
  rdo_cancel_rotation_at := cancel;
  rdo_fail_preparation_at := fail
|}.

End RotationSimScenario.
