(* ===== verification/SimulatorProps.v ===== *)
(** What a run of the simulator shows: the outcome of every run that ends with
    a result, and the agreement of its checks with those of the network code.

    Module [SimulatorChecks]: the simulator's own checks and those of the
    network code accept the same requests, certificates and contributions. *)

From S2P Require Export SimulatorRun.
From S2P Require Import SimulatorScenario SetupRecovery.

(** ** Fallible code with the same answers

    Two routines that differ in their errors only. *)
Definition agree {E F A} (r : Result E A) (s : Result F A) : Prop :=
  ∀ a, r = Ok a ↔ s = Ok a.
Infix "≈" := agree (at level 70).

Create HintDb agreement.

Lemma agree_map_err {E F G A} (f : E → F) (g : E → G) (r : Result E A) :
  map_err f r ≈ map_err g r.
Proof. intros a. by rewrite !map_err_Ok. Qed.
Lemma agree_ok_or {E F A} (o : option A) (e : E) (f : F) : ok_or o e ≈ ok_or o f.
Proof. intros a. by rewrite !ok_or_Ok. Qed.
Lemma agree_fail_if {E F} (c d : bool) (e : E) (f : F) : c = d → fail_if c e ≈ fail_if d f.
Proof. intros -> a. by rewrite !fail_if_Ok. Qed.
Lemma agree_Ok {E F A} (a : A) : @Ok E A a ≈ @Ok F A a.
Proof. intros b. split; congruence. Qed.
Lemma agree_bind {E F A B} (r : Result E A) (s : Result F A) (f : A → Result E B)
    (g : A → Result F B) :
  r ≈ s → (∀ a, f a ≈ g a) → (r ≫= f) ≈ (s ≫= g).
Proof.
  intros Hr Hf b. rewrite !bind_Ok. split; intros (a & Ha & Hb); exists a; split;
    by (apply Hr || apply Hf).
Qed.
Lemma agree_guard {E F A} (c d : bool) (e : E) (f : F) (r : Result E A) (s : Result F A) :
  c = d → r ≈ s → (if c then Err e else r) ≈ (if d then Err f else s).
Proof. intros -> Hr. destruct d; [split; congruence | done]. Qed.
Lemma agree_distinct `{Countable K} {E F A} (key : A → K) (bad : A → () → bool) (e : E) (f : F)
    (body : A → () → Result E ()) (body' : A → () → Result F ()) seen l :
  (∀ x u, body x u ≈ body' x u) →
  for_each_distinct key (λ _, Ok ()) bad e body seen l
  ≈ for_each_distinct key (λ _, Ok ()) bad f body' seen l.
Proof.
  intros Hb final. rewrite !for_each_distinct_Ok.
  split; intros (Hnd & Hfresh & Hall & ->); split_and!; try done; intros x Hx;
    destruct (Hall x Hx) as (u & _ & Hbad & Hbody); exists u; split_and!; try (by destruct u);
    by apply Hb.
Qed.
Lemma Ok_bind {E A B} (a : A) (f : A → Result E B) : Ok a ≫= f = f a.
Proof. done. Qed.
#[export] Hint Resolve agree_map_err agree_ok_or agree_fail_if agree_Ok agree_bind agree_guard
  agree_distinct : agreement.

(** Two routines of the same shape. *)
Ltac agree_step :=
  match goal with
  | |- ∀ _, _ => intros ?
  | |- (_ ≫= _) ≈ (_ ≫= _) => apply agree_bind
  | |- (if _ then Err _ else _) ≈ (if _ then Err _ else _) => apply agree_guard; [done |]
  | |- for_each_distinct _ _ _ _ _ _ _ ≈ _ => apply agree_distinct
  | |- _ ≈ _ => solve [auto with agreement]
  end.
Ltac agree := repeat agree_step.

Module SimulatorChecks.
Export SimulatorRun.

Section checks.
Context `{Prims : Primitives} `{Sharing : SharingPrimitives} `{Protocol : ProtocolPrimitives}.

(** ** Cards and requests *)

Lemma validate_capsule_against_card_Ok capsule card :
  validate_capsule_against_card capsule card = Ok ()
  ↔ Protocol.validate_capsule card capsule = Ok ()
    ∧ (PRODUCTION_MIN_DELAY_SECS <= cap_minimum_recovery_delay capsule)%N
    ∧ (0 < cap_max_request_lifetime capsule)%N.
Proof.
  unfold validate_capsule_against_card, Protocol.validate_capsule. rewrite !fail_if_Ok.
  rewrite !orb_false_iff, !N.ltb_ge, !N.eqb_neq, <- N.neq_0_lt_0. tauto.
Qed.

(** The lifetime that the simulator subtracts is the one the network code adds
    with saturation. *)
Lemma validate_recovery_request_Ok request capsule now :
  cap_protocol_version capsule = PROTOCOL_VERSION →
  validate_recovery_request request capsule now = Ok ()
  ↔ Protocol.validate_request request capsule now = Ok ().
Proof.
  intros Hv. unfold validate_recovery_request, Protocol.validate_request.
  rewrite bind_Ok, Hv. setoid_rewrite ok_or_Ok. setoid_rewrite fail_if_Ok.
  assert (Hs := uval_sat_add (rr_requested_at request) (cap_max_request_lifetime capsule)).
  assert (He := uint_lt (rr_expiry request)).
  rewrite !orb_false_iff, !N.ltb_ge, !N.leb_gt, Hs. split.
  - intros (lifetime & Hl & Hc). destruct (N.ltb_spec (rr_expiry request) (rr_requested_at request));
      [done |]. injection Hl as <-. rewrite !orb_false_iff in Hc.
    rewrite !N.ltb_ge, !N.leb_gt, N.eqb_neq in Hc. intuition lia.
  - intros Hc.
    destruct (N.ltb_spec (rr_expiry request) (rr_requested_at request)); [lia |].
    eexists. split; [done |]. rewrite !orb_false_iff, !N.ltb_ge, !N.leb_gt, N.eqb_neq.
    intuition lia.
Qed.

(** ** Contributions and shares *)

Lemma agree_wire {A} (r : Result WireError A) : wire r ≈ RotationProtocol.wire r.
Proof. apply agree_map_err. Qed.
Lemma agree_crypto {A} (r : Result CryptoError A) : crypto r ≈ RotationProtocol.crypto r.
Proof. apply agree_map_err. Qed.
Lemma request_digest_agrees request : request_digest request ≈ Protocol.request_digest request.
Proof. intros d. unfold request_digest, Protocol.request_digest. rewrite !fmap_Ok.
  by setoid_rewrite (agree_wire _ _). Qed.
Hint Resolve agree_wire agree_crypto request_digest_agrees : agreement.

Lemma membership_agrees signer_id public proof capsule :
  validate_signer_membership signer_id public proof capsule
  ≈ validate_membership signer_id public proof (cap_signer_set_commitment capsule)
      (cap_signer_count capsule).
Proof. unfold validate_signer_membership, validate_membership. agree. Qed.
Hint Resolve membership_agrees : agreement.

Lemma check_contribution_agrees request capsule contribution :
  check_contribution request capsule contribution
  ≈ Protocol.check_contribution request contribution (cap_signer_set_commitment capsule)
      (cap_signer_count capsule).
Proof. unfold check_contribution, Protocol.check_contribution. agree. Qed.
Hint Resolve check_contribution_agrees : agreement.

(** The network code's checks take the request of the certificate, the
    simulator's that of the contribution: these are equal there. *)
Lemma open_shares_agrees request capsule recipient ids contributions :
  open_shares request capsule recipient ids contributions
  ≈ open_contributions request capsule recipient ids contributions.
Proof.
  revert ids. induction contributions as [|c contributions IH]; intros ids;
    cbn [open_shares open_contributions]; [auto with agreement |].
  destruct (decide (sc_request c = request)) as [<- | Hne].
  - agree.
  - rewrite (bool_decide_eq_true_2 (sc_request c ≠ request)) by done. by split.
Qed.

Lemma recover_secret_few shares threshold secret :
  recover_secret shares threshold = Ok secret → (len shares <? threshold)%N = false.
Proof.
  unfold recover_secret. destruct (_ || _); [done |]. by destruct (len shares <? threshold)%N.
Qed.

Lemma reconstruct_agrees certificate capsule recipient now :
  cap_protocol_version capsule = PROTOCOL_VERSION →
  validate_approvals_and_reconstruct certificate capsule recipient now
  ≈ reconstruct_a certificate capsule recipient now.
Proof.
  intros Hv. apply agree_bind; [intros []; by apply validate_recovery_request_Ok |].
  intros _. apply agree_bind; [apply open_shares_agrees |].
  intros shares a. destruct (len shares <? cap_signer_threshold capsule)%N eqn:E.
  - split; [| done]. intros H%map_err_Ok%recover_secret_few. congruence.
  - unfold crypto, RotationProtocol.crypto. by rewrite !map_err_Ok.
Qed.

Lemma contribution_agrees contribution route descriptor request authorization_key :
  validate_guardian_contribution contribution route descriptor request authorization_key
  ≈ Protocol.validate_guardian_contribution contribution route descriptor request
      authorization_key.
Proof.
  unfold validate_guardian_contribution, Protocol.validate_guardian_contribution.
  apply agree_bind; [agree |]. intros digest. apply agree_guard; [do 4 f_equal; apply orb_comm |]. agree.
Qed.

(** ** Descriptors *)

(** What the simulator asks of the routes and the network code does not. *)
Definition routes_valid (guardian_count : u16) (routes : list GuardianRoute) : Prop :=
  (∀ route, route ∈ routes → (0 < uval (gr_guardian_index route))%N
     ∧ (gr_guardian_index route <= guardian_count)%N ∧ gr_mailbox route ≠ EmptyString)
  ∧ NoDup (gr_guardian_index <$> routes) ∧ NoDup (gr_opaque_slot_id <$> routes)
  ∧ NoDup (gr_mailbox <$> routes).

Lemma check_routes_Ok guardian_count seen slots mailboxes routes :
  check_routes guardian_count seen slots mailboxes routes = Ok ()
  ↔ routes_valid guardian_count routes
    ∧ ∀ route, route ∈ routes → (gr_guardian_index route ∉ seen)
      ∧ (gr_opaque_slot_id route ∉ slots) ∧ (gr_mailbox route ∉ mailboxes).
Proof.
  revert seen slots mailboxes. induction routes as [|r routes IH]; intros seen slots mailboxes.
  { split; [| done]. intros _. split; [split_and!; [| constructor..] |]; by intros ? ?%elem_of_nil. }
  cbn [check_routes]. rewrite guard_Ok, IH. unfold routes_valid.
  rewrite !orb_false_iff, N.eqb_neq, N.ltb_ge, !bool_decide_eq_false, !fmap_cons, !list.NoDup_cons.
  split.
  - intros [[[[[[Hi Hc] Hs] Hsl] Hm] Hmb] [(Hall & Hn1 & Hn2 & Hn3) Hfresh]].
    assert (Hout : ∀ A (f : GuardianRoute → A) (P : Prop),
      (∀ route, route ∈ routes → f route = f r → False) → f r ∉ (f <$> routes))
      by (intros A f P Hf (x & E & Hx)%list_elem_of_fmap; by apply (Hf x)).
    repeat match goal with
    | |- _ ∧ _ => split
    | |- _ ∉ (_ <$> _) => apply (Hout _ _ True); intros x Hx; destruct (Hfresh x Hx); set_solver
    | |- ∀ route, route ∈ r :: routes → _ => intros x [-> | Hx]%elem_of_cons
    end; try done; try lia; try (by apply Hall); destruct (Hfresh x Hx); set_solver.
  - intros [(Hall & [H1 Hn1] & [H2 Hn2] & [H3 Hn3]) Hfresh].
    destruct (Hall r ltac:(by left)) as (? & ? & ?).
    destruct (Hfresh r ltac:(by left)) as (? & ? & ?).
    assert (Hin : ∀ A (f : GuardianRoute → A) route, f r ∉ (f <$> routes) → route ∈ routes →
      f route ≠ f r) by (intros A f x Hf Hx E; apply Hf; rewrite <- E; by apply list_elem_of_fmap_2).
    repeat split; try done; try lia.
    all: try (intros; apply Hall; by right).
    all: intros Hx'; destruct (Hfresh route ltac:(by right)) as (? & ? & ?);
      apply elem_of_union in Hx' as [E%elem_of_singleton |]; [| done]; revert E; by apply Hin.
Qed.

Lemma open_descriptor_agrees capsule authorization_key descriptor :
  open_descriptor capsule authorization_key = Ok descriptor
  ↔ Protocol.open_descriptor capsule authorization_key = Ok descriptor
    ∧ (16 <= rd_ciphertext_len descriptor)%N
    ∧ routes_valid (cap_guardian_count capsule) (rd_guardians descriptor).
Proof.
  assert (Hv : ∀ d : RecoveryDescriptor,
    (_ ← validate_descriptor d capsule; Ok d) = Ok descriptor
    ↔ (if ((len (rd_guardians d) !=? uval (cap_guardian_count capsule))
          || (rd_guardian_material_root d !=? cap_guardian_material_commitment capsule)
          || (rd_data_shards d !=? cap_guardian_threshold capsule)
          || (rd_total_shards d !=? cap_guardian_count capsule))%mr
       then Err (Msg "Recovery Descriptor does not match Config Capsule") else Ok d)
      = Ok descriptor
      ∧ (16 <= rd_ciphertext_len descriptor)%N
      ∧ routes_valid (cap_guardian_count capsule) (rd_guardians descriptor)).
  { intros d. rewrite bind_Ok, guard_Ok, !orb_false_iff. split.
    - intros ([] & [Hc Hr]%guard_Ok & [= <-]). rewrite !orb_false_iff, N.ltb_ge in Hc.
      apply check_routes_Ok in Hr as [Hr _]. tauto.
    - intros ([Hc [= <-]] & Hl & Hr). exists (). split; [| done]. apply guard_Ok.
      rewrite !orb_false_iff, N.ltb_ge, check_routes_Ok. split; [tauto |]. split; [done |]. intros. set_solver. }
  unfold open_descriptor, Protocol.open_descriptor. split.
  - intros (a & Ha%ok_or_Ok & (key & Hk%agree_crypto & (context & Hc%agree_wire
      & (plaintext & Hp%agree_crypto & (d & Hd%ok_or_Ok & [Hb Hr]%Hv)%bind_Ok)%bind_Ok)%bind_Ok)%bind_Ok)%bind_Ok.
    split; [| done]. rewrite Ha. simpl. rewrite Hk. simpl. rewrite Hc. simpl. rewrite Hp. simpl. by rewrite Hd.
  - intros [(a & Ha%ok_or_Ok & (key & Hk%agree_crypto & (context & Hc%agree_wire
      & (plaintext & Hp%agree_crypto & (d & Hd%ok_or_Ok & Hb)%bind_Ok)%bind_Ok)%bind_Ok)%bind_Ok)%bind_Ok Hr].
    rewrite Ha. simpl. rewrite Hk. simpl. rewrite Hc. simpl. rewrite Hp. simpl. rewrite Hd. simpl. by apply Hv.
Qed.

(** ** Certificates

    A guardian's policy that the simulator accepts for a capsule, and a request
    for that capsule. *)

Lemma policy_of_capsule policy capsule :
  validate_guardian_policy policy capsule = Ok () →
  gpol_config_id policy = cap_config_id capsule
  ∧ gpol_config_version policy = cap_config_version capsule
  ∧ gpol_signer_set_commitment policy = cap_signer_set_commitment capsule
  ∧ gpol_signer_count policy = cap_signer_count capsule
  ∧ gpol_signer_threshold policy = cap_signer_threshold capsule
  ∧ gpol_owner_cancel_public_key policy = cap_owner_cancel_public_key capsule.
Proof.
  unfold validate_guardian_policy. rewrite fail_if_Ok, !orb_false_iff, !neb_false. tauto.
Qed.

Lemma request_in_policy policy capsule request now :
  validate_guardian_policy policy capsule = Ok () →
  Protocol.validate_request request capsule now = Ok () →
  request_outside_policy request policy now = false.
Proof.
  intros (Hi & Hv & _)%policy_of_capsule. unfold Protocol.validate_request, request_outside_policy.
  rewrite fail_if_Ok, Hi, Hv, !orb_false_iff. tauto.
Qed.

Lemma request_suite capsule card request now :
  validate_capsule_against_card capsule card = Ok () →
  Protocol.validate_request request capsule now = Ok () →
  rr_crypto_suite request = CryptoSuite_default.
Proof.
  unfold validate_capsule_against_card, Protocol.validate_request.
  rewrite !fail_if_Ok, !orb_false_iff, !neb_false. intuition congruence.
Qed.

Context (capsule : ConfigCapsule) (policy : GuardianPolicy) (request : RecoveryRequest) (now : u64).
Hypothesis Hversion : cap_protocol_version capsule = PROTOCOL_VERSION.
Hypothesis Hpolicy : validate_guardian_policy policy capsule = Ok ().
Hypothesis Hsuite : rr_crypto_suite request = CryptoSuite_default.
Hypothesis Hrequest : Protocol.validate_request request capsule now = Ok ().

Lemma begin_agrees certificate :
  brc_request certificate = request →
  validate_begin_certificate certificate capsule now
  ≈ validate_begin_for_policy certificate policy now.
Proof using Hversion Hpolicy Hsuite Hrequest.
  destruct (policy_of_capsule _ _ Hpolicy) as (_ & _ & Hr & Hc & Ht & _).
  intros <-. unfold validate_begin_certificate, validate_begin_for_policy.
  rewrite (proj2 (validate_recovery_request_Ok _ _ _ Hversion) Hrequest), Ok_bind.
  rewrite (request_in_policy _ _ _ _ Hpolicy Hrequest), Hr, Hc, Ht. agree.
Qed.

Lemma release_agrees certificate :
  validate_release_certificate certificate capsule request now
  ≈ validate_release_for_policy certificate policy request now.
Proof using Hversion Hpolicy Hsuite Hrequest.
  destruct (policy_of_capsule _ _ Hpolicy) as (_ & _ & Hr & Hc & Ht & _).
  unfold validate_release_certificate, validate_release_for_policy.
  rewrite (proj2 (validate_recovery_request_Ok _ _ _ Hversion) Hrequest), Ok_bind.
  rewrite (request_in_policy _ _ _ _ Hpolicy Hrequest), (proj2 (neb_false _ _) Hsuite), Hr, Hc, Ht. cbn [orb]. agree.
Qed.

(** The network code compares part of the fields before it computes the
    digest. *)
Lemma owner_cancel_agrees certificate :
  validate_owner_cancel_certificate certificate capsule request now
  ≈ validate_owner_cancel_for_policy certificate policy request now.
Proof using Hversion Hpolicy Hsuite Hrequest.
  destruct (policy_of_capsule _ _ Hpolicy) as (_ & _ & _ & _ & _ & Ho).
  unfold validate_owner_cancel_certificate, validate_owner_cancel_for_policy.
  rewrite (proj2 (validate_recovery_request_Ok _ _ _ Hversion) Hrequest), Ok_bind.
  rewrite (request_in_policy _ _ _ _ Hpolicy Hrequest), (proj2 (neb_false _ _) Hsuite), Ho. cbn [orb].
  assert (Hd := request_digest_agrees request).
  assert (Hs : (t ← wire (owner_cancel certificate);
      crypto (verify (cap_owner_cancel_public_key capsule) t (occ_owner_signature certificate)))
    ≈ (t ← RotationProtocol.wire (owner_cancel certificate);
      RotationProtocol.crypto (verify (cap_owner_cancel_public_key capsule) t
        (occ_owner_signature certificate)))) by agree.
  intros []. rewrite guard_Ok, !bind_Ok. split.
  - intros (digest & Hdig & [Hc Ht]%guard_Ok). rewrite !orb_false_iff in *.
    split; [tauto |]. exists digest. split; [by apply Hd |]. apply guard_Ok.
    rewrite !orb_false_iff. split; [tauto | by apply Hs].
  - intros (Hc & digest & Hdig & [Hc' Ht]%guard_Ok). rewrite !orb_false_iff in *.
    exists digest. split; [by apply Hd |]. apply guard_Ok.
    rewrite !orb_false_iff. split; [tauto | by apply Hs].
Qed.

End checks.

End SimulatorChecks.

Module SimulatorProps.
Export SimulatorChecks.

Section props.
Context `{Prims : Primitives} `{Sharing : SharingPrimitives} `{Protocol : ProtocolPrimitives}.
Context `{Simulation : !SimPrimitives} `{Generator : TransportRng}.

(** ** Setup and machines *)

Lemma first_put capsule stored store :
  Records.put Records.ConfigStore_default capsule = (stored, store) →
  Records.get_capsule store (cap_config_id capsule) = Ok capsule.
Proof.
  intros H. replace store with (Records.put Records.ConfigStore_default capsule).2 by by rewrite H.
  rewrite Records.get_capsule_put. unfold Records.put. simpl. rewrite lookup_empty. simpl.
  by rewrite bool_decide_eq_true_2.
Qed.

(** The capsule of a world is that of its policy, stored under the identifier
    of its card. *)
Lemma setup_world_capsule secret policy seed rotation rng world rng' :
  setup_world secret policy seed rotation rng = (Ok world, rng') →
  ∃ capsule, Records.get_capsule (dw_config_store world) (card_config_id (dw_card world))
      = Ok capsule
    ∧ cap_config_id capsule = card_config_id (dw_card world)
    ∧ (∀ id version, rotation = Some (id, version) →
        cap_config_id capsule = id ∧ cap_config_version capsule = version)
    ∧ (rotation = None → cap_config_version capsule = U64 1)
    ∧ cap_signer_threshold capsule = setup_signer_threshold policy
    ∧ cap_guardian_threshold capsule = setup_guardian_threshold policy
    ∧ cap_guardian_count capsule = setup_guardian_count policy.
Proof.
  unfold setup_world. intros H. draws_to H ref Href. destruct ref as [config_id config_version].
  draws_to H owner_seed Ho. draws_to H owner_key Hok. draws_to H a Ha. draws_to H d Hd.
  draws_to H a_seed Has. draws_to H a_shares Hash. draws_to H signers Hs.
  draws_to H root Hroot. destruct root as [signer_root signer_proofs].
  draws_to H payload_nonce Hpn. draws_to H ctx Hc. draws_to H dek_key Hdk.
  draws_to H payload Hp. draws_to H fragments Hf. draws_to H dek_seed Hds.
  draws_to H dek_shares Hdsh. draws_to H raw Hraw. draws_to H groot Hgr.
  destruct groot as [guardian_root guardian_proofs]. draws_to H plaintext Hpl.
  draws_to H key Hkey. draws_to H key' Hkey'. draws_to H ctx' Hc'. draws_to H nonce Hn.
  draws_to H sealed Hse. destruct (Records.put _ _) as [stored store] eqn:Hput.
  draws_to H u Hst. injection H as <- <-. apply first_put in Hput.
  eexists. split; [exact Hput | cbn]. split_and!; try done.
  - intros id version ->. by injection Href as <- <- _.
  - intros ->. draws_to Href new Hnew. by injection Href as <- <- _.
Qed.

Lemma apply_event_Ok machine event now delay machine' :
  apply_event machine event now delay = Ok machine' →
  ∃ actions, Recovery.apply machine event now delay = (Ok actions, machine').
Proof.
  unfold apply_event. destruct (Recovery.apply _ _ _ _) as [[actions |] m] eqn:E; [| done].
  intros [= <-]. by exists actions.
Qed.

(** The recovery waits for its delay, for the capsule of the options. *)
Definition begun (options : DemoOptions) (b : Begun) : Prop :=
  Recovery.rm_state (bg_machine b) = RecDelayPending
  ∧ cap_config_version (bg_capsule b) = U64 1
  ∧ cap_signer_threshold (bg_capsule b) = do_signer_threshold options
  ∧ cap_guardian_threshold (bg_capsule b) = do_guardian_threshold options
  ∧ routes_valid (do_guardian_count options) (rd_guardians (bg_descriptor b)).

Lemma begin_demo_begun options rng b rng' :
  begin_demo options rng = (Ok b, rng') → begun options b.
Proof.
  unfold begin_demo. intros H. draws_to H world Hw.
  apply setup_world_capsule in Hw as (capsule & Hget & _ & _ & Hv & Hs & Hg & Hn).
  specialize (Hv eq_refl). draws_to H stored0 Hst. apply map_err_Ok in Hst.
  rewrite Hget in Hst. injection Hst as <-.
  draws_to H checked0 Hck. draws_to H seed0 Hsd. draws_to H request_id Hri. draws_to H nonce Hno.
  draws_to H dig0 Hdig. draws_to H m1 Hm1. draws_to H valid0 Hva. draws_to H collected Hco.
  destruct collected as [contributions signers]. draws_to H a0 Ha. draws_to H m2 Hm2.
  draws_to H same0 Hsame. draws_to H descriptor Hd. draws_to H checked' Hck'.
  draws_to H machines Hms. draws_to H machines' Hms'. draws_to H m3 Hm3. injection H as <- <-.
  apply open_descriptor_agrees in Hd as (_ & _ & Hr).
  apply apply_event_Ok in Hm1 as (a1 & [= <- <-]). apply apply_event_Ok in Hm2 as (a2 & [= <- <-]).
  apply apply_event_Ok in Hm3 as (a3 & [= <- <-]).
  unfold begun. cbn. rewrite Hn in Hr. by split_and!.
Qed.

Lemma cancel_demo_outcome options b rng o rng' :
  begun options b → cancel_demo options b rng = (Ok o, rng') →
  out_state o = RecCancelled ∧ out_recovered_secret o = None ∧ out_valid_guardians o = 0%N
  ∧ out_rejected_guardians o = [] ∧ out_rotated_config_version o = None.
Proof.
  intros (Hm & _) H. unfold cancel_demo in H. draws_to H seed0 Hsd. draws_to H certificate Hc.
  draws_to H valid0 Hv. draws_to H machines Hms. draws_to H machine Hma. draws_to H head0 Hh.
  draws_to H refused0 Hr. injection H as <- <-.
  apply apply_event_Ok in Hma as (actions & Hma). revert Hma. unfold Recovery.apply. rewrite Hm. simpl.
  by intros [= <- <-].
Qed.

(** ** The contributions *)

(** What has been gathered when [asked] have been asked: a guardian was
    accepted or rejected. *)
Definition gathered (threshold : u16) (asked : list GuardianRoute) (g : Gathered) : Prop :=
  (ga_fragments g).*1 ++ ga_rejected g ≡ₚ gr_guardian_index <$> asked
  ∧ (len (ga_fragments g) <= threshold)%N.

Lemma ask_guardian_same options b at_ route g received g' rng rng' :
  ask_guardian options b at_ route g rng = (Ok (received, g'), rng') →
  ga_fragments g' = ga_fragments g ∧ ga_rejected g' = ga_rejected g.
Proof.
  unfold ask_guardian. intros H. draws_to H machine Hm.
  destruct (Guardian.authorize_release _ _ _ _ _ _) as [authorized machine'].
  draws_to H u Hu. draws_to H guardian Hgu. draws_to H record Hr. draws_to H t Ht.
  draws_to H ctx Hc. draws_to H serialized Hs. draws_to H seed0 Hse. draws_to H nonce Hn.
  draws_to H sealed Hsl. draws_to H opened Ho. draws_to H message Hme. by injection H as <- <- <-.
Qed.

Lemma validate_contribution_index contribution route descriptor request a share :
  validate_guardian_contribution contribution route descriptor request a = Ok share →
  gc_guardian_index contribution = gr_guardian_index route.
Proof.
  unfold validate_guardian_contribution.
  intros (digest & _ & [Hc _]%guard_Ok)%bind_Ok. rewrite !orb_false_iff, !neb_false in Hc. tauto.
Qed.

Lemma gathered_reject threshold asked route g at_ message :
  gathered threshold asked g → gathered threshold (asked ++ [route]) (reject at_ route message g).
Proof.
  intros [Hp Hl]. split; [| done]. cbn. rewrite (assoc_L (++)), Hp, fmap_app. done.
Qed.

Lemma gathered_accept threshold asked route g at_ received share :
  gathered threshold asked g → (len (ga_fragments g) < threshold)%N →
  gc_guardian_index received = gr_guardian_index route →
  gathered threshold (asked ++ [route]) (accept at_ route received share g).
Proof.
  intros [Hp Hl] Hlt E. split; cbn.
  - rewrite !fmap_app, <- Hp. cbn. rewrite E, <- !(assoc_L (++)). f_equiv.
    by rewrite Permutation_app_comm.
  - rewrite len_app. unfold len at 2. simpl. lia.
Qed.

Lemma gather_gathered options b at_ routes asked g rng g' rng' :
  gathered (cap_guardian_threshold (bg_capsule b)) asked g →
  (len (ga_fragments g) < cap_guardian_threshold (bg_capsule b))%N →
  gather_contributions options b at_ routes g rng = (Ok g', rng') →
  ∃ more, more `prefix_of` routes
    ∧ gathered (cap_guardian_threshold (bg_capsule b)) (asked ++ more) g'.
Proof.
  revert asked g rng. induction routes as [|route routes IH]; intros asked g rng Hg Hlt H.
  { injection H as <- <-. exists []. rewrite (right_id_L [] (++)). split; [by exists [] | done]. }
  assert (Hcont : ∀ g1 rng1, gathered (cap_guardian_threshold (bg_capsule b)) (asked ++ [route]) g1 →
    (len (ga_fragments g1) < cap_guardian_threshold (bg_capsule b))%N →
    gather_contributions options b at_ routes g1 rng1 = (Ok g', rng') →
    ∃ more, more `prefix_of` route :: routes
      ∧ gathered (cap_guardian_threshold (bg_capsule b)) (asked ++ more) g').
  { intros g1 rng1 Hg1 Hl1 H1. destruct (IH _ _ _ Hg1 Hl1 H1) as (more & Hpre & Hm).
    exists (route :: more). split; [by apply prefix_cons |]. by rewrite <- (assoc_L (++)) in Hm. }
  cbn [gather_contributions] in H. case_bool_decide.
  { eapply Hcont; [| | exact H]; [by apply gathered_reject | done]. }
  draws_to H asked_for Ha. destruct asked_for as [received g1].
  apply ask_guardian_same in Ha as [E1 E2].
  assert (Hg1 : gathered (cap_guardian_threshold (bg_capsule b)) asked g1)
    by (unfold gathered; by rewrite E1, E2).
  rewrite <- E1 in Hlt. clear E1 E2 Hg.
  match type of H with context [validate_guardian_contribution ?c ?r ?d ?q ?a] =>
    destruct (validate_guardian_contribution c r d q a) as [share |] eqn:E end.
  - apply validate_contribution_index in E.
    assert (Hacc := gathered_accept _ _ route _ at_ _ share Hg1 Hlt E).
    destruct (_ <=? _)%mr eqn:El in H.
    + injection H as <- <-. exists [route]. split; [by eexists | done].
    + apply N.leb_gt in El. by eapply Hcont.
  - eapply (gathered_reject _ _ route _ at_) in Hg1.
    destruct (_ <=? _)%mr eqn:El in H.
    + injection H as <- <-. exists [route]. split; [by eexists | exact Hg1].
    + apply N.leb_gt in El. eapply Hcont; [exact Hg1 | exact El | exact H].
Qed.

Lemma release_demo_outcome options b rng o rng' :
  begun options b → (0 < do_guardian_threshold options)%N →
  release_demo options b rng = (Ok o, rng') →
  out_state o = RecCompleted
  ∧ out_recovered_secret o = Some (from_utf8_lossy (as_bytes (do_secret options)))
  ∧ out_valid_guardians o = do_guardian_threshold options
  ∧ NoDup (out_rejected_guardians o)
  ∧ (∀ index, index ∈ out_rejected_guardians o →
      (0 < uval index)%N ∧ (index <= do_guardian_count options)%N)
  ∧ out_rotated_config_version o = Some (U64 2).
Proof.
  intros (Hm & Hv & _ & Ht & Hr) Hpos H. unfold release_demo in H.
  draws_to H release0 Hrel. draws_to H valid0 Hva. draws_to H m4 Hm4. draws_to H g Hg.
  draws_to H enough0 He. draws_to H plaintext0 Hp. draws_to H same0 Hs. draws_to H m5 Hm5.
  draws_to H rotated0 Hro. draws_to H capsule0 Hca. injection H as <- <-.
  apply (gather_gathered _ _ _ _ []) in Hg as (asked & [later Hpre] & Hperm & Hle);
    [| split; [done | apply N.le_0_l] | cbn; rewrite Ht; exact Hpos].
  apply fail_if_Ok, N.ltb_ge in He. apply fail_if_Ok in Hs. apply neb_false in Hs as ->.
  apply apply_event_Ok in Hm4 as (a4 & Hm4). apply apply_event_Ok in Hm5 as (a5 & Hm5).
  revert Hm4. unfold Recovery.apply at 1. rewrite Hm. simpl. case_match; [| done].
  intros [= <- <-]. injection Hm5 as <- <-.
  destruct Hr as (Hin & Hnd & _). rewrite Hpre in Hin, Hnd.
  apply setup_world_capsule in Hro as (capsule & Hget & Hid & Hrot & _).
  destruct (Hrot _ _ eq_refl) as [E1 E2]. apply map_err_Ok in Hca.
  rewrite <- E1, Hid, Hget in Hca. injection Hca as <-.
  rewrite fmap_app in Hnd. apply list.NoDup_app in Hnd as [Hnd _].
  cbn [app] in Hperm. rewrite <- Hperm in Hnd. apply list.NoDup_app in Hnd as (_ & _ & Hnd).
  cbn. rewrite E2, Hv, <- Ht. split_and!; try done.
  - lia.
  - intros index Hi. assert (Hi' : index ∈ gr_guardian_index <$> asked)
      by (rewrite <- Hperm; set_solver).
    apply list_elem_of_fmap in Hi' as (route & -> & Hx).
    destruct (Hin route) as (? & ? & _); [set_solver | done].
Qed.

(** C37 (functional): every run of the simulator that ends with a result was
    asked for with valid options.  A cancelled one ends in [Cancelled] and
    shows no secret.  Any other ends in [Completed], with the secret it was
    given, from exactly as many guardians as the threshold; those rejected on
    the way are distinct guardians of the configuration; and the next version
    is 2. *)
Theorem demo_outcome options r :
  run_demo options = Ok r →
  validate options = Ok ()
  ∧ dr_signer_threshold r = do_signer_threshold options
  ∧ dr_guardian_threshold r = do_guardian_threshold options
  ∧ dr_cancelled r = do_cancel_before_release options
  ∧ dr_success r = negb (do_cancel_before_release options)
  ∧ if do_cancel_before_release options
    then dr_final_state r = RecCancelled ∧ dr_recovered_secret r = None
         ∧ dr_valid_guardians r = 0%N ∧ dr_rotated_config_version r = None
    else dr_final_state r = RecCompleted
         ∧ dr_recovered_secret r = Some (from_utf8_lossy (as_bytes (do_secret options)))
         ∧ dr_valid_guardians r = do_guardian_threshold options
         ∧ NoDup (dr_rejected_guardians r)
         ∧ (∀ index, index ∈ dr_rejected_guardians r →
             (0 < uval index)%N ∧ (index <= do_guardian_count options)%N)
         ∧ dr_rotated_config_version r = Some (U64 2).
Proof.
  unfold run_demo. intros ([] & Hval & Hrun)%bind_Ok. split; [done |].
  destruct (demo_body options _) as [res rng'] eqn:H. simpl in Hrun. subst res.
  unfold demo_body in H. draws_to H b Hb. apply begin_demo_begun in Hb.
  draws_to H o Ho. apply lift_Ok in H as [(obs & _ & [= <-])%bind_Ok _].
  destruct Hb as (Hm & Hv & Hs & Ht & Hr). cbn. do 2 (split; [done |]).
  assert (Hbegun : begun options b) by by split_and!.
  destruct (do_cancel_before_release options).
  - eapply cancel_demo_outcome in Ho as (-> & -> & -> & _ & ->); [| done]. by split_and!.
  - eapply release_demo_outcome in Ho as (-> & -> & -> & Hnd & Hin & ->); [by split_and! | done |].
    unfold validate in Hval. repeat (case_match; [done |]). apply N.neq_0_lt_0.
    repeat match goal with H : _ || _ = false |- _ => apply orb_false_iff in H as [? ?] end.
    by apply N.eqb_neq.
Qed.

(** C35 (equivalence): for a capsule that the simulator accepts for a card, its
    check of a request, its reconstruction of the authorization key and its
    check of a guardian's contribution accept what those of the network code
    accept, with the same results (the errors may differ, which is what [≈]
    leaves open).  Under a policy it accepts for the capsule, and for a request
    that is valid now, so do its checks of begin, release and cancel
    certificates.  Of descriptors it accepts fewer: those that the network code
    accepts and that have at least 16 bytes of ciphertext and valid routes. *)
Theorem simulator_checks_agree capsule card :
  validate_capsule_against_card capsule card = Ok () →
  Protocol.validate_capsule card capsule = Ok ()
  ∧ (∀ request now, validate_recovery_request request capsule now
      ≈ Protocol.validate_request request capsule now)
  ∧ (∀ certificate recipient now,
      validate_approvals_and_reconstruct certificate capsule recipient now
      ≈ reconstruct_a certificate capsule recipient now)
  ∧ (∀ contribution route descriptor request a,
      validate_guardian_contribution contribution route descriptor request a
      ≈ Protocol.validate_guardian_contribution contribution route descriptor request a)
  ∧ (∀ a descriptor, open_descriptor capsule a = Ok descriptor
      ↔ Protocol.open_descriptor capsule a = Ok descriptor
        ∧ (16 <= rd_ciphertext_len descriptor)%N
        ∧ routes_valid (cap_guardian_count capsule) (rd_guardians descriptor))
  ∧ ∀ policy request now,
      validate_guardian_policy policy capsule = Ok () →
      Protocol.validate_request request capsule now = Ok () →
      (∀ certificate, brc_request certificate = request →
        validate_begin_certificate certificate capsule now
        ≈ validate_begin_for_policy certificate policy now)
      ∧ (∀ certificate, validate_release_certificate certificate capsule request now
          ≈ validate_release_for_policy certificate policy request now)
      ∧ (∀ certificate, validate_owner_cancel_certificate certificate capsule request now
          ≈ validate_owner_cancel_for_policy certificate policy request now).
Proof.
  intros Hcard. assert (Hcap := proj1 (validate_capsule_against_card_Ok _ _) Hcard).
  destruct Hcap as (Hcap & _). assert (Hv := Hcap). unfold Protocol.validate_capsule in Hv.
  rewrite fail_if_Ok, !orb_false_iff, neb_false in Hv.
  assert (Hversion : cap_protocol_version capsule = PROTOCOL_VERSION) by tauto. clear Hv.
  split_and!; try done.
  - intros request now []. by apply validate_recovery_request_Ok.
  - intros certificate recipient now. by apply reconstruct_agrees.
  - intros. apply contribution_agrees.
  - intros. apply open_descriptor_agrees.
  - intros policy request now Hp Hr. assert (Hs := request_suite _ _ _ _ Hcard Hr).
    split_and!; intros; [by eapply begin_agrees | by apply release_agrees
      | by apply owner_cancel_agrees].
Qed.

End props.

(** ** Witnesses *)

Import SimulatorScenario.

(** The second of three guardians sends a corrupt fragment, the third gives
    the secret. *)
Lemma demo_outcome_witness :
  ∃ r, run_demo (demo_options false) = Ok r ∧ dr_final_state r = RecCompleted
    ∧ dr_recovered_secret r = Some "correct horse"%string
    ∧ dr_rejected_guardians r = [U16 1; U16 2].
Proof.
  assert (H : ∃ r, run_demo (demo_options false) = Ok r
    ∧ dr_rejected_guardians r = [U16 1; U16 2])
    by (eexists; split; [vm_compute; reflexivity | reflexivity]).
  destruct H as (r & H & Hrej). exists r.
  destruct (demo_outcome _ _ H) as (_ & _ & _ & _ & _ & Hs & Hsecret & _).
  split; [exact H | split; [exact Hs | split; [exact Hsecret | exact Hrej]]].
Defined.

(** The release certificate of the run is one that a guardian node takes. *)
Lemma simulator_checks_agree_witness :
  ∃ policy certificate, demo_policy = Some policy ∧ demo_release = Some certificate
    ∧ validate_release_for_policy certificate policy asked (U64 6) = Ok ().
Proof.
  eexists _, _. split; [reflexivity | split; [reflexivity |]].
  assert (Hc : validate_capsule_against_card demo_capsule demo_card = Ok ())
    by (vm_compute; reflexivity).
  destruct (simulator_checks_agree _ _ Hc) as (_ & _ & _ & _ & _ & H).
  refine (proj1 (proj1 (proj2 (H _ asked (U64 6) _ _)) _ _) _); vm_compute; reflexivity.
Defined.

Lemma demo_is_cancelled :
  (dr_cancelled <$> run_demo (demo_options true)) = Ok true.
Proof. vm_compute. reflexivity. Qed.

End SimulatorProps.
