(* ===== verification/RotationSimProps.v ===== *)
(** What a run of the rotation simulator shows: the flags of its result, and
    that its rotations leave no record of an old epoch in any store. *)

From S2P Require Export RotationSimRun.
From S2P Require Import SimulatorScenario SetupRecovery.

Module RotationSimProps.
Export RotationSimRun.

Section props.
Context `{Prims : Primitives} `{Sharing : SharingPrimitives} `{Frost : FrostPrimitives}.
Context `{Protocol : ProtocolPrimitives} `{Json : ClientPrimitives}.

(** ** The recovery at the end *)

Lemma step_Ok {T} (call : Result RotationError T * EpochRecovery.EpochRecoveryMachine) t m :
  step call = Ok (t, m) → call = (Ok t, m).
Proof.
  unfold step. destruct call as [r m']. by intros (t' & Ht%map_err_Ok & [= <- <-])%bind_Ok; subst.
Qed.

(** The release of a cancelled request is refused. *)
Lemma check_cancel_refused world delay request refused m :
  check_cancel world delay request = Ok (refused, m) → refused = true.
Proof.
  unfold check_cancel. intros (t & _ & ([nb m1] & _ & ([u m2] & Hc%step_Ok & H)%bind_Ok)%bind_Ok)%bind_Ok.
  destruct (EpochRecovery.authorize_release m2 _) as [r m3] eqn:E. injection H as <- <-.
  apply EpochRecovery.authorize_release_cases in E as [(-> & Hok & _) | (e & -> & _)]; [| done].
  destruct Hok as (_ & _ & Hn & _). cbn in Hn.
  apply EpochRecovery.epoch_cancel_cases in Hc as [(e & [=] & _) | (_ & _ & [[Hc ->] | [_ ->]])].
  - congruence.
  - cbn in Hn. by rewrite lookup_insert_eq in Hn.
Qed.

(** So is a release before its time. *)
Lemma check_delay_refused world delay request recovery refused :
  check_delay world delay request recovery = Ok refused → refused = true.
Proof.
  unfold check_delay. intros (t & _ & ([nb m1] & Hb%step_Ok & H)%bind_Ok)%bind_Ok.
  destruct (EpochRecovery.authorize_release m1 _) as [r m2] eqn:E.
  apply bind_Ok in H as (_ & _ & [= <-]).
  apply EpochRecovery.authorize_release_cases in E as [(-> & Hok & _) | (e & -> & _)]; [| done].
  apply EpochRecovery.begin_cases in Hb as [(e & [=] & _) | ([= ->] & _ & ->)].
  destruct Hok as (_ & _ & _ & _ & p & Hp & _ & _ & _ & Hle). cbn in Hp, Hle.
  rewrite lookup_insert_eq in Hp. injection Hp as <-. cbn in Hle.
  assert (Hlow : (300 <= sat_add (U64 300) delay)%N) by apply (sat_add_le (U64 300)).
  assert (Hb := uint_lt (sat_add (U64 300) delay)). cbn in Hlow, Hb.
  exfalso. revert Hle Hlow Hb. generalize (N.min (300 mod 2 ^ 64 + delay) (2 ^ 64 - 1)).
  intros n Hle Hlow Hb. rewrite N.mod_small in Hle; lia.
Qed.

(** ** Records of one epoch *)

Lemma build_record_config authorization_key policy shares fragments public offset route rng
    record rng' :
  build_record authorization_key policy shares fragments public offset route rng
    = (Ok record, rng') →
  grec3_policy record = policy.
Proof.
  unfold build_record. intros H. draws_to H share0 Hs. draws_to H u0 Hu. draws_to H index0 Hi.
  draws_to H c0 Hc. draws_to H f0 Hf. draws_to H k0 Hk. draws_to H n0 Hn. draws_to H e0 He.
  draws_to H k1 Hk'. draws_to H n1 Hn'. draws_to H fr0 Hfr. draws_to H e1 He'.
  draws_to H cu0 Hcu. by injection H as <- <-.
Qed.

Lemma build_each_config authorization_key policy shares fragments public offset routes records rng
    records' rng' :
  (∀ e, e ∈ records → grec3_policy e.2 = policy) →
  build_each authorization_key policy shares fragments public offset routes records rng
    = (Ok records', rng') →
  ∀ e, e ∈ records' → grec3_policy e.2 = policy.
Proof.
  revert offset records rng. induction routes as [|route routes IH];
    intros offset records rng Hr H.
  - by injection H as <- <-.
  - cbn [build_each] in H. draws_to H record0 Hrec. eapply IH; [| exact H].
    intros e [-> | He]%BTree.elem_of_insert; [by eapply build_record_config | by apply Hr].
Qed.

Lemma commit_records_config root records leaves proofs leaf_map records' leaf_map' ref :
  (∀ e, e ∈ records → Epochs.record_config e.2 = ref) →
  commit_records root records leaves proofs leaf_map = (records', leaf_map') →
  ∀ e, e ∈ records' → Epochs.record_config e.2 = ref.
Proof.
  revert leaves proofs leaf_map records'. induction records as [|[k r] records IH];
    intros leaves proofs leaf_map records' Hr H; [by injection H as <- <- |].
  destruct leaves as [|leaf leaves]; [by injection H as <- <- |].
  destruct proofs as [|proof proofs]; [by injection H as <- <- |].
  cbn [commit_records] in H. destruct (commit_records _ _ _ _ _) as [rs lm] eqn:E.
  injection H as <- <-. intros e [-> | He]%elem_of_cons; [exact (Hr (k, r) ltac:(by left)) |].
  eapply IH; [| exact E | exact He]. intros e' He'. apply Hr. by right.
Qed.

(** All records are of the epoch they are built for. *)
Lemma build_records_config authorization_key ref hash routes shares fragments public rng built
    rng' :
  build_records authorization_key ref hash routes shares fragments public rng = (Ok built, rng') →
  ∀ e, e ∈ br_records built → Epochs.record_config e.2 = ref.
Proof.
  unfold build_records. intros H. draws_to H u0 Hu. draws_to H d0 Hd. draws_to H records0 Hr.
  draws_to H leaves0 Hl. draws_to H hashes0 Hh. draws_to H tree0 Ht.
  destruct tree0 as [root0 proofs0]. destruct (commit_records _ _ _ _ _) as [rs lm] eqn:E.
  injection H as <- <-. refine (commit_records_config _ _ _ _ _ _ _ ref _ E).
  intros e He. unfold Epochs.record_config.
  rewrite (build_each_config _ _ _ _ _ _ _ [] _ _ _ (λ e H, False_ind _ (not_elem_of_nil e H)) Hr
    e He). done.
Qed.

(** ** Stores *)

Abbreviation Stores := (gmap u16 Epochs.GuardianEpochStore).

Lemma store_transaction_Ok {T} (stores : Stores) id
    (f : Epochs.GuardianEpochStore → Result StorageError T * Epochs.GuardianEpochStore) t stores' :
  store_transaction stores id f = Ok (t, stores') →
  ∃ s s', stores !! id = Some s ∧ f s = (Ok t, s') ∧ stores' = <[id := s']> stores.
Proof.
  unfold store_transaction. intros (s & Hs%ok_or_Ok & H)%bind_Ok.
  unfold Epochs.transaction in H. destruct (f s) as [[x | e] s'] eqn:E.
  - apply bind_Ok in H as (y & [= <-] & [= <- <-]). by exists s, s'.
  - by apply bind_Ok in H as (y & [=] & _).
Qed.

Lemma store_transactions_Ok {T} ids
    (f : Epochs.GuardianEpochStore → Result StorageError T * Epochs.GuardianEpochStore)
    (stores stores' : Stores) :
  NoDup ids → store_transactions ids f stores = Ok stores' →
  (∀ id, id ∈ ids → ∃ s t s', stores !! id = Some s ∧ f s = (Ok t, s') ∧ stores' !! id = Some s')
  ∧ (∀ id, id ∉ ids → stores' !! id = stores !! id).
Proof.
  revert stores. induction ids as [|id ids IH]; intros stores Hnd H.
  { injection H as <-. split; [set_solver | done]. }
  apply list.NoDup_cons in Hnd as [Hid Hnd]. cbn [store_transactions] in H.
  apply bind_Ok in H as ([t st] & (s & s' & Hs & Hf & ->)%store_transaction_Ok & H).
  destruct (IH _ Hnd H) as [Hin Hout]. split.
  - intros k [-> | Hk]%elem_of_cons.
    + exists s, t, s'. by rewrite Hout, lookup_insert_eq by done.
    + destruct (Hin k Hk) as (u & x & u' & Hu & Hx & Hu'). exists u, x, u'.
      by rewrite lookup_insert_ne in Hu by set_solver.
  - intros k [Hne Hk]%not_elem_of_cons. by rewrite Hout, lookup_insert_ne by done.
Qed.

(** The store of a guardian that is asked to prepare. *)
Definition candidate (world : RotationWorld) (stores : Stores) (id : u16) :
    Epochs.GuardianEpochStore :=
  default (Epochs.new_candidate (rw_current_ref world) (rw_current_capsule_hash world))
    (stores !! id).

Definition prepares (world : RotationWorld) (p : Planned) (stores stores' : Stores)
    (records : list (u16 * GuardianRecordV3)) (id : u16) : Prop :=
  ∃ record journal generation s', BTree.get id records = Some record
    ∧ Epochs.prepare_successor hex_encode (candidate world stores id)
        (ctx_rotation_id (pl_context p)) (pl_plan_hash p) record journal = (Ok generation, s')
    ∧ stores' !! id = Some s'.

Lemma prepare_guardian_Ok world p dpss built id records stores ack records' stores' :
  prepare_guardian world p dpss built id records stores = Ok (ack, records', stores') →
  prepares world p stores stores' records id ∧ records' = BTree.remove id records
  ∧ ∀ k, k ≠ id → stores' !! k = stores !! k.
Proof.
  unfold prepare_guardian. intros (record & Hr%ok_or_Ok & H)%bind_Ok.
  apply bind_Ok in H as ([generation st] & (s & s' & Hs & Hf & ->)%store_transaction_Ok & H).
  apply bind_Ok in H as (leaf & _ & H). apply bind_Ok in H as (t & _ & H).
  apply bind_Ok in H as (u & _ & [= <- <- <-]). split_and!; [| done |].
  - exists record, (journal_of p dpss), generation, s'. rewrite lookup_insert_eq.
    split_and!; [done | | done]. unfold candidate. destruct (stores !! id) as [s0 |] eqn:E.
    + rewrite E in Hs. injection Hs as <-. exact Hf.
    + rewrite lookup_insert_eq in Hs. injection Hs as <-. exact Hf.
  - intros k Hk. rewrite lookup_insert_ne by done. destruct (stores !! id); [done |].
    by rewrite lookup_insert_ne by done.
Qed.

Lemma prepare_guardians_Ok world p dpss built ids records stores acks records' stores' :
  prepare_guardians world p dpss built ids records stores = Ok (acks, records', stores') →
  NoDup ids ∧ (∀ id, id ∈ ids → prepares world p stores stores' records id)
  ∧ ∀ id, id ∉ ids → stores' !! id = stores !! id.
Proof.
  revert records stores acks. induction ids as [|id ids IH]; intros records stores acks H.
  { injection H as <- <- <-. split_and!; [constructor | set_solver | done]. }
  cbn [prepare_guardians] in H.
  apply bind_Ok in H as ([[ack rs] st] & (Hp & -> & Hout)%prepare_guardian_Ok & H).
  apply bind_Ok in H as ([[acks1 rs1] st1] & Hr & [= <- <- <-]).
  destruct (IH _ _ _ Hr) as (Hnd & Hin & Hout').
  assert (Hid : id ∉ ids).
  { intros Hid. destruct (Hin id Hid) as (r & _ & _ & _ & Hg & _).
    by rewrite BTree.get_remove, bool_decide_eq_true_2 in Hg. }
  split_and!; [by constructor | |].
  - intros k [-> | Hk]%elem_of_cons.
    + destruct Hp as (r & j & g & s' & Hg & Hf & Hs'). exists r, j, g, s'.
      by rewrite Hout'.
    + destruct (Hin k Hk) as (r & j & g & s' & Hg & Hf & Hs').
      assert (k ≠ id) by set_solver. rewrite BTree.get_remove, bool_decide_eq_false_2 in Hg by done.
      exists r, j, g, s'. unfold candidate in Hf |- *. by rewrite Hout in Hf.
  - intros k [Hne Hk]%not_elem_of_cons. by rewrite Hout', Hout.
Qed.

(** *** The stores between rotations *)

(** Nothing staged and nothing left of an old epoch. *)
Definition idle (s : Epochs.GuardianEpochStore) : Prop :=
  Epochs.wf hex_encode s ∧ Epochs.ges_prepared s = None ∧ Epochs.ges_draining s = ∅.

(** The store of an active guardian: the one record it has is of the current
    epoch. *)
Definition serving (ref : ConfigRef) (hash : Id32) (s : Epochs.GuardianEpochStore) : Prop :=
  idle s ∧ ∃ record, Epochs.ges_active s = Some record ∧ Epochs.record_config record = ref
    ∧ Epochs.ges_active_capsule_hash s = Some hash.

(** Of all others, which have no record. *)
Definition retired (s : Epochs.GuardianEpochStore) : Prop :=
  idle s ∧ Epochs.ges_active s = None.

Record stores_ok (active : list u16) (ref : ConfigRef) (hash : Id32) (stores : Stores) : Prop := {
  so_active : NoDup active;
  so_serving id : id ∈ active → ∃ s, stores !! id = Some s ∧ serving ref hash s;
  so_retired id s : stores !! id = Some s → id ∉ active → retired s
}.
Definition world_ok (world : RotationWorld) : Prop :=
  stores_ok (rw_active_ids world) (rw_current_ref world) (rw_current_capsule_hash world)
    (rw_stores world).

(** ** The switch to a successor *)

Lemma insert_sorted_perm id ids : insert_sorted id ids ≡ₚ id :: ids.
Proof.
  induction ids as [|x ids IH]; simpl; [done |]. destruct (id <=? x)%N; [done |].
  by rewrite IH, Permutation_swap.
Qed.

Lemma successor_ids_perm active removed added :
  successor_ids_of active removed added ≡ₚ filter (λ id, id ≠ removed) active ++ [added].
Proof.
  unfold successor_ids_of. induction (filter _ active ++ [added]) as [|x l IH]; simpl; [done |].
  by rewrite insert_sorted_perm, IH.
Qed.

Lemma elem_of_successor_ids active removed added id :
  id ∈ successor_ids_of active removed added ↔ id ∈ active ∧ id ≠ removed ∨ id = added.
Proof. rewrite successor_ids_perm, elem_of_app, list_elem_of_filter. set_solver. Qed.

Section switch.
Context (world : RotationWorld) (p : Planned) (removed added : u16).
Context (records : list (u16 * GuardianRecordV3)) (qc : EpochActivationQc) (qc_hash : Id32).
Context (deadline : u64).
Let ref := rw_current_ref world.
Let successor := plan_successor (pl_plan p).
Let hash := qc_successor_capsule_hash qc.
Let stores := rw_stores world.
Let active := rw_active_ids world.
Let ids := pl_successor_ids p.
Hypothesis Hworld : world_ok world.
Hypothesis Hids : ids = successor_ids_of active removed added.
Hypothesis Hnew : cr_guardian_epoch successor ≠ cr_guardian_epoch ref.
Hypothesis Hqc : qc_predecessor_epoch qc = cr_guardian_epoch ref.
Hypothesis Hrecords :
  ∀ id record, BTree.get id records = Some record → Epochs.record_config record = successor.

(** What the record of the old epoch leaves: one draining entry. *)
Definition drains (s : Epochs.GuardianEpochStore) : Prop :=
  ∃ d, Epochs.ges_draining s = {[cr_guardian_epoch ref := d]}.

(** A successor's store once it is activated. *)
Definition switched (id : u16) (s : Epochs.GuardianEpochStore) : Prop :=
  Epochs.wf hex_encode s ∧ Epochs.ges_prepared s = None
  ∧ Epochs.ges_expected_predecessor s = successor
  ∧ (∃ record, Epochs.ges_active s = Some record ∧ Epochs.record_config record = successor
      ∧ Epochs.ges_active_capsule_hash s = Some hash)
  ∧ (id ∈ active → drains s) ∧ (id ∉ active → Epochs.ges_draining s = ∅).

(** The store that a successor starts from. *)
Lemma candidate_ok id :
  let s := candidate world stores id in
  idle s ∧ (id ∈ active → ∃ record, Epochs.ges_active s = Some record
    ∧ Epochs.record_config record = ref) ∧ (id ∉ active → Epochs.ges_active s = None).
Proof using Hworld.
  unfold candidate. destruct Hworld as [_ Hs Hr]. destruct (decide (id ∈ active)) as [Hid | Hid].
  - destruct (Hs id Hid) as (s & E & Hi & record & Ha & Hc & _). unfold stores. rewrite E.
    split_and!; [done | by exists record | done].
  - destruct (stores !! id) as [s|] eqn:E.
    + destruct (Hr id s E Hid) as [Hi Ha]. by split_and!.
    + split_and!; [| done | done]. split; [apply Epochs.wf_new_candidate | done].
Qed.

Lemma activated_switched (stores1 : Stores) id s t s' :
  prepares world p stores stores1 records id → stores1 !! id = Some s →
  Epochs.activate_successor hex_encode s (ctx_rotation_id (pl_context p)) (pl_plan_hash p) qc
    qc_hash deadline ∅ = (Ok t, s') →
  switched id s'.
Proof using Hworld Hrecords.
  intros (record & journal & generation & s1 & Hg & Hp & Hs1) Hs Ha.
  rewrite Hs in Hs1. injection Hs1 as <-.
  destruct (candidate_ok id) as ((Hwf & _ & Hd) & Hin & Hout).
  assert (Hwf1 : Epochs.wf hex_encode s).
  { refine (Epochs.wf_step hex_encode _ (Epochs.OpPrepare _ _ record journal) (Ok ()) s Hwf _).
    simpl. by rewrite Hp. }
  apply Epochs.prepare_successor_cases in Hp as [(e & [=] & _) | (_ & _ & _ & _ & _ & _ & _ & E)].
  assert (Hwf2 := Epochs.wf_step hex_encode s (Epochs.OpActivate _ _ qc qc_hash deadline ∅) _ s' Hwf1 Ha).
  apply Epochs.store_activate_successor_cases in Ha
    as [(e & [=] & _) | (q & _ & (Hq & _) & ->)]; [| done].
  rewrite E in Hq. injection Hq as <-. split_and!; [done | done | | | |].
  - exact (Hrecords id record Hg).
  - eexists. split_and!; [reflexivity | exact (Hrecords id record Hg) | reflexivity].
  - intros Hid. destruct (Hin Hid) as (old & Ho & Hc). unfold drains.
    rewrite E. cbn. rewrite Ho, Hd, Hc. by eexists.
  - intros Hid. rewrite E. cbn. by rewrite (Hout Hid).
Qed.

(** The removed guardian is an active one that is not among the successors,
    and its store drains its record. *)
Lemma observed_drains (stores2 : Stores) s t s' :
  (∀ id, id ∈ ids → ∃ s, stores2 !! id = Some s ∧ switched id s) →
  (∀ id, id ∉ ids → stores2 !! id = stores !! id) →
  stores2 !! removed = Some s →
  Epochs.observe_replacement_activation hex_encode s (ctx_rotation_id (pl_context p))
    (pl_plan_hash p) qc qc_hash deadline ∅ = (Ok t, s') →
  (removed ∈ active) ∧ (removed ∉ ids)
  ∧ Epochs.wf hex_encode s' ∧ Epochs.ges_prepared s' = None ∧ Epochs.ges_active s' = None
  ∧ drains s'.
Proof using Hworld Hnew Hqc.
  intros Hin Hout Hs Ho.
  assert (Hrem : removed ∉ ids).
  { intros Hid. destruct (Hin _ Hid) as (s0 & Hs0 & _ & Hp & He & (record & Ha & _) & _).
    rewrite Hs in Hs0. injection Hs0 as <-. revert Ho.
    unfold Epochs.observe_replacement_activation. rewrite Hp, Ha, He, Hqc.
    rewrite (bool_decide_eq_true_2 (cr_guardian_epoch ref ≠ cr_guardian_epoch successor)) by done.
    rewrite orb_true_r. by intros [=]. }
  rewrite Hout in Hs by done. destruct Hworld as [_ Hserving Hretired].
  assert (Hact : removed ∈ active).
  { destruct (decide (removed ∈ active)) as [| Hna]; [done |].
    destruct (Hretired _ _ Hs Hna) as [(_ & _ & _) Ha]. revert Ho.
    unfold Epochs.observe_replacement_activation. rewrite Ha.
    rewrite (bool_decide_eq_true_2 (None = None)), orb_true_r by done. by intros [=]. }
  destruct (Hserving _ Hact) as (s0 & Hs0 & (Hwf & Hp & Hd) & record & Ha & Hc & Hh).
  unfold stores in Hs. rewrite Hs in Hs0. injection Hs0 as <-.
  assert (Hwf' := Epochs.wf_step hex_encode s
    (Epochs.OpObserve _ _ qc qc_hash deadline ∅) _ s' Hwf Ho).
  apply Epochs.observe_replacement_activation_cases in Ho
    as [(e & [=] & _) | (old & h & _ & Ho & _ & _ & ->)]; [| done].
  rewrite Ha in Ho. injection Ho as <-. split_and!; try done.
  unfold drains. cbn. rewrite Hd, Hc. by eexists.
Qed.

(** Retiring the old epoch leaves nothing of it. *)
Lemma retired_idle s now t s' :
  Epochs.wf hex_encode s → Epochs.ges_prepared s = None → drains s →
  Epochs.retire_epoch s (cr_guardian_epoch ref) now = (Ok t, s') →
  idle s' ∧ Epochs.ges_active s' = Epochs.ges_active s
  ∧ Epochs.ges_active_capsule_hash s' = Epochs.ges_active_capsule_hash s.
Proof.
  intros Hwf Hp [d Hd] H.
  assert (Hwf' : Epochs.wf hex_encode s').
  { refine (Epochs.wf_step hex_encode _ (Epochs.OpRetire (cr_guardian_epoch ref) now) (Ok ()) s'
      Hwf _). simpl. by rewrite H. }
  apply Epochs.retire_epoch_cases in H as [(e & [=] & _) | (d' & _ & _ & _ & _ & ->)].
  split_and!; try done. split_and!; [done | done |]. cbn. rewrite Hd. apply delete_singleton_eq.
Qed.

Lemma switch_stores_ok acks records' dpss built (stores1 stores2 : Stores) machine machine' :
  records = br_records built →
  prepare_guardians world p dpss built ids (br_records built) stores = Ok (acks, records', stores1) →
  switch_stores world p removed qc qc_hash deadline machine stores1 = Ok (stores2, machine') →
  (removed ∈ active) ∧ stores_ok ids successor hash stores2.
Proof using Hworld Hids Hnew Hqc Hrecords.
  intros Hb (Hnd & Hprep & Hsame)%prepare_guardians_Ok H. rewrite <- Hb in Hprep.
  unfold switch_stores in H.
  apply bind_Ok in H as (st1 & Ha & H). fold ids in Ha.
  apply store_transactions_Ok in Ha as [Hact Hkeep]; [| done].
  apply bind_Ok in H as ([t st2] & (s & s' & Hs & Ho & ->)%store_transaction_Ok & H).
  apply bind_Ok in H as ([acts m1] & _ & H).
  apply bind_Ok in H as (st3 & Hr & H). apply bind_Ok in H as ([acts' m2] & _ & [= <- <-]).
  assert (Hsw : ∀ id, id ∈ ids → ∃ s, st1 !! id = Some s ∧ switched id s).
  { intros id Hid. destruct (Hact id Hid) as (s1 & t1 & s2 & Hs1 & Hf & Hs2).
    exists s2. split; [done |]. by eapply activated_switched; [apply Hprep | |]. }
  assert (Hother : ∀ id, id ∉ ids → st1 !! id = stores !! id)
    by (intros id Hid; by rewrite Hkeep, Hsame).
  destruct (observed_drains st1 s t s' Hsw Hother Hs Ho) as (Hra & Hri & Hwf & Hp & Hn & Hd).
  apply store_transactions_Ok in Hr as [Hret Hkept]; [| by destruct Hworld].
  split; [done |]. split; [done | |].
  - intros id Hid. assert (id ≠ removed) by (by intros ->).
    destruct (Hsw id Hid) as (s1 & Hs1 & Hwf1 & Hp1 & _ & (record & Ha1 & Hc1 & Hh1) & Hin & Hout).
    destruct (decide (id ∈ active)) as [Hia | Hia].
    + destruct (Hret id Hia) as (s2 & t2 & s3 & Hs2 & Hf & Hs3).
      rewrite lookup_insert_ne, Hs1 in Hs2 by done. injection Hs2 as <-.
      destruct (retired_idle _ _ _ _ Hwf1 Hp1 (Hin Hia) Hf) as (Hi & E1 & E2).
      exists s3. split; [done |]. split; [done |]. exists record. by rewrite E1, E2.
    + exists s1. rewrite Hkept, lookup_insert_ne by done. split; [done |].
      split; [| by exists record]. split_and!; [done | done | by apply Hout].
  - intros id s1 Hs1 Hid. destruct (decide (id = removed)) as [-> | Hne].
    + destruct (Hret removed Hra) as (s2 & t2 & s3 & Hs2 & Hf & Hs3).
      rewrite lookup_insert_eq in Hs2. injection Hs2 as <-. rewrite Hs1 in Hs3.
      injection Hs3 as <-. destruct (retired_idle _ _ _ _ Hwf Hp Hd Hf) as (Hi & E1 & _).
      split; [done | by rewrite E1].
    + assert (Hia : id ∉ active).
      { intros Hia. apply Hid. rewrite Hids. apply elem_of_successor_ids. by left. }
      rewrite Hkept, lookup_insert_ne, Hother in Hs1 by done. destruct Hworld as [_ _ Hretired].
      by apply (Hretired id).
Qed.

End switch.

(** ** One rotation *)

Lemma sim_plan_rotation_Ok world options removed added rng p rng' :
  plan_rotation world options removed added rng = (Ok p, rng') →
  pl_successor_ids p = successor_ids_of (rw_active_ids world) removed added
  ∧ cr_guardian_epoch (plan_successor (pl_plan p))
    = U64 (cr_guardian_epoch (rw_current_ref world) + 1).
Proof.
  unfold plan_rotation. intros H. draws_to H r0 Hr. draws_to H s0 Hs. draws_to H c0 Hc.
  draws_to H auth0 Ha. destruct auth0 as [intent_hash a]. draws_to H same0 Hsame.
  draws_to H b0 Hb. draws_to H routes0 Hro. draws_to H old0 Hold. draws_to H new0 Hnew.
  draws_to H session0 Hse. draws_to H t0 Ht. by injection H as <- <-.
Qed.

Lemma next_epoch_differs (e : u64) : U64 (e + 1) ≠ e.
Proof.
  intros E%(f_equal uval). pose proof (uint_lt e) as Hlt. revert E.
  change (uval (U64 (e + 1))) with ((e + 1) mod 2 ^ 64)%N.
  destruct (N.eq_dec (e + 1) (2 ^ 64)) as [E | Hne].
  - rewrite E, N.Div0.mod_same. intros E'. rewrite <- E' in E. done.
  - rewrite N.mod_small by lia. lia.
Qed.

(** What one rotation keeps and what it moves on. *)
Definition moved_on (world world' : RotationWorld) (removed added : u16) : Prop :=
  world_ok world'
  ∧ rw_active_ids world' = successor_ids_of (rw_active_ids world) removed added
  ∧ cr_guardian_epoch (rw_current_ref world')
    = U64 (cr_guardian_epoch (rw_current_ref world) + 1)
  ∧ rw_dek_commitment world' = rw_dek_commitment world
  ∧ rw_plaintext_decryptions_during_rotation world'
    = rw_plaintext_decryptions_during_rotation world.

Lemma activate_rotation_Ok world ordinal removed added p machine dpss built capsule world' :
  world_ok world →
  pl_successor_ids p = successor_ids_of (rw_active_ids world) removed added →
  cr_guardian_epoch (plan_successor (pl_plan p))
    = U64 (cr_guardian_epoch (rw_current_ref world) + 1) →
  (∀ id record, BTree.get id (br_records built) = Some record →
    Epochs.record_config record = plan_successor (pl_plan p)) →
  activate_rotation world ordinal removed p machine dpss built capsule = Ok world' →
  moved_on world world' removed added.
Proof.
  intros Hw Hids He Hrec H. unfold activate_rotation in H.
  apply bind_Ok in H as ([[prepared records] stores] & Hprep & H).
  apply bind_Ok in H as (_ & _ & H). apply bind_Ok in H as ([acts0 m0] & _ & H).
  apply bind_Ok in H as (handoffs & _ & H). apply bind_Ok in H as ([cert ah] & _ & H).
  apply bind_Ok in H as ([acts1 m1] & _ & H). apply bind_Ok in H as (acc & _ & H).
  apply bind_Ok in H as (qct & _ & H). apply bind_Ok in H as ([acts2 m2] & _ & H).
  apply bind_Ok in H as (body & _ & H). apply bind_Ok in H as (_ & _ & H).
  apply bind_Ok in H as ([stores' m3] & Hsw & [= <-]).
  assert (Hnew := next_epoch_differs (cr_guardian_epoch (rw_current_ref world))).
  rewrite <- He in Hnew.
  destruct (switch_stores_ok world p removed added (br_records built)
    (quorum_of world p capsule ah acc.*1) _ _ Hw Hids Hnew eq_refl
    Hrec _ _ _ _ _ _ _ _ eq_refl Hprep Hsw) as [_ Hok].
  by split_and!.
Qed.

Lemma rotate_once_Ok world options ordinal removed added rng outcome events rng' :
  world_ok world →
  rotate_once world options ordinal removed added rng = (Ok (outcome, events), rng') →
  match outcome with
  | RotationCancelled world' => world' = world ∧ rdo_cancel_rotation_at options = Some ordinal
  | RotationFailed world' => world' = world ∧ rdo_fail_preparation_at options = Some ordinal
  | RotationDone world' => moved_on world world' removed added
  end.
Proof.
  intros Hw H. unfold rotate_once in H. draws_to H p0 Hp.
  apply sim_plan_rotation_Ok in Hp as [Hids He]. draws_to H begun0 Hb.
  destruct begun0 as [machine begin_hash]. case_bool_decide as Hcancel.
  { draws_to H acts0 Ha. destruct acts0 as [actions m]. draws_to H u0 Hu. by injection H as <- <-. }
  draws_to H m1 Hm. draws_to H repaired0 Hre. destruct repaired0 as [[old fragments] root].
  apply SR_bind_Ok in H as (dpss & rng1 & Hd & H). destruct dpss as [dpss |].
  - draws_to H built0 Hbu. draws_to H capsule0 Hca. draws_to H world0 Hwo.
    injection H as <- <- <-. eapply activate_rotation_Ok; [done | done | done | | done].
    intros key record Hg%BTree.elem_of_get. exact (build_records_config _ _ _ _ _ _ _ _ _ _ Hbu _ Hg).
  - draws_to H acts0 Ha. injection H as <- <- <-. unfold caught in Hd.
    destruct (dpss_replace_and_refresh _ _ _ _ _ _ _) as [[y | e] rng2]; [done |].
    split; [done |]. case_bool_decide; [done |]. by injection Hd.
Qed.

(** ** Setup *)

Lemma make_routes_ids ids epoch rng routes rng' :
  make_routes ids epoch rng = (Ok routes, rng') → gr3_guardian_index <$> routes = ids.
Proof.
  revert rng routes rng'. induction ids as [|id0 ids IH]; intros rng routes rng' H.
  - by injection H as <- <-.
  - cbn [make_routes] in H. draws_to H s0 Hs. draws_to H o0 Ho. draws_to H m0 Hm.
    draws_to H r0 Hr. injection H as <- <-. cbn. f_equal. by eapply IH.
Qed.

Lemma build_each_keys authorization_key policy shares fragments public offset routes records rng
    records' rng' key :
  build_each authorization_key policy shares fragments public offset routes records rng
    = (Ok records', rng') →
  key ∈ records'.*1 ↔ key ∈ gr3_guardian_index <$> routes ∨ key ∈ records.*1.
Proof.
  revert offset records rng. induction routes as [|route routes IH];
    intros offset records rng H.
  - injection H as <- <-. set_solver.
  - cbn [build_each] in H. draws_to H record0 Hrec. apply IH in H. rewrite H, BTree.keys_insert.
    cbn. set_solver.
Qed.

Lemma commit_records_keys root records leaves proofs leaf_map records' leaf_map' :
  commit_records root records leaves proofs leaf_map = (records', leaf_map') →
  records'.*1 = records.*1.
Proof.
  revert leaves proofs leaf_map records'. induction records as [|[k r] records IH];
    intros leaves proofs leaf_map records' H; [by injection H as <- <- |].
  destruct leaves as [|leaf leaves]; [by injection H as <- <- |].
  destruct proofs as [|proof proofs]; [by injection H as <- <- |].
  cbn [commit_records] in H. destruct (commit_records _ _ _ _ _) as [rs lm] eqn:E.
  injection H as <- <-. cbn. f_equal. by eapply IH.
Qed.

Lemma build_records_keys authorization_key ref hash routes shares fragments public rng built
    rng' key :
  build_records authorization_key ref hash routes shares fragments public rng = (Ok built, rng') →
  key ∈ (br_records built).*1 ↔ key ∈ gr3_guardian_index <$> routes.
Proof.
  unfold build_records. intros H. draws_to H u0 Hu. draws_to H d0 Hd. draws_to H records0 Hr.
  draws_to H leaves0 Hl. draws_to H hashes0 Hh. draws_to H tree0 Ht.
  destruct tree0 as [root0 proofs0]. destruct (commit_records _ _ _ _ _) as [rs lm] eqn:E.
  injection H as <- <-. cbn. rewrite (commit_records_keys _ _ _ _ _ _ _ E).
  rewrite (build_each_keys _ _ _ _ _ _ _ _ _ _ _ key Hr). set_solver.
Qed.

Lemma setup_world_Ok options rng world rng' :
  setup_world options rng = (Ok world, rng') →
  world_ok world ∧ rw_active_ids world = indices GUARDIAN_COUNT
  ∧ cr_guardian_epoch (rw_current_ref world) = U64 1
  ∧ rw_plaintext_decryptions_during_rotation world = U64 0.
Proof.
  unfold setup_world. intros H. draws_to H a0 Ha. draws_to H s0 Hs. draws_to H as0 Has.
  draws_to H signers0 Hsi. draws_to H ds0 Hds. draws_to H dealer0 Hde. draws_to H dek0 Hdek.
  draws_to H cid0 Hcid. draws_to H bind0 Hbi. draws_to H ctx0 Hctx. draws_to H n0 Hn.
  draws_to H payload0 Hpa. draws_to H fr0 Hfr. draws_to H com0 Hcom. draws_to H routes0 Hro.
  draws_to H built0 Hbu. draws_to H capsule0 Hca. injection H as <- <-.
  apply make_routes_ids in Hro.
  assert (Hkeys := λ key, build_records_keys _ _ _ _ _ _ _ _ _ _ key Hbu). rewrite Hro in Hkeys.
  assert (Hnd : NoDup (indices GUARDIAN_COUNT)) by (apply (bool_decide_unpack _); by vm_compute).
  split_and!; [| done..]. split; cbn [rw_active_ids rw_stores rw_current_ref rw_current_capsule_hash].
  - exact Hnd.
  - intros id Hid. destruct (list_to_map _ !! id) as [s|] eqn:E.
    + exists s. split; [done |]. apply elem_of_list_to_map_2, list_elem_of_fmap in E
        as ([k record] & [= -> ->] & He).
      split; [split_and!; [apply Epochs.wf_new | done | done] |].
      eexists. split_and!; [reflexivity | | reflexivity].
      exact (build_records_config _ _ _ _ _ _ _ _ _ _ Hbu _ He).
    + apply not_elem_of_list_to_map_2 in E. destruct E. apply Hkeys in Hid.
      rewrite <- list_fmap_compose. revert Hid. generalize (br_records built0). intros l Hl.
      apply list_elem_of_fmap in Hl as ([k r] & -> & Hl). apply list_elem_of_fmap.
      by exists (k, r).
  - intros id s Hst Hid. apply elem_of_list_to_map_2, list_elem_of_fmap in Hst
      as ([k record] & [= -> ->] & He). destruct Hid. apply Hkeys.
    apply (list_elem_of_fmap_2 fst) in He. exact He.
Qed.

(** ** The loop over the replacements *)

Definition replace_all (active : list u16) (replacements : list (u16 * u16)) : list u16 :=
  foldl (λ ids e, successor_ids_of ids e.1 e.2) active replacements.

(** What the loop has done of [replacements] from [start] on: all up to a
    first that was cancelled or failed, if there is one. *)
Record looped (options : RotationDemoOptions) (ordinal : N) (replacements : list (u16 * u16))
    (start p : Progress) (finished rest : list (u16 * u16)) : Prop := {
  lo_split : replacements = finished ++ rest;
  lo_completed : pr_completed p = (pr_completed start + len finished)%N;
  lo_retired : pr_retired p = pr_retired start ++ finished.*1;
  lo_active : rw_active_ids (pr_world p) = replace_all (rw_active_ids (pr_world start)) finished;
  lo_epoch : cr_guardian_epoch (rw_current_ref (pr_world p))
    = U64 (cr_guardian_epoch (rw_current_ref (pr_world start)) + len finished);
  lo_dek : rw_dek_commitment (pr_world p) = rw_dek_commitment (pr_world start);
  lo_decryptions : rw_plaintext_decryptions_during_rotation (pr_world p)
    = rw_plaintext_decryptions_during_rotation (pr_world start);
  lo_stopped :
    rest = [] ∧ pr_cancelled p = pr_cancelled start ∧ pr_failed p = pr_failed start
    ∨ rest ≠ [] ∧ (pr_cancelled p = true ∧ pr_failed p = pr_failed start
          ∧ rdo_cancel_rotation_at options = Some (ordinal + len finished)%N
        ∨ pr_failed p = true ∧ pr_cancelled p = pr_cancelled start
          ∧ rdo_fail_preparation_at options = Some (ordinal + len finished)%N);
  lo_world : world_ok (pr_world p)
}.

Lemma rotate_all_Ok options ordinal replacements start rng p rng' :
  world_ok (pr_world start) →
  rotate_all options ordinal replacements start rng = (Ok p, rng') →
  ∃ finished rest, looped options ordinal replacements start p finished rest.
Proof.
  revert ordinal start rng. induction replacements as [|[removed added] replacements IH];
    intros ordinal start rng Hw H.
  { injection H as <- <-. exists [], []. split; try done.
    - unfold len. cbn. lia.
    - by rewrite app_nil_r.
    - unfold len. cbn [length]. rewrite N.add_0_r. symmetry. apply to_uint_uval.
    - by left. }
  cbn [rotate_all] in H. draws_to H outcome0 Ho. destruct outcome0 as [outcome events].
  apply rotate_once_Ok in Ho; [| done]. destruct outcome as [world' | world' | world'].
  - destruct Ho as [-> Ho]. draws_to H u0 Hu. injection H as <- <-.
    exists [], ((removed, added) :: replacements).
    assert (Hz : (ordinal + len (@nil (u16 * u16)))%N = ordinal) by (unfold len; cbn; lia).
    split; cbn; try done.
    + unfold len. cbn. lia.
    + by rewrite app_nil_r.
    + unfold len. cbn [length]. rewrite N.add_0_r. symmetry. apply to_uint_uval.
    + right. split; [done |]. left. by rewrite orb_true_r, orb_false_r, Hz.
  - destruct Ho as [-> Ho]. draws_to H u0 Hu. injection H as <- <-.
    exists [], ((removed, added) :: replacements).
    assert (Hz : (ordinal + len (@nil (u16 * u16)))%N = ordinal) by (unfold len; cbn; lia).
    split; cbn; try done.
    + unfold len. cbn. lia.
    + by rewrite app_nil_r.
    + unfold len. cbn [length]. rewrite N.add_0_r. symmetry. apply to_uint_uval.
    + right. split; [done |]. right. by rewrite orb_true_r, orb_false_r, Hz.
  - destruct Ho as (Hw' & Ha & He & Hd & Hn).
    apply IH in H as (finished & rest & [Hs Hc Hre Hac Hep Hde Hpl Hst Hwo]); [| exact Hw'].
    cbn [pr_world pr_completed pr_retired pr_cancelled pr_failed] in *.
    exists ((removed, added) :: finished), rest.
    assert (Hl : len ((removed, added) :: finished) = (1 + len finished)%N)
      by (unfold len; cbn [length]; lia).
    split; try done.
    + by rewrite Hs.
    + rewrite Hc, Hl. lia.
    + by rewrite Hre, <- (assoc_L (++)).
    + by rewrite Hac, Ha.
    + rewrite Hep, He, Hl. apply uint_eq. unfold U64. cbn [uval to_uint].
      rewrite N.Div0.add_mod_idemp_l. f_equal. lia.
    + by rewrite Hde.
    + by rewrite Hpl.
    + rewrite Hl. replace (ordinal + (1 + len finished))%N with (ordinal + 1 + len finished)%N by lia.
      exact Hst.
Qed.

(** ** Properties *)

(** C34 (invariant): however many rotations have been run from setup, and whether
    the last one was cancelled or failed, the store of every active guardian
    has exactly one record, of the current epoch and capsule, and every other
    store has none: nothing of an earlier epoch is active, staged or draining
    anywhere.  The active guardians are those of setup with each finished
    replacement made. *)
Theorem rotations_leave_no_old_record options events rng world rng1 p rng2 :
  setup_world options rng = (Ok world, rng1) →
  rotate_all options 0 (rdo_replacements options) {|
    pr_world := world; pr_completed := 0; pr_retired := []; pr_cancelled := false;
    pr_failed := false; pr_events := events |} rng1 = (Ok p, rng2) →
  let world' := pr_world p in
  NoDup (rw_active_ids world')
  ∧ (∀ id store, rw_stores world' !! id = Some store →
      Epochs.ges_prepared store = None ∧ Epochs.ges_draining store = ∅
      ∧ if bool_decide (id ∈ rw_active_ids world')
        then Epochs.ges_active_capsule_hash store = Some (rw_current_capsule_hash world')
             ∧ Epochs.record_config <$> Epochs.ges_active store = Some (rw_current_ref world')
        else Epochs.ges_active store = None)
  ∧ (∀ id, id ∈ rw_active_ids world' → is_Some (rw_stores world' !! id))
  ∧ ∃ finished, finished `prefix_of` rdo_replacements options
      ∧ pr_completed p = len finished
      ∧ rw_active_ids world' = replace_all (indices GUARDIAN_COUNT) finished
      ∧ cr_guardian_epoch (rw_current_ref world') = U64 (1 + len finished).
Proof.
  intros (Hw & Ha & He & _)%setup_world_Ok (finished & rest & Hl)%rotate_all_Ok; [| exact Hw].
  destruct Hl as [Hs Hc _ Hac Hep _ _ _ [Hnd Hserving Hretired]]. split_and!.
  - exact Hnd.
  - intros id store Hst. case_bool_decide as Hid.
    + destruct (Hserving id Hid) as (s & E & (_ & Hp & Hd) & record & Hact & Hrc & Hh).
      rewrite Hst in E. injection E as <-. rewrite Hact. cbn. by rewrite Hrc.
    + destruct (Hretired id store Hst Hid) as [(_ & Hp & Hd) Hact]. by split_and!.
  - intros id Hid. destruct (Hserving id Hid) as (s & -> & _). by eexists.
  - exists finished. cbn in Hc, Hac, Hep. split_and!; [by exists rest | lia | by rewrite Hac, Ha |].
    by rewrite Hep, He.
Qed.

(** C36 (functional): a run of the rotation simulator that ends with a result has
    made the replacements that it was asked for, in order, up to the one that
    was to be cancelled or to fail; every finished rotation is one epoch.  The
    release of the cancelled recovery request and the early release of the
    other were refused, and the run counts as a success exactly when the
    recovered secret is the one of the options and the key is still that of
    setup. *)
Theorem rotation_demo_outcome `{!SimPrimitives} options r :
  run_rotation_demo options = Ok r →
  validate options = Ok ()
  ∧ rdr_owner_cancel_enforced r = true ∧ rdr_early_release_rejected r = true
  ∧ rdr_success r = bool_decide (rdr_final_recovered_secret r = Some (rdo_secret options))
      && rdr_dek_preserved r
  ∧ ∃ finished rest, rdo_replacements options = finished ++ rest
      ∧ rdr_rotations_completed r = len finished
      ∧ rdr_retired_guardians r = finished.*1
      ∧ rdr_active_guardians r = replace_all (indices GUARDIAN_COUNT) finished
      ∧ rdr_initial_guardian_epoch r = U64 1
      ∧ rdr_final_guardian_epoch r = U64 (1 + len finished)
      ∧ (rest = [] ∧ rdr_cancelled_safely r = false ∧ rdr_preparation_failed_safely r = false
         ∨ rest ≠ [] ∧ (rdr_cancelled_safely r = true ∧ rdr_preparation_failed_safely r = false
               ∧ rdo_cancel_rotation_at options = Some (len finished)
             ∨ rdr_preparation_failed_safely r = true ∧ rdr_cancelled_safely r = false
               ∧ rdo_fail_preparation_at options = Some (len finished))).
Proof.
  unfold run_rotation_demo. intros ([] & Hval & Hrun)%bind_Ok. split; [done |].
  destruct (rotation_body options _) as [res rng'] eqn:Hbody. simpl in Hrun. subst res.
  unfold rotation_body in Hbody. draws_to Hbody world0 Hw.
  apply setup_world_Ok in Hw as (Hw & Ha & He & Hn). draws_to Hbody p0 Hp.
  apply rotate_all_Ok in Hp as (finished & rest & [Hs Hc Hre Hac Hep Hde Hpl Hst _]); [| exact Hw].
  cbn [pr_world pr_completed pr_retired pr_cancelled pr_failed] in *.
  draws_to Hbody final0 Hf. destruct final0 as [[[recovered early] enforced] dek].
  injection Hbody as <- <-. unfold final_recovery in Hf.
  draws_to Hf request0 Hr. draws_to Hf cancel0 Hca. destruct cancel0 as [enforced' machine].
  draws_to Hf request1 Hr'. draws_to Hf early0 Hea. draws_to Hf payload0 Hpay.
  destruct payload0 as [recovered' dek']. injection Hf as <- <- <- <- _.
  apply check_cancel_refused in Hca as ->. apply check_delay_refused in Hea as ->.
  cbn. rewrite Hpl, Hn, He. split_and!; [done | done | |].
  - rewrite !andb_true_r. f_equal. apply bool_decide_ext. split; [by intros -> | by intros [= ->]].
  - exists finished, rest. rewrite Hc, Hre, Hac, Ha, Hep, He. split_and!; try done.
Qed.

End props.

(** ** Witnesses *)

Import RotationSimScenario.

Definition one_of_two : RotationDemoOptions :=
  rotation_demo [(U16 4, U16 9); (U16 2, U16 10)] (Some 1%N) None.

(** Guardian 4 is replaced by 9, then the second rotation is cancelled. *)
Lemma rotation_demo_outcome_witness :
  ∃ r, run_rotation_demo one_of_two = Ok r ∧ rdr_rotations_completed r = 1%N
    ∧ rdr_success r = true ∧ rdr_owner_cancel_enforced r = true.
Proof.
  assert (H : ∃ r, run_rotation_demo one_of_two = Ok r ∧ rdr_rotations_completed r = 1%N
    ∧ rdr_success r = true)
    by (eexists; split; [vm_compute; reflexivity | split; reflexivity]).
  destruct H as (r & H & Hc & Hs). exists r.
  destruct (rotation_demo_outcome _ _ H) as (_ & He & _).
  split; [exact H | split; [exact Hc | split; [exact Hs | exact He]]].
Defined.

(** The two steps of a run, and how many rotations they finish. *)
Definition rotated (options : RotationDemoOptions) (rng : Rng) :
    Result SimError (RotationWorld * Rng * Progress * Rng) :=
  match setup_world options rng with
  | (Err e, _) => Err e
  | (Ok world, rng1) =>
    match rotate_all options 0 (rdo_replacements options) {|
        pr_world := world; pr_completed := 0; pr_retired := []; pr_cancelled := false;
        pr_failed := false; pr_events := [] |} rng1 with
    | (Err e, _) => Err e
    | (Ok p, rng2) => Ok (world, rng1, p, rng2)
    end
  end.

Definition finished_count (options : RotationDemoOptions) (rng : Rng) : option N :=
  match rotated options rng with Ok (_, _, p, _) => Some (pr_completed p) | Err _ => None end.

Lemma finished_count_runs options rng n :
  finished_count options rng = Some n →
  ∃ world rng1 p rng2, setup_world options rng = (Ok world, rng1)
    ∧ rotate_all options 0 (rdo_replacements options) {|
        pr_world := world; pr_completed := 0; pr_retired := []; pr_cancelled := false;
        pr_failed := false; pr_events := [] |} rng1 = (Ok p, rng2)
    ∧ pr_completed p = n.
Proof.
  unfold finished_count, rotated. intros H.
  destruct (setup_world options rng) as [[world | e] rng1] eqn:E; [| done].
  destruct (rotate_all _ _ _ _ _) as [[p | e] rng2] eqn:E2; [| done].
  injection H as <-. by exists world, rng1, p, rng2.
Qed.

(** After the finished rotation of [one_of_two] the active guardians are those
    of setup with guardian 9 for guardian 4, at epoch 2. *)
Lemma rotations_leave_no_old_record_witness :
  ∃ world rng1 p rng2, setup_world one_of_two (chacha_from_u64 (rdo_seed one_of_two)) = (Ok world, rng1)
    ∧ rotate_all one_of_two 0 (rdo_replacements one_of_two) {|
        pr_world := world; pr_completed := 0; pr_retired := []; pr_cancelled := false;
        pr_failed := false; pr_events := [] |} rng1 = (Ok p, rng2)
    ∧ pr_completed p = 1%N ∧ NoDup (rw_active_ids (pr_world p)).
Proof.
  destruct (finished_count_runs one_of_two (chacha_from_u64 (rdo_seed one_of_two)) 1)
    as (world & rng1 & p & rng2 & Hs & Hr & Hn); [vm_compute; reflexivity |].
  exists world, rng1, p, rng2.
  destruct (rotations_leave_no_old_record _ _ _ _ _ _ _ Hs Hr) as (Hnd & _).
  split; [exact Hs | split; [exact Hr | split; [exact Hn | exact Hnd]]].
Defined.

(** The options may bring a retired guardian back, but its store still expects
    the successor of its own last epoch, so the run ends in an error. *)
Definition returning : RotationDemoOptions :=
  rotation_demo [(U16 4, U16 9); (U16 9, U16 4)] None None.

Lemma returning_guardian_rejected :
  validate returning = Ok ()
  ∧ run_rotation_demo returning = Err (SimStorage SErr_InvalidEpoch).
Proof. split; vm_compute; reflexivity. Qed.

End RotationSimProps.
