(* ===== verification/NodeShell.v ===== *)
(** What a node does besides its protocol (crates/gp-network/src/server.rs).

    Module [StateFiles]: the state files of a node, [save_json], [load_json]
    and [load_identity], and that [Persisted::save] as the nodes use it (Api.v)
    is what they do.

    serde_json is third-party code: its documents are the class
    [JsonDocuments], how a state type is written and read the class
    [StateJson], and what a node relies on [StateJsonLaws].  A file system is
    the contents of its readable files.

    Module [NodeShell]: a node's description, its health, and how a relay
    forwards sealed mailboxes.

    reqwest is the class [Forwarding]: an exchange may change the world and
    either cannot be made, or is answered with a status, a text and perhaps a
    sealed body. *)

From Stdlib Require Import Ascii.
From S2P Require Export Mailbox ClientNet.

Class JsonDocuments : Type := {
  Value : Type;
  value_from_slice : list byte → option Value;
  value_to_vec_pretty : Value → option (list byte);
  value_get : string → Value → option Value;
  value_as_u64 : Value → option u64;
  value_from_u64 : u64 → Value;
  (* as_object_mut *)
  is_object : Value → bool;
  object_insert : string → Value → Value → Value
}.

(** [Serialize], [DeserializeOwned] and [Default] of a state type. *)
Class StateJson `{JsonDocuments} (T : Type) : Type := {
  to_value : T → option Value;
  from_value : Value → option T;
  state_default : T
}.

(** What the system calls of one [save_json] do; where the process stops
    between two of them, the files are as after the one that failed. *)
Inductive SaveFate : Set :=
| DirectoryFailed
| OpenFailed
(* written, or not yet synced, up to so many bytes *)
| WriteFailed (written : nat)
| RenameFailed
| DirectorySyncFailed
| AllDone.

Module StateFiles.

Abbreviation Files := (gmap string (list byte)).

Definition STATE_SCHEMA_VERSION : u64 := U64 1.
Definition SCHEMA_VERSION_FIELD : string := "schema_version".

(** *** Paths *)

(** What is before and after the last dot. *)
Fixpoint last_dot (value : string) : option (string * string) :=
  match value with
  | EmptyString => None
  | String c rest =>
    match last_dot rest with
    | Some (stem, extension) => Some (String c stem, extension)
    | None => if bool_decide (c = "."%char) then Some (EmptyString, rest) else None
    end
  end.

(** [path.with_extension(extension)], for a path that ends in a file name: a
    dot in a directory's name, or at the start of the file's, begins no
    extension. *)
Definition file_stem_path (path : string) : string :=
  match last_dot path with
  | Some (stem, extension) =>
    if contains_slash extension || bool_decide (after_last_slash stem = EmptyString)
    then path else stem
  | None => path
  end.
Definition with_extension (path extension : string) : string :=
  file_stem_path path +:+ "." +:+ extension.

(** [path.parent().is_some()]. *)
Definition has_parent (path : string) : bool :=
  bool_decide (trim_end_slashes path ≠ EmptyString).

Section files.
Context `{JsonDocuments}.

(** *** Loading *)

(** The version a document carries; one without is of the current version. *)
Definition found_version (document : Value) : u64 :=
  default STATE_SCHEMA_VERSION (value_get SCHEMA_VERSION_FIELD document ≫= value_as_u64).

Definition load_json {T} `{!StateJson T} (path : string) (files : Files) : Result Error T :=
  match files !! path with
  | None => Ok state_default
  | Some bytes =>
    document ← ok_or (value_from_slice bytes) ESerde;
    _ ← fail_if (STATE_SCHEMA_VERSION <? found_version document)%mr
      (Msg "state file has a newer schema than this build understands; refusing to load because saving would drop unknown fields");
    ok_or (from_value document) ESerde
  end.

(** *** Saving *)

(** The document with its version, when it is an object. *)
Definition stamped (document : Value) : Value :=
  if is_object document
  then object_insert SCHEMA_VERSION_FIELD (value_from_u64 STATE_SCHEMA_VERSION) document
  else document.

Definition state_bytes {T} `{!StateJson T} (value : T) : option (list byte) :=
  document ← to_value value;
  value_to_vec_pretty (stamped document).

Definition save_json {T} `{!StateJson T} (path : string) (value : T) (fate : SaveFate)
    (files : Files) : Result Error () * Files :=
  if negb (has_parent path) then (Err (Msg "state path has no parent"), files) else
  let temporary := with_extension path "json.tmp" in
  match fate with
  | DirectoryFailed => (Err EIo, files)
  | _ =>
    match state_bytes value with
    | None => (Err ESerde, files)
    | Some bytes =>
      let renamed := <[path := bytes]> (delete temporary files) in
      match fate with
      | DirectoryFailed | OpenFailed => (Err EIo, files)
      | WriteFailed written => (Err EIo, <[temporary := take written bytes]> files)
      | RenameFailed => (Err EIo, <[temporary := bytes]> files)
      | DirectorySyncFailed => (Err EIo, renamed)
      | AllDone => (Ok (), renamed)
      end
    end
  end.

(** *** The identity of a node

    [identity] is what a new one would be; it is drawn from the system's
    generator. *)
Definition load_identity `{!StateJson IdentityDisk} (data_dir : string) (identity : IdentityDisk)
    (fate : SaveFate) (files : Files) : Result Error IdentityDisk * Files :=
  let path := data_dir +:+ "/identity.json" in
  match files !! path with
  | Some bytes =>
    (document ← ok_or (value_from_slice bytes) ESerde; ok_or (from_value document) ESerde, files)
  | None =>
    let '(r, files) := save_json path identity fate files in
    (_ ← r; Ok identity, files)
  end.

End files.

(** ** What the nodes rely on *)

Class StateJsonLaws `{JsonDocuments} (T : Type) `{!StateJson T} : Prop := {
  value_round_trip document bytes :
    value_to_vec_pretty document = Some bytes → value_from_slice bytes = Some document;
  version_read document (version := value_from_u64 STATE_SCHEMA_VERSION) :
    is_object document = true →
    value_get SCHEMA_VERSION_FIELD (object_insert SCHEMA_VERSION_FIELD version document)
    = Some version;
  version_number :
    value_as_u64 (value_from_u64 STATE_SCHEMA_VERSION) = Some STATE_SCHEMA_VERSION;
  (* a state is an object without that field, which its reader ignores *)
  states_are_objects value document :
    to_value value = Some document → is_object document = true;
  state_round_trip value document x :
    to_value value = Some document →
    from_value (object_insert SCHEMA_VERSION_FIELD x document) = Some value
}.

(** ** The temporary file is another file *)

Lemma last_dot_Some value stem extension :
  last_dot value = Some (stem, extension) →
  value = stem +:+ "." +:+ extension ∧ last_dot extension = None.
Proof.
  revert stem extension. induction value as [|c value IH]; intros stem extension H; [done |].
  cbn [last_dot] in H. destruct (last_dot value) as [[a b] |] eqn:E.
  - injection H as <- <-. destruct (IH _ _ eq_refl) as [-> ?]. done.
  - case_bool_decide as Hc; [| done]. injection H as <- <-. by subst c.
Qed.

Lemma string_app_longer a b : b ≠ EmptyString → a +:+ b ≠ a.
Proof. intros Hb. induction a as [|c a IH]; simpl; [done | intros E; injection E as E; by apply IH]. Qed.

Lemma string_app_inj a b c : a +:+ b = a +:+ c → b = c.
Proof. induction a as [|x a IH]; simpl; [done | intros E; injection E as E; by apply IH]. Qed.

Lemma temporary_elsewhere path : with_extension path "json.tmp" ≠ path.
Proof.
  unfold with_extension, file_stem_path.
  destruct (last_dot path) as [[stem extension] |] eqn:E; [| by apply string_app_longer].
  case_match; [by apply string_app_longer |].
  apply last_dot_Some in E as [-> Hx]. intros Heq.
  apply string_app_inj, (string_app_inj ".") in Heq. by rewrite <- Heq in Hx.
Qed.

(** ** What a file holds *)

Section files.
Context `{JsonDocuments} {T : Type} `{!StateJson T} `{!StateJsonLaws T}.

(** The bytes of a state are read back as the state. *)
Lemma load_state_bytes path (value : T) bytes files :
  state_bytes value = Some bytes → files !! path = Some bytes → load_json path files = Ok value.
Proof.
  unfold state_bytes, load_json. intros (document & Hd & Hb)%bind_Some ->.
  rewrite (value_round_trip _ _ Hb). simpl. pose proof (states_are_objects _ _ Hd) as Ho.
  unfold stamped, found_version. rewrite Ho, (version_read _ Ho). simpl.
  rewrite version_number. simpl. by rewrite (state_round_trip _ _ _ Hd).
Qed.

Lemma save_json_cases path (value : T) fate files r files' :
  save_json path value fate files = (r, files') →
  (∀ other, other ≠ path → other ≠ with_extension path "json.tmp" →
    files' !! other = files !! other)
  ∧ (r = Ok () ∨ ∃ e, r = Err e)
  ∧ (files' !! path = files !! path ∧ r ≠ Ok ()
     ∨ ∃ bytes, state_bytes value = Some bytes ∧ files' !! path = Some bytes).
Proof.
  pose proof (temporary_elsewhere path) as Ht. unfold save_json. intros Hs.
  case_match; [simplify_eq; by split_and!; [| by right; eexists | left] |].
  destruct fate, (state_bytes value) as [bytes |]; simplify_eq; split_and!;
    intros; rewrite ?lookup_insert_ne, ?lookup_delete_ne by congruence;
    eauto; try (by left); try (right; by eexists);
    right; exists bytes; by rewrite lookup_insert_eq.
Qed.

(** ** Properties *)

(** C32 (refinement): whatever happens during a save of a state file, and wherever
    the process stops in it, the file afterwards loads as the state before or
    as the new one, as the new one when the call succeeded; only that file and
    its temporary one change.  So every outcome of a save of state files is an
    outcome of [save_store], by which the nodes' handlers are modelled, and a
    start of the process is [reload]. *)
Theorem save_store_sound path (s : Persisted T) fate files r files' :
  load_json path files = Ok (file s) →
  save_json path (data s) fate files = (r, files') →
  ∃ outcome, let '(r', s') := save_store outcome s in
    (r = Ok () ↔ r' = Ok ())
    ∧ load_json path files' = Ok (file s')
    ∧ (r = Ok () → load_json path files' = Ok (data s))
    ∧ load_json path files' = Ok (data (reload s'))
    ∧ ∀ other, other ≠ path → other ≠ with_extension path "json.tmp" →
        files' !! other = files !! other.
Proof.
  intros Hl Hs. destruct (save_json_cases _ _ _ _ _ _ Hs) as (Hother & Hr & Hpath).
  destruct Hpath as [[Hsame Hne] | (bytes & Hb & Hpath)].
  - exists (SaveFailed false). cbn. unfold load_json in Hl |- *. rewrite Hsame. by split_and!.
  - pose proof (load_state_bytes _ _ _ _ Hb Hpath) as Hload.
    destruct Hr as [-> | [e ->]]; [exists Saved | exists (SaveFailed true)]; cbn; by split_and!.
Qed.

(** A file of a newer version is refused, whatever else it holds. *)
Lemma newer_state_refused path files bytes document :
  files !! path = Some bytes → value_from_slice bytes = Some document →
  (STATE_SCHEMA_VERSION < found_version document)%N →
  ∃ e, load_json (T := T) path files = Err e.
Proof.
  intros Hf Hd Hv%N.ltb_lt. unfold load_json, fail_if. rewrite Hf, Hd.
  cbn -[N.ltb STATE_SCHEMA_VERSION found_version]. rewrite Hv. by eexists.
Qed.

End files.

(** ** Witness *)

Section toy.

(** A document of one byte of data, and perhaps a version. *)
#[local] Instance toy_documents : JsonDocuments := {|
  Value := option u64 * option byte;
  value_from_slice := λ bytes,
    match bytes with
    | [d] => Some (None, Some d)
    | [d; v] => Some (Some (U64 (Byte.to_N v)), Some d)
    | _ => None
    end;
  value_to_vec_pretty := λ document,
    match document with
    | (None, Some d) => Some [d]
    | (Some v, Some d) =>
      if decide (v = STATE_SCHEMA_VERSION) then Some [d; x01] else None
    | _ => None
    end;
  value_get := λ field document,
    if bool_decide (field = SCHEMA_VERSION_FIELD) then (λ v, (Some v, None)) <$> document.1
    else None;
  value_as_u64 := fst;
  value_from_u64 := λ n, (Some n, None);
  is_object := λ document, bool_decide (is_Some document.2);
  object_insert := λ field x document,
    if bool_decide (field = SCHEMA_VERSION_FIELD) then (x.1, document.2) else document
|}.

#[local] Instance toy_state : StateJson byte := {|
  to_value := λ d, Some (None, Some d);
  from_value := snd;
  state_default := x00
|}.

#[local] Instance toy_laws : StateJsonLaws byte.
Proof.
  split.
  - intros [[v |] [d |]] bytes; cbn; try done; [| by intros [= <-]].
    case_decide as E; [| done]. subst v. by intros [= <-].
  - done.
  - done.
  - by intros value document [= <-].
  - by intros value document x [= <-].
Qed.

(** A second save stops while the temporary file is written. *)
Lemma save_store_sound_witness :
  let path := "/data/signer-state-v2.json"%string in
  let files := {[path := [x07; x01]]} : Files in
  let '(r, files') := save_json path x08 (WriteFailed 1) files in
  load_json (T := byte) path files = Ok x07
  ∧ r = Err EIo
  ∧ ∃ outcome, load_json path files'
      = Ok (file (save_store outcome {| data := x08; file := x07 |}).2).
Proof.
  set (path := "/data/signer-state-v2.json"%string). cbv zeta.
  destruct (save_json path x08 (WriteFailed 1) ({[path := [x07; x01]]} : Files)) as [r files'] eqn:E.
  assert (Hl : load_json (T := byte) path ({[path := [x07; x01]]} : Files) = Ok x07)
    by (vm_compute; reflexivity).
  assert (Hr : (save_json path x08 (WriteFailed 1) ({[path := [x07; x01]]} : Files)).1 = Err EIo)
    by (vm_compute; reflexivity).
  rewrite E in Hr. split; [exact Hl |]. split; [exact Hr |].
  destruct (save_store_sound path {| data := x08; file := x07 |} _ _ _ _ Hl E) as (outcome & Ho).
  exists outcome. destruct (save_store outcome _) as [r' s'] eqn:Es. by destruct Ho as (_ & Ho & _).
Defined.

End toy.

End StateFiles.

Inductive NodeRole : Set :=
| RoleRelay
| RoleConfigStore
| RoleSigner
| RoleGuardian
| RoleWitness.

Record Health : Set := mkHealth {
  he_status : string;
  he_role : string;
  he_node_id : string
}.

Record ServeConfig : Set := mkServeConfig {
  svc_role : NodeRole;
  svc_data_dir : string;
  svc_relay_token : string;
  svc_admin_token : string;
  svc_allow_insecure_demo_delay : bool;
  svc_auto_approve : bool;
  svc_corrupt_contribution : bool
}.

Inductive Exchanged : Set :=
| NotSent
| Answered (status : N) (message : option string) (body : option SealedMailboxBody).

Class Forwarding : Type := {
  Outside : Type;
  post_body : string → SealedMailboxBody → Outside → Exchanged * Outside
}.

(** An error of the relay itself, or one that it passes on with its status. *)
Inductive ForwardError : Set :=
| Refused (error : ApiError)
| Upstream (status : N) (message : string).

Module NodeShell.

(** ** Descriptions *)

Definition as_str (role : NodeRole) : string :=
  match role with
  | RoleRelay => "relay"
  | RoleConfigStore => "config_store"
  | RoleSigner => "signer"
  | RoleGuardian => "guardian"
  | RoleWitness => "witness"
  end.

Definition is_witness (role : NodeRole) : bool :=
  match role with RoleWitness => true | _ => false end.

(** The state file that [serve] gives a role, and the token that guards its
    writes. *)
Definition state_file (data_dir : string) (role : NodeRole) : string :=
  data_dir +:+ "/" +:+
  match role with
  | RoleRelay => "relay-state-v2.json"
  | RoleConfigStore => "config-state-v2.json"
  | RoleSigner => "signer-state-v2.json"
  | RoleGuardian => "guardian-state-v2.json"
  | RoleWitness => "witness-state-v3.json"
  end.
Definition write_token (config : ServeConfig) : string :=
  match svc_role config with
  | RoleRelay => svc_relay_token config
  | _ => svc_admin_token config
  end.

(** [MailboxResponse::kind] (crates/gp-network/src/types.rs). *)
Definition kind (response : MailboxResponse) : string :=
  match response with
  | MSignerContribution _ => "signer_contribution"
  | MReleaseVote _ => "release_vote"
  | MBeginAccepted _ => "begin_accepted"
  | MCancellationAccepted _ => "cancellation_accepted"
  | MReleaseRefused _ => "release_refused"
  | MGuardianContribution _ => "guardian_contribution"
  end.

Section shell.
Context `{Prims : Primitives} `{Sharing : SharingPrimitives}.

Definition node_info (identity : IdentityDisk) (role : NodeRole) : NodeInfo :=
  let key := RecipientKeyPair_from_seed (idd_kem_seed identity) in {|
  ni_protocol_version := if is_witness role then PROTOCOL_VERSION_V3 else PROTOCOL_VERSION;
  ni_node_id := idd_node_id identity;
  ni_role := as_str role;
  ni_transport_public_key := rkp_public key;
  ni_signing_public_key :=
    if is_witness role then Some (verifying_key_bytes (signing_key (idd_kem_seed identity)))
    else None
|}.

Definition node_info_v3 (identity : IdentityDisk) (role : NodeRole) : NodeInfo :=
  let key := RecipientKeyPair_from_seed (idd_kem_seed identity) in {|
  ni_protocol_version := PROTOCOL_VERSION_V3;
  ni_node_id := idd_node_id identity;
  ni_role := as_str role;
  ni_transport_public_key := rkp_public key;
  ni_signing_public_key := Some (verifying_key_bytes (signing_key (idd_kem_seed identity)))
|}.

Definition health (identity : IdentityDisk) (role : NodeRole) : Health := {|
  he_status := "ok";
  he_role := as_str role;
  he_node_id := idd_node_id identity
|}.

End shell.

(** ** Forwarding *)

(** [StatusCode::is_success] and [StatusCode::from_u16]. *)
Definition is_success (status : N) : bool := (200 <=? status)%N && (status <? 300)%N.
Definition BAD_GATEWAY : N := 502.
Definition status_code (status : N) : N :=
  if (100 <=? status)%N && (status <? 1000)%N then status else BAD_GATEWAY.

Section forwarding.
Context `{Forwarding}.

(** What the relay makes of the answer. *)
Definition passed_on (answer : Exchanged) : Result ForwardError SealedMailboxBody :=
  match answer with
  | NotSent => Err (Refused (bad_request (OfError EHttp)))
  | Answered status message body =>
    if is_success status then ok_or body (Refused (bad_request (OfError EHttp)))
    else Err (Upstream (status_code status) (default EmptyString message))
  end.

(** The three handlers differ in the path of the target and in whether they
    log the mailbox once the request is answered. *)
Definition forward (path : string) (logged : bool) (mailbox : string) (body : SealedMailboxBody)
    (routes : Persisted RelayDisk) (outside : Outside) :
    Result ForwardError SealedMailboxBody * Outside :=
  match (relay_target path mailbox routes).1 with
  | Err e => (Err (Refused e), outside)
  | Ok target =>
    let '(answer, outside) := post_body target body outside in
    let sliced := match answer with
      | NotSent => true
      | Answered _ _ _ => negb logged || prefix_sliceable mailbox
      end in
    (if sliced then passed_on answer else Err (Refused panicked), outside)
  end.

Definition relay_forward := forward "/v1/mailbox/" true.
Definition relay_forward_v3 := forward "/v3/mailbox/" false.
Definition relay_forward_recovery_v3 := forward "/v3/recovery/" false.

(** ** A relay only passes bodies on *)

Lemma relay_target_Ok path mailbox (routes : Persisted RelayDisk) target :
  (relay_target path mailbox routes).1 = Ok target ↔
  ∃ route, data routes !! mailbox = Some route
    ∧ target = rrec_target_url route +:+ path +:+ mailbox.
Proof.
  unfold relay_target, get_data, mbind, SR_bind, lift, ok_or, mret, SR_ret. cbn.
  destruct (data routes !! mailbox) as [route |]; cbn; split.
  - intros [= <-]. by exists route.
  - by intros (? & [= <-] & ->).
  - done.
  - by intros (? & [=] & _).
Qed.

(** What a relay answers is the body of a successful answer of the one target
    registered for the mailbox; an error of that target keeps its status, and
    of a mailbox without a route nothing is sent. *)
Lemma forward_faithful path logged mailbox body routes outside r outside' :
  forward path logged mailbox body routes outside = (r, outside') →
  match data routes !! mailbox with
  | None => r = Err (Refused (not_found "unknown mailbox")) ∧ outside' = outside
  | Some route =>
    ∃ answer, post_body (rrec_target_url route +:+ path +:+ mailbox) body outside
      = (answer, outside')
    ∧ (∀ sealed, r = Ok sealed →
        ∃ status message, answer = Answered status message (Some sealed)
          ∧ is_success status = true)
    ∧ ∀ status message, r = Err (Upstream status message) →
        ∃ status' text sealed, answer = Answered status' text sealed
          ∧ is_success status' = false ∧ status = status_code status'
  end.
Proof.
  unfold forward. destruct (data routes !! mailbox) as [route |] eqn:E.
  - assert (Ht : (relay_target path mailbox routes).1
        = Ok (rrec_target_url route +:+ path +:+ mailbox))
      by (apply relay_target_Ok; by exists route).
    rewrite Ht.
    destruct (post_body _ body outside) as [answer o] eqn:Ep. intros [= <- <-].
    exists answer. split; [done |]. unfold passed_on.
    destruct answer as [| status message sealed]; [by split |].
    destruct (negb logged || prefix_sliceable mailbox); [| by split].
    destruct (is_success status) eqn:Es; split; try done.
    + intros b Hb. destruct sealed; [| done]. injection Hb as <-. by exists status, message.
    + intros s m Hm. by destruct sealed.
    + intros s m [= <- <-]. by exists status, message, sealed.
  - unfold relay_target, get_data, mbind, SR_bind, lift, ok_or. cbn. rewrite E. by intros [= <- <-].
Qed.

End forwarding.

End NodeShell.
