(* ===== verification/Frontends.v ===== *)
(** The programs that users start.

    Modules [ErrorText] and [Frontends]: the programs around the
    simulator: the command objects (crates/gp-ipc), the command line's options
    (crates/gp-cli) and the handlers of the browser gateway
    (crates/gp-gui-sim), with the texts of the errors they show.

    Module [CommandLine]: the command line of the network runtime
    (crates/gp-network/src/main.rs): which client or coordinator each
    subcommand runs, with which options.  Parsing by clap, and printing, are not modelled. *)

From S2P Require Export SimulatorRun RotationSimRun.
From S2P Require Export NodeShell SetupV3 ClientV3 Handover CancelRotation.

(** ** Data *)

Inductive IpcCommand : Set :=
| Ping
| RunDemo (version : u16) (options : DemoOptions).

Inductive IpcResponse : Set :=
| Pong (version : u16)
| Snapshot (version : u16) (result : DemoResult)
| IpcError (version : u16) (message : string).

Inductive RotationApiResponse : Set :=
| RotationComplete (result : RotationDemoResult)
| RotationFailed (message : string).

Record SignerKeysResponse : Set := mkSignerKeysResponse {
  skr_signer_public_keys : list string;
  skr_error : option string
}.

(** [clap::ValueEnum] of the command line. *)
Inductive ModeArg : Set := ModeArgOff | ModeArgBasic | ModeArgStrong.

Record DemoArgs : Set := mkDemoArgs {
  da_seed : u64;
  da_mode : ModeArg;
  da_secret : string;
  da_offline_signer : u16;
  da_offline_guardian : u16;
  da_corrupt_guardian : u16;
  da_signer_count : u16;
  da_signer_threshold : u16;
  da_guardian_count : u16;
  da_guardian_threshold : u16;
  da_delay_seconds : u64;
  da_latency_ms : u64;
  da_loss_percent : u8;
  da_duplication_percent : u8;
  da_mix_drop_percent : u8;
  da_cover_rate : u16;
  da_json : bool
}.

Record RotationArgs : Set := mkRotationArgs {
  ra_seed : u64;
  ra_secret : string;
  ra_delay_seconds : u64;
  ra_cancel_at : option N;
  ra_fail_at : option N;
  ra_json : bool
}.

(** The subcommands that run the simulator; [Serve] only starts the gateway. *)
Inductive CliCommand : Set :=
| CliDemo (args : DemoArgs)
| CliCancel (args : DemoArgs)
| CliCompare (args : DemoArgs)
| CliRotate (args : RotationArgs).

(** What a subcommand has to display. *)
Inductive CliOutput : Set :=
| ShowDemo (result : DemoResult)
| ShowComparison (results : list DemoResult)
| ShowRotation (result : RotationDemoResult).

(** ** The texts of the errors *)

Module ErrorText.

(** [Debug] of the states, as [{from:?}] writes them. *)
Definition recovery_state_name (state : RecoveryState) : string :=
  match state with
  | RecCreated => "Created"
  | RecAwaitingApprovals => "AwaitingApprovals"
  | RecAuthorized => "Authorized"
  | RecDelayPending => "DelayPending"
  | RecCancelled => "Cancelled"
  | RecReleasing => "Releasing"
  | RecCompleted => "Completed"
  | RecExpired => "Expired"
  end.

Definition rotation_state_name (state : RotationState) : string :=
  match state with
  | RotProposed => "Proposed"
  | RotDelayPending => "DelayPending"
  | RotPreparing => "Preparing"
  | RotReady => "Ready"
  | RotActivating => "Activating"
  | RotActive => "Active"
  | RotDraining => "Draining"
  | RotRetired => "Retired"
  | RotAborted => "Aborted"
  end.

Definition crypto_error_text (error : CryptoError) : string :=
  match error with
  | CrAuthentication => "AEAD authentication failed"
  | CrInvalidThreshold => "invalid threshold parameters"
  | CrInvalidSecretLength => "Shamir secrets must be exactly 32 bytes"
  | CrInsufficientShares => "not enough valid shares"
  | CrInvalidShare => "invalid share encoding"
  | CrDuplicateShare => "duplicate Shamir share index"
  | CrInvalidFragments => "invalid erasure fragment set"
  | CrInvalidSignature => "invalid signature or public key"
  | CrInvalidKemData => "invalid X-Wing key or ciphertext"
  | CrInvalidMerkleProof => "invalid Merkle proof"
  | CrKdf => "KDF expansion failed"
  | CrInvalidFrost => "invalid FROST share, public package, or protocol message"
  | CrInvalidFrostParticipant => "FROST participant identifier is duplicated or out of range"
  end.

Definition core_error_text (error : CoreError) : string :=
  match error with
  | CErr_InvalidTransition from => "invalid transition from " +:+ recovery_state_name from
  | CErr_StaleConfiguration => "request is stale or for another configuration"
  | CErr_Replay => "request id has already been observed"
  | CErr_UnknownRequest => "request is not pending"
  | CErr_DelayNotElapsed => "guardian delay has not elapsed"
  | CErr_Expired => "request has expired"
  | CErr_Cancelled => "request is permanently cancelled"
  | CErr_FailClosed => "certificate state is ambiguous or invalid"
  | CErr_RequestMismatch => "request digest does not match pending recovery"
  | CErr_InvalidRequest => "request fields are invalid for this protocol"
  end.

Definition rotation_error_text (error : RotationError) : string :=
  match error with
  | RErr_InvalidTransition from => "invalid rotation transition from " +:+ rotation_state_name from
  | RErr_InvalidEvidence => "certificate, result, or quorum is invalid"
  | RErr_DelayNotElapsed => "rotation delay has not elapsed"
  | RErr_IncompletePreparation => "not all advertised successor records are durable"
  | RErr_Aborted => "rotation has a permanent cancellation/abort tombstone"
  | RErr_FailClosed => "rotation state is ambiguous; fail closed"
  | RErr_InvalidSuccessor => "successor is not the exact next guardian epoch"
  | RErr_PredecessorLocked => "another successor is already locked for this predecessor"
  | RErr_Replay => "witness request is stale or replayed"
  | RErr_StaleEpoch => "request is not bound to the active or draining epoch"
  | RErr_UnknownRequest => "recovery request was not found"
  | RErr_RequestMismatch => "recovery request transcript does not match"
  | RErr_Cancelled => "recovery request is cancelled"
  | RErr_Expired => "recovery request is expired"
  end.

Definition storage_error_text (error : StorageError) : string :=
  match error with
  | SErr_NotFound => "record was not found"
  | SErr_StaleVersion => "stale configuration version"
  | SErr_WrongConfiguration => "request is for another signer configuration"
  | SErr_Replay => "request id or nonce has already been observed"
  | SErr_Conflict => "another child or plan is already locked for this predecessor"
  | SErr_InvalidEpoch => "guardian epoch transition is invalid"
  | SErr_NotDurable => "prepared state has not been durably committed"
  | SErr_NoPreparedSuccessor => "no prepared successor exists"
  | SErr_AlreadyActivated => "operation is forbidden after activation"
  | SErr_InjectedFailure => "injected atomic persistence failure"
  end.

Definition wire_error_text (error : WireError) : string :=
  match error with
  | FieldTooLarge => "canonical field exceeds maximum length"
  | InvalidFrame => "invalid or incomplete frame"
  | InvalidValue => "protocol value is invalid or outside its bound"
  | DuplicateActor => "duplicate actor id in quorum material"
  end.

(** [json] is the text of serde_json's error; nothing where the code panics. *)
Definition sim_error_text (json : string) (error : SimError) : option string :=
  match error with
  | SimCrypto e => Some (crypto_error_text e)
  | SimCore e => Some (core_error_text e)
  | SimRotation e => Some (rotation_error_text e)
  | SimStorage e => Some (storage_error_text e)
  | SimWire e => Some (wire_error_text e)
  | SimJson => Some json
  | SimThreshold => Some "protocol threshold was not reached"
  | SimInvalidCertificate => Some "certificate validation failed"
  | SimRequestBinding => Some "guardian contribution was not bound to this request"
  | SimRecoveryMismatch => Some "recovered secret did not match"
  | SimInvalidOptions message => Some ("invalid simulator options: " +:+ message)
  | SimPanic => None
  end%string.

End ErrorText.

Module Frontends.
Export ErrorText.

Definition IPC_VERSION : u16 := U16 1.

Section programs.
Context `{Prims : Primitives} `{Sharing : SharingPrimitives} `{Frost : FrostPrimitives}.
Context `{Protocol : ProtocolPrimitives} `{Json : ClientPrimitives}.
Context `{Simulation : !SimPrimitives} `{Generator : TransportRng}.
(* serde_json: the text of its error *)
Context (json_error : string).

(** The outcome of a call and its error's text; nothing where the code panics. *)
Definition shown {A B} (r : Result SimError A) (ok : A → B) (err : string → B) : option B :=
  match r with
  | Ok a => Some (ok a)
  | Err e => err <$> sim_error_text json_error e
  end.

(** ** The command objects *)

Definition execute (command : IpcCommand) : option IpcResponse :=
  match command with
  | Ping => Some (Pong IPC_VERSION)
  | RunDemo version options =>
    if (version ==? IPC_VERSION)%mr
    then shown (SimulatorRun.run_demo options) (Snapshot IPC_VERSION) (IpcError IPC_VERSION)
    else Some (IpcError IPC_VERSION "unsupported IPC version")
  end.

(** ** The browser gateway *)

Definition STATUS_OK : N := 200.
Definition STATUS_BAD_REQUEST : N := 400.

Definition security_headers : list (string * string) := [
  ("cache-control", "no-store");
  ("pragma", "no-cache");
  ("referrer-policy", "no-referrer");
  ("x-content-type-options", "nosniff");
  ("content-security-policy",
    "default-src 'self'; script-src 'self' 'unsafe-inline'; style-src 'self' 'unsafe-inline'; img-src 'self' data:; connect-src 'self'; base-uri 'none'; form-action 'self'; frame-ancestors 'none'");
  ("cross-origin-resource-policy", "same-origin");
  ("permissions-policy", "camera=(), microphone=(), geolocation=()")
]%string.

(** A status, the headers and the body that is written as JSON. *)
Abbreviation Reply A := (N * list (string * string) * A)%type.

Definition execute_demo (options : DemoOptions) : option IpcResponse :=
  execute (RunDemo IPC_VERSION options).

Definition run_demo_post (options : DemoOptions) : option (Reply IpcResponse) :=
  response ← execute_demo options;
  let status := match response with IpcError _ _ => STATUS_BAD_REQUEST | _ => STATUS_OK end in
  Some (status, security_headers, response).

Definition run_rotation_post (options : RotationDemoOptions) : option (Reply RotationApiResponse) :=
  shown (RotationSimRun.run_rotation_demo options)
    (λ result, (STATUS_OK, security_headers, RotationComplete result))
    (λ text, (STATUS_BAD_REQUEST, security_headers, RotationFailed text)).

Definition health : list (string * string) * option IpcResponse :=
  (security_headers, execute Ping).

Definition signer_keys_post (seed : u64) (signer_count : u16) : option (Reply SignerKeysResponse) :=
  shown (Simulator.simulator_signer_public_keys seed signer_count (U64 1))
    (λ keys, (STATUS_OK, security_headers, mkSignerKeysResponse keys None))
    (λ text, (STATUS_BAD_REQUEST, security_headers, mkSignerKeysResponse [] (Some text))).

(** ** The command line *)

Definition metadata_mode_of (value : ModeArg) : MetadataMode :=
  match value with
  | ModeArgOff => MetadataOff
  | ModeArgBasic => MetadataBasic
  | ModeArgStrong => MetadataStrong
  end.

Definition nonzero (value : u16) : option u16 :=
  if negb (uval value =? 0)%N then Some value else None.

(** The [#[arg(default_value_t = ..)]] of the two argument records. *)
Definition DemoArgs_default : DemoArgs := {|
  da_seed := U64 424242;
  da_mode := ModeArgStrong;
  da_secret := "correct horse battery staple";
  da_offline_signer := U16 3;
  da_offline_guardian := U16 0;
  da_corrupt_guardian := U16 1;
  da_signer_count := U16 3;
  da_signer_threshold := U16 2;
  da_guardian_count := U16 8;
  da_guardian_threshold := U16 5;
  da_delay_seconds := U64 5;
  da_latency_ms := U64 120;
  da_loss_percent := U8 0;
  da_duplication_percent := U8 0;
  da_mix_drop_percent := U8 0;
  da_cover_rate := U16 3;
  da_json := false
|}.

Definition RotationArgs_default : RotationArgs := {|
  ra_seed := U64 424242;
  ra_secret := "correct horse battery staple";
  ra_delay_seconds := U64 5;
  ra_cancel_at := None;
  ra_fail_at := None;
  ra_json := false
|}.

Definition demo_options_of (args : DemoArgs) (cancel : bool) : DemoOptions := {|
  do_seed := da_seed args;
  do_mode := metadata_mode_of (da_mode args);
  do_secret := da_secret args;
  do_offline_signer := nonzero (da_offline_signer args);
  do_offline_guardian := nonzero (da_offline_guardian args);
  do_corrupt_guardian := nonzero (da_corrupt_guardian args);
  do_cancel_before_release := cancel;
  do_simulated_delay_secs := da_delay_seconds args;
  do_signer_count := da_signer_count args;
  do_signer_threshold := da_signer_threshold args;
  do_guardian_count := da_guardian_count args;
  do_guardian_threshold := da_guardian_threshold args;
  do_network_latency_ms := da_latency_ms args;
  do_packet_loss_percent := da_loss_percent args;
  do_packet_duplication_percent := da_duplication_percent args;
  do_mix_drop_percent := da_mix_drop_percent args;
  do_cover_rate := da_cover_rate args
|}.

Definition run (args : DemoArgs) (cancel : bool) : Result SimError DemoResult :=
  SimulatorRun.run_demo (demo_options_of args cancel).

Definition with_mode (args : DemoArgs) (mode : ModeArg) : DemoArgs := {|
  da_seed := da_seed args;
  da_mode := mode;
  da_secret := da_secret args;
  da_offline_signer := da_offline_signer args;
  da_offline_guardian := da_offline_guardian args;
  da_corrupt_guardian := da_corrupt_guardian args;
  da_signer_count := da_signer_count args;
  da_signer_threshold := da_signer_threshold args;
  da_guardian_count := da_guardian_count args;
  da_guardian_threshold := da_guardian_threshold args;
  da_delay_seconds := da_delay_seconds args;
  da_latency_ms := da_latency_ms args;
  da_loss_percent := da_loss_percent args;
  da_duplication_percent := da_duplication_percent args;
  da_mix_drop_percent := da_mix_drop_percent args;
  da_cover_rate := da_cover_rate args;
  da_json := da_json args
|}.

(** One run per mode, up to the first that fails. *)
Definition compare (args : DemoArgs) : Result SimError (list DemoResult) :=
  collect (λ mode, run (with_mode args mode) false) [ModeArgOff; ModeArgBasic; ModeArgStrong].

Definition rotation_options_of (args : RotationArgs) : RotationDemoOptions := {|
  rdo_seed := ra_seed args;
  rdo_secret := ra_secret args;
  rdo_simulated_delay_secs := ra_delay_seconds args;
  rdo_replacements := rdo_replacements RotationSim.RotationDemoOptions_default;
  rdo_cancel_rotation_at := ra_cancel_at args;
  rdo_fail_preparation_at := ra_fail_at args
|}.

(** [main], but for what it prints. *)
Definition main (command : CliCommand) : Result SimError CliOutput :=
  match command with
  | CliDemo args => result ← run args false; Ok (ShowDemo result)
  | CliCancel args => result ← run args true; Ok (ShowDemo result)
  | CliCompare args => results ← compare args; Ok (ShowComparison results)
  | CliRotate args =>
    result ← RotationSimRun.run_rotation_demo (rotation_options_of args);
    Ok (ShowRotation result)
  end.

(** ** What they do *)

(** The gateway always sends the current version: its reply is the result of
    the run, with status 200 exactly when there is one. *)
Lemma run_demo_post_reply options reply :
  run_demo_post options = Some reply →
  reply.1.2 = security_headers
  ∧ ((∃ r, SimulatorRun.run_demo options = Ok r
        ∧ reply.1.1 = STATUS_OK ∧ reply.2 = Snapshot IPC_VERSION r)
     ∨ (∃ e text, SimulatorRun.run_demo options = Err e
        ∧ sim_error_text json_error e = Some text
        ∧ reply.1.1 = STATUS_BAD_REQUEST ∧ reply.2 = IpcError IPC_VERSION text)).
Proof.
  unfold run_demo_post, execute_demo, execute, shown. cbn [execute].
  replace (IPC_VERSION ==? IPC_VERSION)%mr with true by reflexivity.
  destruct (SimulatorRun.run_demo options) as [r | e]; cbn.
  - intros [= <-]. split; [done |]. left. by exists r.
  - destruct (sim_error_text json_error e) as [text |] eqn:E; [| done].
    intros [= <-]. split; [done |]. right. by exists e, text.
Qed.

(** A command of another version runs nothing. *)
Lemma execute_other_version version options :
  version ≠ IPC_VERSION →
  execute (RunDemo version options) = Some (IpcError IPC_VERSION "unsupported IPC version").
Proof. intros H. cbn [execute]. by rewrite (bool_decide_false _ H). Qed.

(** Without arguments the command line runs the defaults of the simulators. *)
Lemma default_arguments :
  demo_options_of DemoArgs_default false = Simulator.DemoOptions_default
  ∧ rotation_options_of RotationArgs_default = RotationSim.RotationDemoOptions_default.
Proof. split; vm_compute; reflexivity. Qed.

End programs.

End Frontends.

(** The secret of a setup: given, or read from a file. *)
Record SecretArg : Set := mkSecretArg {
  sa_secret : option string;
  sa_secret_file : option string
}.

Inductive NetworkCommand : Set :=
| CmdServe (config : ServeConfig)
| CmdSetup (secret : SecretArg) (config_store relay : list string)
    (relay_token admin_token : string) (signer guardian : list string)
    (signer_threshold guardian_threshold : u16) (delay_secs : u64) (card owner_control : string)
| CmdSetupV3 (secret : SecretArg) (relay : list string) (relay_token admin_token : string)
    (signer guardian witness : list string)
    (signer_threshold guardian_threshold witness_fault_bound : u16) (delay_secs : u64)
    (card owner_control : string)
| CmdRecover (card : string) (output request_out : option string) (cancel_before_release : bool)
    (owner_control : string)
| CmdCancel (request owner_control : string)
| CmdDiscoverV3 (card : string)
| CmdRecoverV3 (card : string) (output request_out : option string)
| CmdRotateV3 (card owner_control : string) (remove_guardian : u16)
    (replacement_guardian relay_token admin_token rotation_control : string)
| CmdCancelRotationV3 (rotation_control owner_control : string).

(** What a subcommand shows of a run. *)
Inductive NetworkOutput : Set :=
| Serving (config : ServeConfig)
| OutCard (card : RecoveryCard)
| OutCardV3 (card : RecoveryCardV3)
| OutRecovery (result : NetworkDemoResult)
| OutCancel (result : OwnerCancelResult)
| OutCapsule (capsule : ConfigCapsuleV3)
| OutRotation (result : RotateV3Result)
| OutRotationCancel (result : CancelRotationV3Result).

Module CommandLine.

Section command_line.
Context `{Prims : Primitives} `{Sharing : SharingPrimitives} `{Frost : FrostPrimitives}.
Context `{Protocol : ProtocolPrimitives} `{World : Network} `{Json : ClientPrimitives}.
Context `{RWorld : !RotationNetwork} `{RJson : RotationJson}.
(* std::fs::read *)
Context (read_bytes : string → Net → option (list byte) * Net).

(** clap lets at most one of the two be given. *)
Definition secret_of (arg : SecretArg) : Client (list byte) :=
  match sa_secret arg, sa_secret_file arg with
  | Some value, None => mret (as_bytes value)
  | None, Some path => exchange EIo (read_bytes path)
  | None, None => try (Err (Msg "provide --secret or --secret-file"))
  | Some _, Some _ => try (Err EPanic)
  end.

(** *** The arms of [main] *)

Definition setup_command (secret : SecretArg) (config_store relay : list string)
    (relay_token admin_token : string) (signer guardian : list string)
    (signer_threshold guardian_threshold : u16) (delay_secs : u64) (card owner_control : string) :
    Client NetworkOutput :=
  secret ← secret_of secret;
  card ← ClientV2.setup {|
    so_secret := secret;
    so_config_stores := config_store;
    so_relays := relay;
    so_relay_token := relay_token;
    so_admin_token := admin_token;
    so_signers := signer;
    so_guardians := guardian;
    so_signer_threshold := signer_threshold;
    so_guardian_threshold := guardian_threshold;
    so_delay_secs := delay_secs;
    so_card_path := card;
    so_owner_control_path := owner_control |};
  mret (OutCard card).

Definition setup_v3_command (secret : SecretArg) (relay : list string)
    (relay_token admin_token : string) (signer guardian witness : list string)
    (signer_threshold guardian_threshold witness_fault_bound : u16) (delay_secs : u64)
    (card owner_control : string) : Client NetworkOutput :=
  secret ← secret_of secret;
  card ← SetupV3.setup_v3 {|
    s3_secret := secret;
    s3_relays := relay;
    s3_relay_token := relay_token;
    s3_admin_token := admin_token;
    s3_signers := signer;
    s3_guardians := guardian;
    s3_witnesses := witness;
    s3_signer_threshold := signer_threshold;
    s3_guardian_threshold := guardian_threshold;
    s3_witness_fault_bound := witness_fault_bound;
    s3_delay_secs := delay_secs;
    s3_card_path := card;
    s3_owner_control_path := owner_control |};
  mret (OutCardV3 card).

Definition recover_command (card : string) (output request_out : option string)
    (cancel_before_release : bool) (owner_control : string) : Client NetworkOutput :=
  result ← ClientV2.recover {|
    ro_card_path := card;
    ro_output_path := output;
    ro_request_out_path := request_out;
    ro_cancel_before_release := cancel_before_release;
    ro_owner_control_path := owner_control |};
  mret (OutRecovery result).

Definition cancel_command (request owner_control : string) : Client NetworkOutput :=
  result ← ClientV2.cancel {|
    co_request_path := request; co_owner_control_path := owner_control |};
  mret (OutCancel result).

Definition discover_v3_command (card : string) : Client NetworkOutput :=
  card ← exchange EIo (read_card_v3 card);
  capsule ← ClientV3.discover_latest_epoch_v3 card;
  mret (OutCapsule capsule).

Definition recover_v3_command (card : string) (output request_out : option string) :
    Client NetworkOutput :=
  result ← ClientV3.recover_v3 {|
    rv3_card_path := card; rv3_output_path := output; rv3_request_out_path := request_out |};
  mret (OutRecovery result).

Definition rotate_v3_command (card owner_control : string) (remove_guardian : u16)
    (replacement_guardian relay_token admin_token rotation_control : string) :
    Client NetworkOutput :=
  result ← Handover.rotate_v3 {|
    rot3_card_path := card;
    rot3_owner_control_path := owner_control;
    rot3_remove_guardian := remove_guardian;
    rot3_replacement_target := replacement_guardian;
    rot3_relay_token := relay_token;
    rot3_admin_token := admin_token;
    rot3_rotation_control_path := rotation_control |};
  mret (OutRotation result).

Definition cancel_rotation_v3_command (rotation_control owner_control : string) :
    Client NetworkOutput :=
  result ← CancelRotation.cancel_rotation_v3 {|
    crt_rotation_control_path := rotation_control;
    crt_owner_control_path := owner_control |};
  mret (OutRotationCancel result).

(** A node serves until it is stopped. *)
Definition main (command : NetworkCommand) : Client NetworkOutput :=
  match command with
  | CmdServe config => mret (Serving config)
  | CmdSetup secret config_store relay relay_token admin_token signer guardian signer_threshold
      guardian_threshold delay_secs card owner_control =>
    setup_command secret config_store relay relay_token admin_token signer guardian
      signer_threshold guardian_threshold delay_secs card owner_control
  | CmdSetupV3 secret relay relay_token admin_token signer guardian witness signer_threshold
      guardian_threshold witness_fault_bound delay_secs card owner_control =>
    setup_v3_command secret relay relay_token admin_token signer guardian witness
      signer_threshold guardian_threshold witness_fault_bound delay_secs card owner_control
  | CmdRecover card output request_out cancel_before_release owner_control =>
    recover_command card output request_out cancel_before_release owner_control
  | CmdCancel request owner_control => cancel_command request owner_control
  | CmdDiscoverV3 card => discover_v3_command card
  | CmdRecoverV3 card output request_out => recover_v3_command card output request_out
  | CmdRotateV3 card owner_control remove_guardian replacement_guardian relay_token admin_token
      rotation_control =>
    rotate_v3_command card owner_control remove_guardian replacement_guardian relay_token
      admin_token rotation_control
  | CmdCancelRotationV3 rotation_control owner_control =>
    cancel_rotation_v3_command rotation_control owner_control
  end.

(** Without a secret a setup stops before it reaches any node. *)
Lemma setup_needs_secret config_store relay relay_token admin_token signer guardian
    signer_threshold guardian_threshold delay_secs card owner_control s :
  main (CmdSetup (mkSecretArg None None) config_store relay relay_token admin_token signer
    guardian signer_threshold guardian_threshold delay_secs card owner_control) s
  = (Err (Msg "provide --secret or --secret-file"), s).
Proof. done. Qed.

End command_line.

End CommandLine.
